(* ===== verification/_CoqProject ===== *)
-Q . S2P
Prelude.v
Utils.v
Bytes.v
Bitfield.v
Pqueue.v
Clock.v
UtTable.v
Sos.v
Cspace.v
Sample.v
CspaceSpec.v
CspaceGrow.v
Mapping.v
UtAlloc.v
Layers.v
Dma.v
Bootstrap.v
BootSpec.v
FrameTable.v
FrameClock.v
PageTable.v
FrameSpec.v
PageSpec.v
ObjectSpec.v
AddressSpace.v
Coroutines.v
Procs.v
SharedBuf.v
Console.v
Vnode.v
Device.v
Nfs.v
Vfs.v
Pager.v
Libelf.v
Cpio.v
Elf.v
Vm.v
Proc.v
ProcSpec.v
Syscalls.v
Morecore.v
Main.v
Libsosapi.v
Zdr.v
ZdrSpec.v
ZdrMsg.v
Rpc.v
RpcSpec.v
RpcReply.v
RpcStream.v
RpcLife.v
RpcTime.v
RpcDemo.v
Dlist.v
Ntfn.v
NtfnSpec.v
Sync.v
SyncSpec.v
SyncKernel.v
SyncRec.v
Sched.v
SchedSpec.v
SchedRefine.v
SchedSound.v
SchedRun.v
SchedDemo.v
