(* ===== verification/Prelude.v ===== *)
(** * Verification of SOS, the Simple Operating System on seL4

    SOS is a server that runs as the first process of an seL4 kernel and gives
    other processes memory, files, a console, timers and system calls.  The
    development models its C sources (below, a path without a directory of its
    own is in [src/projects/aos/sos/src]) as computations on one state and proves
    what they guarantee.  It holds for every kernel, C library, file server and
    network: those are parameters.

    ** The parts and how they interact

    The kernel hands untyped memory to SOS at start.  [ut/ut.c] keeps a table of
    it, [libsel4cspace] keeps track of the slots capabilities can go to, and
    [mapping.c] maps frames.  On these three stand the frame table
    ([vm/frametable.c]), which owns all frames processes can use, and the page
    tables and address spaces of processes ([vm/pagetable.c],
    [vm/address_space.c]).  When frames run out, the frame table picks a victim
    by second chance and [vm/pager.c] writes it to a file.  The pager and the
    system calls use the file system ([vfs], [fs], [dev]), which moves data
    through one shared buffer per process ([vm/shared_buf.c], [uio.c]).
    [proc/proc.c] makes processes from ELF programs ([elf.c], [libelf],
    [libcpio]) and ends them.  [main.c] waits for messages and runs each fault
    and each system call in a coroutine ([picoro/picoro.c]); [libclock] calls
    back when timers are due.

    Two parts are beneath or beside the server.  Files live on another machine,
    and [libnfs] reaches it by remote procedure calls: messages are encoded by
    [lib/libnfs-zdr.c], queued, sent, received and matched to their calls by
    [lib/pdu.c], [lib/socket.c] and [lib/init.c].  The locks of [libsel4sync] are
    for programs of several threads and rest on the notifications of the kernel
    ([src/kernel/src/object/notification.c]), on which the server itself waits for
    interrupts.  Which thread runs is decided by the kernel's scheduler
    ([src/kernel/src/kernel/thread.c], with the ready queues of
    [src/kernel/src/object/tcb.c]), to which every signal and message goes.

    ** The model

    An operation is a computation [M S A]: a function of the state that ends in
    [Ok] with a value and a new state, or in [Stuck] because an assertion failed
    ([Assert]), a pointer led nowhere ([Segv]) or fuel ran out ([NoFuel]).  The
    error codes of C are values; whatever a failing operation has changed by then
    is in the state it returns.  Integers are [Z] and every operation that can
    leave the width of its C type wraps explicitly.  Objects on the heap are
    entries of one finite map per type, so that aliasing is visible; lists
    threaded through objects are chains in those maps where the code changes the
    links.

    Code that is not part of SOS is the class [Env] of [Sos]: a call to it has a
    name and integer arguments, and its answer is arbitrary unless a theorem says
    otherwise.  A [yield] hands control to the rest of the system, which is the
    parameter [others] of the class [Sched] of [Procs].

    - [Prelude]: integers, the monad, [preserves] and [fuel_free] with their
      hint databases, generic lemmas.  [Utils]: the macros of [libutils].
    - [Sos]: the state and the interface to external code.  [Sample]: a concrete
      machine, on which the theorems with hypotheses are applied.
    - [Bitfield], [Cspace], [CspaceSpec], [CspaceGrow]: [libsel4cspace].
      [UtTable], [UtAlloc]: [ut/ut.c].  [Mapping]: [mapping.c] and the part of
      [bootstrap.c] through which the server's own cspace gets memory.
      [Layers]: what all of these leave alone.  [Dma]: [dma.c].  [Bootstrap],
      [BootSpec]: the start of the server in [bootstrap.c].
    - [FrameTable], [FrameClock], [FrameSpec]: [vm/frametable.c].
      [PageTable], [PageSpec], [ObjectSpec], [Vm]: [vm/pagetable.c], the tree of
      a page table and the list of its kernel objects.  [AddressSpace]:
      [vm/address_space.c].  [Pager]: [vm/pager.c].  [SharedBuf]:
      [vm/shared_buf.c] and [uio.c].
    - [Pqueue], [Clock]: [libclock].  [Console]: [libserial] and
      [dev/console.c].  [Vnode], [Device], [Nfs], [Vfs]: [vfs], [fs] and
      [syscall/filetable.c].
    - [Libelf], [Cpio], [Elf]: [libelf], [libcpio] and [elf.c].  [Procs], [Proc],
      [ProcSpec]: [proc/proc.c].  [Coroutines]: [picoro/picoro.c].
    - [Syscalls]: the handlers in [syscall].  [Morecore]: [sys/morecore.c].
      [Main]: [main.c].
    - [Libsosapi]: the other side of the system calls, [libsosapi] and the table
      of system calls of [libaos/src/vsyscall.c], in programs.
    - [Bytes]: bytes and words in memory.  [Zdr]: [libnfs/lib/libnfs-zdr.c] on a
      heap of bytes.  [ZdrSpec]: codecs, what it is for an encoder and a decoder to
      agree on the image of a value, and the codecs of the basic types.  [ZdrMsg]:
      the messages of the protocol.
    - [Rpc]: [libnfs/lib/pdu.c], [socket.c] and [init.c], the client's side.
      [RpcSpec]: its intrusive queues as lists.  [RpcReply]: replies and
      fragments.  [RpcStream]: the byte streams in both directions.  [RpcLife]:
      reconnection and the end of calls.  [RpcTime]: timeouts and the loops of the
      settings.  [RpcDemo]: a concrete client.
    - [Dlist]: queues threaded through their elements in both directions, for
      every record with two links; both kinds of queues of the kernel use it.
    - [Ntfn]: notifications and the queues of blocked threads in the kernel.
      [NtfnSpec]: the abstract machine they refine.  [Sync]: [libsel4sync], each
      function a program of atomic actions.  [SyncSpec]: the mutex, against an
      interface of notifications; [SyncKernel]: the kernel satisfies it, a concrete
      system, condition variables.  [SyncRec]: the recursive mutex.
    - [Sched]: the scheduler of the kernel, its bitmaps, queues, domains and time
      slices.  [SchedSpec]: the board, lists of ready threads with the same
      operations.  [SchedRefine]: the pointers and bitmaps implement the board.
      [SchedSound]: what holds of the board between entries of the kernel.
      [SchedRun]: the theorems about runs.  [SchedDemo]: a concrete system.

    ** What the theorems show

    - Capability slots: in a two-level cspace a slot is given out only when it is
      free, freeing makes exactly that slot free, growing the cspace loses
      nothing, and the recursion that refills the watermark ends.
    - Untyped memory: the intrusive lists refine stacks of free objects.
    - Frames: allocation and freeing keep the free list and the table consistent,
      and a new frame is mapped where the table says;
      the clock hand stops within one turn at the first frame without reference
      bit and changes nothing but the bits and mappings it passes.
    - Page tables: [page_table_insert] refines the update of a map from pages to
      entries, and the first fault of a page maps exactly this page to the
      first free frame, making the kernel's tables that are missing, or changes no
      page.
    - Address spaces: regions stay disjoint; what [as_destroy_region] removes.
    - Paging: a slot of the page file is never given out twice, can always be
      returned, and [pageout] writes the victim's bytes to the slot that it
      enters in the owner's page table.
    - Timers: the interrupt runs exactly the due jobs, once each and in order, and
      re-arms the periodic ones, for callbacks that leave the driver alone; where
      [pqueue_push] puts a job and which job it loses.
    - Files: operations keep the count of pending operations of a process
      balanced, whatever other coroutines do meanwhile, zombies start none,
      descriptors are the lowest free ones, data copied into a shared buffer is
      what is copied out, and only there.
    - Programs: archive lookup finds the first file of a name, the loader's loop
      covers a segment page by page, the first stack has the layout of the ABI.
    - Processes: on every sequence of kills and reaps zombies are listed once and
      leave the table only when nothing of theirs is pending.
    - Coroutines: the running and the idle list are proper and disjoint in every
      reachable state, and creating a coroutine succeeds from each.
    - The server: badges identify senders, and a known system call whose handler
      returns is answered on its own reply slot.
    - The start: stolen memory is aligned and not handed out twice, untypeds are
      retyped into consecutive slots, and the book-keeping of the first cspace
      establishes the invariant on which the theorems about slots rest, unless it
      leaves a single slot of the last cnode free.
    - Messages: the coders of replies are inverse to each other, calls have the
      image the protocol prescribes, credentials laid out by hand are what the
      encoder writes; where padding goes past the end of a buffer, and where lengths
      and message types from the network are trusted.
    - Remote procedure calls: records are cut out of the stream whatever pieces it
      comes in, a reply finds its call and no other, in one piece or in fragments,
      which are freed; calls are sent in order and byte for byte; a broken
      connection loses none.
    - Notifications: on every sequence of calls the kernel's doubly linked queues
      behave like lists.
    - Scheduling: along every sequence of entries of the kernel no assertion of the
      scheduler fails, no thread that can run is forgotten and none of a higher
      priority than the current thread's is kept waiting; the bitmaps find what a
      search of all queues would; a woken thread preempts, and threads of one
      priority take turns, each after an exact number of ticks.
    - Locks: mutual exclusion, no failing assertion, no lost wake-up and hand-over
      in order of arrival for the mutex, in every interleaving; exclusion, the
      count of locks and no failing assertion for the recursive one; two runs in
      which a condition variable loses a wake-up.
    - The user library: a path arrives at the handler as the program gave it, and
      data read arrives in the program's buffer; a failed read overruns it.

    ** Fuel

    A loop that is not structural has fuel, and its caller passes enough of it:
    [clock_loop] one more than the frames, [find_pid] one more than the process
    ids, [pieces] one per page and two more, [send_loop] and [read_file] one per
    byte and one more, [chunks] one per object, [strlen] one more than the bytes
    of the memory, chains one more than the objects of their heap,
    [alloc_slot] two levels, [mmap_search] one more than the regions.  That it is
    enough is proved for the clock, the slot allocator, the process ids, the
    pieces, the serial line, the lists of the page file, the search of [mmap] and
    the archive, the pieces of untypeds and strings; the loop of
    [timer_interrupt] has no bound (a periodic timer
    shorter than a tick keeps it running), and its theorem says how much fuel the
    due jobs need.  The number of directory entries a server sends and of files
    in the archive are the parameters [dir_entries] and [archive_entries].  Chains
    of calls and of threads get one more than there are calls or threads; the loops
    that read from and write to a socket take their fuel as an argument, and
    [RpcStream] says how much the pending bytes need; [bind_ports] one per port.
    The steps of threads ([Sync]) need no fuel: a schedule is a list of turns.
    The scheduler has no loop but over lists, and needs none.

    ** Not modelled

    - The setup of the network ([network.c]), and from [main] the reading of the
      kernel's boot information out of the environment and the installation of
      the C library's system calls.
    - Device registers: [drivers/uart.c] and the ethernet driver.
    - Log output, and the hooks of the server's own C library for output, sockets,
      time and exit ([sys] without [morecore.c]).
    - The kernel but for notifications and the scheduler, [picotcp], the C library, and [libnfs]
      above the RPC layer ([libnfs.c], the NFS and MOUNT protocols and the code
      generated for their data): where SOS calls them they are the parameter
      [Env].  Of the RPC layer: the server's side, addresses of datagrams, log
      output.
    - Counting semaphores of [libsel4sync].  The theorems about its locks hold for
      every schedule and so do not use [Sched].
    - Of the scheduler: several cores, and the loading of registers and address
      spaces when threads are switched.  [setDomain] is modelled and refines the
      board but is not among the entries of the runs: it moves a thread into the
      current domain without a new choice, so that the current thread can have a
      lower priority until the next one.
    - That two coroutines really have separate stacks: [setjmp] and [longjmp]
      are taken at their word.
    - User programs. *)
From Stdlib Require Export ZArith Lia.
From stdpp Require Export base tactics numbers list gmap strings.

Global Open Scope Z_scope.

(** ** Machine integers

    A C integer of width [w] is a [Z]; unsigned arithmetic reduces modulo
    [2^w], conversion to a signed type takes the two's-complement
    representative. *)

Definition wrap (w x : Z) : Z := x mod 2 ^ w.
Definition u8 (x : Z) : Z := wrap 8 x.
Definition u16 (x : Z) : Z := wrap 16 x.
Definition u32 (x : Z) : Z := wrap 32 x.
Definition u64 (x : Z) : Z := wrap 64 x.
Definition sgn (w x : Z) : Z :=
  let y := x mod 2 ^ w in if y <? 2 ^ (w - 1) then y else y - 2 ^ w.
Definition s32 (x : Z) : Z := sgn 32 x.
Definition s64 (x : Z) : Z := sgn 64 x.

(** A C condition is a bool; [zb] is the int a comparison yields, [nz] the
    truth value of an int. *)
Definition zb (b : bool) : Z := if b then 1 else 0.
Definition nz (x : Z) : bool := negb (x =? 0).

Lemma wrap_small w x : 0 <= x < 2 ^ w -> wrap w x = x.
Proof. apply Z.mod_small. Qed.

Lemma wrap_bound w x : 0 <= w -> 0 <= wrap w x < 2 ^ w.
Proof. intros. apply Z.mod_pos_bound, Z.pow_pos_nonneg; lia. Qed.

Lemma wrap_wrap w x : wrap w (wrap w x) = wrap w x.
Proof. apply Z.mod_mod_divide, Z.divide_refl. Qed.

Lemma u64_small x : 0 <= x < 2 ^ 64 -> u64 x = x.
Proof. apply wrap_small. Qed.

Lemma u64_bound x : 0 <= u64 x < 2 ^ 64.
Proof. apply wrap_bound; lia. Qed.

Lemma u32_small x : 0 <= x < 2 ^ 32 -> u32 x = x.
Proof. apply wrap_small. Qed.

Lemma u32_bound x : 0 <= u32 x < 2 ^ 32.
Proof. apply wrap_bound; lia. Qed.

Lemma s32_small x : - 2 ^ 31 <= x < 2 ^ 31 -> s32 x = x.
Proof.
  intros H. unfold s32, sgn. change (32 - 1) with 31.
  destruct (Z.ltb_spec (x mod 2 ^ 32) (2 ^ 31)) as [Hl|Hl].
  - destruct (Z.le_gt_cases 0 x); [apply Z.mod_small; lia|].
    assert (x mod 2 ^ 32 = x + 2 ^ 32) as E; [|lia].
    symmetry. apply (Z.mod_unique_pos x (2 ^ 32) (-1)); lia.
  - destruct (Z.le_gt_cases 0 x).
    + rewrite Z.mod_small in Hl by lia. lia.
    + assert (x mod 2 ^ 32 = x + 2 ^ 32) as E; [|lia].
      symmetry. apply (Z.mod_unique_pos x (2 ^ 32) (-1)); lia.
Qed.

(** Fields of bits: the sum of two that do not overlap, and one cut out. *)
Lemma lor_add a b k : 0 <= k -> 0 <= a < 2 ^ k -> Z.lor a (b * 2 ^ k) = a + b * 2 ^ k.
Proof.
  intros Hk Ha. assert (Z.land a (b * 2 ^ k) = 0) as H0.
  - rewrite <- Z.shiftl_mul_pow2 by done. apply Z.bits_inj'. intros i Hi. rewrite Z.land_spec, Z.bits_0.
    destruct (Z.lt_ge_cases i k); [by rewrite Z.shiftl_spec_low, andb_false_r by lia|].
    by rewrite <- (Z.mod_small a (2 ^ k)), Z.mod_pow2_bits_high by lia.
  - pose proof (Z.add_lor_land a (b * 2 ^ k)). lia.
Qed.

Lemma land_field y k w : 0 <= k -> 0 <= w -> Z.land y ((2 ^ w - 1) * 2 ^ k) = (y / 2 ^ k) mod 2 ^ w * 2 ^ k.
Proof.
  intros Hk Hw. rewrite <- Z.land_ones, <- Z.shiftr_div_pow2, <- !Z.shiftl_mul_pow2 by done.
  replace (2 ^ w - 1) with (Z.ones w) by (rewrite Z.ones_equiv; lia).
  apply Z.bits_inj'. intros i Hi. rewrite Z.land_spec. destruct (Z.lt_ge_cases i k).
  - by rewrite !Z.shiftl_spec_low, andb_false_r by lia.
  - rewrite !Z.shiftl_spec, Z.land_spec, Z.shiftr_spec by lia. f_equal. f_equal. lia.
Qed.

(** ** Effects

    A C function is a function from the state it works on to an outcome: it
    returns a value in a new state, or it does not return.  The ways not to
    return are an [assert] or [ZF_LOGF] that stops the system, an access
    outside an object (a null or dangling pointer, an index past the end of
    an array), and the fuel of a loop running out. *)

Inductive failure : Type :=
| Assert  (* assert(0), ZF_LOGF: the system stops with a message *)
| Segv    (* undefined behaviour: null, dangling or out-of-bounds access *)
| NoFuel. (* the fuel given to a loop of the model ran out *)

#[global] Instance failure_eq_dec : EqDecision failure.
Proof. solve_decision. Defined.

Inductive result (S A : Type) : Type :=
| Ok (a : A) (s : S)
| Stuck (why : failure).
Arguments Ok {S A} a s.
Arguments Stuck {S A} why.

Definition M (S A : Type) : Type := S -> result S A.

#[global] Instance M_ret {S} : MRet (M S) := fun A a s => Ok a s.
#[global] Instance M_bind {S} : MBind (M S) := fun A B k c s =>
  match c s with
  | Ok a s' => k a s'
  | Stuck e => Stuck e
  end.

Definition get {S} : M S S := fun s => Ok s s.
Definition put {S} (s : S) : M S unit := fun _ => Ok tt s.
Definition modify {S} (f : S -> S) : M S unit := fun s => Ok tt (f s).
Definition gets {S A} (f : S -> A) : M S A := fun s => Ok (f s) s.
Definition stuck {S A} (e : failure) : M S A := fun _ => Stuck e.

(** [assert(b)] of C, and the access check the compiler leaves out. *)
Definition assert {S} (b : bool) : M S unit := if b then mret tt else stuck Assert.
Definition access {S} (b : bool) : M S unit := if b then mret tt else stuck Segv.
(** [*p]: dereference what may not be there. *)
Definition deref {S A} (o : option A) : M S A :=
  match o with Some a => mret a | None => stuck Segv end.
Definition when {S} (b : bool) (c : M S unit) : M S unit := if b then c else mret tt.

(** Run a computation on a part of the state. *)
Definition zoom {S T A} (view : S -> T) (set : T -> S -> S) (c : M T A) : M S A :=
  fun s => match c (view s) with
           | Ok a t => Ok a (set t s)
           | Stuck e => Stuck e
           end.

(** [for (x in l) body]. *)
Fixpoint for_each {S A} (l : list A) (body : A -> M S unit) : M S unit :=
  match l with
  | [] => mret tt
  | x :: l' => body x;; for_each l' body
  end.

(** The indices [a, a+1, ..., a+n-1] of a counting loop. *)
Definition zseq (a : Z) (n : nat) : list Z := (fun i => a + Z.of_nat i) <$> seq 0 n.

(** ** Reasoning about runs *)

Definition returns {S A} (c : M S A) (s : S) (Q : A -> S -> Prop) : Prop :=
  match c s with Ok a s' => Q a s' | Stuck _ => False end.

Lemma bind_Ok {S A B} (c : M S A) (k : A -> M S B) s b s' :
  mbind k c s = Ok b s' <-> exists a s1, c s = Ok a s1 /\ k a s1 = Ok b s'.
Proof.
  unfold mbind, M_bind. destruct (c s) as [a s1|e]; split.
  - intros H. by exists a, s1.
  - intros (a0 & s0 & [= <- <-] & H). done.
  - done.
  - intros (a0 & s0 & H & _). done.
Qed.

Lemma bind_run {S A B} (c : M S A) (k : A -> M S B) s a s1 :
  c s = Ok a s1 -> mbind k c s = k a s1.
Proof. unfold mbind, M_bind. by intros ->. Qed.

Lemma bind_stuck {S A B} (c : M S A) (k : A -> M S B) s e :
  c s = Stuck e -> mbind k c s = Stuck e.
Proof. unfold mbind, M_bind. by intros ->. Qed.

(** One step of a sequence whose first command is a primitive. *)
Lemma get_bind {S B} (k : S -> M S B) s : mbind k get s = k s s.
Proof. done. Qed.
Lemma gets_bind {S A B} (f : S -> A) (k : A -> M S B) s : mbind k (gets f) s = k (f s) s.
Proof. done. Qed.
Lemma modify_bind {S B} f (k : unit -> M S B) s : mbind k (modify f) s = k tt (f s).
Proof. done. Qed.
Lemma bind_assoc {S A B C} (c : M S A) (f : A -> M S B) (k : B -> M S C) s :
  mbind k (mbind f c) s = mbind (fun a => mbind k (f a)) c s.
Proof. unfold mbind, M_bind. by destruct (c s). Qed.
Lemma ret_bind {S A B} (a : A) (k : A -> M S B) s : mbind k (mret a : M S A) s = k a s.
Proof. done. Qed.
Lemma assert_bind {S B} b (k : unit -> M S B) s : b = true -> mbind k (assert b) s = k tt s.
Proof. by intros ->. Qed.
Lemma access_bind {S B} b (k : unit -> M S B) s : b = true -> mbind k (access b) s = k tt s.
Proof. by intros ->. Qed.
Lemma deref_bind {S A B} (o : option A) a (k : A -> M S B) s :
  o = Some a -> mbind k (deref o) s = k a s.
Proof. by intros ->. Qed.
Lemma assert_stuck {S B} b (k : unit -> M S B) s : b = false -> mbind k (assert b) s = Stuck Assert.
Proof. by intros ->. Qed.

Lemma ret_run {S A} (a : A) (s : S) : (mret a : M S A) s = Ok a s.
Proof. done. Qed.

Lemma assert_Ok {S} b (s s' : S) u : assert b s = Ok u s' <-> b = true /\ s' = s.
Proof. destruct b, u; cbv; naive_solver. Qed.

Lemma access_Ok {S} b (s s' : S) u : access b s = Ok u s' <-> b = true /\ s' = s.
Proof. destruct b, u; cbv; naive_solver. Qed.

Lemma deref_Ok {S A} (o : option A) (s s' : S) a :
  deref o s = Ok a s' <-> o = Some a /\ s' = s.
Proof. destruct o; cbv; naive_solver. Qed.

(** What a run returns and where it ends, to evaluate a concrete run. *)
Definition value {S A} (r : result S A) : option A := match r with Ok a _ => Some a | Stuck _ => None end.
Definition final {S A} (r : result S A) (s : S) : S := match r with Ok _ s' => s' | Stuck _ => s end.

Lemma value_final {S A} (r : result S A) a s : value r = Some a -> r = Ok a (final r s).
Proof. destruct r as [b s'|e]; [by intros [= ->] | done]. Qed.

(** [run_to c s v H]: evaluate the run of [c] from the closed state [s]; [H] says
    that it returns [v]. *)
Ltac run_to c s v H :=
  assert (value (c s) = Some v) as H by (vm_compute; reflexivity); apply (value_final _ _ s) in H.

Ltac ok_inj H :=
  first [injection H as <- <- | injection H as ? <- | injection H as <- ? | injection H as ? ?];
  subst.

(** Take a successful run apart: one equation per call of the sequence. *)
Ltac run_inv H :=
  lazymatch type of H with
  | mbind _ _ _ = Ok _ _ =>
      let a := fresh "v" in let s := fresh "s" in let H1 := fresh "Hrun" in
      apply bind_Ok in H; destruct H as (a & s & H1 & H);
      first [run_inv H1 | idtac]; first [run_inv H | idtac]
  | mret _ _ = Ok _ _ => ok_inj H
  | Ok _ _ = Ok _ _ => ok_inj H
  | get _ = Ok _ _ => ok_inj H
  | put _ _ = Ok _ _ => ok_inj H
  | gets _ _ = Ok _ _ => ok_inj H
  | modify _ _ = Ok _ _ => ok_inj H
  | assert _ _ = Ok _ _ => apply assert_Ok in H; destruct H as [H ->]
  | access _ _ = Ok _ _ => apply access_Ok in H; destruct H as [H ->]
  | deref _ _ = Ok _ _ => apply deref_Ok in H; destruct H as [H ->]
  | stuck _ _ = Ok _ _ => discriminate H
  | Stuck _ = Ok _ _ => discriminate H
  end.

(** Turn the boolean comparisons of the C code into propositions. *)
Create HintDb zbool.
#[export] Hint Rewrite Z.eqb_eq Z.eqb_neq Z.ltb_lt Z.ltb_ge Z.leb_le Z.leb_gt
  Bool.andb_true_iff Bool.orb_true_iff Bool.andb_false_iff Bool.orb_false_iff
  Bool.negb_true_iff Bool.negb_false_iff : zbool.
Ltac zbool := repeat (autorewrite with zbool in *).

(** Case analysis on the condition of every [if] of the goal. *)
Ltac case_if :=
  match goal with
  | |- context [if ?b then _ else _] => destruct b eqn:?
  end.

(** ** Counting loops *)

Lemma zseq_length a n : length (zseq a n) = n.
Proof. unfold zseq. by rewrite length_fmap, length_seq. Qed.

Lemma elem_of_zseq a n x : x ∈ zseq a n <-> a <= x < a + Z.of_nat n.
Proof.
  unfold zseq. rewrite list_elem_of_fmap. split.
  - intros (i & -> & Hi%elem_of_seq). lia.
  - intros H. exists (Z.to_nat (x - a)). split; [lia|]. apply elem_of_seq. lia.
Qed.

Lemma zseq_S a n : zseq a (S n) = a :: zseq (a + 1) n.
Proof.
  unfold zseq. simpl. f_equal; [lia|].
  rewrite <- fmap_S_seq, <- list_fmap_compose. apply list_fmap_ext. intros. simpl. lia.
Qed.

Lemma zseq_snoc a n : zseq a (S n) = zseq a n ++ [a + Z.of_nat n].
Proof. unfold zseq. rewrite seq_S, fmap_app. done. Qed.

Lemma NoDup_zseq a n : NoDup (zseq a n).
Proof. unfold zseq. apply NoDup_fmap_2; [intros ?? ?; lia | apply NoDup_seq]. Qed.

(** A property kept by every iteration holds at the end of the loop. *)
Lemma for_each_inv {S A} (I : S -> Prop) (l : list A) (body : A -> M S unit) s s' u :
  (forall x s s' u, x ∈ l -> I s -> body x s = Ok u s' -> I s') ->
  I s -> for_each l body s = Ok u s' -> I s'.
Proof.
  revert s. induction l as [|x l IH]; intros s Hb HI Hrun; simpl in Hrun.
  - by run_inv Hrun.
  - run_inv Hrun. eapply IH; [|eapply Hb|]; eauto using list_elem_of_here, list_elem_of_further.
Qed.

(** ** Computations that do not run out of fuel *)

Definition fuel_free {S A} (c : M S A) : Prop := forall s, c s <> Stuck NoFuel.

Create HintDb fuel.

Lemma fuel_free_bind {S A B} (c : M S A) (k : A -> M S B) :
  fuel_free c -> (forall a, fuel_free (k a)) -> fuel_free (mbind k c).
Proof.
  intros Hc Hk s. unfold mbind, M_bind. specialize (Hc s).
  destruct (c s) as [a s'|e]; [apply Hk | congruence].
Qed.
Lemma fuel_free_ret {S A} (a : A) : fuel_free (mret a : M S A).
Proof. done. Qed.
Lemma fuel_free_get {S} : fuel_free (get : M S S).
Proof. done. Qed.
Lemma fuel_free_modify {S} (f : S -> S) : fuel_free (modify f).
Proof. done. Qed.
Lemma fuel_free_assert {S} b : fuel_free (assert b : M S unit).
Proof. by destruct b. Qed.
Lemma fuel_free_access {S} b : fuel_free (access b : M S unit).
Proof. by destruct b. Qed.
Lemma fuel_free_deref {S A} (o : option A) : fuel_free (deref o : M S A).
Proof. by destruct o. Qed.
Lemma fuel_free_when {S} b (c : M S unit) : fuel_free c -> fuel_free (when b c).
Proof. by destruct b. Qed.
Lemma fuel_free_zoom {S T A} (view : S -> T) set (c : M T A) : fuel_free c -> fuel_free (zoom view set c).
Proof. intros Hc s. unfold zoom. specialize (Hc (view s)). destruct (c (view s)); congruence. Qed.
Lemma fuel_free_for_each {S A} (l : list A) (body : A -> M S unit) :
  (forall x, fuel_free (body x)) -> fuel_free (for_each l body).
Proof.
  intros Hb. induction l as [|x l IH]; simpl; [apply fuel_free_ret|].
  apply fuel_free_bind; [apply Hb | done].
Qed.
#[export] Hint Resolve fuel_free_ret fuel_free_get fuel_free_modify fuel_free_assert
  fuel_free_access fuel_free_deref fuel_free_zoom : fuel.

(** Follow the syntax of a computation. *)
Ltac fuel_free_step :=
  match goal with
  | |- forall _, _ => intros ?
  | |- fuel_free (mbind _ _) => apply fuel_free_bind
  | |- fuel_free (when _ _) => apply fuel_free_when
  | |- fuel_free (for_each _ _) => apply fuel_free_for_each
  | |- fuel_free (let '(_, _) := ?r in _) => destruct r
  | |- fuel_free (if ?b then _ else _) => destruct b
  | |- fuel_free (match ?b with _ => _ end) => destruct b
  | |- fuel_free _ => solve [auto with fuel nocore]
  end.
Ltac fuel_free := repeat fuel_free_step.

(** ** Relations kept by computations

    [preserves R c]: when [c] returns, [R] relates the state before to the
    state after. *)

Definition preserves {S A} (R : relation S) (c : M S A) : Prop :=
  forall s a s', c s = Ok a s' -> R s s'.

Create HintDb pres.

Section preserves.
Context {S : Type} (R : relation S) `{!PreOrder R}.

Lemma preserves_bind {A B} (c : M S A) (k : A -> M S B) :
  preserves R c -> (forall a, preserves R (k a)) -> preserves R (mbind k c).
Proof. intros Hc Hk s b s' (a & s1 & H1 & H2)%bind_Ok. etrans; [by apply (Hc s a)|by apply (Hk a s1 b)]. Qed.
Lemma preserves_ret {A} (a : A) : preserves R (mret a : M S A).
Proof. intros s b s' H. run_inv H. reflexivity. Qed.
Lemma preserves_get : preserves R (get : M S S).
Proof. intros s b s' H. run_inv H. reflexivity. Qed.
Lemma preserves_gets {A} (f : S -> A) : preserves R (gets f).
Proof. intros s b s' H. run_inv H. reflexivity. Qed.
Lemma preserves_stuck {A} e : preserves R (stuck e : M S A).
Proof. by intros s b s' H. Qed.
Lemma preserves_assert b : preserves R (assert b).
Proof. destruct b; [apply preserves_ret | apply preserves_stuck]. Qed.
Lemma preserves_access b : preserves R (access b).
Proof. destruct b; [apply preserves_ret | apply preserves_stuck]. Qed.
Lemma preserves_deref {A} (o : option A) : preserves R (deref o).
Proof. destruct o; [apply preserves_ret | apply preserves_stuck]. Qed.
Lemma preserves_when b (c : M S unit) : preserves R c -> preserves R (when b c).
Proof. destruct b; [done | intros _; apply preserves_ret]. Qed.
Lemma preserves_modify (f : S -> S) : (forall s, R s (f s)) -> preserves R (modify f).
Proof. intros Hf s b s' H. run_inv H. apply Hf. Qed.
Lemma preserves_for_each {A} (l : list A) (body : A -> M S unit) :
  (forall x, preserves R (body x)) -> preserves R (for_each l body).
Proof.
  intros Hb. induction l as [|x l IH]; simpl; [apply preserves_ret|].
  apply preserves_bind; [apply Hb | done].
Qed.
Lemma preserves_zoom {T A} (view : S -> T) (set : T -> S -> S) (c : M T A) :
  (forall s t, R s (set t s)) -> preserves R (zoom view set c).
Proof.
  intros Hs s a s' H. unfold zoom in H. destruct (c (view s)) as [b t|]; [|done]. run_inv H. apply Hs.
Qed.
End preserves.

Ltac preserves_step :=
  match goal with
  | |- forall _, _ => intros ?
  | |- preserves _ (mbind _ _) => apply preserves_bind
  | |- preserves _ (when _ _) => apply preserves_when
  | |- preserves _ (for_each _ _) => apply preserves_for_each
  | |- preserves _ (mret _) => apply preserves_ret
  | |- preserves _ get => apply preserves_get
  | |- preserves _ (gets _) => apply preserves_gets
  | |- preserves _ (stuck _) => apply preserves_stuck
  | |- preserves _ (assert _) => apply preserves_assert
  | |- preserves _ (access _) => apply preserves_access
  | |- preserves _ (deref _) => apply preserves_deref
  | |- preserves _ (let '(_, _) := ?r in _) => destruct r
  | |- preserves _ (if ?b then _ else _) => destruct b
  | |- preserves _ (match ?b with _ => _ end) => destruct b
  | |- preserves _ _ => solve [auto with pres nocore]
  | |- PreOrder _ => apply _
  end.
Ltac preserves := repeat preserves_step.
