(* ===== verification/Utils.v ===== *)
(** * libutils: the arithmetic and page macros

    The macros of [libutils/include/utils/arith.h] and [page.h] on which the
    rest of SOS is built, with the laws the components use.  Every macro works
    on [unsigned long] (64 bit) operands here, the only way SOS uses them. *)
From S2P Require Import Prelude.

Definition BIT (n : Z) : Z := u64 (Z.shiftl 1 n).
Definition MASK_UNSAFE (x : Z) : Z := u64 (BIT x - 1).
Definition MASK (n : Z) : Z := Z.lor (MASK_UNSAFE (n - 1)) (BIT (n - 1)).
Definition ALIGN_UP (x n : Z) : Z := Z.land (u64 (u64 (x + n) - 1)) (u64 (Z.lnot (u64 (n - 1)))).
Definition ALIGN_DOWN (x n : Z) : Z := Z.land x (u64 (Z.lnot (u64 (n - 1)))).
Definition ROUND_DOWN (n b : Z) : Z := n - n mod b.
Definition ROUND_UP (n b : Z) : Z := u64 (n + (if n mod b =? 0 then 0 else b - n mod b)).
Definition DIV_ROUND_UP (n d : Z) : Z := n / d + (if n mod d =? 0 then 0 else 1).
Definition MIN (a b : Z) : Z := if a <? b then a else b.
Definition MAX (a b : Z) : Z := if b <? a then a else b.
Definition INRANGE (a x b : Z) : Z := MIN (MAX x a) b.
Definition ISINRANGE (a x b : Z) : bool := x =? INRANGE a x b.

Definition PAGE_BITS_4K : Z := 12.
Definition PAGE_SIZE_4K : Z := BIT PAGE_BITS_4K.
Definition PAGE_MASK_4K : Z := PAGE_SIZE_4K - 1.
Definition PAGE_ALIGN_4K (addr : Z) : Z := Z.land addr (u64 (Z.lnot PAGE_MASK_4K)).
Definition BYTES_TO_4K_PAGES (b : Z) : Z :=
  b / BIT PAGE_BITS_4K + (if 0 <? b mod BIT PAGE_BITS_4K then 1 else 0).

Lemma PAGE_SIZE_4K_eq : PAGE_SIZE_4K = 4096.
Proof. reflexivity. Qed.

Lemma BIT_eq n : 0 <= n < 64 -> BIT n = 2 ^ n.
Proof.
  intros Hn. unfold BIT. rewrite Z.shiftl_mul_pow2, Z.mul_1_l by lia.
  apply u64_small. split; [apply Z.pow_nonneg; lia | apply Z.pow_lt_mono_r; lia].
Qed.

Lemma MIN_eq a b : MIN a b = Z.min a b.
Proof. unfold MIN. destruct (Z.ltb_spec a b); lia. Qed.

Lemma MAX_eq a b : MAX a b = Z.max a b.
Proof. unfold MAX. destruct (Z.ltb_spec b a); lia. Qed.

(** With a lower bound that does not exceed the upper one, the macro is the
    interval test it is used as. *)
Lemma ISINRANGE_spec a x b : a <= b -> ISINRANGE a x b = true <-> a <= x <= b.
Proof.
  intros Hab. unfold ISINRANGE, INRANGE. rewrite MIN_eq, MAX_eq, Z.eqb_eq. lia.
Qed.

(** A mask is the all-ones word of its width, also for the full word. *)
Lemma MASK_eq n : 0 < n <= 64 -> MASK n = 2 ^ n - 1.
Proof.
  intros Hn. unfold MASK, MASK_UNSAFE. rewrite BIT_eq by lia.
  assert (1 <= 2 ^ (n - 1) <= 2 ^ 63) as Hp.
  { split; [apply (Z.pow_le_mono_r 2 0); lia | apply Z.pow_le_mono_r; lia]. }
  rewrite u64_small by lia.
  replace (2 ^ (n - 1) - 1) with (Z.ones (n - 1)) by (rewrite Z.ones_equiv; lia).
  rewrite <- Z.add_nocarry_lor.
  - replace n with (n - 1 + 1) at 3 by lia. rewrite Z.pow_add_r, Z.ones_equiv by lia. lia.
  - rewrite Z.land_comm, Z.land_ones by lia. apply Z.mod_same. lia.
Qed.

Lemma page_mask_bits addr :
  0 <= addr < 2 ^ 64 -> PAGE_ALIGN_4K addr = Z.shiftl (Z.shiftr addr 12) 12.
Proof.
  intros Ha. unfold PAGE_ALIGN_4K.
  change (u64 (Z.lnot PAGE_MASK_4K)) with (Z.shiftl (Z.ones 52) 12).
  apply Z.bits_inj'. intros i Hi.
  rewrite Z.land_spec.
  destruct (Z.lt_ge_cases i 12).
  - rewrite !Z.shiftl_spec_low by lia. apply Bool.andb_false_r.
  - rewrite !Z.shiftl_spec, Z.shiftr_spec by lia. replace (i - 12 + 12) with i by lia.
    destruct (Z.lt_ge_cases (i - 12) 52).
    + rewrite Z.ones_spec_low by lia. apply Bool.andb_true_r.
    + rewrite Z.ones_spec_high, Bool.andb_false_r by lia. symmetry.
      rewrite <- (Z.mod_small addr (2 ^ 64)) by lia.
      apply Z.mod_pow2_bits_high. lia.
Qed.

(** [PAGE_ALIGN_4K] rounds an address down to its page. *)
Lemma PAGE_ALIGN_4K_eq addr :
  0 <= addr < 2 ^ 64 -> PAGE_ALIGN_4K addr = addr - addr mod 4096.
Proof.
  intros Ha. rewrite page_mask_bits by done.
  rewrite Z.shiftl_mul_pow2, Z.shiftr_div_pow2 by lia.
  change (2 ^ 12) with 4096. pose proof (Z.div_mod addr 4096). lia.
Qed.

Lemma ROUND_DOWN_eq n b : 0 < b -> ROUND_DOWN n b = b * (n / b).
Proof. intros. unfold ROUND_DOWN. pose proof (Z.div_mod n b). lia. Qed.

Lemma ROUND_UP_spec n b :
  0 < b -> 0 <= n -> n + b <= 2 ^ 64 ->
  ROUND_UP n b mod b = 0 /\ n <= ROUND_UP n b < n + b.
Proof.
  intros Hb Hn Hlt. unfold ROUND_UP. pose proof (Z.mod_pos_bound n b Hb).
  destruct (Z.eqb_spec (n mod b) 0) as [E|E].
  - rewrite Z.add_0_r, u64_small by lia. lia.
  - rewrite u64_small by lia. split; [|lia].
    replace (n + (b - n mod b)) with ((n / b + 1) * b) by (pose proof (Z.div_mod n b); lia).
    apply Z.mod_mul. lia.
Qed.

Lemma BYTES_TO_4K_PAGES_spec b :
  0 <= b -> 4096 * (BYTES_TO_4K_PAGES b - 1) < b <= 4096 * BYTES_TO_4K_PAGES b \/
            b = 0 /\ BYTES_TO_4K_PAGES b = 0.
Proof.
  intros Hb. unfold BYTES_TO_4K_PAGES. change (BIT PAGE_BITS_4K) with 4096.
  pose proof (Z.div_mod b 4096). pose proof (Z.mod_pos_bound b 4096).
  destruct (Z.ltb_spec 0 (b mod 4096)); lia.
Qed.
