(* ===== verification/Bytes.v ===== *)
(** * Bytes in memory

    Memory is a finite map from addresses to bytes.  Ranges of bytes, integers in
    either byte order and strings in it, with the lemmas the components share.  *)
From S2P Require Import Prelude.

(** ** Ranges *)

Definition byte_at (m : gmap Z Z) (a : Z) : Z := default 0 (m !! a).
Definition bytes_at (m : gmap Z Z) (a : Z) (n : nat) : list Z := byte_at m <$> zseq a n.
Fixpoint store_bytes (m : gmap Z Z) (a : Z) (l : list Z) : gmap Z Z :=
  match l with
  | [] => m
  | b :: l' => store_bytes (<[a := b]> m) (a + 1) l'
  end.

(** ** Integers *)

(** A little-endian integer of [n] bytes. *)
Fixpoint le_bytes (n : nat) (x : Z) : list Z :=
  match n with O => [] | S n' => x mod 256 :: le_bytes n' (x / 256) end.
Fixpoint le_value (l : list Z) : Z := match l with [] => 0 | b :: l' => b + 256 * le_value l' end.

(** The same integer with its most significant byte first. *)
Definition be_bytes (n : nat) (x : Z) : list Z := reverse (le_bytes n x).
#[global] Arguments be_bytes : simpl never.

(** The string in a byte array: up to the terminator, which has to be there. *)
Fixpoint cstr (l : list Z) : option (list Z) :=
  match l with
  | [] => None
  | b :: l' => if b =? 0 then Some [] else cons b <$> cstr l'
  end.

(** [n] bytes at [a] as an unsigned integer. *)
Definition load (m : gmap Z Z) (a : Z) (n : nat) : Z := le_value (bytes_at m a n).

(** ** Strings *)

(** [strlen]: a memory of [n] bytes has a zero among any [n + 1]. *)
Fixpoint strlen_in (m : gmap Z Z) (fuel : nat) (a : Z) : Z :=
  match fuel with
  | O => 0
  | S fuel' => if byte_at m a =? 0 then 0 else 1 + strlen_in m fuel' (a + 1)
  end.

(** ** What is stored is read back *)

Lemma store_bytes_lookup m a l x :
  byte_at (store_bytes m a l) x =
  if decide (a <= x < a + Z.of_nat (length l)) then default 0 (l !! Z.to_nat (x - a)) else byte_at m x.
Proof.
  revert m a. induction l as [|b l IH]; intros m a; cbn [store_bytes length].
  - rewrite decide_False by lia. done.
  - rewrite IH. destruct (decide (x = a)) as [->|Hne].
    + rewrite decide_False, decide_True by lia. rewrite Z.sub_diag. unfold byte_at. by rewrite lookup_insert_eq.
    + unfold byte_at at 1. rewrite lookup_insert_ne by done. fold (byte_at m x).
      destruct (decide (a + 1 <= x < a + 1 + Z.of_nat (length l))) as [Hin|Hout].
      2:{ rewrite decide_False by lia. done. }
      rewrite decide_True by lia.
      replace (Z.to_nat (x - a)) with (S (Z.to_nat (x - (a + 1)))) by lia. done.
Qed.

Lemma bytes_at_length m a n : length (bytes_at m a n) = n.
Proof. unfold bytes_at. by rewrite length_fmap, zseq_length. Qed.

Lemma bytes_at_lookup m a n i : (i < n)%nat -> bytes_at m a n !! i = Some (byte_at m (a + Z.of_nat i)).
Proof. intros Hi. unfold bytes_at, zseq. by rewrite !list_lookup_fmap, lookup_seq_lt by done. Qed.

(** Two memories agree on a range when they do on its bytes. *)
Lemma bytes_at_ext m m' a n :
  (forall x, a <= x < a + Z.of_nat n -> byte_at m' x = byte_at m x) -> bytes_at m' a n = bytes_at m a n.
Proof.
  intros H. unfold bytes_at. apply list_fmap_ext. intros i x Hx.
  apply list_elem_of_lookup_2, elem_of_zseq in Hx. by apply H.
Qed.

Lemma bytes_at_app m a n k : bytes_at m a (n + k) = bytes_at m a n ++ bytes_at m (a + Z.of_nat n) k.
Proof.
  revert a. induction n as [|n IH]; intros a; [by rewrite Z.add_0_r|].
  unfold bytes_at in *. cbn [Nat.add]. rewrite !zseq_S. cbn. f_equal. rewrite IH. do 3 f_equal. lia.
Qed.

Lemma store_bytes_app m a l1 l2 :
  store_bytes m a (l1 ++ l2) = store_bytes (store_bytes m a l1) (a + Z.of_nat (length l1)) l2.
Proof.
  revert m a. induction l1 as [|b l1 IH]; intros m a; cbn [app store_bytes length]; [by rewrite Z.add_0_r|].
  rewrite IH. f_equal. lia.
Qed.

Lemma byte_at_apart m a l x : ~ (a <= x < a + Z.of_nat (length l)) -> byte_at (store_bytes m a l) x = byte_at m x.
Proof. intros H. by rewrite store_bytes_lookup, decide_False. Qed.

Lemma bytes_at_stored m a l : bytes_at (store_bytes m a l) a (length l) = l.
Proof.
  apply list_eq. intros i. unfold bytes_at, zseq. rewrite !list_lookup_fmap.
  destruct (decide (i < length l)%nat) as [Hi|Hi].
  - rewrite lookup_seq_lt by done. cbn. rewrite store_bytes_lookup, decide_True by lia.
    replace (Z.to_nat (a + Z.of_nat i - a)) with i by lia.
    destruct (lookup_lt_is_Some_2 l i Hi) as [b ->]. done.
  - rewrite lookup_seq_ge by lia. cbn. symmetry. apply lookup_ge_None. lia.
Qed.

Lemma bytes_at_apart m a l b n :
  (forall x, b <= x < b + Z.of_nat n -> ~ (a <= x < a + Z.of_nat (length l))) ->
  bytes_at (store_bytes m a l) b n = bytes_at m b n.
Proof.
  intros H. unfold bytes_at. apply list_fmap_ext. intros i x Hx.
  apply list_elem_of_lookup_2, elem_of_zseq in Hx. rewrite store_bytes_lookup, decide_False; [done|].
  by apply H.
Qed.

Lemma le_bytes_length n x : length (le_bytes n x) = n.
Proof. revert x. induction n as [|n IH]; intros x; cbn; [done|]. by rewrite IH. Qed.

Lemma le_roundtrip n x : 0 <= x < 256 ^ Z.of_nat n -> le_value (le_bytes n x) = x.
Proof.
  revert x. induction n as [|n IH]; intros x Hx; cbn [le_bytes le_value].
  - change (256 ^ Z.of_nat 0) with 1 in Hx. lia.
  - rewrite IH; [pose proof (Z.div_mod x 256); lia|].
    rewrite Nat2Z.inj_succ, Z.pow_succ_r in Hx by lia.
    split; [apply Z.div_pos; lia | apply Z.div_lt_upper_bound; lia].
Qed.

Lemma le_bytes_value l : Forall (fun b => 0 <= b < 256) l -> le_bytes (length l) (le_value l) = l.
Proof.
  induction 1 as [|b l Hb _ IH]; cbn [length le_bytes le_value]; [done|].
  assert ((b + 256 * le_value l) mod 256 = b) as -> by (symmetry; apply (Z.mod_unique_pos _ _ (le_value l)); lia).
  assert ((b + 256 * le_value l) / 256 = le_value l) as -> by (symmetry; apply (Z.div_unique_pos _ _ _ b); lia).
  by rewrite IH.
Qed.

Lemma le_bytes_range n x : Forall (fun b => 0 <= b < 256) (le_bytes n x).
Proof. revert x. induction n as [|n IH]; intros x; constructor; [apply Z.mod_pos_bound; lia | apply IH]. Qed.

Lemma le_value_bound l : Forall (fun b => 0 <= b < 256) l -> 0 <= le_value l < 256 ^ Z.of_nat (length l).
Proof.
  induction 1 as [|b l Hb _ IH]; cbn [length le_value]; [done|].
  rewrite Nat2Z.inj_succ, Z.pow_succ_r by lia. lia.
Qed.

Lemma le_bytes_app n k x : le_bytes (n + k) x = le_bytes n x ++ le_bytes k (x / 256 ^ Z.of_nat n).
Proof.
  revert x. induction n as [|n IH]; intros x; [by rewrite Z.div_1_r|]. cbn [Nat.add le_bytes app]. f_equal.
  rewrite IH, Nat2Z.inj_succ, Z.pow_succ_r, Z.div_div by lia. done.
Qed.

Lemma le_bytes_mod n x : le_bytes n (x mod 256 ^ Z.of_nat n) = le_bytes n x.
Proof.
  revert x. induction n as [|n IH]; intros x; [done|]. cbn [le_bytes].
  rewrite Nat2Z.inj_succ, Z.pow_succ_r by lia. rewrite Z.rem_mul_r by lia.
  pose proof (Z.mod_pos_bound x 256). set (w := (x / 256) mod 256 ^ Z.of_nat n). f_equal.
  - symmetry. apply (Z.mod_unique_pos _ _ w); lia.
  - rewrite <- (IH (x / 256)). f_equal. symmetry. apply (Z.div_unique_pos _ _ _ (x mod 256)); lia.
Qed.

(** A number of [n + k] bytes: the high ones first. *)
Lemma be_bytes_app n k x : be_bytes (n + k) x = be_bytes k (x / 256 ^ Z.of_nat n) ++ be_bytes n (x mod 256 ^ Z.of_nat n).
Proof. unfold be_bytes. by rewrite le_bytes_app, reverse_app, le_bytes_mod. Qed.

Lemma be_bytes_length n x : length (be_bytes n x) = n.
Proof. unfold be_bytes. by rewrite length_reverse, le_bytes_length. Qed.

(** A field that was stored is loaded again. *)
Lemma load_stored m a n x : 0 <= x < 256 ^ Z.of_nat n -> load (store_bytes m a (le_bytes n x)) a n = x.
Proof.
  intros Hx. unfold load. rewrite <- (le_bytes_length n x) at 2. rewrite bytes_at_stored. by apply le_roundtrip.
Qed.

(** The string at [a] is [l]. *)
Definition c_string (m : gmap Z Z) (a : Z) (l : list Z) : Prop :=
  bytes_at m a (S (length l)) = l ++ [0] /\ 0 ∉ l.

Lemma c_string_cons m a b l : c_string m a (b :: l) -> byte_at m a = b /\ b <> 0 /\ c_string m (a + 1) l.
Proof.
  intros [Hl H0]. apply not_elem_of_cons in H0 as [H0 H0'].
  unfold bytes_at in Hl. cbn [length] in Hl. rewrite zseq_S in Hl. injection Hl as Hb Hl. done.
Qed.

Lemma strlen_in_string m a l fuel : c_string m a l -> (length l < fuel)%nat -> strlen_in m fuel a = Z.of_nat (length l).
Proof.
  revert a fuel. induction l as [|b l IH]; intros a [|fuel] Hs Hf; cbn [length] in *; try lia; cbn [strlen_in].
  - destruct Hs as [Hs _]. unfold bytes_at in Hs. rewrite zseq_S in Hs. injection Hs as Hb. by rewrite Hb.
  - apply c_string_cons in Hs as (-> & Hb & Hs). rewrite (proj2 (Z.eqb_neq b 0) Hb), (IH (a + 1)) by (done || lia). lia.
Qed.

(** A string fits the memory it is in. *)
Lemma c_string_size m a l : c_string m a l -> (length l <= size m)%nat.
Proof.
  intros [Hs H0]. rewrite <- size_dom, <- (zseq_length a (length l)).
  rewrite <- (size_list_to_set (C:=gset Z)) by apply NoDup_zseq.
  apply subseteq_size. intros x Hx%elem_of_list_to_set%elem_of_zseq. apply elem_of_dom.
  destruct (m !! x) eqn:Hm; [done|]. destruct H0. apply list_elem_of_lookup. exists (Z.to_nat (x - a)).
  assert ((l ++ [0]) !! Z.to_nat (x - a) = Some 0) as Hl.
  2:{ rewrite lookup_app_l in Hl by lia. done. }
  rewrite <- Hs. unfold bytes_at, zseq. rewrite !list_lookup_fmap, lookup_seq_lt by lia. cbn.
  unfold byte_at. replace (a + Z.of_nat (Z.to_nat (x - a))) with x by lia. by rewrite Hm.
Qed.

Lemma cstr_app l l' : 0 ∉ l -> cstr (l ++ 0 :: l') = Some l.
Proof.
  induction l as [|b l IH]; cbn; [done|]. intros [Hb Hl]%not_elem_of_cons.
  rewrite (proj2 (Z.eqb_neq b 0)) by done. by rewrite IH.
Qed.
