(* ===== verification/Bitfield.v ===== *)
(** * libsel4cspace: bit fields

    [libsel4cspace/include/cspace/bitfield.h]: an array of words indexed by
    bit.  The operations run on the array; an index past its end is a memory
    error.  [bf_test] is the abstract view: the set of the bits that are 1. *)
From S2P Require Import Prelude Utils.

Definition WORD_BITS : Z := 64.
Definition ULONG_MAX : Z := 2 ^ 64 - 1.
Definition WORD_INDEX (bit : Z) : Z := bit / WORD_BITS.
Definition BIT_INDEX (bit : Z) : Z := bit mod WORD_BITS.

(** [__builtin_ctzl]: the number of trailing zeros of a non-zero word. *)
Fixpoint pos_ctz (p : positive) : Z :=
  match p with
  | xO q => 1 + pos_ctz q
  | _ => 0
  end.
Definition CTZL (v : Z) : Z := match v with Zpos p => pos_ctz p | _ => 0 end.

Definition bf_word (i : Z) : M (list Z) Z :=
  bits ← get; access (0 <=? i);; deref (bits !! Z.to_nat i).
Definition bf_store (i w : Z) : M (list Z) unit := modify (<[Z.to_nat i := w]>).

Definition bf_set_bit (bit : Z) : M (list Z) unit :=
  w ← bf_word (WORD_INDEX bit);
  bf_store (WORD_INDEX bit) (Z.lor w (BIT (BIT_INDEX bit))).

Definition bf_clr_bit (bit : Z) : M (list Z) unit :=
  w ← bf_word (WORD_INDEX bit);
  bf_store (WORD_INDEX bit) (Z.land w (u64 (Z.lnot (BIT (BIT_INDEX bit))))).

Definition bf_get_bit (bit : Z) : M (list Z) bool :=
  w ← bf_word (WORD_INDEX bit);
  mret (nz (Z.land w (BIT (BIT_INDEX bit)))).

(** The first loop: skip the full words. *)
Fixpoint skip_full (bits : list Z) (words : nat) (i : nat) : nat :=
  match words, bits with
  | S words', w :: bits' => if w =? ULONG_MAX then skip_full bits' words' (S i) else i
  | _, _ => i
  end.

Definition bf_first_free (words : Z) : M (list Z) Z :=
  bits ← get;
  let i := Z.of_nat (skip_full bits (Z.to_nat words) 0) in
  let bit := i * WORD_BITS in
  w ← bf_word i;
  let val := u64 (Z.lnot w) in
  assert (nz val);;
  mret (if i <? words then bit + CTZL val else bit).

(** ** The abstract view *)

Definition bf_test (bits : list Z) (bit : Z) : bool :=
  match bits !! Z.to_nat (WORD_INDEX bit) with
  | Some w => Z.testbit w (BIT_INDEX bit)
  | None => false
  end.

Definition bf_wf (bits : list Z) : Prop := Forall (fun w => 0 <= w < 2 ^ 64) bits.
Definition bf_range (bits : list Z) (bit : Z) : Prop := 0 <= bit < 64 * Z.of_nat (length bits).

Lemma bf_index bits bit :
  bf_range bits bit ->
  0 <= WORD_INDEX bit /\ (Z.to_nat (WORD_INDEX bit) < length bits)%nat /\
  0 <= BIT_INDEX bit < 64 /\ bit = 64 * WORD_INDEX bit + BIT_INDEX bit.
Proof.
  unfold bf_range, WORD_INDEX, BIT_INDEX, WORD_BITS. intros H.
  pose proof (Z.div_mod bit 64). pose proof (Z.mod_pos_bound bit 64).
  assert (0 <= bit / 64) by (apply Z.div_pos; lia). lia.
Qed.

(** Two bits are the same bit or are in different places of the array. *)
Lemma bf_index_inj b1 b2 :
  WORD_INDEX b1 = WORD_INDEX b2 -> BIT_INDEX b1 = BIT_INDEX b2 -> b1 = b2.
Proof.
  unfold WORD_INDEX, BIT_INDEX, WORD_BITS. intros.
  pose proof (Z.div_mod b1 64). pose proof (Z.div_mod b2 64). lia.
Qed.

Lemma bf_word_ok bits bit :
  bf_range bits bit ->
  exists w, bf_word (WORD_INDEX bit) bits = Ok w bits /\
            bits !! Z.to_nat (WORD_INDEX bit) = Some w.
Proof.
  intros Hr. destruct (bf_index _ _ Hr) as (H0 & Hl & _).
  destruct (lookup_lt_is_Some_2 bits _ Hl) as [w Hw]. exists w. split; [|done].
  unfold bf_word, get, access, deref, mbind, M_bind.
  rewrite (proj2 (Z.leb_le _ _) H0). by rewrite Hw.
Qed.

Lemma bf_word_nat bits j :
  bf_word (Z.of_nat j) bits = match bits !! j with Some w => Ok w bits | None => Stuck Segv end.
Proof.
  unfold bf_word, get, access, deref, mbind, M_bind.
  rewrite (proj2 (Z.leb_le 0 (Z.of_nat j))), Nat2Z.id by lia. simpl. by destruct (bits !! j).
Qed.

Lemma bf_wf_word bits i w : bf_wf bits -> bits !! i = Some w -> 0 <= w < 2 ^ 64.
Proof. intros Hwf. apply (Forall_lookup_1 _ _ _ _ Hwf). Qed.

Lemma bf_test_insert bits bit w b :
  bf_range bits bit -> 0 <= b ->
  bf_test (<[Z.to_nat (WORD_INDEX bit) := w]> bits) b =
  if WORD_INDEX b =? WORD_INDEX bit then Z.testbit w (BIT_INDEX b) else bf_test bits b.
Proof.
  intros Hr Hb. destruct (bf_index _ _ Hr) as (H0 & Hl & _). unfold bf_test.
  destruct (Z.eqb_spec (WORD_INDEX b) (WORD_INDEX bit)) as [->|Hne].
  - by rewrite list_lookup_insert_eq.
  - rewrite list_lookup_insert_ne; [done|].
    assert (0 <= WORD_INDEX b) by (apply Z.div_pos; [lia|done]). lia.
Qed.

Lemma testbit_BIT i j : 0 <= i < 64 -> 0 <= j -> Z.testbit (BIT i) j = (j =? i).
Proof. intros. rewrite BIT_eq by done. rewrite Z.pow2_bits_eqb by lia. apply Z.eqb_sym. Qed.

Lemma word_bound_bits w : 0 <= w -> (forall i, 64 <= i -> Z.testbit w i = false) -> w < 2 ^ 64.
Proof.
  intros Hw Hb. destruct (Z.eq_dec w 0) as [->|Hne]; [lia|].
  apply Z.log2_lt_pow2; [lia|]. apply Z.nle_gt. intros Hle.
  assert (Z.testbit w (Z.log2 w) = false) as E by (by apply Hb).
  rewrite Z.bit_log2 in E by lia. done.
Qed.

Lemma testbit_high w i : 0 <= w < 2 ^ 64 -> 64 <= i -> Z.testbit w i = false.
Proof.
  intros Hw Hi. rewrite <- (Z.mod_small w (2 ^ 64)) by done.
  apply Z.mod_pow2_bits_high. lia.
Qed.

Lemma testbit_not w i : 0 <= i < 64 -> Z.testbit (u64 (Z.lnot w)) i = negb (Z.testbit w i).
Proof. intros. unfold u64, wrap. rewrite Z.mod_pow2_bits_low, Z.lnot_spec by lia. done. Qed.

(** ** Functional behaviour *)

Lemma bf_set_bit_spec bits bit :
  bf_wf bits -> bf_range bits bit ->
  exists bits', bf_set_bit bit bits = Ok tt bits' /\
    bf_wf bits' /\ length bits' = length bits /\
    forall b, 0 <= b -> bf_test bits' b = (b =? bit) || bf_test bits b.
Proof.
  intros Hwf Hr. destruct (bf_word_ok _ _ Hr) as (w & Hrun & Hw).
  destruct (bf_index _ _ Hr) as (H0 & Hl & HB & Heq).
  pose proof (bf_wf_word _ _ _ Hwf Hw) as Hwb.
  eexists. split; [unfold bf_set_bit; by rewrite (bind_run _ _ _ _ _ Hrun)|].
  split; [|split; [apply length_insert|]].
  - apply Forall_insert; [done|]. split.
    + apply Z.lor_nonneg. split; [lia|]. rewrite BIT_eq by done. apply Z.pow_nonneg; lia.
    + apply word_bound_bits.
      * apply Z.lor_nonneg. split; [lia|]. rewrite BIT_eq by done. apply Z.pow_nonneg; lia.
      * intros i Hi. rewrite Z.lor_spec, testbit_high, testbit_BIT by lia. simpl. lia.
  - intros b Hb. rewrite bf_test_insert by done.
    assert (0 <= BIT_INDEX b) by (apply Z.mod_pos_bound; done).
    destruct (Z.eqb_spec (WORD_INDEX b) (WORD_INDEX bit)) as [E|E].
    + rewrite Z.lor_spec, testbit_BIT by done. unfold bf_test. rewrite E, Hw.
      rewrite Bool.orb_comm. f_equal. apply Bool.eq_iff_eq_true. rewrite !Z.eqb_eq.
      split; [intros; by apply bf_index_inj | by intros ->].
    + destruct (Z.eqb_spec b bit) as [->|]; done.
Qed.

Lemma bf_clr_bit_spec bits bit :
  bf_wf bits -> bf_range bits bit ->
  exists bits', bf_clr_bit bit bits = Ok tt bits' /\
    bf_wf bits' /\ length bits' = length bits /\
    forall b, 0 <= b -> bf_test bits' b = negb (b =? bit) && bf_test bits b.
Proof.
  intros Hwf Hr. destruct (bf_word_ok _ _ Hr) as (w & Hrun & Hw).
  destruct (bf_index _ _ Hr) as (H0 & Hl & HB & Heq).
  pose proof (bf_wf_word _ _ _ Hwf Hw) as Hwb.
  eexists. split; [unfold bf_clr_bit; by rewrite (bind_run _ _ _ _ _ Hrun)|].
  assert (0 <= Z.land w (u64 (Z.lnot (BIT (BIT_INDEX bit))))) by (apply Z.land_nonneg; lia).
  split; [|split; [apply length_insert|]].
  - apply Forall_insert; [done|]. split; [done|].
    apply word_bound_bits; [done|]. intros i Hi. by rewrite Z.land_spec, testbit_high by lia.
  - intros b Hb. rewrite bf_test_insert by done.
    assert (0 <= BIT_INDEX b < 64) by (apply Z.mod_pos_bound; done).
    destruct (Z.eqb_spec (WORD_INDEX b) (WORD_INDEX bit)) as [E|E].
    + rewrite Z.land_spec, testbit_not, testbit_BIT by lia. unfold bf_test. rewrite E, Hw.
      rewrite Bool.andb_comm. do 2 f_equal. apply Bool.eq_iff_eq_true. rewrite !Z.eqb_eq.
      split; [intros; by apply bf_index_inj | by intros ->].
    + destruct (Z.eqb_spec b bit) as [->|]; done.
Qed.

Lemma land_BIT w i : 0 <= w -> 0 <= i < 64 -> nz (Z.land w (BIT i)) = Z.testbit w i.
Proof.
  intros Hw Hi. unfold nz. destruct (Z.testbit w i) eqn:E.
  - destruct (Z.eqb_spec (Z.land w (BIT i)) 0) as [H0|]; [|done].
    assert (Z.testbit (Z.land w (BIT i)) i = false) as Hf by (rewrite H0; apply Z.bits_0).
    rewrite Z.land_spec, E, testbit_BIT, Z.eqb_refl in Hf by lia. done.
  - replace (Z.land w (BIT i)) with 0; [done|]. symmetry. apply Z.bits_inj'. intros j Hj.
    rewrite Z.land_spec, Z.bits_0, testbit_BIT by lia.
    destruct (Z.eqb_spec j i) as [->|]; [by rewrite E | apply Bool.andb_false_r].
Qed.

Lemma bf_get_bit_spec bits bit :
  bf_wf bits -> bf_range bits bit -> bf_get_bit bit bits = Ok (bf_test bits bit) bits.
Proof.
  intros Hwf Hr. destruct (bf_word_ok _ _ Hr) as (w & Hrun & Hw).
  destruct (bf_index _ _ Hr) as (H0 & Hl & HB & Heq).
  unfold bf_get_bit. rewrite (bind_run _ _ _ _ _ Hrun), ret_run. unfold bf_test. rewrite Hw.
  rewrite land_BIT; [done| |done]. pose proof (bf_wf_word _ _ _ Hwf Hw). lia.
Qed.

(** ** The first free bit *)

Lemma CTZL_spec v :
  0 < v -> Z.testbit v (CTZL v) = true /\ 0 <= CTZL v /\
           forall i, 0 <= i < CTZL v -> Z.testbit v i = false.
Proof.
  destruct v as [|p|p]; try lia. intros _. simpl CTZL.
  induction p as [p IH|p IH|]; simpl pos_ctz; [split; [done|split; [lia|intros; lia]] | |
    split; [done|split; [lia|intros; lia]]].
  destruct IH as (H1 & H2 & H3). split; [|split; [lia|]].
  - rewrite Pos2Z.inj_xO, Z.add_1_l, Z.double_bits_succ. done.
  - intros i Hi. rewrite Pos2Z.inj_xO. destruct (Z.eq_dec i 0) as [->|Hi0].
    + apply Z.testbit_even_0.
    + replace i with (Z.succ (i - 1)) by lia. rewrite Z.double_bits_succ. apply H3. lia.
Qed.

Lemma CTZL_bound v : 0 < v < 2 ^ 64 -> 0 <= CTZL v < 64.
Proof.
  intros Hv. destruct (CTZL_spec v) as (H1 & H2 & _); [lia|]. split; [done|].
  apply Z.nle_gt. intros Hle. rewrite testbit_high in H1 by lia. done.
Qed.

Lemma not_full_word w :
  0 <= w < 2 ^ 64 -> w <> ULONG_MAX -> 0 < u64 (Z.lnot w) < 2 ^ 64.
Proof.
  intros Hw Hne. unfold ULONG_MAX in Hne. unfold u64, wrap.
  replace (Z.lnot w) with (2 ^ 64 - 1 - w + (-1) * 2 ^ 64) by (unfold Z.lnot; lia).
  rewrite Z.mod_add, Z.mod_small by lia. lia.
Qed.

Lemma skip_full_ge bits words i : (i <= skip_full bits words i)%nat.
Proof.
  revert words i. induction bits as [|w bits IH]; intros [|n] i; simpl; try lia.
  case_if; [|lia]. specialize (IH n (S i)). lia.
Qed.

(** The loop stops at the end of the array or at the first word that is not
    all ones. *)
Lemma skip_full_spec bits n i :
  length bits = n ->
  let j := skip_full bits n i in
  (i <= j <= i + n)%nat /\
  (forall k w, (i <= k < j)%nat -> bits !! (k - i)%nat = Some w -> w = ULONG_MAX) /\
  ((j < i + n)%nat -> exists w, bits !! (j - i)%nat = Some w /\ w <> ULONG_MAX).
Proof.
  revert n i. induction bits as [|w bits IH]; intros n i Hn; simpl in Hn; subst n; simpl.
  - repeat split; lia.
  - destruct (Z.eqb_spec w ULONG_MAX) as [->|Hne].
    + destruct (IH (length bits) (S i)) as (H1 & H2 & H3); [done|].
      repeat split; [lia|lia| |].
      * intros k w Hk Hl. destruct (decide (k = i)) as [->|].
        -- rewrite Nat.sub_diag in Hl. simpl in Hl. congruence.
        -- apply (H2 k); [lia|]. replace (k - i)%nat with (S (k - S i))%nat in Hl by lia. done.
      * intros Hj. destruct H3 as (w & Hl & Hw); [lia|]. exists w. split; [|done].
        replace (skip_full bits (length bits) (S i) - i)%nat
          with (S (skip_full bits (length bits) (S i) - S i))%nat by lia. done.
    + repeat split; [lia|lia| |].
      * intros k w' Hk. lia.
      * intros _. exists w. by rewrite Nat.sub_diag.
Qed.

Definition bf_full (bits : list Z) : Prop := Forall (fun w => w = ULONG_MAX) bits.

Lemma bf_full_dec bits : bf_full bits \/ (exists i w, bits !! i = Some w /\ w <> ULONG_MAX).
Proof.
  destruct (decide (bf_full bits)) as [H|H]; [by left|right].
  apply not_Forall_Exists in H; [|apply _]. apply Exists_exists in H as (w & Hin & Hw).
  apply list_elem_of_lookup in Hin as [i Hi]. by exists i, w.
Qed.

Lemma bf_test_full bits b :
  bf_full bits -> bf_range bits b -> bf_test bits b = true.
Proof.
  intros Hf Hr. destruct (bf_index _ _ Hr) as (H0 & Hl & HB & _).
  destruct (lookup_lt_is_Some_2 bits _ Hl) as [w Hw]. unfold bf_test. rewrite Hw.
  rewrite (Forall_lookup_1 _ _ _ _ Hf Hw). unfold ULONG_MAX.
  change (2 ^ 64 - 1) with (Z.ones 64). rewrite Z.ones_spec_low by done. done.
Qed.

(** When some word is not all ones, the least clear bit is returned. *)
Lemma bf_first_free_spec bits :
  bf_wf bits -> ~ bf_full bits ->
  exists bit, bf_first_free (Z.of_nat (length bits)) bits = Ok bit bits /\
    bf_range bits bit /\ bf_test bits bit = false /\
    forall b, 0 <= b < bit -> bf_test bits b = true.
Proof.
  intros Hwf Hnf. destruct (bf_full_dec bits) as [|(i0 & w0 & Hl0 & Hw0)]; [done|].
  destruct (skip_full_spec bits (length bits) 0 eq_refl) as (Hj & Hbef & Hat).
  unfold bf_range. set (j := skip_full bits (length bits) 0) in *.
  assert (j < length bits)%nat as Hjlt.
  { apply Nat.nle_gt. intros Hle. apply Hw0. apply (Hbef i0); [|by rewrite Nat.sub_0_r].
    apply lookup_lt_Some in Hl0. lia. }
  destruct Hat as (w & Hlj & Hw); [lia|]. rewrite Nat.sub_0_r in Hlj.
  pose proof (bf_wf_word _ _ _ Hwf Hlj) as Hwb.
  pose proof (not_full_word _ Hwb Hw) as Hv.
  pose proof (CTZL_bound _ Hv) as Hc. pose proof (CTZL_spec (u64 (Z.lnot w))) as Hcz.
  destruct Hcz as (Hc1 & _ & Hc3); [lia|].
  exists (Z.of_nat j * 64 + CTZL (u64 (Z.lnot w))).
  split; [|split; [lia|]].
  { unfold bf_first_free. rewrite (bind_run get _ bits bits bits) by done.
    cbv zeta. rewrite Nat2Z.id. fold j.
    rewrite (bind_run _ _ _ w bits) by (by rewrite bf_word_nat, Hlj).
    unfold nz. rewrite (proj2 (Z.eqb_neq _ _)), (proj2 (Z.ltb_lt _ _)) by lia. done. }
  assert (forall b, 0 <= b < Z.of_nat j * 64 + 64 -> Z.of_nat j * 64 <= b ->
          bf_test bits b = Z.testbit w (b - 64 * Z.of_nat j)) as Hrd.
  { intros b Hb Hb'. unfold bf_test, WORD_INDEX, BIT_INDEX, WORD_BITS.
    assert (b / 64 = Z.of_nat j) as -> by (symmetry; apply (Z.div_unique_pos b 64 _ (b - 64 * Z.of_nat j)); lia).
    rewrite Nat2Z.id, Hlj. f_equal.
    symmetry. apply (Z.mod_unique_pos b 64 (Z.of_nat j)); lia. }
  split.
  - rewrite Hrd by lia. replace (_ - _) with (CTZL (u64 (Z.lnot w))) by lia.
    rewrite testbit_not in Hc1 by lia. by destruct (Z.testbit w _).
  - intros b Hb. destruct (Z.lt_ge_cases b (Z.of_nat j * 64)) as [Hlt|Hge].
    + assert (bf_range bits b) as Hr by (unfold bf_range; lia).
      destruct (bf_index _ _ Hr) as (H0 & Hl & HB & Heq).
      destruct (lookup_lt_is_Some_2 bits _ Hl) as [w' Hw']. unfold bf_test. rewrite Hw'.
      rewrite (Hbef (Z.to_nat (WORD_INDEX b)) w') by (rewrite ?Nat.sub_0_r; (lia || done)).
      unfold ULONG_MAX. change (2 ^ 64 - 1) with (Z.ones 64). by rewrite Z.ones_spec_low.
    + rewrite Hrd by lia. specialize (Hc3 (b - 64 * Z.of_nat j)).
      rewrite testbit_not in Hc3 by lia.
      destruct (Z.testbit w (b - 64 * Z.of_nat j)); [done|]. discriminate Hc3; lia.
Qed.

(** On a full field the code reads the word after the array. *)
Lemma bf_first_free_full bits :
  bf_full bits -> bf_first_free (Z.of_nat (length bits)) bits = Stuck Segv.
Proof.
  intros Hf. destruct (skip_full_spec bits (length bits) 0 eq_refl) as (Hj & _ & Hat).
  set (j := skip_full bits (length bits) 0) in *.
  assert (j = length bits) as Hjl.
  { destruct (decide (j = length bits)); [done|]. destruct Hat as (w & Hl & Hw); [lia|].
    exfalso. apply Hw, (Forall_lookup_1 _ _ _ _ Hf Hl). }
  unfold bf_first_free. rewrite (bind_run get _ bits bits bits) by done.
  cbv zeta. rewrite Nat2Z.id. fold j. rewrite Hjl. apply bind_stuck.
  by rewrite bf_word_nat, (proj2 (lookup_ge_None bits (length bits))) by lia.
Qed.
