(* ===== verification/Pqueue.v ===== *)
(** * libclock: the queue of timer jobs

    [libclock/src/pqueue.c].  The singly linked list of [struct job] is a list
    in queue order (the nodes are never shared), [next_job_id] is the static
    counter of the file.  [malloc] may fail: each allocating operation takes
    the outcome as an argument [mem] (the code does not check it). *)
From stdpp Require Import sorting.
From S2P Require Import Prelude Utils.

Definition CLOCK_R_OK : Z := 0.
Definition CLOCK_R_UINT : Z := -1.
Definition CLOCK_R_CNCL : Z := -2.
Definition CLOCK_R_FAIL : Z := -3.

Inductive job_type_t : Type := PERIODIC | ONE_SHOT.
#[global] Instance job_type_t_eq_dec : EqDecision job_type_t.
Proof. solve_decision. Defined.

Record job : Type := mk_job {
  id : Z;
  delay : Z;
  tick : Z;
  type : job_type_t;
  callback : Z;
  data : Z }.

#[global] Instance job_eq_dec : EqDecision job.
Proof. solve_decision. Defined.

Record pqueue : Type := mk_pqueue { size : Z; time : Z; head : list job }.
Record pqstate : Type := mk_pqstate { next_job_id : Z; pq : pqueue }.

Definition pqueue_init : pqueue := mk_pqueue 0 0 [].

(** The [while] of [pqueue_push] from the node [curr] on: at the last node the
    job is linked behind it only when it is strictly later (the iteration
    after that looks at the new node, whose tick is not less than itself). *)
Fixpoint insert_after (new curr : job) (rest : list job) : list job :=
  match rest with
  | [] => if curr.(tick) <? new.(tick) then [curr; new] else [curr]
  | next :: rest' =>
      if new.(tick) <? next.(tick) then curr :: new :: rest
      else curr :: insert_after new next rest'
  end.

Definition insert_job (new : job) (q : list job) : list job :=
  match q with
  | [] => [new]
  | h :: rest => if new.(tick) <=? h.(tick) then new :: q else insert_after new h rest
  end.

Definition pqueue_push (mem : bool) (id0 delay0 : Z) (type0 : job_type_t) (callback0 data0 : Z)
  : M pqstate Z :=
  access mem;;
  s ← get;
  let q := s.(pq) in
  let fresh := negb (nz id0) in
  let new := mk_job (if fresh then s.(next_job_id) else id0) delay0
                    (u64 (q.(time) + delay0)) type0 callback0 data0 in
  put (mk_pqstate (if fresh then u32 (s.(next_job_id) + 1) else s.(next_job_id))
                  (mk_pqueue (u32 (q.(size) + 1)) q.(time) (insert_job new q.(head))));;
  mret new.(id).

Definition pqueue_peek : M pqstate (option job) :=
  s ← get; mret (hd_error s.(pq).(head)).

Definition set_jobs (n : Z) (l : list job) (s : pqstate) : pqstate :=
  mk_pqstate s.(next_job_id) (mk_pqueue n s.(pq).(time) l).

Definition pqueue_pop (mem : bool) : M pqstate Z :=
  s ← get;
  match s.(pq).(head) with
  | [] => mret CLOCK_R_FAIL
  | delete_job :: rest =>
      put (set_jobs (u32 (s.(pq).(size) - 1)) rest s);;
      (if decide (delete_job.(type) = PERIODIC) then
         _ ← pqueue_push mem delete_job.(id) delete_job.(delay) delete_job.(type)
                         delete_job.(callback) delete_job.(data);
         mret tt
       else mret tt);;
      mret CLOCK_R_OK
  end.

(** The search of [pqueue_remove]: unlink the first job with the id. *)
Fixpoint unlink (id0 : Z) (q : list job) : option (list job) :=
  match q with
  | [] => None
  | j :: q' => if j.(id) =? id0 then Some q' else (j ::.) <$> unlink id0 q'
  end.

Definition pqueue_remove (id0 : Z) : M pqstate Z :=
  s ← get;
  match unlink id0 s.(pq).(head) with
  | Some l => put (set_jobs (u32 (s.(pq).(size) - 1)) l s);; mret CLOCK_R_OK
  | None => mret CLOCK_R_FAIL
  end.

(** ** Ordering *)

Definition before (a b : job) : Prop := a.(tick) <= b.(tick).
Abbreviation sorted := (Sorted before).

Ltac sorted_solve := repeat (assumption || constructor); unfold before in *; (lia || done).

#[global] Instance before_trans : Transitive before.
Proof. intros a b c. unfold before. lia. Qed.

Lemma insert_after_sorted new c r :
  c.(tick) <= new.(tick) -> sorted (c :: r) -> sorted (insert_after new c r).
Proof.
  revert c. induction r as [|n r IH]; intros c Hle Hs; simpl.
  - case_if; sorted_solve.
  - inversion Hs as [|? ? Hs' Hd]; subst. inversion Hd; subst.
    destruct (Z.ltb_spec (tick new) (tick n)).
    + sorted_solve.
    + constructor; [apply IH; [lia|done]|].
      destruct r; simpl; [case_if|case_if]; sorted_solve.
Qed.

Lemma insert_job_sorted new q : sorted q -> sorted (insert_job new q).
Proof.
  destruct q as [|h q]; simpl; [intros; sorted_solve|]. intros Hs.
  destruct (Z.leb_spec (tick new) (tick h)).
  - sorted_solve.
  - apply insert_after_sorted; [lia|done].
Qed.

Lemma unlink_sorted i q l : sorted q -> unlink i q = Some l -> sorted l.
Proof.
  intros Hs%Sorted_StronglySorted; [|apply _]. revert l. induction q as [|j q IH]; intros l Hu; [done|].
  inversion Hs as [|? ? Hs' Hall]; subst. simpl in Hu.
  destruct (id j =? i); [injection Hu as <-; by apply StronglySorted_Sorted|].
  destruct (unlink i q) as [l'|] eqn:E; [|done]. injection Hu as <-.
  specialize (IH Hs' l' eq_refl). constructor; [done|].
  destruct l' as [|x l']; constructor.
  rewrite Forall_forall in Hall. apply Hall.
  clear -E. revert l' E. induction q as [|y q IH]; intros l' E; [done|]. simpl in E.
  destruct (id y =? i).
  - injection E as ->. by right; left.
  - destruct (unlink i q) as [l|] eqn:Eu; [|done]. injection E as -> ->. by left.
Qed.

(** ** What the queue holds *)

Fixpoint last_of (c : job) (r : list job) : job :=
  match r with [] => c | n :: r' => last_of n r' end.

(** The job is lost when it is due at the same tick as the last one of the
    queue and later than the first one. *)
Definition dropped (new : job) (q : list job) : bool :=
  match q with
  | [] => false
  | h :: rest => (h.(tick) <? new.(tick)) && ((last_of h rest).(tick) =? new.(tick))
  end.

Lemma last_of_ge c r : sorted (c :: r) -> tick c <= tick (last_of c r).
Proof.
  revert c. induction r as [|n r IH]; intros c Hs; simpl; [lia|].
  inversion Hs as [|? ? Hs' Hd]; subst. inversion Hd; subst. specialize (IH n Hs').
  unfold before in *. lia.
Qed.

Lemma insert_after_perm new c r :
  sorted (c :: r) -> c.(tick) <= new.(tick) ->
  ((last_of c r).(tick) = new.(tick) /\ insert_after new c r = c :: r) \/
  ((last_of c r).(tick) <> new.(tick) /\ insert_after new c r ≡ₚ new :: c :: r).
Proof.
  revert c. induction r as [|n r IH]; intros c Hs Hle; simpl.
  - destruct (Z.ltb_spec (tick c) (tick new)).
    + right. split; [lia|apply Permutation_swap].
    + left. split; [lia|done].
  - inversion Hs as [|? ? Hs' Hd]; subst. inversion Hd; subst.
    pose proof (last_of_ge _ _ Hs').
    destruct (Z.ltb_spec (tick new) (tick n)) as [Hlt|Hge].
    + right. split; [lia|apply Permutation_swap].
    + destruct (IH n Hs' Hge) as [[H1 H2]|[H1 H2]]; [left|right]; rewrite H2; split; auto.
      apply Permutation_swap.
Qed.

Lemma insert_job_content new q :
  sorted q ->
  if dropped new q then insert_job new q = q else insert_job new q ≡ₚ new :: q.
Proof.
  destruct q as [|h q]; [intros; simpl; reflexivity|]. intros Hs. unfold dropped, insert_job.
  destruct (Z.leb_spec (tick new) (tick h)) as [Hle|Hlt].
  - rewrite (proj2 (Z.ltb_ge _ _)) by done. simpl. reflexivity.
  - rewrite (proj2 (Z.ltb_lt _ _)) by done. simpl andb.
    destruct (insert_after_perm new h q Hs) as [[H1 H2]|[H1 H2]]; [lia| |].
    + rewrite (proj2 (Z.eqb_eq _ _) H1). done.
    + rewrite (proj2 (Z.eqb_neq _ _) H1). done.
Qed.

(** ** The operations *)

(** The queue invariant: jobs in the order of their ticks, none overdue. *)
Definition pq_ok (q : pqueue) : Prop :=
  sorted q.(head) /\ Forall (fun j => q.(time) <= j.(tick)) q.(head).

Lemma insert_job_elem new q x : x ∈ insert_job new q -> x = new \/ x ∈ q.
Proof.
  destruct q as [|h q]; [set_solver|]. simpl. case_if; [set_solver|].
  clear. revert h. induction q as [|n q IH]; intros h; simpl; case_if; set_solver.
Qed.

Lemma pqueue_push_ok i d ty cb dt s v s' :
  pq_ok s.(pq) -> 0 <= d -> s.(pq).(time) + d < 2 ^ 64 -> 0 <= s.(pq).(time) ->
  pqueue_push true i d ty cb dt s = Ok v s' ->
  pq_ok s'.(pq) /\ s'.(pq).(time) = s.(pq).(time).
Proof.
  intros [Hs Ht] Hd Hov Hnn Hrun. unfold pqueue_push in Hrun. run_inv Hrun. simpl.
  split; [|done]. split; simpl.
  - by apply insert_job_sorted.
  - rewrite Forall_forall in *. intros x [->|Hx]%insert_job_elem; [|auto].
    simpl. rewrite u64_small by lia. lia.
Qed.

(** ** Properties *)

(** Registering a job keeps the queue ordered by tick and makes it hold the
    old jobs and the new one, except in one case: a job due at the tick of the
    last job of the queue, and later than the first, is not linked in although
    the size grows and its id is returned. *)
Theorem pqueue_push_spec i d ty cb dt s :
  sorted s.(pq).(head) ->
  let new := mk_job (if nz i then i else s.(next_job_id)) d (u64 (s.(pq).(time) + d)) ty cb dt in
  exists s', pqueue_push true i d ty cb dt s = Ok new.(id) s' /\
    sorted s'.(pq).(head) /\ s'.(pq).(size) = u32 (s.(pq).(size) + 1) /\
    s'.(pq).(time) = s.(pq).(time) /\
    if dropped new s.(pq).(head) then s'.(pq).(head) = s.(pq).(head)
    else s'.(pq).(head) ≡ₚ new :: s.(pq).(head).
Proof.
  intros Hs new. unfold pqueue_push. eexists. split.
  { unfold mbind, M_bind, get, put, access. simpl. f_equal. subst new. simpl. by destruct (nz i). }
  simpl. assert (Hnew : mk_job (if negb (nz i) then s.(next_job_id) else i) d
    (u64 (s.(pq).(time) + d)) ty cb dt = new) by (subst new; by destruct (nz i)).
  rewrite Hnew. repeat split; [by apply insert_job_sorted|]. by apply insert_job_content.
Qed.

Definition sample_queue : pqstate :=
  mk_pqstate 3 (mk_pqueue 2 0 [mk_job 1 30000 30000 ONE_SHOT 7 0; mk_job 2 50000 50000 ONE_SHOT 7 0]).

Lemma pqueue_push_spec_witness :
  exists s', pqueue_push true 0 40000 ONE_SHOT 7 9 sample_queue = Ok 3 s' /\
    sorted s'.(pq).(head) /\ s'.(pq).(size) = 3 /\ s'.(pq).(time) = 0 /\
    s'.(pq).(head) ≡ₚ mk_job 3 40000 40000 ONE_SHOT 7 9 :: sample_queue.(pq).(head).
Proof.
  apply (pqueue_push_spec 0 40000 ONE_SHOT 7 9 sample_queue). simpl. sorted_solve.
Defined.

(** A registered timer can be lost: when the queue's last job expires at the
    same tick as the new one and its first job earlier, the caller gets an id
    back but the queue holds no job with a fresh id, so the callback never
    runs, and the recorded size is one more than the number of jobs. *)
Theorem pqueue_push_loses_job d ty cb dt s s' v :
  sorted s.(pq).(head) ->
  Forall (fun j => j.(id) <> s.(next_job_id)) s.(pq).(head) ->
  dropped (mk_job s.(next_job_id) d (u64 (s.(pq).(time) + d)) ty cb dt) s.(pq).(head) = true ->
  pqueue_push true 0 d ty cb dt s = Ok v s' ->
  v = s.(next_job_id) /\ Forall (fun j => j.(id) <> v) s'.(pq).(head) /\
  s'.(pq).(head) = s.(pq).(head) /\ s'.(pq).(size) = u32 (s.(pq).(size) + 1).
Proof.
  intros Hs Hf Hd Hrun. unfold pqueue_push in Hrun. run_inv Hrun. simpl.
  pose proof (insert_job_content
    (mk_job s.(next_job_id) d (u64 (s.(pq).(time) + d)) ty cb dt) s.(pq).(head) Hs) as Hc.
  rewrite Hd in Hc. by rewrite Hc.
Qed.

Lemma pqueue_push_loses_job_witness :
  exists s', pqueue_push true 0 50000 ONE_SHOT 7 9 sample_queue = Ok 3 s' /\
    (3 = 3 /\ Forall (fun j => j.(id) <> 3) s'.(pq).(head) /\
     s'.(pq).(head) = sample_queue.(pq).(head) /\ s'.(pq).(size) = u32 (2 + 1)).
Proof.
  eexists. split; [vm_compute; reflexivity|].
  eapply (pqueue_push_loses_job 50000 ONE_SHOT 7 9 sample_queue);
    [simpl; sorted_solve | repeat constructor; simpl; lia | reflexivity | reflexivity].
Defined.

Lemma unlink_spec i q :
  match unlink i q with
  | Some l => exists l1 j l2, q = l1 ++ j :: l2 /\ l = l1 ++ l2 /\ j.(id) = i /\
                              Forall (fun x => x.(id) <> i) l1
  | None => Forall (fun x => x.(id) <> i) q
  end.
Proof.
  induction q as [|x q IH]; simpl; [done|].
  destruct (Z.eqb_spec (id x) i) as [E|E].
  - exists [], x, q. done.
  - destruct (unlink i q) as [l|]; simpl.
    + destruct IH as (l1 & j & l2 & -> & -> & Hj & Hl).
      exists (x :: l1), j, l2. repeat split; auto.
    + by constructor.
Qed.

(** Removing a timer by id takes exactly the first job with that id off the
    queue and keeps the others in order; with unique ids none is left.  When no
    job has the id the queue is unchanged and the result is CLOCK_R_FAIL. *)
Theorem pqueue_remove_spec i s :
  sorted s.(pq).(head) -> NoDup (id <$> s.(pq).(head)) ->
  exists s' r, pqueue_remove i s = Ok r s' /\
    ((r = CLOCK_R_OK /\ (exists j, j.(id) = i /\ s.(pq).(head) ≡ₚ j :: s'.(pq).(head)) /\
      i ∉ (id <$> s'.(pq).(head)) /\ sorted s'.(pq).(head) /\
      s'.(pq).(size) = u32 (s.(pq).(size) - 1)) \/
     (r = CLOCK_R_FAIL /\ s' = s /\ i ∉ (id <$> s.(pq).(head)))).
Proof.
  intros Hs Hnd. unfold pqueue_remove, mbind, M_bind, get, put.
  pose proof (unlink_spec i s.(pq).(head)) as Hu.
  destruct (unlink i (head (pq s))) as [l|] eqn:E.
  - destruct Hu as (l1 & j & l2 & Hq & -> & Hj & _). do 2 eexists. split; [done|]. left. simpl.
    split; [done|]. split; [|split; [|split; [by eapply unlink_sorted|done]]].
    + exists j. split; [done|]. rewrite Hq. by rewrite Permutation_middle.
    + rewrite Hq in Hnd. rewrite <- Permutation_middle in Hnd. simpl in Hnd.
      apply NoDup_cons in Hnd as [Hn _]. by rewrite <- Hj.
  - do 2 eexists. split; [done|]. right. repeat split.
    intros (x & -> & Hx)%list_elem_of_fmap. rewrite Forall_forall in Hu. by apply (Hu x Hx).
Qed.

Lemma pqueue_remove_spec_witness :
  exists s' r, pqueue_remove 2 sample_queue = Ok r s' /\
    ((r = CLOCK_R_OK /\ (exists j, j.(id) = 2 /\ sample_queue.(pq).(head) ≡ₚ j :: s'.(pq).(head)) /\
      2 ∉ (id <$> s'.(pq).(head)) /\ sorted s'.(pq).(head) /\
      s'.(pq).(size) = u32 (2 - 1)) \/
     (r = CLOCK_R_FAIL /\ s' = sample_queue /\ 2 ∉ (id <$> sample_queue.(pq).(head)))).
Proof.
  apply (pqueue_remove_spec 2 sample_queue); [simpl; sorted_solve|].
  apply (bool_decide_unpack _). vm_compute. exact I.
Defined.
