(* ===== verification/Clock.v ===== *)
(** * libclock: the timer driver

    [libclock/src/clock.c] on top of the job queue: the periodic 10 ms
    interrupt, registration and removal of timers, and the system time they
    are measured in.  Parameters of the driver are what a callback does
    ([invoke], indexed by the function pointer), the generic timer
    ([timestamp_ms]), and the kernel calls for the interrupt: [init_irq]
    returns the handler capability, [irq_ack] and [irq_clear] use it. *)
From stdpp Require Import sorting.
From S2P Require Import Prelude Utils Pqueue.

Definition TICK_10000_US : Z := 10000.
Definition TIMER_F_EN : Z := BIT 16.
Definition TIMER_F_MODE : Z := BIT 12.
Definition TIMEBASE_1_US : Z := 0.
Definition TIMER_F_INPUT_CLK : Z := 0.

Record clock : Type := mk_clock {
  timer_mux : Z;
  timer_f : Z;
  timer_irq_handler : Z;
  timer_initialised : bool;
  ids : Z;                   (* next_job_id of pqueue.c *)
  queue : option pqueue;     (* pq: None when NULL or freed *)
  start_tick : Z;
  last_tick : Z }.

(** Call an operation of [pqueue.c] on the queue [pq] points to. *)
Definition on_pq {A} (c : M pqstate A) : M clock A :=
  s ← get;
  q ← deref s.(queue);
  match c (mk_pqstate s.(ids) q) with
  | Ok a p => put {| s with ids := p.(next_job_id); queue := Some p.(pq) |};; mret a
  | Stuck e => stuck e
  end.

Definition get_time : M clock Z := s ← get; q ← deref s.(queue); mret q.(time).

Definition register_timer (mem : bool) (delay0 : Z) (type0 : job_type_t) (cb dt : Z) : M clock Z :=
  on_pq (pqueue_push mem 0 delay0 type0 cb dt).

Definition remove_timer (id0 : Z) : M clock Z :=
  s ← get;
  if negb s.(timer_initialised) then mret CLOCK_R_UINT
  else on_pq (pqueue_remove id0).

(** The driver inside a larger state [T]: [on] runs an operation on the driver's
    own state. *)
Section driver.
Context {T : Type} (on : forall A, M clock A -> M T A).
Context (invoke : Z -> Z -> Z -> M T unit).
Context (timestamp_ms : M T Z).
Context (init_irq : M T Z).
Context (irq_ack irq_clear : Z -> M T unit).
Arguments on {A} _.

Definition stop_timer : M T Z :=
  s ← on get;
  if negb s.(timer_initialised) then mret CLOCK_R_UINT
  else
    _ ← deref s.(queue);
    on (put {| s with timer_initialised := false; queue := None |});;
    irq_clear s.(timer_irq_handler);;
    mret CLOCK_R_OK.

Definition start_timer (mem : bool) (device_mux device_f : Z) : M T Z :=
  s ← on get;
  (if s.(timer_initialised) then _ ← stop_timer; mret tt else mret tt);;
  access mem;;
  on (modify (fun s => {| s with queue := Some pqueue_init |}));;
  irq ← init_irq;
  on (modify (fun s => {| s with timer_irq_handler := irq; timer_initialised := true;
    timer_mux := Z.lor device_mux (Z.lor (Z.lor TIMER_F_EN TIMER_F_MODE)
                                         (Z.shiftl TIMEBASE_1_US TIMER_F_INPUT_CLK));
    timer_f := Z.lor device_f TICK_10000_US |}));;
  now ← timestamp_ms;
  on (modify (fun s => {| s with start_tick := now; last_tick := now |}));;
  mret CLOCK_R_OK.

(** The loop of the interrupt handler.  [curr] is [curr_tick]. *)
Fixpoint run_due (fuel : nat) (curr : Z) : M T Z :=
  match fuel with
  | O => stuck NoFuel
  | S fuel' =>
      j ← on (on_pq pqueue_peek);
      now ← on get_time;
      match j with
      | Some job =>
          if ISINRANGE now job.(tick) (u64 (u64 (now + TICK_10000_US) - 1)) then
            curr' ← timestamp_ms;
            invoke job.(callback) job.(id) job.(data);;
            _ ← on (on_pq (pqueue_pop true));
            run_due fuel' curr'
          else mret curr
      | None => mret curr
      end
  end.

(** The time moves on by one period. *)
Definition end_tick (curr : Z) : M clock unit :=
  s ← get;
  q ← deref s.(queue);
  put {| s with last_tick := if nz curr then curr else s.(last_tick);
                queue := Some (mk_pqueue q.(size) (u64 (q.(time) + TICK_10000_US)) q.(head)) |}.

Definition timer_interrupt (fuel : nat) : M T Z :=
  s ← on get;
  if negb s.(timer_initialised) then mret CLOCK_R_UINT
  else
    curr ← run_due fuel 0;
    on (end_tick curr);;
    s ← on get;
    irq_ack s.(timer_irq_handler);;
    mret CLOCK_R_OK.
End driver.

(** The driver on its own. *)
Definition alone (A : Type) (c : M clock A) : M clock A := c.

(** ** Which jobs are due

    With the queue in order and no job overdue, the jobs the handler runs at
    time [now] are the prefix with a tick below [now + 10000]. *)
Fixpoint due (lim : Z) (q : list job) : list job :=
  match q with
  | [] => []
  | j :: q' => if j.(tick) <? lim then j :: due lim q' else []
  end.

Lemma due_insert_after lim new c r :
  lim <= new.(tick) -> c.(tick) <= new.(tick) -> due lim (insert_after new c r) = due lim (c :: r).
Proof.
  intros Hn. revert c. induction r as [|n r IH]; intros c Hc; simpl.
  - destruct (tick c <? tick new); simpl; [|done]. rewrite (proj2 (Z.ltb_ge (tick new) lim)) by lia. done.
  - destruct (Z.ltb_spec (tick new) (tick n)); simpl.
    + rewrite (proj2 (Z.ltb_ge (tick new) lim)), (proj2 (Z.ltb_ge (tick n) lim)) by lia. done.
    + destruct (tick c <? lim); [|done]. f_equal. rewrite IH by lia. done.
Qed.

Lemma due_insert lim new q : lim <= new.(tick) -> due lim (insert_job new q) = due lim q.
Proof.
  intros Hn. destruct q as [|h q]; simpl.
  - rewrite (proj2 (Z.ltb_ge (tick new) lim)) by lia. done.
  - destruct (Z.leb_spec (tick new) (tick h)); simpl.
    + rewrite (proj2 (Z.ltb_ge (tick new) lim)), (proj2 (Z.ltb_ge (tick h) lim)) by lia. done.
    + rewrite due_insert_after by lia. done.
Qed.

Lemma due_prefix lim q j r : due lim q = j :: r -> exists q', q = j :: q' /\ r = due lim q' /\ j.(tick) < lim.
Proof.
  destruct q as [|x q]; [done|]. simpl. destruct (Z.ltb_spec (tick x) lim); [|done].
  intros [= <- <-]. eauto.
Qed.

Lemma due_nil lim q : due lim q = [] -> sorted q -> Forall (fun j => lim <= j.(tick)) q.
Proof.
  intros Hd Hs%Sorted_StronglySorted; [|apply _].
  destruct q as [|x q]; [done|]. simpl in Hd. destruct (Z.ltb_spec (tick x) lim); [done|].
  inversion Hs as [|? ? ? Hall]; subst. constructor; [done|].
  eapply Forall_impl; [exact Hall|]. intros j. unfold before. lia.
Qed.

(** ** The behaviour of the interrupt handler *)

(** A job of the queue that the handler can re-arm: its next expiry is at least
    one interrupt period away, the time does not wrap, and it has a number of its
    own (0 asks for a new one). *)
Definition rearmable (now : Z) (j : job) : Prop :=
  0 <= j.(delay) /\ now + TICK_10000_US + j.(delay) < 2 ^ 64 /\
  (j.(type) = PERIODIC -> TICK_10000_US <= j.(delay) /\ j.(id) <> 0).

Definition queue_ok (q : pqueue) : Prop :=
  pq_ok q /\ Forall (rearmable q.(time)) q.(head) /\ 0 <= q.(time) /\ q.(time) + 2 * TICK_10000_US < 2 ^ 64.

Lemma on_pq_run {A} (c : M pqstate A) s q a p :
  s.(queue) = Some q -> c (mk_pqstate s.(ids) q) = Ok a p ->
  on_pq c s = Ok a {| s with ids := p.(next_job_id); queue := Some p.(pq) |}.
Proof.
  intros Hq Hc. unfold on_pq, mbind, M_bind, get, deref. rewrite Hq. simpl. by rewrite Hc.
Qed.

Lemma peek_run s q :
  s.(queue) = Some q -> on_pq pqueue_peek s = Ok (hd_error q.(head)) s.
Proof.
  intros Hq. erewrite on_pq_run; [|exact Hq|reflexivity]. simpl. rewrite <- Hq. by destruct s.
Qed.

Lemma get_time_run s q : s.(queue) = Some q -> get_time s = Ok q.(time) s.
Proof. intros Hq. unfold get_time, mbind, M_bind, get, deref. by rewrite Hq. Qed.

Lemma end_tick_run curr s q :
  s.(queue) = Some q ->
  end_tick curr s = Ok tt {| s with last_tick := if nz curr then curr else s.(last_tick);
    queue := Some (mk_pqueue q.(size) (u64 (q.(time) + TICK_10000_US)) q.(head)) |}.
Proof. intros Hq. unfold end_tick. rewrite get_bind. by rewrite Hq. Qed.

(** *** Re-arming *)

(** A periodic job as it goes back into the queue at time [now]. *)
Definition rearmed (now : Z) (j : job) : job := {| j with tick := now + j.(delay) |}.
Definition periodic (j : job) : Prop := j.(type) = PERIODIC.
#[global] Instance periodic_dec j : Decision (periodic j).
Proof. unfold periodic. apply _. Defined.
Definition again (now : Z) (js : list job) : list job := rearmed now <$> filter periodic js.

(** The jobs that are not due. *)
Definition later (lim : Z) (q : list job) : list job := drop (length (due lim q)) q.

(** No re-armed job expires together with another one of the queue. *)
Definition no_ties (l k : list job) : Prop :=
  NoDup (tick <$> l) /\ forall a b, a ∈ l -> b ∈ k -> a.(tick) <> b.(tick).

Lemma due_later lim q : q = due lim q ++ later lim q.
Proof.
  unfold later. induction q as [|j q IH]; [done|]. cbn [due]. destruct (tick j <? lim); [|done].
  cbn [length drop app]. by f_equal.
Qed.

Lemma due_tick lim q j : j ∈ due lim q -> j.(tick) < lim.
Proof.
  induction q as [|x q IH]; [set_solver|]. cbn [due]. destruct (Z.ltb_spec (tick x) lim); set_solver.
Qed.

(** Popping a job keeps the queue in order; a periodic one is back in it. *)
Lemma pqueue_pop_run i q j rest :
  queue_ok q -> q.(head) = j :: rest ->
  exists q', pqueue_pop true (mk_pqstate i q) = Ok CLOCK_R_OK (mk_pqstate i q') /\
    queue_ok q' /\ q'.(time) = q.(time) /\
    q'.(head) = if decide (periodic j) then insert_job (rearmed q.(time) j) rest else rest.
Proof.
  intros ([Hs Ht] & Hr & H0 & Hov) Hh. destruct q as [sz t h]; simpl in *; subst h.
  inversion Hs as [|? ? Hs' _]; subst. inversion Ht as [|? ? Htj Ht']; subst.
  inversion Hr as [|? ? (Hd & Hdo & Hp) Hr']; subst.
  unfold pqueue_pop, mbind, M_bind, get, put, periodic. simpl.
  destruct (decide (type j = PERIODIC)) as [E|E].
  - destruct (Hp E) as [Hp' Hid]. unfold TICK_10000_US in *.
    assert (mk_job (if negb (nz j.(id)) then i else j.(id)) j.(delay) (u64 (t + j.(delay))) j.(type) j.(callback) j.(data)
      = rearmed t j) as Hnew.
    { unfold nz, rearmed. rewrite (proj2 (Z.eqb_neq _ _) Hid), u64_small by lia. done. }
    unfold pqueue_push, mbind, M_bind, get, put, access. simpl. rewrite Hnew.
    unfold nz. rewrite (proj2 (Z.eqb_neq _ _) Hid). simpl. eexists. split; [reflexivity|].
    split; [|done]. rewrite Forall_forall in *.
    repeat split; simpl; [by apply insert_job_sorted| | |lia|unfold TICK_10000_US; lia];
      apply Forall_forall; intros x [->|Hx]%insert_job_elem; auto.
    + simpl. lia.
    + unfold rearmable, TICK_10000_US. simpl. auto.
  - eexists. split; [reflexivity|]. repeat split; done.
Qed.

(** What the queue holds after a job that goes back is inserted. *)
Lemma later_insert lim new q :
  sorted q -> lim <= new.(tick) ->
  (later lim (insert_job new q) ≡ₚ new :: later lim q) \/
  (later lim (insert_job new q) = later lim q /\ exists x, x ∈ later lim q /\ x.(tick) = new.(tick)).
Proof.
  intros Hs Hn. pose proof (insert_job_content new q Hs) as Hc. pose proof (due_insert lim new q Hn) as Hd.
  destruct (dropped new q) eqn:Ed.
  - right. rewrite Hc. split; [done|]. destruct q as [|h r]; [done|]. apply andb_prop in Ed as [_ Ed%Z.eqb_eq].
    exists (last_of h r). split; [|done].
    assert (last_of h r ∈ h :: r) as Hin.
    { clear. revert h. induction r as [|n r IH]; intros h; [by apply list_elem_of_here|]. apply list_elem_of_further, IH. }
    rewrite (due_later lim (h :: r)), elem_of_app in Hin. destruct Hin as [Hin%due_tick|]; [lia|done].
  - left. apply (Permutation_app_inv_l (due lim q)). rewrite <- Hd at 1. rewrite <- due_later, Hc, (due_later lim q) at 1.
    apply Permutation_middle.
Qed.

(** The new queue [k] of a queue [l] whose due jobs have been run. *)
Record settled (now lim : Z) (l k : list job) : Prop := mk_settled {
  se_waiting : later lim l ⊆+ k;
  se_only : k ⊆+ again now (due lim l) ++ later lim l;
  se_all : no_ties (again now (due lim l)) (later lim l) -> k ≡ₚ again now (due lim l) ++ later lim l }.

Lemma settled_step now lim j rest k :
  sorted rest -> j.(tick) < lim -> (periodic j -> lim <= now + j.(delay)) ->
  settled now lim (if decide (periodic j) then insert_job (rearmed now j) rest else rest) k ->
  settled now lim (j :: rest) k.
Proof.
  intros Hs Hj Hp [W O A].
  assert (later lim (j :: rest) = later lim rest /\ due lim (j :: rest) = j :: due lim rest) as [El Ed].
  { unfold later. cbn [due]. by rewrite (proj2 (Z.ltb_lt _ _) Hj). }
  split; rewrite El, ?Ed; unfold again in *; rewrite ?filter_cons; destruct (decide (periodic j)) as [P|P]; try done.
  all: rewrite (due_insert lim (rearmed now j) rest (Hp P)) in *; rewrite ?fmap_cons.
  all: destruct (later_insert lim (rearmed now j) rest Hs (Hp P)) as [L|[L (x & Hx & Ht)]]; rewrite L in *.
  - etrans; [|exact W]. by apply submseteq_cons.
  - done.
  - etrans; [exact O|]. by rewrite <- app_comm_cons, Permutation_middle.
  - etrans; [exact O|]. rewrite <- app_comm_cons. by apply submseteq_cons.
  - intros [Hnd Hne]. rewrite <- app_comm_cons, Permutation_middle, <- L. apply A.
    rewrite fmap_cons, NoDup_cons in Hnd. destruct Hnd as [Hn Hnd]. split; [done|].
    intros a b Ha Hb. rewrite L in Hb. apply elem_of_cons in Hb as [->|Hb].
    + intros Heq. apply Hn. rewrite <- Heq. by apply list_elem_of_fmap_2.
    + apply Hne; [by apply list_elem_of_further|done].
  - intros [_ Hne]. exfalso. apply (Hne (rearmed now j) x); [by apply list_elem_of_here|done|done].
Qed.

Lemma in_range_due q j rest :
  queue_ok q -> q.(head) = j :: rest ->
  ISINRANGE q.(time) j.(tick) (u64 (u64 (q.(time) + TICK_10000_US) - 1)) =
  (j.(tick) <? q.(time) + TICK_10000_US).
Proof.
  intros ([_ Ht] & _ & H0 & Hov) Hh. rewrite Hh in Ht. inversion Ht; subst. unfold TICK_10000_US in *.
  rewrite !u64_small by (rewrite ?u64_small by lia; lia).
  apply Bool.eq_iff_eq_true. rewrite ISINRANGE_spec, Z.ltb_lt by lia. lia.
Qed.

(** *** The driver beside the rest of the world

    The callbacks act on a world [W] of their own ([call]), where the time
    stamp is read and the interrupt acknowledged as well; they do not use the
    timer driver. *)
Section world.
Context {W : Type} (call : Z -> Z -> Z -> W -> W) (stamp : W -> Z) (ack : Z -> W -> W).

Definition on_clock (A : Type) (c : M clock A) : M (clock * W) A := zoom fst (fun s x => (s, x.2)) c.
Definition call_back (cb i d : Z) : M (clock * W) unit := modify (fun x => (x.1, call cb i d x.2)).
Definition read_stamp : M (clock * W) Z := gets (fun x => stamp x.2).
Definition acknowledge (h : Z) : M (clock * W) unit := modify (fun x => (x.1, ack h x.2)).

(** The world after the callbacks of [js], and the last time stamp read. *)
Definition called (js : list job) (w : W) : W := foldl (fun w j => call j.(callback) j.(id) j.(data) w) w js.
Fixpoint stamped (js : list job) (curr : Z) (w : W) : Z :=
  match js with
  | [] => curr
  | j :: js' => stamped js' (stamp w) (call j.(callback) j.(id) j.(data) w)
  end.

Lemma on_clock_bind {A B} (c : M clock A) (k : A -> M (clock * W) B) s w a s' :
  c s = Ok a s' -> (on_clock A c ≫= k) (s, w) = k a (s', w).
Proof. intros Hc. unfold on_clock, zoom, mbind, M_bind. cbn. by rewrite Hc. Qed.

Lemma run_due_run fuel curr s w q :
  let now := q.(time) in
  let lim := now + TICK_10000_US in
  s.(queue) = Some q -> queue_ok q -> (length (due lim q.(head)) < fuel)%nat ->
  exists q',
    run_due on_clock call_back read_stamp fuel curr (s, w) =
      Ok (stamped (due lim q.(head)) curr w) ({| s with queue := Some q' |}, called (due lim q.(head)) w) /\
    queue_ok q' /\ q'.(time) = now /\ due lim q'.(head) = [] /\ settled now lim q.(head) q'.(head).
Proof.
  cbv zeta. revert curr s w q. induction fuel as [|fuel IH]; intros curr s w q Hq Hok Hlen; [lia|].
  cbn [run_due]. rewrite (on_clock_bind _ _ _ _ _ _ (peek_run s q Hq)), (on_clock_bind _ _ _ _ _ _ (get_time_run s q Hq)).
  assert ({| s with queue := Some q |} = s) as Es by (rewrite <- Hq; by destruct s).
  assert (forall l, due (time q + TICK_10000_US) l = [] -> settled (time q) (time q + TICK_10000_US) l l) as Hnone.
  { intros l Hl. split; unfold later; rewrite Hl; done. }
  destruct (head q) as [|j rest] eqn:Eh; cbn [hd_error].
  { exists q. rewrite Es, Eh. split; [done|]. split; [done|]. split; [done|]. split; [done|]. by apply Hnone. }
  cbv beta iota. rewrite (in_range_due _ _ _ Hok Eh). cbn [due] in *.
  destruct (Z.ltb_spec (tick j) (q.(time) + TICK_10000_US)) as [Hlt|Hge].
  2:{ assert (due (time q + TICK_10000_US) (j :: rest) = []) as Hd by (cbn [due]; by rewrite (proj2 (Z.ltb_ge _ _) Hge)).
      exists q. rewrite Es, Eh. split; [done|]. split; [done|]. split; [done|]. split; [done|]. by apply Hnone. }
  unfold read_stamp, call_back. rewrite gets_bind, modify_bind. cbn [fst snd].
  destruct (pqueue_pop_run s.(ids) q j rest Hok Eh) as (q1 & Hpop & Hok1 & Ht1 & Hh1).
  rewrite (on_clock_bind _ _ _ _ _ _ (on_pq_run _ s q _ _ Hq Hpop)). cbn [next_job_id pq].
  pose proof Hok as ([Hs _] & Hr & _). rewrite Eh in Hs, Hr. apply Forall_cons in Hr as [(_ & _ & Hp) _].
  assert (sorted rest) as Hs' by (by inversion Hs).
  assert (periodic j -> time q + TICK_10000_US <= time q + delay j) as Hp' by (intros P; apply Hp in P; lia).
  assert (due (time q + TICK_10000_US) (head q1) = due (time q + TICK_10000_US) rest) as Hd1.
  { rewrite Hh1. destruct (decide (periodic j)) as [P|]; [by apply due_insert, Hp'|done]. }
  destruct (IH (stamp w) {| s with ids := s.(ids); queue := Some q1 |} (call j.(callback) j.(id) j.(data) w) q1
    eq_refl Hok1) as (q' & Hrun & Hok' & Ht' & Hd' & Hset); [rewrite Ht1, Hd1; cbn in Hlen; lia|].
  rewrite Ht1 in *. rewrite Hd1 in Hrun. exists q'. cbn [stamped called foldl]. split; [exact Hrun|].
  split; [done|]. split; [done|]. split; [done|]. apply settled_step; [done..|]. by rewrite <- Hh1.
Qed.

(** C39 The timer interrupt terminates and does its work.  The queue is in order
    with no job overdue, and its periodic jobs have an id and a delay of at least
    the interrupt period; callbacks leave the driver alone.  Then the handler
    calls the callback of exactly the jobs due in the next 10 ms, each once, in
    queue order, with its id and data, and acknowledges the interrupt after that;
    nothing else happens to the world.  The time is 10 ms later and the queue is
    in order again with no job overdue; it holds the jobs that were not due, and
    besides them only periodic jobs that have run, each due one delay after the
    old time.  It holds all of these if no two of them fall on the same tick and
    none on that of a job that was waiting; otherwise [pqueue_push] may lose one. *)
Theorem timer_interrupt_fires_due fuel s w q :
  let now := q.(time) in
  let lim := now + TICK_10000_US in
  let js := due lim q.(head) in
  s.(timer_initialised) = true -> s.(queue) = Some q -> queue_ok q -> (length js < fuel)%nat ->
  exists q',
    timer_interrupt on_clock call_back read_stamp acknowledge fuel (s, w) =
      Ok CLOCK_R_OK ({| s with queue := Some q';
                               last_tick := if nz (stamped js 0 w) then stamped js 0 w else s.(last_tick) |},
                     ack s.(timer_irq_handler) (called js w)) /\
    q'.(time) = lim /\ pq_ok q' /\ settled now lim q.(head) q'.(head).
Proof.
  intros now lim js Hin Hq Hok Hlen.
  destruct (run_due_run fuel 0 s w q Hq Hok Hlen) as (q1 & Hrun & Hok1 & Ht1 & Hd1 & Hset).
  destruct Hok1 as ([Hs _] & _ & H0 & Hov). fold now lim in Hrun, Hd1, Hset, Ht1. fold js in Hrun.
  assert (u64 (q1.(time) + TICK_10000_US) = lim) as Hlim.
  { unfold TICK_10000_US in *. rewrite u64_small by lia. unfold lim, TICK_10000_US. lia. }
  exists (mk_pqueue q1.(size) lim q1.(head)). split.
  - unfold timer_interrupt. rewrite (on_clock_bind get _ _ _ s s) by done. rewrite Hin. cbn [negb].
    rewrite (bind_run _ _ _ _ _ Hrun).
    match goal with |- (_ ≫= _) (?st, _) = _ => rewrite (on_clock_bind _ _ _ _ _ _ (end_tick_run _ st q1 eq_refl)) end.
    rewrite (on_clock_bind get _ _ _ _ _ eq_refl). unfold acknowledge. rewrite modify_bind. cbn. by rewrite Hlim, Hin.
  - split; [done|]. split; [|done]. split; [done|]. by apply due_nil.
Qed.
End world.

(** *** A handler that does not end *)

Section handler.
Context (invoke : Z -> Z -> Z -> M clock unit) (timestamp_ms : M clock Z).

(** Callbacks return, and leave the queue to the driver. *)
Hypothesis invoke_frame : forall cb i d s, exists s',
  invoke cb i d s = Ok tt s' /\ s'.(queue) = s.(queue) /\ s'.(ids) = s.(ids) /\
  s'.(timer_initialised) = s.(timer_initialised).
Hypothesis timestamp_frame : forall s, exists t, timestamp_ms s = Ok t s.

(** A periodic timer with a delay under the interrupt period hangs the
    handler: popping the job puts it back at a tick that is still in the window
    of the same interrupt, so the loop never ends, whatever the fuel. *)
Theorem short_periodic_timer_hangs fuel curr s i d cb dt tk t0 sz :
  0 <= d < TICK_10000_US -> 0 <= t0 -> t0 + TICK_10000_US < 2 ^ 64 -> i <> 0 ->
  s.(queue) = Some (mk_pqueue sz t0 [mk_job i d tk PERIODIC cb dt]) ->
  t0 <= tk < t0 + TICK_10000_US ->
  run_due alone invoke timestamp_ms fuel curr s = Stuck NoFuel.
Proof.
  intros Hd H0 Hov Hi. unfold TICK_10000_US in *.
  revert curr s tk sz. induction fuel as [|fuel IH]; intros curr s tk sz Hq Htk; [done|].
  cbn [run_due]. unfold alone. rewrite (bind_run _ _ _ _ _ (peek_run s _ Hq)).
  rewrite (bind_run _ _ _ _ _ (get_time_run s _ Hq)). cbn [list.head head time]. cbv beta iota. cbn [tick].
  unfold TICK_10000_US.
  assert (u64 (u64 (t0 + 10000) - 1) = t0 + 9999) as ->
    by (rewrite (u64_small (t0 + 10000)), u64_small by lia; lia).
  rewrite (proj2 (ISINRANGE_spec t0 tk (t0 + 9999) ltac:(lia))) by lia.
  destruct (timestamp_frame s) as [c' Hts]. rewrite (bind_run _ _ _ _ _ Hts).
  cbn [callback id data].
  destruct (invoke_frame cb i dt s) as (s1 & Hinv & Hq1 & Hi1 & Hin1).
  rewrite (bind_run _ _ _ _ _ Hinv).
  assert (s1.(queue) = Some (mk_pqueue sz t0 [mk_job i d tk PERIODIC cb dt])) as Hq1' by congruence.
  erewrite bind_run; [|eapply on_pq_run; [exact Hq1'|reflexivity]].
  eapply IH; [simpl; unfold nz; rewrite (proj2 (Z.eqb_neq _ _) Hi); reflexivity|].
  rewrite u64_small by lia. lia.
Qed.
End handler.

(** ** Witnesses *)

Definition quiet_callback : Z -> Z -> Z -> M clock unit := fun _ _ _ s => Ok tt s.
Definition fixed_timestamp : M clock Z := fun s => Ok 7 s.

Lemma quiet_callback_frame cb i d s : exists s',
  quiet_callback cb i d s = Ok tt s' /\ s'.(queue) = s.(queue) /\ s'.(ids) = s.(ids) /\
  s'.(timer_initialised) = s.(timer_initialised).
Proof. by exists s. Qed.

Lemma fixed_timestamp_frame s : exists t, fixed_timestamp s = Ok t s.
Proof. by exists 7. Qed.

(** A periodic job that is due (at 4 ms), one that is not, and a later one. *)
Definition ticking_jobs : list job :=
  [mk_job 1 20000 4000 PERIODIC 11 1; mk_job 2 90000 15000 ONE_SHOT 12 2; mk_job 3 90000 90000 ONE_SHOT 13 3].
Definition ticking_clock : clock := mk_clock 0 0 5 true 4 (Some (mk_pqueue 3 0 ticking_jobs)) 0 0.

(** The world of the example: the calls made, in order. *)
Definition note_call (cb i d : Z) (w : list (list Z)) : list (list Z) := w ++ [[cb; i; d]].
Definition note_ack (h : Z) (w : list (list Z)) : list (list Z) := w ++ [[h]].

Lemma timer_interrupt_fires_due_witness :
  exists s' q',
    timer_interrupt on_clock (call_back note_call) (read_stamp (fun _ => 7)) (acknowledge note_ack) 2 (ticking_clock, []) =
      Ok CLOCK_R_OK (s', [[11; 1; 1]; [5]]) /\
    s'.(queue) = Some q' /\ q'.(time) = 10000 /\
    q'.(head) ≡ₚ mk_job 1 20000 20000 PERIODIC 11 1 :: tail ticking_jobs.
Proof.
  destruct (timer_interrupt_fires_due note_call (fun _ => 7) note_ack 2 ticking_clock [] (mk_pqueue 3 0 ticking_jobs)
    eq_refl eq_refl) as (q' & Hrun & Ht & _ & Hset).
  - unfold queue_ok, pq_ok, rearmable, TICK_10000_US, ticking_jobs. cbn [head time].
    split; [split; [sorted_solve|] |split; [|lia]].
    + repeat (apply Forall_cons; split; [simpl; lia|]). apply Forall_nil_2.
    + repeat (apply Forall_cons; split; [simpl; naive_solver lia|]). apply Forall_nil_2.
  - vm_compute. lia.
  - eexists. exists q'. split; [exact Hrun|]. split; [reflexivity|]. split; [exact Ht|].
    apply (se_all _ _ _ _ Hset). split; [apply (bool_decide_unpack _); vm_compute; exact I|].
    intros a b Ha Hb. apply list_elem_of_In in Ha, Hb. vm_compute in Ha, Hb.
    destruct Ha as [<-|[]]. destruct Hb as [<-|[<-|[]]]; discriminate.
Defined.

Lemma short_periodic_timer_hangs_witness :
  run_due alone quiet_callback fixed_timestamp 1000 0
    (mk_clock 0 0 5 true 2 (Some (mk_pqueue 1 0 [mk_job 1 500 500 PERIODIC 11 1])) 0 0) = Stuck NoFuel.
Proof.
  eapply (short_periodic_timer_hangs quiet_callback fixed_timestamp
    quiet_callback_frame fixed_timestamp_frame); try reflexivity; unfold TICK_10000_US; lia.
Defined.
