(* ===== verification/UtTable.v ===== *)
(** * The untyped table: bookkeeping

    The part of [sos/src/ut/ut.c] that works on the table alone: the intrusive
    free lists (one per object size, and one of spare structures), the array
    with one entry per 4K page of physical memory, and the operations on 4K
    untypeds.  [ut_alloc], which splits untypeds with kernel calls, is in
    [UtAlloc].

    An [ut_t] lives at an address; a list is a chain through the 48-bit [next]
    fields of the heap [uts].  [ut_refines] relates that heap to plain lists,
    one per list head, and the operations are proved to be the stack
    operations on those lists. *)
From S2P Require Import Prelude Utils.

Definition seL4_PageBits : Z := 12.
Definition seL4_EndpointBits : Z := 4.
Definition SIZEOF_UT : Z := 16.

Record ut_t : Type := mk_ut { ut_cap : Z; ut_next : Z; ut_valid : Z }.

Record ut_region_t : Type := mk_region { ur_start : Z; ur_end : Z }.

Definition N_UNTYPED_LISTS : Z := seL4_PageBits - seL4_EndpointBits + 1.
Definition SIZE_BITS_TO_INDEX (x : Z) : Z := x - seL4_EndpointBits.

Record ut_table_t : Type := mk_ut_table {
  first_paddr : Z;
  untypeds : Z;
  free_untypeds : list Z;
  n_4k_untyped : Z;
  free_structures : Z }.

(** The static variable [table], and the [ut_t] structures by address. *)
Record ut_state : Type := mk_ut_state { table : ut_table_t; uts : gmap Z ut_t }.

Definition ut_load (p : Z) : M ut_state ut_t := s ← get; deref (s.(uts) !! p).
Definition ut_store (p : Z) (u : ut_t) : M ut_state unit :=
  _ ← ut_load p; modify (fun s => {| s with uts := <[p := u]> s.(uts) |}).

(** The [ut_t **] arguments of [push] and [pop]: the address of a list head. *)
Inductive ut_head : Type := Free (i : Z) | Structures.

#[global] Instance ut_head_eq_dec : EqDecision ut_head.
Proof. solve_decision. Defined.

Definition head_get (h : ut_head) : M ut_state Z :=
  s ← get;
  match h with
  | Free i => access (0 <=? i);; deref (s.(table).(free_untypeds) !! Z.to_nat i)
  | Structures => mret s.(table).(free_structures)
  end.

Definition set_head (h : ut_head) (p : Z) (t : ut_table_t) : ut_table_t :=
  match h with
  | Free i => {| t with free_untypeds := <[Z.to_nat i := p]> t.(free_untypeds) |}
  | Structures => {| t with free_structures := p |}
  end.

Definition head_set (h : ut_head) (p : Z) : M ut_state unit :=
  _ ← head_get h; modify (fun s => {| s with table := set_head h p s.(table) |}).

Definition push (head : ut_head) (new : Z) : M ut_state unit :=
  h ← head_get head;
  u ← ut_load new;
  ut_store new {| u with ut_next := wrap 48 h |};;
  head_set head new.

Definition pop (head : ut_head) : M ut_state Z :=
  popped ← head_get head;
  u ← ut_load popped;
  head_set head u.(ut_next);;
  mret popped.

Definition ut_to_paddr (ut : Z) : M ut_state Z :=
  s ← get;
  mret (u64 (s64 (ut - s.(table).(untypeds)) ÷ SIZEOF_UT * PAGE_SIZE_4K + s.(table).(first_paddr))).

Definition paddr_to_ut (paddr : Z) : M ut_state Z :=
  s ← get;
  mret (u64 (s.(table).(untypeds) + SIZEOF_UT * (u64 (paddr - s.(table).(first_paddr)) / PAGE_SIZE_4K))).

Definition ut_pages_for_region (region : ut_region_t) : Z :=
  BYTES_TO_4K_PAGES (u64 (u64 (region.(ur_end) - region.(ur_start)) / PAGE_SIZE_4K * SIZEOF_UT)).

(** [memset(table.free_untypeds, 0, ...)] clears the nine heads; the counter
    and [free_structures] of the static variable are already zero. *)
Definition ut_init (memory : Z) (region : ut_region_t) : M ut_state unit :=
  modify (fun s => {| s with table := {| s.(table) with
    untypeds := memory;
    free_untypeds := replicate (Z.to_nat N_UNTYPED_LISTS) 0;
    first_paddr := region.(ur_start) |} |}).

Definition ut_size : M ut_state Z :=
  s ← get; mret (u64 (s.(table).(n_4k_untyped) * PAGE_SIZE_4K)).

Definition list_4k : ut_head := Free (SIZE_BITS_TO_INDEX seL4_PageBits).

(** The body of the loop of [ut_add_untyped_range] at [i]; the capability is
    incremented by each iteration, so it is [cap + i] here.  [valid] is a
    signed bit field of width 1. *)
Definition add_untyped (paddr cap : Z) (device : bool) (i : Z) : M ut_state unit :=
  node ← paddr_to_ut (u64 (paddr + i * PAGE_SIZE_4K));
  u ← ut_load node;
  ut_store node {| u with ut_cap := u64 (cap + i); ut_valid := sgn 1 1 |};;
  when (negb device)
    (push list_4k node;;
     modify (fun s => {| s with table := {| s.(table) with
       n_4k_untyped := u64 (s.(table).(n_4k_untyped) + 1) |} |})).

Definition ut_add_untyped_range (paddr cap n : Z) (device : bool) : M ut_state unit :=
  for_each (zseq 0 (Z.to_nat n)) (add_untyped paddr cap device).

(** Both [ut_alloc_4k_untyped(NULL)] and the call that asks for the physical
    address: the pair of the node and [*paddr]. *)
Definition ut_alloc_4k_untyped : M ut_state (Z * Z) :=
  h ← head_get list_4k;
  if h =? 0 then mret (0, 0)
  else
    n ← pop list_4k;
    paddr ← ut_to_paddr n;
    mret (n, paddr).

Definition ut_free (node size_bits : Z) : M ut_state unit :=
  if (size_bits <? seL4_EndpointBits) || (seL4_PageBits <? size_bits) then mret tt
  else push (Free (SIZE_BITS_TO_INDEX size_bits)) node.

Definition ut_alloc_4k_device (paddr : Z) : M ut_state Z :=
  ut ← paddr_to_ut paddr;
  u ← ut_load ut;
  if negb (nz u.(ut_valid)) then mret 0 else mret ut.

(** A freshly mapped, zeroed page at [base] seen as an array of [ut_t]. *)
Definition UTS_PER_PAGE : Z := PAGE_SIZE_4K / SIZEOF_UT.
Definition ut_at (base i : Z) : Z := base + i * SIZEOF_UT.
Definition fresh_ut_page (base : Z) : M ut_state unit :=
  modify (fun s => {| s with uts :=
    foldr (fun i m => <[ut_at base i := mk_ut 0 0 0]> m) s.(uts)
          (zseq 0 (Z.to_nat UTS_PER_PAGE)) |}).

(** ** The abstract view: ten lists *)

Definition NULLPTR : Z := 0.

(** [chain m p l]: following [next] from [p] visits the nodes of [l]. *)
Fixpoint chain (m : gmap Z ut_t) (p : Z) (l : list Z) : Prop :=
  match l with
  | [] => p = NULLPTR
  | q :: l' => p = q /\ exists u, m !! q = Some u /\ chain m u.(ut_next) l'
  end.

Definition head_ok (h : ut_head) : Prop :=
  match h with Free i => 0 <= i < N_UNTYPED_LISTS | Structures => True end.

Definition head_of (t : ut_table_t) (h : ut_head) : Z :=
  match h with
  | Free i => default NULLPTR (t.(free_untypeds) !! Z.to_nat i)
  | Structures => t.(free_structures)
  end.

(** A node address fits the 48-bit [next] field and is not null. *)
Definition ut_addr (p : Z) : Prop := 0 < p < 2 ^ 48.

Definition lists : Type := ut_head -> list Z.
Definition set_list (f : lists) (h : ut_head) (l : list Z) : lists :=
  fun h' => if decide (h' = h) then l else f h'.

Record ut_refines (s : ut_state) (f : lists) : Prop := mk_refines {
  ref_len : length s.(table).(free_untypeds) = Z.to_nat N_UNTYPED_LISTS;
  ref_chain : forall h, head_ok h -> chain s.(uts) (head_of s.(table) h) (f h);
  ref_nodup : forall h, head_ok h -> NoDup (f h);
  ref_addr : forall h p, head_ok h -> p ∈ f h -> ut_addr p;
  ref_disj : forall h1 h2 p, head_ok h1 -> head_ok h2 -> p ∈ f h1 -> p ∈ f h2 -> h1 = h2 }.

(** [p] is in none of the lists: it is allocated, or was never added. *)
Definition ut_unlisted (f : lists) (p : Z) : Prop := forall h, head_ok h -> p ∉ f h.

Lemma chain_frame m p l q u :
  q ∉ l -> chain m p l -> chain (<[q := u]> m) p l.
Proof.
  revert p. induction l as [|x l IH]; intros p Hq; [done|].
  intros (-> & v & Hv & Hc). apply not_elem_of_cons in Hq as [Hne Hq].
  split; [done|]. exists v. split; [by rewrite lookup_insert_ne|]. by apply IH.
Qed.

Lemma chain_mapped m p l q : chain m p l -> q ∈ l -> is_Some (m !! q).
Proof.
  revert p. induction l as [|x l IH]; intros p Hc Hq; [by apply not_elem_of_nil in Hq|].
  destruct Hc as (-> & v & Hv & Hc). apply elem_of_cons in Hq as [->|Hq]; [by exists v|].
  by apply (IH v.(ut_next)).
Qed.

Lemma chain_null m l : chain m NULLPTR l -> Forall ut_addr l -> l = [].
Proof.
  destruct l as [|x l]; [done|]. intros (<- & _) H. apply Forall_cons in H as [H _].
  unfold ut_addr, NULLPTR in H. lia.
Qed.

Lemma head_get_ok s h :
  length s.(table).(free_untypeds) = Z.to_nat N_UNTYPED_LISTS ->
  head_ok h -> head_get h s = Ok (head_of s.(table) h) s.
Proof.
  intros Hl Hh. destruct h as [i|]; [|done]. simpl in Hh.
  unfold head_get. rewrite (bind_run _ _ _ _ _ (eq_refl : get s = Ok s s)).
  rewrite (proj2 (Z.leb_le 0 i)) by lia. simpl.
  destruct (lookup_lt_is_Some_2 s.(table).(free_untypeds) (Z.to_nat i)) as [p Hp]; [rewrite Hl; lia|].
  unfold mbind, M_bind, access. simpl. by rewrite Hp.
Qed.

Lemma head_of_set t h h' p :
  length t.(free_untypeds) = Z.to_nat N_UNTYPED_LISTS -> head_ok h -> head_ok h' ->
  head_of (set_head h p t) h' = if decide (h' = h) then p else head_of t h'.
Proof.
  intros Hl Hh Hh'. destruct h as [i|], h' as [j|]; simpl in *;
    repeat case_decide; simplify_eq; try done.
  - rewrite list_lookup_insert_eq; [done|]. rewrite Hl. lia.
  - rewrite list_lookup_insert_ne; [done|]. intros ?. assert (i = j) by lia. congruence.
Qed.

Lemma ut_store_ok s p u v :
  s.(uts) !! p = Some v -> ut_store p u s = Ok tt {| s with uts := <[p := u]> s.(uts) |}.
Proof. intros H. unfold ut_store, ut_load, mbind, M_bind, get, deref, modify. by rewrite H. Qed.

Lemma ut_load_ok s p v : s.(uts) !! p = Some v -> ut_load p s = Ok v s.
Proof. intros H. unfold ut_load, mbind, M_bind, get, deref. by rewrite H. Qed.

Lemma set_head_len h p t : length (set_head h p t).(free_untypeds) = length t.(free_untypeds).
Proof. destruct h; simpl; [apply length_insert | done]. Qed.

(** Writing fields of a node that no list visits keeps the refinement. *)
Lemma refines_write s f p u v :
  ut_refines s f -> ut_unlisted f p -> s.(uts) !! p = Some v ->
  ut_refines {| s with uts := <[p := u]> s.(uts) |} f.
Proof.
  intros [Hl Hc Hn Ha Hd] Hp Hv. split; try done.
  intros h Hh. apply chain_frame; [by apply Hp | by apply Hc].
Qed.

Lemma head_in_list s f h q l :
  ut_refines s f -> head_ok h -> f h = q :: l ->
  head_of s.(table) h = q /\ exists u, s.(uts) !! q = Some u /\ chain s.(uts) u.(ut_next) l.
Proof. intros R Hh Hf. pose proof (ref_chain _ _ R h Hh) as Hc. by rewrite Hf in Hc. Qed.

Lemma refines_head_bound s f h :
  ut_refines s f -> head_ok h -> 0 <= head_of s.(table) h < 2 ^ 48.
Proof.
  intros R Hh. pose proof (ref_chain _ _ R h Hh) as Hc. destruct (f h) as [|q l] eqn:E.
  - simpl in Hc. rewrite Hc. unfold NULLPTR. lia.
  - destruct Hc as [-> _]. assert (q ∈ f h) as Hq by (rewrite E; apply list_elem_of_here).
    pose proof (ref_addr _ _ R h q Hh Hq) as Ha. unfold ut_addr in Ha. lia.
Qed.

Lemma refines_empty s f h :
  ut_refines s f -> head_ok h -> (head_of s.(table) h = 0 <-> f h = []).
Proof.
  intros R Hh. pose proof (ref_chain _ _ R h Hh) as Hc. split.
  - intros E. rewrite E in Hc. apply (chain_null _ _ Hc).
    apply Forall_forall. intros p Hp. by apply (ref_addr _ _ R h p).
  - intros E. by rewrite E in Hc.
Qed.

Lemma head_set_ok s h p :
  length s.(table).(free_untypeds) = Z.to_nat N_UNTYPED_LISTS -> head_ok h ->
  head_set h p s = Ok tt {| s with table := set_head h p s.(table) |}.
Proof.
  intros Hl Hh. unfold head_set. by rewrite (bind_run _ _ _ _ _ (head_get_ok s h Hl Hh)).
Qed.

(** The state [push] leaves. *)
Definition pushed (s : ut_state) (h : ut_head) (p : Z) (v : ut_t) : ut_state :=
  {| table := set_head h p s.(table);
     uts := <[p := {| v with ut_next := wrap 48 (head_of s.(table) h) |}]> s.(uts) |}.

Lemma push_run s f h p v :
  ut_refines s f -> head_ok h -> s.(uts) !! p = Some v -> push h p s = Ok tt (pushed s h p v).
Proof.
  intros R Hh Hv. pose proof (ref_len _ _ R) as Hl.
  unfold push. rewrite (bind_run _ _ _ _ _ (head_get_ok s h Hl Hh)).
  rewrite (bind_run _ _ _ _ _ (ut_load_ok _ _ _ Hv)).
  rewrite (bind_run _ _ _ _ _ (ut_store_ok _ _ _ _ Hv)).
  by rewrite head_set_ok.
Qed.

(** [push] is [cons] on its list and leaves the others alone. *)
Lemma push_refines s f h p v :
  ut_refines s f -> head_ok h -> ut_unlisted f p -> ut_addr p ->
  ut_refines (pushed s h p v) (set_list f h (p :: f h)).
Proof.
  intros R Hh Hp Ha. pose proof (ref_len _ _ R) as Hl.
  pose proof (refines_head_bound _ _ h R Hh) as Hb.
  destruct R as [_ Hc Hn Haddr Hd]. unfold set_list, pushed. split; simpl.
  - by rewrite set_head_len.
  - intros h' Hh'. rewrite head_of_set by done. case_decide as E; [|by apply chain_frame; eauto].
    subst. simpl. split; [done|]. eexists. split; [apply lookup_insert_eq|]. simpl.
    rewrite wrap_small by done. apply chain_frame; [by apply Hp | by apply Hc].
  - intros h' Hh'. case_decide; [|by apply Hn]. constructor; [by apply Hp | by apply Hn].
  - intros h' q Hh'. case_decide; [|by apply Haddr].
    intros [->|Hq]%elem_of_cons; [done | by apply (Haddr h)].
  - intros h1 h2 q H1 H2. repeat case_decide; subst; try done;
      rewrite ?elem_of_cons; intros Hq1 Hq2;
      repeat match goal with H : _ \/ _ |- _ => destruct H as [->|H] end;
      solve [by destruct (Hp _ H2) | by destruct (Hp _ H1) | by apply (Hd _ _ q)].
Qed.

(** [pop] is [tail] on its list and returns the head. *)
Lemma pop_spec s f h p l :
  ut_refines s f -> head_ok h -> f h = p :: l ->
  exists s', pop h s = Ok p s' /\ ut_refines s' (set_list f h l) /\ s'.(uts) = s.(uts).
Proof.
  intros R Hh Hf. pose proof (ref_len _ _ R) as Hl.
  destruct (head_in_list _ _ _ _ _ R Hh Hf) as (He & u & Hu & Hc).
  unfold pop. rewrite (bind_run _ _ _ _ _ (head_get_ok s h Hl Hh)), He.
  rewrite (bind_run _ _ _ _ _ (ut_load_ok _ _ _ Hu)).
  rewrite (bind_run _ _ _ _ _ (head_set_ok s h _ Hl Hh)).
  eexists. split; [reflexivity|]. simpl. split; [|done].
  destruct R as [_ Hch Hn Haddr Hd]. unfold set_list. split; simpl.
  - by rewrite set_head_len.
  - intros h' Hh'. rewrite head_of_set by done. case_decide; [done | by apply Hch].
  - intros h' Hh'. case_decide; [|by apply Hn]. subst.
    specialize (Hn h Hh). rewrite Hf in Hn. by apply NoDup_cons_1_2 in Hn.
  - intros h' q Hh'. case_decide; [|by apply Haddr]. subst. intros Hq. apply (Haddr h); [done|].
    rewrite Hf. by apply list_elem_of_further.
  - intros h1 h2 q H1 H2. repeat case_decide; subst; try done; intros Hq1 Hq2;
      (apply (Hd _ _ q); [done|done|..]; rewrite ?Hf; try by apply list_elem_of_further); done.
Qed.

Lemma popped_unlisted s f h p l :
  ut_refines s f -> head_ok h -> f h = p :: l -> ut_unlisted (set_list f h l) p.
Proof.
  intros R Hh Hf h' Hh'. unfold set_list. case_decide as E.
  - subst. pose proof (ref_nodup _ _ R h Hh) as Hn. rewrite Hf in Hn.
    by apply NoDup_cons_1_1 in Hn.
  - intros Hp. apply E. apply (ref_disj _ _ R h' h p); [done|done|done|].
    rewrite Hf. apply list_elem_of_here.
Qed.

Lemma list_4k_ok : head_ok list_4k.
Proof. simpl. unfold SIZE_BITS_TO_INDEX, N_UNTYPED_LISTS, seL4_PageBits, seL4_EndpointBits. lia. Qed.
#[export] Hint Resolve list_4k_ok : core.

(** ** Allocation of 4K untypeds *)

Lemma ut_to_paddr_run s p :
  exists a, ut_to_paddr p s = Ok a s.
Proof. by eexists. Qed.

Lemma ut_alloc_4k_empty s f :
  ut_refines s f -> f list_4k = [] -> ut_alloc_4k_untyped s = Ok (0, 0) s.
Proof.
  intros R Hf. unfold ut_alloc_4k_untyped.
  rewrite (bind_run _ _ _ _ _ (head_get_ok s _ (ref_len _ _ R) list_4k_ok)).
  by rewrite (proj2 (refines_empty s f _ R list_4k_ok) Hf).
Qed.

Lemma ut_alloc_4k_nonempty s f p l :
  ut_refines s f -> f list_4k = p :: l ->
  exists s' a, ut_alloc_4k_untyped s = Ok (p, a) s' /\ ut_to_paddr p s' = Ok a s' /\
    ut_refines s' (set_list f list_4k l) /\ s'.(uts) = s.(uts) /\ 0 < p.
Proof.
  intros R Hf. destruct (pop_spec s f _ p l R list_4k_ok Hf) as (s' & Hpop & R' & Hu).
  destruct (head_in_list _ _ _ _ _ R list_4k_ok Hf) as (He & _).
  assert (0 < p) as Hp.
  { assert (ut_addr p) as []; [|done].
    apply (ref_addr _ _ R list_4k); [done|]. rewrite Hf. apply list_elem_of_here. }
  destruct (ut_to_paddr_run s' p) as [a Ha]. exists s', a. split; [|done].
  unfold ut_alloc_4k_untyped.
  rewrite (bind_run _ _ _ _ _ (head_get_ok s _ (ref_len _ _ R) list_4k_ok)), He.
  rewrite (proj2 (Z.eqb_neq p 0)) by lia. cbv iota.
  rewrite (bind_run _ _ _ _ _ Hpop). by rewrite (bind_run _ _ _ _ _ Ha).
Qed.

Lemma ut_free_spec s f p size_bits v :
  ut_refines s f -> seL4_EndpointBits <= size_bits <= seL4_PageBits ->
  ut_unlisted f p -> ut_addr p -> s.(uts) !! p = Some v ->
  let h := Free (SIZE_BITS_TO_INDEX size_bits) in
  ut_free p size_bits s = Ok tt (pushed s h p v) /\
  ut_refines (pushed s h p v) (set_list f h (p :: f h)).
Proof.
  intros R Hs Hp Ha Hm h. unfold ut_free.
  rewrite (proj2 (Z.ltb_ge size_bits _)), (proj2 (Z.ltb_ge _ size_bits)) by lia. cbn [orb].
  assert (head_ok h) as Hh.
  { simpl. unfold SIZE_BITS_TO_INDEX, N_UNTYPED_LISTS, seL4_PageBits, seL4_EndpointBits in *. lia. }
  split; [by apply (push_run s f) | by apply push_refines].
Qed.

(** C35 The 4K allocator refines a stack of pages: on an empty list it returns
    NULL and changes nothing; otherwise it returns the first node of the list,
    which is then in no list of the table (so it is not handed out again until
    it is freed), and every other list is as it was. *)
Theorem ut_alloc_4k_refines (s : ut_state) (f : lists) :
  ut_refines s f ->
  match f list_4k with
  | [] => ut_alloc_4k_untyped s = Ok (0, 0) s
  | p :: l => exists s' a, ut_alloc_4k_untyped s = Ok (p, a) s' /\ ut_to_paddr p s' = Ok a s' /\
      ut_refines s' (set_list f list_4k l) /\ ut_unlisted (set_list f list_4k l) p /\
      s'.(uts) = s.(uts) /\ 0 < p
  end.
Proof.
  intros R. destruct (f list_4k) as [|p l] eqn:Hf; [by apply (ut_alloc_4k_empty s f)|].
  destruct (ut_alloc_4k_nonempty s f p l R Hf) as (s' & a & H1 & H2 & H3 & H4 & H5).
  exists s', a. pose proof (popped_unlisted s f list_4k p l R list_4k_ok Hf). naive_solver.
Qed.

(** [ut_free] returns a node that is in no list to the list of its size, in
    front; sizes outside the table are refused without any change. *)
Theorem ut_free_refines (s : ut_state) (f : lists) (p size_bits : Z) :
  ut_refines s f -> ut_unlisted f p -> ut_addr p -> is_Some (s.(uts) !! p) ->
  let h := Free (SIZE_BITS_TO_INDEX size_bits) in
  if (seL4_EndpointBits <=? size_bits) && (size_bits <=? seL4_PageBits)
  then exists s', ut_free p size_bits s = Ok tt s' /\ ut_refines s' (set_list f h (p :: f h)) /\
         (forall q, q <> p -> s'.(uts) !! q = s.(uts) !! q)
  else ut_free p size_bits s = Ok tt s.
Proof.
  intros R Hp Ha Hm h. case_if; zbool.
  - destruct Hm as [v Hv]. eexists. destruct (ut_free_spec s f p size_bits v R) as [H1 H2]; [lia|done..|].
    split; [exact H1|]. split; [exact H2|]. intros q Hq. simpl. by rewrite lookup_insert_ne.
  - unfold ut_free. destruct (_ || _) eqn:E; [done|]. zbool. naive_solver lia.
Qed.

(** ** Building the table *)

(** The table as [ut_init] leaves it: every entry of [n] pages zeroed. *)
Definition boot_uts (memory : Z) (n : nat) : gmap Z ut_t :=
  list_to_map ((fun i => (ut_at memory i, mk_ut 0 0 0)) <$> zseq 0 n).

Definition node_of (t : ut_table_t) (paddr : Z) : Z :=
  t.(untypeds) + SIZEOF_UT * ((paddr - t.(first_paddr)) / PAGE_SIZE_4K).

(** The table covers [n] pages from [first_paddr] and lies below 2^48. *)
Definition covers (t : ut_table_t) (n : Z) : Prop :=
  0 < t.(untypeds) /\ 0 <= n /\ t.(untypeds) + SIZEOF_UT * n < 2 ^ 48 /\
  0 <= t.(first_paddr) /\ t.(first_paddr) + PAGE_SIZE_4K * n < 2 ^ 64.

Definition covered (t : ut_table_t) (n paddr : Z) : Prop :=
  t.(first_paddr) <= paddr < t.(first_paddr) + PAGE_SIZE_4K * n.

Lemma page_index_bound t n paddr :
  covered t n paddr -> 0 <= (paddr - t.(first_paddr)) / PAGE_SIZE_4K < n.
Proof.
  unfold covered. rewrite PAGE_SIZE_4K_eq. intros H.
  pose proof (Z.div_pos (paddr - t.(first_paddr)) 4096).
  assert ((paddr - t.(first_paddr)) / 4096 < n) by (apply Z.div_lt_upper_bound; lia). lia.
Qed.

Lemma node_of_addr t n paddr : covers t n -> covered t n paddr -> ut_addr (node_of t paddr).
Proof.
  intros Hc Hp. pose proof (page_index_bound _ _ _ Hp).
  unfold covers, ut_addr, node_of, SIZEOF_UT in *. lia.
Qed.

Lemma paddr_to_ut_run s n paddr :
  covers s.(table) n -> covered s.(table) n paddr ->
  paddr_to_ut paddr s = Ok (node_of s.(table) paddr) s.
Proof.
  intros Hc Hp. pose proof (node_of_addr _ _ _ Hc Hp) as Ha.
  unfold paddr_to_ut, mbind, M_bind, get, mret, M_ret. do 2 f_equal.
  unfold covers, covered, ut_addr, node_of in *.
  rewrite (u64_small (paddr - _)); [apply u64_small; lia|]. rewrite PAGE_SIZE_4K_eq in *. lia.
Qed.

Lemma ut_to_paddr_node s n paddr :
  covers s.(table) n -> covered s.(table) n paddr ->
  ut_to_paddr (node_of s.(table) paddr) s =
  Ok (s.(table).(first_paddr) + (paddr - s.(table).(first_paddr)) / PAGE_SIZE_4K * PAGE_SIZE_4K) s.
Proof.
  intros Hc Hp. pose proof (page_index_bound _ _ _ Hp) as Hi.
  unfold ut_to_paddr, mbind, M_bind, get, mret, M_ret. do 2 f_equal.
  unfold node_of. set (k := (paddr - _) / _) in *. clearbody k. unfold covers, SIZEOF_UT in *.
  replace (s.(table).(untypeds) + 16 * k - s.(table).(untypeds)) with (k * 16) by lia.
  assert (s64 (k * 16) = k * 16) as ->.
  { unfold s64, sgn. rewrite Z.mod_small by lia.
    destruct (Z.ltb_spec (k * 16) (2 ^ (64 - 1))); lia. }
  rewrite Z.quot_mul by done. rewrite PAGE_SIZE_4K_eq in *. rewrite u64_small; lia.
Qed.

(** Physical addresses and table entries correspond: inside the region the
    table covers, [paddr_to_ut] is a valid entry and [ut_to_paddr] leads back
    to the first byte of the page the address is in. *)
Theorem paddr_ut_roundtrip (s : ut_state) (n paddr : Z) :
  covers s.(table) n -> covered s.(table) n paddr ->
  exists node, paddr_to_ut paddr s = Ok node s /\ ut_addr node /\
    ut_to_paddr node s = Ok (s.(table).(first_paddr) +
      (paddr - s.(table).(first_paddr)) / PAGE_SIZE_4K * PAGE_SIZE_4K) s.
Proof.
  intros Hc Hp. exists (node_of s.(table) paddr). split; [by apply (paddr_to_ut_run s n)|].
  split; [by apply (node_of_addr _ n) | by apply (ut_to_paddr_node s n)].
Qed.

(** The refinement depends on the lists only pointwise. *)
Lemma refines_ext s f g :
  pointwise_relation ut_head eq f g -> ut_refines s f -> ut_refines s g.
Proof.
  intros E [Hl Hc Hn Ha Hd]. split; [done| | | |].
  - intros h Hh. rewrite <- (E h). by apply Hc.
  - intros h Hh. rewrite <- (E h). by apply Hn.
  - intros h p Hh. rewrite <- (E h). by apply Ha.
  - intros h1 h2 p H1 H2. rewrite <- (E h1), <- (E h2). by apply Hd.
Qed.

#[export] Instance ut_refines_proper :
  Proper (eq ==> pointwise_relation ut_head eq ==> iff) ut_refines.
Proof.
  intros s ? <- f g E. split; apply refines_ext; [done|]. intros h. symmetry. apply E.
Qed.

Lemma set_list_set_list f h l1 l2 :
  pointwise_relation ut_head eq (set_list (set_list f h l1) h l2) (set_list f h l2).
Proof. intros h'. unfold set_list. by case_decide. Qed.

Lemma set_list_same f h : pointwise_relation ut_head eq (set_list f h (f h)) f.
Proof. intros h'. unfold set_list. by case_decide; subst. Qed.

Lemma set_list_eq f h l : set_list f h l h = l.
Proof. unfold set_list. by rewrite decide_True. Qed.

Lemma unlisted_set_list f h l q :
  ut_unlisted f q -> q ∉ l -> ut_unlisted (set_list f h l) q.
Proof. intros H Hl h' Hh'. unfold set_list. case_decide; [done | by apply H]. Qed.

Section add_range.
Context (f : lists) (N paddr cap0 : Z).

Definition range_node (t : ut_table_t) (i : Z) : Z := node_of t (paddr + i * PAGE_SIZE_4K).

Definition range_ok (s : ut_state) (k n : Z) : Prop :=
  covers s.(table) N /\ s.(table).(first_paddr) <= paddr /\
  0 <= k /\ paddr + (k + n) * PAGE_SIZE_4K <= s.(table).(first_paddr) + N * PAGE_SIZE_4K /\
  0 <= cap0 /\ cap0 + k + n < 2 ^ 64 /\ 0 <= s.(table).(n_4k_untyped) /\
  s.(table).(n_4k_untyped) + n < 2 ^ 64 /\
  (forall i, k <= i < k + n -> is_Some (s.(uts) !! range_node s.(table) i)).

Lemma range_node_covered s k n i :
  range_ok s k n -> k <= i < k + n -> covered s.(table) N (paddr + i * PAGE_SIZE_4K).
Proof. unfold range_ok, covered. rewrite PAGE_SIZE_4K_eq. lia. Qed.

Lemma range_node_eq t i :
  range_node t i = t.(untypeds) + SIZEOF_UT * ((paddr - t.(first_paddr)) / PAGE_SIZE_4K + i).
Proof.
  unfold range_node, node_of. do 2 f_equal.
  replace (paddr + i * PAGE_SIZE_4K - t.(first_paddr))
    with (paddr - t.(first_paddr) + i * PAGE_SIZE_4K) by lia.
  by apply Z.div_add.
Qed.

Lemma range_node_inj t i j : range_node t i = range_node t j -> i = j.
Proof. rewrite !range_node_eq. unfold SIZEOF_UT. lia. Qed.

Lemma range_node_geometry t t' i :
  t'.(untypeds) = t.(untypeds) -> t'.(first_paddr) = t.(first_paddr) ->
  range_node t' i = range_node t i.
Proof. rewrite !range_node_eq. by intros -> ->. Qed.

(** The entry the loop writes at [i]. *)
Definition added (s : ut_state) (i : Z) : Prop :=
  exists u, s.(uts) !! range_node s.(table) i = Some u /\
            u.(ut_cap) = cap0 + i /\ nz u.(ut_valid) = true.

(** The state after iteration [i], from the entry [v] it finds. *)
Definition entry_written (s : ut_state) (i : Z) (v : ut_t) : ut_state :=
  {| s with uts := <[range_node s.(table) i :=
       {| v with ut_cap := u64 (cap0 + i); ut_valid := sgn 1 1 |}]> s.(uts) |}.

Definition count_page (s : ut_state) : ut_state :=
  {| s with table := {| s.(table) with n_4k_untyped := u64 (s.(table).(n_4k_untyped) + 1) |} |}.

Lemma count_page_refines s g : ut_refines s g -> ut_refines (count_page s) g.
Proof. intros [Hl Hc Hn Ha Hd]. by split. Qed.

Lemma add_untyped_run s g i n (device : bool) :
  range_ok s i (1 + n) -> 0 <= n -> ut_refines s g -> ut_unlisted g (range_node s.(table) i) ->
  exists v, s.(uts) !! range_node s.(table) i = Some v /\
    let s1 := entry_written s i v in
    ut_refines s1 g /\
    add_untyped paddr cap0 device i s =
      Ok tt (if device then s1 else count_page (pushed s1 list_4k (range_node s.(table) i)
        {| v with ut_cap := u64 (cap0 + i); ut_valid := sgn 1 1 |})).
Proof.
  intros Hr Hn R Hu. pose proof Hr as (Hc & Hp & Hk & Hend & Hcap & Hcap' & Hz & Hz' & Hm).
  assert (covered s.(table) N (paddr + i * PAGE_SIZE_4K)) as Hcov
    by (apply (range_node_covered s i (1 + n)); [done|lia]).
  assert (u64 (paddr + i * PAGE_SIZE_4K) = paddr + i * PAGE_SIZE_4K) as E64.
  { apply u64_small. unfold covered, covers in *. rewrite PAGE_SIZE_4K_eq in *. lia. }
  destruct (Hm i) as [v Hv]; [lia|]. exists v. split; [done|]. intros s1.
  assert (ut_refines s1 g) as R1 by (by apply (refines_write s g _ _ v)). split; [done|].
  unfold add_untyped. rewrite E64.
  rewrite (bind_run _ _ _ _ _ (paddr_to_ut_run s N _ Hc Hcov)).
  rewrite (bind_run _ _ _ _ _ (ut_load_ok _ _ _ Hv)).
  rewrite (bind_run _ _ _ _ _ (ut_store_ok _ _ _ _ Hv)).
  destruct device; [done|]. cbn [negb when].
  rewrite (bind_run _ _ _ tt (pushed s1 list_4k (range_node s.(table) i)
    {| v with ut_cap := u64 (cap0 + i); ut_valid := sgn 1 1 |})); [done|].
  apply (push_run s1 g); [done|done|]. simpl. apply lookup_insert_eq.
Qed.

(** What one iteration keeps and adds. *)
Lemma add_untyped_step s g i n (device : bool) :
  range_ok s i (1 + n) -> 0 <= n -> ut_refines s g -> ut_unlisted g (range_node s.(table) i) ->
  exists s', add_untyped paddr cap0 device i s = Ok tt s' /\
    ut_refines s' (if device then g else set_list g list_4k (range_node s.(table) i :: g list_4k)) /\
    range_ok s' (i + 1) n /\ added s' i /\
    (forall j, range_node s'.(table) j = range_node s.(table) j) /\
    (forall q, q <> range_node s.(table) i -> s'.(uts) !! q = s.(uts) !! q) /\
    s'.(table).(n_4k_untyped) = s.(table).(n_4k_untyped) + (if device then 0 else 1).
Proof.
  intros Hr Hn R Hu. pose proof Hr as (Hc & Hp & Hk & Hend & Hcap & Hcap' & Hz & Hz' & Hm).
  destruct (add_untyped_run s g i n device Hr Hn R Hu) as (v & Hv & R1 & Hrun).
  assert (ut_addr (range_node s.(table) i)) as Ha.
  { apply (node_of_addr _ N); [done|]. apply (range_node_covered s i (1 + n)); [done|lia]. }
  assert (u64 (cap0 + i) = cap0 + i) as Ecap by (apply u64_small; lia).
  eexists. split; [exact Hrun|].
  split; [destruct device; [done | by apply count_page_refines, push_refines]|].
  split; [|split; [|split; [|split]]].
  - split; [by destruct device|]. split; [by destruct device|]. split; [lia|].
    split; [destruct device; simpl; lia|]. split; [lia|]. split; [lia|].
    split; [destruct device; simpl; [lia | apply u64_bound]|].
    split; [destruct device; simpl; [lia|]; rewrite u64_small; lia|].
    intros j Hj. destruct (Hm j) as [w Hw]; [lia|]. assert (range_node s.(table) i <> range_node s.(table) j).
    { intros E%range_node_inj. lia. }
    exists w. by destruct device; simpl; rewrite !lookup_insert_ne.
  - destruct device; simpl; eexists; (split; [apply lookup_insert_eq|]; simpl; by rewrite Ecap).
  - by destruct device.
  - intros q Hq. destruct device; simpl; by rewrite !lookup_insert_ne.
  - destruct device; simpl; [lia | rewrite u64_small; lia].
Qed.

Lemma add_untyped_loop (device : bool) m s g k :
  range_ok s k (Z.of_nat m) -> ut_refines s g ->
  (forall i, k <= i < k + Z.of_nat m -> ut_unlisted g (range_node s.(table) i)) ->
  exists s', for_each (zseq k m) (add_untyped paddr cap0 device) s = Ok tt s' /\
    ut_refines s' (if device then g else
      set_list g list_4k (rev (range_node s.(table) <$> zseq k m) ++ g list_4k)) /\
    (forall i, k <= i < k + Z.of_nat m -> added s' i) /\
    (forall j, range_node s'.(table) j = range_node s.(table) j) /\
    (forall q, (forall i, k <= i < k + Z.of_nat m -> q <> range_node s.(table) i) ->
       s'.(uts) !! q = s.(uts) !! q) /\
    s'.(table).(n_4k_untyped) = s.(table).(n_4k_untyped) + (if device then 0 else Z.of_nat m).
Proof.
  revert s g k. induction m as [|m IH]; intros s g k Hr R Hu.
  { exists s. split; [done|]. split; [destruct device; [done|]; by rewrite <- (set_list_same g list_4k) in R|].
    split; [lia|]. repeat split; try done. destruct device; lia. }
  rewrite zseq_S. cbn [for_each].
  destruct (add_untyped_step s g k (Z.of_nat m) device) as (s1 & H1 & R1 & Hr1 & Ha1 & Hg1 & Hf1 & Hn1);
    [by replace (1 + Z.of_nat m) with (Z.of_nat (S m)) by lia | lia | done | apply Hu; lia |].
  set (g1 := if device then g else _) in R1.
  destruct (IH s1 g1 (k + 1) Hr1 R1) as (s' & H2 & R2 & Ha2 & Hg2 & Hf2 & Hn2).
  { intros i Hi. rewrite Hg1. subst g1. destruct device; [apply Hu; lia|].
    apply unlisted_set_list; [apply Hu; lia|].
    apply not_elem_of_cons. split; [intros E%range_node_inj; lia|]. apply Hu; [lia | done]. }
  exists s'. rewrite (bind_run _ _ _ _ _ H1). split; [done|]. split.
  { subst g1. destruct device; [done|].
    eapply refines_ext in R2; [|apply set_list_set_list].
    rewrite set_list_eq in R2.
    rewrite fmap_cons. simpl. rewrite <- app_assoc. simpl.
    by rewrite (list_fmap_ext _ (range_node s.(table)) (zseq (k + 1) m) (fun _ j _ => Hg1 j)) in R2. }
  split; [|split; [|split]].
  - intros i Hi. destruct (Z.eq_dec i k) as [->|]; [|apply Ha2; lia].
    destruct Ha1 as (u & Hu1 & Hu2). exists u. split; [|done]. rewrite Hg2, Hf2; [done|].
    intros i' Hi' E. rewrite !Hg1 in E.
    apply range_node_inj in E. lia.
  - intros j. by rewrite Hg2.
  - intros q Hq. rewrite Hf2, Hf1; [done|apply Hq; lia|]. intros i Hi. rewrite Hg1. apply Hq. lia.
  - rewrite Hn2, Hn1. destruct device; lia.
Qed.
End add_range.

(** [ut_add_untyped_range] enters the pages it is given: each page's entry
    gets its capability and is marked valid; for ordinary memory the entries
    are on the 4K list (last page first) and are counted, for device memory no
    list changes; every other entry is untouched. *)
Theorem ut_add_untyped_range_spec (s : ut_state) (f : lists) (N paddr cap n : Z) (device : bool) :
  ut_refines s f -> 0 <= n -> range_ok N paddr cap s 0 n ->
  (forall i, 0 <= i < n -> ut_unlisted f (range_node paddr s.(table) i)) ->
  exists s', ut_add_untyped_range paddr cap n device s = Ok tt s' /\
    ut_refines s' (if device then f else
      set_list f list_4k (rev (range_node paddr s.(table) <$> zseq 0 (Z.to_nat n)) ++ f list_4k)) /\
    (forall i, 0 <= i < n -> added paddr cap s' i) /\
    (forall q, (forall i, 0 <= i < n -> q <> range_node paddr s.(table) i) ->
       s'.(uts) !! q = s.(uts) !! q) /\
    s'.(table).(n_4k_untyped) = s.(table).(n_4k_untyped) + (if device then 0 else n).
Proof.
  intros R Hn Hr Hu. assert (Z.of_nat (Z.to_nat n) = n) as E by lia.
  destruct (add_untyped_loop N paddr cap device (Z.to_nat n) s f 0) as (s' & H); [by rewrite E| done | by rewrite E |].
  rewrite E in H. exists s'. naive_solver.
Qed.

(** ** Witnesses *)

(** A table of four pages of memory at physical address 0x1000, as [ut_init]
    leaves it. *)
Definition boot_table : ut_state :=
  {| table := mk_ut_table 4096 32768 (replicate 9 0) 0 0; uts := boot_uts 32768 4 |}.

Lemma boot_table_refines : ut_refines boot_table (fun _ => []).
Proof.
  split; [done| |constructor|intros h p _ H; by apply not_elem_of_nil in H|
    intros h1 h2 p _ _ H; by apply not_elem_of_nil in H].
  intros [i|] Hh; [|done]. simpl in Hh. unfold N_UNTYPED_LISTS, seL4_PageBits, seL4_EndpointBits in Hh.
  unfold chain, head_of, boot_table. cbn [table free_untypeds]. by rewrite lookup_replicate_2 by lia.
Qed.

Lemma boot_range_ok : range_ok 4 4096 100 boot_table 0 3.
Proof.
  unfold range_ok, covers. rewrite PAGE_SIZE_4K_eq. unfold SIZEOF_UT. simpl.
  repeat (split; [lia|]). intros i Hi.
  assert (i = 0 \/ i = 1 \/ i = 2) as [->|[->| ->]] by lia;
    apply (bool_decide_unpack _); vm_compute; exact I.
Qed.

Lemma ut_add_untyped_range_witness :
  exists s', ut_add_untyped_range 4096 100 3 false boot_table = Ok tt s' /\
    s'.(table).(n_4k_untyped) = 3 /\ added 4096 100 s' 2.
Proof.
  destruct (ut_add_untyped_range_spec boot_table (fun _ => []) 4 4096 100 3 false)
    as (s' & H1 & _ & H2 & _ & H3).
  - exact boot_table_refines.
  - lia.
  - exact boot_range_ok.
  - intros i Hi h Hh. apply not_elem_of_nil.
  - exists s'. split; [exact H1|]. split; [exact H3 | apply H2; lia].
Defined.

(** The state after those three pages were added: two of them can be popped. *)
Definition three_pages : ut_state :=
  match ut_add_untyped_range 4096 100 3 false boot_table with Ok _ s => s | Stuck _ => boot_table end.
Definition three_lists : lists :=
  set_list (fun _ => []) list_4k [32800; 32784; 32768].

Lemma three_pages_refines : ut_refines three_pages three_lists.
Proof.
  destruct (add_untyped_loop 4 4096 100 false 3 boot_table (fun _ => []) 0 boot_range_ok boot_table_refines)
    as (s' & H & R & _); [intros i Hi h Hh; apply not_elem_of_nil|].
  assert (s' = three_pages) as ->; [|exact R].
  revert H. vm_compute. by intros [= <-].
Qed.

Lemma ut_alloc_4k_refines_witness :
  exists s' a, ut_alloc_4k_untyped three_pages = Ok (32800, a) s' /\
    ut_unlisted (set_list three_lists list_4k [32784; 32768]) 32800.
Proof.
  destruct (ut_alloc_4k_refines three_pages three_lists three_pages_refines)
    as (s' & a & H1 & _ & _ & H2 & _).
  exists s', a. split; [exact H1 | exact H2].
Defined.

Lemma ut_free_refines_witness :
  exists s', ut_free 32816 12 three_pages = Ok tt s' /\
    ut_refines s' (set_list three_lists list_4k [32816; 32800; 32784; 32768]).
Proof.
  destruct (ut_free_refines three_pages three_lists 32816 12 three_pages_refines) as (s' & H1 & H2 & _).
  - intros h Hh. unfold three_lists, set_list. case_decide; [|apply not_elem_of_nil].
    apply (bool_decide_unpack _). vm_compute. exact I.
  - unfold ut_addr. lia.
  - apply (bool_decide_unpack _). vm_compute. exact I.
  - exists s'. split; [exact H1 | exact H2].
Defined.

Lemma paddr_ut_roundtrip_witness :
  exists node, paddr_to_ut 8200 boot_table = Ok node boot_table /\
    ut_to_paddr node boot_table = Ok 8192 boot_table.
Proof.
  destruct (paddr_ut_roundtrip boot_table 4 8200) as (node & H1 & _ & H2).
  - unfold covers. rewrite PAGE_SIZE_4K_eq. unfold SIZEOF_UT. simpl. lia.
  - unfold covered. rewrite PAGE_SIZE_4K_eq. simpl. lia.
  - exists node. split; [exact H1 | exact H2].
Defined.
