(* ===== verification/Sos.v ===== *)
(** * The state of SOS and the code it calls

    One record [sos E] holds the static variables and the heaps of the
    server's components; the operations of the following files are
    computations in [M (sos E)].

    Objects with an address are kept in one finite map per C type, indexed by
    the address; [0] is NULL.  Page frames are seen in two ways: as arrays of
    words, for the structures SOS keeps in them ([words], one map from index to
    word per frame, absent words being zero), and as bytes ([mem]); no code
    looks at one frame in both ways without clearing it in between.

    The kernel (the stubs of its calls are generated), the C library's allocator,
    the devices, libnfs and picotcp are not modelled: they are the parameter
    [ext] of the class [Env].  A call is a name with integer arguments, it yields
    an integer and a new environment.  [trace] records those calls, latest first, so that
    theorems can speak about what SOS asks of the kernel and in which order. *)
From S2P Require Import Prelude Bytes Utils Bitfield Clock UtTable.

(** ** Kernel interface *)

Definition seL4_SlotBits : Z := 5.
Definition seL4_WordBits : Z := 64.
Definition seL4_LargePageBits : Z := 21.
Definition seL4_TCBBits : Z := 11.
Definition seL4_NotificationBits : Z := 5.
Definition seL4_PageTableIndexBits : Z := 9.
Definition seL4_PGDBits : Z := 12.
Definition seL4_MaxUntypedBits : Z := 47.

Definition seL4_CapNull : Z := 0.
Definition seL4_CapInitThreadTCB : Z := 1.
Definition seL4_CapInitThreadCNode : Z := 2.
Definition seL4_CapInitThreadVSpace : Z := 3.
Definition seL4_CapInitThreadASIDPool : Z := 6.
Definition seL4_CapIOPortControl : Z := 7.
Definition seL4_CapIOSpace : Z := 8.

Definition seL4_NoError : Z := 0.
Definition seL4_FailedLookup : Z := 6.
Definition seL4_DeleteFirst : Z := 8.

Definition seL4_UntypedObject : Z := 0.
Definition seL4_TCBObject : Z := 1.
Definition seL4_EndpointObject : Z := 2.
Definition seL4_NotificationObject : Z := 3.
Definition seL4_CapTableObject : Z := 4.
Definition seL4_ARM_HugePageObject : Z := 5.
Definition seL4_ARM_PageUpperDirectoryObject : Z := 6.
Definition seL4_ARM_PageGlobalDirectoryObject : Z := 7.
Definition seL4_ARM_SmallPageObject : Z := 8.
Definition seL4_ARM_LargePageObject : Z := 9.
Definition seL4_ARM_PageTableObject : Z := 10.
Definition seL4_ARM_PageDirectoryObject : Z := 11.

Definition seL4_ARM_Default_VMAttributes : Z := 3.
(** [seL4_CapRights_new(grant, read, write)], one bit each. *)
Definition seL4_CapRights_new (grant read write : bool) : Z :=
  Z.lor (Z.shiftl (zb grant) 2) (Z.lor (Z.shiftl (zb read) 1) (zb write)).
Definition seL4_AllRights : Z := seL4_CapRights_new true true true.

Inductive extop : Type :=
(* kernel *)
| Untyped_Retype | CNode_Copy | CNode_Delete | CNode_Mint | CNode_Move | CNode_Mutate
| CNode_Revoke | CNode_SaveCaller | IRQControl_GetTrigger | IRQHandler_SetNotification
| IRQHandler_Ack | IRQHandler_Clear
| Page_Map | Page_Unmap | Page_GetAddress | PageTable_Map | PageDirectory_Map
| PageUpperDirectory_Map | PageGlobalDirectory_Unify_Instruction | PageGlobalDirectory_Clean_Data
| PageGlobalDirectory_Invalidate_Data | PageGlobalDirectory_CleanInvalidate_Data
| MappingFailedLookupLevel | ASIDPool_Assign | TCB_Configure | TCB_SetPriority
| TCB_WriteRegisters | TCB_Suspend | TCB_BindNotification | TCB_SetSpace
| GetMR | SetMR | Send | Recv | RecvLabel | Call
(* C library; [Uninit] is the indeterminate value of an uninitialised object,
   [ByteAt] and [StrLen] look at data the other side of a call left in memory *)
| Malloc | Dealloc | Uninit | ByteAt | StrLen
(* devices and libraries; [Timestamp] is the generic timer, [Coroutine] a new coroutine *)
| Timestamp | Coroutine
| Network_Irq | Network_Tick | Network_Init | Uart_Init
| Pico_open | Pico_bind | Pico_connect | Pico_sendto | Pico_recvfrom
(* libnfs *)
| Nfs_open | Nfs_pread | Nfs_pwrite | Nfs_close | Nfs_opendir | Nfs_stat64 | Nfs_creat
| Nfs_readdir | Nfs_closedir | Nfs_status | Nfs_data.

#[global] Instance extop_eq_dec : EqDecision extop.
Proof. solve_decision. Defined.

Class Env (E : Type) : Type := ext : extop -> list Z -> E -> Z * E.

(** ** The structures of the components *)

(** [libsel4cspace/include/cspace/cspace.h] *)
Record bot_lvl_t : Type := mk_bot_lvl { bf : list Z; bl_untyped : Z }.

Record bot_lvl_node_t : Type := mk_bot_lvl_node {
  n_cnodes : Z; bn_untyped : Z; bn_frame : Z; cnodes : list bot_lvl_t }.

(** [alloc] is [None] when its function pointers are NULL, and otherwise holds
    the cookie handed to them; [top_bf] and [bot_lvl_nodes] are [None] when
    they are NULL. *)
Record cspace_t : Type := mk_cspace {
  root_cnode : Z;
  two_level : bool;
  top_lvl_size_bits : Z;
  top_bf : option (list Z);
  bot_lvl_nodes : option (list Z);
  n_bot_lvl_nodes : Z;
  cs_untyped : Z;
  bootstrap : Z;
  alloc : option Z;
  watermark : list Z }.

(** [sos/src/bootstrap.c] *)
Record bootstrap_cspace_t : Type := mk_boot { next_free_vaddr : Z; boot_vspace : Z }.

(** [sos/src/vm/frametable.h] and the static variables of [frametable.c] *)
Record frame_table_entry : Type := mk_fte {
  fte_cap : Z;
  fte_user_cap : Z;
  fte_ut : Z;
  fte_next_free_page : Z;
  fte_pid : Z;
  fte_user_vaddr : Z;
  fte_ref_bit : bool;
  fte_important : bool }.

Record frame_table_t : Type := mk_frame_table {
  frame_table : list frame_table_entry;
  top_paddr : Z;
  bot_paddr : Z;
  base_vaddr : Z;
  next_free_page : Z;
  frame_table_size : Z;
  frame_table_pages : Z;
  frame_table_curr_size : Z;
  ft_cspace : Z;
  clock_curr : Z }.

(** [sos/src/vm]: address spaces, the page file, the shared buffers.  The chain
    of a region list is the list of the addresses of its nodes. *)
Record region : Type := mk_region { vbase : Z; vtop : Z; accmode : Z }.

Record addrspace : Type := mk_addrspace {
  regions : list Z; as_stack : Z; as_heap : Z; as_buffer : Z; as_pt : Z }.

Record vm_state : Type := mk_vm {
  region_heap : gmap Z region;
  ases : gmap Z addrspace;
  vm_cspace : Z;                 (* pagetable.c *)
  buf_cspace : Z;                (* shared_buf.c *)
  shared_buf_begin : Z;
  pf_size : Z;                   (* pager.c: pf_list->size *)
  pf_free : list (Z * Z);        (* the nodes of pf_list: address and index *)
  pf_vnode : Z;
  vsyscall_table : Z;            (* elf.c *)
  entry_point : Z }.

(** [sos/src/proc/proc.h].  A string is the list of its bytes. *)
Inductive proc_state : Type := RUNNING | WAITING | ZOMBIE.
#[global] Instance proc_state_eq_dec : EqDecision proc_state.
Proof. solve_decision. Defined.

Record proc : Type := mk_proc {
  p_name : list Z;
  p_pid : Z;
  stime : Z;
  tcb_ut : Z;
  tcb : Z;
  vspace_ut : Z;
  vspace : Z;
  coro_count : Z;
  p_as : Z;
  ipc_buffer_ut : Z;
  ipc_buffer : Z;
  p_cspace : Z;                  (* the address of the embedded cspace_t *)
  stack_ut : Z;
  stack : Z;
  wait_list : list Z;            (* addresses of wait nodes *)
  child_list : list (Z * Z);     (* address of the node and child *)
  fdt : Z;
  wake_co : Z;
  p_state : proc_state;
  protected_proc : bool;
  shared_buf : Z }.

Record wait_node : Type := mk_wait_node { owner : Z; pid_to_wake : Z }.

Record proc_table : Type := mk_proc_table {
  procs : list Z;
  proc_heap : gmap Z proc;
  curr_pid : Z;
  reap_list : list (Z * Z);      (* address of the node and pid *)
  wait_nodes : gmap Z wait_node;
  pr_cspace : Z;
  pr_ep : Z;
  running : Z;                   (* picoro.c: the coroutine that has the CPU *)
  timer_fired : bool }.

(** [sos/src/vfs], [sos/src/fs] and [sos/src/syscall/filetable.h] *)
Inductive vnode_ops : Type := dev_vnode_ops | nfs_vnode_ops.
#[global] Instance vnode_ops_eq_dec : EqDecision vnode_ops.
Proof. solve_decision. Defined.

Record vnode : Type := mk_vnode { vn_refcount : Z; vn_data : Z; vn_ops : option vnode_ops }.

Record vnode_nfs_data : Type := mk_vnode_nfs_data {
  vd_path : option (list Z); dev_list : bool; vd_next : Z; vd_nfsfh : Z }.

Inductive uio_rw_t : Type := UIO_READ | UIO_WRITE.
#[global] Instance uio_rw_eq_dec : EqDecision uio_rw_t.
Proof. solve_decision. Defined.

Record uio : Type := mk_uio { uio_rw : uio_rw_t; u_len : Z; u_offset : Z; u_pid : Z }.

Record sos_stat_t : Type := mk_stat { st_type : Z; st_fmode : Z; st_size : Z; st_ctime : Z; st_atime : Z }.

Record nfs_data : Type := mk_nfs_data {
  d_vn : Z; d_path : option (list Z); d_u : Z; d_stat : option sos_stat_t; d_ret : Z; d_i : Z; d_co : Z }.

Record open_file : Type := mk_open_file { of_vn : Z; of_offset : Z; of_flags : Z; of_refcnt : Z }.

Record fs_state : Type := mk_fs {
  filetables : gmap Z (list Z);
  open_files : gmap Z open_file;
  vnodes : gmap Z vnode;
  nfs_vdata : gmap Z vnode_nfs_data;
  consoles : gmap Z Z;           (* device data: the console's reader *)
  device_list : list (list Z * Z);  (* names and vnodes *)
  vfs_root : Z;
  nfs_datas : gmap Z nfs_data;
  uios : gmap Z uio;
  nfs : Z }.

(** [sos/src/dev/console.c] and [libserial/src/serial.c]: the static [serial]
    object is not NULL once [serial] is not 0. *)
Record console_state : Type := mk_console {
  pico_socket : Z;
  has_handler : bool;
  serial : Z;
  con_curr : Z;
  con_buffer : gmap Z Z;
  nbytes_read : Z;
  reading : bool }.

(** The static variables of [sos/src/sys/morecore.c] *)
Record morecore_state : Type := mk_morecore { morecore_base : Z; morecore_top : Z; mc_cspace : Z }.

(** [sos/src/dma.c] *)
Record dma_t : Type := mk_dma { vstart : Z; pstart : Z; pnext : Z; pend : Z; dma_cap : Z; dma_vspace : Z }.

Record sos (E : Type) : Type := mk_sos {
  env : E;
  trace : list (extop * list Z * Z);
  ut : ut_state;
  cspaces : gmap Z cspace_t;
  nodes : gmap Z bot_lvl_node_t;
  boot : bootstrap_cspace_t;
  device_virt : Z;
  ft : frame_table_t;
  words : gmap Z (gmap Z Z);
  mem : gmap Z Z;
  clk : clock;
  vm : vm_state;
  pcb : proc_table;
  fs : fs_state;
  con : console_state;
  more : morecore_state;
  dma : dma_t }.
Arguments env {E} _.
Arguments trace {E} _.
Arguments ut {E} _.
Arguments cspaces {E} _.
Arguments nodes {E} _.
Arguments boot {E} _.
Arguments device_virt {E} _.
Arguments ft {E} _.
Arguments words {E} _.
Arguments mem {E} _.
Arguments clk {E} _.
Arguments vm {E} _.
Arguments pcb {E} _.
Arguments fs {E} _.
Arguments con {E} _.
Arguments more {E} _.
Arguments dma {E} _.

(** ** Calls out of SOS *)

Definition call {E} `{Env E} (op : extop) (args : list Z) : M (sos E) Z :=
  fun s => let '(r, e) := ext op args s.(env) in
           Ok r {| s with env := e; trace := (op, args, r) :: s.(trace) |}.

(** An operation of the untyped table, run on the server's table. *)
Definition on_ut {E A} (c : M ut_state A) : M (sos E) A :=
  zoom ut (fun t s => {| s with ut := t |}) c.

(** The parts of the state the components work on. *)
Definition vm_get {E} : M (sos E) vm_state := gets vm.
Definition vm_modify {E} (f : vm_state -> vm_state) : M (sos E) unit := modify (fun s => {| s with vm := f s.(vm) |}).
Definition pcb_get {E} : M (sos E) proc_table := gets pcb.
Definition pcb_modify {E} (f : proc_table -> proc_table) : M (sos E) unit :=
  modify (fun s => {| s with pcb := f s.(pcb) |}).
Definition fs_get {E} : M (sos E) fs_state := gets fs.
Definition fs_modify {E} (f : fs_state -> fs_state) : M (sos E) unit := modify (fun s => {| s with fs := f s.(fs) |}).
Definition con_get {E} : M (sos E) console_state := gets con.
Definition con_modify {E} (f : console_state -> console_state) : M (sos E) unit :=
  modify (fun s => {| s with con := f s.(con) |}).
Definition on_clk {E A} (c : M clock A) : M (sos E) A := zoom clk (fun t s => {| s with clk := t |}) c.

(** [malloc] and [free]; the code that does not test for NULL before it writes
    goes through [malloc_used]. *)
Definition malloc {E} `{Env E} (size : Z) : M (sos E) Z := call Malloc [size].
Definition malloc_used {E} `{Env E} (size : Z) : M (sos E) Z :=
  p ← malloc size; access (negb (p =? 0));; mret p.
Definition free {E} `{Env E} (p : Z) : M (sos E) unit := _ ← call Dealloc [p]; mret tt.

(** ** Bytes *)

Definition mem_read {E} (a n : Z) : M (sos E) (list Z) := s ← get; mret (bytes_at s.(mem) a (Z.to_nat n)).
Definition mem_write {E} (a : Z) (l : list Z) : M (sos E) unit :=
  modify (fun s => {| s with mem := store_bytes s.(mem) a l |}).

(** Bytes and strings behind a pointer that came from outside. *)
Definition ext_bytes {E} `{Env E} (p : Z) (n : nat) : M (sos E) (list Z) :=
  foldr (fun i k => b ← call ByteAt [p; i]; l ← k; mret (u8 b :: l)) (mret []) (zseq 0 n).
Definition ext_str {E} `{Env E} (p : Z) : M (sos E) (list Z) :=
  n ← call StrLen [p]; ext_bytes p (Z.to_nat n).

(** ** Facts shared by the components *)

Section calls.
Context {E : Type} `{Env E}.

(** The state of SOS proper: everything but the environment and the record of
    the calls made to it. *)
Definition same_sos (s s' : sos E) : Prop :=
  exists e t, s' = {| s with env := e; trace := t |}.

Lemma same_sos_refl s : same_sos s s.
Proof. exists s.(env), s.(trace). by destruct s. Qed.

Lemma same_sos_trans s1 s2 s3 : same_sos s1 s2 -> same_sos s2 s3 -> same_sos s1 s3.
Proof. intros (e1 & t1 & ->) (e2 & t2 & ->). by exists e2, t2. Qed.

Lemma call_run op args (s : sos E) :
  exists r s', call op args s = Ok r s' /\ same_sos s s' /\
    ext op args s.(env) = (r, s'.(env)) /\ s'.(trace) = (op, args, r) :: s.(trace).
Proof.
  unfold call. destruct (ext op args s.(env)) as [r e] eqn:Ee. eexists _, _. split; [done|].
  simpl. split; [by eexists _, _|]. done.
Qed.

Lemma call_inv op args (s : sos E) r s' :
  call op args s = Ok r s' ->
  same_sos s s' /\ ext op args s.(env) = (r, s'.(env)) /\ s'.(trace) = (op, args, r) :: s.(trace).
Proof.
  intros Hc. destruct (call_run op args s) as (r0 & s0 & Hc' & Hs). rewrite Hc' in Hc.
  by injection Hc as -> ->.
Qed.

Lemma on_ut_Ok {A} (c : M ut_state A) (s : sos E) a s' :
  on_ut c s = Ok a s' <-> exists t, c s.(ut) = Ok a t /\ s' = {| s with ut := t |}.
Proof.
  unfold on_ut, zoom. destruct (c s.(ut)) as [a0 t|]; split; naive_solver.
Qed.

Lemma on_ut_run {A} (c : M ut_state A) (s : sos E) a t :
  c s.(ut) = Ok a t -> on_ut (E:=E) c s = Ok a {| s with ut := t |}.
Proof. unfold on_ut, zoom. by intros ->. Qed.
End calls.
