(* ===== verification/Cspace.v ===== *)
(** * libsel4cspace: capability space management

    [libsel4cspace/src/cspace.c] and the wrappers of [cspace.h].  A cspace
    lives at an address of the [cspaces] heap and its second-level book-keeping
    nodes at addresses of [nodes].

    The functions a two-level cspace is given to allocate its own resources
    ([cspace_alloc_t]) are the class [CspaceAlloc]; [Mapping] provides the
    instance SOS uses.  [cspace_alloc_slot] calls itself through
    [refill_watermark]; the model gives it fuel, and two is enough (see
    [alloc_slot_fuel]). *)
From S2P Require Import Prelude Utils Bitfield UtTable Bytes Sos.

Definition MAPPING_SLOTS : Z := 3.
Definition WATERMARK_SLOTS : Z := MAPPING_SLOTS + 1.
Definition CNODE_SIZE_BITS : Z := 12.
Definition CNODE_SLOT_BITS (x : Z) : Z := x - seL4_SlotBits.
Definition CNODE_SLOTS (x : Z) : Z := BIT (CNODE_SLOT_BITS x).
Definition BITFIELD_SIZE (x : Z) : Z := CNODE_SLOTS x / seL4_WordBits.
Definition SIZEOF_BOT_LVL : Z := 24.
Definition BOT_LVL_PER_NODE : Z := (PAGE_SIZE_4K - 8 * 3) / SIZEOF_BOT_LVL.
Definition BOT_LVL_NODES (x : Z) : Z := BYTES_TO_4K_PAGES (SIZEOF_BOT_LVL * CNODE_SLOTS x).
Definition NODE_INDEX (cptr : Z) : Z := cptr / CNODE_SLOTS CNODE_SIZE_BITS / BOT_LVL_PER_NODE.
Definition CNODE_INDEX (cptr : Z) : Z := cptr / CNODE_SLOTS CNODE_SIZE_BITS mod BOT_LVL_PER_NODE.
Definition TOP_LVL_INDEX (cptr : Z) : Z := Z.shiftr cptr (CNODE_SLOT_BITS CNODE_SIZE_BITS).
Definition BOT_LVL_INDEX (cptr : Z) : Z := Z.land cptr (MASK (CNODE_SLOT_BITS CNODE_SIZE_BITS)).

Definition CSPACE_NOERROR : Z := 0.
Definition CSPACE_ERROR : Z := -1.

(** [memset(node, 0, ...)]: a zeroed book-keeping node. *)
Definition zero_bot_lvl : bot_lvl_t :=
  mk_bot_lvl (replicate (Z.to_nat (BITFIELD_SIZE CNODE_SIZE_BITS)) 0) 0.
Definition zero_node : bot_lvl_node_t :=
  mk_bot_lvl_node 0 0 0 (replicate (Z.to_nat BOT_LVL_PER_NODE) zero_bot_lvl).

(** [a[i]] of an array held as a list. *)
Definition index {S A} (l : list A) (i : Z) : M S A := access (0 <=? i);; deref (l !! Z.to_nat i).

(** What [cspace_alloc_t] asks of its three functions; each gets the cookie.
    [ca_map_frame] returns the address and the new value of [*used]. *)
Class CspaceAlloc (E : Type) : Type := {
  ca_map_frame : Z -> Z -> list Z -> Z -> M (sos E) (Z * Z);
  ca_alloc_4k_ut : Z -> M (sos E) (Z * Z);
  ca_free_4k_ut : Z -> Z -> M (sos E) unit }.

Section cspace.
Context {E : Type} `{!Env E}.

Definition cspace_get (c : Z) : M (sos E) cspace_t := s ← get; deref (s.(cspaces) !! c).
Definition cspace_put (c : Z) (x : cspace_t) : M (sos E) unit :=
  _ ← cspace_get c; modify (fun s => {| s with cspaces := <[c := x]> s.(cspaces) |}).
Definition node_get (p : Z) : M (sos E) bot_lvl_node_t := s ← get; deref (s.(nodes) !! p).
Definition node_put (p : Z) (x : bot_lvl_node_t) : M (sos E) unit :=
  _ ← node_get p; modify (fun s => {| s with nodes := <[p := x]> s.(nodes) |}).

(** [cspace->bot_lvl_nodes[i]] *)
Definition bot_lvl_node_ptr (c i : Z) : M (sos E) Z :=
  cs ← cspace_get c; l ← deref cs.(bot_lvl_nodes); index l i.
Definition set_bot_lvl_node (c i p : Z) : M (sos E) unit :=
  cs ← cspace_get c; l ← deref cs.(bot_lvl_nodes); _ ← index (S:=sos E) l i;
  cspace_put c {| cs with bot_lvl_nodes := Some (<[Z.to_nat i := p]> l) |}.

(** Run a bit-field operation on [cspace->top_bf] or on [bot_lvl->bf]. *)
Definition on_bf {A} (op : M (list Z) A) (l : list Z) : M (sos E) (A * list Z) :=
  match op l with Ok a l' => mret (a, l') | Stuck e => stuck e end.
Definition on_top_bf {A} (c : Z) (op : M (list Z) A) : M (sos E) A :=
  cs ← cspace_get c; l ← deref cs.(top_bf); r ← on_bf op l;
  cspace_put c {| cs with top_bf := Some r.2 |};; mret r.1.
Definition on_bot_bf {A} (p cnode : Z) (op : M (list Z) A) : M (sos E) A :=
  n ← node_get p; b ← index n.(cnodes) cnode; r ← on_bf op b.(bf);
  node_put p {| n with cnodes := <[Z.to_nat cnode := {| b with bf := r.2 |}]> n.(cnodes) |};;
  mret r.1.

(** The wrappers of [cspace.h]. *)
Definition cspace_copy (dest dest_cptr src src_cptr rights : Z) : M (sos E) Z :=
  d ← cspace_get dest; c ← cspace_get src;
  call CNode_Copy [d.(root_cnode); dest_cptr; seL4_WordBits; c.(root_cnode); src_cptr; seL4_WordBits; rights].
Definition cspace_delete (c cptr : Z) : M (sos E) Z :=
  x ← cspace_get c; call CNode_Delete [x.(root_cnode); cptr; seL4_WordBits].
Definition cspace_mint (dest dest_cptr src src_cptr rights badge : Z) : M (sos E) Z :=
  d ← cspace_get dest; c ← cspace_get src;
  call CNode_Mint [d.(root_cnode); dest_cptr; seL4_WordBits; c.(root_cnode); src_cptr; seL4_WordBits; rights; badge].
Definition cspace_move (dest dest_cptr src src_cptr : Z) : M (sos E) Z :=
  d ← cspace_get dest; c ← cspace_get src;
  call CNode_Move [d.(root_cnode); dest_cptr; seL4_WordBits; c.(root_cnode); src_cptr; seL4_WordBits].
Definition cspace_mutate (dest dest_cptr src src_cap badge : Z) : M (sos E) Z :=
  d ← cspace_get dest; c ← cspace_get src;
  call CNode_Mutate [d.(root_cnode); dest_cptr; seL4_WordBits; c.(root_cnode); src_cap; seL4_WordBits; badge].
Definition cspace_revoke (c cptr : Z) : M (sos E) Z :=
  x ← cspace_get c; call CNode_Revoke [x.(root_cnode); cptr; seL4_WordBits].
Definition cspace_save_reply_cap (c cptr : Z) : M (sos E) Z :=
  x ← cspace_get c; call CNode_SaveCaller [x.(root_cnode); cptr; seL4_WordBits].
Definition cspace_irq_control_get (dest cptr irq_cap irq level : Z) : M (sos E) Z :=
  x ← cspace_get dest; call IRQControl_GetTrigger [irq_cap; irq; level; x.(root_cnode); cptr; seL4_WordBits].

Definition cspace_untyped_retype (c ut0 target type size_bits : Z) : M (sos E) Z :=
  x ← cspace_get c;
  if x.(two_level) then
    let cnode := Z.shiftr target (CNODE_SLOT_BITS CNODE_SIZE_BITS) in
    call Untyped_Retype [ut0; type; size_bits; x.(root_cnode); cnode;
      seL4_WordBits - CNODE_SLOT_BITS CNODE_SIZE_BITS; target mod CNODE_SLOTS CNODE_SIZE_BITS; 1]
  else call Untyped_Retype [ut0; type; size_bits; x.(root_cnode); 0; 0; target; 1].

Definition cspace_free_slot (c cptr : Z) : M (sos E) unit :=
  if cptr =? seL4_CapNull then mret tt
  else
    x ← cspace_get c;
    if negb x.(two_level) then
      if CNODE_SLOTS x.(top_lvl_size_bits) <? cptr then mret tt
      else on_top_bf c (bf_clr_bit cptr)
    else
      (* a cptr past the cspace is only logged *)
      on_top_bf c (bf_clr_bit (TOP_LVL_INDEX cptr));;
      x ← cspace_get c;
      if NODE_INDEX cptr <? x.(n_bot_lvl_nodes) then
        p ← bot_lvl_node_ptr c (NODE_INDEX cptr);
        n ← node_get p;
        if CNODE_INDEX cptr <? n.(n_cnodes)
        then on_bot_bf p (CNODE_INDEX cptr) (bf_clr_bit (BOT_LVL_INDEX cptr))
        else mret tt
      else mret tt.

Context `{!CspaceAlloc E}.

(** The three helpers check the function pointers and call them. *)
Definition alloc_4k_untyped (c : Z) : M (sos E) (Z * Z) :=
  x ← cspace_get c; assert (bool_decide (is_Some x.(alloc)));;
  cookie ← deref x.(alloc); ca_alloc_4k_ut cookie.
Definition free_4k_untyped (c untyped : Z) : M (sos E) unit :=
  x ← cspace_get c; assert (bool_decide (is_Some x.(alloc)));;
  cookie ← deref x.(alloc); ca_free_4k_ut cookie untyped.
Definition cs_map_frame (c frame : Z) (free_slots : list Z) (used : Z) : M (sos E) (Z * Z) :=
  x ← cspace_get c; assert (bool_decide (is_Some x.(alloc)));;
  cookie ← deref x.(alloc); ca_map_frame cookie frame free_slots used.

Definition retype_helper (c type cptr : Z) : M (sos E) Z :=
  r ← alloc_4k_untyped c;
  let '(untyped, ut_cptr) := r in
  if untyped =? 0 then mret 0
  else
    let size := if type =? seL4_CapTableObject then CNODE_SLOT_BITS seL4_PageBits else seL4_PageBits in
    err ← cspace_untyped_retype c ut_cptr cptr type size;
    if negb (err =? seL4_NoError) then free_4k_untyped c untyped;; mret 0
    else mret untyped.

(** The loop stops at the first bit of [*used] that is set ([break]). *)
Definition first_used (used : Z) : option Z :=
  list.head (filter (fun i => nz (Z.land used (BIT i)) = true) (zseq 0 (Z.to_nat WATERMARK_SLOTS))).

Definition refill_watermark (alloc_slot : Z -> M (sos E) Z) (c used : Z) : M (sos E) unit :=
  match first_used used with
  | None => mret tt
  | Some i =>
      slot ← alloc_slot c;
      x ← cspace_get c;
      cspace_put c {| x with watermark := <[Z.to_nat i := slot]> x.(watermark) |}
  end.

Definition init_bot_lvl_node (c node untyped frame : Z) : M (sos E) unit :=
  p ← bot_lvl_node_ptr c node;
  access (negb (p =? 0));;
  modify (fun s => {| s with nodes := <[p := zero_node]> s.(nodes) |});;
  x ← cspace_get c;
  cspace_put c {| x with n_bot_lvl_nodes := x.(n_bot_lvl_nodes) + 1 |};;
  n ← node_get p;
  node_put p {| n with n_cnodes := 0; bn_untyped := untyped; bn_frame := frame |}.

(** The book-keeping frame of [ensure_levels]; false when it failed, and the
    new value of [*used]. *)
Definition ensure_node (c node used : Z) : M (sos E) (bool * Z) :=
  x ← cspace_get c;
  frame ← index x.(watermark) MAPPING_SLOTS;
  let used := Z.lor used (BIT MAPPING_SLOTS) in
  untyped ← retype_helper c seL4_ARM_SmallPageObject frame;
  if untyped =? 0 then mret (false, used)
  else
    x ← cspace_get c;
    r ← cs_map_frame c frame x.(watermark) used;
    let '(p, used) := r in
    set_bot_lvl_node c node p;;
    if p =? 0 then
      _ ← cspace_delete c frame;
      free_4k_untyped c untyped;;
      mret (false, Z.land used (u64 (Z.lnot (BIT MAPPING_SLOTS))))
    else
      init_bot_lvl_node c node untyped frame;;
      mret (true, used).

(** The second-level cnode of [ensure_levels]. *)
Definition ensure_cnode (c cptr node : Z) : M (sos E) bool :=
  p ← bot_lvl_node_ptr c node;
  assert (negb (p =? 0));;
  let cnode := CNODE_INDEX cptr in
  n ← node_get p;
  if n.(n_cnodes) <=? cnode then
    r ← alloc_4k_untyped c;
    let '(untyped, ut_cptr) := r in
    n ← node_get p;
    b ← index n.(cnodes) cnode;
    node_put p {| n with cnodes := <[Z.to_nat cnode := {| b with bl_untyped := untyped |}]> n.(cnodes) |};;
    if untyped =? 0 then mret false
    else
      x ← cspace_get c;
      err ← call Untyped_Retype [ut_cptr; seL4_CapTableObject; CNODE_SLOT_BITS CNODE_SIZE_BITS;
                                 x.(root_cnode); 0; 0; TOP_LVL_INDEX cptr; 1];
      if nz err then free_4k_untyped c untyped;; mret false
      else
        n ← node_get p;
        node_put p {| n with n_cnodes := n.(n_cnodes) + 1 |};;
        mret true
  else mret true.

Definition ensure_levels (c cptr used : Z) : M (sos E) (bool * Z) :=
  x ← cspace_get c;
  if negb x.(two_level) then mret (true, used)
  else
    let node := NODE_INDEX cptr in
    let cspace_size := BIT (CNODE_SLOT_BITS x.(top_lvl_size_bits) + CNODE_SLOT_BITS CNODE_SIZE_BITS) in
    if DIV_ROUND_UP cspace_size BOT_LVL_PER_NODE <=? node then mret (false, used)
    else
      r ← (if x.(n_bot_lvl_nodes) <=? node then ensure_node c node used else mret (true, used));
      let '(ok, used) := r in
      if negb ok then mret (false, used)
      else b ← ensure_cnode c cptr node; mret (b, used).

(** The bottom level of [cspace_alloc_slot]: take the first free slot of the
    cnode, and mark the cnode full in the top level when none is left. *)
Definition take_bot_slot (c cptr top_index : Z) : M (sos E) Z :=
  p ← bot_lvl_node_ptr c (NODE_INDEX cptr);
  bot_index ← on_bot_bf p (CNODE_INDEX cptr) (bf_first_free (BITFIELD_SIZE CNODE_SIZE_BITS));
  on_bot_bf p (CNODE_INDEX cptr) (bf_set_bit bot_index);;
  next ← on_bot_bf p (CNODE_INDEX cptr) (bf_first_free (BITFIELD_SIZE CNODE_SIZE_BITS));
  when (CNODE_SLOTS CNODE_SIZE_BITS - 1 <=? next) (on_top_bf c (bf_set_bit top_index));;
  mret (cptr + bot_index).

(** Is the second-level cnode of [cptr] there already? *)
Definition levels_missing (c cptr : Z) : M (sos E) bool :=
  x ← cspace_get c;
  if x.(n_bot_lvl_nodes) <=? NODE_INDEX cptr then mret true
  else p ← bot_lvl_node_ptr c (NODE_INDEX cptr);
       n ← node_get p;
       mret (n.(n_cnodes) <=? CNODE_INDEX cptr).

Fixpoint alloc_slot (fuel : nat) (c : Z) : M (sos E) Z :=
  match fuel with
  | O => stuck NoFuel
  | S fuel' =>
      assert (negb (c =? 0));;
      x ← cspace_get c;
      top_index ← on_top_bf c (bf_first_free (BITFIELD_SIZE x.(top_lvl_size_bits)));
      if (x.(two_level) && (CNODE_SLOTS x.(top_lvl_size_bits) <? top_index))
         || (CNODE_SLOTS x.(top_lvl_size_bits) <=? top_index)
      then mret seL4_CapNull
      else if x.(two_level) then
        let cptr := u64 (Z.shiftl top_index (CNODE_SLOT_BITS CNODE_SIZE_BITS)) in
        missing ← levels_missing c cptr;
        r ← (if (missing : bool) then ensure_levels c cptr 0 else mret (true, 0));
        let '(ok, used) := r in
        if negb ok then mret seL4_CapNull
        else
          slot ← take_bot_slot c cptr top_index;
          refill_watermark (alloc_slot fuel') c used;;
          mret slot
      else
        on_top_bf c (bf_set_bit top_index);;
        mret top_index
  end.

Definition cspace_alloc_slot (c : Z) : M (sos E) Z := alloc_slot 2 c.

(** ** Creation and destruction *)

(** [seL4_CNode_CapData_new(guard, size).words[0]]: 58 bits of guard above 6
    bits of guard size. *)
Definition seL4_CNode_CapData_new (guard size : Z) : Z :=
  Z.lor (u64 (Z.shiftl guard 6)) (Z.land size 63).

(** One book-keeping node of [cspace_destroy]: the untypeds of its cnodes, its
    own untyped, its frame.  Returns the new value of [last]. *)
Definition destroy_node (c : Z) (last i : Z) : M (sos E) Z :=
  p ← bot_lvl_node_ptr c i;
  n ← node_get p;
  for_each (zseq 0 (Z.to_nat n.(n_cnodes)))
    (fun j => n ← node_get p; b ← index n.(cnodes) j; free_4k_untyped c b.(bl_untyped));;
  n ← node_get p;
  free_4k_untyped c n.(bn_untyped);;
  _ ← cspace_delete c n.(bn_frame);
  mret (if 0 <? n.(n_cnodes) then u64 (i * BOT_LVL_PER_NODE + (n.(n_cnodes) - 1)) else last).

Fixpoint destroy_nodes (c last : Z) (l : list Z) : M (sos E) Z :=
  match l with
  | [] => mret last
  | i :: l' => last' ← destroy_node c last i; destroy_nodes c last' l'
  end.

Definition cspace_destroy (c : Z) : M (sos E) unit :=
  x ← cspace_get c;
  assert (negb (x.(bootstrap) =? 0));;
  last ← destroy_nodes c 0 (zseq 0 (Z.to_nat x.(n_bot_lvl_nodes)));
  when x.(two_level) (for_each (zseq 0 (Z.to_nat (last + 1)))
    (fun i => _ ← call CNode_Delete [x.(root_cnode); i; seL4_WordBits - (CNODE_SIZE_BITS - seL4_SlotBits)];
              mret tt));;
  when (negb (x.(root_cnode) =? seL4_CapNull))
    (_ ← cspace_delete x.(bootstrap) x.(root_cnode);
     cspace_free_slot x.(bootstrap) x.(root_cnode));;
  when (negb (x.(cs_untyped) =? 0)) (free_4k_untyped x.(bootstrap) x.(cs_untyped));;
  x ← cspace_get c;
  cspace_put c {| x with bot_lvl_nodes := None; top_bf := None |}.

(** [calloc]: whether the allocation succeeded. *)
Definition calloc (size : Z) : M (sos E) bool := p ← call Malloc [size]; mret (negb (p =? 0)).

Definition set_target (c : Z) (f : cspace_t -> cspace_t) : M (sos E) unit :=
  x ← cspace_get c; cspace_put c (f x).

(** The top level: bit fields, root cnode and its guarded cap; the error, if
    any, has already destroyed the target. *)
Definition create_top_level (c target : Z) (two_level0 : bool) (alloc0 : option Z) : M (sos E) bool :=
  modify (fun s => {| s with cspaces := <[target :=
    mk_cspace 0 two_level0 CNODE_SIZE_BITS None None 0 0 c alloc0
      (replicate (Z.to_nat WATERMARK_SLOTS) 0)]> s.(cspaces) |});;
  ok ← calloc (8 * BITFIELD_SIZE CNODE_SIZE_BITS);
  if negb ok then mret false
  else
    set_target target (fun x => {| x with top_bf :=
      Some (replicate (Z.to_nat (BITFIELD_SIZE CNODE_SIZE_BITS)) 0) |});;
    ok ← (if two_level0 then calloc (BOT_LVL_NODES CNODE_SIZE_BITS * PAGE_SIZE_4K) else mret true);
    if negb ok then cspace_destroy target;; mret false
    else
      when two_level0 (set_target target (fun x => {| x with bot_lvl_nodes :=
        Some (replicate (Z.to_nat (BOT_LVL_NODES CNODE_SIZE_BITS * PAGE_SIZE_4K / 8)) 0) |}));;
      tmp ← cspace_alloc_slot c;
      if tmp =? seL4_CapNull then cspace_destroy target;; mret false
      else
        untyped ← retype_helper c seL4_CapTableObject tmp;
        set_target target (fun x => {| x with cs_untyped := untyped |});;
        if untyped =? 0 then cspace_destroy target;; mret false
        else
          let depth := seL4_WordBits - CNODE_SLOT_BITS CNODE_SIZE_BITS * (if two_level0 then 2 else 1) in
          let guard := seL4_CNode_CapData_new 0 depth in
          root ← cspace_alloc_slot c;
          set_target target (fun x => {| x with root_cnode := root |});;
          x ← cspace_get c;
          (* the code tests the root cnode of the bootstrap cspace here *)
          if x.(root_cnode) =? seL4_CapNull
          then cspace_free_slot c tmp;; cspace_destroy target;; mret false
          else
            err ← cspace_mint c root c tmp seL4_AllRights guard;
            if nz err then cspace_destroy target;; mret false
            else
              _ ← cspace_delete c tmp;
              cspace_free_slot c tmp;;
              mret true.

(** The first book-keeping node of a two-level cspace: its slot, or [None]
    after the target was destroyed. *)
Definition create_first_node (c target : Z) : M (sos E) (option Z) :=
  slot ← cspace_alloc_slot c;
  if slot =? seL4_CapNull then cspace_destroy target;; mret None
  else
    untyped ← retype_helper c seL4_ARM_SmallPageObject slot;
    when (negb (untyped =? 0))
      (x ← cspace_get c;
       r ← cs_map_frame c slot x.(watermark) 0;
       set_bot_lvl_node target 0 r.1;;
       refill_watermark cspace_alloc_slot c r.2);;
    p ← bot_lvl_node_ptr target 0;
    if (p =? 0) || (untyped =? 0) then
      cspace_destroy target;;
      _ ← cspace_delete c slot;
      cspace_free_slot c slot;;
      mret None
    else init_bot_lvl_node target 0 untyped slot;; mret (Some slot).

(** The first slot is taken so that [seL4_CapNull] is never handed out; a
    two-level cspace then fills its watermark and takes over its first node. *)
Definition create_finish (c target : Z) (node : option Z) : M (sos E) Z :=
  null ← cspace_alloc_slot target;
  assert (null =? seL4_CapNull);;
  match node with
  | None => mret CSPACE_NOERROR
  | Some bot_lvl_node =>
      refill_watermark cspace_alloc_slot target (MASK WATERMARK_SLOTS);;
      slot ← cspace_alloc_slot target;
      assert (negb (slot =? seL4_CapNull));;
      err ← cspace_move target slot c bot_lvl_node;
      assert (err =? seL4_NoError);;
      p ← bot_lvl_node_ptr target 0;
      n ← node_get p;
      node_put p {| n with bn_frame := slot |};;
      cspace_free_slot c bot_lvl_node;;
      mret CSPACE_NOERROR
  end.

Definition cspace_create (c target : Z) (two_level0 : bool) (alloc0 : option Z) : M (sos E) Z :=
  ok ← create_top_level c target two_level0 alloc0;
  if negb ok then mret CSPACE_ERROR
  else if two_level0 then
    node ← create_first_node c target;
    match node with
    | None => mret CSPACE_ERROR
    | Some slot => create_finish c target (Some slot)
    end
  else create_finish c target None.

Definition cspace_create_two_level (bootstrap0 target : Z) (alloc0 : option Z) : M (sos E) Z :=
  cspace_create bootstrap0 target true alloc0.
Definition cspace_create_one_level (bootstrap0 target : Z) : M (sos E) Z :=
  cspace_create bootstrap0 target false None.
End cspace.
