(* ===== verification/Sample.v ===== *)
(** * A small concrete machine

    The theorems of the development hold for every kernel, C library and file
    server.  This file has one that can be run: the heap hands out fresh
    addresses, every kernel call succeeds, the network takes three bytes at a
    time.
    The witnesses of the theorems with hypotheses are about it. *)
From S2P Require Import Prelude Utils Bitfield Pqueue Clock UtTable Bytes Sos Cspace.

(** The environment: the next address of the heap. *)
Record toy : Type := mk_toy { heap_next : Z }.

#[global] Instance toy_env : Env toy := fun op args e =>
  match op, args with
  | Malloc, _ => let p := Z.max 4096 e.(heap_next) in (p, mk_toy (p + 4096))
  | GetMR, [0] => (12, e)
  | GetMR, [1] => (5000, e)
  | Pico_sendto, [_; _; len] => (Z.max 0 (Z.min len 3), e)
  | _, _ => (0, e)
  end.

(** Allocation functions of a cspace that has all its levels. *)
Definition toy_alloc : CspaceAlloc toy := {|
  ca_map_frame _ _ _ u := mret (0, u);
  ca_alloc_4k_ut _ := mret (0, 0);
  ca_free_4k_ut _ _ := mret tt |}.

Definition no_ut : ut_state :=
  mk_ut_state (mk_ut_table 0 0 (replicate (Z.to_nat N_UNTYPED_LISTS) 0) 0 0) ∅.
Definition no_ft : frame_table_t := mk_frame_table [] 0 0 0 0 0 0 0 0 0.
Definition no_clock : clock := mk_clock 0 0 0 false 0 None 0 0.
Definition no_vm : vm_state := mk_vm ∅ ∅ 0 0 0 0 [] 0 0 0.
Definition no_procs : proc_table := mk_proc_table (replicate 32 0) ∅ 0 [] ∅ 0 0 0 false.
Definition no_fs : fs_state := mk_fs ∅ ∅ ∅ ∅ ∅ [] 0 ∅ ∅ 0.
Definition no_console : console_state := mk_console 0 false 0 0 ∅ 0 false.

(** SOS with nothing in it. *)
Definition idle : sos toy :=
  mk_sos toy (mk_toy 65536) [] no_ut ∅ ∅ (mk_boot 1048576 3) 0 no_ft ∅ ∅ no_clock no_vm no_procs no_fs no_console
    (mk_morecore 1048576 2097152 0) (mk_dma (2 ^ 31) (2 ^ 25) (2 ^ 25) (2 ^ 25 + 2 ^ 21) 0 3).

(** A one-level cspace with its first two slots in use, and a two-level one
    with one cnode in which the null slot and the one after it are taken. *)
Definition small_cspace : cspace_t :=
  mk_cspace 2 false 12 (Some [3; 0]) None 0 0 0 None [0; 0; 0; 0].
Definition small_node : bot_lvl_node_t :=
  mk_bot_lvl_node 1 0 0 (mk_bot_lvl [3; 0] 0 :: replicate 168 (mk_bot_lvl [0; 0] 0)).
Definition deep_cspace : cspace_t :=
  mk_cspace 2 true 12 (Some [0; 0]) (Some [4096; 0]) 1 0 0 (Some 0) [0; 0; 0; 0].
Definition with_cspaces : sos toy :=
  {| idle with cspaces := {[100 := deep_cspace; 200 := small_cspace]}; nodes := {[4096 := small_node]} |}.

(** Twelve untyped pages, as [ut_add_untyped_range] leaves them. *)
Definition many_pages : ut_state :=
  match ut_add_untyped_range 4096 300 12 false
          {| table := mk_ut_table 4096 32768 (replicate 9 0) 0 0; uts := boot_uts 32768 16 |} with
  | Ok _ s => s
  | Stuck _ => no_ut
  end.

(** A frame table of eight pages at 2^40: page 0 belongs to process 1, the
    others are free. *)
Definition free_page (next : Z) : frame_table_entry := mk_fte 0 0 0 next (-1) 0 false false.
Definition sample_frames : frame_table_t :=
  mk_frame_table (mk_fte 7 9 33008 0 1 8192 true false :: (free_page <$> [2; 3; 4; 5; 6; 7; 0]))
    0 0 (2 ^ 40) 1 8 1 1 100 0.
Definition framed : sos toy := {| with_cspaces with ut := many_pages; ft := sample_frames |}.

(** The same machine with an empty page table in two frames of its own. *)
Definition paged : sos toy := {| framed with words := {[2 ^ 39 := {[0 := 2 ^ 38]}; 2 ^ 38 := ∅]} |}.

(** An address space with three regions, at 500; the shared buffers are at
    2^41, the pages of the page file below 3 are in use and the next two free. *)
Definition sample_regions : list region :=
  [mk_region 4096 8191 6; mk_region 16384 20480 4; mk_region 32768 36863 6].
Definition sample_vm : vm_state :=
  mk_vm {[1000 := mk_region 4096 8191 6; 1001 := mk_region 16384 20480 4; 1002 := mk_region 32768 36863 6]}
    {[500 := mk_addrspace [1000; 1001; 1002] 1000 1001 1002 (2 ^ 39)]} 100 100 (2 ^ 41) 5 [(2000, 3); (2001, 4)] 0 0 0.
Definition spaced : sos toy := {| paged with vm := sample_vm |}.

(** Process 1, in the state given, with the address space at 500 and a file
    table at 800 whose first descriptors are taken; a device vnode at 600. *)
Definition sample_proc (st : proc_state) : proc :=
  mk_proc [105] 1 0 0 11 0 12 0 500 0 13 150 0 14 [] [] 800 0 st false 0.
Definition sample_procs (st : proc_state) : proc_table :=
  mk_proc_table ([0; 9000] ++ replicate 30 0) {[9000 := sample_proc st]} 2 [] ∅ 100 20 0 false.
Definition sample_fs : fs_state :=
  mk_fs {[800 := [3000; 3001; 0; 0]]}
    {[3000 := mk_open_file 600 0 1 1; 3001 := mk_open_file 600 0 1 1]}
    {[600 := mk_vnode 1 700 (Some dev_vnode_ops)]} ∅ {[700 := 0]} [([99], 600)] 0 ∅
    {[77 := mk_uio UIO_WRITE 10 0 1]} 0.
Definition peopled (st : proc_state) : sos toy := {| spaced with pcb := sample_procs st; fs := sample_fs |}.
