(* ===== verification/CspaceSpec.v ===== *)
(** * libsel4cspace: what the slot allocator guarantees

    The abstract view of a cspace is the set of its used slots; [cs_inv] is the
    invariant of a two-level cspace that [cspace_alloc_slot] and
    [cspace_free_slot] keep.  The theorems: a slot is handed out only if it was
    free, exactly that slot becomes used, freeing it makes it free again and
    touches no other slot, the recursion through the watermark is at most one
    level deep, and the null slot is never handed out. *)
From S2P Require Import Prelude Utils Bitfield UtTable Bytes Sos Cspace Sample.

Section runs.
Context {E : Type} `{!Env E}.
Implicit Types s : sos E.

Definition set_cs (s : sos E) (c : Z) (x : cspace_t) : sos E :=
  {| s with cspaces := <[c := x]> s.(cspaces) |}.
Definition set_node (s : sos E) (p : Z) (n : bot_lvl_node_t) : sos E :=
  {| s with nodes := <[p := n]> s.(nodes) |}.

Definition with_top (x : cspace_t) (l : list Z) : cspace_t := {| x with top_bf := Some l |}.

Lemma set_cs_id s c x : s.(cspaces) !! c = Some x -> set_cs s c x = s.
Proof. intros Hx. destruct s. unfold set_cs. simpl in *. by rewrite insert_id. Qed.

Lemma set_node_id s p n : s.(nodes) !! p = Some n -> set_node s p n = s.
Proof. intros Hx. destruct s. unfold set_node. simpl in *. by rewrite insert_id. Qed.

Lemma cspace_get_run s c x : s.(cspaces) !! c = Some x -> cspace_get c s = Ok x s.
Proof. intros Hx. unfold cspace_get, mbind, M_bind, get, deref. by rewrite Hx. Qed.

Lemma node_get_run s p n : s.(nodes) !! p = Some n -> node_get p s = Ok n s.
Proof. intros Hx. unfold node_get, mbind, M_bind, get, deref. by rewrite Hx. Qed.

Lemma cspace_put_run s c x y : s.(cspaces) !! c = Some x -> cspace_put c y s = Ok tt (set_cs s c y).
Proof. intros Hx. unfold cspace_put. by rewrite (bind_run _ _ _ _ _ (cspace_get_run _ _ _ Hx)). Qed.

Lemma node_put_run s p n m : s.(nodes) !! p = Some n -> node_put p m s = Ok tt (set_node s p m).
Proof. intros Hx. unfold node_put. by rewrite (bind_run _ _ _ _ _ (node_get_run _ _ _ Hx)). Qed.

Lemma index_run {S A} (l : list A) i a (s : S) :
  0 <= i -> l !! Z.to_nat i = Some a -> index l i s = Ok a s.
Proof.
  intros Hi Hl. unfold index, mbind, M_bind, access. rewrite (proj2 (Z.leb_le 0 i) Hi). simpl.
  by rewrite Hl.
Qed.

Lemma on_top_bf_run {A} s c x l (op : M (list Z) A) a l' :
  s.(cspaces) !! c = Some x -> x.(top_bf) = Some l -> op l = Ok a l' ->
  on_top_bf c op s = Ok a (set_cs s c (with_top x l')).
Proof.
  intros Hx Hl Hop. unfold on_top_bf. rewrite (bind_run _ _ _ _ _ (cspace_get_run _ _ _ Hx)).
  rewrite Hl. unfold on_bf. rewrite (bind_run _ _ _ l s) by done. rewrite Hop.
  rewrite (bind_run _ _ _ (a, l') s) by done.
  by rewrite (bind_run _ _ _ _ _ (cspace_put_run _ _ _ _ Hx)).
Qed.

(** An operation that only reads the bit field leaves the state alone. *)
Lemma on_top_bf_read {A} s c x l (op : M (list Z) A) a :
  s.(cspaces) !! c = Some x -> x.(top_bf) = Some l -> op l = Ok a l ->
  on_top_bf c op s = Ok a s.
Proof.
  intros Hx Hl Hop. rewrite (on_top_bf_run s c x l op a l Hx Hl Hop). f_equal.
  apply set_cs_id. rewrite Hx. f_equal. destruct x. simpl in *. by rewrite Hl.
Qed.

Lemma bot_lvl_node_ptr_run s c x l i p :
  s.(cspaces) !! c = Some x -> x.(bot_lvl_nodes) = Some l -> 0 <= i -> l !! Z.to_nat i = Some p ->
  bot_lvl_node_ptr c i s = Ok p s.
Proof.
  intros Hx Hl Hi Hp. unfold bot_lvl_node_ptr. rewrite (bind_run _ _ _ _ _ (cspace_get_run _ _ _ Hx)).
  rewrite Hl. rewrite (bind_run _ _ _ l s) by done. by apply index_run.
Qed.

Definition set_bf (n : bot_lvl_node_t) (i : Z) (b : bot_lvl_t) (l : list Z) : bot_lvl_node_t :=
  {| n with cnodes := <[Z.to_nat i := {| b with bf := l |}]> n.(cnodes) |}.

Lemma on_bot_bf_run {A} s p n i b (op : M (list Z) A) a l' :
  s.(nodes) !! p = Some n -> 0 <= i -> n.(cnodes) !! Z.to_nat i = Some b -> op b.(bf) = Ok a l' ->
  on_bot_bf p i op s = Ok a (set_node s p (set_bf n i b l')).
Proof.
  intros Hn Hi Hb Hop. unfold on_bot_bf. rewrite (bind_run _ _ _ _ _ (node_get_run _ _ _ Hn)).
  rewrite (bind_run _ _ _ _ _ (index_run _ _ _ s Hi Hb)). unfold on_bf. rewrite Hop.
  rewrite (bind_run _ _ _ (a, l') s) by done.
  by rewrite (bind_run _ _ _ _ _ (node_put_run _ _ _ _ Hn)).
Qed.

Lemma on_bot_bf_read {A} s p n i b (op : M (list Z) A) a :
  s.(nodes) !! p = Some n -> 0 <= i -> n.(cnodes) !! Z.to_nat i = Some b -> op b.(bf) = Ok a b.(bf) ->
  on_bot_bf p i op s = Ok a s.
Proof.
  intros Hn Hi Hb Hop. rewrite (on_bot_bf_run s p n i b op a _ Hn Hi Hb Hop). f_equal.
  apply set_node_id. rewrite Hn. f_equal. unfold set_bf.
  destruct n as [a0 b0 c0 l]. simpl in *. f_equal. symmetry. apply list_insert_id.
  rewrite Hb. by destruct b.
Qed.
End runs.

(** ** One-level cspaces *)

Section one_level.
Context {E : Type} `{!Env E, !CspaceAlloc E}.

Record cs1_ok (s : sos E) (c : Z) (x : cspace_t) (l : list Z) : Prop := mk_cs1_ok {
  one_at : s.(cspaces) !! c = Some x;
  one_ptr : c <> 0;
  one_lvl : x.(two_level) = false;
  one_bf : x.(top_bf) = Some l;
  one_wf : bf_wf l;
  one_len : BITFIELD_SIZE x.(top_lvl_size_bits) = Z.of_nat (length l);
  one_slots : CNODE_SLOTS x.(top_lvl_size_bits) = 64 * Z.of_nat (length l) }.

Lemma set_cs_lookup (s : sos E) c x : (set_cs s c x).(cspaces) !! c = Some x.
Proof. apply lookup_insert_eq. Qed.

Lemma set_cs_set_cs (s : sos E) c x y : set_cs (set_cs s c x) c y = set_cs s c y.
Proof. unfold set_cs. simpl. by rewrite insert_insert_eq. Qed.

(** A one-level cspace hands out its lowest free slot and marks that slot,
    and only that one, as used; when every slot is used the search runs past
    the end of the bit field instead of reporting the cspace full. *)
Theorem one_level_alloc_slot (s : sos E) (c : Z) (x : cspace_t) (l : list Z) :
  cs1_ok s c x l ->
  (bf_full l -> cspace_alloc_slot c s = Stuck Segv) /\
  (~ bf_full l -> exists slot l',
     cspace_alloc_slot c s = Ok slot (set_cs s c (with_top x l')) /\
     cs1_ok (set_cs s c (with_top x l')) c (with_top x l') l' /\
     0 <= slot < CNODE_SLOTS x.(top_lvl_size_bits) /\ bf_test l slot = false /\
     (forall b, 0 <= b < slot -> bf_test l b = true) /\
     forall b, 0 <= b -> bf_test l' b = (b =? slot) || bf_test l b).
Proof.
  intros [Hx Hc H1 Hbf Hwf Hlen Hslots].
  unfold cspace_alloc_slot. cbn [alloc_slot]. rewrite (proj2 (Z.eqb_neq c 0) Hc).
  rewrite assert_bind by done. rewrite (bind_run _ _ _ _ _ (cspace_get_run _ _ _ Hx)).
  rewrite Hlen, H1. split; intros Hfull.
  - apply bind_stuck. unfold on_top_bf. rewrite (bind_run _ _ _ _ _ (cspace_get_run _ _ _ Hx)).
    rewrite (deref_bind _ _ _ _ Hbf). apply bind_stuck. unfold on_bf.
    by rewrite bf_first_free_full.
  - destruct (bf_first_free_spec l Hwf Hfull) as (slot & Hrun & Hr & Hfree & Hleast).
    rewrite (bind_run _ _ _ _ _ (on_top_bf_read s c x l _ slot Hx Hbf Hrun)).
    unfold bf_range in Hr. rewrite Hslots. rewrite (proj2 (Z.leb_gt _ _)) by lia. cbn [andb orb].
    destruct (bf_set_bit_spec l slot Hwf Hr) as (l' & Hset & Hwf' & Hlen' & Htest).
    rewrite (bind_run _ _ _ _ _ (on_top_bf_run s c x l _ tt l' Hx Hbf Hset)).
    exists slot, l'. split; [done|]. split; [|done].
    split; simpl; try done; [apply set_cs_lookup | by rewrite Hlen' | by rewrite Hlen'].
Qed.

(** Freeing a slot of a one-level cspace clears that slot and no other; the
    null slot is never freed. *)
Theorem one_level_free_slot (s : sos E) (c : Z) (x : cspace_t) (l : list Z) (cptr : Z) :
  cs1_ok s c x l -> 0 <= cptr < CNODE_SLOTS x.(top_lvl_size_bits) ->
  if cptr =? seL4_CapNull then cspace_free_slot c cptr s = Ok tt s
  else exists l', cspace_free_slot c cptr s = Ok tt (set_cs s c (with_top x l')) /\
    cs1_ok (set_cs s c (with_top x l')) c (with_top x l') l' /\
    forall b, 0 <= b -> bf_test l' b = negb (b =? cptr) && bf_test l b.
Proof.
  intros [Hx Hc H1 Hbf Hwf Hlen Hslots] Hr. unfold cspace_free_slot.
  destruct (cptr =? seL4_CapNull); [done|].
  rewrite (bind_run _ _ _ _ _ (cspace_get_run _ _ _ Hx)), H1. cbn [negb].
  rewrite (proj2 (Z.ltb_ge _ _)) by lia.
  destruct (bf_clr_bit_spec l cptr Hwf) as (l' & Hclr & Hwf' & Hlen' & Htest); [unfold bf_range; lia|].
  exists l'. split; [by apply (on_top_bf_run s c x l)|]. split; [|done].
  split; simpl; try done; [apply set_cs_lookup | by rewrite Hlen' | by rewrite Hlen'].
Qed.
End one_level.

(** ** Two-level cspaces: indices *)

Lemma cnode_slots_eq : CNODE_SLOTS CNODE_SIZE_BITS = 128.
Proof. reflexivity. Qed.
Lemma bot_lvl_per_node_eq : BOT_LVL_PER_NODE = 169.
Proof. reflexivity. Qed.
Lemma cnode_words_eq : BITFIELD_SIZE CNODE_SIZE_BITS = 2.
Proof. reflexivity. Qed.

(** Slot [j] of the second-level cnode [t]. *)
Definition slot_of (t j : Z) : Z := 128 * t + j.

Lemma slot_div t j : 0 <= j < 128 -> slot_of t j / 128 = t.
Proof. intros. unfold slot_of. symmetry. apply (Z.div_unique_pos _ 128 _ j); lia. Qed.
Lemma slot_mod t j : 0 <= j < 128 -> slot_of t j mod 128 = j.
Proof. intros. unfold slot_of. symmetry. apply (Z.mod_unique_pos _ 128 t); lia. Qed.

Lemma NODE_INDEX_slot t j : 0 <= j < 128 -> NODE_INDEX (slot_of t j) = t / 169.
Proof. intros. unfold NODE_INDEX. rewrite cnode_slots_eq, bot_lvl_per_node_eq. by rewrite slot_div. Qed.
Lemma CNODE_INDEX_slot t j : 0 <= j < 128 -> CNODE_INDEX (slot_of t j) = t mod 169.
Proof. intros. unfold CNODE_INDEX. rewrite cnode_slots_eq, bot_lvl_per_node_eq. by rewrite slot_div. Qed.
Lemma TOP_LVL_INDEX_slot t j : 0 <= j < 128 -> TOP_LVL_INDEX (slot_of t j) = t.
Proof.
  intros. unfold TOP_LVL_INDEX. change (CNODE_SLOT_BITS CNODE_SIZE_BITS) with 7.
  rewrite Z.shiftr_div_pow2 by lia. by apply slot_div.
Qed.
Lemma BOT_LVL_INDEX_slot t j : 0 <= j < 128 -> BOT_LVL_INDEX (slot_of t j) = j.
Proof.
  intros. unfold BOT_LVL_INDEX. change (MASK (CNODE_SLOT_BITS CNODE_SIZE_BITS)) with (Z.ones 7).
  rewrite Z.land_ones by lia. by apply slot_mod.
Qed.
Lemma slot_of_eta q : q = slot_of (q / 128) (q mod 128).
Proof. unfold slot_of. pose proof (Z.div_mod q 128). lia. Qed.

(** ** Two-level cspaces: the abstract view *)

(** The bit field of the second-level cnode [t], when that cnode exists. *)
Definition cnode_bf (nds : gmap Z bot_lvl_node_t) (x : cspace_t) (t : Z) : option (list Z) :=
  l ← x.(bot_lvl_nodes);
  if t / 169 <? x.(n_bot_lvl_nodes) then
    p ← l !! Z.to_nat (t / 169);
    n ← nds !! p;
    if t mod 169 <? n.(n_cnodes) then bf <$> n.(cnodes) !! Z.to_nat (t mod 169) else None
  else None.

Definition slot_used {E} (s : sos E) (c q : Z) : bool :=
  match s.(cspaces) !! c with
  | Some x =>
      match cnode_bf s.(nodes) x (q / 128) with
      | Some f => bf_test f (q mod 128)
      | None => false
      end
  | None => false
  end.

Definition zero_bf (f : list Z) : Prop := f = [0; 0].

Record node_ok (n : bot_lvl_node_t) : Prop := mk_node_ok {
  nd_len : length n.(cnodes) = 169%nat;
  nd_n : 0 <= n.(n_cnodes) <= 169;
  nd_bf : forall i b, n.(cnodes) !! i = Some b -> length b.(bf) = 2%nat /\ bf_wf b.(bf);
  nd_rest : forall i b, n.(n_cnodes) <= Z.of_nat i -> n.(cnodes) !! i = Some b -> zero_bf b.(bf) }.

(** A cnode with a slot to give: its last slot is kept back and another one is
    free. *)
Definition bf_avail (f : list Z) : Prop :=
  bf_test f 127 = false /\ exists j, 0 <= j < 127 /\ bf_test f j = false.

Record cs_inv {E} (s : sos E) (c : Z) (x : cspace_t) (tb l : list Z) : Prop := mk_cs_inv {
  ci_at : s.(cspaces) !! c = Some x;
  ci_ptr : c <> 0;
  ci_two : x.(two_level) = true;
  ci_top : x.(top_bf) = Some tb;
  ci_wf : bf_wf tb;
  ci_size : BITFIELD_SIZE x.(top_lvl_size_bits) = Z.of_nat (length tb);
  ci_slots : CNODE_SLOTS x.(top_lvl_size_bits) = 64 * Z.of_nat (length tb);
  ci_small : 64 * Z.of_nat (length tb) <= 2 ^ 32;
  ci_bot : x.(bot_lvl_nodes) = Some l;
  ci_n : 0 <= x.(n_bot_lvl_nodes) <= Z.of_nat (length l);
  ci_cap : 64 * Z.of_nat (length tb) <= 169 * Z.of_nat (length l);
  ci_mark : length x.(watermark) = 4%nat;
  ci_node : forall i, 0 <= i < x.(n_bot_lvl_nodes) -> exists p n,
    l !! Z.to_nat i = Some p /\ p <> 0 /\ s.(nodes) !! p = Some n /\ node_ok n;
  ci_inj : forall i j p, 0 <= i < x.(n_bot_lvl_nodes) -> 0 <= j < x.(n_bot_lvl_nodes) ->
    l !! Z.to_nat i = Some p -> l !! Z.to_nat j = Some p -> i = j;
  ci_avail : forall t f, 0 <= t < 64 * Z.of_nat (length tb) -> bf_test tb t = false ->
    cnode_bf s.(nodes) x t = Some f -> bf_avail f;
  ci_full : forall t, 0 <= t < 64 * Z.of_nat (length tb) -> bf_test tb t = true ->
    is_Some (cnode_bf s.(nodes) x t) }.

Section two_level.
Context {E : Type} `{!Env E}.
Implicit Types s : sos E.

(** Where the cnode [t] is. *)
Definition located s (x : cspace_t) (l : list Z) (t p : Z) (n : bot_lvl_node_t) (b : bot_lvl_t) : Prop :=
  0 <= t /\ t / 169 < x.(n_bot_lvl_nodes) /\ l !! Z.to_nat (t / 169) = Some p /\
  s.(nodes) !! p = Some n /\ t mod 169 < n.(n_cnodes) /\ n.(cnodes) !! Z.to_nat (t mod 169) = Some b.

Lemma cnode_bf_located s x l t f :
  x.(bot_lvl_nodes) = Some l -> 0 <= t ->
  cnode_bf s.(nodes) x t = Some f <-> exists p n b, located s x l t p n b /\ b.(bf) = f.
Proof.
  intros Hl Ht. unfold cnode_bf, located. rewrite Hl. simpl. split.
  - destruct (Z.ltb_spec (t / 169) x.(n_bot_lvl_nodes)) as [H1|H1]; [|done].
    destruct (l !! Z.to_nat (t / 169)) as [p|] eqn:Hp; [|done]. simpl.
    destruct (s.(nodes) !! p) as [n|] eqn:Hn; [|done]. simpl.
    destruct (Z.ltb_spec (t mod 169) n.(n_cnodes)) as [H2|H2]; [|done].
    destruct (n.(cnodes) !! Z.to_nat (t mod 169)) as [b|] eqn:Hb; [|done].
    intros [= <-]. exists p, n, b. done.
  - intros (p & n & b & (_ & H1 & H2 & H3 & H4 & H5) & <-).
    rewrite (proj2 (Z.ltb_lt _ _) H1), H2. simpl. rewrite H3. simpl.
    by rewrite (proj2 (Z.ltb_lt _ _) H4), H5.
Qed.

Lemma mod_169 t : 0 <= t mod 169 < 169.
Proof. apply Z.mod_pos_bound. lia. Qed.

Lemma div_169 t : 0 <= t -> 0 <= t / 169.
Proof. intros. apply Z.div_pos; lia. Qed.

Lemma cnode_neq t t' : t <> t' -> t / 169 <> t' / 169 \/ t mod 169 <> t' mod 169.
Proof.
  intros Hne. destruct (Z.eq_dec (t / 169) (t' / 169)) as [E1|]; [|by left].
  right. intros E2. apply Hne. rewrite (Z.div_mod t 169), (Z.div_mod t' 169) by lia. congruence.
Qed.

(** Writing the bit field of one cnode changes the view at that cnode only. *)
Lemma cnode_bf_set s c x tb l t p n b f t' :
  cs_inv s c x tb l -> located s x l t p n b -> 0 <= t' ->
  cnode_bf (<[p := set_bf n (t mod 169) b f]> s.(nodes)) x t' =
  if t' =? t then Some f else cnode_bf s.(nodes) x t'.
Proof.
  intros I (Ht & H1 & H2 & H3 & H4 & H5) Ht'. pose proof (mod_169 t). pose proof (mod_169 t').
  pose proof (div_169 t Ht). pose proof (div_169 t' Ht').
  unfold cnode_bf. rewrite (ci_bot _ _ _ _ _ I). simpl.
  destruct (Z.eqb_spec t' t) as [->|Hne].
  - rewrite (proj2 (Z.ltb_lt _ _) H1), H2. simpl. rewrite lookup_insert_eq. simpl.
    rewrite (proj2 (Z.ltb_lt _ _) H4). rewrite list_lookup_insert_eq; [done|].
    by apply lookup_lt_Some in H5.
  - destruct (Z.ltb_spec (t' / 169) x.(n_bot_lvl_nodes)) as [H1'|]; [|done].
    destruct (l !! Z.to_nat (t' / 169)) as [p'|] eqn:Hp'; [|done]. simpl.
    destruct (Z.eq_dec p' p) as [->|Hpp]; [|by rewrite lookup_insert_ne].
    assert (t' / 169 = t / 169) as Ed by (apply (ci_inj _ _ _ _ _ I _ _ p); done).
    rewrite lookup_insert_eq, H3. simpl.
    destruct (Z.ltb_spec (t' mod 169) n.(n_cnodes)); [|done].
    rewrite list_lookup_insert_ne; [done|]. destruct (cnode_neq t' t Hne); lia.
Qed.

Lemma set_bf_ok n i b f :
  node_ok n -> 0 <= i < n.(n_cnodes) -> n.(cnodes) !! Z.to_nat i = Some b ->
  length f = 2%nat -> bf_wf f -> node_ok (set_bf n i b f).
Proof.
  intros [H1 H2 H3 H4] Hi Hb Hl Hwf. split; simpl; [by rewrite length_insert | done | |].
  - intros j b' Hj. destruct (decide (j = Z.to_nat i)) as [->|Hne].
    + rewrite list_lookup_insert_eq in Hj by (by apply lookup_lt_Some in Hb). by injection Hj as <-.
    + rewrite list_lookup_insert_ne in Hj by done. by apply (H3 j).
  - intros j b' Hj. rewrite list_lookup_insert_ne by lia. by apply H4.
Qed.

Lemma with_top_same x l : x.(top_bf) = Some l -> with_top x l = x.
Proof. destruct x. simpl. by intros ->. Qed.

(** The state after a cnode's bit field and the top-level field were written. *)
Definition upd s (c : Z) (x : cspace_t) (p : Z) (n : bot_lvl_node_t) : sos E :=
  {| s with cspaces := <[c := x]> s.(cspaces); nodes := <[p := n]> s.(nodes) |}.

Lemma cs_inv_upd s c x tb l t p n b f tb' :
  cs_inv s c x tb l -> located s x l t p n b -> length f = 2%nat -> bf_wf f ->
  bf_wf tb' -> length tb' = length tb ->
  (forall t', 0 <= t' -> t' <> t -> bf_test tb' t' = bf_test tb t') ->
  (bf_test tb' t = false -> bf_avail f) ->
  cs_inv (upd s c (with_top x tb') p (set_bf n (t mod 169) b f)) c (with_top x tb') tb' l.
Proof.
  intros I L Hlf Hwf Hwt Hlt Htop Hav. pose proof L as (Ht & H1 & H2 & H3 & H4 & H5).
  assert (forall t', 0 <= t' -> cnode_bf (upd s c (with_top x tb') p (set_bf n (t mod 169) b f)).(nodes)
            (with_top x tb') t' = if t' =? t then Some f else cnode_bf s.(nodes) x t') as Hview.
  { intros t' Ht'. apply (cnode_bf_set s c x tb l); done. }
  pose proof (div_169 t Ht).
  destruct I as [ ]. split; try done; rewrite ?Hlt; try done.
  - apply lookup_insert_eq.
  - intros i Hi. destruct (ci_node0 i Hi) as (q & m & Hq & Hq0 & Hm & Hok).
    destruct (Z.eq_dec q p) as [->|Hne]; simpl.
    + exists p, (set_bf n (t mod 169) b f). rewrite lookup_insert_eq.
      assert (node_ok n) as Hn by (by rewrite H3 in Hm; injection Hm as <-).
      split; [done|]. split; [done|]. split; [done|].
      apply set_bf_ok; try done. pose proof (mod_169 t). lia.
    + exists q, m. by rewrite lookup_insert_ne.
  - intros t' f' Ht' Hclr Hf'. rewrite Hview in Hf' by lia. destruct (Z.eqb_spec t' t) as [->|Hne].
    + injection Hf' as <-. by apply Hav.
    + apply (ci_avail0 t'); [done| |done]. by rewrite <- Htop by lia.
  - intros t' Ht' Hset. rewrite Hview by lia. destruct (Z.eqb_spec t' t) as [->|Hne]; [by eexists|].
    apply ci_full0; [done|]. by rewrite <- Htop by lia.
Qed.

(** How the used slots change. *)
Lemma slot_used_upd s c x tb l t p n b f tb' q :
  cs_inv s c x tb l -> located s x l t p n b -> 0 <= q ->
  slot_used (upd s c (with_top x tb') p (set_bf n (t mod 169) b f)) c q =
  if q / 128 =? t then bf_test f (q mod 128) else slot_used s c q.
Proof.
  intros I L Hq. assert (0 <= q / 128) by (apply Z.div_pos; lia).
  unfold slot_used, upd. simpl. rewrite lookup_insert_eq.
  assert (cnode_bf (<[p := set_bf n (t mod 169) b f]> s.(nodes)) (with_top x tb') (q / 128) =
    if q / 128 =? t then Some f else cnode_bf s.(nodes) x (q / 128)) as ->
    by (by apply (cnode_bf_set s c x tb l)).
  rewrite (ci_at _ _ _ _ _ I). by destruct (q / 128 =? t).
Qed.

(** Taking the first free bit of a cnode with a slot to give. *)
Lemma bf_take f0 :
  length f0 = 2%nat -> bf_wf f0 -> bf_avail f0 ->
  exists j f k, bf_first_free 2 f0 = Ok j f0 /\ 0 <= j < 127 /\ bf_test f0 j = false /\
    bf_set_bit j f0 = Ok tt f /\ length f = 2%nat /\ bf_wf f /\
    (forall i, 0 <= i -> bf_test f i = (i =? j) || bf_test f0 i) /\
    bf_first_free 2 f = Ok k f /\ (forall i, 0 <= i < k -> bf_test f i = true) /\
    (k < 127 -> bf_avail f).
Proof.
  intros Hlen Hwf [H127 (j0 & Hj0 & Hfree0)].
  assert (forall g, length g = 2%nat -> bf_test g 127 = false -> ~ bf_full g) as Hnf.
  { intros g Hg Hg' Hf. rewrite bf_test_full in Hg'; [done|done|]. unfold bf_range. rewrite Hg. lia. }
  destruct (bf_first_free_spec f0 Hwf (Hnf _ Hlen H127)) as (j & Hff & Hjr & Hjf & Hleast).
  rewrite Hlen in Hff. unfold bf_range in Hjr. rewrite Hlen in Hjr.
  assert (j < 127) as Hj.
  { apply Z.nle_gt. intros Hle. rewrite (Hleast j0) in Hfree0 by lia. done. }
  destruct (bf_set_bit_spec f0 j Hwf) as (f & Hset & Hwff & Hlenf & Htest);
    [unfold bf_range; rewrite Hlen; lia|]. rewrite Hlen in Hlenf.
  assert (bf_test f 127 = false) as Hf127.
  { rewrite Htest by lia. rewrite H127. by rewrite (proj2 (Z.eqb_neq 127 j)) by lia. }
  destruct (bf_first_free_spec f Hwff (Hnf _ Hlenf Hf127)) as (k & Hffk & Hkr & Hkf & Hkl).
  rewrite Hlenf in Hffk. unfold bf_range in Hkr.
  exists j, f, k. do 9 (split; [done || lia|]). intros Hk. split; [done|]. exists k.
  split; [lia | done].
Qed.

(** [take_bot_slot] on a cnode with a slot to give. *)
Lemma take_bot_slot_run s c x tb l t p n b :
  cs_inv s c x tb l -> located s x l t p n b -> bf_range tb t -> bf_avail b.(bf) ->
  exists j tb' f, let s' := upd s c (with_top x tb') p (set_bf n (t mod 169) b f) in
    take_bot_slot c (slot_of t 0) t s = Ok (slot_of t j) s' /\
    cs_inv s' c (with_top x tb') tb' l /\ 0 <= j < 127 /\ bf_test b.(bf) j = false /\
    (forall i, 0 <= i -> bf_test f i = (i =? j) || bf_test b.(bf) i) /\
    (forall i, 0 <= i -> i <> t -> bf_test tb' i = bf_test tb i) /\
    (tb' = tb \/ forall i, 0 <= i < 127 -> bf_test f i = true).
Proof.
  intros I L Hr Hav. pose proof L as (Ht & H1 & H2 & H3 & H4 & H5).
  pose proof (div_169 t Ht). pose proof (mod_169 t).
  assert (node_ok n) as Hok.
  { destruct (ci_node _ _ _ _ _ I (t / 169)) as (p' & n' & Hp' & _ & Hn' & Hok); [lia|]. by simplify_eq. }
  destruct (nd_bf _ Hok _ _ H5) as [Hlen Hwf].
  destruct (bf_take b.(bf) Hlen Hwf Hav) as (j & f & k & Hff & Hj & Hjf & Hset & Hlf & Hwff & Htest & Hffk & Hkl & Hk).
  set (s1 := set_node s p (set_bf n (t mod 169) b f)).
  assert (take_bot_slot c (slot_of t 0) t s =
    (when (127 <=? k) (on_top_bf c (bf_set_bit t));; mret (slot_of t j)) s1) as Hrun.
  { unfold take_bot_slot. rewrite NODE_INDEX_slot, CNODE_INDEX_slot, cnode_words_eq by lia.
    rewrite (bind_run _ _ _ _ _ (bot_lvl_node_ptr_run s c x l _ p (ci_at _ _ _ _ _ I) (ci_bot _ _ _ _ _ I) (div_169 t Ht) H2)).
    rewrite (bind_run _ _ _ _ _ (on_bot_bf_read s p n _ b _ j H3 (proj1 (mod_169 t)) H5 Hff)).
    rewrite (bind_run _ _ _ _ _ (on_bot_bf_run s p n _ b _ tt f H3 (proj1 (mod_169 t)) H5 Hset)). fold s1.
    assert (s1.(nodes) !! p = Some (set_bf n (t mod 169) b f)) as Hs1 by apply lookup_insert_eq.
    assert ((set_bf n (t mod 169) b f).(cnodes) !! Z.to_nat (t mod 169) = Some {| b with bf := f |}) as Hb1.
    { simpl. apply list_lookup_insert_eq. by apply lookup_lt_Some in H5. }
    rewrite (bind_run _ _ _ _ _ (on_bot_bf_read s1 p _ _ _ _ k Hs1 (proj1 (mod_169 t)) Hb1 Hffk)).
    rewrite cnode_slots_eq. unfold slot_of. by rewrite Z.add_0_r. }
  rewrite Hrun. destruct (Z.leb_spec 127 k) as [Hfull|Hnot]; cbn [when].
  - destruct (bf_set_bit_spec tb t (ci_wf _ _ _ _ _ I) Hr) as (tb' & Hset' & Hwf' & Hlen' & Htest').
    exists j, tb', f. split.
    { by rewrite (bind_run _ _ _ _ _ (on_top_bf_run s1 c x tb _ tt tb' (ci_at _ _ _ _ _ I) (ci_top _ _ _ _ _ I) Hset')). }
    assert (bf_test tb' t = true) as Hbt by (rewrite Htest' by lia; by rewrite Z.eqb_refl).
    split; [apply (cs_inv_upd s c x tb); try done; [|congruence]|].
    { intros t' Ht' Hne. rewrite Htest' by lia. by rewrite (proj2 (Z.eqb_neq t' t) Hne). }
    do 3 (split; [done|]). split; [|right; intros; apply Hkl; lia].
    intros i Hi Hne. rewrite Htest' by lia. by rewrite (proj2 (Z.eqb_neq i t) Hne).
  - exists j, tb, f. split.
    { rewrite ret_bind. unfold s1, upd, set_node. rewrite with_top_same by apply (ci_top _ _ _ _ _ I).
      by rewrite (insert_id s.(cspaces) c x (ci_at _ _ _ _ _ I)). }
    split; [apply (cs_inv_upd s c x tb); try done; [apply (ci_wf _ _ _ _ _ I) | naive_solver]|].
    naive_solver.
Qed.

(** ** Freeing a slot *)

Lemma located_node s c x tb l t p n b :
  cs_inv s c x tb l -> located s x l t p n b ->
  node_ok n /\ length b.(bf) = 2%nat /\ bf_wf b.(bf).
Proof.
  intros I (Ht & H1 & H2 & H3 & H4 & H5). pose proof (div_169 t Ht).
  destruct (ci_node _ _ _ _ _ I (t / 169)) as (p' & n' & Hp' & _ & Hn' & Hok); [lia|].
  simplify_eq. split; [done|]. by apply (nd_bf _ Hok _ _ H5).
Qed.

Lemma free_slot_run s c x tb l t j p n b :
  cs_inv s c x tb l -> located s x l t p n b -> bf_range tb t -> 0 <= j < 128 -> 0 < slot_of t j ->
  exists tb' g, let s' := upd s c (with_top x tb') p (set_bf n (t mod 169) b g) in
    cspace_free_slot c (slot_of t j) s = Ok tt s' /\
    bf_wf tb' /\ length tb' = length tb /\ length g = 2%nat /\ bf_wf g /\
    (forall i, 0 <= i -> bf_test tb' i = negb (i =? t) && bf_test tb i) /\
    (forall i, 0 <= i -> bf_test g i = negb (i =? j) && bf_test b.(bf) i).
Proof.
  intros I L Hr Hj Hpos. pose proof L as (Ht & H1 & H2 & H3 & H4 & H5).
  destruct (located_node s c x tb l t p n b I L) as (Hok & Hlen & Hwf).
  destruct (bf_clr_bit_spec tb t (ci_wf _ _ _ _ _ I) Hr) as (tb' & Hclr & Hwf' & Hlen' & Htest').
  destruct (bf_clr_bit_spec b.(bf) j Hwf) as (g & Hclrg & Hwfg & Hleng & Htestg);
    [unfold bf_range; rewrite Hlen; lia|]. rewrite Hlen in Hleng.
  exists tb', g. split; [|done].
  unfold cspace_free_slot. rewrite (proj2 (Z.eqb_neq (slot_of t j) _)) by (unfold seL4_CapNull; lia).
  rewrite (bind_run _ _ _ _ _ (cspace_get_run _ _ _ (ci_at _ _ _ _ _ I))), (ci_two _ _ _ _ _ I).
  cbn [negb]. rewrite TOP_LVL_INDEX_slot, NODE_INDEX_slot, CNODE_INDEX_slot, BOT_LVL_INDEX_slot by done.
  rewrite (bind_run _ _ _ _ _ (on_top_bf_run s c x tb _ tt tb' (ci_at _ _ _ _ _ I) (ci_top _ _ _ _ _ I) Hclr)).
  fold (with_top x tb'). set (s1 := set_cs s c (with_top x tb')).
  assert (s1.(cspaces) !! c = Some (with_top x tb')) as Hs1 by apply lookup_insert_eq.
  rewrite (bind_run _ _ _ _ _ (cspace_get_run _ _ _ Hs1)). cbn [with_top n_bot_lvl_nodes].
  rewrite (proj2 (Z.ltb_lt _ _) H1).
  rewrite (bind_run _ _ _ _ _ (bot_lvl_node_ptr_run s1 c _ l _ p Hs1 (ci_bot _ _ _ _ _ I) (div_169 t Ht) H2)).
  rewrite (bind_run _ _ _ _ _ (node_get_run s1 p n H3)). rewrite (proj2 (Z.ltb_lt _ _) H4).
  by apply (on_bot_bf_run s1 p n (t mod 169) b _ tt g H3 (proj1 (mod_169 t)) H5).
Qed.

(** Freeing a used slot of a two-level cspace makes that slot free, leaves
    every other slot as it was, keeps the invariant and makes the slot's cnode
    one that gives slots again; freeing the null slot does nothing. *)
Theorem two_level_free_slot (s : sos E) (c : Z) (x : cspace_t) (tb l f : list Z) (q : Z) :
  cs_inv s c x tb l -> 0 < q < 128 * (64 * Z.of_nat (length tb)) -> q mod 128 < 127 ->
  cnode_bf s.(nodes) x (q / 128) = Some f -> bf_test f 127 = false ->
  cspace_free_slot c 0 s = Ok tt s /\
  exists s' x' tb', cspace_free_slot c q s = Ok tt s' /\ cs_inv s' c x' tb' l /\
    slot_used s' c q = false /\ bf_test tb' (q / 128) = false /\
    (forall r, 0 <= r -> r <> q -> slot_used s' c r = slot_used s c r) /\
    s'.(trace) = s.(trace).
Proof.
  intros I Hq Hlast Hf H127. split; [done|].
  assert (0 <= q mod 128 < 128) as Hj by (apply Z.mod_pos_bound; lia).
  assert (0 <= q / 128) as Ht by (apply Z.div_pos; lia).
  assert (bf_range tb (q / 128)) as Hr.
  { split; [done|]. apply Z.div_lt_upper_bound; lia. }
  pose proof Hf as (p & n & b & L & Hb)%(cnode_bf_located s x l _ f (ci_bot _ _ _ _ _ I) Ht).
  destruct (free_slot_run s c x tb l _ _ p n b I L Hr Hj) as (tb' & g & Hrun & Hwf' & Hlen' & Hlg & Hwg & Htest' & Htestg);
    [rewrite <- slot_of_eta; lia|]. rewrite <- slot_of_eta in Hrun.
  assert (bf_test tb' (q / 128) = false) as Htt by (rewrite Htest' by lia; by rewrite Z.eqb_refl).
  eexists _, _, tb'. split; [exact Hrun|].
  split; [apply (cs_inv_upd s c x tb); try done|split; [|split; [done|split; [|done]]]].
  - intros t' Ht' Hne. rewrite Htest' by lia. by rewrite (proj2 (Z.eqb_neq _ _) Hne).
  - intros _. split; [rewrite Htestg by lia; by rewrite Hb, H127, Bool.andb_false_r|].
    exists (q mod 128). split; [lia|]. rewrite Htestg by lia. by rewrite Z.eqb_refl.
  - rewrite (slot_used_upd s c x tb l) by (done || lia). rewrite Z.eqb_refl.
    rewrite Htestg by lia. by rewrite Z.eqb_refl.
  - intros r Hr0 Hne. rewrite (slot_used_upd s c x tb l) by (done || lia).
    destruct (Z.eqb_spec (r / 128) (q / 128)) as [Ed|]; [|done].
    rewrite Htestg by (apply Z.mod_pos_bound; lia).
    destruct (Z.eqb_spec (r mod 128) (q mod 128)) as [Em|].
    + exfalso. apply Hne. rewrite (slot_of_eta r), (slot_of_eta q). congruence.
    + unfold slot_used. rewrite (ci_at _ _ _ _ _ I), Ed, Hf. by rewrite Hb.
Qed.

Lemma slot_used_take s c x tb l t p n b f tb' j q :
  cs_inv s c x tb l -> located s x l t p n b -> 0 <= q -> 0 <= j < 128 ->
  (forall i, 0 <= i -> bf_test f i = (i =? j) || bf_test b.(bf) i) ->
  slot_used (upd s c (with_top x tb') p (set_bf n (t mod 169) b f)) c q =
  (q =? slot_of t j) || slot_used s c q.
Proof.
  intros I L Hq Hj Htest. pose proof L as (Ht & _).
  rewrite (slot_used_upd s c x tb l) by done.
  destruct (Z.eqb_spec (q / 128) t) as [Ed|Hne].
  - rewrite Htest by (apply Z.mod_pos_bound; lia).
    assert ((q mod 128 =? j) = (q =? slot_of t j)) as ->.
    { destruct (Z.eqb_spec (q mod 128) j) as [Em|Hm]; symmetry.
      - apply Z.eqb_eq. rewrite (slot_of_eta q). congruence.
      - apply Z.eqb_neq. intros ->. by rewrite slot_mod in Hm. }
    f_equal. unfold slot_used. rewrite (ci_at _ _ _ _ _ I), Ed.
    by rewrite (proj2 (cnode_bf_located s x l t b.(bf) (ci_bot _ _ _ _ _ I) Ht)) by eauto.
  - rewrite (proj2 (Z.eqb_neq q (slot_of t j))); [done|]. intros ->. by rewrite slot_div in Hne.
Qed.
End two_level.

(** ** Allocating a slot *)

Section allocate.
Context {E : Type} `{!Env E, !CspaceAlloc E}.
Implicit Types s : sos E.

(** The cnode [cspace_alloc_slot] looks at: the first that is not full. *)
Definition first_clear (tb : list Z) (t : Z) : Prop :=
  bf_range tb t /\ bf_test tb t = false /\ forall b, 0 <= b < t -> bf_test tb b = true.

(** Everything up to the choice of the cnode. *)
Lemma alloc_slot_choose fuel s c x tb l t :
  cs_inv s c x tb l -> first_clear tb t ->
  alloc_slot (S fuel) c s =
  (missing ← levels_missing c (slot_of t 0);
   r ← (if (missing : bool) then ensure_levels c (slot_of t 0) 0 else mret (true, 0));
   let '(ok, used) := r in
   if negb ok then mret seL4_CapNull
   else slot ← take_bot_slot c (slot_of t 0) t;
        refill_watermark (alloc_slot fuel) c used;; mret slot) s.
Proof.
  intros I (Hr & Hclr & Hleast). unfold bf_range in Hr. pose proof (ci_small _ _ _ _ _ I).
  assert (~ bf_full tb) as Hnf by (intros Hf; by rewrite bf_test_full in Hclr).
  destruct (bf_first_free_spec tb (ci_wf _ _ _ _ _ I) Hnf) as (t' & Hff & Hr' & Hclr' & Hleast').
  assert (t' = t) as ->.
  { unfold bf_range in Hr'. destruct (Z.lt_trichotomy t' t) as [Hlt|[|Hlt]]; [|done|].
    - rewrite Hleast in Hclr' by lia. done.
    - rewrite Hleast' in Hclr by lia. done. }
  cbn [alloc_slot]. rewrite (proj2 (Z.eqb_neq c 0) (ci_ptr _ _ _ _ _ I)). rewrite assert_bind by done.
  rewrite (bind_run _ _ _ _ _ (cspace_get_run _ _ _ (ci_at _ _ _ _ _ I))).
  rewrite (ci_size _ _ _ _ _ I), (ci_slots _ _ _ _ _ I), (ci_two _ _ _ _ _ I).
  rewrite (bind_run _ _ _ _ _ (on_top_bf_read s c x tb _ t (ci_at _ _ _ _ _ I) (ci_top _ _ _ _ _ I) Hff)).
  rewrite (proj2 (Z.ltb_ge _ t)), (proj2 (Z.leb_gt _ t)) by lia. cbn [andb orb].
  change (CNODE_SLOT_BITS CNODE_SIZE_BITS) with 7. rewrite Z.shiftl_mul_pow2 by lia.
  rewrite u64_small by lia. by replace (t * 2 ^ 7) with (slot_of t 0) by (unfold slot_of; lia).
Qed.

Lemma levels_missing_run s c x tb l t :
  cs_inv s c x tb l -> 0 <= t ->
  levels_missing c (slot_of t 0) s = Ok (bool_decide (cnode_bf s.(nodes) x t = None)) s.
Proof.
  intros I Ht. pose proof (div_169 t Ht). unfold levels_missing.
  rewrite (bind_run _ _ _ _ _ (cspace_get_run _ _ _ (ci_at _ _ _ _ _ I))).
  rewrite NODE_INDEX_slot, CNODE_INDEX_slot by lia. unfold cnode_bf. rewrite (ci_bot _ _ _ _ _ I). simpl.
  destruct (Z.leb_spec x.(n_bot_lvl_nodes) (t / 169)) as [Hle|Hlt].
  - by rewrite (proj2 (Z.ltb_ge _ _) Hle).
  - rewrite (proj2 (Z.ltb_lt _ _) Hlt).
    destruct (ci_node _ _ _ _ _ I (t / 169)) as (p & n & Hp & _ & Hn & Hok); [lia|].
    rewrite (bind_run _ _ _ _ _ (bot_lvl_node_ptr_run s c x l _ p (ci_at _ _ _ _ _ I) (ci_bot _ _ _ _ _ I) (div_169 t Ht) Hp)).
    rewrite (bind_run _ _ _ _ _ (node_get_run s p n Hn)). rewrite Hp. simpl. rewrite Hn. simpl.
    destruct (Z.leb_spec n.(n_cnodes) (t mod 169)) as [Hle|Hlt'].
    + by rewrite (proj2 (Z.ltb_ge _ _) Hle).
    + rewrite (proj2 (Z.ltb_lt _ _) Hlt').
      destruct (lookup_lt_is_Some_2 n.(cnodes) (Z.to_nat (t mod 169))) as [b Hb].
      { rewrite (nd_len _ Hok). pose proof (mod_169 t). lia. }
      by rewrite Hb.
Qed.

(** Allocation from a cnode that exists. *)
Lemma alloc_slot_present s c x tb l t f :
  cs_inv s c x tb l -> first_clear tb t -> cnode_bf s.(nodes) x t = Some f ->
  exists p n b j tb' g, let s' := upd s c (with_top x tb') p (set_bf n (t mod 169) b g) in
    located s x l t p n b /\ b.(bf) = f /\
    (forall fuel, alloc_slot (S fuel) c s = Ok (slot_of t j) s') /\
    cs_inv s' c (with_top x tb') tb' l /\ 0 <= j < 127 /\ bf_test f j = false /\
    (forall i, 0 <= i -> bf_test g i = (i =? j) || bf_test f i).
Proof.
  intros I Hfc Hf. pose proof Hfc as (Hr & Hclr & _).
  assert (0 <= t) as Ht by (unfold bf_range in Hr; lia).
  pose proof Hf as (p & n & b & L & <-)%(cnode_bf_located s x l t f (ci_bot _ _ _ _ _ I) Ht).
  assert (bf_avail b.(bf)) as Hav by (by apply (ci_avail _ _ _ _ _ I t)).
  destruct (take_bot_slot_run s c x tb l t p n b I L Hr Hav)
    as (j & tb' & g & Hrun & I' & Hj & Hjf & Htest & _).
  exists p, n, b, j, tb', g. split; [done|]. split; [done|]. split; [|done]. intros fuel.
  rewrite (alloc_slot_choose fuel s c x tb l t I Hfc).
  rewrite (bind_run _ _ _ _ _ (levels_missing_run s c x tb l t I Ht)).
  rewrite bool_decide_false by (by rewrite Hf). rewrite ret_bind. cbn [negb].
  by rewrite (bind_run _ _ _ _ _ Hrun).
Qed.

(** When the cnode [cspace_alloc_slot] chooses exists, the call returns a
    slot that was free, makes exactly that slot used, keeps the invariant and
    asks nothing of the kernel; the slot is never null, nor the last of its
    cnode. *)
Theorem two_level_alloc_slot (s : sos E) (c : Z) (x : cspace_t) (tb l f : list Z) (t : Z) :
  cs_inv s c x tb l -> first_clear tb t -> cnode_bf s.(nodes) x t = Some f ->
  slot_used s c 0 = true ->
  exists slot s' x' tb', cspace_alloc_slot c s = Ok slot s' /\ cs_inv s' c x' tb' l /\
    slot_used s c slot = false /\ slot <> seL4_CapNull /\ 0 < slot /\ slot mod 128 < 127 /\
    (forall q, 0 <= q -> slot_used s' c q = (q =? slot) || slot_used s c q) /\
    s'.(env) = s.(env) /\ s'.(trace) = s.(trace).
Proof.
  intros I Hfc Hf Hnull. unfold cspace_alloc_slot.
  destruct (alloc_slot_present s c x tb l t f I Hfc Hf)
    as (p & n & b & j & tb' & g & L & Hb & Hrun & I' & Hj & Hjf & Htest).
  assert (slot_used s c (slot_of t j) = false) as Hfree.
  { unfold slot_used. rewrite (ci_at _ _ _ _ _ I), slot_div, slot_mod by lia. by rewrite Hf. }
  assert (0 <= t) by (by destruct Hfc as [[? ?] _]).
  assert (0 < slot_of t j) as Hpos.
  { destruct (Z.eq_dec (slot_of t j) 0) as [E0|]; [|unfold slot_of in *; lia].
    rewrite E0 in Hfree. congruence. }
  eexists _, _, _, tb'. split; [exact (Hrun 1%nat)|]. split; [exact I'|]. split; [done|].
  split; [unfold seL4_CapNull; lia|]. split; [done|]. split; [rewrite slot_mod; lia|].
  split; [|done]. intros q Hq. apply (slot_used_take s c x tb l t); try done; [lia|]. by rewrite Hb.
Qed.
End allocate.

(** ** Growth: new book-keeping nodes and cnodes *)

(** What the allocation functions may touch: neither cspaces nor nodes; a
    mapped frame is at an address above every earlier one. *)
Class CspaceAllocLaws (E : Type) `{!Env E, !CspaceAlloc E} : Prop := {
  law_alloc : forall k s r s', ca_alloc_4k_ut k s = Ok r s' ->
    s'.(cspaces) = s.(cspaces) /\ s'.(nodes) = s.(nodes) /\ s'.(boot) = s.(boot);
  law_free : forall k u s r s', ca_free_4k_ut k u s = Ok r s' ->
    s'.(cspaces) = s.(cspaces) /\ s'.(nodes) = s.(nodes) /\ s'.(boot) = s.(boot);
  law_map : forall k fr sl u s p u' s', ca_map_frame k fr sl u s = Ok (p, u') s' ->
    s'.(cspaces) = s.(cspaces) /\ s'.(nodes) = s.(nodes) /\
    (p <> 0 -> s.(boot).(next_free_vaddr) + PAGE_SIZE_4K < 2 ^ 64 ->
     s.(boot).(next_free_vaddr) <= p < s'.(boot).(next_free_vaddr));
  law_fuel_alloc : forall k, fuel_free (ca_alloc_4k_ut k);
  law_fuel_free : forall k u, fuel_free (ca_free_4k_ut k u);
  law_fuel_map : forall k fr sl u, fuel_free (ca_map_frame k fr sl u) }.

Section fuel.
Context {E : Type} `{!Env E, !CspaceAlloc E, !CspaceAllocLaws E}.

Lemma fuel_call op args : fuel_free (call (E:=E) op args).
Proof. intros s. unfold call. by destruct (ext op args s.(env)). Qed.
Lemma fuel_cspace_get c : fuel_free (cspace_get (E:=E) c).
Proof. unfold cspace_get. fuel_free. Qed.
Lemma fuel_cspace_put c x : fuel_free (cspace_put (E:=E) c x).
Proof. unfold cspace_put. fuel_free. apply fuel_cspace_get. Qed.
Lemma fuel_node_get p : fuel_free (node_get (E:=E) p).
Proof. unfold node_get. fuel_free. Qed.
Lemma fuel_node_put p n : fuel_free (node_put (E:=E) p n).
Proof. unfold node_put. fuel_free. apply fuel_node_get. Qed.
Lemma fuel_index {S A} (l : list A) i : fuel_free (index (S:=S) l i).
Proof. unfold index. fuel_free. Qed.
#[local] Hint Resolve fuel_call fuel_cspace_get fuel_cspace_put fuel_node_get fuel_node_put fuel_index : fuel.
#[local] Hint Extern 1 (fuel_free (ca_alloc_4k_ut _)) => apply law_fuel_alloc : fuel.
#[local] Hint Extern 1 (fuel_free (ca_free_4k_ut _ _)) => apply law_fuel_free : fuel.
#[local] Hint Extern 1 (fuel_free (ca_map_frame _ _ _ _)) => apply law_fuel_map : fuel.

Lemma fuel_ensure_levels c cptr used : fuel_free (ensure_levels (E:=E) c cptr used).
Proof.
  unfold ensure_levels, ensure_node, ensure_cnode, retype_helper, cspace_untyped_retype, alloc_4k_untyped,
    free_4k_untyped, cs_map_frame, set_bot_lvl_node, init_bot_lvl_node, bot_lvl_node_ptr, cspace_delete.
  fuel_free.
Qed.

Lemma fuel_on_bf {A} (op : M (list Z) A) l : fuel_free op -> fuel_free (on_bf (E:=E) op l).
Proof. intros H s. unfold on_bf. specialize (H l). by destruct (op l) as [|[]]. Qed.

Lemma fuel_bf_first_free w : fuel_free (bf_first_free w).
Proof. unfold bf_first_free, bf_word. fuel_free. Qed.
Lemma fuel_bf_set_bit b : fuel_free (bf_set_bit b).
Proof. unfold bf_set_bit, bf_word, bf_store. fuel_free. Qed.
#[local] Hint Resolve fuel_on_bf fuel_bf_first_free fuel_bf_set_bit : fuel.

Lemma fuel_take_bot_slot c cptr t : fuel_free (take_bot_slot (E:=E) c cptr t).
Proof. unfold take_bot_slot, bot_lvl_node_ptr, on_bot_bf, on_top_bf. fuel_free. Qed.
End fuel.

(** ** On the concrete machine *)

Lemma small_cspace_ok : cs1_ok with_cspaces 200 small_cspace [3; 0].
Proof. split; try done. repeat constructor; lia. Qed.

Lemma one_level_alloc_slot_witness :
  ~ bf_full [3; 0] /\ exists slot l',
    cspace_alloc_slot (CspaceAlloc0:=toy_alloc) 200 with_cspaces =
      Ok slot (set_cs with_cspaces 200 (with_top small_cspace l')) /\ bf_test [3; 0] slot = false.
Proof.
  assert (~ bf_full [3; 0]) as Hf by (intros H; by apply Forall_cons_1 in H as [H _]).
  split; [done|].
  destruct (proj2 (one_level_alloc_slot (CspaceAlloc0:=toy_alloc) _ _ _ _ small_cspace_ok) Hf)
    as (slot & l' & Hrun & _ & _ & Hfree & _).
  by exists slot, l'.
Defined.

Lemma one_level_free_slot_witness : exists l',
  cspace_free_slot 200 1 with_cspaces = Ok tt (set_cs with_cspaces 200 (with_top small_cspace l')) /\
  bf_test l' 1 = false.
Proof.
  destruct (one_level_free_slot with_cspaces 200 small_cspace [3; 0] 1 small_cspace_ok) as (l' & Hrun & _ & Hl).
  { split; done. }
  exists l'. split; [done|]. by rewrite Hl.
Defined.

Lemma small_node_ok : node_ok small_node.
Proof.
  split; [done | done | |].
  - intros i b Hb. assert (b.(bf) = [3; 0] \/ b.(bf) = [0; 0]) as [-> | ->]; [|by split; [|repeat constructor; lia]..].
    destruct i as [|i]; [left; by injection Hb as <-|].
    right. change (replicate 168 (mk_bot_lvl [0; 0] 0) !! i = Some b) in Hb. apply lookup_replicate_1 in Hb as [-> _]. done.
  - intros [|i] b Hi Hb; [simpl in Hi; lia|].
    change (replicate 168 (mk_bot_lvl [0; 0] 0) !! i = Some b) in Hb. apply lookup_replicate_1 in Hb as [-> _]. done.
Qed.

Lemma deep_cnode t f :
  0 <= t < 128 -> cnode_bf with_cspaces.(nodes) deep_cspace t = Some f -> t = 0 /\ f = [3; 0].
Proof.
  intros Ht. destruct (decide (t = 0)) as [-> | Hn]; [vm_compute; by intros [= <-]|].
  unfold cnode_bf. rewrite Z.div_small, Z.mod_small by lia.
  change (with_cspaces.(nodes)) with ({[4096 := small_node]} : gmap Z bot_lvl_node_t). simpl.
  rewrite lookup_singleton_eq. simpl. by rewrite (proj2 (Z.ltb_ge t 1)) by lia.
Qed.

Lemma deep_cspace_ok : cs_inv with_cspaces 100 deep_cspace [0; 0] [4096; 0].
Proof.
  assert (forall i : Z, 0 <= i < n_bot_lvl_nodes deep_cspace -> i = 0) as Hi by (simpl; lia).
  split; try done.
  - repeat constructor; lia.
  - intros i ->%Hi. exists 4096, small_node. split_and!; [done..|apply small_node_ok].
  - intros i j p ->%Hi ->%Hi. done.
  - intros t f Ht _ [-> ->]%deep_cnode; [|simpl in Ht; lia]. split; [done|]. by exists 2.
  - intros t Ht Hb. exfalso. revert Hb. apply not_true_iff_false. unfold bf_test.
    destruct ([0; 0] !! Z.to_nat (WORD_INDEX t)) as [w|] eqn:Hw; [|done].
    apply list_elem_of_lookup_2 in Hw. assert (w = 0) as -> by set_solver. apply Z.testbit_0_l.
Qed.

Lemma two_level_free_slot_witness : exists s',
  cspace_free_slot 100 1 with_cspaces = Ok tt s' /\ slot_used with_cspaces 100 1 = true /\ slot_used s' 100 1 = false.
Proof.
  destruct (two_level_free_slot with_cspaces 100 deep_cspace [0; 0] [4096; 0] [3; 0] 1 deep_cspace_ok)
    as (_ & s' & x' & tb' & Hrun & _ & Hu & _); [simpl; lia | done | done | done |].
  by exists s'.
Defined.

Lemma two_level_alloc_slot_witness : exists slot s',
  cspace_alloc_slot (CspaceAlloc0:=toy_alloc) 100 with_cspaces = Ok slot s' /\ slot_used with_cspaces 100 slot = false.
Proof.
  destruct (two_level_alloc_slot (CspaceAlloc0:=toy_alloc) with_cspaces 100 deep_cspace [0; 0] [4096; 0] [3; 0] 0 deep_cspace_ok)
    as (slot & s' & x' & tb' & Hrun & _ & Hu & _); [|done|done|by exists slot, s'].
  split_and!; [done..|lia].
Defined.
