(* ===== verification/CspaceGrow.v ===== *)
(** * libsel4cspace: growth of a two-level cspace

    [ensure_levels] adds a book-keeping node and a second-level cnode when the
    chosen cnode is missing.  Proved here: it keeps the invariant and every
    existing cnode, the new cnode starts empty, and the recursion of
    [cspace_alloc_slot] through [refill_watermark] stops after one level, so
    that the fuel of the model never runs out. *)
From S2P Require Import Prelude Utils Bitfield UtTable Bytes Sos Cspace Sample CspaceSpec.

Section grow.
Context {E : Type} `{!Env E, !CspaceAlloc E, !CspaceAllocLaws E}.
Implicit Types s : sos E.

(** Two states with the same cspaces, nodes and boot-time mapping data. *)
Definition keeps s s' : Prop :=
  s'.(cspaces) = s.(cspaces) /\ s'.(nodes) = s.(nodes) /\ s'.(boot) = s.(boot).

Lemma keeps_refl s : keeps s s.
Proof. done. Qed.
Lemma keeps_trans s1 s2 s3 : keeps s1 s2 -> keeps s2 s3 -> keeps s1 s3.
Proof. unfold keeps. intuition congruence. Qed.
Lemma keeps_call op args s r s' : call op args s = Ok r s' -> keeps s s'.
Proof. intros ((e & t & ->) & _)%call_inv. done. Qed.

Lemma cs_inv_keeps s s' c x tb l :
  s'.(cspaces) = s.(cspaces) -> s'.(nodes) = s.(nodes) -> cs_inv s c x tb l -> cs_inv s' c x tb l.
Proof. intros H1 H2 [ ]. split; rewrite ?H1, ?H2; done. Qed.

(** Every node lies below the next address to be mapped, and there is room for
    another page. *)
Definition nodes_below s : Prop :=
  forall p n, s.(nodes) !! p = Some n -> p < s.(boot).(next_free_vaddr).
Definition page_room s : Prop := s.(boot).(next_free_vaddr) + PAGE_SIZE_4K < 2 ^ 64.

Lemma cspace_get_inv c s x s' : cspace_get c s = Ok x s' -> s' = s /\ s.(cspaces) !! c = Some x.
Proof. intros H. unfold cspace_get in H. run_inv H. done. Qed.

Lemma keeps_retype c u t ty sz s r s' : cspace_untyped_retype c u t ty sz s = Ok r s' -> keeps s s'.
Proof.
  intros H. unfold cspace_untyped_retype in H. run_inv H. apply cspace_get_inv in Hrun as [-> _].
  destruct (two_level _); by apply keeps_call in H.
Qed.
Lemma keeps_delete c q s r s' : cspace_delete c q s = Ok r s' -> keeps s s'.
Proof.
  intros H. unfold cspace_delete in H. run_inv H. apply cspace_get_inv in Hrun as [-> _].
  by apply keeps_call in H.
Qed.
Lemma keeps_alloc_4k c s r s' : alloc_4k_untyped c s = Ok r s' -> keeps s s'.
Proof.
  intros H. unfold alloc_4k_untyped in H. run_inv H. apply cspace_get_inv in Hrun as [-> _].
  by apply law_alloc in H.
Qed.
Lemma keeps_free_4k c u s r s' : free_4k_untyped c u s = Ok r s' -> keeps s s'.
Proof.
  intros H. unfold free_4k_untyped in H. run_inv H. apply cspace_get_inv in Hrun as [-> _].
  by apply law_free in H.
Qed.
Lemma keeps_retype_helper c ty q s r s' : retype_helper c ty q s = Ok r s' -> keeps s s'.
Proof.
  intros H. unfold retype_helper in H. apply bind_Ok in H as ([u q'] & s1 & H1 & H).
  apply keeps_alloc_4k in H1. destruct (u =? 0); [by run_inv H|].
  apply bind_Ok in H as (err & s2 & H2 & H). apply keeps_retype in H2.
  destruct (negb _).
  - run_inv H. apply keeps_free_4k in Hrun. eauto using keeps_trans.
  - run_inv H. eauto using keeps_trans.
Qed.

(** ** The position of the missing cnode *)

Lemma first_clear_exists s c x tb l t t' :
  cs_inv s c x tb l -> first_clear tb t -> 0 <= t' < t -> is_Some (cnode_bf s.(nodes) x t').
Proof.
  intros I ((Hr0 & Hr1) & _ & Hl) Ht'. apply (ci_full _ _ _ _ _ I); [lia|]. by apply Hl.
Qed.

(** No cnode is skipped: the missing one is the next of the last node, or the
    first of the next node. *)
Lemma missing_position s c x tb l t :
  cs_inv s c x tb l -> first_clear tb t -> cnode_bf s.(nodes) x t = None ->
  (t / 169 = x.(n_bot_lvl_nodes) /\ t mod 169 = 0) \/
  (t / 169 < x.(n_bot_lvl_nodes) /\ forall p n, l !! Z.to_nat (t / 169) = Some p ->
     s.(nodes) !! p = Some n -> n.(n_cnodes) = t mod 169).
Proof.
  intros I Hfc Hnone. assert (0 <= t) as Ht by (by destruct Hfc as [[? ?] _]).
  pose proof (Z.div_mod t 169) as Hdm. pose proof (mod_169 t) as Hm. pose proof (div_169 t Ht).
  assert (forall t', 0 <= t' < t -> exists p n, t' / 169 < x.(n_bot_lvl_nodes) /\
    l !! Z.to_nat (t' / 169) = Some p /\ s.(nodes) !! p = Some n /\ t' mod 169 < n.(n_cnodes)) as Hex.
  { intros t' Ht'. destruct (first_clear_exists s c x tb l t t' I Hfc Ht') as [f Hf].
    apply (cnode_bf_located s x l t' f (ci_bot _ _ _ _ _ I)) in Hf as (p & n & b & L & _); [|lia].
    destruct L as (_ & H1 & H2 & H3 & H4 & _). by exists p, n. }
  destruct (Z.lt_ge_cases (t / 169) x.(n_bot_lvl_nodes)) as [Hlt|Hge].
  - right. split; [done|]. intros p n Hp Hn.
    destruct (ci_node _ _ _ _ _ I (t / 169)) as (p0 & n0 & Hp0 & _ & Hn0 & Hok); [lia|]. simplify_eq.
    assert (n.(n_cnodes) <= t mod 169) as Hle.
    { apply Z.nlt_ge. intros Hlt'. unfold cnode_bf in Hnone. rewrite (ci_bot _ _ _ _ _ I) in Hnone.
      simpl in Hnone. rewrite (proj2 (Z.ltb_lt _ _) Hlt), Hp in Hnone. simpl in Hnone.
      rewrite Hn in Hnone. simpl in Hnone. rewrite (proj2 (Z.ltb_lt _ _) Hlt') in Hnone.
      destruct (lookup_lt_is_Some_2 n.(cnodes) (Z.to_nat (t mod 169))) as [b Hb];
        [rewrite (nd_len _ Hok); lia|]. by rewrite Hb in Hnone. }
    destruct (Z.eq_dec (t mod 169) 0) as [E0|]; [pose proof (nd_n _ Hok); lia|].
    destruct (Hex (t - 1)) as (p' & n' & _ & Hp' & Hn' & Hlt'); [lia|].
    assert ((t - 1) / 169 = t / 169) as Ed by (symmetry; apply (Z.div_unique_pos _ _ _ (t mod 169 - 1)); lia).
    assert ((t - 1) mod 169 = t mod 169 - 1) as Em by (symmetry; apply (Z.mod_unique_pos _ _ (t / 169)); lia).
    rewrite Ed in Hp'. rewrite Em in Hlt'. simplify_eq. lia.
  - left. destruct (Z.eq_dec (t / 169) 0) as [E0|].
    + assert (x.(n_bot_lvl_nodes) = 0) by (pose proof (ci_n _ _ _ _ _ I); lia).
      destruct (Z.eq_dec (t mod 169) 0); [lia|].
      destruct (Hex 0) as (_ & _ & Hlt' & _); [lia|]. change (0 / 169) with 0 in Hlt'. lia.
    + destruct (Hex (169 * (t / 169) - 1)) as (_ & _ & Hlt' & _); [lia|].
      assert ((169 * (t / 169) - 1) / 169 = t / 169 - 1) as Ed
        by (symmetry; apply (Z.div_unique_pos _ _ _ 168); lia).
      rewrite Ed in Hlt'. split; [lia|].
      destruct (Z.eq_dec (t mod 169) 0); [lia|].
      destruct (Hex (169 * (t / 169))) as (_ & _ & Hlt'' & _); [lia|].
      assert (169 * (t / 169) / 169 = t / 169) as Ed' by (symmetry; apply (Z.div_unique_pos _ _ _ 0); lia).
      lia.
Qed.

(** ** Adding a book-keeping node *)

Definition with_node (x : cspace_t) (l : list Z) (i p : Z) : cspace_t :=
  {| x with bot_lvl_nodes := Some (<[Z.to_nat i := p]> l); n_bot_lvl_nodes := i + 1 |}.

(** An empty node adds no cnode. *)
Lemma cnode_bf_with_node s c x tb l p n t :
  cs_inv s c x tb l -> n.(n_cnodes) = 0 -> s.(nodes) !! p = None ->
  x.(n_bot_lvl_nodes) < Z.of_nat (length l) -> 0 <= t ->
  cnode_bf (<[p := n]> s.(nodes)) (with_node x l x.(n_bot_lvl_nodes) p) t = cnode_bf s.(nodes) x t.
Proof.
  intros I Hn0 Hnew Hroom Ht. pose proof (ci_n _ _ _ _ _ I). pose proof (div_169 t Ht).
  unfold cnode_bf. rewrite (ci_bot _ _ _ _ _ I). simpl.
  destruct (Z.lt_trichotomy (t / 169) x.(n_bot_lvl_nodes)) as [Hlt|[Heq|Hgt]].
  - rewrite (proj2 (Z.ltb_lt _ _)), (proj2 (Z.ltb_lt _ _)) by lia.
    rewrite list_lookup_insert_ne by lia.
    destruct (ci_node _ _ _ _ _ I (t / 169)) as (q & m & Hq & _ & Hm & _); [lia|].
    rewrite Hq. simpl. rewrite lookup_insert_ne by congruence. done.
  - rewrite (proj2 (Z.ltb_lt _ _)), (proj2 (Z.ltb_ge _ _)) by lia.
    rewrite Heq, list_lookup_insert_eq by lia. simpl. rewrite lookup_insert_eq. simpl. rewrite Hn0.
    by rewrite (proj2 (Z.ltb_ge _ _)) by apply mod_169.
  - by rewrite !(proj2 (Z.ltb_ge _ _)) by lia.
Qed.

Lemma cs_inv_add_node s c x tb l p n :
  cs_inv s c x tb l -> node_ok n -> n.(n_cnodes) = 0 -> p <> 0 -> s.(nodes) !! p = None ->
  x.(n_bot_lvl_nodes) < Z.of_nat (length l) ->
  let x' := with_node x l x.(n_bot_lvl_nodes) p in
  cs_inv (upd s c x' p n) c x' tb (<[Z.to_nat x.(n_bot_lvl_nodes) := p]> l).
Proof.
  intros I Hok Hn0 Hp0 Hnew Hroom x'.
  assert (forall t, 0 <= t -> cnode_bf (upd s c x' p n).(nodes) x' t = cnode_bf s.(nodes) x t) as Hview.
  { intros t Ht. by apply (cnode_bf_with_node s c x tb). }
  destruct I as [Iat Iptr Itwo Itop Iwf Isz Islots Ismall Ibot In Icap Imark Inode Iinj Iavail Ifull]. split; try done; subst x'; cbn [with_node n_bot_lvl_nodes upd cspaces nodes] in *.
  - apply lookup_insert_eq.
  - rewrite length_insert. lia.
  - rewrite length_insert. lia.
  - intros i Hi. destruct (Z.eq_dec i x.(n_bot_lvl_nodes)) as [->|Hne].
    + exists p, n. rewrite list_lookup_insert_eq, lookup_insert_eq by lia. done.
    + destruct (Inode i) as (q & m & Hq & Hq0 & Hm & Hok'); [lia|]. exists q, m.
      rewrite list_lookup_insert_ne, lookup_insert_ne by (lia || congruence). done.
  - assert (forall i q, 0 <= i < x.(n_bot_lvl_nodes) -> l !! Z.to_nat i = Some q -> q <> p) as Hold.
    { intros i q Hi Hq ->. destruct (Inode i Hi) as (q' & m & Hq' & _ & Hm & _). congruence. }
    intros i j q Hi Hj Hli Hlj. destruct (Z.eq_dec i x.(n_bot_lvl_nodes)) as [->|Hni];
      destruct (Z.eq_dec j x.(n_bot_lvl_nodes)) as [->|Hnj]; [done| | |].
    + rewrite list_lookup_insert_eq in Hli by lia. rewrite list_lookup_insert_ne in Hlj by lia.
      exfalso. apply (Hold j q); [lia|done|congruence].
    + rewrite list_lookup_insert_ne in Hli by lia. rewrite list_lookup_insert_eq in Hlj by lia.
      exfalso. apply (Hold i q); [lia|done|congruence].
    + rewrite list_lookup_insert_ne in Hli by lia. rewrite list_lookup_insert_ne in Hlj by lia.
      apply (Iinj i j q); (lia || done).
  - intros t f Ht Hc Hf. rewrite Hview in Hf by lia. by apply (Iavail t).
  - intros t Ht Hset. rewrite Hview by lia. by apply Ifull.
Qed.

(** ** Adding a cnode to a node *)

Definition with_cnodes (n : bot_lvl_node_t) (i u k : Z) (b : bot_lvl_t) : bot_lvl_node_t :=
  {| n with n_cnodes := k; cnodes := <[Z.to_nat i := {| b with bl_untyped := u |}]> n.(cnodes) |}.

Lemma with_cnodes_bf n i u k b j :
  n.(cnodes) !! Z.to_nat i = Some b ->
  bf <$> (with_cnodes n i u k b).(cnodes) !! j = bf <$> n.(cnodes) !! j.
Proof.
  intros Hb. simpl. destruct (decide (j = Z.to_nat i)) as [->|Hne].
  - rewrite list_lookup_insert_eq by (by apply lookup_lt_Some in Hb). by rewrite Hb.
  - by rewrite list_lookup_insert_ne.
Qed.

Lemma with_cnodes_ok n i u k b :
  node_ok n -> n.(cnodes) !! Z.to_nat i = Some b -> n.(n_cnodes) <= k <= 169 ->
  node_ok (with_cnodes n i u k b).
Proof.
  intros [H1 H2 H3 H4] Hb Hk.
  assert (forall j b', (with_cnodes n i u k b).(cnodes) !! j = Some b' ->
    exists b0, n.(cnodes) !! j = Some b0 /\ b0.(bf) = b'.(bf)) as Hbf.
  { intros j b' Hj. pose proof (with_cnodes_bf n i u k b j Hb) as E0. rewrite Hj in E0. simpl in E0.
    destruct (n.(cnodes) !! j) as [b0|]; [|done]. injection E0 as E0. by exists b0. }
  split.
  - simpl. by rewrite length_insert.
  - simpl. lia.
  - intros j b' Hj. destruct (Hbf j b' Hj) as (b0 & Hb0 & <-). by apply (H3 j).
  - intros j b' Hk' Hj. destruct (Hbf j b' Hj) as (b0 & Hb0 & <-). apply (H4 j); [simpl in Hk'; lia | done].
Qed.

Lemma zero_bf_avail f : zero_bf f -> bf_avail f.
Proof. intros ->. split; [done|]. exists 0. done. Qed.

(** The view after node [p], number [i], got [k] cnodes. *)
Lemma cnode_bf_with_cnodes s c x tb l i p n u k b t :
  cs_inv s c x tb l -> 0 <= i < x.(n_bot_lvl_nodes) -> l !! Z.to_nat i = Some p ->
  s.(nodes) !! p = Some n -> n.(cnodes) !! Z.to_nat (n.(n_cnodes)) = Some b -> 0 <= t ->
  cnode_bf (<[p := with_cnodes n n.(n_cnodes) u k b]> s.(nodes)) x t =
  if t / 169 =? i then if t mod 169 <? k then bf <$> n.(cnodes) !! Z.to_nat (t mod 169) else None
  else cnode_bf s.(nodes) x t.
Proof.
  intros I Hi Hp Hn Hb Ht. pose proof (div_169 t Ht). unfold cnode_bf. rewrite (ci_bot _ _ _ _ _ I). simpl.
  destruct (Z.eqb_spec (t / 169) i) as [->|Hne].
  - rewrite (proj2 (Z.ltb_lt _ _)), Hp by lia. simpl. rewrite lookup_insert_eq. simpl.
    destruct (_ <? k); [|done]. by apply (with_cnodes_bf n n.(n_cnodes) u k).
  - destruct (Z.ltb_spec (t / 169) x.(n_bot_lvl_nodes)) as [Hlt|]; [|done].
    destruct (l !! Z.to_nat (t / 169)) as [q|] eqn:Hq; [|done]. simpl.
    rewrite lookup_insert_ne; [done|]. intros <-. apply Hne. by apply (ci_inj _ _ _ _ _ I _ _ p).
Qed.

Lemma cs_inv_with_cnodes s c x tb l i p n u k b :
  cs_inv s c x tb l -> 0 <= i < x.(n_bot_lvl_nodes) -> l !! Z.to_nat i = Some p ->
  s.(nodes) !! p = Some n -> n.(cnodes) !! Z.to_nat n.(n_cnodes) = Some b ->
  n.(n_cnodes) <= k <= 169 -> cs_inv (set_node s p (with_cnodes n n.(n_cnodes) u k b)) c x tb l.
Proof.
  intros I Hi Hp Hn Hb Hk.
  assert (node_ok n) as Hok.
  { destruct (ci_node _ _ _ _ _ I i Hi) as (p' & n' & Hp' & _ & Hn' & Hok). by simplify_eq. }
  assert (forall t, 0 <= t -> cnode_bf (set_node s p (with_cnodes n n.(n_cnodes) u k b)).(nodes) x t =
    if t / 169 =? i then if t mod 169 <? k then bf <$> n.(cnodes) !! Z.to_nat (t mod 169) else None
    else cnode_bf s.(nodes) x t) as Hview.
  { intros t Ht. by apply (cnode_bf_with_cnodes s c x tb l). }
  assert (forall t, 0 <= t -> t / 169 = i -> t mod 169 < n.(n_cnodes) ->
    cnode_bf s.(nodes) x t = bf <$> n.(cnodes) !! Z.to_nat (t mod 169)) as Hold.
  { intros t Ht Ed Em. unfold cnode_bf. rewrite (ci_bot _ _ _ _ _ I). simpl.
    rewrite Ed, (proj2 (Z.ltb_lt _ _)), Hp by lia. simpl. rewrite Hn. simpl.
    by rewrite (proj2 (Z.ltb_lt _ _) Em). }
  destruct I as [Iat Iptr Itwo Itop Iwf Isz Islots Ismall Ibot In Icap Imark Inode Iinj Iavail Ifull]. split; try done.
  - intros j Hj. destruct (Inode j Hj) as (q & m & Hq & Hq0 & Hm & Hok').
    destruct (Z.eq_dec q p) as [->|Hne]; simpl.
    + exists p, (with_cnodes n n.(n_cnodes) u k b). rewrite lookup_insert_eq.
      split; [done|]. split; [done|]. split; [done|]. by apply with_cnodes_ok.
    + exists q, m. by rewrite lookup_insert_ne.
  - intros t f Ht Hc Hf. rewrite Hview in Hf by lia.
    destruct (Z.eqb_spec (t / 169) i) as [Ed|]; [|by apply (Iavail t)].
    destruct (Z.ltb_spec (t mod 169) k); [|done].
    destruct (n.(cnodes) !! Z.to_nat (t mod 169)) as [b'|] eqn:Hb'; [|done]. injection Hf as <-.
    destruct (Z.lt_ge_cases (t mod 169) n.(n_cnodes)) as [Hlt|Hge].
    + apply (Iavail t); [done|done|]. rewrite Hold by (lia || done). by rewrite Hb'.
    + apply zero_bf_avail. apply (nd_rest _ Hok _ _) in Hb'; [done|]. pose proof (mod_169 t). lia.
  - intros t Ht Hset. rewrite Hview by lia. pose proof (Ifull t Ht Hset) as Hex.
    destruct (Z.eqb_spec (t / 169) i) as [Ed|]; [|done].
    destruct (Z.lt_ge_cases (t mod 169) n.(n_cnodes)) as [Hlt|Hge].
    + rewrite (proj2 (Z.ltb_lt _ _)) by lia. by rewrite Hold in Hex by (lia || done).
    + exfalso. unfold cnode_bf in Hex. rewrite Ibot in Hex. simpl in Hex.
      rewrite Ed, (proj2 (Z.ltb_lt _ _)), Hp in Hex by lia. simpl in Hex. rewrite Hn in Hex. simpl in Hex.
      rewrite (proj2 (Z.ltb_ge _ _)) in Hex by lia. by destruct Hex.
Qed.

(** ** [ensure_levels] *)

Definition with_ptr (x : cspace_t) (l : list Z) (i p : Z) : cspace_t :=
  {| x with bot_lvl_nodes := Some (<[Z.to_nat i := p]> l) |}.

(** A pointer beyond the nodes in use does not matter. *)
Lemma cnode_bf_with_ptr nds x l i p t :
  x.(bot_lvl_nodes) = Some l -> x.(n_bot_lvl_nodes) <= i -> 0 <= t ->
  cnode_bf nds (with_ptr x l i p) t = cnode_bf nds x t.
Proof.
  intros Hl Hi Ht. pose proof (div_169 t Ht). unfold cnode_bf. rewrite Hl. simpl.
  destruct (Z.ltb_spec (t / 169) x.(n_bot_lvl_nodes)); [|done].
  by rewrite list_lookup_insert_ne by lia.
Qed.

Lemma cs_inv_with_ptr s c x tb l i p :
  cs_inv s c x tb l -> x.(n_bot_lvl_nodes) <= i ->
  cs_inv (set_cs s c (with_ptr x l i p)) c (with_ptr x l i p) tb (<[Z.to_nat i := p]> l).
Proof.
  intros I Hi. assert (forall t, 0 <= t -> cnode_bf s.(nodes) (with_ptr x l i p) t = cnode_bf s.(nodes) x t) as Hview.
  { intros t Ht. apply cnode_bf_with_ptr; [apply (ci_bot _ _ _ _ _ I)|done|done]. }
  destruct I as [Iat Iptr Itwo Itop Iwf Isz Islots Ismall Ibot In Icap Imark Inode Iinj Iavail Ifull].
  split; try done; cbn [with_ptr n_bot_lvl_nodes set_cs cspaces nodes] in *.
  - apply lookup_insert_eq.
  - by rewrite length_insert.
  - by rewrite length_insert.
  - intros j Hj. rewrite list_lookup_insert_ne by lia. by apply Inode.
  - intros j k q Hj Hk. rewrite !list_lookup_insert_ne by lia. by apply Iinj.
  - intros t f Ht Hc. rewrite Hview by lia. by apply Iavail.
  - intros t Ht Hset. rewrite Hview by lia. by apply Ifull.
Qed.

Lemma set_bot_lvl_node_run s c x tb l i p :
  cs_inv s c x tb l -> 0 <= i < Z.of_nat (length l) ->
  set_bot_lvl_node c i p s = Ok tt (set_cs s c (with_ptr x l i p)).
Proof.
  intros I Hi. unfold set_bot_lvl_node.
  rewrite (bind_run _ _ _ _ _ (cspace_get_run _ _ _ (ci_at _ _ _ _ _ I))).
  rewrite (deref_bind _ _ _ _ (ci_bot _ _ _ _ _ I)).
  destruct (lookup_lt_is_Some_2 l (Z.to_nat i)) as [q Hq]; [lia|].
  rewrite (bind_run _ _ _ _ _ (index_run l i q s (proj1 Hi) Hq)).
  apply (cspace_put_run _ _ _ _ (ci_at _ _ _ _ _ I)).
Qed.

Definition new_node (u f : Z) : bot_lvl_node_t := {| zero_node with bn_untyped := u; bn_frame := f |}.

Lemma new_node_ok u f : node_ok (new_node u f).
Proof.
  unfold new_node, zero_node. split; cbn [cnodes n_cnodes];
    [apply length_replicate | lia | intros i b Hb | intros i b _ Hb];
    apply lookup_replicate_1 in Hb as [-> _]; [|done].
  split; [done|]. by repeat constructor.
Qed.

Lemma init_bot_lvl_node_run s c x tb l p u f :
  cs_inv s c x tb l -> x.(n_bot_lvl_nodes) < Z.of_nat (length l) -> p <> 0 ->
  init_bot_lvl_node c x.(n_bot_lvl_nodes) u f (set_cs s c (with_ptr x l x.(n_bot_lvl_nodes) p)) =
  Ok tt (upd s c (with_node x l x.(n_bot_lvl_nodes) p) p (new_node u f)).
Proof.
  intros I Hroom Hp. pose proof (ci_n _ _ _ _ _ I). set (i := x.(n_bot_lvl_nodes)) in *.
  set (s1 := set_cs s c (with_ptr x l i p)).
  assert (s1.(cspaces) !! c = Some (with_ptr x l i p)) as H1 by apply lookup_insert_eq.
  unfold init_bot_lvl_node.
  rewrite (bind_run _ _ _ _ _ (bot_lvl_node_ptr_run s1 c _ (<[Z.to_nat i := p]> l) i p H1 eq_refl
    (proj1 H) (list_lookup_insert_eq l (Z.to_nat i) p ltac:(lia)))).
  rewrite access_bind by (by rewrite (proj2 (Z.eqb_neq p 0) Hp)). rewrite modify_bind.
  set (s2 := {| s1 with nodes := _ |}).
  assert (s2.(cspaces) !! c = Some (with_ptr x l i p)) as H2 by apply lookup_insert_eq.
  rewrite (bind_run _ _ _ _ _ (cspace_get_run s2 _ _ H2)).
  rewrite (bind_run _ _ _ _ _ (cspace_put_run s2 c _ _ H2)).
  match goal with |- mbind _ _ ?s0 = _ => set (s3 := s0) end.
  assert (s3.(nodes) !! p = Some zero_node) as H3 by apply lookup_insert_eq.
  rewrite (bind_run _ _ _ _ _ (node_get_run s3 p _ H3)).
  rewrite (node_put_run s3 p _ _ H3). f_equal. unfold s3, s2, s1, upd, set_node, set_cs, with_node, with_ptr. simpl.
  by rewrite !insert_insert_eq.
Qed.

Lemma ensure_node_spec s c x tb l used ok used' s' :
  cs_inv s c x tb l -> x.(n_bot_lvl_nodes) < Z.of_nat (length l) -> nodes_below s -> page_room s ->
  ensure_node c x.(n_bot_lvl_nodes) used s = Ok (ok, used') s' ->
  exists x' l', cs_inv s' c x' tb l' /\
    (forall t, 0 <= t -> cnode_bf s'.(nodes) x' t = cnode_bf s.(nodes) x t) /\
    (ok = true -> x'.(n_bot_lvl_nodes) = x.(n_bot_lvl_nodes) + 1).
Proof.
  intros I Hroom Hbelow Hpage Hrun. unfold ensure_node in Hrun. pose proof (ci_n _ _ _ _ _ I) as Hn.
  apply bind_Ok in Hrun as (x0 & s0 & H0 & Hrun). apply cspace_get_inv in H0 as [-> Hx0].
  assert (x0 = x) as -> by (rewrite (ci_at _ _ _ _ _ I) in Hx0; congruence).
  apply bind_Ok in Hrun as (frame & s0 & H0 & Hrun).
  assert (s0 = s) as -> by (unfold index in H0; run_inv H0; done).
  apply bind_Ok in Hrun as (u & s1 & H1 & Hrun). apply keeps_retype_helper in H1 as (K1 & K2 & K3).
  assert (cs_inv s1 c x tb l) as I1 by (by apply (cs_inv_keeps s)).
  destruct (Z.eqb_spec u 0) as [->|Hu].
  { run_inv Hrun. exists x, l. split; [done|]. rewrite K2. done. }
  apply bind_Ok in Hrun as (x1 & s2 & H2 & Hrun). apply cspace_get_inv in H2 as [-> Hx1].
  assert (x1 = x) as -> by (rewrite (ci_at _ _ _ _ _ I1) in Hx1; congruence).
  apply bind_Ok in Hrun as ([p used2] & s2 & H2 & Hrun). unfold cs_map_frame in H2. run_inv H2.
  apply cspace_get_inv in Hrun0 as [-> _].
  apply law_map in H2 as (K4 & K5 & Hfresh). rewrite K3 in Hfresh.
  assert (cs_inv s2 c x tb l) as I2 by (by apply (cs_inv_keeps s1)).
  rewrite (bind_run _ _ _ _ _ (set_bot_lvl_node_run s2 c x tb l _ p I2 (conj (proj1 Hn) Hroom))) in Hrun.
  destruct (Z.eqb_spec p 0) as [->|Hp].
  - apply bind_Ok in Hrun as (r & s3 & H3 & Hrun). apply keeps_delete in H3 as (K6 & K7 & _).
    apply bind_Ok in Hrun as ([] & s4 & H4 & Hrun). apply keeps_free_4k in H4 as (K8 & K9 & _).
    run_inv Hrun. eexists _, _. split.
    + apply (cs_inv_keeps (set_cs s2 c (with_ptr x l x.(n_bot_lvl_nodes) 0))); [congruence|congruence|].
      apply cs_inv_with_ptr; [done|lia].
    + split; [|done]. intros t Ht. rewrite K9, K7. cbn [set_cs nodes]. rewrite K5, K2.
      apply cnode_bf_with_ptr; [apply (ci_bot _ _ _ _ _ I) | lia | done].
  - assert (s2.(nodes) !! p = None) as Hnew.
    { destruct (s2.(nodes) !! p) as [n|] eqn:En; [|done]. rewrite K5, K2 in En.
      specialize (Hbelow p n En). specialize (Hfresh Hp Hpage). lia. }
    rewrite (bind_run _ _ _ _ _ (init_bot_lvl_node_run s2 c x tb l p u frame I2 Hroom Hp)) in Hrun.
    run_inv Hrun. eexists _, _. split.
    + apply cs_inv_add_node; try done. apply new_node_ok.
    + split; [|done]. intros t Ht. cbn [upd nodes]. rewrite <- K2, <- K5.
      by apply (cnode_bf_with_node s2 c x tb).
Qed.

Lemma node_get_inv p s n s' : node_get p s = Ok n s' -> s' = s /\ s.(nodes) !! p = Some n.
Proof. intros H. unfold node_get in H. run_inv H. done. Qed.

(** The node a missing cnode goes to, with the cnode's entry. *)
Record next_cnode s (x : cspace_t) (l : list Z) (t p : Z) (n : bot_lvl_node_t) (b : bot_lvl_t) : Prop :=
  mk_next_cnode {
  nc_pos : 0 <= t;
  nc_node : t / 169 < x.(n_bot_lvl_nodes);
  nc_ptr : l !! Z.to_nat (t / 169) = Some p;
  nc_at : s.(nodes) !! p = Some n;
  nc_ok : node_ok n;
  nc_n : n.(n_cnodes) = t mod 169;
  nc_entry : n.(cnodes) !! Z.to_nat n.(n_cnodes) = Some b }.

Lemma next_cnode_entry s x l t p n b : next_cnode s x l t p n b -> zero_bf b.(bf).
Proof.
  intros N. pose proof (nd_n _ (nc_ok _ _ _ _ _ _ _ N)).
  apply (nd_rest _ (nc_ok _ _ _ _ _ _ _ N) (Z.to_nat n.(n_cnodes))); [lia|].
  apply (nc_entry _ _ _ _ _ _ _ N).
Qed.

Lemma view_same s c x tb l t p n b u t' :
  cs_inv s c x tb l -> next_cnode s x l t p n b -> 0 <= t' ->
  cnode_bf (<[p := with_cnodes n n.(n_cnodes) u n.(n_cnodes) b]> s.(nodes)) x t' = cnode_bf s.(nodes) x t'.
Proof.
  intros I [H1 H2 H3 H4 H5 H6 H7] Ht'. pose proof (div_169 t H1).
  rewrite (cnode_bf_with_cnodes s c x tb l (t / 169)) by (lia || done).
  destruct (Z.eqb_spec (t' / 169) (t / 169)) as [Ed|]; [|done].
  unfold cnode_bf. rewrite (ci_bot _ _ _ _ _ I). simpl.
  rewrite Ed, (proj2 (Z.ltb_lt _ _) H2), H3. simpl. by rewrite H4.
Qed.

Lemma view_next s c x tb l t p n b u t' :
  cs_inv s c x tb l -> next_cnode s x l t p n b -> 0 <= t' ->
  cnode_bf (<[p := with_cnodes n n.(n_cnodes) u (n.(n_cnodes) + 1) b]> s.(nodes)) x t' =
  if t' =? t then Some b.(bf) else cnode_bf s.(nodes) x t'.
Proof.
  intros I [H1 H2 H3 H4 H5 H6 H7] Ht'. pose proof (div_169 t H1). pose proof (mod_169 t').
  rewrite (cnode_bf_with_cnodes s c x tb l (t / 169)) by (lia || done).
  destruct (Z.eqb_spec t' t) as [->|Hne].
  - rewrite Z.eqb_refl, (proj2 (Z.ltb_lt _ _)), <- H6 by lia. by rewrite H7.
  - destruct (Z.eqb_spec (t' / 169) (t / 169)) as [Ed|]; [|done].
    assert (t' mod 169 <> t mod 169) by (destruct (cnode_neq t' t Hne); lia).
    unfold cnode_bf. rewrite (ci_bot _ _ _ _ _ I). simpl.
    rewrite Ed, (proj2 (Z.ltb_lt _ _) H2), H3. simpl. rewrite H4. simpl.
    destruct (Z.ltb_spec (t' mod 169) (n.(n_cnodes) + 1)), (Z.ltb_spec (t' mod 169) n.(n_cnodes)); (lia || done).
Qed.

Lemma next_cnode_keeps s s' x l t p n b :
  s'.(nodes) = s.(nodes) -> next_cnode s x l t p n b -> next_cnode s' x l t p n b.
Proof. intros E0 [ ]. split; rewrite ?E0; done. Qed.

(** The state after the entry got its untyped, and after it was counted. *)
Definition cnode_noted s p n u b : sos E := set_node s p (with_cnodes n n.(n_cnodes) u n.(n_cnodes) b).

(** The cnode that is missing in an existing node. *)
Lemma ensure_cnode_spec s c x tb l t p n b ok s' :
  cs_inv s c x tb l -> next_cnode s x l t p n b ->
  ensure_cnode c (slot_of t 0) (t / 169) s = Ok ok s' ->
  cs_inv s' c x tb l /\
  (forall t', 0 <= t' -> t' <> t -> cnode_bf s'.(nodes) x t' = cnode_bf s.(nodes) x t') /\
  (if ok then cnode_bf s'.(nodes) x t = Some b.(bf)
   else cnode_bf s'.(nodes) x t = cnode_bf s.(nodes) x t).
Proof.
  intros I N Hrun. pose proof N as [Ht Hlt Hp Hn Hok Hcn Hb].
  pose proof (div_169 t Ht). pose proof (mod_169 t) as Hm.
  destruct (ci_node _ _ _ _ _ I (t / 169)) as (p' & n' & Hp' & Hp0 & _); [lia|].
  assert (p' = p) as -> by congruence. clear Hp'.
  unfold ensure_cnode in Hrun. rewrite CNODE_INDEX_slot in Hrun by lia.
  rewrite (bind_run _ _ _ _ _ (bot_lvl_node_ptr_run s c x l _ p (ci_at _ _ _ _ _ I) (ci_bot _ _ _ _ _ I) (div_169 t Ht) Hp)) in Hrun.
  rewrite assert_bind in Hrun by (by rewrite (proj2 (Z.eqb_neq p 0) Hp0)).
  rewrite (bind_run _ _ _ _ _ (node_get_run s p n Hn)) in Hrun.
  rewrite <- Hcn, (proj2 (Z.leb_le _ _)) in Hrun by lia.
  apply bind_Ok in Hrun as ([u q] & s1 & H1 & Hrun). apply keeps_alloc_4k in H1 as (K1 & K2 & _).
  apply (cs_inv_keeps s s1) in I; [|done|done]. apply (next_cnode_keeps s s1) in N; [|done].
  rewrite (bind_run _ _ _ _ _ (node_get_run s1 p n (nc_at _ _ _ _ _ _ _ N))) in Hrun.
  rewrite (bind_run _ _ _ _ _ (index_run n.(cnodes) _ b s1 (proj1 (nd_n _ Hok)) Hb)) in Hrun.
  rewrite (bind_run _ _ _ _ _ (node_put_run s1 p n _ (nc_at _ _ _ _ _ _ _ N))) in Hrun.
  change (set_node s1 p _) with (cnode_noted s1 p n u b) in Hrun. rewrite <- K2. clear K1 K2 Hn s.
  set (s2 := cnode_noted s1 p n u b) in *.
  assert (cs_inv s2 c x tb l) as I2.
  { apply (cs_inv_with_cnodes s1 c x tb l (t / 169)); try done; [apply (nc_at _ _ _ _ _ _ _ N) | lia]. }
  assert (forall t', 0 <= t' -> cnode_bf s2.(nodes) x t' = cnode_bf s1.(nodes) x t') as Hs2.
  { intros t' Ht'. by apply (view_same s1 c x tb l t). }
  destruct (Z.eqb_spec u 0) as [->|Hu].
  { run_inv Hrun. split; [done|]. split; [intros; by apply Hs2 | by apply Hs2]. }
  rewrite (bind_run _ _ _ _ _ (cspace_get_run s2 c x (ci_at _ _ _ _ _ I2))) in Hrun.
  apply bind_Ok in Hrun as (err & s3 & H3 & Hrun). apply keeps_call in H3 as (K3 & K4 & _).
  destruct (nz err).
  - apply bind_Ok in Hrun as ([] & s4 & H4 & Hrun). apply keeps_free_4k in H4 as (K5 & K6 & _).
    run_inv Hrun. split; [apply (cs_inv_keeps s2); congruence|]. rewrite K6, K4.
    split; [intros; by apply Hs2 | by apply Hs2].
  - assert (s3.(nodes) !! p = Some (with_cnodes n n.(n_cnodes) u n.(n_cnodes) b)) as Hn3.
    { rewrite K4. apply lookup_insert_eq. }
    rewrite (bind_run _ _ _ _ _ (node_get_run s3 p _ Hn3)) in Hrun.
    rewrite (bind_run _ _ _ _ _ (node_put_run s3 p _ _ Hn3)) in Hrun. run_inv Hrun.
    set (s4 := set_node s1 p (with_cnodes n n.(n_cnodes) u (n.(n_cnodes) + 1) b)).
    assert (cs_inv s4 c x tb l) as I4.
    { apply (cs_inv_with_cnodes s1 c x tb l (t / 169)); try done; [apply (nc_at _ _ _ _ _ _ _ N) | lia]. }
    match goal with |- cs_inv ?s' _ _ _ _ /\ _ => assert (s'.(nodes) = s4.(nodes) /\ s'.(cspaces) = s4.(cspaces)) as [E4 E5] end.
    { cbn [set_node nodes cspaces]. rewrite K3, K4. cbn [s2 cnode_noted set_node nodes cspaces].
      by rewrite insert_insert_eq. }
    split; [by apply (cs_inv_keeps s4)|]. rewrite E4. split.
    + intros t' Ht' Hne. cbn [s4 set_node nodes]. rewrite (view_next s1 c x tb l t) by done.
      by rewrite (proj2 (Z.eqb_neq _ _) Hne).
    + cbn [s4 set_node nodes]. rewrite (view_next s1 c x tb l t) by done. by rewrite Z.eqb_refl.
Qed.

Lemma next_cnode_of s c x tb l t :
  cs_inv s c x tb l -> first_clear tb t -> cnode_bf s.(nodes) x t = None ->
  t / 169 < x.(n_bot_lvl_nodes) -> exists p n b, next_cnode s x l t p n b.
Proof.
  intros I Hfc Hnone Hlt. assert (0 <= t) as Ht by (by destruct Hfc as [[? ?] _]).
  pose proof (div_169 t Ht). pose proof (mod_169 t).
  destruct (ci_node _ _ _ _ _ I (t / 169)) as (p & n & Hp & _ & Hn & Hok); [lia|].
  destruct (missing_position s c x tb l t I Hfc Hnone) as [[? ?]|[_ Hcn]]; [lia|].
  specialize (Hcn p n Hp Hn).
  destruct (lookup_lt_is_Some_2 n.(cnodes) (Z.to_nat n.(n_cnodes))) as [b Hb];
    [rewrite (nd_len _ Hok); lia|].
  by exists p, n, b.
Qed.

(** [ensure_levels] on a missing cnode: on success the cnode is there and
    empty, and whatever it returns the other cnodes are as they were. *)
Lemma ensure_levels_spec s c x tb l t used0 ok used s' :
  cs_inv s c x tb l -> first_clear tb t -> cnode_bf s.(nodes) x t = None ->
  nodes_below s -> page_room s ->
  ensure_levels c (slot_of t 0) used0 s = Ok (ok, used) s' ->
  exists x' l', cs_inv s' c x' tb l' /\
    (forall t', 0 <= t' -> t' <> t -> cnode_bf s'.(nodes) x' t' = cnode_bf s.(nodes) x t') /\
    (if ok then exists f, cnode_bf s'.(nodes) x' t = Some f /\ zero_bf f
     else cnode_bf s'.(nodes) x' t = None).
Proof.
  intros I Hfc Hnone Hbelow Hpage Hrun. pose proof Hfc as ((Ht & Ht') & _).
  unfold ensure_levels in Hrun. rewrite NODE_INDEX_slot in Hrun by lia.
  rewrite (bind_run _ _ _ _ _ (cspace_get_run s c x (ci_at _ _ _ _ _ I))) in Hrun.
  rewrite (ci_two _ _ _ _ _ I) in Hrun. cbn [negb] in Hrun. cbv zeta in Hrun.
  destruct (_ <=? t / 169) in Hrun; [run_inv Hrun; exists x, l; done|].
  apply bind_Ok in Hrun as ([ok1 used1] & s1 & H1 & Hrun).
  assert (exists x1 l1, cs_inv s1 c x1 tb l1 /\
    (forall t', 0 <= t' -> cnode_bf s1.(nodes) x1 t' = cnode_bf s.(nodes) x t') /\
    (ok1 = true -> t / 169 < x1.(n_bot_lvl_nodes))) as (x1 & l1 & I1 & V1 & Hn1).
  { destruct (missing_position s c x tb l t I Hfc Hnone) as [[Ed _]|[Hlt _]].
    - rewrite Ed, Z.leb_refl in H1.
      apply (ensure_node_spec s c x tb l) in H1 as (x1 & l1 & I1 & V1 & Hn1); try done.
      + exists x1, l1. split; [done|]. split; [done|]. intros ->. specialize (Hn1 eq_refl). lia.
      + pose proof (ci_cap _ _ _ _ _ I). rewrite <- Ed. apply Z.div_lt_upper_bound; lia.
    - rewrite (proj2 (Z.leb_gt _ _) Hlt) in H1. run_inv H1. exists x, l. done. }
  destruct ok1; cbn [negb] in Hrun; [|run_inv Hrun; exists x1, l1; split; [done|]; split; [auto|]; by rewrite V1].
  apply bind_Ok in Hrun as (ok2 & s2 & H2 & Hrun). run_inv Hrun.
  assert (cnode_bf s1.(nodes) x1 t = None) as Hnone1 by (by rewrite V1).
  destruct (next_cnode_of s1 c x1 tb l1 t I1 Hfc Hnone1 (Hn1 eq_refl)) as (p & n & b & N).
  destruct (ensure_cnode_spec s1 c x1 tb l1 t p n b _ _ I1 N H2) as (I2 & V2 & Hok).
  exists x1, l1. split; [done|]. split; [intros t'' ? ?; rewrite V2 by done; by apply V1|].
  destruct ok2; [|by rewrite Hok]. exists b.(bf). split; [done|]. by apply (next_cnode_entry s1 x1 l1 t p n b).
Qed.

(** ** The whole allocation *)

Lemma refill_none (a : Z -> M (sos E) Z) c : refill_watermark a c 0 = mret tt.
Proof. done. Qed.

(** After [ensure_levels] the slot comes from the new cnode, which keeps slots
    to give. *)
Lemma take_from_new s c x tb l t f :
  cs_inv s c x tb l -> first_clear tb t -> cnode_bf s.(nodes) x t = Some f -> zero_bf f ->
  exists j s' f', take_bot_slot c (slot_of t 0) t s = Ok (slot_of t j) s' /\ 0 <= j < 127 /\
    cs_inv s' c x tb l /\ cnode_bf s'.(nodes) x t = Some f' /\ bf_test f' j = true /\
    (forall t', 0 <= t' -> t' <> t -> cnode_bf s'.(nodes) x t' = cnode_bf s.(nodes) x t').
Proof.
  intros I Hfc Hf Hz. pose proof Hfc as (Hr & _). pose proof Hr as (Ht & _).
  pose proof Hf as (p & n & b & L & Hb)%(cnode_bf_located s x l t f (ci_bot _ _ _ _ _ I) Ht).
  destruct (take_bot_slot_run s c x tb l t p n b I L Hr) as (j & tb' & g & Hrun & I' & Hj & _ & Htest & _ & Htb);
    [rewrite Hb; by apply zero_bf_avail|].
  assert (tb' = tb) as ->.
  { destruct Htb as [|Hall]; [done|]. exfalso. rewrite Hb, Hz in Htest.
    set (i := if j =? 0 then 1 else 0).
    assert (0 <= i < 127 /\ i <> j) as [Hi Hij] by (subst i; destruct (Z.eqb_spec j 0); lia).
    specialize (Hall i Hi). rewrite Htest, (proj2 (Z.eqb_neq i j) Hij) in Hall by lia.
    subst i. by destruct (j =? 0). }
  rewrite with_top_same in Hrun, I' by apply (ci_top _ _ _ _ _ I).
  eexists j, _, g. split; [exact Hrun|]. split; [done|]. split; [exact I'|]. cbn [upd nodes].
  split; [|split].
  - rewrite (cnode_bf_set s c x tb l t) by done. by rewrite Z.eqb_refl.
  - rewrite Htest by lia. by rewrite Z.eqb_refl.
  - intros t' Ht' Hne. rewrite (cnode_bf_set s c x tb l t) by done. by rewrite (proj2 (Z.eqb_neq _ _) Hne).
Qed.

Lemma slot_used_view s s' c x x' q :
  s.(cspaces) !! c = Some x -> s'.(cspaces) !! c = Some x' ->
  cnode_bf s'.(nodes) x' (q / 128) = cnode_bf s.(nodes) x (q / 128) -> slot_used s' c q = slot_used s c q.
Proof. unfold slot_used. by intros -> -> ->. Qed.

Definition with_mark (x : cspace_t) (w : list Z) : cspace_t := {| x with watermark := w |}.

Lemma cs_inv_watermark s c x tb l w :
  cs_inv s c x tb l -> length w = 4%nat ->
  cs_inv (set_cs s c (with_mark x w)) c (with_mark x w) tb l.
Proof.
  intros [Iat Iptr Itwo Itop Iwf Isz Islots Ismall Ibot In Icap Imark Inode Iinj Iavail Ifull] Hw.
  split; try done. apply lookup_insert_eq.
Qed.

(** Refilling the watermark from a cnode that exists: at most one more slot
    becomes used, and the fuel left does not matter. *)
Lemma refill_run s c x tb l t f used :
  cs_inv s c x tb l -> first_clear tb t -> cnode_bf s.(nodes) x t = Some f ->
  exists s' x' tb', (forall fuel, refill_watermark (alloc_slot (S fuel)) c used s = Ok tt s') /\
    cs_inv s' c x' tb' l /\ forall q, 0 <= q -> slot_used s c q = true -> slot_used s' c q = true.
Proof.
  intros I Hfc Hf. unfold refill_watermark. destruct (first_used used) as [i|]; [|by exists s, x, tb].
  destruct (alloc_slot_present s c x tb l t f I Hfc Hf)
    as (p & n & b & j & tb' & g & L & Hb & Hrun & I' & Hj & _ & Htest).
  set (s1 := upd s c (with_top x tb') p (set_bf n (t mod 169) b g)) in *.
  set (w := <[Z.to_nat i := slot_of t j]> (with_top x tb').(watermark)).
  exists (set_cs s1 c (with_mark (with_top x tb') w)), (with_mark (with_top x tb') w), tb'.
  split; [|split].
  - intros fuel. rewrite (bind_run _ _ _ _ _ (Hrun fuel)).
    rewrite (bind_run _ _ _ _ _ (cspace_get_run s1 c _ (ci_at _ _ _ _ _ I'))).
    by rewrite (cspace_put_run s1 c _ _ (ci_at _ _ _ _ _ I')).
  - apply cs_inv_watermark; [done|]. unfold w. rewrite length_insert. apply (ci_mark _ _ _ _ _ I).
  - intros q Hq Hu. assert (slot_used s1 c q = true) as Hu1.
    { unfold s1. rewrite (slot_used_take s c x tb l t p n b g tb' j) by (done || lia || by rewrite Hb).
      rewrite Hu. apply Bool.orb_true_r. }
    rewrite <- Hu1. apply (slot_used_view s1 _ c (with_top x tb') (with_mark (with_top x tb') w));
      [apply (ci_at _ _ _ _ _ I') | apply lookup_insert_eq | done].
Qed.

Lemma alloc_slot_full fuel s c x tb l :
  cs_inv s c x tb l -> bf_full tb -> alloc_slot (S fuel) c s = Stuck Segv.
Proof.
  intros I Hfull. cbn [alloc_slot]. rewrite (proj2 (Z.eqb_neq c 0) (ci_ptr _ _ _ _ _ I)).
  rewrite assert_bind by done. rewrite (bind_run _ _ _ _ _ (cspace_get_run _ _ _ (ci_at _ _ _ _ _ I))).
  apply bind_stuck. unfold on_top_bf. rewrite (bind_run _ _ _ _ _ (cspace_get_run _ _ _ (ci_at _ _ _ _ _ I))).
  rewrite (deref_bind _ _ _ _ (ci_top _ _ _ _ _ I)), (ci_size _ _ _ _ _ I).
  apply bind_stuck. unfold on_bf. by rewrite bf_first_free_full.
Qed.

Lemma first_clear_or_full tb : bf_wf tb -> bf_full tb \/ exists t, first_clear tb t.
Proof.
  intros Hwf. destruct (decide (bf_full tb)) as [|Hnf]; [by left|]. right.
  destruct (bf_first_free_spec tb Hwf Hnf) as (t & _ & H1 & H2 & H3). by exists t.
Qed.

(** What a call that returns has done. *)
Definition alloc_post s c slot s' : Prop :=
  (exists x' tb' l', cs_inv s' c x' tb' l') /\
  (slot <> seL4_CapNull -> slot_used s c slot = false /\ slot_used s' c slot = true) /\
  (forall q, 0 <= q -> slot_used s c q = true -> slot_used s' c q = true).

(** The growth case, for every amount of fuel that allows one refill. *)
Lemma alloc_slot_missing s c x tb l t :
  cs_inv s c x tb l -> first_clear tb t -> cnode_bf s.(nodes) x t = None ->
  nodes_below s -> page_room s ->
  exists r, (forall fuel, alloc_slot (S (S fuel)) c s = r) /\
    match r with Ok slot s' => alloc_post s c slot s' | Stuck e => e <> NoFuel end.
Proof.
  intros I Hfc Hnone Hbelow Hpage. assert (0 <= t) as Ht by (by destruct Hfc as [[? ?] _]).
  assert (forall fuel, alloc_slot (S (S fuel)) c s =
    (r ← ensure_levels c (slot_of t 0) 0;
     let '(ok, used) := r in
     if negb ok then mret seL4_CapNull
     else slot ← take_bot_slot c (slot_of t 0) t;
          refill_watermark (alloc_slot (S fuel)) c used;; mret slot) s) as Hunf.
  { intros fuel. rewrite (alloc_slot_choose _ s c x tb l t I Hfc).
    rewrite (bind_run _ _ _ _ _ (levels_missing_run s c x tb l t I Ht)).
    by rewrite bool_decide_true by done. }
  destruct (ensure_levels c (slot_of t 0) 0 s) as [[ok used] s1|e] eqn:Hens.
  2:{ exists (Stuck e). split; [intros fuel; rewrite Hunf; by apply bind_stuck|].
      intros ->. by apply (fuel_ensure_levels c (slot_of t 0) 0 s). }
  destruct (ensure_levels_spec s c x tb l t 0 ok used s1 I Hfc Hnone Hbelow Hpage Hens)
    as (x1 & l1 & I1 & V1 & Hok).
  assert (forall q, 0 <= q -> slot_used s c q = true -> slot_used s1 c q = true) as Hmono.
  { intros q Hq Hu. rewrite <- Hu. apply (slot_used_view s s1 c x x1);
      [apply (ci_at _ _ _ _ _ I) | apply (ci_at _ _ _ _ _ I1) |].
    apply V1; [apply Z.div_pos; lia|]. intros Et. unfold slot_used in Hu.
    by rewrite (ci_at _ _ _ _ _ I), Et, Hnone in Hu. }
  destruct ok; cbn [negb] in *.
  2:{ exists (Ok seL4_CapNull s1). split; [intros fuel; by rewrite Hunf, (bind_run _ _ _ _ _ Hens)|].
      split; [by eauto|]. split; [done|]. done. }
  destruct Hok as (f & Hf & Hz).
  destruct (take_from_new s1 c x1 tb l1 t f I1 Hfc Hf Hz) as (j & s2 & f' & Htake & Hj & I2 & Hf' & Hused & V2).
  destruct (refill_run s2 c x1 tb l1 t f' used I2 Hfc Hf') as (s3 & x3 & tb3 & Href & I3 & Hmono3).
  assert (slot_used s2 c (slot_of t j) = true) as Hu2.
  { unfold slot_used. rewrite (ci_at _ _ _ _ _ I2), slot_div, slot_mod, Hf' by lia. done. }
  exists (Ok (slot_of t j) s3). split.
  { intros fuel. rewrite Hunf, (bind_run _ _ _ _ _ Hens). cbv beta iota delta [negb].
    rewrite (bind_run _ _ _ _ _ Htake).
    by rewrite (bind_run _ _ _ _ _ (Href fuel)). }
  split; [by eauto|]. split.
  - intros _. split; [|apply Hmono3; [unfold slot_of; lia|done]].
    unfold slot_used. by rewrite (ci_at _ _ _ _ _ I), slot_div, Hnone by lia.
  - intros q Hq Hu. apply Hmono3; [done|]. rewrite <- (Hmono q Hq Hu).
    apply (slot_used_view s1 s2 c x1 x1); [apply (ci_at _ _ _ _ _ I1) | apply (ci_at _ _ _ _ _ I2) |].
    apply V2; [apply Z.div_pos; lia|]. intros Et. unfold slot_used in Hu.
    by rewrite (ci_at _ _ _ _ _ I), Et, Hnone in Hu.
Qed.

Lemma alloc_slot_any s c x tb l :
  cs_inv s c x tb l -> nodes_below s -> page_room s ->
  exists r, (forall fuel, alloc_slot (S (S fuel)) c s = r) /\
    match r with Ok slot s' => alloc_post s c slot s' | Stuck e => e <> NoFuel end.
Proof.
  intros I Hbelow Hpage. destruct (first_clear_or_full tb (ci_wf _ _ _ _ _ I)) as [Hfull|[t Hfc]].
  { exists (Stuck Segv). split; [intros; by apply (alloc_slot_full _ s c x tb l) | done]. }
  destruct (cnode_bf s.(nodes) x t) as [f|] eqn:Hf; [|by apply (alloc_slot_missing s c x tb l t)].
  destruct (alloc_slot_present s c x tb l t f I Hfc Hf)
    as (p & n & b & j & tb' & g & L & Hb & Hrun & I' & Hj & Hjf & Htest).
  eexists. split; [intros fuel; apply Hrun|]. assert (0 <= t) by (by destruct Hfc as [[? ?] _]).
  assert (forall q, 0 <= q -> slot_used (upd s c (with_top x tb') p (set_bf n (t mod 169) b g)) c q =
    (q =? slot_of t j) || slot_used s c q) as Hu.
  { intros q Hq. apply (slot_used_take s c x tb l t); try done; [lia|]. by rewrite Hb. }
  split; [by eauto|]. split.
  - intros _. split.
    + unfold slot_used. rewrite (ci_at _ _ _ _ _ I), slot_div, slot_mod by lia. by rewrite Hf.
    + rewrite Hu by (unfold slot_of; lia). by rewrite Z.eqb_refl.
  - intros q Hq Hq'. rewrite Hu by done. rewrite Hq'. apply Bool.orb_true_r.
Qed.

(** C36 The recursion of [cspace_alloc_slot] through the watermark is at most
    one level deep: the model's fuel never runs out, and more fuel gives the
    same result, growth and failures included. *)
Theorem cspace_alloc_slot_terminates (s : sos E) (c : Z) (x : cspace_t) (tb l : list Z) (fuel : nat) :
  cs_inv s c x tb l -> nodes_below s -> page_room s ->
  cspace_alloc_slot c s <> Stuck NoFuel /\ alloc_slot (2 + fuel) c s = cspace_alloc_slot c s.
Proof.
  intros I Hb Hp. destruct (alloc_slot_any s c x tb l I Hb Hp) as (r & Hr & Hpost).
  unfold cspace_alloc_slot. change (2 + fuel)%nat with (S (S fuel)). rewrite !Hr. split; [|done].
  destruct r; [done|]. congruence.
Qed.

(** C2 Whether or not the cspace has to grow, a call of [cspace_alloc_slot]
    that returns a slot returns one that was free and is now used, every used
    slot stays used, and the invariant holds again. *)
Theorem cspace_alloc_slot_sound (s s' : sos E) (c : Z) (x : cspace_t) (tb l : list Z) (slot : Z) :
  cs_inv s c x tb l -> nodes_below s -> page_room s ->
  cspace_alloc_slot c s = Ok slot s' -> alloc_post s c slot s'.
Proof.
  intros I Hb Hp Hrun. destruct (alloc_slot_any s c x tb l I Hb Hp) as (r & Hr & Hpost).
  unfold cspace_alloc_slot in Hrun. rewrite Hr in Hrun. by subst r.
Qed.
End grow.

(** ** On the concrete machine *)

Lemma toy_alloc_laws : CspaceAllocLaws toy (CspaceAlloc0:=toy_alloc).
Proof.
  split; [by intros k s r s' [= _ <-] | by intros k u s r s' [= _ <-] | | done..].
  intros k fr sl u s p u' s' [= <- _ <-]. by split_and!.
Qed.

Lemma with_cspaces_below : nodes_below with_cspaces /\ page_room with_cspaces.
Proof. split; [|done]. intros p n Hn. apply (lookup_singleton_Some 4096 p small_node n) in Hn as [<- _]. done. Qed.

Lemma cspace_alloc_slot_terminates_witness :
  cspace_alloc_slot (CspaceAlloc0:=toy_alloc) 100 with_cspaces <> Stuck NoFuel.
Proof.
  refine (proj1 (cspace_alloc_slot_terminates (CspaceAlloc0:=toy_alloc) (CspaceAllocLaws0:=toy_alloc_laws)
    with_cspaces 100 deep_cspace [0; 0] [4096; 0] 0 deep_cspace_ok _ _)); apply with_cspaces_below.
Defined.

Lemma cspace_alloc_slot_sound_witness : exists s',
  cspace_alloc_slot (CspaceAlloc0:=toy_alloc) 100 with_cspaces = Ok 2 s' /\ alloc_post with_cspaces 100 2 s'.
Proof.
  eexists. split; [vm_compute; reflexivity|].
  apply (cspace_alloc_slot_sound (CspaceAlloc0:=toy_alloc) (CspaceAllocLaws0:=toy_alloc_laws)
    with_cspaces _ 100 deep_cspace [0; 0] [4096; 0] 2 deep_cspace_ok);
    [apply with_cspaces_below | apply with_cspaces_below | vm_compute; reflexivity].
Defined.
