(* ===== verification/Mapping.v ===== *)
(** * Mapping frames, and the boot cspace's allocation functions

    [sos/src/mapping.c] without [sos_map_frame] (which is in [PageTable]), and
    the functions of [sos/src/bootstrap.c] that give the initial cspace its
    frames and untypeds.  They make the instance of [CspaceAlloc] SOS runs
    with, and its laws are proved here. *)
From S2P Require Import Prelude Utils Bitfield UtTable Bytes Sos Cspace CspaceSpec CspaceGrow.

Definition SEL4_MAPPING_LOOKUP_NO_PT : Z := 21.
Definition SEL4_MAPPING_LOOKUP_NO_PD : Z := 30.
Definition SEL4_MAPPING_LOOKUP_NO_PUD : Z := 39.

Section mapping.
Context {E : Type} `{!Env E}.

(** [ut->cap] *)
Definition ut_cap_of (p : Z) : M (sos E) Z := u ← on_ut (ut_load p); mret u.(ut_cap).

Definition retype_map_pt (c vspace vaddr ut0 empty : Z) : M (sos E) Z :=
  err ← cspace_untyped_retype c ut0 empty seL4_ARM_PageTableObject seL4_PageBits;
  if nz err then mret err
  else call PageTable_Map [empty; vspace; vaddr; seL4_ARM_Default_VMAttributes].

Definition retype_map_pd (c vspace vaddr ut0 empty : Z) : M (sos E) Z :=
  err ← cspace_untyped_retype c ut0 empty seL4_ARM_PageDirectoryObject seL4_PageBits;
  if nz err then mret err
  else call PageDirectory_Map [empty; vspace; vaddr; seL4_ARM_Default_VMAttributes].

Definition retype_map_pud (c vspace vaddr ut0 empty : Z) : M (sos E) Z :=
  err ← cspace_untyped_retype c ut0 empty seL4_ARM_PageUpperDirectoryObject seL4_PageBits;
  if nz err then mret err
  else call PageUpperDirectory_Map [empty; vspace; vaddr; seL4_ARM_Default_VMAttributes].

(** The [switch] on the missing level; other values leave [err] as it is. *)
Definition retype_map_level (failed c vspace vaddr ut0 slot : Z) : M (sos E) Z :=
  if failed =? SEL4_MAPPING_LOOKUP_NO_PT then retype_map_pt c vspace vaddr ut0 slot
  else if failed =? SEL4_MAPPING_LOOKUP_NO_PD then retype_map_pd c vspace vaddr ut0 slot
  else if failed =? SEL4_MAPPING_LOOKUP_NO_PUD then retype_map_pud c vspace vaddr ut0 slot
  else mret seL4_FailedLookup.

(** [map_frame_impl].  [slot_for i] is the choice between [free_slots[i]] and
    [cspace_alloc_slot]; it threads [*used]. *)
Section impl.
Context (slot_for : Z -> Z -> M (sos E) (Z * Z)).
Context (c frame_cap vspace vaddr rights attr : Z).

Fixpoint map_frame_loop (l : list Z) (err used : Z) : M (sos E) (Z * Z) :=
  match l with
  | [] => mret (err, used)
  | i :: l' =>
      if negb (err =? seL4_FailedLookup) then mret (err, used)
      else
        failed ← call MappingFailedLookupLevel [];
        r ← on_ut ut_alloc_4k_untyped;
        if r.1 =? 0 then mret (-1, used)
        else
          w ← slot_for i used;
          let '(slot, used) := w in
          if slot =? seL4_CapNull then mret (-1, used)
          else
            cap ← ut_cap_of r.1;
            err ← retype_map_level failed c vspace vaddr cap slot;
            err ← (if err =? 0 then call Page_Map [frame_cap; vspace; vaddr; rights; attr] else mret err);
            map_frame_loop l' err used
  end.

Definition map_frame_impl (used : Z) : M (sos E) (Z * Z) :=
  err ← call Page_Map [frame_cap; vspace; vaddr; rights; attr];
  map_frame_loop (zseq 0 (Z.to_nat MAPPING_SLOTS)) err used.
End impl.

Definition map_frame_cspace (c frame_cap vspace vaddr rights attr : Z) (free_slots : list Z) (used : Z) :
    M (sos E) (Z * Z) :=
  if c =? 0 then mret (-1, used)
  else map_frame_impl (fun i used => slot ← index free_slots i; mret (slot, Z.lor used (BIT i)))
         c frame_cap vspace vaddr rights attr used.

(** ** [bootstrap.c]: the functions behind the boot cspace *)

Definition alloc_vaddr (err : Z) : M (sos E) Z :=
  if err =? 0 then
    s ← get;
    let res := s.(boot).(next_free_vaddr) in
    modify (fun s => {| s with boot := {| s.(boot) with next_free_vaddr := u64 (res + PAGE_SIZE_4K) |} |});;
    mret res
  else mret 0.

Definition bootstrap_cspace_map_frame (cookie cap : Z) (free_slots : list Z) (used : Z) :
    M (sos E) (Z * Z) :=
  s ← get;
  r ← map_frame_cspace cookie cap s.(boot).(boot_vspace) s.(boot).(next_free_vaddr)
        seL4_AllRights seL4_ARM_Default_VMAttributes free_slots used;
  p ← alloc_vaddr r.1;
  mret (p, r.2).

(** The result of [ut_alloc_4k_untyped] is dereferenced without a test. *)
Definition bootstrap_cspace_alloc_4k_ut (cookie : Z) : M (sos E) (Z * Z) :=
  r ← on_ut ut_alloc_4k_untyped;
  cap ← ut_cap_of r.1;
  mret (r.1, cap).

Definition bootstrap_cspace_free_4k_ut (cookie untyped : Z) : M (sos E) unit :=
  on_ut (ut_free untyped seL4_PageBits).

#[global] Instance boot_cspace_alloc : CspaceAlloc E := {
  ca_map_frame := bootstrap_cspace_map_frame;
  ca_alloc_4k_ut := bootstrap_cspace_alloc_4k_ut;
  ca_free_4k_ut := bootstrap_cspace_free_4k_ut }.

(** ** Mapping with slots from the cspace *)

Definition map_frame (c frame_cap vspace vaddr rights attr : Z) : M (sos E) Z :=
  r ← map_frame_impl (fun _ used => slot ← cspace_alloc_slot c; mret (slot, used))
        c frame_cap vspace vaddr rights attr 0;
  mret r.1.

Definition bootstrap_map_frame (c cap : Z) : M (sos E) Z :=
  s ← get;
  err ← map_frame c cap s.(boot).(boot_vspace) s.(boot).(next_free_vaddr)
          seL4_AllRights seL4_ARM_Default_VMAttributes;
  alloc_vaddr err.

(** One page of [sos_map_device]; false when it failed. *)
Definition map_device_page (c curr : Z) : M (sos E) bool :=
  u ← on_ut (ut_alloc_4k_device curr);
  if u =? 0 then mret false
  else
    frame ← cspace_alloc_slot c;
    if frame =? seL4_CapNull then mret false
    else
      cap ← ut_cap_of u;
      err ← cspace_untyped_retype c cap frame seL4_ARM_SmallPageObject seL4_PageBits;
      if negb (err =? seL4_NoError) then cspace_free_slot c frame;; mret false
      else
        s ← get;
        err ← map_frame c frame seL4_CapInitThreadVSpace s.(device_virt) seL4_AllRights 0;
        if negb (err =? seL4_NoError) then
          _ ← cspace_delete c frame;
          cspace_free_slot c frame;;
          mret false
        else
          modify (fun s => {| s with device_virt := u64 (s.(device_virt) + PAGE_SIZE_4K) |});;
          mret true.

Fixpoint map_device_pages (c : Z) (l : list Z) : M (sos E) bool :=
  match l with
  | [] => mret true
  | curr :: l' => ok ← map_device_page c curr; if (ok : bool) then map_device_pages c l' else mret false
  end.

(** The pages [addr, addr + 4096, ...] below [addr + size]. *)
Definition device_pages (addr size : Z) : list Z :=
  (fun i => addr + i * PAGE_SIZE_4K) <$> zseq 0 (Z.to_nat (BYTES_TO_4K_PAGES size)).

Definition sos_map_device (c addr size : Z) : M (sos E) Z :=
  assert (negb (c =? 0));;
  s ← get;
  let vstart := s.(device_virt) in
  ok ← map_device_pages c (device_pages addr size);
  mret (if (ok : bool) then vstart else 0).
End mapping.

(** ** The boot functions satisfy what the cspace library relies on *)

Section laws.
Context {E : Type} `{!Env E}.
Implicit Types s : sos E.

Lemma keeps_on_ut {A} (c : M ut_state A) s a s' : on_ut c s = Ok a s' -> keeps s s'.
Proof. intros (t & _ & ->)%on_ut_Ok. done. Qed.

Lemma keeps_ut_cap_of p s a s' : ut_cap_of p s = Ok a s' -> keeps s s'.
Proof. intros H. unfold ut_cap_of in H. run_inv H. by apply keeps_on_ut in Hrun. Qed.

Lemma keeps_retype_boot c u t ty sz s r s' :
  cspace_untyped_retype c u t ty sz s = Ok r s' -> keeps s s'.
Proof.
  intros H. unfold cspace_untyped_retype, cspace_get in H. run_inv H.
  destruct (two_level _); by apply keeps_call in H.
Qed.

Lemma keeps_retype_map_level failed c v a u q s r s' :
  retype_map_level failed c v a u q s = Ok r s' -> keeps s s'.
Proof.
  intros H. unfold retype_map_level, retype_map_pt, retype_map_pd, retype_map_pud in H.
  repeat match type of H with (if ?b then _ else _) _ = _ => destruct b end;
    try (run_inv H; apply keeps_refl);
    (apply bind_Ok in H as (err & s1 & H1 & H); apply keeps_retype_boot in H1;
     destruct (nz err); [by run_inv H | apply keeps_call in H; by eapply keeps_trans]).
Qed.

(** The mapping loop keeps what its source of slots keeps. *)
Lemma keeps_map_frame_impl slot_for c fr v a rg at0 used s r s' :
  (forall i u s r s', slot_for i u s = Ok r s' -> keeps s s') ->
  map_frame_impl slot_for c fr v a rg at0 used s = Ok r s' -> keeps s s'.
Proof.
  intros Hslot H. unfold map_frame_impl in H. apply bind_Ok in H as (err & s1 & H1 & H).
  apply keeps_call in H1. eapply keeps_trans; [exact H1|]. clear H1.
  revert err used s1 H. induction (zseq 0 (Z.to_nat MAPPING_SLOTS)) as [|i l IH];
    intros err used s1 H; cbn [map_frame_loop] in H; [by run_inv H|].
  destruct (negb _); [by run_inv H|].
  apply bind_Ok in H as (failed & s2 & H2 & H). apply keeps_call in H2.
  apply bind_Ok in H as (u & s3 & H3 & H). apply keeps_on_ut in H3.
  assert (keeps s1 s3) as K by (by eapply keeps_trans). clear H2 H3.
  destruct (u.1 =? 0); [by run_inv H|].
  apply bind_Ok in H as ([slot used'] & s4 & H4 & H). apply Hslot in H4.
  apply (keeps_trans _ _ _ K) in H4. clear K. destruct (slot =? seL4_CapNull); [by run_inv H|].
  apply bind_Ok in H as (cap & s5 & H5 & H). apply keeps_ut_cap_of in H5.
  apply bind_Ok in H as (err1 & s6 & H6 & H). apply keeps_retype_map_level in H6.
  apply bind_Ok in H as (err2 & s7 & H7 & H). apply IH in H.
  assert (keeps s6 s7) as K7 by (destruct (err1 =? 0); [by apply keeps_call in H7 | by run_inv H7]).
  eauto using keeps_trans.
Qed.

Lemma keeps_map_frame_cspace c fr v a rg at0 l used s r s' :
  map_frame_cspace c fr v a rg at0 l used s = Ok r s' -> keeps s s'.
Proof.
  intros H. unfold map_frame_cspace in H. destruct (c =? 0); [by run_inv H|].
  apply keeps_map_frame_impl in H; [done|]. intros i u s0 r0 s0' H0.
  unfold index in H0. by run_inv H0.
Qed.

Lemma fuel_map_frame_impl slot_for c fr v a rg at0 used :
  (forall i u, fuel_free (slot_for i u)) ->
  fuel_free (map_frame_impl (E:=E) slot_for c fr v a rg at0 used).
Proof.
  intros Hslot. unfold map_frame_impl. apply fuel_free_bind; [apply fuel_call|]. intros err.
  revert err used. induction (zseq 0 (Z.to_nat MAPPING_SLOTS)) as [|i l IH]; intros err used; cbn [map_frame_loop];
    [apply fuel_free_ret|].
  assert (forall c u t ty sz, fuel_free (cspace_untyped_retype (E:=E) c u t ty sz)) as Hret.
  { intros. unfold cspace_untyped_retype. fuel_free; [apply fuel_cspace_get|apply fuel_call..]. }
  assert (forall A (m : M ut_state A), fuel_free m -> fuel_free (on_ut (E:=E) m)) as Hut.
  { intros A m Hm. by apply fuel_free_zoom. }
  assert (forall p, fuel_free (ut_load p)) as Hload by (intros; unfold ut_load; fuel_free).
  assert (fuel_free ut_alloc_4k_untyped) as Halloc.
  { unfold ut_alloc_4k_untyped, pop, head_set, ut_to_paddr, head_get. fuel_free. }
  unfold ut_cap_of, retype_map_level, retype_map_pt, retype_map_pd, retype_map_pud.
  repeat (fuel_free; try first [apply fuel_call | apply Hut; done | apply Hslot | apply Hret | apply IH]).
Qed.

#[global] Instance boot_cspace_alloc_laws : CspaceAllocLaws E.
Proof.
  split.
  - intros k s r s' H. simpl in H. unfold bootstrap_cspace_alloc_4k_ut in H. run_inv H.
    apply keeps_on_ut in Hrun. apply keeps_ut_cap_of in Hrun0. by apply (keeps_trans _ _ _ Hrun).
  - intros k u s r s' H. by apply keeps_on_ut in H.
  - intros k fr sl u s p u' s' H. simpl in H. unfold bootstrap_cspace_map_frame in H.
    rewrite get_bind in H. apply bind_Ok in H as (r & s1 & H1 & H).
    apply keeps_map_frame_cspace in H1 as (K1 & K2 & K3).
    apply bind_Ok in H as (p' & s2 & H2 & H). run_inv H.
    unfold alloc_vaddr in H2. destruct (r.1 =? 0); [|by run_inv H2].
    rewrite get_bind in H2. run_inv H2. cbn [cspaces nodes boot next_free_vaddr].
    split; [done|]. split; [done|]. rewrite K3. intros _ Hroom.
    rewrite PAGE_SIZE_4K_eq in *.
    destruct (Z.le_gt_cases 0 s.(boot).(next_free_vaddr)) as [Hpos|Hneg].
    + rewrite u64_small by lia. lia.
    + pose proof (u64_bound (s.(boot).(next_free_vaddr) + 4096)). lia.
  - intros k. simpl. unfold bootstrap_cspace_alloc_4k_ut, ut_cap_of.
    assert (fuel_free ut_alloc_4k_untyped).
    { unfold ut_alloc_4k_untyped, pop, head_set, ut_to_paddr, head_get, ut_load. fuel_free. }
    fuel_free; apply fuel_free_zoom; [done|]. unfold ut_load. fuel_free.
  - intros k u. simpl. apply fuel_free_zoom. unfold ut_free, push, ut_store, ut_load, head_set, head_get.
    fuel_free.
  - intros k fr sl u. simpl. unfold bootstrap_cspace_map_frame, map_frame_cspace, alloc_vaddr.
    fuel_free; try done. apply fuel_map_frame_impl. intros. unfold index. fuel_free.
Qed.
End laws.
