(* ===== verification/UtAlloc.v ===== *)
(** * The untyped table: allocation of small objects

    [ensure_new_structures], [ut_alloc] and [alloc_retype] of
    [sos/src/ut/ut.c]: an untyped of a size below 4K is made by splitting one of
    the next size.  The recursion over the sizes 2^4 .. 2^12 is on their
    distance from 12. *)
From S2P Require Import Prelude Utils Bitfield UtTable Bytes Sos Cspace CspaceSpec CspaceGrow Mapping.

Section ut_alloc.
Context {E : Type} `{!Env E}.

Definition ensure_new_structures (c : Z) : M (sos E) bool :=
  h ← on_ut (head_get Structures);
  enough ← (if h =? 0 then mret false
            else u ← on_ut (ut_load h); mret (negb (u.(ut_next) =? 0)));
  if (enough : bool) then mret true
  else
    r ← on_ut ut_alloc_4k_untyped;
    let frame := r.1 in
    if frame =? 0 then mret false
    else
      cptr ← cspace_alloc_slot c;
      if cptr =? seL4_CapNull then mret false
      else
        cap ← ut_cap_of frame;
        err ← cspace_untyped_retype c cap cptr seL4_ARM_SmallPageObject seL4_PageBits;
        if nz err then mret false
        else
          new_uts ← bootstrap_map_frame c cptr;
          if new_uts =? 0 then mret false
          else
            on_ut (fresh_ut_page new_uts);;
            for_each (zseq 0 (Z.to_nat UTS_PER_PAGE)) (fun i => on_ut (push Structures (ut_at new_uts i)));;
            mret true.

Definition set_ut_cap (p cap : Z) : M (sos E) unit :=
  u ← on_ut (ut_load p); on_ut (ut_store p {| u with ut_cap := cap |}).

(** Split [larger] into two untypeds of [size_bits], pushed on [list]; false
    after an error, which gives [larger] to the 4K list. *)
Definition split_untyped (c larger size_bits : Z) : M (sos E) bool :=
  let list := Free (SIZE_BITS_TO_INDEX size_bits) in
  let abandon : M (sos E) bool := on_ut (ut_free larger seL4_PageBits);; mret false in
  ok ← ensure_new_structures c;
  if negb ok then abandon
  else
    new1 ← on_ut (pop Structures);
    slot1 ← cspace_alloc_slot c;
    set_ut_cap new1 slot1;;
    if slot1 =? seL4_CapNull then abandon
    else
      new2 ← on_ut (pop Structures);
      slot2 ← cspace_alloc_slot c;
      set_ut_cap new2 slot2;;
      if slot2 =? seL4_CapNull then cspace_free_slot c slot1;; abandon
      else
        cap ← ut_cap_of larger;
        err ← cspace_untyped_retype c cap slot1 seL4_UntypedObject size_bits;
        if nz err then
          cspace_free_slot c slot1;; cspace_free_slot c slot2;;
          on_ut (push Structures new1);;
          abandon
        else
          cap ← ut_cap_of larger;
          err ← cspace_untyped_retype c cap slot2 seL4_UntypedObject size_bits;
          if nz err then
            _ ← cspace_delete c slot1;
            cspace_free_slot c slot1;; cspace_free_slot c slot2;;
            on_ut (push Structures new1);; on_ut (push Structures new2);;
            abandon
          else
            on_ut (push list new1);; on_ut (push list new2);;
            mret true.

(** [ut_alloc] of an object of [12 - k] bits. *)
Fixpoint ut_alloc_level (k : nat) (c : Z) : M (sos E) Z :=
  match k with
  | O => r ← on_ut ut_alloc_4k_untyped; mret r.1
  | S k' =>
      let size_bits := seL4_PageBits - Z.of_nat k in
      let list := Free (SIZE_BITS_TO_INDEX size_bits) in
      h ← on_ut (head_get list);
      if h =? 0 then
        larger ← ut_alloc_level k' c;
        if larger =? 0 then mret 0
        else
          ok ← split_untyped c larger size_bits;
          if negb ok then mret 0 else on_ut (pop list)
      else on_ut (pop list)
  end.

Definition ut_alloc (size_bits c : Z) : M (sos E) Z :=
  if seL4_PageBits <? size_bits then mret 0
  else if size_bits <? seL4_EndpointBits then mret 0
  else ut_alloc_level (Z.to_nat (seL4_PageBits - size_bits)) c.

(** Returns the untyped and the value written to [*cptr], if one was written. *)
Definition alloc_retype (c type size_bits : Z) : M (sos E) (Z * option Z) :=
  ut0 ← ut_alloc size_bits c;
  if ut0 =? 0 then mret (0, None)
  else
    cptr ← cspace_alloc_slot c;
    if cptr =? seL4_CapNull then on_ut (ut_free ut0 size_bits);; mret (0, Some cptr)
    else
      cap ← ut_cap_of ut0;
      err ← cspace_untyped_retype c cap cptr type size_bits;
      if negb (err =? seL4_NoError) then
        on_ut (ut_free ut0 size_bits);;
        cspace_free_slot c cptr;;
        mret (0, Some cptr)
      else mret (ut0, Some cptr).
End ut_alloc.
