(* ===== verification/Layers.v ===== *)
(** * What the lower layers leave alone

    Capability spaces, untyped memory and the mapping of frames work on the
    kernel, the untyped table, the cspaces and their book-keeping, and on no
    other part of the state.  A relation that ignores those parts is a [Layer];
    every operation of the lower layers is shown once to keep every such
    relation, and the components above instantiate it. *)
From S2P Require Import Prelude Utils Bitfield UtTable Bytes Sos Cspace CspaceSpec CspaceGrow Mapping UtAlloc.

Class Layer {E : Type} (R : relation (sos E)) : Prop := {
  layer_pre :: PreOrder R;
  layer_step : forall s e t u c n b,
    R s {| s with env := e; trace := t; ut := u; cspaces := c; nodes := n; boot := b |} }.

(** The upper part of the state as a whole. *)
Definition same_upper {E} (s s' : sos E) : Prop :=
  exists e t u c n b, s' = {| s with env := e; trace := t; ut := u; cspaces := c; nodes := n; boot := b |}.

#[global] Instance same_upper_layer {E} : Layer (same_upper (E:=E)).
Proof.
  split; [split|].
  - intros s. exists s.(env), s.(trace), s.(ut), s.(cspaces), s.(nodes), s.(boot). by destruct s.
  - intros s1 s2 s3 (e1 & t1 & u1 & c1 & n1 & b1 & ->) (e2 & t2 & u2 & c2 & n2 & b2 & ->).
    by exists e2, t2, u2, c2, n2, b2.
  - intros. by eexists _, _, _, _, _, _.
Qed.

Section layer.
Context {E : Type} `{!Env E} (R : relation (sos E)) `{!Layer R}.

Lemma layer_modify f : (forall s, same_upper s (f s)) -> preserves R (modify f).
Proof. intros Hf. apply preserves_modify. intros s. destruct (Hf s) as (e & t & u & c & n & b & ->). apply layer_step. Qed.

Lemma layer_call op args : preserves R (call op args).
Proof. intros s a s' ((e & t & ->) & _)%call_inv. apply (layer_step s e t s.(ut) s.(cspaces) s.(nodes) s.(boot)). Qed.
Lemma layer_on_ut {A} (c : M ut_state A) : preserves R (on_ut c).
Proof. apply preserves_zoom. intros s u. apply (layer_step s s.(env) s.(trace) u s.(cspaces) s.(nodes) s.(boot)). Qed.
Lemma layer_index {A} (l : list A) i : preserves R (index (S:=sos E) l i).
Proof. unfold index. preserves. Qed.
Lemma layer_cspace_get c : preserves R (cspace_get c).
Proof. unfold cspace_get. preserves. Qed.
Lemma layer_node_get p : preserves R (node_get p).
Proof. unfold node_get. preserves. Qed.
#[local] Hint Resolve layer_call layer_on_ut layer_index layer_cspace_get layer_node_get : pres.

Lemma layer_cspaces f : preserves R (modify (fun s => {| s with cspaces := f s |})).
Proof.
  apply preserves_modify. intros s. apply (layer_step s s.(env) s.(trace) s.(ut) (f s) s.(nodes) s.(boot)).
Qed.
Lemma layer_nodes f : preserves R (modify (fun s => {| s with nodes := f s |})).
Proof.
  apply preserves_modify. intros s. apply (layer_step s s.(env) s.(trace) s.(ut) s.(cspaces) (f s) s.(boot)).
Qed.
Lemma layer_boot f : preserves R (modify (fun s => {| s with boot := f s |})).
Proof.
  apply preserves_modify. intros s. apply (layer_step s s.(env) s.(trace) s.(ut) s.(cspaces) s.(nodes) (f s)).
Qed.

Lemma layer_cspace_put c x : preserves R (cspace_put c x).
Proof. unfold cspace_put. preserves. apply (layer_cspaces (fun s => <[c := x]> s.(cspaces))). Qed.
Lemma layer_node_put p x : preserves R (node_put p x).
Proof. unfold node_put. preserves. apply (layer_nodes (fun s => <[p := x]> s.(nodes))). Qed.
#[local] Hint Resolve layer_cspace_put layer_node_put : pres.

Lemma layer_on_bf {A} (op : M (list Z) A) l : preserves R (on_bf op l).
Proof. unfold on_bf. preserves. Qed.
#[local] Hint Resolve layer_on_bf : pres.

(** ** Slots and capabilities *)

Lemma layer_cspace_free_slot c q : preserves R (cspace_free_slot c q).
Proof. unfold cspace_free_slot, on_top_bf, on_bot_bf, bot_lvl_node_ptr. preserves. Qed.
Lemma layer_cspace_delete c q : preserves R (cspace_delete c q).
Proof. unfold cspace_delete. preserves. Qed.
Lemma layer_cspace_untyped_retype c u t ty sz : preserves R (cspace_untyped_retype c u t ty sz).
Proof. unfold cspace_untyped_retype. preserves. Qed.
Lemma layer_cspace_copy d dc c q r : preserves R (cspace_copy d dc c q r).
Proof. unfold cspace_copy. preserves. Qed.
Lemma layer_cspace_mint d dc c q r b : preserves R (cspace_mint d dc c q r b).
Proof. unfold cspace_mint. preserves. Qed.
Lemma layer_cspace_move d dc c q : preserves R (cspace_move d dc c q).
Proof. unfold cspace_move. preserves. Qed.
Lemma layer_cspace_save_reply_cap c q : preserves R (cspace_save_reply_cap c q).
Proof. unfold cspace_save_reply_cap. preserves. Qed.
Lemma layer_ut_cap_of p : preserves R (ut_cap_of p).
Proof. unfold ut_cap_of. preserves. Qed.
#[local] Hint Resolve layer_cspace_free_slot layer_cspace_delete layer_cspace_untyped_retype layer_cspace_copy
  layer_cspace_mint layer_cspace_move layer_cspace_save_reply_cap layer_ut_cap_of : pres.

Lemma layer_retype_map_level f c v a u q : preserves R (retype_map_level f c v a u q).
Proof. unfold retype_map_level, retype_map_pt, retype_map_pd, retype_map_pud. preserves. Qed.
#[local] Hint Resolve layer_retype_map_level : pres.

Lemma layer_map_frame_impl slot_for c fr v a r at0 used :
  (forall i u, preserves R (slot_for i u)) -> preserves R (map_frame_impl slot_for c fr v a r at0 used).
Proof.
  intros Hs. unfold map_frame_impl. preserves. revert a0 used.
  induction (zseq 0 (Z.to_nat MAPPING_SLOTS)) as [|i l IH]; intros err used; cbn [map_frame_loop]; preserves.
Qed.

Lemma layer_boot_map_frame k fr sl u : preserves R (ca_map_frame k fr sl u).
Proof.
  simpl. unfold bootstrap_cspace_map_frame, map_frame_cspace, alloc_vaddr. preserves.
  - apply layer_map_frame_impl. preserves.
  - apply (layer_boot (fun s => mk_boot _ _)).
Qed.
Lemma layer_boot_alloc k : preserves R (ca_alloc_4k_ut k).
Proof. simpl. unfold bootstrap_cspace_alloc_4k_ut. preserves. Qed.
Lemma layer_boot_free k u : preserves R (ca_free_4k_ut k u).
Proof. simpl. unfold bootstrap_cspace_free_4k_ut. preserves. Qed.
#[local] Hint Extern 1 (preserves _ (ca_map_frame _ _ _ _)) => apply layer_boot_map_frame : pres.
#[local] Hint Extern 1 (preserves _ (ca_alloc_4k_ut _)) => apply layer_boot_alloc : pres.
#[local] Hint Extern 1 (preserves _ (ca_free_4k_ut _ _)) => apply layer_boot_free : pres.

Lemma layer_free_4k c u : preserves R (free_4k_untyped c u).
Proof. unfold free_4k_untyped. preserves. Qed.
Lemma layer_retype_helper c ty q : preserves R (retype_helper c ty q).
Proof. unfold retype_helper, alloc_4k_untyped, free_4k_untyped. preserves. Qed.
Lemma layer_cs_map_frame c fr sl u : preserves R (cs_map_frame c fr sl u).
Proof. unfold cs_map_frame. preserves. Qed.
Lemma layer_set_bot_lvl_node c i p : preserves R (set_bot_lvl_node c i p).
Proof. unfold set_bot_lvl_node. preserves. Qed.
Lemma layer_init_bot_lvl_node c n u f : preserves R (init_bot_lvl_node c n u f).
Proof.
  unfold init_bot_lvl_node, bot_lvl_node_ptr. preserves. apply (layer_nodes (fun s => <[_ := zero_node]> s.(nodes))).
Qed.
#[local] Hint Resolve layer_free_4k layer_retype_helper layer_cs_map_frame layer_set_bot_lvl_node
  layer_init_bot_lvl_node : pres.

Lemma layer_ensure_levels c q u : preserves R (ensure_levels c q u).
Proof. unfold ensure_levels, ensure_node, ensure_cnode, alloc_4k_untyped, bot_lvl_node_ptr. preserves. Qed.
#[local] Hint Resolve layer_ensure_levels : pres.

Lemma layer_alloc_slot fuel c : preserves R (alloc_slot fuel c).
Proof.
  revert c. induction fuel as [|fuel IH]; intros c; cbn [alloc_slot]; [apply preserves_stuck|].
  unfold levels_missing, take_bot_slot, on_top_bf, on_bot_bf, bot_lvl_node_ptr, refill_watermark. preserves.
Qed.
Lemma layer_cspace_alloc_slot c : preserves R (cspace_alloc_slot c).
Proof. apply layer_alloc_slot. Qed.
#[local] Hint Resolve layer_cspace_alloc_slot : pres.

(** ** Whole cspaces *)

Lemma layer_destroy_nodes c last l : preserves R (destroy_nodes c last l).
Proof.
  revert last. induction l as [|i l IH]; intros last; cbn [destroy_nodes]; [preserves|].
  unfold destroy_node, bot_lvl_node_ptr. preserves.
Qed.
#[local] Hint Resolve layer_destroy_nodes : pres.
Lemma layer_cspace_destroy c : preserves R (cspace_destroy c).
Proof. unfold cspace_destroy. preserves. Qed.
#[local] Hint Resolve layer_cspace_destroy : pres.

Lemma layer_cspace_create_one_level b c : preserves R (cspace_create_one_level b c).
Proof.
  unfold cspace_create_one_level, cspace_create, create_top_level, create_finish, set_target, calloc. preserves.
  apply (layer_cspaces (fun s => <[c := _]> s.(cspaces))).
Qed.
#[local] Hint Resolve layer_cspace_create_one_level : pres.

(** ** Frames and objects *)

Lemma layer_map_frame c fr v a r at0 : preserves R (map_frame c fr v a r at0).
Proof. unfold map_frame. preserves. apply layer_map_frame_impl. preserves. Qed.
#[local] Hint Resolve layer_map_frame : pres.

Lemma layer_ensure_new_structures c : preserves R (ensure_new_structures c).
Proof.
  unfold ensure_new_structures, bootstrap_map_frame, alloc_vaddr. preserves.
  apply (layer_boot (fun s => mk_boot _ _)).
Qed.
#[local] Hint Resolve layer_ensure_new_structures : pres.
Lemma layer_split_untyped c u sz : preserves R (split_untyped c u sz).
Proof. unfold split_untyped, set_ut_cap. preserves. Qed.
#[local] Hint Resolve layer_split_untyped : pres.
Lemma layer_ut_alloc size c : preserves R (ut_alloc size c).
Proof.
  unfold ut_alloc. preserves. induction (Z.to_nat (seL4_PageBits - size)) as [|k IH]; cbn [ut_alloc_level]; preserves.
Qed.
#[local] Hint Resolve layer_ut_alloc : pres.
Lemma layer_alloc_retype c ty sz : preserves R (alloc_retype c ty sz).
Proof. unfold alloc_retype. preserves. Qed.
End layer.
#[export] Hint Resolve layer_call layer_on_ut layer_index layer_cspace_get layer_cspace_put layer_cspace_free_slot
  layer_cspace_delete layer_cspace_untyped_retype layer_cspace_copy layer_cspace_mint layer_cspace_save_reply_cap
  layer_ut_cap_of layer_retype_map_level layer_cspace_alloc_slot layer_cspace_destroy layer_cspace_create_one_level
  layer_map_frame layer_ut_alloc layer_alloc_retype : pres.
#[export] Hint Extern 0 (Layer _) => apply _ : pres.
