(* ===== verification/Dma.v ===== *)
(** * Memory for devices

    [sos/src/dma.c]: one large page, mapped once, from which drivers get blocks
    that are never given back; addresses are translated between the device's and
    the server's view by an offset.

    The theorems: the two translations are inverse to each other, and blocks are
    aligned, lie inside the page and never overlap. *)
From S2P Require Import Prelude Utils Bitfield UtTable Bytes Sos Cspace Sample CspaceSpec CspaceGrow Mapping Layers.

Definition DMA_ALIGN_BITS : Z := 7.
Definition DMA_ALIGN (a : Z) : Z := ROUND_UP a DMA_ALIGN_BITS.

Record dma_addr_t : Type := mk_dma_addr { vaddr : Z; paddr : Z }.

Section dma.
Context {E : Type} `{!Env E}.

Definition dma_get : M (sos E) dma_t := gets dma.
Definition dma_modify (f : dma_t -> dma_t) : M (sos E) unit := modify (fun s => {| s with dma := f s.(dma) |}).

Definition phys_to_virt (d : dma_t) (phys : Z) : Z := u64 (d.(vstart) + u64 (phys - d.(pstart))).
Definition virt_to_phys (d : dma_t) (virt : Z) : Z := u64 (d.(pstart) + u64 (virt - d.(vstart))).
Definition sos_dma_phys_to_virt (phys : Z) : M (sos E) Z := d ← dma_get; mret (phys_to_virt d phys).
Definition sos_dma_virt_to_phys (virt : Z) : M (sos E) Z := d ← dma_get; mret (virt_to_phys d virt).

(** The frame is mapped with a NULL cspace. *)
Definition dma_init (cspace vspace0 ut0 pstart0 vstart0 : Z) : M (sos E) Z :=
  if (ut0 =? seL4_CapNull) || (vspace0 =? seL4_CapNull) || (cspace =? 0) || (pstart0 =? 0) then mret (-1)
  else
    dma_modify (fun d => {| d with pstart := pstart0; vstart := vstart0;
      pend := u64 (pstart0 + BIT seL4_LargePageBits); pnext := pstart0; dma_vspace := vspace0 |});;
    va ← sos_dma_phys_to_virt pstart0;
    map_frame 0 ut0 vspace0 va seL4_AllRights seL4_ARM_Default_VMAttributes.

Definition sos_dma_cache_invalidate (addr size : Z) : M (sos E) Z :=
  d ← dma_get; call PageGlobalDirectory_Invalidate_Data [d.(dma_vspace); addr; u64 (addr + size)].
Definition sos_dma_cache_clean (addr size : Z) : M (sos E) Z :=
  d ← dma_get; call PageGlobalDirectory_Clean_Data [d.(dma_vspace); addr; u64 (addr + size)].
Definition sos_dma_cache_clean_invalidate (addr size : Z) : M (sos E) Z :=
  d ← dma_get; call PageGlobalDirectory_CleanInvalidate_Data [d.(dma_vspace); addr; u64 (addr + size)].

Definition sos_dma_malloc (size align : Z) : M (sos E) dma_addr_t :=
  dma_modify (fun d => {| d with pnext := DMA_ALIGN d.(pnext) |});;
  dma_modify (fun d => {| d with pnext := ROUND_UP d.(pnext) align |});;
  d ← dma_get;
  if d.(pend) <=? u64 (d.(pnext) + size) then mret (mk_dma_addr 0 0)
  else
    let addr := mk_dma_addr (phys_to_virt d d.(pnext)) d.(pnext) in
    dma_modify (fun d => {| d with pnext := u64 (d.(pnext) + size) |});;
    _ ← sos_dma_cache_clean_invalidate addr.(vaddr) size;
    mret addr.
End dma.

Section spec.
Context {E : Type} `{!Env E}.
Implicit Types s : sos E.

(** The page is somewhere below 2^48, in both views. *)
Record dma_ok (d : dma_t) : Prop := mk_dma_ok {
  do_page : 0 < d.(pstart) < 2 ^ 48;
  do_virt : 0 <= d.(vstart) < 2 ^ 48;
  do_end : d.(pend) = d.(pstart) + 2 ^ 21;
  do_next : d.(pstart) <= d.(pnext) < 2 ^ 49 }.

Lemma translate_inverse d phys :
  dma_ok d -> d.(pstart) <= phys < d.(pend) -> virt_to_phys d (phys_to_virt d phys) = phys.
Proof.
  intros [Hp Hv He Hn] Hr. unfold virt_to_phys, phys_to_virt.
  rewrite (u64_small (phys - _)), (u64_small (_ + (phys - _))) by lia.
  rewrite (u64_small (_ - vstart d)), u64_small by lia. lia.
Qed.

(** [sos_dma_malloc] with enough memory left gives a block of the size asked
    for that is aligned as asked, lies inside the DMA page behind all blocks
    given out before, and at a virtual address that translates back to its
    physical one; otherwise it returns the null address and gives out nothing.
    Either way the allocator's state stays sound and [pnext] never moves back. *)
Theorem dma_malloc_disjoint_blocks s size align :
  dma_ok s.(dma) -> 0 < size < 2 ^ 48 -> 0 < align < 2 ^ 31 -> s.(dma).(pnext) <= s.(dma).(pend) ->
  exists a s', sos_dma_malloc size align s = Ok a s' /\ dma_ok s'.(dma) /\
    s.(dma).(pnext) <= s'.(dma).(pnext) /\
    (a = mk_dma_addr 0 0 \/
     (a.(paddr) mod align = 0 /\ s.(dma).(pnext) <= a.(paddr) /\ a.(paddr) + size = s'.(dma).(pnext) /\
      s'.(dma).(pnext) < s.(dma).(pend) /\ virt_to_phys s'.(dma) a.(vaddr) = a.(paddr))).
Proof.
  intros Hok Hs Ha Hle. pose proof Hok as [Hp Hv He Hn]. unfold sos_dma_malloc, dma_modify, dma_get.
  rewrite !modify_bind. cbn [dma pnext]. set (d := s.(dma)) in *.
  assert (0 < DMA_ALIGN_BITS < 2 ^ 48) as H7 by (unfold DMA_ALIGN_BITS; lia).
  destruct (ROUND_UP_spec d.(pnext) DMA_ALIGN_BITS) as [_ H1]; [lia|lia|lia|].
  destruct (ROUND_UP_spec (DMA_ALIGN d.(pnext)) align) as [Hal H2];
    [lia|unfold DMA_ALIGN; lia|unfold DMA_ALIGN, DMA_ALIGN_BITS in *; lia|].
  unfold DMA_ALIGN, DMA_ALIGN_BITS in *. set (next := ROUND_UP (ROUND_UP d.(pnext) 7) align) in *.
  match goal with |- context [(gets dma ≫= _) ?st] => set (s1 := st) end.
  rewrite (bind_run _ _ s1 s1.(dma) s1) by done. unfold s1. cbn [dma pnext pend].
  rewrite u64_small by lia. destruct (Z.leb_spec d.(pend) (next + size)) as [Hfull|Hfits].
  - eexists _, _. split; [done|]. cbn. split; [split; cbn; lia|]. split; [lia|by left].
  - rewrite modify_bind. unfold sos_dma_cache_clean_invalidate, dma_get.
    match goal with |- context [(_ ≫= _) ?st] => set (s2 := st) end.
    destruct (call_run PageGlobalDirectory_CleanInvalidate_Data
      [s2.(dma).(dma_vspace); phys_to_virt s1.(dma) next; u64 (phys_to_virt s1.(dma) next + size)] s2)
      as (r & s3 & Hcall & (e & t & ->) & _).
    eexists _, _. split.
    { erewrite bind_run; [done|]. rewrite (bind_run _ _ s2 s2.(dma) s2) by done. exact Hcall. }
    cbn. rewrite u64_small by lia. split; [split; cbn; lia|]. split; [lia|]. right. split; [done|]. split; [lia|].
    split; [lia|]. split; [lia|].
    apply (translate_inverse {| d with pnext := next + size |}); [split; cbn; lia | cbn; lia].
Qed.
End spec.

Lemma dma_malloc_disjoint_blocks_witness : exists a s', sos_dma_malloc 1500 128 idle = Ok a s'.
Proof.
  destruct (dma_malloc_disjoint_blocks idle 1500 128) as (a & s' & Hrun & _);
    [split; vm_compute; (reflexivity || (split; (reflexivity || discriminate))) | lia | lia | vm_compute; discriminate |].
  exists a, s'. exact Hrun.
Defined.
