(* ===== verification/Bootstrap.v ===== *)
(** * The start of the server

    [sos/src/bootstrap.c]: the first thing the server does.  From the kernel's
    boot information it works out how many capability slots and how much memory
    the untyped table and the first cspace need, steals an untyped for them,
    builds the cspace and switches to it, maps and fills the untyped table, and
    records in the bit fields of the new cspace which slots are taken.

    [boot_info_avail_bytes], the static array that only this file uses, is passed
    along.  The frames behind the untyped table and the book-keeping nodes are
    zeroed by the kernel.  [ZF_LOGF_IFERR] stops the server ([fatal]).

    The theorems: the memory bounds enclose all untypeds; what is stolen is
    aligned, inside its untyped and above what was stolen before; the untypeds
    are retyped in pieces that fill consecutive slots and never cross a cnode;
    after the book-keeping the cspace satisfies the invariant of the slot
    allocator, and which of the slots in use are recorded. *)
From S2P Require Import Prelude Utils Bitfield UtTable Bytes Sos Cspace Sample CspaceSpec CspaceGrow Mapping Layers Dma.

Definition INITIAL_TASK_CNODE_SIZE_BITS : Z := 18.
Definition INITIAL_TASK_CSPACE_SLOTS : Z :=
  BIT (CNODE_SLOT_BITS INITIAL_TASK_CNODE_SIZE_BITS + CNODE_SLOT_BITS CNODE_SIZE_BITS).
Definition CONFIG_RETYPE_FAN_OUT_LIMIT : Z := 256.
Definition SOS_DMA_SIZE_BITS : Z := seL4_LargePageBits.
Definition SOS_UT_TABLE : Z := 0x8000000000.
Definition seL4_PageTableBits : Z := 12.
Definition seL4_PUDBits : Z := 12.
Definition seL4_PageDirBits : Z := 12.
Definition seL4_CapIOPortControl : Z := 7.
Definition seL4_CapIOSpace : Z := 8.
Definition UINTPTR_MAX : Z := 2 ^ 64 - 1.

(** [seL4_BootInfo], as far as it is used.  [untypedList] has the entries of the
    capabilities from [untyped_start] on. *)
Record untyped_desc : Type := mk_desc { d_paddr : Z; sizeBits : Z; isDevice : bool }.
Record bootinfo : Type := mk_bootinfo {
  empty_start : Z; empty_end : Z; untyped_start : Z; untypedList : list untyped_desc }.

Definition calculate_avail (bi : bootinfo) : list Z := (fun d => BIT d.(sizeBits)) <$> bi.(untypedList).
Definition calculate_ut_caps (bi : bootinfo) (size_bits : Z) : Z :=
  foldl (fun n_caps d =>
    if size_bits <=? d.(sizeBits) then u64 (n_caps + BIT (d.(sizeBits) - size_bits)) else n_caps)
    0 bi.(untypedList).

Definition paddr_from_avail_bytes (d : untyped_desc) (avail size_bits : Z) : Z :=
  let taken := u64 (BIT d.(sizeBits) - avail) in
  u64 (d.(d_paddr) + ROUND_UP taken (BIT size_bits)).

(** The loop of [steal_untyped] from the [i]-th untyped on: the one it takes, the
    address and the bytes left. *)
Fixpoint steal_from (size_bits : Z) (l : list untyped_desc) (avail : list Z) (i : Z) : option (Z * Z) * list Z :=
  match l, avail with
  | d :: l', a :: avail' =>
      if BIT size_bits <=? a
      then (Some (i, paddr_from_avail_bytes d a size_bits), u64 (a - BIT size_bits) :: avail')
      else let '(r, avail'') := steal_from size_bits l' avail' (i + 1) in (r, a :: avail'')
  | _, _ => (None, avail)
  end.

Definition widen (m : ut_region_t) (d : untyped_desc) : ut_region_t :=
  UtTable.mk_region (MIN m.(ur_start) d.(d_paddr)) (MAX (u64 (d.(d_paddr) + BIT d.(sizeBits))) m.(ur_end)).
Definition find_memory_bounds (bi : bootinfo) : ut_region_t :=
  foldl widen (UtTable.mk_region UINTPTR_MAX 0) bi.(untypedList).

(** [BYTES_TO_SIZE_BITS]: the position of the highest bit. *)
Definition BYTES_TO_SIZE_BITS (bytes : Z) : Z := Z.log2 bytes.

(** What has to be there before the untyped table: the pages of the table, the
    second-level cnodes, and the memory for all of it. *)
Record boot_needs : Type := mk_needs { ut_pages : Z; n_cnodes0 : Z; boot_size : Z }.
Definition n_pts (ut_pages : Z) : Z := Z.shiftr ut_pages seL4_PageTableIndexBits + 1.
Definition calculate_needs (bi : bootinfo) (memory : ut_region_t) : boot_needs :=
  let ut_pages := ut_pages_for_region memory in
  let n_slots := u64 (u64 (bi.(empty_start) - 1) + ut_pages + n_pts ut_pages + 2 + 1 +
    calculate_ut_caps bi seL4_PageBits - BIT (SOS_DMA_SIZE_BITS - seL4_PageBits)) in
  let n_cnodes := n_slots / CNODE_SLOTS CNODE_SIZE_BITS + 2 in
  mk_needs ut_pages n_cnodes
    (u64 (ut_pages * PAGE_SIZE_4K + n_pts ut_pages * BIT seL4_PageTableBits + BIT seL4_PUDBits +
      BIT seL4_PageDirBits + n_cnodes * BIT CNODE_SIZE_BITS + BIT INITIAL_TASK_CNODE_SIZE_BITS)).

(** Pieces of at most [limit pos] each, until [n] is used up: offset and size. *)
Fixpoint chunks (limit : Z -> Z) (fuel : nat) (pos n : Z) : list (Z * Z) :=
  match fuel with
  | O => []
  | S fuel' =>
      if 0 <? n then
        let chunk := MIN (limit pos) n in (pos, chunk) :: chunks limit fuel' (pos + chunk) (n - chunk)
      else []
  end.
Definition SLOTS_PER_CNODE : Z := CNODE_SLOTS CNODE_SIZE_BITS.
(** The second-level cnodes, and the 4K untypeds: the latter only up to the end
    of a cnode. *)
Definition cnode_chunks (n_cnodes : Z) : list (Z * Z) :=
  chunks (fun _ => CONFIG_RETYPE_FAN_OUT_LIMIT) (Z.to_nat n_cnodes) 0 n_cnodes.
Definition untyped_chunks (first n_caps : Z) : list (Z * Z) :=
  chunks (fun pos => MIN CONFIG_RETYPE_FAN_OUT_LIMIT (SLOTS_PER_CNODE - pos mod SLOTS_PER_CNODE))
    (Z.to_nat n_caps) first n_caps.

Section bootstrap.
Context {E : Type} `{!Env E}.

(** [ZF_LOGF_IFERR(err, ...)] *)
Definition fatal (c : M (sos E) Z) : M (sos E) unit := err ← c; assert (err =? 0).

Definition steal_untyped (bi : bootinfo) (size_bits : Z) (avail : list Z) : M (sos E) (Z * Z * list Z) :=
  assert (seL4_PageBits <=? size_bits);;
  assert (size_bits <=? seL4_MaxUntypedBits);;
  match steal_from size_bits bi.(untypedList) avail 0 with
  | (Some (i, paddr), avail') => mret (i + bi.(untyped_start), paddr, avail')
  | (None, avail') => mret (seL4_CapNull, 0, avail')
  end.

Definition boot_modify (f : bootstrap_cspace_t -> bootstrap_cspace_t) : M (sos E) unit :=
  modify (fun s => {| s with boot := f s.(boot) |}).

(** The new root cnode in slot [level1_cptr], the second-level cnodes in it, and
    the switch of the server's thread to it. *)
Definition create_cspace (bi : bootinfo) (ut_cptr n_cnodes : Z) : M (sos E) unit :=
  let level1_cptr := bi.(empty_start) in
  let boot_cptr := 0 in
  fatal (call Untyped_Retype [ut_cptr; seL4_CapTableObject; CNODE_SLOT_BITS INITIAL_TASK_CNODE_SIZE_BITS;
    seL4_CapInitThreadCNode; 0; 0; level1_cptr; 1]);;
  for_each (cnode_chunks n_cnodes) (fun x =>
    fatal (call Untyped_Retype [ut_cptr; seL4_CapTableObject; CNODE_SLOT_BITS CNODE_SIZE_BITS;
      level1_cptr; 0; 0; x.1; x.2]));;
  let depth := CNODE_SLOT_BITS INITIAL_TASK_CNODE_SIZE_BITS + CNODE_SLOT_BITS CNODE_SIZE_BITS in
  fatal (call CNode_Copy [level1_cptr; boot_cptr; depth; seL4_CapInitThreadCNode; seL4_CapInitThreadCNode;
    seL4_WordBits; seL4_AllRights]);;
  let guard := seL4_CNode_CapData_new 0 (seL4_WordBits - depth) in
  fatal (call CNode_Mint [level1_cptr; seL4_CapInitThreadCNode; depth; seL4_CapInitThreadCNode; level1_cptr;
    seL4_WordBits; seL4_AllRights; guard]);;
  fatal (call TCB_SetSpace [seL4_CapInitThreadTCB; 0; level1_cptr; guard; seL4_CapInitThreadVSpace; 0]);;
  for_each (zseq 1 (Z.to_nat (bi.(empty_start) - 1))) (fun i =>
    if (i =? seL4_CapInitThreadCNode) || (i =? seL4_CapIOPortControl) || (i =? seL4_CapIOSpace) then mret tt
    else fatal (call CNode_Move [seL4_CapInitThreadCNode; i; seL4_WordBits; boot_cptr; i; seL4_WordBits]));;
  fatal (call CNode_Delete [seL4_CapInitThreadCNode; boot_cptr; seL4_WordBits]).

(** Paging structures and frames for the untyped table; the first slot free
    afterwards. *)
Definition map_ut_page (c ut_cptr slot : Z) : M (sos E) unit :=
  fatal (cspace_untyped_retype c ut_cptr slot seL4_ARM_SmallPageObject seL4_PageBits);;
  s ← get;
  fatal (call Page_Map [slot; seL4_CapInitThreadVSpace; s.(boot).(next_free_vaddr); seL4_AllRights;
    seL4_ARM_Default_VMAttributes]);;
  on_ut (fresh_ut_page s.(boot).(next_free_vaddr));;
  boot_modify (fun b => {| b with next_free_vaddr := u64 (b.(next_free_vaddr) + PAGE_SIZE_4K) |}).
Definition map_ut_table (c ut_cptr ut_pages first_free_slot : Z) : M (sos E) Z :=
  fatal (cspace_untyped_retype c ut_cptr first_free_slot seL4_ARM_PageUpperDirectoryObject seL4_PageBits);;
  fatal (call PageUpperDirectory_Map [first_free_slot; seL4_CapInitThreadVSpace; SOS_UT_TABLE;
    seL4_ARM_Default_VMAttributes]);;
  let first_free_slot := first_free_slot + 1 in
  fatal (cspace_untyped_retype c ut_cptr first_free_slot seL4_ARM_PageDirectoryObject seL4_PageBits);;
  fatal (call PageDirectory_Map [first_free_slot; seL4_CapInitThreadVSpace; SOS_UT_TABLE;
    seL4_ARM_Default_VMAttributes]);;
  let first_free_slot := first_free_slot + 1 in
  for_each (zseq 0 (Z.to_nat (n_pts ut_pages))) (fun i =>
    fatal (cspace_untyped_retype c ut_cptr (first_free_slot + i) seL4_ARM_PageTableObject seL4_PageBits);;
    fatal (call PageTable_Map [first_free_slot + i; seL4_CapInitThreadVSpace;
      u64 (SOS_UT_TABLE + i * BIT (seL4_PageTableIndexBits + seL4_PageBits)); seL4_ARM_Default_VMAttributes]));;
  let first_free_slot := first_free_slot + n_pts ut_pages in
  boot_modify (fun _ => mk_boot SOS_UT_TABLE seL4_CapInitThreadVSpace);;
  for_each (zseq 0 (Z.to_nat ut_pages)) (fun i => map_ut_page c ut_cptr (first_free_slot + i));;
  mret (first_free_slot + ut_pages).

(** The 4K untypeds of the [i]-th untyped, and of all from the [i]-th on. *)
Definition add_untypeds (bi : bootinfo) (i : Z) (d : untyped_desc) (avail first_free_slot : Z) : M (sos E) Z :=
  let n_caps := avail / PAGE_SIZE_4K in
  let paddr := paddr_from_avail_bytes d avail seL4_PageBits in
  when (0 <? n_caps) (on_ut (ut_add_untyped_range paddr first_free_slot n_caps d.(isDevice)));;
  for_each (untyped_chunks first_free_slot n_caps) (fun x =>
    fatal (call Untyped_Retype [bi.(untyped_start) + i; seL4_UntypedObject; seL4_PageBits;
      seL4_CapInitThreadCNode; x.1 / SLOTS_PER_CNODE; seL4_WordBits - CNODE_SLOT_BITS CNODE_SIZE_BITS;
      x.1 mod SLOTS_PER_CNODE; x.2]));;
  mret (first_free_slot + n_caps).
Fixpoint fill_ut_table (bi : bootinfo) (l : list untyped_desc) (avail : list Z) (i first_free_slot : Z) : M (sos E) Z :=
  match l, avail with
  | d :: l', a :: avail' =>
      first_free_slot ← add_untypeds bi i d a first_free_slot;
      fill_ut_table bi l' avail' (i + 1) first_free_slot
  | _, _ => mret first_free_slot
  end.

(** ** The book-keeping of the new cspace *)

(** [memset(cspace, 0, sizeof(cspace_t))], and the fields as they are set. *)
Definition zero_cspace : cspace_t :=
  mk_cspace 0 false 0 None None 0 0 0 None (replicate (Z.to_nat WATERMARK_SLOTS) 0).
Definition cs_modify (c : Z) (f : cspace_t -> cspace_t) : M (sos E) unit := x ← cspace_get c; cspace_put c (f x).
Definition finish_cspace (c : Z) : M (sos E) unit :=
  cs_modify c (fun x => {| x with
    top_lvl_size_bits := INITIAL_TASK_CNODE_SIZE_BITS;
    top_bf := Some (replicate (Z.to_nat (BITFIELD_SIZE INITIAL_TASK_CNODE_SIZE_BITS)) 0);
    n_bot_lvl_nodes := 0;
    bot_lvl_nodes := Some (replicate (Z.to_nat (INITIAL_TASK_CSPACE_SLOTS / BOT_LVL_PER_NODE + 1)) 0);
    alloc := Some c |}).

(** A frame for the [i]-th book-keeping node, in slot [slot]. *)
Definition add_node (c slot i : Z) : M (sos E) unit :=
  r ← on_ut ut_alloc_4k_untyped;
  cap ← ut_cap_of r.1;
  fatal (cspace_untyped_retype c cap slot seL4_ARM_SmallPageObject seL4_PageBits);;
  s ← get;
  let p := s.(boot).(next_free_vaddr) in
  fatal (call Page_Map [slot; seL4_CapInitThreadVSpace; p; seL4_AllRights; seL4_ARM_Default_VMAttributes]);;
  set_bot_lvl_node c i p;;
  boot_modify (fun b => {| b with next_free_vaddr := u64 (b.(next_free_vaddr) + PAGE_SIZE_4K) |});;
  modify (fun s => {| s with nodes := <[p := {| zero_node with bn_untyped := r.1; bn_frame := slot |}]> s.(nodes) |});;
  cs_modify c (fun x => {| x with n_bot_lvl_nodes := x.(n_bot_lvl_nodes) + 1 |}).

Definition node_modify (p : Z) (f : bot_lvl_node_t -> bot_lvl_node_t) : M (sos E) unit :=
  n ← node_get p; node_put p (f n).
Definition count_cnode (n : bot_lvl_node_t) : bot_lvl_node_t := {| n with n_cnodes := n.(n_cnodes) + 1 |}.

(** [bot_lvl_node->cnodes[CNODE_INDEX(i)].bf[i] = UINTPTR_MAX] for each word [i]:
    the index of the inner loop hides that of the outer one. *)
Definition fill_word (p i : Z) : M (sos E) unit :=
  n ← node_get p;
  b ← index n.(cnodes) (CNODE_INDEX i);
  _ ← index b.(bf) i;
  node_put p {| n with cnodes :=
    <[Z.to_nat (CNODE_INDEX i) := {| b with bf := <[Z.to_nat i := UINTPTR_MAX]> b.(bf) |}]> n.(cnodes) |}.
Definition fill_words (p : Z) : M (sos E) unit :=
  for_each (zseq 0 (Z.to_nat (SLOTS_PER_CNODE / seL4_WordBits))) (fill_word p).

(** A cnode all of whose slots are in use; [i] is its first slot. *)
Definition mark_full (c i : Z) : M (sos E) unit :=
  p ← bot_lvl_node_ptr c (NODE_INDEX i);
  assert (negb (p =? 0));;
  node_modify p count_cnode;;
  fill_words p;;
  on_top_bf c (bf_set_bit (TOP_LVL_INDEX i)).

Definition mark_used (c first_free_slot n_cnodes : Z) : M (sos E) unit :=
  for_each (zseq 0 (Z.to_nat (ALIGN_DOWN first_free_slot SLOTS_PER_CNODE / SLOTS_PER_CNODE)))
    (fun k => mark_full c (k * SLOTS_PER_CNODE));;
  (* the cnode that is partly in use *)
  p ← bot_lvl_node_ptr c (first_free_slot / SLOTS_PER_CNODE / BOT_LVL_PER_NODE);
  node_modify p count_cnode;;
  let first := ALIGN_DOWN first_free_slot SLOTS_PER_CNODE in
  for_each (zseq first (Z.to_nat (first_free_slot - first))) (fun i =>
    on_bot_bf p (CNODE_INDEX i) (bf_set_bit (BOT_LVL_INDEX i)));;
  (* cnodes that were made and are not needed yet *)
  let next := first_free_slot / SLOTS_PER_CNODE + 1 in
  for_each (zseq next (Z.to_nat (n_cnodes - next))) (fun i =>
    p ← bot_lvl_node_ptr c (i / BOT_LVL_PER_NODE); node_modify p count_cnode).

Definition fill_watermark (c : Z) : M (sos E) unit :=
  for_each (zseq 0 (Z.to_nat WATERMARK_SLOTS)) (fun i =>
    slot ← cspace_alloc_slot c;
    cs_modify c (fun x => {| x with watermark := <[Z.to_nat i := slot]> x.(watermark) |});;
    assert (negb (slot =? seL4_CapNull))).

Definition place_dma (c dma_cptr dma_paddr : Z) : M (sos E) unit :=
  s ← get;
  let dma_vaddr := ALIGN_UP (u64 (s.(boot).(next_free_vaddr) + PAGE_SIZE_4K)) (BIT seL4_LargePageBits) in
  fatal (dma_init c seL4_CapInitThreadVSpace dma_cptr dma_paddr dma_vaddr);;
  boot_modify (fun b => {| b with next_free_vaddr := u64 (dma_vaddr + BIT seL4_LargePageBits + PAGE_SIZE_4K) |}).

Definition sos_bootstrap (c : Z) (bi : bootinfo) : M (sos E) unit :=
  modify (fun s => {| s with cspaces := <[c := zero_cspace]> s.(cspaces); boot := mk_boot 0 0 |});;
  assert (2 <=? u64 (bi.(empty_end) - bi.(empty_start)));;
  let memory := find_memory_bounds bi in
  assert (memory.(ur_start) <? memory.(ur_end));;
  let needs := calculate_needs bi memory in
  assert (needs.(n_cnodes0) <=? CNODE_SLOTS INITIAL_TASK_CNODE_SIZE_BITS);;
  r ← steal_untyped bi (BYTES_TO_SIZE_BITS needs.(boot_size) + 1) (calculate_avail bi);
  let '(ut_cptr, _, avail) := r in
  assert (negb (ut_cptr =? seL4_CapNull));;
  cs_modify c (fun x => {| x with root_cnode := seL4_CapInitThreadCNode |});;
  create_cspace bi ut_cptr needs.(n_cnodes0);;
  cs_modify c (fun x => {| x with two_level := true |});;
  first_free_slot ← map_ut_table c ut_cptr needs.(ut_pages) bi.(empty_start);
  r ← steal_untyped bi SOS_DMA_SIZE_BITS avail;
  let '(dma_ut, dma_paddr, avail) := r in
  assert (negb (dma_ut =? seL4_CapNull));;
  fatal (cspace_untyped_retype c dma_ut first_free_slot seL4_ARM_LargePageObject SOS_DMA_SIZE_BITS);;
  let dma_cptr := first_free_slot in
  on_ut (ut_init SOS_UT_TABLE memory);;
  first_free_slot ← fill_ut_table bi bi.(untypedList) avail 0 (first_free_slot + 1);
  finish_cspace c;;
  let n_bot_lvl := MAX (first_free_slot / SLOTS_PER_CNODE + 1) needs.(n_cnodes0) / BOT_LVL_PER_NODE + 1 in
  for_each (zseq 0 (Z.to_nat n_bot_lvl)) (fun i => add_node c (first_free_slot + i) i);;
  let first_free_slot := first_free_slot + n_bot_lvl in
  place_dma c dma_cptr dma_paddr;;
  mark_used c first_free_slot needs.(n_cnodes0);;
  fill_watermark c.
End bootstrap.

(** ** Memory *)

(** An untyped as the kernel reports it: aligned to its size, below 2^62. *)
Definition desc_ok (d : untyped_desc) : Prop :=
  0 <= d.(sizeBits) <= 47 /\ 0 <= d.(d_paddr) < 2 ^ 62 /\ (2 ^ d.(sizeBits) | d.(d_paddr)).
Definition d_end (d : untyped_desc) : Z := d.(d_paddr) + 2 ^ d.(sizeBits).

Lemma pow2_bound k n : 0 <= k <= n -> 1 <= 2 ^ k <= 2 ^ n.
Proof. intros H. split; [apply (Z.pow_le_mono_r 2 0); lia | apply Z.pow_le_mono_r; lia]. Qed.

Lemma desc_end_bound d : desc_ok d -> d.(d_paddr) < d_end d < 2 ^ 63.
Proof. intros (Hs & Hp & _). unfold d_end. pose proof (pow2_bound d.(sizeBits) 47 Hs). lia. Qed.

Lemma widen_eq m d :
  desc_ok d -> widen m d = UtTable.mk_region (Z.min m.(ur_start) d.(d_paddr)) (Z.max (d_end d) m.(ur_end)).
Proof.
  intros Hd. pose proof (desc_end_bound d Hd). destruct Hd as (Hs & Hp & _). unfold widen, d_end in *.
  rewrite MIN_eq, MAX_eq, BIT_eq, u64_small by lia. done.
Qed.

Definition encloses (m : ut_region_t) (d : untyped_desc) : Prop := m.(ur_start) <= d.(d_paddr) /\ d_end d <= m.(ur_end).

Lemma widen_fold k m :
  Forall desc_ok k ->
  let m' := foldl widen m k in
  (forall d, d ∈ k \/ encloses m d -> encloses m' d) /\
  (m'.(ur_start) = m.(ur_start) \/ exists d, d ∈ k /\ m'.(ur_start) = d.(d_paddr)) /\
  (m'.(ur_end) = m.(ur_end) \/ exists d, d ∈ k /\ m'.(ur_end) = d_end d).
Proof.
  intros Hok. revert m. induction Hok as [|d k Hd Hok IH]; intros m; cbn [foldl].
  - split; [intros d [[]%not_elem_of_nil|H]; done|]. split; by left.
  - destruct (IH (widen m d)) as (Hin & Hlo & Hhi). rewrite (widen_eq m d Hd) in *.
    cbn [ur_start ur_end] in *. split; [|split].
    + intros d' Hd'. apply Hin. unfold encloses in *. cbn [ur_start ur_end].
      destruct Hd' as [[->|Hd']%elem_of_cons|[H1 H2]]; [right; lia | by left | right; lia].
    + destruct Hlo as [->|(d' & H' & ->)]; [|right; exists d'; split; [by apply list_elem_of_further|done]].
      destruct (Z.min_spec m.(ur_start) d.(d_paddr)) as [[_ ->]|[_ ->]]; [by left|].
      right. exists d. split; [apply list_elem_of_here|done].
    + destruct Hhi as [->|(d' & H' & ->)]; [|right; exists d'; split; [by apply list_elem_of_further|done]].
      destruct (Z.max_spec (d_end d) m.(ur_end)) as [[_ ->]|[_ ->]]; [by left|].
      right. exists d. split; [apply list_elem_of_here|done].
Qed.

(** The bounds of the memory enclose every untyped, and are attained: the
    lowest is the start of an untyped and the highest the end of one. *)
Theorem find_memory_bounds_tight bi :
  bi.(untypedList) <> [] -> Forall desc_ok bi.(untypedList) ->
  let m := find_memory_bounds bi in
  (forall d, d ∈ bi.(untypedList) -> encloses m d) /\
  (exists d, d ∈ bi.(untypedList) /\ m.(ur_start) = d.(d_paddr)) /\
  (exists d, d ∈ bi.(untypedList) /\ m.(ur_end) = d_end d).
Proof.
  intros Hne Hok m. destruct (widen_fold _ (UtTable.mk_region UINTPTR_MAX 0) Hok) as (Hin & Hlo & Hhi).
  fold (find_memory_bounds bi) in Hin, Hlo, Hhi. fold m in Hin, Hlo, Hhi. cbn [ur_start ur_end] in *.
  destruct bi.(untypedList) as [|d l]; [done|]. inversion Hok as [|? ? Hd _]; subst.
  pose proof (desc_end_bound d Hd) as Hend. destruct Hd as (_ & Hp & _).
  destruct (Hin d) as [H1 H2]; [left; apply list_elem_of_here|]. unfold UINTPTR_MAX in *.
  split; [intros d' Hd'; apply Hin; by left|]. split.
  - destruct Hlo as [Hlo|]; [lia|done].
  - destruct Hhi as [Hhi|]; [lia|done].
Qed.

(** What is left of each untyped: [avail] bytes of it. *)
Definition avail_ok (d : untyped_desc) (a : Z) : Prop := desc_ok d /\ 0 <= a <= 2 ^ d.(sizeBits).

(** Where a block of [2 ^ size_bits] bytes goes in an untyped with [a] bytes
    left. *)
Lemma paddr_from_avail_spec d a size_bits :
  avail_ok d a -> 0 <= size_bits -> 2 ^ size_bits <= a ->
  let p := paddr_from_avail_bytes d a size_bits in
  (2 ^ size_bits | p) /\ d_end d - a <= p /\ p + 2 ^ size_bits <= d_end d.
Proof.
  intros [(Hs & Hp & Hal) Ha] Hk Hle p. pose proof (pow2_bound d.(sizeBits) 47 Hs).
  assert (size_bits <= d.(sizeBits)) as Hks by (apply (Z.pow_le_mono_r_iff 2); lia).
  pose proof (pow2_bound size_bits d.(sizeBits) ltac:(lia)).
  assert ((2 ^ size_bits | 2 ^ d.(sizeBits))) as Hdiv.
  { exists (2 ^ (d.(sizeBits) - size_bits)). rewrite <- Z.pow_add_r by lia. f_equal. lia. }
  assert (p = d.(d_paddr) + ROUND_UP (2 ^ d.(sizeBits) - a) (2 ^ size_bits)) as Hpe.
  { unfold p, paddr_from_avail_bytes. rewrite !BIT_eq, (u64_small (_ - a)) by lia.
    destruct (ROUND_UP_spec (2 ^ d.(sizeBits) - a) (2 ^ size_bits)) as [_ Hr]; [lia..|].
    apply u64_small. lia. }
  destruct (ROUND_UP_spec (2 ^ d.(sizeBits) - a) (2 ^ size_bits)) as [Hmod Hr]; [lia..|].
  apply Z.mod_divide in Hmod; [|lia]. rewrite Hpe. clear Hpe p.
  split; [apply Z.divide_add_r; [by apply (Z.divide_trans _ (2 ^ d.(sizeBits)))|done]|]. unfold d_end. split; [lia|].
  destruct Hmod as [q Hq], Hdiv as [n Hn]. rewrite Hq in *. clear Hq. set (B := 2 ^ size_bits) in *.
  assert (q + 1 <= n) by nia. nia.
Qed.

Lemma steal_from_spec size_bits l avail i :
  Forall2 avail_ok l avail -> 0 <= size_bits <= 47 ->
  (Forall (fun a => a < 2 ^ size_bits) avail /\ steal_from size_bits l avail i = (None, avail)) \/
  exists k d a, l !! k = Some d /\ avail !! k = Some a /\ 2 ^ size_bits <= a /\
    (forall j b, (j < k)%nat -> avail !! j = Some b -> b < 2 ^ size_bits) /\
    steal_from size_bits l avail i =
      (Some (i + Z.of_nat k, paddr_from_avail_bytes d a size_bits), <[k := a - 2 ^ size_bits]> avail).
Proof.
  intros Hok Hk. revert i. induction Hok as [|d a l avail Hd Hok IH]; intros i; cbn [steal_from]; [by left|].
  rewrite BIT_eq by lia. pose proof (pow2_bound size_bits 47 Hk).
  destruct (Z.leb_spec (2 ^ size_bits) a) as [Hle|Hgt].
  - right. exists 0%nat, d, a. do 3 (split; [done|]). split; [lia|]. rewrite Z.add_0_r. cbn.
    destruct Hd as [(Hs & _) Ha]. pose proof (pow2_bound d.(sizeBits) 47 Hs). by rewrite u64_small by lia.
  - destruct (IH (i + 1)) as [[Hall ->]|(k & d' & a' & Hl & Ha & Hle & Hfirst & ->)].
    + left. split; [by constructor|done].
    + right. exists (S k), d', a'. do 3 (split; [done|]). split.
      * intros [|j] b Hj Hb; cbn in Hb; [by simplify_eq|]. apply (Hfirst j); [lia|done].
      * do 3 f_equal. lia.
Qed.

(** [steal_untyped] is first fit: it takes the first untyped that has the
    bytes left, a device or not, and hands out an aligned block of it that is
    inside the untyped and above the bytes already taken; the bytes left of this
    untyped shrink by the size of the block and those of no other.  It returns
    the null capability exactly when no untyped has enough left. *)
Theorem steal_untyped_first_fit {E} `{!Env E} (s : sos E) bi avail size_bits :
  Forall2 avail_ok bi.(untypedList) avail -> 0 < bi.(untyped_start) -> 12 <= size_bits <= 47 ->
  exists cptr paddr avail', steal_untyped bi size_bits avail s = Ok (cptr, paddr, avail') s /\
    Forall2 avail_ok bi.(untypedList) avail' /\
    (cptr = seL4_CapNull /\ avail' = avail /\ Forall (fun a => a < 2 ^ size_bits) avail \/
     exists k d a, bi.(untypedList) !! k = Some d /\ avail !! k = Some a /\
       cptr = bi.(untyped_start) + Z.of_nat k /\ cptr <> seL4_CapNull /\
       2 ^ size_bits <= a /\ (forall j b, (j < k)%nat -> avail !! j = Some b -> b < 2 ^ size_bits) /\
       (2 ^ size_bits | paddr) /\ d_end d - a <= paddr /\ paddr + 2 ^ size_bits <= d_end d /\
       avail' = <[k := a - 2 ^ size_bits]> avail).
Proof.
  intros Hok Hstart Hk. unfold steal_untyped, seL4_PageBits, seL4_MaxUntypedBits.
  rewrite !assert_bind by (apply Z.leb_le; lia).
  destruct (steal_from_spec size_bits _ _ 0 Hok) as [[Hall ->]|(k & d & a & Hl & Ha & Hle & Hfirst & ->)]; [lia| |].
  - exists 0, 0, avail. split; [done|]. split; [done|]. by left.
  - pose proof (Forall2_lookup_lr _ _ _ _ _ _ Hok Hl Ha) as Had.
    destruct (paddr_from_avail_spec d a size_bits Had) as (Hal & Hlo & Hhi); [lia|done|].
    eexists _, _, _. split; [done|]. pose proof (pow2_bound size_bits 47 ltac:(lia)).
    split.
    + rewrite <- (list_insert_id _ _ _ Hl). apply Forall2_insert; [done|].
      destruct Had as [Hd Hrange]. split; [done|]. lia.
    + right. exists k, d, a. do 2 (split; [done|]). split; [lia|]. split; [unfold seL4_CapNull; lia|]. done.
Qed.

(** ** Retyping in pieces *)

(** The slots of a list of pieces. *)
Definition covered (l : list (Z * Z)) : list Z := mjoin ((fun x => zseq x.1 (Z.to_nat x.2)) <$> l).

Lemma zseq_app a n m : zseq a (n + m) = zseq a n ++ zseq (a + Z.of_nat n) m.
Proof.
  revert a. induction n as [|n IH]; intros a; cbn [Nat.add].
  - cbn. f_equal. lia.
  - rewrite !zseq_S, IH. cbn [app]. by replace (a + 1 + Z.of_nat n) with (a + Z.of_nat (S n)) by lia.
Qed.

Lemma covered_cons x l : covered (x :: l) = zseq x.1 (Z.to_nat x.2) ++ covered l.
Proof. done. Qed.

Lemma chunks_cover limit fuel pos n :
  (forall p, pos <= p -> 0 < limit p) -> n <= Z.of_nat fuel ->
  covered (chunks limit fuel pos n) = zseq pos (Z.to_nat n) /\
  Forall (fun x => pos <= x.1 /\ 0 < x.2 <= limit x.1) (chunks limit fuel pos n).
Proof.
  intros Hlim. revert pos n Hlim. induction fuel as [|fuel IH]; intros pos n Hlim Hn; cbn [chunks].
  - replace (Z.to_nat n) with 0%nat by lia. done.
  - destruct (Z.ltb_spec 0 n) as [Hpos|Hneg].
    2:{ replace (Z.to_nat n) with 0%nat by lia. done. }
    rewrite MIN_eq. pose proof (Hlim pos ltac:(lia)). set (k := Z.min (limit pos) n).
    destruct (IH (pos + k) (n - k)) as [Hc Hf]; [intros; apply Hlim; lia | lia |]. split.
    + rewrite covered_cons, Hc. cbn [fst snd]. replace (Z.to_nat n) with (Z.to_nat k + Z.to_nat (n - k))%nat by lia.
      rewrite zseq_app. do 2 f_equal. lia.
    + constructor; [cbn; lia|]. eapply Forall_impl; [exact Hf|]. cbn. intros x Hx. lia.
Qed.

(** The 4K untypeds of an untyped go to consecutive slots: the pieces in which
    they are made cover exactly the [n] slots from the first free one on, in
    order, none of them is larger than the kernel allows, and none crosses the
    end of a second-level cnode. *)
Theorem untyped_chunks_cover first n :
  0 <= first -> 0 <= n ->
  covered (untyped_chunks first n) = zseq first (Z.to_nat n) /\
  Forall (fun x => 0 < x.2 <= CONFIG_RETYPE_FAN_OUT_LIMIT /\ x.1 / SLOTS_PER_CNODE = (x.1 + x.2 - 1) / SLOTS_PER_CNODE)
    (untyped_chunks first n).
Proof.
  intros Hf Hn. unfold untyped_chunks.
  destruct (chunks_cover (fun pos => MIN CONFIG_RETYPE_FAN_OUT_LIMIT (SLOTS_PER_CNODE - pos mod SLOTS_PER_CNODE))
    (Z.to_nat n) first n) as [Hc Hall]; [|lia|].
  - intros p Hp. rewrite MIN_eq. change SLOTS_PER_CNODE with 128. unfold CONFIG_RETYPE_FAN_OUT_LIMIT.
    pose proof (Z.mod_pos_bound p 128). lia.
  - split; [done|]. eapply Forall_impl; [exact Hall|]. cbn. intros [p k] [Hp Hk]. cbn [fst snd] in *.
    rewrite MIN_eq in Hk. change SLOTS_PER_CNODE with 128 in *. split; [lia|].
    pose proof (Z.mod_pos_bound p 128). pose proof (Z.div_mod p 128).
    apply (Z.div_unique_pos _ _ _ (p mod 128 + k - 1)); lia.
Qed.

(** ** On the concrete machine *)

(** 4 MB of device memory and 16 MB of memory. *)
Definition sample_bootinfo : bootinfo :=
  mk_bootinfo 50 4000 20 [mk_desc (2 ^ 24) 22 true; mk_desc (2 ^ 26) 24 false].

Lemma sample_descs_ok : Forall desc_ok sample_bootinfo.(untypedList).
Proof.
  repeat constructor; cbn; try lia; [by exists 4 | by exists 4].
Qed.

Lemma find_memory_bounds_tight_witness :
  encloses (find_memory_bounds sample_bootinfo) (mk_desc (2 ^ 24) 22 true).
Proof.
  apply (find_memory_bounds_tight sample_bootinfo); [discriminate | apply sample_descs_ok | by left].
Defined.

Lemma steal_untyped_first_fit_witness : exists r, steal_untyped sample_bootinfo 21 [2 ^ 20; 2 ^ 24] idle = Ok r idle.
Proof.
  destruct (steal_untyped_first_fit idle sample_bootinfo [2 ^ 20; 2 ^ 24] 21) as (p & a & v & Hrun & _).
  - pose proof sample_descs_ok as Hok. inversion Hok as [|? ? H1 H2]; subst. inversion H2; subst.
    constructor; [split; [done|cbn; lia]|]. constructor; [split; [done|cbn; lia]|]. constructor.
  - done.
  - lia.
  - eexists. exact Hrun.
Defined.

Lemma untyped_chunks_cover_witness : covered (untyped_chunks 100 300) = zseq 100 300.
Proof. apply (untyped_chunks_cover 100 300); discriminate. Defined.
