(* ===== verification/BootSpec.v ===== *)
(** * The start of the server: the book-keeping of the first cspace

    [mark_used], the end of [sos_bootstrap], enters the slots that are in use
    into the bit fields of the new cspace.  Proved here: it succeeds, it
    establishes the invariant of the slot allocator ([cs_inv]), and which slots
    the bit fields then call used.  Because the index of the inner loop hides
    that of the outer one, a full cnode that is not the first of its
    book-keeping node is full at the top level but empty in its own bit field;
    freeing one of its slots makes the allocator hand out slots in use. *)
From S2P Require Import Prelude Utils Bitfield UtTable Bytes Sos Cspace Sample CspaceSpec CspaceGrow Mapping Layers Dma Bootstrap.

(** A loop over consecutive integers with an invariant. *)
Lemma for_each_zseq {S} (I : Z -> S -> Prop) a n (body : Z -> M S unit) s :
  (forall k s, a <= k < a + Z.of_nat n -> I k s -> exists s', body k s = Ok tt s' /\ I (k + 1) s') ->
  I a s -> exists s', for_each (zseq a n) body s = Ok tt s' /\ I (a + Z.of_nat n) s'.
Proof.
  revert a s. induction n as [|n IH]; intros a s Hstep HI.
  - exists s. split; [done|]. by replace (a + Z.of_nat 0) with a by lia.
  - rewrite zseq_S. cbn [for_each]. destruct (Hstep a s) as (s1 & H1 & HI1); [lia|done|].
    rewrite (bind_run _ _ _ _ _ H1). destruct (IH (a + 1) s1) as (s2 & H2 & HI2); [|done|].
    + intros k t Hk. apply Hstep. lia.
    + exists s2. split; [done|]. by replace (a + Z.of_nat (Datatypes.S n)) with (a + 1 + Z.of_nat n) by lia.
Qed.

Lemma ALIGN_DOWN_cnode x : 0 <= x < 2 ^ 64 -> ALIGN_DOWN x SLOTS_PER_CNODE = 128 * (x / 128).
Proof.
  intros Hx. unfold ALIGN_DOWN. change (u64 (Z.lnot (u64 (SLOTS_PER_CNODE - 1)))) with (Z.ldiff (2 ^ 64 - 1) (Z.ones 7)).
  rewrite Z.ldiff_land, Z.land_assoc, <- Z.ldiff_land.
  change (2 ^ 64 - 1) with (Z.ones 64). rewrite Z.land_ones, Z.mod_small by lia.
  rewrite Z.ldiff_ones_r, Z.shiftl_mul_pow2, Z.shiftr_div_pow2 by lia. change (2 ^ 7) with 128. lia.
Qed.

(** The bit field of a full cnode, and how many of the first [k] cnodes are in
    the [i]-th book-keeping node. *)
Definition ones : list Z := [UINTPTR_MAX; UINTPTR_MAX].
Definition held (k i : Z) : Z := Z.max 0 (Z.min 169 (k - 169 * i)).
(** The bit field of cnode [t] after the first [k] cnodes were marked full. *)
Definition filled (k t : Z) : list Z := if (t <? k) && (t mod 169 =? 0) then ones else [0; 0].

Section marks.
Context {E : Type} `{!Env E}.
Context (c : Z) (x : cspace_t) (l : list Z) (nn : Z).
Implicit Types s : sos E.

(** The cspace before the marking, as [finish_cspace] and [add_node] leave it. *)
Record boot_ready (s : sos E) : Prop := mk_ready {
  br_at : s.(cspaces) !! c = Some x;
  br_ptr : c <> 0;
  br_two : x.(two_level) = true;
  br_size : x.(top_lvl_size_bits) = INITIAL_TASK_CNODE_SIZE_BITS;
  br_top : x.(top_bf) = Some (replicate 128 0);
  br_bot : x.(bot_lvl_nodes) = Some l;
  br_n : x.(n_bot_lvl_nodes) = nn;
  br_len : 0 <= nn <= Z.of_nat (length l) /\ 8192 <= 169 * Z.of_nat (length l);
  br_mark : length x.(watermark) = 4%nat;
  br_node : forall i, 0 <= i < nn -> exists p n, l !! Z.to_nat i = Some p /\ p <> 0 /\
    s.(nodes) !! p = Some n /\ n.(n_cnodes) = 0 /\ n.(cnodes) = replicate 169 zero_bot_lvl;
  br_inj : forall i j p, 0 <= i < nn -> 0 <= j < nn -> l !! Z.to_nat i = Some p -> l !! Z.to_nat j = Some p -> i = j }.

(** The bit fields during the marking: [tb] at the top, [cnt i] cnodes in node
    [i], [fill t] the bit field of cnode [t]. *)
Record marks (tb : list Z) (cnt : Z -> Z) (fill : Z -> list Z) (s : sos E) : Prop := mk_marks {
  ms_at : s.(cspaces) !! c = Some (with_top x tb);
  ms_node : forall i, 0 <= i < nn -> exists p n, l !! Z.to_nat i = Some p /\ p <> 0 /\
    s.(nodes) !! p = Some n /\ n.(n_cnodes) = cnt i /\ length n.(cnodes) = 169%nat /\
    forall j b, (j < 169)%nat -> n.(cnodes) !! j = Some b -> b.(bf) = fill (169 * i + Z.of_nat j) }.

Hypothesis inj : forall i j p, 0 <= i < nn -> 0 <= j < nn -> l !! Z.to_nat i = Some p -> l !! Z.to_nat j = Some p -> i = j.
Hypothesis bot : x.(bot_lvl_nodes) = Some l.

(** Writing node [i]. *)
Lemma marks_set tb cnt fill cnt' fill' s i p n' :
  marks tb cnt fill s -> 0 <= i < nn -> l !! Z.to_nat i = Some p ->
  n'.(n_cnodes) = cnt' i -> length n'.(cnodes) = 169%nat ->
  (forall j b, (j < 169)%nat -> n'.(cnodes) !! j = Some b -> b.(bf) = fill' (169 * i + Z.of_nat j)) ->
  (forall k, 0 <= k -> k <> i -> cnt' k = cnt k) ->
  (forall k j, 0 <= k -> k <> i -> 0 <= j < 169 -> fill' (169 * k + j) = fill (169 * k + j)) ->
  marks tb cnt' fill' (set_node s p n').
Proof.
  intros [Hat Hnode] Hi Hp Hn Hlen Hbf Hcnt Hfill. split; [done|]. intros k Hk.
  destruct (Hnode k Hk) as (q & m & Hq & Hq0 & Hm & Hmn & Hml & Hmb). cbn [nodes set_node].
  destruct (Z.eq_dec k i) as [->|Hne].
  - assert (q = p) as -> by congruence. exists p, n'. rewrite lookup_insert_eq. done.
  - exists q, m. rewrite lookup_insert_ne.
    2:{ intros ->. by apply Hne, (inj _ _ q). }
    do 3 (split; [done|]). split; [by rewrite Hcnt by lia|]. split; [done|].
    intros j b Hj Hb. rewrite Hfill by lia. by apply Hmb.
Qed.

Lemma marks_ptr tb cnt fill s i :
  marks tb cnt fill s -> 0 <= i < nn -> exists p n, l !! Z.to_nat i = Some p /\ p <> 0 /\
    bot_lvl_node_ptr c i s = Ok p s /\ s.(nodes) !! p = Some n /\ n.(n_cnodes) = cnt i /\ length n.(cnodes) = 169%nat /\
    forall j b, (j < 169)%nat -> n.(cnodes) !! j = Some b -> b.(bf) = fill (169 * i + Z.of_nat j).
Proof.
  intros [Hat Hnode] Hi. destruct (Hnode i Hi) as (p & n & Hp & Hp0 & Hrest). exists p, n.
  do 2 (split; [done|]). split; [|done]. apply (bot_lvl_node_ptr_run s c (with_top x tb) l); try done. lia.
Qed.

Lemma node_modify_run s p n f : s.(nodes) !! p = Some n -> node_modify p f s = Ok tt (set_node s p (f n)).
Proof.
  intros Hn. unfold node_modify. rewrite (bind_run _ _ _ _ _ (node_get_run s p n Hn)). by apply (node_put_run s p n).
Qed.

Lemma held_S k i : 0 <= k -> held (k + 1) i = held k i + (if i =? k / 169 then 1 else 0).
Proof.
  intros Hk. unfold held. pose proof (Z.div_mod k 169). pose proof (Z.mod_pos_bound k 169).
  destruct (Z.eqb_spec i (k / 169)) as [->|Hne]; lia.
Qed.

(** One more cnode: the count of the node it is in. *)
Lemma marks_count tb fill s k :
  marks tb (held k) fill s -> 0 <= k -> k / 169 < nn ->
  exists p n, bot_lvl_node_ptr c (k / 169) s = Ok p s /\ p <> 0 /\ l !! Z.to_nat (k / 169) = Some p /\
    node_modify p count_cnode s = Ok tt (set_node s p n) /\ marks tb (held (k + 1)) fill (set_node s p n).
Proof.
  intros Hm Hk Hn. assert (0 <= k / 169) by (apply Z.div_pos; lia).
  destruct (marks_ptr _ _ _ s (k / 169) Hm) as (p & n & Hp & Hp0 & Hptr & Hnode & Hcnt & Hlen & Hbf); [lia|].
  exists p, (count_cnode n). do 3 (split; [done|]). split; [by apply node_modify_run|].
  apply (marks_set tb (held k) fill _ fill s (k / 169) p); try done.
  - cbn. rewrite Hcnt, held_S, Z.eqb_refl by done. done.
  - intros j Hj Hne. rewrite held_S by done. rewrite (proj2 (Z.eqb_neq _ _) Hne). lia.
Qed.

Lemma fill_word_run s p n b i :
  0 <= i < 2 -> s.(nodes) !! p = Some n -> n.(cnodes) !! 0%nat = Some b -> length b.(bf) = 2%nat ->
  fill_word p i s = Ok tt (set_node s p
    {| n with cnodes := <[0%nat := {| b with bf := <[Z.to_nat i := UINTPTR_MAX]> b.(bf) |}]> n.(cnodes) |}).
Proof.
  intros Hi Hn Hb Hlen. assert (CNODE_INDEX i = 0) as Hci.
  { unfold CNODE_INDEX. change (CNODE_SLOTS CNODE_SIZE_BITS) with 128. by rewrite Z.div_small by lia. }
  unfold fill_word. rewrite (bind_run _ _ _ _ _ (node_get_run s p n Hn)), Hci.
  rewrite (bind_run _ _ _ b s) by (by apply index_run).
  destruct (lookup_lt_is_Some_2 b.(bf) (Z.to_nat i)) as [w Hw]; [lia|].
  rewrite (bind_run _ _ _ w s) by (apply index_run; done || lia). by apply (node_put_run s p n).
Qed.

Lemma fill_words_run s p n b :
  s.(nodes) !! p = Some n -> n.(cnodes) !! 0%nat = Some b -> length b.(bf) = 2%nat ->
  fill_words p s = Ok tt (set_node s p {| n with cnodes := <[0%nat := {| b with bf := ones |}]> n.(cnodes) |}).
Proof.
  intros Hn Hb Hlen. unfold fill_words. change (zseq 0 _) with [0; 1]. cbn [for_each].
  rewrite (bind_run _ _ _ _ _ (fill_word_run s p n b 0 ltac:(lia) Hn Hb Hlen)).
  set (b1 := {| b with bf := _ |}). set (n1 := {| n with cnodes := _ |}).
  rewrite (bind_run _ _ _ _ _ (fill_word_run (set_node s p n1) p n1 b1 1 ltac:(lia) (lookup_insert_eq _ _ _)
    (list_lookup_insert_eq _ _ _ (lookup_lt_Some _ _ _ Hb)) ltac:(cbn; by rewrite length_insert))).
  unfold mret, M_ret, set_node. cbn. f_equal. f_equal. rewrite insert_insert_eq, list_insert_insert_eq.
  destruct b as [[|w0 [|w1 [|]]] u]; try done.
Qed.

Lemma filled_S k i j : 0 <= k -> 0 <= i -> 0 <= j < 169 ->
  filled (k + 1) (169 * i + j) = if (i =? k / 169) && (j =? 0) then ones else filled k (169 * i + j).
Proof.
  intros Hk Hi Hj. unfold filled. pose proof (Z.div_mod k 169). pose proof (Z.mod_pos_bound k 169).
  assert ((169 * i + j) mod 169 = j) as -> by (symmetry; apply (Z.mod_unique_pos _ _ i); lia).
  destruct (Z.eqb_spec i (k / 169)), (Z.eqb_spec j 0), (Z.ltb_spec (169 * i + j) (k + 1)), (Z.ltb_spec (169 * i + j) k);
    cbn; try done; lia.
Qed.

Lemma filled_length k t : length (filled k t) = 2%nat.
Proof. unfold filled. by destruct (_ && _). Qed.

(** The state when the first [k] cnodes have been marked full. *)
Definition full_marked (k : Z) s : Prop :=
  exists tb, bf_wf tb /\ length tb = 128%nat /\ (forall t, 0 <= t -> bf_test tb t = (t <? k)) /\
    marks tb (held k) (filled k) s.

Lemma mark_full_step k s :
  full_marked k s -> 0 <= k < 8192 -> k / 169 < nn ->
  exists s', mark_full c (k * SLOTS_PER_CNODE) s = Ok tt s' /\ full_marked (k + 1) s'.
Proof.
  intros (tb & Hwf & Hlen & Htest & Hm) Hk Hn. assert (0 <= k / 169) by (apply Z.div_pos; lia).
  unfold mark_full. replace (k * SLOTS_PER_CNODE) with (slot_of k 0) by (unfold slot_of; change SLOTS_PER_CNODE with 128; lia).
  rewrite NODE_INDEX_slot, TOP_LVL_INDEX_slot by lia.
  destruct (marks_count tb _ s k Hm) as (p & n & Hptr & Hp0 & Hp & Hcount & Hm1); [lia|done|].
  rewrite (bind_run _ _ _ _ _ Hptr), assert_bind by (by apply negb_true_iff, Z.eqb_neq).
  rewrite (bind_run _ _ _ _ _ Hcount). set (s1 := set_node s p n) in *.
  destruct (marks_ptr _ _ _ s1 (k / 169) Hm1) as (p' & n1 & Hp' & _ & _ & Hn1 & Hcnt & Hl1 & Hbf); [lia|].
  assert (p' = p) as -> by congruence.
  destruct (lookup_lt_is_Some_2 n1.(cnodes) 0) as [b Hb]; [lia|].
  assert (b.(bf) = filled k (169 * (k / 169))) as Hb0 by (rewrite (Hbf 0%nat b) by (done || lia); f_equal; lia).
  rewrite (bind_run _ _ _ _ _ (fill_words_run s1 p n1 b Hn1 Hb ltac:(rewrite Hb0; apply filled_length))).
  set (n2 := {| n1 with cnodes := _ |}).
  assert (marks tb (held (k + 1)) (filled (k + 1)) (set_node s1 p n2)) as Hm2.
  { apply (marks_set tb (held (k + 1)) (filled k) _ _ s1 (k / 169) p); try done; [by cbn; rewrite length_insert| |].
    - intros j b' Hj. cbn [cnodes n2]. rewrite filled_S, Z.eqb_refl by lia. cbn [andb].
      destruct j as [|j].
      + rewrite list_lookup_insert_eq by lia. by intros [= <-].
      + rewrite list_lookup_insert_ne by done. rewrite (proj2 (Z.eqb_neq _ 0)) by lia. by apply Hbf.
    - intros i j Hi Hne Hj. rewrite filled_S by lia. by rewrite (proj2 (Z.eqb_neq _ _) Hne). }
  destruct (bf_set_bit_spec tb k Hwf) as (tb' & Hset & Hwf' & Hlen' & Htest'); [unfold bf_range; lia|].
  rewrite (on_top_bf_run _ c _ tb _ tt tb' (ms_at _ _ _ _ Hm2)) by done. eexists. split; [done|].
  exists tb'. split; [done|]. split; [lia|]. split.
  - intros t Ht. rewrite Htest', Htest by done. destruct (Z.eqb_spec t k), (Z.ltb_spec t k), (Z.ltb_spec t (k + 1)); done || lia.
  - destruct Hm2 as [_ Hnodes]. split; [apply lookup_insert_eq | exact Hnodes].
Qed.

(** The bit fields at the end: cnode [t0] is partly in use. *)
Definition with_part (t0 : Z) (f : list Z) (t : Z) : list Z := if t =? t0 then f else filled t0 t.

Definition part_marked (tb : list Z) (t0 cnt q : Z) s : Prop :=
  exists f, bf_wf f /\ length f = 2%nat /\ (forall r, 0 <= r -> bf_test f r = (r <? q)) /\
    marks tb (held cnt) (with_part t0 f) s.

Lemma bf_test_zero r : bf_test [0; 0] r = false.
Proof. unfold bf_test. destruct (Z.to_nat _) as [|[|]]; cbn; [apply Z.bits_0 | apply Z.bits_0 | done]. Qed.

Lemma marks_ext tb cnt fill fill' s :
  (forall t, 0 <= t -> fill' t = fill t) -> marks tb cnt fill s -> marks tb cnt fill' s.
Proof.
  intros Hf [Hat Hn]. split; [done|]. intros i Hi. destruct (Hn i Hi) as (p & n & H1 & H2 & H3 & H4 & H5 & Hbf).
  exists p, n. do 5 (split; [done|]). intros j b Hj Hb. rewrite Hf by lia. by apply Hbf.
Qed.

Lemma part_start tb t0 cnt s : 0 <= t0 -> marks tb (held cnt) (filled t0) s -> part_marked tb t0 cnt 0 s.
Proof.
  intros Ht Hm. exists [0; 0]. split; [by repeat constructor|]. split; [done|]. split.
  - intros r Hr. rewrite bf_test_zero. symmetry. apply Z.ltb_ge. lia.
  - eapply marks_ext; [|exact Hm]. intros t _. unfold with_part, filled.
    destruct (Z.eqb_spec t t0) as [->|]; [by rewrite Z.ltb_irrefl|done].
Qed.

(** One more slot of the cnode that is partly in use. *)
Lemma part_step tb t0 cnt q p s :
  0 <= q < 128 -> 0 <= t0 -> t0 / 169 < nn -> l !! Z.to_nat (t0 / 169) = Some p -> part_marked tb t0 cnt q s ->
  exists s', on_bot_bf p (CNODE_INDEX (slot_of t0 q)) (bf_set_bit (BOT_LVL_INDEX (slot_of t0 q))) s = Ok tt s' /\
    part_marked tb t0 cnt (q + 1) s'.
Proof.
  intros Hq Ht Hn Hp (f & Hwf & Hlen & Htest & Hm). assert (0 <= t0 / 169) by (apply Z.div_pos; lia).
  rewrite CNODE_INDEX_slot, BOT_LVL_INDEX_slot by done. pose proof (mod_169 t0). pose proof (Z.div_mod t0 169).
  destruct (marks_ptr _ _ _ s (t0 / 169) Hm) as (p' & n & Hp' & _ & _ & Hnode & Hcnt & Hl & Hbf); [lia|].
  assert (p' = p) as -> by congruence.
  destruct (lookup_lt_is_Some_2 n.(cnodes) (Z.to_nat (t0 mod 169))) as [b Hb]; [lia|].
  assert (b.(bf) = f) as Hbf0.
  { rewrite (Hbf (Z.to_nat (t0 mod 169)) b ltac:(lia) Hb). unfold with_part. by rewrite (proj2 (Z.eqb_eq _ t0)) by lia. }
  destruct (bf_set_bit_spec f q Hwf) as (f' & Hset & Hwf' & Hlen' & Htest'); [unfold bf_range; lia|].
  rewrite (on_bot_bf_run s p n (t0 mod 169) b _ tt f') by (done || lia || by rewrite Hbf0).
  eexists. split; [done|]. exists f'. split; [done|]. split; [lia|]. split.
  - intros r Hr. rewrite Htest', Htest by done.
    destruct (Z.eqb_spec r q), (Z.ltb_spec r q), (Z.ltb_spec r (q + 1)); done || lia.
  - apply (marks_set tb (held cnt) (with_part t0 f) _ _ s (t0 / 169) p); try done; [by cbn; rewrite length_insert| |].
    + intros j b' Hj. cbn [cnodes set_bf]. unfold with_part.
      destruct (decide (j = Z.to_nat (t0 mod 169))) as [->|Hne].
      * rewrite list_lookup_insert_eq by lia. intros [= <-]. by rewrite (proj2 (Z.eqb_eq _ t0)) by lia.
      * rewrite list_lookup_insert_ne by done. intros Hb'. rewrite (Hbf j b' Hj Hb'). unfold with_part.
        by rewrite !(proj2 (Z.eqb_neq _ t0)) by lia.
    + intros k j Hk Hne Hj. unfold with_part. assert (169 * k + j <> t0) as Hd.
      { intros Heq. apply Hne. rewrite <- Heq. apply (Z.div_unique_pos _ 169 _ j); lia. }
      by rewrite !(proj2 (Z.eqb_neq _ t0) Hd).
Qed.

Lemma bf_test_replicate n r : bf_test (replicate n 0) r = false.
Proof.
  unfold bf_test. destruct (replicate n 0 !! _) as [w|] eqn:Hw; [|done].
  apply lookup_replicate in Hw as [-> _]. apply Z.bits_0.
Qed.

Lemma full_marked_start s : boot_ready s -> full_marked 0 s.
Proof.
  intros [ ]. exists (replicate 128 0). split; [apply Forall_replicate; lia|]. split; [apply length_replicate|]. split.
  - intros t Ht. rewrite bf_test_replicate. symmetry. apply Z.ltb_ge. lia.
  - split; [by rewrite with_top_same|]. intros i Hi.
    destruct (br_node0 i Hi) as (p & n & H1 & H2 & H3 & H4 & H5). exists p, n. rewrite H4, H5, length_replicate.
    do 3 (split; [done|]). split; [unfold held; lia|]. split; [done|].
    intros j b Hj [-> _]%lookup_replicate. unfold filled. by rewrite (proj2 (Z.ltb_ge _ 0)) by lia.
Qed.

(** [mark_used] as a whole. *)
Lemma mark_used_run s first n_cnodes :
  boot_ready s -> 0 <= first -> first / 128 + 1 <= 8192 -> n_cnodes <= 8192 ->
  Z.max (first / 128 + 1) n_cnodes <= 169 * nn ->
  exists s' tb, mark_used c first n_cnodes s = Ok tt s' /\ bf_wf tb /\ length tb = 128%nat /\
    (forall t, 0 <= t -> bf_test tb t = (t <? first / 128)) /\
    part_marked tb (first / 128) (Z.max (first / 128 + 1) n_cnodes) (first mod 128) s'.
Proof.
  intros Hs Hf Hk Hc Hn. set (k := first / 128) in *. pose proof (Z.div_mod first 128) as Hdm. pose proof (Z.mod_pos_bound first 128) as Hmb.
  assert (0 <= k) as Hk0 by (apply Z.div_pos; lia).
  assert (forall t, 0 <= t < Z.max (k + 1) n_cnodes -> t / 169 < nn) as Hin.
  { intros t Ht. apply Z.div_lt_upper_bound; lia. }
  unfold mark_used. rewrite ALIGN_DOWN_cnode by lia. change SLOTS_PER_CNODE with 128. fold k.
  replace (128 * k / 128) with k by (symmetry; rewrite Z.mul_comm; apply Z.div_mul; lia).
  destruct (for_each_zseq full_marked 0 (Z.to_nat k) (fun k => mark_full c (k * 128)) s) as (s1 & H1 & Hm1).
  { intros j t Hj Ht. apply (mark_full_step j t); [done|lia|]. apply Hin. lia. }
  { by apply full_marked_start. }
  rewrite (bind_run _ _ _ _ _ H1). rewrite Z2Nat.id, Z.add_0_l in Hm1 by lia.
  destruct Hm1 as (tb & Hwf & Hlen & Htest & Hm1).
  change BOT_LVL_PER_NODE with 169.
  destruct (marks_count tb _ s1 k Hm1) as (p & n & Hptr & Hp0 & Hp & Hcount & Hm2); [lia|apply Hin; lia|].
  rewrite (bind_run _ _ _ _ _ Hptr), (bind_run _ _ _ _ _ Hcount). cbv zeta.
  destruct (for_each_zseq (fun i => part_marked tb k (k + 1) (i - 128 * k)) (128 * k) (Z.to_nat (first - 128 * k))
    (fun i => on_bot_bf p (CNODE_INDEX i) (bf_set_bit (BOT_LVL_INDEX i))) (set_node s1 p n)) as (s2 & H2 & Hm3).
  { intros i t Hi Ht. assert (slot_of k (i - 128 * k) = i) as Hslot by (unfold slot_of; lia).
    destruct (part_step tb k (k + 1) (i - 128 * k) p t) as (t' & Hrun & Ht'); try done; [lia|apply Hin; lia|].
    rewrite Hslot in Hrun. exists t'. split; [exact Hrun|]. by replace (i + 1 - 128 * k) with (i - 128 * k + 1) by lia. }
  { rewrite Z.sub_diag. apply part_start; done. }
  rewrite (bind_run _ _ _ _ _ H2).
  destruct (for_each_zseq (fun i => part_marked tb k i (first mod 128)) (k + 1) (Z.to_nat (n_cnodes - (k + 1)))
    (fun i => p ← bot_lvl_node_ptr c (i / 169); node_modify p count_cnode) s2) as (s3 & H3 & Hm4).
  { intros i t Hi (f & Hf1 & Hf2 & Hf3 & Hm).
    destruct (marks_count tb _ t i Hm) as (p' & n' & Hptr' & _ & _ & Hcount' & Hm'); [lia|apply Hin; lia|].
    rewrite (bind_run _ _ _ _ _ Hptr'), Hcount'. eexists. split; [done|]. by exists f. }
  { by replace (first mod 128) with (128 * k + Z.of_nat (Z.to_nat (first - 128 * k)) - 128 * k) by lia. }
  exists s3, tb. split; [exact H3|]. do 3 (split; [done|]).
  by replace (Z.max (k + 1) n_cnodes) with (k + 1 + Z.of_nat (Z.to_nat (n_cnodes - (k + 1)))) by lia.
Qed.

(** The view of the slot allocator. *)
Lemma marks_cnode_bf tb cnt fill s t :
  x.(n_bot_lvl_nodes) = nn -> marks tb cnt fill s -> 0 <= t ->
  cnode_bf s.(nodes) (with_top x tb) t =
  if (t / 169 <? nn) && (t mod 169 <? cnt (t / 169)) then Some (fill t) else None.
Proof.
  intros Hnn [Hat Hnode] Ht. assert (0 <= t / 169) by (apply Z.div_pos; lia).
  pose proof (mod_169 t). pose proof (Z.div_mod t 169). unfold cnode_bf. cbn [bot_lvl_nodes n_bot_lvl_nodes with_top].
  rewrite bot, Hnn. cbn. destruct (Z.ltb_spec (t / 169) nn) as [Hlt|]; [|done].
  destruct (Hnode (t / 169)) as (p & n & -> & _ & Hn & Hcnt & Hlen & Hbf); [lia|]. cbn. rewrite Hn. cbn. rewrite Hcnt.
  destruct (t mod 169 <? cnt (t / 169)); [|done].
  destruct (lookup_lt_is_Some_2 n.(cnodes) (Z.to_nat (t mod 169))) as [b Hb]; [lia|]. rewrite Hb. cbn.
  rewrite (Hbf (Z.to_nat (t mod 169)) b ltac:(lia) Hb). do 2 f_equal. lia.
Qed.

Lemma held_mem cnt t : 0 <= t -> (t mod 169 <? held cnt (t / 169)) = (t <? cnt).
Proof.
  intros Ht. pose proof (mod_169 t). pose proof (Z.div_mod t 169). unfold held.
  destruct (Z.ltb_spec t cnt), (Z.ltb_spec (t mod 169) (Z.max 0 (Z.min 169 (cnt - 169 * (t / 169))))); done || lia.
Qed.

Lemma marked_bf tb t0 cnt f s t :
  x.(n_bot_lvl_nodes) = nn -> cnt <= 169 * nn -> marks tb (held cnt) (with_part t0 f) s -> 0 <= t ->
  cnode_bf s.(nodes) (with_top x tb) t = if t <? cnt then Some (with_part t0 f t) else None.
Proof.
  intros Hnn Hle Hm Ht. rewrite (marks_cnode_bf tb (held cnt) _ s t Hnn Hm Ht), held_mem by done.
  destruct (Z.ltb_spec t cnt) as [Hlt|]; [|by rewrite andb_false_r].
  by rewrite (proj2 (Z.ltb_lt _ nn)) by (apply Z.div_lt_upper_bound; lia).
Qed.

(** The node invariant: cnodes that are not there yet have empty bit fields. *)
Lemma marked_node_ok tb t0 cnt f s i p n :
  bf_wf f -> length f = 2%nat -> t0 < cnt -> marks tb (held cnt) (with_part t0 f) s ->
  0 <= i < nn -> l !! Z.to_nat i = Some p -> s.(nodes) !! p = Some n -> node_ok n.
Proof.
  intros Hwf Hlen Ht [_ Hnode] Hi Hp Hn. destruct (Hnode i Hi) as (p' & n' & Hp' & _ & Hn' & Hcnt & Hl & Hbf).
  assert (p' = p) as -> by congruence. assert (n' = n) as -> by congruence.
  split; [done | rewrite Hcnt; unfold held; lia | |].
  - intros j b Hb. rewrite (Hbf j b) by (apply lookup_lt_Some in Hb as ?; done || lia).
    unfold with_part. destruct (_ =? t0); [done|]. split; [apply filled_length|]. unfold filled, ones, UINTPTR_MAX.
    destruct (_ && _); repeat constructor; lia.
  - intros j b Hj Hb. pose proof (lookup_lt_Some _ _ _ Hb). rewrite (Hbf j b) by (done || lia).
    rewrite Hcnt in Hj. unfold held in Hj. unfold with_part, zero_bf, filled.
    rewrite (proj2 (Z.eqb_neq _ t0)), (proj2 (Z.ltb_ge _ t0)) by lia. done.
Qed.
End marks.

(** A slot is called used when its cnode is full and the first of its
    book-keeping node, or when it is one of those in use of the last cnode. *)
Definition recorded (first q : Z) : bool :=
  (q / 128 <? first / 128) && (q / 128 mod 169 =? 0) || (q / 128 =? first / 128) && (q mod 128 <? first mod 128).

Lemma bf_test_ones r : 0 <= r < 128 -> bf_test ones r = true.
Proof.
  intros Hr. apply bf_test_full; [by repeat constructor|]. unfold bf_range, ones. cbn. lia.
Qed.

Section inv.
Context {E : Type} `{!Env E} (c : Z) (x : cspace_t) (l : list Z) (nn : Z).

Lemma marked_inv (s s' : sos E) tb first cnt f :
  boot_ready c x l nn s -> 0 <= first -> first mod 128 <> 127 -> first / 128 < cnt <= 169 * nn ->
  bf_wf tb -> length tb = 128%nat -> (forall t, 0 <= t -> bf_test tb t = (t <? first / 128)) ->
  bf_wf f -> length f = 2%nat -> (forall r, 0 <= r -> bf_test f r = (r <? first mod 128)) ->
  marks c x l nn tb (held cnt) (with_part (first / 128) f) s' ->
  cs_inv s' c (with_top x tb) tb l.
Proof.
  intros [ ] Hf H127 Hcnt Hwf Hlen Htest Hfwf Hflen Hftest Hm. pose proof (Z.mod_pos_bound first 128).
  pose proof (fun t => marked_bf c x l nn br_bot0 tb _ _ f s' t br_n0 (proj2 Hcnt) Hm) as Hview.
  split; try done; cbn [top_lvl_size_bits bot_lvl_nodes n_bot_lvl_nodes with_top watermark]; rewrite ?br_size0, ?br_n0, ?Hlen;
    try (done || lia).
  - by apply (ms_at _ _ _ _ _ _ _ _ Hm).
  - intros i Hi. destruct (ms_node _ _ _ _ _ _ _ _ Hm i Hi) as (p & n & Hp & Hp0 & Hn & _). exists p, n.
    do 3 (split; [done|]). apply (marked_node_ok c x l nn tb (first / 128) cnt f s' i p); done || lia.
  - intros t g Ht Hclr. rewrite Htest in Hclr by lia. apply Z.ltb_ge in Hclr. rewrite Hview by lia.
    destruct (t <? cnt); [|done]. intros [= <-]. unfold with_part. destruct (Z.eqb_spec t (first / 128)) as [->|Hne].
    + split; [rewrite Hftest by lia; apply Z.ltb_ge; lia|]. exists (first mod 128). split; [lia|].
      rewrite Hftest by lia. apply Z.ltb_irrefl.
    + unfold filled. rewrite (proj2 (Z.ltb_ge t _)) by lia. by apply zero_bf_avail.
  - intros t Ht Hset. rewrite Htest in Hset by lia. apply Z.ltb_lt in Hset. rewrite Hview by lia.
    rewrite (proj2 (Z.ltb_lt t cnt)) by lia. by eexists.
Qed.

(** With 127 slots in use in the last cnode, that cnode has no slot left that the
    allocator gives out, but the top level does not say so. *)
Lemma marked_not_inv (s s' : sos E) tb first cnt f :
  boot_ready c x l nn s -> 0 <= first -> first mod 128 = 127 -> first / 128 < cnt <= 169 * nn ->
  length tb = 128%nat -> (forall t, 0 <= t -> bf_test tb t = (t <? first / 128)) ->
  first / 128 < 8192 -> (forall r, 0 <= r -> bf_test f r = (r <? first mod 128)) ->
  marks c x l nn tb (held cnt) (with_part (first / 128) f) s' ->
  ~ cs_inv s' c (with_top x tb) tb l.
Proof.
  intros [ ] Hf H127 Hcnt Hlen Htest Hk Hftest Hm I. assert (0 <= first / 128) by (apply Z.div_pos; lia).
  destruct (ci_avail _ _ _ _ _ I (first / 128) f) as [_ (j & Hj & Hfree)].
  - rewrite Hlen. lia.
  - rewrite Htest by done. apply Z.ltb_irrefl.
  - rewrite (marked_bf c x l nn br_bot0 tb _ cnt f s') by (done || lia).
    rewrite (proj2 (Z.ltb_lt _ cnt)) by lia. unfold with_part. by rewrite Z.eqb_refl.
  - rewrite Hftest, H127, (proj2 (Z.ltb_lt _ _)) in Hfree by lia. done.
Qed.

Lemma marked_used (s s' : sos E) tb first cnt f q :
  boot_ready c x l nn s -> 0 <= first -> 0 <= q -> first / 128 < cnt <= 169 * nn ->
  (forall r, 0 <= r -> bf_test f r = (r <? first mod 128)) ->
  marks c x l nn tb (held cnt) (with_part (first / 128) f) s' ->
  slot_used s' c q = recorded first q.
Proof.
  intros [ ] Hf Hq Hcnt Hftest Hm. pose proof (Z.mod_pos_bound q 128). assert (0 <= q / 128) by (apply Z.div_pos; lia).
  unfold slot_used. rewrite (ms_at _ _ _ _ _ _ _ _ Hm), (marked_bf c x l nn br_bot0 tb _ cnt f s') by (done || lia).
  unfold recorded, with_part, filled.
  destruct (Z.eqb_spec (q / 128) (first / 128)) as [->|Hne].
  - rewrite (proj2 (Z.ltb_lt _ cnt)), Z.ltb_irrefl by lia. cbn. apply Hftest. lia.
  - rewrite andb_false_l, orb_false_r. destruct (Z.ltb_spec (q / 128) (first / 128)) as [Hlt|Hge]; cbn.
    + rewrite (proj2 (Z.ltb_lt _ cnt)) by lia. destruct (_ =? 0); [apply bf_test_ones; lia | apply bf_test_zero].
    + destruct (_ <? cnt); [apply bf_test_zero|done].
Qed.
End inv.

(** C27 The book-keeping at the end of [sos_bootstrap] succeeds; at the top level
    exactly the cnodes below the last one in use are full, and the slots recorded
    as used one by one are those of the last cnode and those of the full cnodes
    that come first in their book-keeping node, and no others.  The result
    satisfies the invariant of the slot allocator exactly when the number of
    slots in use does not leave 127 in the last cnode: with 127 that cnode has
    nothing left to give out but is not marked full at the top level, which
    nothing in the code rules out. *)
Theorem mark_used_establishes_invariant {E} `{!Env E} (s : sos E) c x l nn first n_cnodes :
  boot_ready c x l nn s -> 0 <= first ->
  first / 128 + 1 <= 8192 -> n_cnodes <= 8192 -> Z.max (first / 128 + 1) n_cnodes <= 169 * nn ->
  exists s' tb, mark_used c first n_cnodes s = Ok tt s' /\
    (cs_inv s' c (with_top x tb) tb l <-> first mod 128 <> 127) /\
    (forall t, 0 <= t -> bf_test tb t = (t <? first / 128)) /\
    forall q, 0 <= q -> slot_used s' c q = recorded first q.
Proof.
  intros Hs Hf Hk Hc Hn. pose proof Hs as [ ].
  destruct (mark_used_run c x l nn br_inj0 br_bot0 s first n_cnodes Hs Hf Hk Hc Hn)
    as (s' & tb & Hrun & Hwf & Hlen & Htest & f & Hfwf & Hflen & Hftest & Hm).
  assert (first / 128 < Z.max (first / 128 + 1) n_cnodes <= 169 * nn) as Hcnt by lia.
  exists s', tb. split; [done|]. split; [split|split; [done|]].
  - intros I H127. revert I. by eapply (marked_not_inv c x l nn s s' tb first); try done; lia.
  - intros H127. by eapply (marked_inv c x l nn s s' tb first).
  - intros q Hq. by eapply (marked_used c x l nn s s' tb first).
Qed.

(** ** On the concrete machine *)

(** A new cspace with one book-keeping node. *)
Definition boot_nodes : list Z := 7777 :: replicate 48 0.
Definition boot_cspace : cspace_t :=
  mk_cspace 2 true INITIAL_TASK_CNODE_SIZE_BITS (Some (replicate 128 0)) (Some boot_nodes) 1 0 0 (Some 100) [0; 0; 0; 0].
Definition boot_sample : sos toy :=
  let s := idle in {| s with cspaces := {[100 := boot_cspace]}; nodes := {[7777 := zero_node]} |}.

Lemma boot_sample_ready : boot_ready 100 boot_cspace boot_nodes 1 boot_sample.
Proof.
  split; try reflexivity; try discriminate.
  - split; [split|]; discriminate.
  - intros i Hi. assert (i = 0) as -> by lia. by exists 7777, zero_node.
  - intros. lia.
Qed.

Lemma mark_used_establishes_invariant_witness :
  (exists s' tb, mark_used 100 300 4 boot_sample = Ok tt s' /\ cs_inv s' 100 (with_top boot_cspace tb) tb boot_nodes) /\
  (exists s' tb, mark_used 100 255 4 boot_sample = Ok tt s' /\ ~ cs_inv s' 100 (with_top boot_cspace tb) tb boot_nodes).
Proof.
  split.
  - destruct (mark_used_establishes_invariant boot_sample 100 boot_cspace boot_nodes 1 300 4 boot_sample_ready)
      as (s' & tb & Hrun & Hinv & _); [lia | discriminate | lia | discriminate |].
    exists s', tb. split; [exact Hrun | apply Hinv; discriminate].
  - destruct (mark_used_establishes_invariant boot_sample 100 boot_cspace boot_nodes 1 255 4 boot_sample_ready)
      as (s' & tb & Hrun & Hinv & _); [lia | discriminate | lia | discriminate |].
    exists s', tb. split; [exact Hrun|]. intros I. apply (proj1 Hinv I). reflexivity.
Defined.

(** A slot in use is given out again: with the slots 0 to 299 in use after the
    start, freeing slot 200 makes the allocator hand out slot 128, in which a
    capability is stored: the bit field of the second cnode was never filled. *)
Theorem boot_slot_given_out_again :
  exists s', (mark_used 100 300 4;; cspace_free_slot 100 200;; cspace_alloc_slot 100) boot_sample = Ok 128 s'.
Proof.
  run_to (mark_used 100 300 4;; cspace_free_slot 100 200;; cspace_alloc_slot 100) boot_sample 128 H.
  eexists. exact H.
Qed.

(** With the slots 0 to 254 in use after the start, the next allocation takes the
    last slot of the second cnode and then looks for a free bit past the end of
    that cnode's bit field. *)
Theorem boot_full_cnode_overruns :
  (mark_used 100 255 4;; cspace_alloc_slot 100) boot_sample = Stuck Segv.
Proof. vm_compute. reflexivity. Qed.
