(* ===== verification/FrameTable.v ===== *)
(** * The frame table

    [sos/src/vm/frametable.c]: one entry per physical frame SOS may hand out,
    a free list threaded through the entries, and second-chance (clock)
    replacement once every frame is in use.

    [pageout] of [pager.c] calls back into this file; the operations that need
    it take it as an argument ([Pager] defines it).  A pointer to an entry is
    the entry's number; [get_frame] returns [None] for NULL. *)
From S2P Require Import Prelude Utils Bitfield UtTable Bytes Sos Cspace CspaceSpec CspaceGrow Mapping.
From S2P Require Import UtAlloc.

Definition SOS_FRAME_TABLE : Z := 0x80000000000.
Definition SIZEOF_FTE : Z := 56.
Definition MAX_PROCESSES : Z := 32.

Section frame_table.
Context {E : Type} `{!Env E}.

Definition ft_get : M (sos E) frame_table_t := gets ft.
Definition ft_modify (f : frame_table_t -> frame_table_t) : M (sos E) unit :=
  modify (fun s => {| s with ft := f s.(ft) |}).

(** [frame_table[i]], read and written *)
Definition fte_get (i : Z) : M (sos E) frame_table_entry := t ← ft_get; index t.(frame_table) i.
Definition fte_modify (i : Z) (f : frame_table_entry -> frame_table_entry) : M (sos E) unit :=
  e ← fte_get i;
  ft_modify (fun t => {| t with frame_table := <[Z.to_nat i := f e]> t.(frame_table) |}).

Definition vaddr_to_page_num (vaddr : Z) : M (sos E) Z :=
  t ← ft_get; mret (u64 (vaddr - t.(base_vaddr)) / PAGE_SIZE_4K).
Definition page_num_to_vaddr (page : Z) : M (sos E) Z :=
  t ← ft_get; mret (u64 (page * PAGE_SIZE_4K + t.(base_vaddr))).

(** The results of [alloc_retype_map]: the untyped (NULL on failure), and what
    it stored through its three pointers. *)
Record mapped : Type := mk_mapped { m_ut : Z; m_cap : Z; m_vaddr : Z; m_paddr : option Z }.

Definition alloc_retype_map (vaddr : Z) : M (sos E) mapped :=
  t ← ft_get;
  let cs := t.(ft_cspace) in
  r ← on_ut ut_alloc_4k_untyped;
  let '(u, paddr) := r in
  if u =? 0 then mret (mk_mapped 0 0 0 None)
  else
    cptr ← cspace_alloc_slot cs;
    if cptr =? seL4_CapNull then
      on_ut (ut_free u seL4_PageBits);; mret (mk_mapped 0 cptr 0 (Some paddr))
    else
      cap ← ut_cap_of u;
      err ← cspace_untyped_retype cs cap cptr seL4_ARM_SmallPageObject seL4_PageBits;
      if negb (err =? seL4_NoError) then
        on_ut (ut_free u seL4_PageBits);;
        _ ← cspace_delete cs cptr; cspace_free_slot cs cptr;;
        mret (mk_mapped 0 cptr 0 (Some paddr))
      else
        err ← map_frame cs cptr seL4_CapInitThreadVSpace vaddr seL4_AllRights seL4_ARM_Default_VMAttributes;
        if negb (err =? seL4_NoError) then
          on_ut (ut_free u seL4_PageBits);;
          _ ← cspace_delete cs cptr; cspace_free_slot cs cptr;;
          mret (mk_mapped 0 cptr 0 (Some paddr))
        else mret (mk_mapped u cptr vaddr (Some paddr)).

(** The frames of the table itself.  Returns the last address and whether all
    of them were mapped. *)
Definition note_paddr (m : mapped) : M (sos E) unit :=
  match m.(m_paddr) with
  | Some p => ft_modify (fun t => {| t with top_paddr := p |})
  | None => mret tt
  end.

Fixpoint map_table_pages (n : nat) (vaddr : Z) (ok : bool) : M (sos E) (Z * bool) :=
  match n with
  | O => mret (vaddr, ok)
  | S n' =>
      m ← alloc_retype_map (u64 (vaddr + PAGE_SIZE_4K));
      note_paddr m;;
      map_table_pages n' m.(m_vaddr) (ok && negb (m.(m_ut) =? 0))
  end.

Definition free_entry (next : Z) : frame_table_entry :=
  mk_fte seL4_CapNull seL4_CapNull 0 next (-1) 0 false false.

(** The entries as the loop leaves them; the last one ends the free list. *)
Definition initial_entries (n : nat) : list frame_table_entry :=
  (fun i => free_entry (if i =? Z.of_nat n - 1 then 0 else i + 1)) <$> zseq 0 n.

(** [0.8 * (ut_size() / PAGE_SIZE_4K)] rounded towards zero is [4 n / 5]: the
    double nearest to 0.8 is off by less than 2^-54, and [n] is below 2^50. *)
Definition four_fifths (n : Z) : Z := 4 * n / 5.

Definition frame_table_init (cs : Z) : M (sos E) unit :=
  size ← on_ut ut_size;
  let n := four_fifths (size / PAGE_SIZE_4K) in
  let pages := BYTES_TO_4K_PAGES (u64 (n * SIZEOF_FTE)) in
  ft_modify (fun t => {| t with ft_cspace := cs; frame_table_curr_size := 0;
    frame_table_size := n; frame_table_pages := pages |});;
  m ← alloc_retype_map SOS_FRAME_TABLE;
  note_paddr m;;
  r ← map_table_pages (Z.to_nat (pages - 1)) m.(m_vaddr) (negb (m.(m_ut) =? 0));
  let '(vaddr, ok) := r in
  ft_modify (fun t => {| t with base_vaddr := u64 (vaddr + PAGE_SIZE_4K) |});;
  access (ok && (0 <? n));;
  size ← on_ut ut_size;
  ft_modify (fun t => {| t with frame_table := initial_entries (Z.to_nat n);
    top_paddr := u64 (t.(top_paddr) - PAGE_SIZE_4K);
    bot_paddr := u64 (u64 (t.(top_paddr) - PAGE_SIZE_4K) - size) |});;
  assert (negb (vaddr =? 0));;
  ft_modify (fun t => {| t with clock_curr := 0 |}).

Definition get_frame (page_num : Z) : M (sos E) (option Z) :=
  t ← ft_get; mret (if t.(frame_table_size) <? page_num then None else Some page_num).

(** The pages SOS can no longer reach once a frame is unmapped. *)
Definition drop_frame (vaddr : Z) : M (sos E) unit :=
  modify (fun s => {| s with words := delete vaddr s.(words) |}).

Definition frame_free (page : Z) : M (sos E) unit :=
  t ← ft_get;
  let cs := t.(ft_cspace) in
  if t.(frame_table_size) <? page then mret tt
  else
    e ← fte_get page;
    assert (negb (e.(fte_cap) =? seL4_CapNull));;
    fte_modify page (fun e => {| e with fte_next_free_page := t.(next_free_page) |});;
    _ ← call Page_Unmap [e.(fte_cap)];
    vaddr ← page_num_to_vaddr page;
    drop_frame vaddr;;
    _ ← cspace_delete cs e.(fte_cap);
    cspace_free_slot cs e.(fte_cap);;
    when (negb (e.(fte_user_cap) =? 0))
      (_ ← call Page_Unmap [e.(fte_user_cap)];
       _ ← cspace_delete cs e.(fte_user_cap);
       cspace_free_slot cs e.(fte_user_cap));;
    on_ut (ut_free e.(fte_ut) PAGE_BITS_4K);;
    fte_modify page (fun e => {| e with fte_cap := seL4_CapNull; fte_user_cap := seL4_CapNull;
      fte_user_vaddr := 0; fte_pid := -1 |});;
    ft_modify (fun t => {| t with frame_table_curr_size := u64 (t.(frame_table_curr_size) - 1);
      next_free_page := page |}).

(** [memset(vaddr, 0, PAGE_SIZE_4K)] *)
Definition in_page (base a : Z) : Prop := base <= a < base + PAGE_SIZE_4K.
#[global] Instance in_page_dec base a : Decision (in_page base a).
Proof. unfold in_page. apply _. Defined.
Definition zero_page (vaddr : Z) : M (sos E) unit :=
  modify (fun s => {| s with words := <[vaddr := ∅]> s.(words);
    mem := filter (fun x => ~ in_page vaddr x.1) s.(mem) |}).

(** One turn of the clock hand over an entry with its reference bit set: the
    test of the code, which every entry passes because an unowned frame has
    pid -1. *)
Definition clock_clear (e : frame_table_entry) : bool :=
  negb e.(fte_important) || (e.(fte_pid) <=? MAX_PROCESSES).

Fixpoint clock_loop (fuel : nat) : M (sos E) unit :=
  match fuel with
  | O => stuck NoFuel
  | S fuel' =>
      t ← ft_get;
      e ← fte_get t.(clock_curr);
      if e.(fte_ref_bit) then
        when (clock_clear e)
          (fte_modify t.(clock_curr) (fun e => {| e with fte_ref_bit := false |});;
           when (negb (e.(fte_user_cap) =? seL4_CapNull))
             (_ ← call Page_Unmap [e.(fte_user_cap)]; mret tt));;
        access (negb (t.(frame_table_size) =? 0));;
        ft_modify (fun t => {| t with clock_curr :=
          u64 (t.(clock_curr) + 1) mod t.(frame_table_size) |});;
        clock_loop fuel'
      else mret tt
  end.

Section alloc.
Context (pageout : Z -> M (sos E) Z).

(** The bodies of [frame_alloc] and [frame_alloc_important] differ in the flag
    they store.  Returns the page number and [*vaddr]. *)
Definition frame_alloc_as (important : bool) : M (sos E) (Z * Z) :=
  t ← ft_get;
  assert (t.(frame_table_curr_size) <=? t.(frame_table_size));;
  page ← (if t.(frame_table_curr_size) =? t.(frame_table_size) then
            clock_loop (S (length t.(frame_table)));;
            t ← ft_get;
            _ ← pageout t.(clock_curr);
            t ← ft_get;
            frame_free t.(clock_curr);;
            mret t.(clock_curr)
          else mret t.(next_free_page));
  vaddr ← page_num_to_vaddr page;
  m ← alloc_retype_map vaddr;
  if m.(m_ut) =? 0 then mret (0, m.(m_vaddr))
  else
    zero_page m.(m_vaddr);;
    fte_modify page (fun e => {| e with fte_cap := m.(m_cap); fte_ut := m.(m_ut);
      fte_important := important; fte_user_vaddr := 0; fte_pid := -1;
      fte_user_cap := seL4_CapNull; fte_ref_bit := true |});;
    e ← fte_get page;
    ft_modify (fun t => {| t with next_free_page := e.(fte_next_free_page);
      frame_table_curr_size := u64 (t.(frame_table_curr_size) + 1) |});;
    mret (page, m.(m_vaddr)).

Definition frame_alloc_important : M (sos E) (Z * Z) := frame_alloc_as true.
Definition frame_alloc : M (sos E) (Z * Z) := frame_alloc_as false.
End alloc.
End frame_table.
