(* ===== verification/FrameClock.v ===== *)
(** * The frame table: second-chance replacement

    [clock_loop] is the [while] loop both allocation functions run when every
    frame is in use.  It always stops, at the first entry from the hand on
    whose reference bit is clear, or back at the hand after one full turn, and
    it clears the reference bits of the entries it passes. *)
From S2P Require Import Prelude Utils Bitfield UtTable Bytes Sos Cspace Sample CspaceSpec CspaceGrow Mapping.
From S2P Require Import UtAlloc FrameTable.

Definition clear_ref (e : frame_table_entry) : frame_table_entry := {| e with fte_ref_bit := false |}.

(** Reference bit and entry under the hand. *)
Definition ref_at (l : list frame_table_entry) (i : Z) : bool :=
  match l !! Z.to_nat i with Some e => e.(fte_ref_bit) | None => false end.

(** [i] steps of the hand from [c] over [n] entries. *)
Definition hand (n c i : Z) : Z := (c + i) mod n.

Definition clear_at (l : list frame_table_entry) (i : Z) : list frame_table_entry :=
  alter clear_ref (Z.to_nat i) l.

(** The entries after the hand passed [k] of them. *)
Fixpoint sweep (n c : Z) (k : nat) (l : list frame_table_entry) : list frame_table_entry :=
  match k with
  | O => l
  | S k' => sweep n (hand n c 1) k' (clear_at l c)
  end.

(** The capabilities unmapped on the way. *)
Fixpoint swept_caps (n c : Z) (k : nat) (l : list frame_table_entry) : list Z :=
  match k with
  | O => []
  | S k' =>
      match l !! Z.to_nat c with
      | Some e => (if e.(fte_user_cap) =? seL4_CapNull then [] else [e.(fte_user_cap)])
                  ++ swept_caps n (hand n c 1) k' (clear_at l c)
      | None => []
      end
  end.

Lemma hand_0 n c : 0 <= c < n -> hand n c 0 = c.
Proof. intros. unfold hand. rewrite Z.add_0_r. by apply Z.mod_small. Qed.
Lemma hand_S n c i : 0 < n -> hand n (hand n c 1) i = hand n c (i + 1).
Proof. intros. unfold hand. rewrite Z.add_mod_idemp_l by lia. f_equal. lia. Qed.
Lemma hand_bound n c i : 0 < n -> 0 <= hand n c i < n.
Proof. intros. by apply Z.mod_pos_bound. Qed.
Lemma hand_n n c : 0 <= c < n -> hand n c n = c.
Proof.
  intros. unfold hand. replace (c + n) with (c + 1 * n) by lia.
  rewrite Z.mod_add by lia. by apply Z.mod_small.
Qed.
Lemma hand_ne n c i : 0 <= c < n -> 0 < i < n -> hand n c i <> c.
Proof.
  intros Hc Hi Heq. unfold hand in Heq. pose proof (Z.div_mod (c + i) n ltac:(lia)) as Hd.
  rewrite Heq in Hd. assert ((c + i) / n = 0 \/ (c + i) / n = 1) as [E0|E0]; [|rewrite E0 in Hd; lia..].
  assert (0 <= (c + i) / n < 2); [|lia].
  split; [apply Z.div_pos; lia | apply Z.div_lt_upper_bound; lia].
Qed.

Lemma ref_at_clear l i j :
  0 <= i -> 0 <= j -> ref_at (clear_at l i) j = if j =? i then false else ref_at l j.
Proof.
  intros Hi Hj. unfold ref_at, clear_at. destruct (Z.eqb_spec j i) as [->|Hne].
  - rewrite list_lookup_alter_eq. by destruct (l !! Z.to_nat i).
  - rewrite list_lookup_alter_ne by lia. done.
Qed.

Lemma clear_at_length l i : length (clear_at l i) = length l.
Proof. apply length_alter. Qed.

Section clock.
Context {E : Type} `{!Env E}.
Implicit Types s : sos E.

(** Only the frame table, the environment and the record of calls differ. *)
Definition same_but_ft s s' : Prop :=
  exists e t f, s' = {| s with env := e; trace := t; ft := f |}.

(** The table as the allocator needs it: entries for every page, every owner a
    process number or -1. *)
Record table_ok (t : frame_table_t) : Prop := mk_table_ok {
  to_len : Z.of_nat (length t.(frame_table)) = t.(frame_table_size);
  to_size : 0 < t.(frame_table_size) < 2 ^ 63;
  to_hand : 0 <= t.(clock_curr) < t.(frame_table_size);
  to_pid : Forall (fun e => e.(fte_pid) <= MAX_PROCESSES) t.(frame_table) }.

Lemma fte_get_run s i e :
  0 <= i -> s.(ft).(frame_table) !! Z.to_nat i = Some e -> fte_get i s = Ok e s.
Proof. intros Hi He. unfold fte_get, ft_get. rewrite (bind_run _ _ s s.(ft) s) by done. by apply index_run. Qed.

Lemma fte_modify_run s i e f :
  0 <= i -> s.(ft).(frame_table) !! Z.to_nat i = Some e ->
  fte_modify i f s = Ok tt {| s with ft := {| s.(ft) with
    frame_table := <[Z.to_nat i := f e]> s.(ft).(frame_table) |} |}.
Proof. intros Hi He. unfold fte_modify. by rewrite (bind_run _ _ _ _ _ (fte_get_run s i e Hi He)). Qed.

(** The table after the hand moved on from [c] and cleared that entry. *)
Definition stepped (t : frame_table_t) (l : list frame_table_entry) : frame_table_t :=
  {| t with frame_table := l; clock_curr := hand t.(frame_table_size) t.(clock_curr) 1 |}.

Definition swept (t : frame_table_t) (k : nat) : frame_table_t :=
  {| t with frame_table := sweep t.(frame_table_size) t.(clock_curr) k t.(frame_table);
            clock_curr := hand t.(frame_table_size) t.(clock_curr) (Z.of_nat k) |}.

Definition unmap_calls (caps : list Z) (rs : list Z) : list (extop * list Z * Z) :=
  zip_with (fun c r => (Page_Unmap, [c], r)) caps rs.

Lemma alter_insert (l : list frame_table_entry) i e :
  l !! i = Some e -> <[i := clear_ref e]> l = alter clear_ref i l.
Proof.
  intros He. apply list_eq. intros j. destruct (decide (j = i)) as [->|Hne].
  - rewrite list_lookup_alter_eq, He. rewrite list_lookup_insert_eq; [done|]. by apply lookup_lt_Some in He.
  - rewrite list_lookup_alter_ne, list_lookup_insert_ne by done. done.
Qed.

(** One iteration over an entry whose bit is set. *)
Lemma clock_step fuel s e :
  table_ok s.(ft) -> s.(ft).(frame_table) !! Z.to_nat s.(ft).(clock_curr) = Some e ->
  e.(fte_ref_bit) = true ->
  exists s1 rs, clock_loop (S fuel) s = clock_loop fuel s1 /\ same_but_ft s s1 /\
    s1.(ft) = stepped s.(ft) (clear_at s.(ft).(frame_table) s.(ft).(clock_curr)) /\
    length rs = length (if e.(fte_user_cap) =? seL4_CapNull then [] else [e.(fte_user_cap)]) /\
    s1.(trace) = unmap_calls (if e.(fte_user_cap) =? seL4_CapNull then [] else [e.(fte_user_cap)]) rs ++ s.(trace).
Proof.
  intros [Hlen Hsize Hhand Hpid] He Href. set (c := s.(ft).(clock_curr)) in *.
  assert (clock_clear e = true) as Hclr.
  { unfold clock_clear. apply Bool.orb_true_iff. right. apply Z.leb_le.
    by apply (Forall_lookup_1 _ _ _ _ Hpid He). }
  set (s0 := {| s with ft := {| s.(ft) with frame_table := <[Z.to_nat c := clear_ref e]> s.(ft).(frame_table) |} |}).
  assert (clock_loop (S fuel) s =
    (when (negb (e.(fte_user_cap) =? seL4_CapNull)) (_ ← call Page_Unmap [e.(fte_user_cap)]; mret tt);;
     access (negb (s.(ft).(frame_table_size) =? 0));;
     ft_modify (fun t => {| t with clock_curr := u64 (t.(clock_curr) + 1) mod t.(frame_table_size) |});;
     clock_loop fuel) s0) as Hloop.
  { cbn [clock_loop]. unfold ft_get at 1. rewrite (bind_run _ _ s s.(ft) s) by done. fold c.
    rewrite (bind_run _ _ _ _ _ (fte_get_run s c e (proj1 Hhand) He)), Href, Hclr. cbn [when].
    unfold mbind at 1, M_bind. rewrite (bind_run _ _ _ _ _ (fte_modify_run s c e _ (proj1 Hhand) He)). done. }
  assert (forall s2, same_but_ft s s2 -> s2.(ft) = s0.(ft) ->
    exists s1, (access (negb (s.(ft).(frame_table_size) =? 0));;
     ft_modify (fun t => {| t with clock_curr := u64 (t.(clock_curr) + 1) mod t.(frame_table_size) |});;
     clock_loop fuel) s2 = clock_loop fuel s1 /\ same_but_ft s s1 /\ s1.(trace) = s2.(trace) /\
     s1.(ft) = stepped s.(ft) (clear_at s.(ft).(frame_table) c)) as Hmove.
  { intros s2 (en & tr & f & ->) Hft. cbn [ft] in Hft. subst f.
    rewrite access_bind by (rewrite (proj2 (Z.eqb_neq _ _)); [done|lia]).
    unfold ft_modify. rewrite modify_bind. eexists. split; [reflexivity|]. split; [by eexists _, _, _|].
    split; [done|]. cbn. unfold stepped, hand. fold c. rewrite (u64_small (c + 1)) by lia. f_equal.
    unfold clear_at. by apply alter_insert. }
  rewrite Hloop. destruct (e.(fte_user_cap) =? seL4_CapNull) eqn:Hcap; cbn [negb when].
  - destruct (Hmove s0) as (s1 & H1 & H2 & H3 & H4); [by exists s.(env), s.(trace), s0.(ft)|done|].
    exists s1, []. rewrite ret_bind. rewrite H3. done.
  - destruct (call_run Page_Unmap [e.(fte_user_cap)] s0) as (r & s2 & Hc & (en & tr & ->) & _ & Htr).
    destruct (Hmove {| s0 with env := en; trace := tr |}) as (s1 & H1 & H2 & H3 & H4);
      [by eexists _, _, _|done|].
    exists s1, [r]. rewrite (bind_run _ _ s0 tt {| s0 with env := en; trace := tr |}).
    + split; [done|]. split; [done|]. split; [done|]. split; [done|]. rewrite H3. exact Htr.
    + by rewrite (bind_run _ _ _ _ _ Hc).
Qed.

Lemma same_but_ft_trans s1 s2 s3 : same_but_ft s1 s2 -> same_but_ft s2 s3 -> same_but_ft s1 s3.
Proof. intros (e1 & t1 & f1 & ->) (e2 & t2 & f2 & ->). by exists e2, t2, f2. Qed.

Lemma stepped_ok t : table_ok t -> table_ok (stepped t (clear_at t.(frame_table) t.(clock_curr))).
Proof.
  intros [Hlen Hsize Hhand Hpid]. split; cbn [stepped frame_table frame_table_size clock_curr].
  - by rewrite clear_at_length.
  - done.
  - apply hand_bound. lia.
  - apply Forall_lookup. intros i e. unfold clear_at.
    destruct (decide (i = Z.to_nat t.(clock_curr))) as [->|Hne].
    + rewrite list_lookup_alter_eq. intros (e0 & He & ->)%fmap_Some.
      by apply (Forall_lookup_1 _ _ _ _ Hpid He).
    + rewrite list_lookup_alter_ne by done. apply (Forall_lookup_1 _ _ _ _ Hpid).
Qed.

Lemma ref_at_some l i : ref_at l i = true -> exists e, l !! Z.to_nat i = Some e /\ e.(fte_ref_bit) = true.
Proof. unfold ref_at. destruct (l !! Z.to_nat i) as [e|]; [|done]. intros. by exists e. Qed.

(** The position the loop stops at: [k] steps from the hand. *)
Definition stops_at (t : frame_table_t) (k : nat) : Prop :=
  Z.of_nat k <= t.(frame_table_size) /\
  (forall i, 0 <= i < Z.of_nat k ->
     ref_at t.(frame_table) (hand t.(frame_table_size) t.(clock_curr) i) = true) /\
  (Z.of_nat k < t.(frame_table_size) ->
     ref_at t.(frame_table) (hand t.(frame_table_size) t.(clock_curr) (Z.of_nat k)) = false).

Lemma stops_at_step t k :
  table_ok t -> stops_at t (S k) ->
  stops_at (stepped t (clear_at t.(frame_table) t.(clock_curr))) k.
Proof.
  intros [Hlen Hsize Hhand Hpid] (Hle & Hall & Hend).
  unfold stops_at, stepped. cbn [frame_table frame_table_size clock_curr].
  set (n := t.(frame_table_size)) in *. set (c := t.(clock_curr)) in *.
  assert (forall i, 0 <= hand n c i) as Hp by (intros i; apply hand_bound; lia).
  split; [lia|]. split.
  - intros i Hi. rewrite hand_S by lia. rewrite ref_at_clear by (apply Hp || lia).
    rewrite (proj2 (Z.eqb_neq _ _)) by (apply hand_ne; lia). apply Hall. lia.
  - intros _. rewrite hand_S by lia. rewrite ref_at_clear by (apply Hp || lia).
    destruct (Z.eq_dec (Z.of_nat k + 1) n) as [->|Hne]; [by rewrite hand_n, Z.eqb_refl|].
    replace (Z.of_nat k + 1) with (Z.of_nat (S k)) by lia.
    rewrite Hend by lia. by destruct (_ =? c).
Qed.

Lemma swept_step t k :
  table_ok t -> swept (stepped t (clear_at t.(frame_table) t.(clock_curr))) k = swept t (S k).
Proof.
  intros [Hlen Hsize Hhand Hpid]. unfold swept, stepped. cbn [frame_table frame_table_size clock_curr sweep].
  rewrite hand_S by lia. by replace (Z.of_nat k + 1) with (Z.of_nat (S k)) by lia.
Qed.

Lemma swept_0 t : table_ok t -> swept t 0 = t.
Proof. intros [Hlen Hsize Hhand Hpid]. unfold swept. cbn [sweep Z.of_nat]. rewrite hand_0 by done. by destruct t. Qed.

Lemma reverse_unmap caps1 caps2 rs1 rs2 :
  (length caps1 <= 1)%nat -> length rs1 = length caps1 ->
  reverse (unmap_calls (caps1 ++ caps2) (rs1 ++ rs2)) =
  reverse (unmap_calls caps2 rs2) ++ unmap_calls caps1 rs1.
Proof.
  intros Hle Hlen. unfold unmap_calls. rewrite zip_with_app by done. rewrite reverse_app. f_equal.
  destruct caps1 as [|c [|]], rs1 as [|r [|]]; simpl in *; try lia; done.
Qed.

(** The loop, from any table: it needs one more unit of fuel than the steps it
    takes. *)
Lemma clock_loop_run k s fuel :
  table_ok s.(ft) -> stops_at s.(ft) k -> (k < fuel)%nat ->
  exists s' rs, clock_loop fuel s = Ok tt s' /\ same_but_ft s s' /\ s'.(ft) = swept s.(ft) k /\
    let caps := swept_caps s.(ft).(frame_table_size) s.(ft).(clock_curr) k s.(ft).(frame_table) in
    length rs = length caps /\ s'.(trace) = reverse (unmap_calls caps rs) ++ s.(trace).
Proof.
  revert s fuel. induction k as [|k IH]; intros s fuel Hok Hst Hf; (destruct fuel as [|fuel]; [lia|]).
  - destruct Hst as (_ & _ & Hend). pose proof Hok as [Hlen Hsize Hhand Hpid].
    destruct (lookup_lt_is_Some_2 s.(ft).(frame_table) (Z.to_nat s.(ft).(clock_curr))) as [e He]; [lia|].
    specialize (Hend ltac:(simpl; lia)). cbn [Z.of_nat] in Hend. rewrite hand_0 in Hend by done.
    unfold ref_at in Hend. rewrite He in Hend. exists s, []. rewrite swept_0 by done.
    split; [|split; [by exists s.(env), s.(trace), s.(ft); destruct s|done]].
    cbn [clock_loop]. unfold ft_get. rewrite (bind_run _ _ s s.(ft) s) by done.
    by rewrite (bind_run _ _ _ _ _ (fte_get_run s _ e (proj1 Hhand) He)), Hend.
  - pose proof Hok as [Hlen Hsize Hhand Hpid]. pose proof Hst as (_ & Hall & _).
    specialize (Hall 0 ltac:(lia)). rewrite hand_0 in Hall by done.
    destruct (ref_at_some _ _ Hall) as (e & He & Href).
    destruct (clock_step fuel s e Hok He Href) as (s1 & rs1 & H1 & H2 & H3 & H4 & H5).
    destruct (IH s1 fuel) as (s' & rs & H6 & H7 & H8 & H9 & H10); rewrite ?H3 in *.
    { by apply stepped_ok. } { by apply stops_at_step. } { lia. }
    exists s', (rs1 ++ rs). rewrite H1. split; [done|]. split; [by eapply same_but_ft_trans|].
    split; [by rewrite H8, swept_step|]. cbn [swept_caps]. rewrite He.
    cbn [stepped frame_table_size clock_curr frame_table] in H9, H10. split.
    + rewrite !length_app, H4, H9. done.
    + rewrite reverse_unmap by (done || by destruct (_ =? _); simpl; lia).
      rewrite H10, H5. by rewrite app_assoc.
Qed.

Lemma stop_exists t : table_ok t -> exists k, stops_at t k.
Proof.
  intros [Hlen Hsize Hhand Hpid]. set (n := t.(frame_table_size)) in *.
  assert (forall m, Z.of_nat m <= n -> (exists k, stops_at t k) \/
    forall i, 0 <= i < Z.of_nat m -> ref_at t.(frame_table) (hand n t.(clock_curr) i) = true) as H.
  { induction m as [|m IH]; intros Hm; [right; lia|].
    destruct IH as [|IH]; [lia|by left|].
    destruct (ref_at t.(frame_table) (hand n t.(clock_curr) (Z.of_nat m))) eqn:Hr.
    - right. intros i Hi. destruct (Z.eq_dec i (Z.of_nat m)) as [->|]; [done|]. apply IH. lia.
    - left. exists m. unfold stops_at. fold n. split; [lia|done]. }
  destruct (H (Z.to_nat n)) as [|Hall]; [lia|done|]. exists (Z.to_nat n).
  unfold stops_at. fold n. rewrite Z2Nat.id in * by lia. split; [lia|]. split; [done|lia].
Qed.

(** C5 Second-chance replacement: the loop of the frame allocator always ends
    within one turn of the table.  It stops at the first frame from the clock
    hand on whose reference bit is clear, or at the hand again when every bit is
    set; the frames it passes get their bit cleared and their user mapping
    removed, in that order, and nothing else changes. *)
Theorem clock_loop_second_chance (s : sos E) :
  table_ok s.(ft) ->
  exists k s' rs, stops_at s.(ft) k /\
    clock_loop (S (length s.(ft).(frame_table))) s = Ok tt s' /\
    same_but_ft s s' /\ s'.(ft) = swept s.(ft) k /\
    let caps := swept_caps s.(ft).(frame_table_size) s.(ft).(clock_curr) k s.(ft).(frame_table) in
    length rs = length caps /\ s'.(trace) = reverse (unmap_calls caps rs) ++ s.(trace).
Proof.
  intros Hok. destruct (stop_exists s.(ft) Hok) as [k Hk]. pose proof Hok as [Hlen Hsize _ _].
  destruct (clock_loop_run k s (S (length s.(ft).(frame_table))) Hok Hk) as (s' & rs & H);
    [destruct Hk as (? & _); lia |].
  by exists k, s', rs.
Qed.
End clock.

(** ** On the concrete machine *)

Lemma clock_loop_second_chance_witness : exists k s',
  stops_at framed.(ft) k /\ clock_loop 9 framed = Ok tt s' /\ s'.(ft) = swept framed.(ft) k.
Proof.
  destruct (clock_loop_second_chance framed) as (k & s' & rs & Hk & Hrun & _ & Hft & _).
  { split; [done | done | done | repeat constructor; done]. }
  by exists k, s'.
Defined.
