(* ===== verification/PageTable.v ===== *)
(** * Page tables

    [sos/src/vm/pagetable.c] without the fault handler (see [Vm]), and
    [sos_map_frame] of [mapping.c]: the four-level table SOS keeps for every
    process beside the hardware one.  Its nodes, the [struct page_table] and
    the lists of kernel objects are page frames seen as arrays of 512 words;
    an entry of the last level holds a frame number or a page-file slot below
    bit 52 and its flags above. *)
From S2P Require Import Prelude Utils Bitfield UtTable Bytes Sos Cspace CspaceSpec CspaceGrow Mapping.
From S2P Require Import UtAlloc FrameTable.

Definition P_INVALID : Z := 1.
Definition P_PAGEFILE : Z := 2.
Definition PAGE_INDEX_SIZE : Z := PAGE_SIZE_4K / 8.
Definition PAGE_OBJECT_SIZE : Z := 253.

(** ** Entries *)

(** The mask is assembled 16 bits at a time; [bits] is an 8-bit value. *)
Definition page_set_bits (entry bits : Z) : Z :=
  let mask := Z.shiftl 0 16 in
  let mask := Z.lor mask 0xFFFF in
  let mask := u64 (Z.shiftl mask 16) in
  let mask := Z.lor mask 0xFFFF in
  let mask := u64 (Z.shiftl mask 16) in
  let mask := Z.lor mask 0xFFFF in
  let mask := u64 (Z.shiftl mask 4) in
  let mask := Z.lor mask 0xF in
  let word := Z.shiftl bits 16 in
  let word := u64 (Z.shiftl word 16) in
  let word := u64 (Z.shiftl word 16) in
  let word := u64 (Z.shiftl word 4) in
  Z.lor word (Z.land mask entry).

Definition page_entry_number (page : Z) : Z := page_set_bits page 0.
Definition page_update_entry (bits num : Z) : Z := page_set_bits num bits.
Definition page_get_bits (entry : Z) : Z :=
  u8 (Z.shiftr (Z.shiftr (Z.shiftr (Z.shiftr entry 16) 16) 16) 4).

Record pt_index : Type := mk_pt_index { offset : Z; l4 : Z; l3 : Z; l2 : Z; l1 : Z }.

Definition get_pt_index (vaddr : Z) : pt_index :=
  mk_pt_index (Z.land 0xFFF vaddr)
    (Z.land 0x1FF (Z.shiftr vaddr PAGE_BITS_4K))
    (Z.land 0x1FF (Z.shiftr vaddr (PAGE_BITS_4K + 9)))
    (Z.land 0x1FF (Z.shiftr vaddr (PAGE_BITS_4K + 9 * 2)))
    (Z.land 0x1FF (Z.shiftr vaddr (PAGE_BITS_4K + 9 * 3))).

Section page_table.
Context {E : Type} `{!Env E}.

(** Word [i] of the frame at [p]. *)
Definition word_get (p i : Z) : M (sos E) Z :=
  s ← get; w ← deref (s.(words) !! p); access ((0 <=? i) && (i <? PAGE_INDEX_SIZE));;
  mret (default 0 (w !! i)).
Definition word_put (p i v : Z) : M (sos E) unit :=
  s ← get; w ← deref (s.(words) !! p); access ((0 <=? i) && (i <? PAGE_INDEX_SIZE));;
  modify (fun s => {| s with words := <[p := <[i := v]> w]> s.(words) |}).

(** [struct page_table]: the root, and the list of kernel objects. *)
Definition pt_pgd (pt : Z) : M (sos E) Z := word_get pt 0.
Definition pt_seL4_pages (pt : Z) : M (sos E) Z := word_get pt 1.

(** The address of an entry: frame and index; NULL is [None]. *)
Definition page_lookup (pt vaddr : Z) : M (sos E) (option (Z * Z)) :=
  pgd ← pt_pgd pt;
  let ind := get_pt_index vaddr in
  pud ← word_get pgd ind.(l1);
  if pud =? 0 then mret None
  else
    pd ← word_get pud ind.(l2);
    if pd =? 0 then mret None
    else
      leaf ← word_get pd ind.(l3);
      if leaf =? 0 then mret None else mret (Some (leaf, ind.(l4))).

(** The test is the wrong way round: an entry that is there is reported as an
    error, one that is not is dereferenced. *)
Definition page_table_remove (pt vaddr : Z) : M (sos E) Z :=
  page ← page_lookup pt vaddr;
  match page with
  | Some _ => mret (-1)
  | None => stuck Segv
  end.

Section with_pager.
Context (pageout : Z -> M (sos E) Z).
Context (pagefile_remove : Z -> M (sos E) Z).

Definition page_table_init : M (sos E) Z :=
  r ← frame_alloc_important pageout;
  let pt := r.2 in
  r ← frame_alloc_important pageout;
  word_put pt 0 r.2;;
  mret pt.

(** A missing node of [page_table_insert]: its address, 0 if none could be
    allocated.  [fill] is what the code does to a new node. *)
Definition child_node (fill : Z -> M (sos E) unit) (parent i : Z) : M (sos E) Z :=
  p ← word_get parent i;
  if p =? 0 then
    r ← frame_alloc_important pageout;
    if r.2 =? 0 then mret 0
    else fill r.2;; word_put parent i r.2;; mret r.2
  else mret p.

Definition table_node : Z -> Z -> M (sos E) Z := child_node (fun _ => mret tt).

(** The last level: a new leaf has every entry marked invalid first. *)
Definition invalid_leaf (p : Z) : M (sos E) unit :=
  for_each (zseq 0 (Z.to_nat PAGE_INDEX_SIZE)) (fun j => word_put p j (page_update_entry P_INVALID 0)).
Definition leaf_node : Z -> Z -> M (sos E) Z := child_node invalid_leaf.

Definition page_table_insert (pt vaddr page_num : Z) : M (sos E) Z :=
  pgd ← pt_pgd pt;
  let ind := get_pt_index vaddr in
  pud ← table_node pgd ind.(l1);
  if pud =? 0 then mret (-1)
  else
    pud ← word_get pgd ind.(l1);
    pd ← table_node pud ind.(l2);
    if pd =? 0 then mret (-1)
    else
      pud ← word_get pgd ind.(l1);
      pd ← word_get pud ind.(l2);
      leaf ← leaf_node pd ind.(l3);
      if leaf =? 0 then mret (-1)
      else word_put leaf ind.(l4) page_num;; mret 0.

(** ** Destruction *)

Definition free_node (p : Z) : M (sos E) unit := n ← vaddr_to_page_num p; frame_free n.

(** The frame or page-file slot an entry stands for. *)
Definition destroy_entry (leaf l : Z) : M (sos E) unit :=
  pte ← word_get leaf l;
  let entry := page_entry_number pte in
  let bits := page_get_bits pte in
  if nz (Z.land P_INVALID bits) then mret tt
  else if nz (Z.land P_PAGEFILE bits) then _ ← pagefile_remove entry; mret tt
  else frame_free entry.

Definition all_indices : list Z := zseq 0 (Z.to_nat PAGE_INDEX_SIZE).

(** [for (i ...) if (node[i] != NULL) { body(node[i]); frame_free(node[i]); }] *)
Definition destroy_children (node : Z) (body : Z -> M (sos E) unit) : M (sos E) unit :=
  for_each all_indices (fun i =>
    p ← word_get node i;
    when (negb (p =? 0)) (body p;; free_node p)).

(** The list of kernel objects; the fuel bounds the number of its frames. *)
Fixpoint destroy_objects (fuel : nat) (c frame : Z) : M (sos E) unit :=
  match fuel with
  | O => stuck NoFuel
  | S fuel' =>
      if frame =? 0 then mret tt
      else
        size ← word_get frame 0;
        for_each (zseq 0 (Z.to_nat size)) (fun i =>
          u ← word_get frame (2 + 2 * i);
          cap ← word_get frame (3 + 2 * i);
          on_ut (ut_free u PAGE_BITS_4K);;
          _ ← cspace_delete c cap;
          cspace_free_slot c cap);;
        next ← word_get frame 1;
        free_node frame;;
        destroy_objects fuel' c next
  end.

Definition page_table_destroy (pt c : Z) : M (sos E) unit :=
  pgd ← pt_pgd pt;
  destroy_children pgd (fun pud =>
    destroy_children pud (fun pd =>
      destroy_children pd (fun leaf =>
        for_each all_indices (destroy_entry leaf))));;
  frame ← pt_seL4_pages pt;
  s ← get;
  destroy_objects (S (size s.(words))) c frame;;
  free_node pgd;;
  free_node pt.

(** ** The size of a process *)

(** The address of an entry is never NULL, so every entry of a leaf counts. *)
Definition count_children (node : Z) (body : Z -> M (sos E) Z) : M (sos E) Z :=
  foldr (fun i rest =>
    p ← word_get node i;
    if p =? 0 then rest else a ← body p; b ← rest; mret (s32 (a + b))) (mret 0) all_indices.

Definition get_proc_size (pt : Z) : M (sos E) Z :=
  pgd ← pt_pgd pt;
  count_children pgd (fun pud => count_children pud (fun pd =>
    count_children pd (fun leaf => mret PAGE_INDEX_SIZE))).

(** ** Kernel objects of a page table *)

Fixpoint last_objects_frame (fuel : nat) (frame : Z) : M (sos E) Z :=
  match fuel with
  | O => stuck NoFuel
  | S fuel' =>
      next ← word_get frame 1;
      if next =? 0 then mret frame else last_objects_frame fuel' next
  end.

(** The frame the next object goes to; NULL (never initialised in the code)
    when the first frame cannot be allocated. *)
Definition objects_frame (pt : Z) : M (sos E) Z :=
  first ← pt_seL4_pages pt;
  if first =? 0 then
    r ← frame_alloc_important pageout;
    word_put pt 1 r.2;;
    if r.2 =? 0 then mret 0
    else word_put r.2 0 0;; word_put r.2 1 0;; mret r.2
  else
    s ← get;
    frame ← last_objects_frame (S (size s.(words))) first;
    n ← word_get frame 0;
    if n =? PAGE_OBJECT_SIZE then
      r ← frame_alloc_important pageout;
      word_put frame 1 r.2;;
      if r.2 =? 0 then mret frame
      else word_put r.2 0 0;; word_put r.2 1 0;; mret r.2
    else mret frame.

Definition save_seL4_info (pt ut0 slot : Z) : M (sos E) unit :=
  frame ← objects_frame pt;
  ind ← word_get frame 0;
  word_put frame 0 (u64 (ind + 1));;
  word_put frame (2 + 2 * ind) ut0;;
  word_put frame (3 + 2 * ind) slot.

(** ** [sos_map_frame] *)

Section map.
Context (c pt frame_cap vspace vaddr rights attr : Z).

(** [Some err] when the loop ran to its end, [None] for the early [return -1]. *)
Fixpoint sos_map_loop (n : nat) (err : Z) : M (sos E) (option Z) :=
  match n with
  | O => mret (Some err)
  | S n' =>
      if negb (err =? seL4_FailedLookup) then mret (Some err)
      else
        failed ← call MappingFailedLookupLevel [];
        r ← on_ut ut_alloc_4k_untyped;
        if r.1 =? 0 then mret None
        else
          slot ← cspace_alloc_slot c;
          if slot =? seL4_CapNull then mret None
          else
            cap ← ut_cap_of r.1;
            err ← retype_map_level failed c vspace vaddr cap slot;
            save_seL4_info pt r.1 slot;;
            err ← (if err =? 0 then call Page_Map [frame_cap; vspace; vaddr; rights; attr] else mret err);
            sos_map_loop n' err
  end.

(** With [is_sos_addr] the result of the mapping is replaced by that of the
    insertion. *)
Definition sos_map_frame (page : Z) (is_sos_addr : bool) : M (sos E) Z :=
  err ← call Page_Map [frame_cap; vspace; vaddr; rights; attr];
  r ← sos_map_loop (Z.to_nat MAPPING_SLOTS) err;
  match r with
  | None => mret (-1)
  | Some err => if is_sos_addr then page_table_insert pt vaddr page else mret err
  end.
End map.
End with_pager.
End page_table.
