(* ===== verification/FrameSpec.v ===== *)
(** * The frame table: allocation and freeing

    [ft_inv s f] says that [f] is the free list of the frame table: the pages
    reached from [next_free_page], each with a null capability, as many as
    [frame_table_curr_size] leaves over.  The theorems: the table is built with
    every page free, an allocation that does not have to replace a frame takes
    the first page of the list (or reports failure and leaves the table alone),
    and freeing a page puts it back in front. *)
From S2P Require Import Prelude Utils Bitfield UtTable Bytes Sos Cspace Sample CspaceSpec CspaceGrow Mapping.
From S2P Require Import UtAlloc Layers FrameTable FrameClock.

(** ** The capability and untyped layers do not touch frames *)

Section same_vm.
Context {E : Type} `{!Env E}.
Implicit Types s : sos E.

Definition same_vm s s' : Prop := s'.(ft) = s.(ft) /\ s'.(words) = s.(words) /\ s'.(mem) = s.(mem).

#[global] Instance same_vm_preorder : PreOrder same_vm.
Proof. split; [done|]. intros s1 s2 s3 (? & ? & ?) (? & ? & ?). unfold same_vm. intuition congruence. Qed.

#[global] Instance same_vm_layer : Layer same_vm.
Proof. by split; [apply _|]. Qed.

Lemma vm_alloc_retype_map v : preserves same_vm (alloc_retype_map (E:=E) v).
Proof. unfold alloc_retype_map, ft_get. preserves. Qed.
End same_vm.
#[export] Hint Resolve vm_alloc_retype_map : pres.

(** ** The free list *)

(** From page [p] the entries lead through the pages of [f]; where the last
    one points does not matter. *)
Fixpoint free_chain (l : list frame_table_entry) (p : Z) (f : list Z) : Prop :=
  match f with
  | [] => True
  | q :: f' => p = q /\ exists e, l !! Z.to_nat q = Some e /\ e.(fte_cap) = seL4_CapNull /\
                 free_chain l e.(fte_next_free_page) f'
  end.

Definition page_addr (t : frame_table_t) (p : Z) : Z := p * PAGE_SIZE_4K + t.(base_vaddr).

Record ft_inv {E} (s : sos E) (f : list Z) : Prop := mk_ft_inv {
  fi_len : Z.of_nat (length s.(ft).(frame_table)) = s.(ft).(frame_table_size);
  fi_size : 0 < s.(ft).(frame_table_size) < 2 ^ 32;
  fi_base : 0 < s.(ft).(base_vaddr) < 2 ^ 48;
  fi_chain : free_chain s.(ft).(frame_table) s.(ft).(next_free_page) f;
  fi_nodup : NoDup f;
  fi_range : Forall (fun p => 0 <= p < s.(ft).(frame_table_size)) f;
  fi_count : s.(ft).(frame_table_curr_size) = s.(ft).(frame_table_size) - Z.of_nat (length f);
  fi_few : Z.of_nat (length f) <= s.(ft).(frame_table_size);
  fi_used : forall i e, s.(ft).(frame_table) !! i = Some e -> Z.of_nat i ∉ f -> e.(fte_cap) <> seL4_CapNull;
  fi_fresh : forall p, p ∈ f -> s.(words) !! page_addr s.(ft) p = None }.

Lemma free_chain_frame l p f i e :
  i ∉ Z.to_nat <$> f -> free_chain l p f -> free_chain (<[i := e]> l) p f.
Proof.
  revert p. induction f as [|q f IH]; intros p Hi; [done|].
  intros (-> & e0 & He & Hc & Hf). rewrite fmap_cons, not_elem_of_cons in Hi. destruct Hi as [Hne Hi].
  split; [done|]. exists e0. rewrite list_lookup_insert_ne by done. eauto.
Qed.

Lemma to_nat_notin f p n :
  Forall (fun q => 0 <= q < n) f -> 0 <= p -> p ∉ f -> Z.to_nat p ∉ Z.to_nat <$> f.
Proof.
  intros Hf Hp Hn (q & Hq & Hin)%list_elem_of_fmap. apply Hn.
  apply (proj1 (Forall_forall _ _) Hf) in Hin as Hr. replace p with q by lia. done.
Qed.

Lemma fi_free_entry {E} (s : sos E) p f :
  ft_inv s (p :: f) -> s.(ft).(next_free_page) = p /\ 0 <= p < s.(ft).(frame_table_size) /\
  exists e, s.(ft).(frame_table) !! Z.to_nat p = Some e /\ e.(fte_cap) = seL4_CapNull /\
    free_chain s.(ft).(frame_table) e.(fte_next_free_page) f.
Proof.
  intros I. destruct (fi_chain _ _ I) as (Hp & e & He & Hc & Hch).
  pose proof (fi_range _ _ I) as Hr. apply Forall_cons in Hr as [Hr _].
  split; [done|]. split; [done|]. by exists e.
Qed.

Section alloc.
Context {E : Type} `{!Env E}.
Context (pageout : Z -> M (sos E) Z).
Implicit Types s : sos E.

Lemma ft_inv_same_vm s s' f : same_vm s s' -> ft_inv s f -> ft_inv s' f.
Proof. intros (Hf & Hw & _) [ ]. split; rewrite ?Hf, ?Hw; done. Qed.

(** The state once page [p] has been entered with capability [cap]. *)
Definition entered (e : frame_table_entry) (cap u : Z) (important : bool) : frame_table_entry :=
  mk_fte cap seL4_CapNull u e.(fte_next_free_page) (-1) 0 true important.

Definition allocated s (p : Z) (e : frame_table_entry) (v : Z) : sos E :=
  {| s with
     words := <[v := ∅]> s.(words);
     mem := filter (fun x => ~ in_page v x.1) s.(mem);
     ft := {| s.(ft) with
       frame_table := <[Z.to_nat p := e]> s.(ft).(frame_table);
       next_free_page := e.(fte_next_free_page);
       frame_table_curr_size := u64 (s.(ft).(frame_table_curr_size) + 1) |} |}.

Lemma page_addr_inj t p q : page_addr t p = page_addr t q -> p = q.
Proof. unfold page_addr. rewrite PAGE_SIZE_4K_eq. lia. Qed.

Lemma allocated_inv s p f e cap u important :
  ft_inv s (p :: f) -> s.(ft).(frame_table) !! Z.to_nat p = Some e -> cap <> seL4_CapNull ->
  free_chain s.(ft).(frame_table) e.(fte_next_free_page) f ->
  ft_inv (allocated s p (entered e cap u important) (page_addr s.(ft) p)) f.
Proof.
  intros I He Hcap Hch. destruct (fi_free_entry s p f I) as (_ & Hp & _).
  destruct I as [Hlen Hsize Hbase _ Hnd Hr Hcount Hfew Hused Hfresh].
  apply NoDup_cons in Hnd as [Hnp Hnd]. pose proof Hr as Hr0. apply Forall_cons in Hr as [_ Hr].
  cbn [length] in Hcount, Hfew. split; cbn [allocated ft frame_table frame_table_size base_vaddr next_free_page
    frame_table_curr_size words entered fte_next_free_page]; try done.
  - by rewrite length_insert.
  - apply free_chain_frame; [|done]. apply (to_nat_notin f p s.(ft).(frame_table_size)); [done|lia|done].
  - rewrite Hcount, u64_small by lia. lia.
  - lia.
  - intros i e' He' Hi. destruct (decide (i = Z.to_nat p)) as [->|Hne].
    + rewrite list_lookup_insert_eq in He' by (by apply lookup_lt_Some in He). by injection He' as <-.
    + rewrite list_lookup_insert_ne in He' by done. apply (Hused i); [done|].
      rewrite not_elem_of_cons. split; [lia|done].
  - intros q Hq. rewrite lookup_insert_ne; [apply Hfresh; by apply list_elem_of_further|].
    unfold page_addr. cbn [base_vaddr]. intros Heq%page_addr_inj. congruence.
Qed.

(** An allocation that finds a free page, from the mapping of its frame on. *)
Lemma frame_alloc_free_page s p f important :
  ft_inv s (p :: f) ->
  frame_alloc_as pageout important s =
  (m ← alloc_retype_map (page_addr s.(ft) p);
   if m.(m_ut) =? 0 then mret (0, m.(m_vaddr))
   else
    zero_page m.(m_vaddr);;
    fte_modify p (fun e => {| e with fte_cap := m.(m_cap); fte_ut := m.(m_ut);
      fte_important := important; fte_user_vaddr := 0; fte_pid := -1;
      fte_user_cap := seL4_CapNull; fte_ref_bit := true |});;
    e ← fte_get p;
    ft_modify (fun t => {| t with next_free_page := e.(fte_next_free_page);
      frame_table_curr_size := u64 (t.(frame_table_curr_size) + 1) |});;
    mret (p, m.(m_vaddr))) s.
Proof.
  intros I. destruct (fi_free_entry s p f I) as (Hnext & Hp & _).
  pose proof (fi_count _ _ I) as Hcount. cbn [length] in Hcount. pose proof (fi_few _ _ I).
  pose proof (fi_size _ _ I). pose proof (fi_base _ _ I).
  unfold frame_alloc_as, ft_get. rewrite (bind_run _ _ s s.(ft) s) by done.
  rewrite assert_bind by (apply Z.leb_le; lia). rewrite (proj2 (Z.eqb_neq _ _)) by lia.
  rewrite ret_bind, Hnext. unfold page_num_to_vaddr, ft_get.
  rewrite (bind_run _ _ s (page_addr s.(ft) p) s); [done|].
  rewrite (bind_run _ _ s s.(ft) s) by done. unfold mret, M_ret. f_equal.
  unfold page_addr. rewrite PAGE_SIZE_4K_eq. apply u64_small. lia.
Qed.

Lemma alloc_retype_map_vaddr v s m s' :
  alloc_retype_map v s = Ok m s' ->
  (m.(m_ut) = 0 /\ m.(m_vaddr) = 0) \/ (m.(m_ut) <> 0 /\ m.(m_vaddr) = v /\ m.(m_cap) <> seL4_CapNull).
Proof.
  intros H. unfold alloc_retype_map, ft_get in H. rewrite (bind_run _ _ s s.(ft) s) in H by done.
  apply bind_Ok in H as ([u a] & s1 & _ & H). destruct (Z.eqb_spec u 0); [run_inv H; by left|].
  apply bind_Ok in H as (q & s2 & _ & H). destruct (Z.eqb_spec q seL4_CapNull); [run_inv H; by left|].
  apply bind_Ok in H as (cap & s3 & _ & H). apply bind_Ok in H as (err & s4 & _ & H).
  destruct (negb _); [run_inv H; by left|]. apply bind_Ok in H as (err2 & s5 & _ & H).
  destruct (negb _); run_inv H; [by left|]. right. done.
Qed.

(** When [map_frame] reports success, its last kernel call mapped the frame. *)
Lemma map_frame_loop_mapped slot_for c frame_cap vspace vaddr rights attr l err used s r s' :
  map_frame_loop slot_for c frame_cap vspace vaddr rights attr l err used s = Ok r s' -> r.1 = 0 ->
  (err = 0 -> head s.(trace) = Some (Page_Map, [frame_cap; vspace; vaddr; rights; attr], 0)) ->
  head s'.(trace) = Some (Page_Map, [frame_cap; vspace; vaddr; rights; attr], 0).
Proof.
  revert err used s. induction l as [|i l IH]; intros err used s Hrun Hr Herr; cbn [map_frame_loop] in Hrun.
  { injection Hrun as <- <-. by apply Herr. }
  destruct (negb _); [injection Hrun as <- <-; by apply Herr|].
  apply bind_Ok in Hrun as (failed & s1 & _ & Hrun). apply bind_Ok in Hrun as (u & s2 & _ & Hrun).
  destruct (u.1 =? 0); [by injection Hrun as <- <-|].
  apply bind_Ok in Hrun as ([slot used'] & s3 & _ & Hrun). destruct (slot =? seL4_CapNull); [by injection Hrun as <- <-|].
  apply bind_Ok in Hrun as (cap & s4 & _ & Hrun). apply bind_Ok in Hrun as (err1 & s5 & _ & Hrun).
  apply bind_Ok in Hrun as (err2 & s6 & H6 & Hrun). apply (IH _ _ _ Hrun Hr). intros ->.
  destruct (Z.eqb_spec err1 0) as [_|Hne]; [|by injection H6 as -> _].
  apply call_inv in H6 as (_ & _ & ->). done.
Qed.

Lemma map_frame_mapped c frame_cap vspace vaddr rights attr s s' :
  map_frame c frame_cap vspace vaddr rights attr s = Ok 0 s' ->
  head s'.(trace) = Some (Page_Map, [frame_cap; vspace; vaddr; rights; attr], 0).
Proof.
  unfold map_frame, map_frame_impl. intros (r & s1 & H1 & Hrun)%bind_Ok.
  apply bind_Ok in H1 as (err & s2 & H2 & H1). injection Hrun as Hr <-.
  apply (map_frame_loop_mapped _ _ _ _ _ _ _ _ _ _ _ _ _ H1 Hr).
  intros ->. apply call_inv in H2 as (_ & _ & ->). done.
Qed.

(** The call that maps the frame [cap] at [vaddr] in the server's own memory. *)
Definition maps_frame (cap vaddr : Z) : extop * list Z * Z :=
  (Page_Map, [cap; seL4_CapInitThreadVSpace; vaddr; seL4_AllRights; seL4_ARM_Default_VMAttributes], seL4_NoError).

Lemma alloc_retype_map_mapped v s m s' :
  alloc_retype_map v s = Ok m s' -> m.(m_ut) <> 0 -> head s'.(trace) = Some (maps_frame m.(m_cap) m.(m_vaddr)).
Proof.
  intros H Hut. unfold alloc_retype_map, ft_get in H. rewrite (bind_run _ _ s s.(ft) s) in H by done.
  apply bind_Ok in H as ([u a] & s1 & _ & H). destruct (Z.eqb_spec u 0); [by run_inv H|].
  apply bind_Ok in H as (q & s2 & _ & H). destruct (Z.eqb_spec q seL4_CapNull); [by run_inv H|].
  apply bind_Ok in H as (cap & s3 & _ & H). apply bind_Ok in H as (err & s4 & _ & H).
  destruct (negb _); [by run_inv H|]. apply bind_Ok in H as (err2 & s5 & H5 & H).
  destruct (Z.eqb_spec err2 seL4_NoError) as [->|]; cbn [negb] in H; [|by run_inv H].
  run_inv H. by apply map_frame_mapped in H5.
Qed.

(** An allocation while free frames remain. *)
Lemma frame_alloc_spec (s s' : sos E) (p : Z) (f : list Z) (important : bool) (page vaddr : Z) :
  ft_inv s (p :: f) ->
  frame_alloc_as pageout important s = Ok (page, vaddr) s' ->
  (page = 0 /\ vaddr = 0 /\ same_vm s s' /\ ft_inv s' (p :: f)) \/
  (page = p /\ vaddr = page_addr s.(ft) p /\ ft_inv s' f /\ s'.(words) = <[vaddr := ∅]> s.(words) /\
   exists e cap u, s.(ft).(frame_table) !! Z.to_nat p = Some e /\ cap <> seL4_CapNull /\
     s'.(ft).(frame_table) = <[Z.to_nat p := entered e cap u important]> s.(ft).(frame_table) /\
     head s'.(trace) = Some (maps_frame cap vaddr)).
Proof.
  intros I Hrun. rewrite (frame_alloc_free_page s p f important I) in Hrun.
  destruct (fi_free_entry s p f I) as (_ & Hp & e & He & _ & Hch).
  apply bind_Ok in Hrun as (m & s1 & H1 & Hrun).
  pose proof (vm_alloc_retype_map _ s m s1 H1) as V. pose proof V as (Vf & Vw & Vm).
  pose proof (alloc_retype_map_mapped _ _ _ _ H1) as Hmap.
  destruct (alloc_retype_map_vaddr _ _ _ _ H1) as [[Hu Hv]|(Hu & Hv & Hcap)].
  - rewrite Hu, Z.eqb_refl in Hrun. run_inv Hrun. left. rewrite Hv. split; [done|]. split; [done|].
    split; [done|]. by apply (ft_inv_same_vm s).
  - right. rewrite (proj2 (Z.eqb_neq _ _) Hu), Hv in Hrun.
    apply (ft_inv_same_vm s s1) in I; [|done]. rewrite <- Vf in He, Hch, Hrun.
    unfold zero_page in Hrun. rewrite modify_bind in Hrun.
    set (v := page_addr s1.(ft) p) in *.
    set (s2 := {| s1 with words := <[v := ∅]> s1.(words); mem := _ |}) in Hrun.
    rewrite (bind_run _ _ _ _ _ (fte_modify_run s2 p e _ (proj1 Hp) He)) in Hrun.
    set (e' := {| e with fte_cap := _; fte_ut := _; fte_important := _; fte_user_vaddr := _;
                         fte_pid := _; fte_user_cap := _; fte_ref_bit := _ |}) in Hrun.
    set (s3 := {| s2 with ft := _ |}) in Hrun.
    assert (s3.(ft).(frame_table) !! Z.to_nat p = Some e') as He'.
    { apply list_lookup_insert_eq. by apply lookup_lt_Some in He. }
    rewrite (bind_run _ _ _ _ _ (fte_get_run s3 p e' (proj1 Hp) He')) in Hrun.
    unfold ft_modify in Hrun. rewrite modify_bind in Hrun. run_inv Hrun.
    pose proof (allocated_inv s1 p f e m.(m_cap) m.(m_ut) important I He Hcap Hch) as I'.
    split; [done|]. rewrite <- Vf. split; [done|]. split; [exact I'|]. split; [by rewrite <- Vw|].
    exists e, m.(m_cap), m.(m_ut). split; [done|]. split; [done|]. split; [done|].
    specialize (Hmap Hu). by rewrite Hv, <- Vf in Hmap.
Qed.

(** C29 Allocation of a frame while free frames remain: the call either reports
    failure, with page number and address 0 and the frame table as it was, or
    it takes the first page of the free list, zeroes it, enters its capability
    in the table and leaves the rest of the list as the new free list; its last
    kernel call mapped that capability at the page's address in the server's own
    address space, and the kernel accepted it.  No frame is replaced. *)
Theorem frame_alloc_takes_free_page (s s' : sos E) (p : Z) (f : list Z) (important : bool) (page vaddr : Z) :
  ft_inv s (p :: f) ->
  frame_alloc_as pageout important s = Ok (page, vaddr) s' ->
  (page = 0 /\ vaddr = 0 /\ same_vm s s' /\ ft_inv s' (p :: f)) \/
  (page = p /\ vaddr = page_addr s.(ft) p /\ ft_inv s' f /\ s'.(words) = <[vaddr := ∅]> s.(words) /\
   exists e cap u, s.(ft).(frame_table) !! Z.to_nat p = Some e /\ cap <> seL4_CapNull /\
     s'.(ft).(frame_table) = <[Z.to_nat p := entered e cap u important]> s.(ft).(frame_table) /\
     head s'.(trace) = Some (maps_frame cap vaddr)).
Proof. apply frame_alloc_spec. Qed.
End alloc.

(** ** Freeing *)

Section free.
Context {E : Type} `{!Env E}.
Implicit Types s : sos E.

Definition same_trace s s' : Prop := s'.(trace) = s.(trace).
#[global] Instance same_trace_preorder : PreOrder same_trace.
Proof. split; [done|]. intros s1 s2 s3. unfold same_trace. congruence. Qed.

Lemma trace_cspace_get c : preserves same_trace (cspace_get (E:=E) c).
Proof. unfold cspace_get. preserves. Qed.
Lemma trace_cspace_put c x : preserves same_trace (cspace_put (E:=E) c x).
Proof. unfold cspace_put. preserves; [apply trace_cspace_get | by apply preserves_modify]. Qed.
Lemma trace_node_get p : preserves same_trace (node_get (E:=E) p).
Proof. unfold node_get. preserves. Qed.
Lemma trace_node_put p n : preserves same_trace (node_put (E:=E) p n).
Proof. unfold node_put. preserves; [apply trace_node_get | by apply preserves_modify]. Qed.
#[local] Hint Resolve trace_cspace_get trace_cspace_put trace_node_get trace_node_put : pres.

Lemma trace_cspace_free_slot c q : preserves same_trace (cspace_free_slot (E:=E) c q).
Proof. unfold cspace_free_slot, on_top_bf, on_bot_bf, bot_lvl_node_ptr, on_bf, index. preserves. Qed.

Lemma trace_on_ut {A} (c : M ut_state A) : preserves same_trace (on_ut (E:=E) c).
Proof. by apply preserves_zoom. Qed.

Lemma cspace_delete_trace c q s r s' :
  cspace_delete c q s = Ok r s' ->
  exists root, s'.(trace) = (CNode_Delete, [root; q; seL4_WordBits], r) :: s.(trace).
Proof.
  intros H. unfold cspace_delete in H. apply bind_Ok in H as (x & s1 & H1 & H).
  apply cspace_get_inv in H1 as [-> _]. apply call_inv in H as (_ & _ & H). eauto.
Qed.

(** Unmap a capability, delete it, give its slot back. *)
Definition retire (c cap : Z) : M (sos E) unit :=
  _ ← call Page_Unmap [cap]; _ ← cspace_delete c cap; cspace_free_slot c cap.

Lemma delete_free_trace c cap s s2 s3 r u :
  cspace_delete c cap s = Ok r s2 -> cspace_free_slot c cap s2 = Ok u s3 ->
  exists root r2, s3.(trace) = (CNode_Delete, [root; cap; seL4_WordBits], r2) :: s.(trace).
Proof.
  intros H2 H3. apply cspace_delete_trace in H2 as (root & Ht2).
  apply trace_cspace_free_slot in H3. unfold same_trace in H3. exists root, r. congruence.
Qed.

Lemma retire_trace c cap s s' u :
  retire c cap s = Ok u s' ->
  exists root r1 r2, s'.(trace) = (CNode_Delete, [root; cap; seL4_WordBits], r2)
                                  :: (Page_Unmap, [cap], r1) :: s.(trace).
Proof.
  intros H. unfold retire in H. apply bind_Ok in H as (r1 & s1 & H1 & H).
  apply bind_Ok in H as (r2 & s2 & H2 & H3). apply call_inv in H1 as (_ & _ & Ht1).
  destruct (delete_free_trace _ _ _ _ _ _ _ H2 H3) as (root & r & Ht). exists root, r1, r. congruence.
Qed.

Definition vacated (e : frame_table_entry) (next : Z) : frame_table_entry :=
  mk_fte seL4_CapNull seL4_CapNull e.(fte_ut) next (-1) 0 e.(fte_ref_bit) e.(fte_important).

(** The table and the frames after [page] was freed. *)
Definition freed s (page : Z) (e : frame_table_entry) : frame_table_t * gmap Z (gmap Z Z) :=
  ({| s.(ft) with
      frame_table := <[Z.to_nat page := vacated e s.(ft).(next_free_page)]> s.(ft).(frame_table);
      frame_table_curr_size := u64 (s.(ft).(frame_table_curr_size) - 1);
      next_free_page := page |}, delete (page_addr s.(ft) page) s.(words)).

Lemma freed_inv s s' f page e :
  ft_inv s f -> 0 <= page < s.(ft).(frame_table_size) -> page ∉ f ->
  s.(ft).(frame_table) !! Z.to_nat page = Some e ->
  (s'.(ft), s'.(words)) = freed s page e -> ft_inv s' (page :: f).
Proof.
  intros [Hlen Hsize Hbase Hch Hnd Hr Hcount Hfew Hused Hfresh] Hp Hnp He [= Hft Hw].
  assert (Z.of_nat (length (page :: f)) <= s.(ft).(frame_table_size)) as Hfew'.
  { assert (NoDup (Z.to_nat <$> page :: f)) as Hnd'.
    { apply NoDup_fmap_2_strong; [|by constructor]. intros x y Hx Hy Hxy.
      assert (forall z, z ∈ page :: f -> 0 <= z) as Hpos.
      { intros z [->|Hz]%elem_of_cons; [lia|]. apply (proj1 (Forall_forall _ _) Hr) in Hz. lia. }
      pose proof (Hpos _ Hx). pose proof (Hpos _ Hy). lia. }
    assert (length (Z.to_nat <$> page :: f) <= length (seq 0 (Z.to_nat s.(ft).(frame_table_size))))%nat as Hle.
    { apply submseteq_length, NoDup_submseteq; [done|]. intros x (z & -> & Hz)%list_elem_of_fmap.
      apply elem_of_seq. apply elem_of_cons in Hz as [->|Hz]; [lia|].
      apply (proj1 (Forall_forall _ _) Hr) in Hz. lia. }
    rewrite length_fmap, length_seq in Hle. lia. }
  split; rewrite ?Hft, ?Hw; cbn [frame_table frame_table_size base_vaddr next_free_page frame_table_curr_size].
  - by rewrite length_insert.
  - done.
  - done.
  - split; [done|]. exists (vacated e s.(ft).(next_free_page)).
    rewrite list_lookup_insert_eq by (by apply lookup_lt_Some in He). split; [done|]. split; [done|].
    apply free_chain_frame; [|done]. apply (to_nat_notin f page s.(ft).(frame_table_size)); [done|lia|done].
  - by constructor.
  - by constructor.
  - rewrite Hcount. cbn [length] in *. rewrite u64_small by lia. lia.
  - done.
  - intros i e' He' Hi. rewrite not_elem_of_cons in Hi. destruct Hi as [Hi Hif].
    rewrite list_lookup_insert_ne in He' by lia. by apply (Hused i).
  - intros p Hin. match goal with |- delete _ _ !! ?k = _ => change k with (page_addr s.(ft) p) end.
    apply elem_of_cons in Hin as [->|Hin]; [apply lookup_delete_eq|].
    rewrite lookup_delete_ne; [by apply Hfresh|]. intros Heq%page_addr_inj. congruence.
Qed.

(** C28 Freeing an allocated frame: the frame is unmapped and its capability
    deleted, then the same for the user's capability if there is one (no other
    kernel call is made); the entry becomes free and is the first of the free
    list; SOS no longer reaches the frame; all other entries stay. *)
Theorem frame_free_returns_page (s s' : sos E) (f : list Z) (page : Z) (e : frame_table_entry) :
  ft_inv s f -> 0 <= page < s.(ft).(frame_table_size) -> page ∉ f ->
  s.(ft).(frame_table) !! Z.to_nat page = Some e ->
  frame_free page s = Ok tt s' ->
  ft_inv s' (page :: f) /\ (s'.(ft), s'.(words)) = freed s page e /\
  exists user root r1 r2, s'.(trace) = user ++
      (CNode_Delete, [root; e.(fte_cap); seL4_WordBits], r2) :: (Page_Unmap, [e.(fte_cap)], r1) :: s.(trace) /\
    if e.(fte_user_cap) =? 0 then user = []
    else exists root' r3 r4, user = [(CNode_Delete, [root'; e.(fte_user_cap); seL4_WordBits], r4);
                                     (Page_Unmap, [e.(fte_user_cap)], r3)].
Proof.
  intros I Hp Hnp He Hrun.
  assert (e.(fte_cap) <> seL4_CapNull) as Hcap.
  { apply (fi_used _ _ I (Z.to_nat page)); [done|]. by rewrite Z2Nat.id by lia. }
  pose proof (fi_size _ _ I) as Hsize. pose proof (fi_base _ _ I) as Hbase.
  unfold frame_free in Hrun. unfold ft_get at 1 in Hrun. rewrite (bind_run _ _ s s.(ft) s) in Hrun by done.
  rewrite (proj2 (Z.ltb_ge _ _)) in Hrun by lia.
  rewrite (bind_run _ _ _ _ _ (fte_get_run s page e (proj1 Hp) He)) in Hrun.
  rewrite assert_bind in Hrun by (by rewrite (proj2 (Z.eqb_neq _ _) Hcap)).
  rewrite (bind_run _ _ _ _ _ (fte_modify_run s page e _ (proj1 Hp) He)) in Hrun.
  match type of Hrun with mbind _ _ ?st = _ => set (s1 := st) in Hrun end.
  apply bind_Ok in Hrun as (r1 & s2 & H2 & Hrun).
  pose proof (layer_call same_vm _ _ _ _ _ H2) as (Vf2 & Vw2 & _). apply call_inv in H2 as (_ & _ & Ht2).
  rewrite (bind_run _ _ s2 (page_addr s.(ft) page) s2) in Hrun.
  2:{ unfold page_num_to_vaddr, ft_get. rewrite (bind_run _ _ s2 s2.(ft) s2) by done. rewrite Vf2.
      unfold mret, M_ret. f_equal. cbn [s1 ft base_vaddr]. unfold page_addr. rewrite PAGE_SIZE_4K_eq.
      apply u64_small. lia. }
  unfold drop_frame in Hrun. rewrite modify_bind in Hrun.
  match type of Hrun with mbind _ _ ?st = _ => set (s3 := st) in Hrun end.
  apply bind_Ok in Hrun as (r2 & s4 & H4 & Hrun). apply bind_Ok in Hrun as (u5 & s5 & H5 & Hrun).
  apply bind_Ok in Hrun as (u6 & s6 & H6 & Hrun). apply bind_Ok in Hrun as (u7 & s7 & H7 & Hrun).
  destruct (delete_free_trace _ _ _ _ _ _ _ H4 H5) as (root & r2' & Ht5).
  assert (same_vm s3 s7) as (Vf7 & Vw7 & _).
  { apply (layer_cspace_delete same_vm) in H4. apply (layer_cspace_free_slot same_vm) in H5. apply (layer_on_ut same_vm) in H7.
    assert (same_vm s5 s6) as V6.
    { eapply (preserves_when same_vm); [|exact H6]. preserves. }
    by transitivity s4; [|transitivity s5; [|transitivity s6]]. }
  assert (s7.(ft).(frame_table) !! Z.to_nat page = Some {| e with fte_next_free_page := s.(ft).(next_free_page) |}) as He7.
  { rewrite Vf7. cbn [s3 ft]. rewrite Vf2. apply list_lookup_insert_eq. by apply lookup_lt_Some in He. }
  rewrite (bind_run _ _ _ _ _ (fte_modify_run s7 page _ _ (proj1 Hp) He7)) in Hrun.
  unfold ft_modify, modify in Hrun. injection Hrun as <-.
  match goal with |- ft_inv ?st _ /\ _ => set (s8 := st) end.
  assert ((s8.(ft), s8.(words)) = freed s page e) as Hfreed.
  { unfold freed. cbn [s8 ft words]. rewrite Vf7, Vw7. cbn [s3 ft words]. rewrite Vf2, Vw2.
    cbn [s1 ft words frame_table]. rewrite list_insert_insert_eq. done. }
  split; [by apply (freed_inv s s8 f page e)|]. split; [done|].
  apply trace_on_ut in H7. unfold same_trace in H7. cbn [s8 trace]. rewrite H7.
  destruct (Z.eqb_spec e.(fte_user_cap) 0) as [E0|Hu]; cbn [negb when] in H6.
  - run_inv H6. exists [], root, r1, r2'. rewrite Ht5. cbn [s3 trace]. by rewrite Ht2.
  - destruct (retire_trace _ _ _ _ _ H6) as (root' & r3 & r4 & Ht6).
    exists [(CNode_Delete, [root'; e.(fte_user_cap); seL4_WordBits], r4); (Page_Unmap, [e.(fte_user_cap)], r3)],
      root, r1, r2'. rewrite Ht6, Ht5. cbn [s3 trace]. rewrite Ht2. split; [done|]. eauto.
Qed.
End free.

(** ** Building the table *)

Section init.
Context {E : Type} `{!Env E}.
Implicit Types s : sos E.

(** Only the physical address noted for the table changes. *)
Definition same_ft s s' : Prop :=
  s'.(words) = s.(words) /\ exists p, s'.(ft) = {| s.(ft) with top_paddr := p |}.

#[local] Instance same_ft_preorder : PreOrder same_ft.
Proof.
  split.
  - intros s. split; [done|]. exists s.(ft).(top_paddr). by destruct (ft s).
  - intros s1 s2 s3 (? & p & Hp) (? & q & Hq).
    split; [congruence|]. exists q. rewrite Hq, Hp. done.
Qed.

Lemma vm_same_ft s s' : same_vm s s' -> same_ft s s'.
Proof. intros (Hf & Hw & _). split; [done|]. exists s.(ft).(top_paddr). rewrite Hf. by destruct (ft s). Qed.

Lemma note_paddr_ft m : preserves same_ft (note_paddr (E:=E) m).
Proof. unfold note_paddr, ft_modify. preserves. apply preserves_modify. intros s. split; [done|]. by eexists. Qed.

Lemma map_table_pages_spec n v ok s v' s' :
  0 <= v -> v + Z.of_nat n * 4096 < 2 ^ 64 ->
  map_table_pages n v ok s = Ok (v', true) s' ->
  v' = v + Z.of_nat n * 4096 /\ ok = true /\ same_ft s s'.
Proof.
  revert v ok s. induction n as [|n IH]; intros v ok s Hv Hb H; cbn [map_table_pages] in H.
  - run_inv H. split; [lia|]. split; [done|]. reflexivity.
  - apply bind_Ok in H as (m & s1 & H1 & H). apply bind_Ok in H as ([] & s2 & H2 & H).
    apply note_paddr_ft in H2. pose proof (vm_same_ft _ _ (vm_alloc_retype_map _ _ _ _ H1)) as V.
    apply alloc_retype_map_vaddr in H1 as [[Hu Hm]|(Hu & Hm & _)]; rewrite Hm in H.
    + apply IH in H as (_ & Hok & _); [|lia|lia].
      rewrite Hu in Hok. by apply andb_prop in Hok as [_ ?].
    + rewrite PAGE_SIZE_4K_eq, u64_small in H by lia. apply IH in H as (-> & Hok & V3); [|lia|lia].
      apply andb_prop in Hok as [-> _]. split; [lia|]. split; [done|]. by do 2 (etrans; [eassumption|]).
Qed.

Lemma initial_entry n i :
  (i < n)%nat ->
  initial_entries n !! i = Some (free_entry (if Z.of_nat i =? Z.of_nat n - 1 then 0 else Z.of_nat i + 1)).
Proof.
  intros Hi. unfold initial_entries, zseq. rewrite !list_lookup_fmap, lookup_seq_lt by done. simpl.
  by rewrite !Z.add_0_l.
Qed.

Lemma initial_chain n k m :
  (k + m = n)%nat -> (0 < m)%nat -> free_chain (initial_entries n) (Z.of_nat k) (zseq (Z.of_nat k) m).
Proof.
  revert k. induction m as [|m IH]; intros k Hn Hm; [lia|]. rewrite zseq_S. split; [done|].
  eexists. rewrite Nat2Z.id. split; [apply initial_entry; lia|]. split; [done|].
  cbn [free_entry fte_next_free_page]. destruct m as [|m]; [done|].
  rewrite (proj2 (Z.eqb_neq _ _)) by lia. replace (Z.of_nat k + 1) with (Z.of_nat (S k)) by lia.
  apply IH; lia.
Qed.

Lemma initial_inv s n :
  s.(ft).(frame_table) = initial_entries (Z.to_nat n) -> s.(ft).(frame_table_size) = n ->
  s.(ft).(frame_table_curr_size) = 0 -> s.(ft).(next_free_page) = 0 ->
  0 < n < 2 ^ 32 -> 0 < s.(ft).(base_vaddr) < 2 ^ 48 -> s.(words) = ∅ ->
  ft_inv s (zseq 0 (Z.to_nat n)).
Proof.
  intros Ht Hs Hc Hn Hb Hbase Hw. split; rewrite ?Ht, ?Hs, ?Hc, ?Hn; try done.
  - unfold initial_entries. rewrite length_fmap, zseq_length. lia.
  - by apply (initial_chain _ 0); lia.
  - apply NoDup_zseq.
  - apply Forall_forall. intros x Hx%elem_of_zseq. lia.
  - rewrite zseq_length. lia.
  - rewrite zseq_length. lia.
  - intros i e He Hi. apply lookup_lt_Some in He. unfold initial_entries in He.
    rewrite length_fmap, zseq_length in He. destruct Hi. apply elem_of_zseq. lia.
  - intros p _. rewrite Hw. apply lookup_empty.
Qed.

(** [frame_table_init]: when it returns, the table has four fifths of the
    untyped pages, all of them free and linked in order from page 0, starting
    after the pages the table itself takes up. *)
Theorem frame_table_init_all_free (s s' : sos E) (cs n : Z) :
  n = four_fifths (u64 (s.(ut).(table).(n_4k_untyped) * PAGE_SIZE_4K) / PAGE_SIZE_4K) ->
  0 < n < 2 ^ 32 -> s.(words) = ∅ -> s.(ft).(next_free_page) = 0 ->
  frame_table_init cs s = Ok tt s' ->
  ft_inv s' (zseq 0 (Z.to_nat n)) /\ s'.(ft).(ft_cspace) = cs /\ s'.(ft).(clock_curr) = 0 /\
  s'.(ft).(base_vaddr) = SOS_FRAME_TABLE + BYTES_TO_4K_PAGES (n * SIZEOF_FTE) * PAGE_SIZE_4K.
Proof.
  intros Hn Hb Hw Hnext H. unfold frame_table_init in H.
  apply bind_Ok in H as (size & s0 & H0 & H). apply on_ut_Ok in H0 as (t & H0 & ->).
  injection H0 as <- <-. cbv zeta in H. rewrite <- Hn in H.
  unfold ft_modify in H. rewrite modify_bind in H.
  match type of H with mbind _ _ ?st = _ => set (s1 := st) in H end.
  set (pages := BYTES_TO_4K_PAGES (u64 (n * SIZEOF_FTE))) in *.
  assert (pages = BYTES_TO_4K_PAGES (n * SIZEOF_FTE) /\ 1 <= pages < 2 ^ 30) as [Hpages Hpb].
  { unfold pages, BYTES_TO_4K_PAGES. change (BIT PAGE_BITS_4K) with 4096. unfold SIZEOF_FTE.
    rewrite u64_small by lia. split; [done|]. pose proof (Z.div_mod (n * 56) 4096).
    pose proof (Z.mod_pos_bound (n * 56) 4096). destruct (Z.ltb_spec 0 ((n * 56) mod 4096)); lia. }
  apply bind_Ok in H as (m & s2 & H2 & H). apply bind_Ok in H as ([] & s3 & H3 & H).
  apply bind_Ok in H as ([v ok] & s4 & H4 & H). unfold ft_modify in H.
  rewrite modify_bind in H. apply bind_Ok in H as ([] & s5 & H5 & H).
  apply access_Ok in H5 as [[-> _]%andb_prop ->].
  pose proof (vm_same_ft _ _ (vm_alloc_retype_map _ _ _ _ H2)) as V2. apply note_paddr_ft in H3 as V3.
  apply alloc_retype_map_vaddr in H2 as H2v.
  apply map_table_pages_spec in H4 as (-> & Hok & V4).
  2,3: unfold SOS_FRAME_TABLE in *; lia.
  destruct H2v as [[Hu _]|(_ & Hm & _)]; [by rewrite Hu in Hok|]. rewrite Hm in *.
  assert (same_ft s1 s4) as (Vw & tp & Vf) by (by etrans; [|etrans]).
  apply bind_Ok in H as (size & s5 & H5 & H). apply on_ut_Ok in H5 as (t5 & _ & ->).
  rewrite modify_bind in H. apply bind_Ok in H as ([] & s6 & H6 & H). apply assert_Ok in H6 as [_ ->].
  injection H as <-.
  assert (u64 (SOS_FRAME_TABLE + Z.of_nat (Z.to_nat (pages - 1)) * 4096 + PAGE_SIZE_4K)
    = SOS_FRAME_TABLE + pages * PAGE_SIZE_4K) as Hbase.
  { rewrite PAGE_SIZE_4K_eq, Z2Nat.id, u64_small by (unfold SOS_FRAME_TABLE; lia). lia. }
  split.
  - apply initial_inv; cbn [ft words frame_table frame_table_size frame_table_curr_size next_free_page base_vaddr];
      rewrite ?Vf, ?Vw; try done.
    rewrite Hbase, PAGE_SIZE_4K_eq. unfold SOS_FRAME_TABLE. lia.
  - cbn [ft ft_cspace clock_curr base_vaddr]. rewrite Hbase, <- Hpages, Vf. done.
Qed.
End init.

(** ** On the concrete machine *)

Lemma sample_ft_inv w :
  (forall p, 1 <= p < 8 -> w !! page_addr sample_frames p = None) ->
  ft_inv {| framed with words := w |} [1; 2; 3; 4; 5; 6; 7].
Proof.
  intros Hw. split; [done | done | done | | | | done | done | |].
  - simpl. repeat (split; [done|]; eexists; split; [done|]; split; [done|]). done.
  - apply (bool_decide_unpack _). vm_compute. exact I.
  - repeat constructor; done.
  - intros [|i] e He Hi; [by injection He as <-|]. destruct Hi.
    assert (i < 7)%nat by (by apply lookup_lt_Some in He; simpl in He; lia).
    change [1; 2; 3; 4; 5; 6; 7] with (zseq 1 7). apply elem_of_zseq. lia.
  - intros p Hp. change [1; 2; 3; 4; 5; 6; 7] with (zseq 1 7) in Hp. apply elem_of_zseq in Hp. apply Hw. lia.
Qed.

Lemma framed_ft_inv : ft_inv framed [1; 2; 3; 4; 5; 6; 7].
Proof. apply (sample_ft_inv ∅). intros p _. apply lookup_empty. Qed.

Lemma frame_alloc_takes_free_page_witness : exists s',
  frame_alloc_as (fun _ => mret 0) true framed = Ok (1, 2 ^ 40 + 4096) s' /\ ft_inv s' [2; 3; 4; 5; 6; 7].
Proof.
  run_to (frame_alloc_as (fun _ => mret 0) true) framed (1, 2 ^ 40 + 4096) Hrun.
  eexists. split; [exact Hrun|].
  destruct (frame_alloc_takes_free_page (fun _ => mret 0) framed _ 1 [2; 3; 4; 5; 6; 7] true 1 (2 ^ 40 + 4096)
    framed_ft_inv Hrun) as [[H _]|(_ & _ & H & _)]; [done|exact H].
Defined.

Lemma frame_free_returns_page_witness : exists s',
  frame_free 0 framed = Ok tt s' /\ ft_inv s' [0; 1; 2; 3; 4; 5; 6; 7].
Proof.
  run_to (frame_free 0) framed tt Hrun.
  eexists. split; [exact Hrun|].
  refine (proj1 (frame_free_returns_page framed _ [1; 2; 3; 4; 5; 6; 7] 0 (mk_fte 7 9 33008 0 1 8192 true false)
    framed_ft_inv _ _ _ Hrun)); [split; reflexivity || discriminate | | reflexivity].
  apply (bool_decide_unpack _). vm_compute. exact I.
Defined.

Lemma frame_table_init_all_free_witness : exists s',
  frame_table_init 100 {| framed with ft := no_ft |} = Ok tt s' /\ ft_inv s' (zseq 0 9).
Proof.
  run_to (frame_table_init 100) {| framed with ft := no_ft |} tt Hrun.
  eexists. split; [exact Hrun|].
  refine (proj1 (frame_table_init_all_free {| framed with ft := no_ft |} _ 100 9 _ _ _ _ Hrun));
    [reflexivity | split; reflexivity | reflexivity | reflexivity].
Defined.
