(* ===== verification/PageSpec.v ===== *)
(** * The page table as a map from pages to entries

    What the four-level tree of [PageTable] stores: the entry word of a virtual
    page ([entry_at]), and whether it stands for a frame or a page-file slot
    ([present]).  The theorems: entries pack a number and flags and give them
    back, the four indices identify a page of the 48-bit address space,
    [page_lookup] finds the entry of a page, and [page_table_insert] updates the
    map at one page and nowhere else, also when it has to grow the tree. *)
From S2P Require Import Prelude Utils Bitfield UtTable Bytes Sos Cspace Sample CspaceSpec CspaceGrow Mapping.
From S2P Require Import UtAlloc FrameTable FrameClock PageTable FrameSpec.

(** ** Entries *)

Lemma page_set_bits_eq entry bits :
  0 <= entry < 2 ^ 64 -> 0 <= bits < 256 ->
  page_set_bits entry bits = bits * 2 ^ 52 + entry mod 2 ^ 52.
Proof.
  intros He Hb. unfold page_set_bits.
  assert (Z.shiftl bits 16 = bits * 2 ^ 16) as -> by (by rewrite Z.shiftl_mul_pow2).
  rewrite !(Z.shiftl_mul_pow2 _ _), (u64_small (bits * 2 ^ 16 * 2 ^ 16)) by lia.
  rewrite (u64_small (bits * 2 ^ 16 * 2 ^ 16 * 2 ^ 16)), (u64_small (_ * 2 ^ 4)) by lia.
  replace (bits * 2 ^ 16 * 2 ^ 16 * 2 ^ 16 * 2 ^ 4) with (Z.shiftl bits 52) by (rewrite Z.shiftl_mul_pow2; lia).
  match goal with |- Z.lor _ (Z.land ?m _) = _ => replace m with (Z.ones 52) by reflexivity end.
  rewrite Z.land_comm, Z.land_ones by lia. rewrite <- Z.add_nocarry_lor.
  - by rewrite Z.shiftl_mul_pow2.
  - apply Z.bits_inj'. intros n Hn. rewrite Z.land_spec, Z.bits_0, Z.shiftl_spec by done.
    destruct (Z.ltb_spec n 52); [by rewrite Z.testbit_neg_r by lia|].
    rewrite Z.mod_pow2_bits_high by lia. apply andb_false_r.
Qed.

Lemma page_entry_pack (bits num : Z) :
  0 <= num < 2 ^ 52 -> 0 <= bits < 256 ->
  0 <= page_update_entry bits num < 2 ^ 64 /\
  page_entry_number (page_update_entry bits num) = num /\
  page_get_bits (page_update_entry bits num) = bits.
Proof.
  intros Hn Hb. unfold page_update_entry, page_entry_number, page_get_bits.
  rewrite (page_set_bits_eq num bits) by lia. rewrite (Z.mod_small num) by lia.
  split; [lia|]. split.
  - rewrite page_set_bits_eq by lia. rewrite (Z.add_comm (bits * _) num), Z.mod_add, Z.mod_small by lia. lia.
  - rewrite !Z.shiftr_shiftr by lia. rewrite Z.shiftr_div_pow2 by lia.
    rewrite (Z.add_comm (bits * _) num), Z.div_add, Z.div_small by lia. unfold u8, wrap. apply Z.mod_small. lia.
Qed.

(** A page-table entry keeps its number and its flags apart: whatever number
    below 2^52 and flags are packed with [page_update_entry],
    [page_entry_number] and [page_get_bits] return them. *)
Theorem page_entry_roundtrip (bits num : Z) :
  0 <= num < 2 ^ 52 -> 0 <= bits < 256 ->
  0 <= page_update_entry bits num < 2 ^ 64 /\
  page_entry_number (page_update_entry bits num) = num /\
  page_get_bits (page_update_entry bits num) = bits.
Proof. apply page_entry_pack. Qed.

Lemma page_entry_roundtrip_witness :
  page_entry_number (page_update_entry P_PAGEFILE 77) = 77 /\
  page_get_bits (page_update_entry P_PAGEFILE 77) = P_PAGEFILE.
Proof.
  destruct (page_entry_roundtrip P_PAGEFILE 77) as (_ & H1 & H2);
    [split; vm_compute; congruence | split; vm_compute; congruence | by split].
Defined.

(** ** Indices *)

(** The page of an address of the 48-bit space the four levels cover. *)
Definition vpn (vaddr : Z) : Z := vaddr / 4096 mod 2 ^ 36.

Definition indices (vaddr : Z) : list Z :=
  let ind := get_pt_index vaddr in [ind.(l1); ind.(l2); ind.(l3); ind.(l4)].

Lemma get_pt_index_eq vaddr :
  get_pt_index vaddr = mk_pt_index (vaddr mod 4096) (vaddr / 4096 mod 512) (vaddr / 4096 / 512 mod 512)
    (vaddr / 4096 / 512 / 512 mod 512) (vaddr / 4096 / 512 / 512 / 512 mod 512).
Proof.
  unfold get_pt_index, PAGE_BITS_4K.
  rewrite !(Z.land_comm (Zpos _)). change 0xFFF with (Z.ones 12). change 0x1FF with (Z.ones 9).
  rewrite !Z.land_ones, !Z.shiftr_div_pow2 by lia. rewrite !Z.div_div by lia. done.
Qed.

Lemma index_range vaddr i : i ∈ indices vaddr -> 0 <= i < 512.
Proof.
  unfold indices. rewrite get_pt_index_eq. cbn [l1 l2 l3 l4]. intros Hi.
  repeat (apply elem_of_cons in Hi as [->|Hi]; [apply Z.mod_pos_bound; lia|]). by apply elem_of_nil in Hi.
Qed.

Lemma vpn_digits v :
  vpn v = (v / 4096 / 512 / 512 / 512 mod 512) * 2 ^ 27 + (v / 4096 / 512 / 512 mod 512) * 2 ^ 18
          + (v / 4096 / 512 mod 512) * 2 ^ 9 + v / 4096 mod 512.
Proof.
  unfold vpn. set (x := v / 4096). change (2 ^ 36) with (512 * (512 * (512 * 512))).
  rewrite (Z.rem_mul_r x 512), (Z.rem_mul_r (x / 512) 512), (Z.rem_mul_r (x / 512 / 512) 512) by lia. lia.
Qed.

Lemma pt_index_page (v w : Z) :
  (l1 (get_pt_index v), l2 (get_pt_index v), l3 (get_pt_index v), l4 (get_pt_index v)) =
  (l1 (get_pt_index w), l2 (get_pt_index w), l3 (get_pt_index w), l4 (get_pt_index w)) <-> vpn v = vpn w.
Proof.
  rewrite !get_pt_index_eq. cbn [l1 l2 l3 l4]. rewrite !vpn_digits.
  pose proof (fun x => Z.mod_pos_bound x 512 ltac:(lia)) as Hm.
  pose proof (Hm (v / 4096)). pose proof (Hm (w / 4096)).
  pose proof (Hm (v / 4096 / 512)). pose proof (Hm (w / 4096 / 512)).
  pose proof (Hm (v / 4096 / 512 / 512)). pose proof (Hm (w / 4096 / 512 / 512)).
  pose proof (Hm (v / 4096 / 512 / 512 / 512)). pose proof (Hm (w / 4096 / 512 / 512 / 512)).
  split; [by intros [= -> -> -> ->] | intros Heq].
  f_equal; [f_equal; [f_equal|]|]; lia.
Qed.

(** The four nine-bit indices of a virtual address determine its page and are
    determined by it: two addresses use the same entry exactly when they lie in
    the same page of the 48-bit address space. *)
Theorem pt_index_determines_page (v w : Z) :
  (l1 (get_pt_index v), l2 (get_pt_index v), l3 (get_pt_index v), l4 (get_pt_index v)) =
  (l1 (get_pt_index w), l2 (get_pt_index w), l3 (get_pt_index w), l4 (get_pt_index w)) <-> vpn v = vpn w.
Proof. apply pt_index_page. Qed.

(** ** The tree

    The shape of the tree is a matter of [words] alone.  A node is named by the
    indices that lead to it from the root: three of them lead to a leaf. *)

Notation frames := (gmap Z (gmap Z Z)).
Implicit Types w : frames.

Definition wget w (p i : Z) : Z := default 0 (w !! p ≫= (.!! i)).

Fixpoint walk w (p : Z) (path : list Z) : Z :=
  match path with
  | [] => p
  | i :: path' => let q := wget w p i in if q =? 0 then 0 else walk w q path'
  end.

Definition root w (pt : Z) : Z := wget w pt 0.
Definition in_index (i : Z) : Prop := 0 <= i < 512.

(** The nodes are frames of their own, each reached in one way. *)
Record pt_wf w (pt : Z) : Prop := mk_pt_wf {
  pw_table : is_Some (w !! pt);
  pw_root : root w pt <> 0;
  pw_node : forall path, (length path <= 3)%nat -> Forall in_index path ->
    walk w (root w pt) path <> 0 -> is_Some (w !! walk w (root w pt) path) /\ walk w (root w pt) path <> pt;
  pw_inj : forall path path', (length path <= 3)%nat -> (length path' <= 3)%nat ->
    Forall in_index path -> Forall in_index path' -> walk w (root w pt) path <> 0 ->
    walk w (root w pt) path = walk w (root w pt) path' -> path = path' }.

Definition path_of (vaddr : Z) : list Z :=
  let ind := get_pt_index vaddr in [ind.(l1); ind.(l2); ind.(l3)].

Definition leaf_of w (pt vaddr : Z) : Z := walk w (root w pt) (path_of vaddr).

(** What an entry word stands for. *)
Definition present (e : Z) : option Z := if nz (Z.land P_INVALID (page_get_bits e)) then None else Some e.

(** The page table as a map: the entry of the page of [vaddr], if it has one. *)
Definition resolve w (pt vaddr : Z) : option Z :=
  let leaf := leaf_of w pt vaddr in
  if leaf =? 0 then None else present (wget w leaf (get_pt_index vaddr).(l4)).

Lemma walk_snoc w p path i :
  walk w p (path ++ [i]) = (let q := walk w p path in if q =? 0 then 0 else wget w q i) \/ p = 0.
Proof.
  revert p. induction path as [|j path IH]; intros p; cbn [walk app].
  - destruct (Z.eqb_spec p 0); [by right|]. left. by destruct (Z.eqb_spec (wget w p i) 0) as [->|].
  - cbv zeta. destruct (Z.eqb_spec (wget w p j) 0) as [E|Hn]; [by left|].
    destruct (IH (wget w p j)) as [H|H]; [by left|done].
Qed.

Lemma walk_snoc_root w pt path i :
  pt_wf w pt ->
  walk w (root w pt) (path ++ [i]) =
  if walk w (root w pt) path =? 0 then 0 else wget w (walk w (root w pt) path) i.
Proof. intros I. destruct (walk_snoc w (root w pt) path i) as [H|H]; [done|]. by apply pw_root in H. Qed.

Lemma wget_ne w p q c i : p <> q -> wget (<[q := c]> w) p i = wget w p i.
Proof. intros. unfold wget. by rewrite lookup_insert_ne. Qed.
Lemma wget_eq w p c i : wget (<[p := c]> w) p i = default 0 (c !! i).
Proof. unfold wget. by rewrite lookup_insert_eq. Qed.

(** *** Adding a node *)

Definition linked w (p i a : Z) (c : gmap Z Z) : frames :=
  <[p := <[i := a]> (default ∅ (w !! p))]> (<[a := c]> w).

Section link.
Context (w : frames) (pt : Z) (path : list Z) (i a : Z) (c : gmap Z Z).
Context (I : pt_wf w pt) (Hlen : (length path <= 2)%nat) (Hpath : Forall in_index path) (Hi : in_index i).
Let p := walk w (root w pt) path.
Context (Hp : p <> 0) (Hfree : wget w p i = 0) (Ha : w !! a = None) (Ha0 : a <> 0).
Context (Hc : (length path < 2)%nat -> c = ∅).

Lemma link_node : is_Some (w !! p) /\ p <> pt.
Proof. by apply (pw_node _ _ I); [lia| |]. Qed.

Lemma link_fresh q : is_Some (w !! q) -> q <> a.
Proof. intros [x Hx] ->. by rewrite Ha in Hx. Qed.

Lemma link_parent : p <> a.
Proof. apply link_fresh, link_node. Qed.

Lemma wget_linked q j :
  is_Some (w !! q) -> wget (linked w p i a c) q j = if decide (q = p /\ j = i) then a else wget w q j.
Proof.
  intros Hq. unfold linked. destruct (decide (q = p)) as [->|Hne].
  - rewrite wget_eq. destruct (decide (p = p /\ j = i)) as [[_ ->]|Hn]; [by rewrite lookup_insert_eq|].
    rewrite lookup_insert_ne by naive_solver. unfold wget. by destruct Hq as [x ->].
  - rewrite wget_ne by done. rewrite decide_False by naive_solver.
    apply wget_ne. by apply link_fresh.
Qed.

Lemma root_linked : root (linked w p i a c) pt = root w pt.
Proof.
  unfold root. rewrite wget_linked by apply I. rewrite decide_False; [done|].
  intros [Heq _]. by apply (proj2 link_node).
Qed.

Lemma walk_linked path' :
  (length path' <= 3)%nat -> Forall in_index path' ->
  walk (linked w p i a c) (root w pt) path' =
  if decide (path' = path ++ [i]) then a else walk w (root w pt) path'.
Proof.
  induction path' as [|j path' IH] using rev_ind; intros Hl Hf.
  - rewrite decide_False; [done|]. by destruct path.
  - rewrite length_app in Hl. cbn [length] in Hl. apply Forall_app in Hf as [Hf Hj].
    apply Forall_cons in Hj as [Hj _]. specialize (IH ltac:(lia) Hf).
    rewrite (walk_snoc_root w pt) by done.
    destruct (walk_snoc (linked w p i a c) (root w pt) path' j) as [->|H0]; [|by apply (pw_root _ _ I) in H0].
    rewrite IH. clear IH. cbv zeta. destruct (decide (path' = path ++ [i])) as [->|Hne].
    + rewrite (proj2 (Z.eqb_neq _ _) Ha0), decide_False.
      2:{ intros [Heq _]%app_inj_tail. by apply (f_equal length) in Heq; rewrite length_app in Heq; cbn in Heq; lia. }
      rewrite (walk_snoc_root w pt) by done. fold p. rewrite (proj2 (Z.eqb_neq _ _) Hp), Hfree, Z.eqb_refl.
      unfold linked. rewrite wget_ne by (apply not_eq_sym, link_parent).
      rewrite wget_eq, Hc, lookup_empty; [done|]. rewrite length_app in Hl. cbn in Hl. lia.
    + destruct (Z.eqb_spec (walk w (root w pt) path') 0) as [E|Hn].
      { rewrite decide_False; [done|]. intros [-> _]%app_inj_tail. done. }
      destruct (pw_node _ _ I path' ltac:(lia) Hf Hn) as [Hs _].
      rewrite (wget_linked _ _ Hs). repeat case_decide; try done.
      * destruct H as [Heq ->]. destruct H0. f_equal. apply (pw_inj _ _ I); try done; lia.
      * apply app_inj_tail in H0 as [-> ->]. destruct H. done.
Qed.

Lemma linked_wf : pt_wf (linked w p i a c) pt.
Proof.
  assert (forall q, is_Some (w !! q) -> is_Some (linked w p i a c !! q)) as Hmono.
  { intros q Hq. unfold linked. destruct (decide (q = p)) as [->|]; [by rewrite lookup_insert_eq|].
    rewrite lookup_insert_ne by done. rewrite lookup_insert_ne; [done|]. by apply not_eq_sym, link_fresh. }
  split.
  - apply Hmono, I.
  - rewrite root_linked. apply I.
  - rewrite root_linked. intros path' Hl Hf. rewrite walk_linked by done.
    case_decide as Hd.
    + intros _. split.
      * unfold linked. rewrite lookup_insert_ne by apply link_parent.
        by rewrite lookup_insert_eq.
      * apply not_eq_sym, link_fresh, I.
    + intros Hn. destruct (pw_node _ _ I path' Hl Hf Hn). split; [by apply Hmono|done].
  - rewrite root_linked. intros p1 p2 Hl1 Hl2 Hf1 Hf2. rewrite !walk_linked by done.
    assert (forall q, (length q <= 3)%nat -> Forall in_index q -> walk w (root w pt) q <> a) as Hna.
    { intros q Hl Hf Heq. apply (link_fresh a); [|done]. rewrite <- Heq.
      apply (pw_node _ _ I); [done|done|]. by rewrite Heq. }
    repeat case_decide; intros Hn Heq; try congruence.
    + symmetry in Heq. by apply Hna in Heq.
    + by apply Hna in Heq.
    + by apply (pw_inj _ _ I).
Qed.
End link.

(** *** Writing an entry *)

Definition written w (p i v : Z) : frames := <[p := <[i := v]> (default ∅ (w !! p))]> w.

Section write.
Context (w : frames) (pt : Z) (path : list Z) (k v : Z).
Context (I : pt_wf w pt) (Hlen : length path = 3%nat) (Hpath : Forall in_index path).
Let leaf := walk w (root w pt) path.
Context (Hleaf : leaf <> 0).

Lemma root_written : root (written w leaf k v) pt = root w pt.
Proof.
  unfold root, written. apply wget_ne. apply not_eq_sym. by apply (pw_node _ _ I path); [lia| |].
Qed.

Lemma walk_written path' :
  (length path' <= 3)%nat -> Forall in_index path' ->
  walk (written w leaf k v) (root w pt) path' = walk w (root w pt) path'.
Proof.
  induction path' as [|j path' IH] using rev_ind; intros Hl Hf; [done|].
  rewrite length_app in Hl. cbn [length] in Hl. apply Forall_app in Hf as [Hf Hj].
  rewrite (walk_snoc_root w pt) by done.
  destruct (walk_snoc (written w leaf k v) (root w pt) path' j) as [->|H0]; [|by apply (pw_root _ _ I) in H0].
  rewrite IH by (done || lia). cbv zeta. destruct (Z.eqb_spec (walk w (root w pt) path') 0) as [|Hn]; [done|].
  apply wget_ne. intros Heq. apply (pw_inj _ _ I) in Heq; try done; [|lia|lia]. subst path'. lia.
Qed.

Lemma written_wf : pt_wf (written w leaf k v) pt.
Proof.
  assert (forall q, is_Some (w !! q) -> is_Some (written w leaf k v !! q)) as Hmono.
  { intros q Hq. unfold written. destruct (decide (leaf = q)) as [->|]; [by rewrite lookup_insert_eq|].
    by rewrite lookup_insert_ne. }
  split; rewrite ?root_written.
  - apply Hmono, I.
  - apply I.
  - intros path' Hl Hf. rewrite walk_written by done. intros Hn.
    destruct (pw_node _ _ I path' Hl Hf Hn). split; [by apply Hmono|done].
  - intros p1 p2 Hl1 Hl2 Hf1 Hf2. rewrite !walk_written by done. by apply (pw_inj _ _ I).
Qed.
End write.

Lemma path_in_index v : Forall in_index (path_of v).
Proof.
  apply Forall_forall. intros x Hx. apply (index_range v). unfold path_of in Hx. unfold indices. set_solver.
Qed.
Lemma l4_in_index v : in_index (get_pt_index v).(l4).
Proof. apply (index_range v). unfold indices. set_solver. Qed.

Lemma same_page u v :
  path_of u = path_of v -> (get_pt_index u).(l4) = (get_pt_index v).(l4) <-> vpn u = vpn v.
Proof.
  unfold path_of. cbv zeta. rewrite <- pt_index_page.
  generalize (get_pt_index u), (get_pt_index v). intros [? ? ? ? ?] [? ? ? ? ?]. cbn.
  intros [= -> -> ->]. split; [by intros -> | by intros [= ->]].
Qed.
Lemma same_page_path u v : vpn u = vpn v -> path_of u = path_of v.
Proof.
  rewrite <- pt_index_page. unfold path_of. cbv zeta.
  generalize (get_pt_index u), (get_pt_index v). intros [? ? ? ? ?] [? ? ? ? ?]. cbn.
  by intros [= -> -> -> _].
Qed.

(** The map after an entry was written. *)
Lemma resolve_written w pt v e u :
  pt_wf w pt -> leaf_of w pt v <> 0 ->
  resolve (written w (leaf_of w pt v) (get_pt_index v).(l4) e) pt u =
  if decide (vpn u = vpn v) then present e else resolve w pt u.
Proof.
  intros I Hv. unfold resolve, leaf_of. rewrite root_written, walk_written;
    try done; try apply path_in_index.
  destruct (Z.eqb_spec (walk w (root w pt) (path_of u)) 0) as [E|Hu].
  - rewrite decide_False; [done|]. intros H%same_page_path. unfold leaf_of in Hv. congruence.
  - unfold written. destruct (decide (path_of u = path_of v)) as [Hp|Hp].
    + rewrite Hp, wget_eq. unfold wget. pose proof (same_page u v Hp) as Hsp. case_decide as Hd.
      * apply Hsp in Hd. by rewrite Hd, lookup_insert_eq.
      * rewrite lookup_insert_ne by (intros H; by apply Hd, Hsp).
        by destruct (w !! walk w (root w pt) (path_of v)).
    + rewrite decide_False by (intros ?%same_page_path; done). f_equal. apply wget_ne. intros Heq.
      apply Hp. apply (pw_inj _ _ I); try done; apply path_in_index.
Qed.

(** An empty inner node, or a leaf of invalid entries, adds nothing to the map. *)
Lemma resolve_linked w pt path i a c u :
  pt_wf w pt -> (length path <= 2)%nat -> Forall in_index path -> in_index i ->
  walk w (root w pt) path <> 0 -> wget w (walk w (root w pt) path) i = 0 -> w !! a = None -> a <> 0 ->
  ((length path < 2)%nat -> c = ∅) ->
  (length path = 2%nat -> forall k, in_index k -> present (default 0 (c !! k)) = None) ->
  resolve (linked w (walk w (root w pt) path) i a c) pt u = resolve w pt u.
Proof.
  intros I Hl Hf Hi Hp Hfree Ha Ha0 Hc Hinv. unfold resolve, leaf_of.
  rewrite root_linked, walk_linked by (done || apply path_in_index).
  destruct (decide (path_of u = path ++ [i])) as [Hu|Hu].
  - rewrite Hu, walk_snoc_root, (proj2 (Z.eqb_neq _ _) Hp), Hfree, Z.eqb_refl by done.
    rewrite (proj2 (Z.eqb_neq _ _) Ha0). unfold linked.
    rewrite wget_ne by (apply not_eq_sym; by eapply link_parent).
    rewrite wget_eq. apply Hinv; [|apply l4_in_index].
    apply (f_equal length) in Hu. rewrite length_app in Hu. cbn in Hu. lia.
  - destruct (Z.eqb_spec (walk w (root w pt) (path_of u)) 0) as [|Hn]; [done|].
    destruct (pw_node _ _ I (path_of u)) as [Hs _]; [done|apply path_in_index|done|].
    rewrite (wget_linked w pt path i a c) by done. rewrite decide_False; [done|].
    intros [Heq _]. apply (pw_inj _ _ I) in Heq; try done; try apply path_in_index; [|lia].
    rewrite <- Heq in Hl. cbn in Hl. lia.
Qed.

(** ** The operations on the tree *)

(** [w'] has the nodes of [w], perhaps more, and the same entries. *)
Record grows (pt : Z) w w' : Prop := mk_grows {
  gr_root : root w' pt = root w pt;
  gr_walk : forall path, (length path <= 3)%nat -> Forall in_index path ->
    walk w (root w pt) path <> 0 -> walk w' (root w pt) path = walk w (root w pt) path;
  gr_map : forall u, resolve w' pt u = resolve w pt u }.

#[global] Instance grows_preorder pt : PreOrder (grows pt).
Proof.
  split; [by split|]. intros w1 w2 w3 [R1 W1 M1] [R2 W2 M2]. split; [congruence| |congruence].
  intros path Hl Hf Hn. rewrite <- (W1 path) by done. rewrite <- R1. apply W2; [done..|].
  rewrite R1. by rewrite W1.
Qed.

Section ops.
Context {E : Type} `{!Env E}.
Context (pageout : Z -> M (sos E) Z).
Implicit Types s : sos E.

Definition with_words s w : sos E := {| s with words := w |}.

Lemma word_get_run s p i :
  is_Some (s.(words) !! p) -> in_index i -> word_get p i s = Ok (wget s.(words) p i) s.
Proof.
  intros [c Hc] Hi. unfold word_get, wget. rewrite get_bind, (deref_bind _ c) by done.
  rewrite access_bind; [by rewrite Hc|]. change PAGE_INDEX_SIZE with 512. unfold in_index in Hi. lia.
Qed.

Lemma word_put_run s p i v :
  is_Some (s.(words) !! p) -> in_index i ->
  word_put p i v s = Ok tt (with_words s (written s.(words) p i v)).
Proof.
  intros [c Hc] Hi. unfold word_put, written. rewrite get_bind, (deref_bind _ c) by done.
  rewrite access_bind; [by rewrite Hc|]. change PAGE_INDEX_SIZE with 512. unfold in_index in Hi. lia.
Qed.

Lemma pt_pgd_run s pt : pt_wf s.(words) pt -> pt_pgd pt s = Ok (root s.(words) pt) s.
Proof. intros I. apply word_get_run; [apply I | unfold in_index; lia]. Qed.

(** A step down the tree. *)
Lemma step_run s pt path i :
  pt_wf s.(words) pt -> (length path <= 2)%nat -> Forall in_index path -> in_index i ->
  walk s.(words) (root s.(words) pt) path <> 0 ->
  word_get (walk s.(words) (root s.(words) pt) path) i s =
  Ok (walk s.(words) (root s.(words) pt) (path ++ [i])) s.
Proof.
  intros I Hl Hf Hi Hn. rewrite walk_snoc_root, (proj2 (Z.eqb_neq _ _) Hn) by done.
  apply word_get_run; [|done]. apply (pw_node _ _ I); [lia|done|done].
Qed.

Lemma walk_cut w pt path i :
  pt_wf w pt -> walk w (root w pt) path = 0 -> walk w (root w pt) (path ++ [i]) = 0.
Proof. intros I H. by rewrite walk_snoc_root, H. Qed.

Lemma page_lookup_run s pt v :
  pt_wf s.(words) pt ->
  page_lookup pt v s =
  Ok (let leaf := leaf_of s.(words) pt v in
      if leaf =? 0 then None else Some (leaf, (get_pt_index v).(l4))) s.
Proof.
  intros I. unfold page_lookup. rewrite (bind_run _ _ _ _ _ (pt_pgd_run s pt I)). cbv zeta.
  unfold leaf_of, path_of. pose proof (path_in_index v) as Hp. unfold path_of in Hp.
  set (ind := get_pt_index v) in *. cbv zeta in Hp.
  apply Forall_cons in Hp as [H1 Hp]. apply Forall_cons in Hp as [H2 Hp]. apply Forall_cons in Hp as [H3 _].
  rewrite (bind_run _ _ _ _ _ (step_run s pt [] ind.(l1) I ltac:(cbn; lia) ltac:(done) H1 (pw_root _ _ I))).
  cbn [app].
  destruct (Z.eqb_spec (walk s.(words) (root s.(words) pt) [ind.(l1)]) 0) as [E1|N1].
  { apply (walk_cut _ _ _ ind.(l2)), (walk_cut _ _ _ ind.(l3)) in E1; [|done|done]. cbn [app] in E1.
    by rewrite E1. }
  rewrite (bind_run _ _ _ _ _ (step_run s pt [ind.(l1)] ind.(l2) I ltac:(cbn; lia) ltac:(by constructor) H2 N1)).
  cbn [app].
  destruct (Z.eqb_spec (walk s.(words) (root s.(words) pt) [ind.(l1); ind.(l2)]) 0) as [E2|N2].
  { apply (walk_cut _ _ _ ind.(l3)) in E2; [|done]. cbn [app] in E2. by rewrite E2. }
  rewrite (bind_run _ _ _ _ _ (step_run s pt [ind.(l1); ind.(l2)] ind.(l3) I ltac:(cbn; lia)
    ltac:(auto using Forall_cons_2, Forall_nil_2) H3 N2)). cbn [app]. by case_if.
Qed.

(** [page_lookup] returns NULL when the leaf of the page is missing, and
    otherwise the address of the word the page table holds for that page; it
    changes nothing. *)
Theorem page_lookup_finds_entry (s : sos E) (pt v : Z) :
  pt_wf s.(words) pt ->
  exists r, page_lookup pt v s = Ok r s /\
    match r with
    | None => resolve s.(words) pt v = None /\ leaf_of s.(words) pt v = 0
    | Some (leaf, i) => resolve s.(words) pt v = present (wget s.(words) leaf i) /\
        forall e u, resolve (written s.(words) leaf i e) pt u =
          if decide (vpn u = vpn v) then present e else resolve s.(words) pt u
    end.
Proof.
  intros I. rewrite (page_lookup_run s pt v I). eexists. split; [done|]. cbv zeta.
  destruct (Z.eqb_spec (leaf_of s.(words) pt v) 0) as [E0|Hn].
  { split; [|done]. unfold resolve. by rewrite E0. }
  split; [unfold resolve; by rewrite (proj2 (Z.eqb_neq _ _) Hn)|]. intros e u. by apply resolve_written.
Qed.

(** *** Growing *)

Lemma ft_inv_words s w f :
  ft_inv s f -> (forall q, is_Some (w !! q) -> is_Some (s.(words) !! q)) -> ft_inv (with_words s w) f.
Proof.
  intros [ ] Hw. split; try done. intros p Hp. cbn [with_words words ft].
  apply eq_None_not_Some. intros H%Hw. rewrite fi_fresh in H by done. by destruct H.
Qed.

Section child.
Context (fill : Z -> M (sos E) unit) (c : gmap Z Z).
Context (Hfill : forall a s, s.(words) !! a = Some ∅ -> fill a s = Ok tt (with_words s (<[a := c]> s.(words)))).

Lemma child_node_spec s s' pt path i f r :
  pt_wf s.(words) pt -> ft_inv s f -> f <> [] ->
  (length path <= 2)%nat -> Forall in_index path -> in_index i ->
  let p := walk s.(words) (root s.(words) pt) path in
  p <> 0 -> ((length path < 2)%nat -> c = ∅) ->
  (length path = 2%nat -> forall k, in_index k -> present (default 0 (c !! k)) = None) ->
  child_node pageout fill p i s = Ok r s' ->
  exists f', ft_inv s' f' /\ (length f <= S (length f'))%nat /\
    pt_wf s'.(words) pt /\ grows pt s.(words) s'.(words) /\
    (r <> 0 -> walk s'.(words) (root s.(words) pt) (path ++ [i]) = r).
Proof.
  intros I If Hne Hl Hf Hi p Hp Hc Hinv Hrun. unfold child_node in Hrun.
  rewrite (bind_run _ _ _ _ _ (step_run s pt path i I Hl Hf Hi Hp)) in Hrun.
  destruct (Z.eqb_spec (walk s.(words) (root s.(words) pt) (path ++ [i])) 0) as [E0|Hn].
  2:{ run_inv Hrun. exists f. split; [done|]. split; [lia|]. split; [done|]. split; [reflexivity|]. done. }
  assert (wget s.(words) p i = 0) as Hfree.
  { rewrite walk_snoc_root in E0 by done. fold p in E0. by rewrite (proj2 (Z.eqb_neq _ _) Hp) in E0. }
  destruct f as [|pg f]; [done|].
  apply bind_Ok in Hrun as ([page a] & s1 & H1 & Hrun). cbn [snd] in Hrun.
  destruct (frame_alloc_spec pageout s s1 pg f true page a If H1)
    as [(-> & -> & (_ & Vw & _) & If1)|(-> & -> & If1 & Hw1 & _)].
  { rewrite Z.eqb_refl in Hrun. run_inv Hrun. exists (pg :: f). split; [done|]. split; [lia|].
    rewrite Vw. split; [done|]. split; [reflexivity|]. done. }
  assert (s.(words) !! page_addr s.(ft) pg = None) as Hfr by (by apply (fi_fresh _ _ If), list_elem_of_here).
  assert (page_addr s.(ft) pg <> 0) as Ha0.
  { pose proof (fi_base _ _ If). destruct (fi_free_entry _ _ _ If) as (_ & ? & _).
    unfold page_addr. rewrite PAGE_SIZE_4K_eq. lia. }
  set (a := page_addr s.(ft) pg) in *. rewrite (proj2 (Z.eqb_neq _ _) Ha0) in Hrun.
  rewrite (bind_run _ _ _ _ _ (Hfill a s1 ltac:(by rewrite Hw1, lookup_insert_eq))) in Hrun.
  assert (p <> a) as Hpa by (by eapply link_parent).
  assert (is_Some (s.(words) !! p)) as Hps by (by eapply link_node).
  assert (is_Some ((with_words s1 (<[a := c]> s1.(words))).(words) !! p)) as Hps'.
  { cbn [with_words words]. by rewrite lookup_insert_ne, Hw1, lookup_insert_ne. }
  rewrite (bind_run _ _ _ _ _ (word_put_run _ p i a Hps' Hi)) in Hrun. run_inv Hrun.
  assert (written (<[a := c]> s1.(words)) p i a = linked s.(words) p i a c) as Hlink.
  { unfold written, linked. by rewrite Hw1, insert_insert_eq, lookup_insert_ne. }
  cbn [with_words words]. rewrite Hlink. exists f. split.
  { apply ft_inv_words; [by apply ft_inv_words; [|intros q; rewrite Hw1, !lookup_insert_is_Some; naive_solver]|].
    cbn [with_words words]. intros q. rewrite <- Hlink. unfold written. rewrite Hw1.
    rewrite !lookup_insert_is_Some. intros [->|[_ H]]; [|done].
    right. split; [done|]. right. by split. }
  split; [cbn; lia|]. split; [by apply linked_wf|]. split.
  - split; [by apply root_linked| |intros u; by apply resolve_linked].
    intros path' Hl' Hf' Hn'. unfold p. rewrite walk_linked by done. case_decide; [|done]. subst path'. done.
  - intros _. unfold p. rewrite walk_linked; try done; [|rewrite length_app; cbn; lia|].
    + by rewrite decide_True.
    + apply Forall_app. auto using Forall_cons_2, Forall_nil_2.
Qed.
End child.

Lemma fill_run a e l c s :
  Forall in_index l -> s.(words) !! a = Some c ->
  for_each l (fun j => word_put a j e) s =
  Ok tt (with_words s (<[a := foldl (fun c j => <[j := e]> c) c l]> s.(words))).
Proof.
  revert c s. induction l as [|j l IH]; intros c s Hl Hc; cbn [for_each foldl].
  - unfold with_words. rewrite insert_id by done. by destruct s.
  - apply Forall_cons in Hl as [Hj Hl]. rewrite (bind_run _ _ _ _ _ (word_put_run s a j e ltac:(eauto) Hj)).
    unfold written. rewrite Hc. cbn [default id]. rewrite (IH (<[j := e]> c)); [|done|apply lookup_insert_eq].
    unfold with_words. cbn [words]. by rewrite insert_insert_eq.
Qed.

Lemma filled_lookup (e : Z) l (c : gmap Z Z) k :
  foldl (fun c j => <[j := e]> c) c l !! k = if decide (k ∈ l) then Some e else c !! k.
Proof.
  revert c. induction l as [|j l IH]; intros c; cbn [foldl]; [done|]. rewrite IH.
  repeat case_decide; set_solver by (by rewrite ?lookup_insert_eq, ?lookup_insert_ne by set_solver).
Qed.

Definition invalid_words : gmap Z Z :=
  foldl (fun c j => <[j := page_update_entry P_INVALID 0]> c) ∅ all_indices.

Lemma invalid_leaf_run a s :
  s.(words) !! a = Some ∅ -> invalid_leaf a s = Ok tt (with_words s (<[a := invalid_words]> s.(words))).
Proof.
  intros Ha. apply fill_run; [|done]. apply Forall_forall. intros x Hx%elem_of_zseq.
  change (Z.to_nat PAGE_INDEX_SIZE) with 512%nat in Hx. unfold in_index. lia.
Qed.

Lemma invalid_words_absent k : in_index k -> present (default 0 (invalid_words !! k)) = None.
Proof.
  intros Hk. unfold invalid_words. rewrite filled_lookup, decide_True; [reflexivity|].
  apply elem_of_zseq. change (Z.to_nat PAGE_INDEX_SIZE) with 512%nat. unfold in_index in Hk. lia.
Qed.

(** Part of the way down: the node at [path] is [p], reached after growing the
    tree of [s0], and [n] more nodes can be added. *)
Record reached (pt : Z) s0 s (path : list Z) (n : nat) (p : Z) : Prop := mk_reached {
  re_wf : pt_wf s.(words) pt;
  re_free : exists f, ft_inv s f /\ (n <= length f)%nat;
  re_grows : grows pt s0.(words) s.(words);
  re_at : p <> 0 -> walk s.(words) (root s.(words) pt) path = p }.

Lemma reached_step fill c pt s0 s s' path i n p r :
  (forall a s, s.(words) !! a = Some ∅ -> fill a s = Ok tt (with_words s (<[a := c]> s.(words)))) ->
  ((length path < 2)%nat -> c = ∅) ->
  (length path = 2%nat -> forall k, in_index k -> present (default 0 (c !! k)) = None) ->
  reached pt s0 s path (S n) p -> p <> 0 -> (length path <= 2)%nat -> Forall in_index path -> in_index i ->
  child_node pageout fill p i s = Ok r s' -> reached pt s0 s' (path ++ [i]) n r.
Proof.
  intros Hfill Hc Hinv [I (f & If & Hlen) G Hat] Hp Hl Hf Hi Hrun. specialize (Hat Hp). rewrite <- Hat in Hrun, Hp.
  assert (f <> []) as Hne by (by destruct f; [cbn in Hlen; lia|]).
  destruct (child_node_spec fill c Hfill s s' pt path i f r I If Hne Hl Hf Hi Hp Hc Hinv Hrun)
    as (f' & If' & Hf' & I' & G' & W').
  split; [done|exists f'; split; [done|lia]|by etrans|]. intros Hr. rewrite (gr_root _ _ _ G'). by apply W'.
Qed.

Lemma table_step pt s0 s s' path i n p r :
  reached pt s0 s path (S n) p -> p <> 0 -> (length path < 2)%nat -> Forall in_index path -> in_index i ->
  table_node pageout p i s = Ok r s' -> reached pt s0 s' (path ++ [i]) n r.
Proof.
  intros R Hp Hl. apply (reached_step _ ∅); try done; try lia.
  intros a s1 Ha. unfold with_words. rewrite insert_id by done. by destruct s1.
Qed.

Lemma leaf_step pt s0 s s' path i n p r :
  reached pt s0 s path (S n) p -> p <> 0 -> length path = 2%nat -> Forall in_index path -> in_index i ->
  leaf_node pageout p i s = Ok r s' -> reached pt s0 s' (path ++ [i]) n r.
Proof.
  intros R Hp Hl. apply (reached_step _ invalid_words); try done; try lia.
  - apply invalid_leaf_run.
  - intros _. apply invalid_words_absent.
Qed.

(** Reading the way down again finds the nodes just added. *)
Lemma reread pt s0 s path i n p :
  reached pt s0 s (path ++ [i]) n p -> p <> 0 -> (length path <= 2)%nat -> Forall in_index path -> in_index i ->
  walk s.(words) (root s.(words) pt) path <> 0 /\
  word_get (walk s.(words) (root s.(words) pt) path) i s = Ok p s.
Proof.
  intros [I _ _ Hat] Hp Hl Hf Hi. specialize (Hat Hp).
  assert (walk s.(words) (root s.(words) pt) path <> 0) as Hn.
  { intros H0%(walk_cut _ _ _ i); [congruence|done]. }
  split; [done|]. by rewrite (step_run s pt path i I Hl Hf Hi Hn), Hat.
Qed.

(** The outcomes of an insertion that reached the leaf, or gave up on the way. *)
Definition inserted pt s s' (vaddr entry r : Z) : Prop :=
  pt_wf s'.(words) pt /\ (exists f', ft_inv s' f') /\
  ((r = 0 /\ forall u, resolve s'.(words) pt u =
      if decide (vpn u = vpn vaddr) then present entry else resolve s.(words) pt u) \/
   (r = -1 /\ forall u, resolve s'.(words) pt u = resolve s.(words) pt u)).

Lemma inserted_fail pt s s' path n p vaddr entry :
  reached pt s s' path n p -> inserted pt s s' vaddr entry (-1).
Proof. intros [I (f & If & _) G _]. split; [done|]. split; [eauto|]. right. split; [done|apply G]. Qed.

Lemma inserted_ok pt s s1 s' vaddr entry n leaf :
  reached pt s s1 (path_of vaddr) n leaf -> leaf <> 0 ->
  word_put leaf (get_pt_index vaddr).(l4) entry s1 = Ok tt s' -> inserted pt s s' vaddr entry 0.
Proof.
  intros [I (f & If & _) G Hat] Hn Hrun. specialize (Hat Hn). pose proof (path_in_index vaddr) as Hf.
  destruct (pw_node _ _ I (path_of vaddr)) as [Hs _]; [done|done|by rewrite Hat|]. rewrite Hat in Hs.
  rewrite (word_put_run s1 leaf _ entry Hs (l4_in_index vaddr)) in Hrun. injection Hrun as <-.
  rewrite <- Hat. rewrite <- Hat in Hn, Hs. split; [by apply written_wf|]. split.
  - exists f. apply ft_inv_words; [done|]. unfold written. intros q.
    rewrite lookup_insert_is_Some. by intros [<-|[_ ?]].
  - left. split; [done|]. intros u. cbn [with_words words].
    pose proof (resolve_written s1.(words) pt vaddr entry u I Hn) as H. unfold leaf_of in H.
    etrans; [exact H|]. by rewrite (gr_map _ _ _ G).
Qed.

Lemma page_table_insert_spec (s s' : sos E) (pt vaddr entry r : Z) (f : list Z) :
  pt_wf s.(words) pt -> ft_inv s f -> (3 <= length f)%nat ->
  page_table_insert pageout pt vaddr entry s = Ok r s' ->
  pt_wf s'.(words) pt /\ (exists f', ft_inv s' f') /\
  ((r = 0 /\ forall u, resolve s'.(words) pt u =
      if decide (vpn u = vpn vaddr) then present entry else resolve s.(words) pt u) \/
   (r = -1 /\ forall u, resolve s'.(words) pt u = resolve s.(words) pt u)).
Proof.
  intros I If Hlen Hrun. change (inserted pt s s' vaddr entry r). unfold page_table_insert in Hrun.
  rewrite (bind_run _ _ _ _ _ (pt_pgd_run s pt I)) in Hrun. cbv zeta in Hrun.
  pose proof (path_in_index vaddr) as Hp. unfold path_of in Hp. cbv zeta in Hp.
  apply Forall_cons in Hp as [H1 Hp]. apply Forall_cons in Hp as [H2 Hp]. apply Forall_cons in Hp as [H3 _].
  set (i1 := l1 _) in *. set (i2 := l2 _) in *. set (i3 := l3 _) in *.
  assert (Forall in_index [i1]) as F1 by auto using Forall_cons_2, Forall_nil_2.
  assert (Forall in_index [i1; i2]) as F2 by auto using Forall_cons_2, Forall_nil_2.
  assert (reached pt s s [] 3 (root s.(words) pt)) as R0 by (split; [done|eauto|reflexivity|done]).
  apply bind_Ok in Hrun as (pud & s1 & Hr1 & Hrun).
  apply (table_step pt s s s1 [] i1 2) in Hr1 as R1; [|done|apply I|cbn; lia|done|done]. cbn [app] in R1.
  destruct (Z.eqb_spec pud 0) as [|N1]; [run_inv Hrun; by apply (inserted_fail _ _ _ _ _ _ _ _ R1)|].
  destruct (reread pt s s1 [] i1 2 pud R1 N1) as [_ Hre]; [cbn; lia|done|done|]. cbn [walk] in Hre.
  rewrite (gr_root _ _ _ (re_grows _ _ _ _ _ _ R1)) in Hre. rewrite (bind_run _ _ _ _ _ Hre) in Hrun. clear Hre.
  apply bind_Ok in Hrun as (pd & s2 & Hr2 & Hrun).
  apply (table_step pt s s1 s2 [i1] i2 1) in Hr2 as R2; [|done|done|cbn; lia|done|done]. cbn [app] in R2.
  destruct (Z.eqb_spec pd 0) as [|N2]; [run_inv Hrun; by apply (inserted_fail _ _ _ _ _ _ _ _ R2)|].
  destruct (reread pt s s2 [i1] i2 1 pd R2 N2) as [N21 Hre2]; [cbn; lia|done|done|].
  pose proof (step_run s2 pt [] i1 (re_wf _ _ _ _ _ _ R2) ltac:(cbn; lia) ltac:(done) H1
    (pw_root _ _ (re_wf _ _ _ _ _ _ R2))) as Hre1. cbn [walk app] in Hre1.
  rewrite (gr_root _ _ _ (re_grows _ _ _ _ _ _ R2)) in Hre1, Hre2.
  rewrite (bind_run _ _ _ _ _ Hre1), (bind_run _ _ _ _ _ Hre2) in Hrun.
  apply bind_Ok in Hrun as (leaf & s3 & Hr3 & Hrun).
  apply (leaf_step pt s s2 s3 [i1; i2] i3 0) in Hr3 as R3; [|done|done|done|done|done]. cbn [app] in R3.
  destruct (Z.eqb_spec leaf 0) as [|N3]; [run_inv Hrun; by apply (inserted_fail _ _ _ _ _ _ _ _ R3)|].
  apply bind_Ok in Hrun as ([] & s4 & Hr4 & Hrun). run_inv Hrun.
  by eapply (inserted_ok pt s s3 _ vaddr entry 0 leaf).
Qed.

(** C1 [page_table_insert] with enough free frames for the nodes it may need: on
    success the page table maps the page of [vaddr] to the new entry and every
    other page as before; on failure ([-1]) it maps every page as before.  Both
    ways the tree and the frame table stay well formed. *)
Theorem page_table_insert_updates_map (s s' : sos E) (pt vaddr entry r : Z) (f : list Z) :
  pt_wf s.(words) pt -> ft_inv s f -> (3 <= length f)%nat ->
  page_table_insert pageout pt vaddr entry s = Ok r s' ->
  pt_wf s'.(words) pt /\ (exists f', ft_inv s' f') /\
  ((r = 0 /\ forall u, resolve s'.(words) pt u =
      if decide (vpn u = vpn vaddr) then present entry else resolve s.(words) pt u) \/
   (r = -1 /\ forall u, resolve s'.(words) pt u = resolve s.(words) pt u)).
Proof. apply page_table_insert_spec. Qed.

(** [page_table_remove] never clears an entry: where the page has one it
    reports failure and changes nothing, and where the leaf is missing it writes
    through a null pointer. *)
Theorem page_table_remove_never_removes (s : sos E) (pt v : Z) :
  pt_wf s.(words) pt ->
  page_table_remove pt v s = if leaf_of s.(words) pt v =? 0 then Stuck Segv else Ok (-1) s.
Proof.
  intros I. unfold page_table_remove. rewrite (bind_run _ _ _ _ _ (page_lookup_run s pt v I)).
  cbv zeta. by destruct (leaf_of s.(words) pt v =? 0).
Qed.

(** *** A new table *)

Lemma bare_wf w pt r :
  w !! r = Some ∅ -> is_Some (w !! pt) -> r <> pt -> r <> 0 -> root w pt = r ->
  pt_wf w pt /\ forall u, resolve w pt u = None.
Proof.
  intros Hr Hpt Hne H0 Hroot.
  assert (forall path, walk w r path = if decide (path = []) then r else 0) as Hw.
  { intros [|i path]; [done|]. cbn [walk]. unfold wget. by rewrite Hr. }
  split.
  - split; rewrite ?Hroot; [done|done| |].
    + intros path _ _. rewrite Hw. case_decide; [|done]. rewrite Hr. intros _. split; [done|congruence].
    + intros p1 p2 _ _ _ _. rewrite !Hw. repeat case_decide; congruence.
  - intros u. unfold resolve, leaf_of. by rewrite Hroot, Hw.
Qed.

Lemma page_addr_pos s p f : ft_inv s (p :: f) -> 0 < page_addr s.(ft) p.
Proof.
  intros I. pose proof (fi_base _ _ I). destruct (fi_free_entry _ _ _ I) as (_ & ? & _).
  unfold page_addr. rewrite PAGE_SIZE_4K_eq. lia.
Qed.

(** [page_table_init] with two free frames: the new table maps no page, and
    its tree is well formed unless the frame of the root could not be allocated
    (which the code does not notice). *)
Theorem page_table_init_empty (s s' : sos E) (p q pt : Z) (f : list Z) :
  ft_inv s (p :: q :: f) -> s.(words) !! 0 = None ->
  page_table_init pageout s = Ok pt s' ->
  pt = page_addr s.(ft) p /\
  ((pt_wf s'.(words) pt /\ ft_inv s' f /\ forall u, resolve s'.(words) pt u = None) \/ root s'.(words) pt = 0).
Proof.
  intros I Hnull Hrun. unfold page_table_init in Hrun. apply bind_Ok in Hrun as ([pg a] & s1 & H1 & Hrun).
  apply bind_Ok in Hrun as ([pg2 b] & s2 & H2 & Hrun). cbn [snd] in Hrun.
  apply bind_Ok in Hrun as ([] & s3 & H3 & Hrun). injection Hrun as <- <-.
  assert (is_Some (s2.(words) !! a)) as Ha.
  { unfold word_put in H3. rewrite get_bind in H3. by destruct (s2.(words) !! a). }
  rewrite (word_put_run s2 a 0 b Ha ltac:(unfold in_index; lia)) in H3. injection H3 as <-.
  destruct (frame_alloc_spec pageout s s1 p (q :: f) true pg a I H1)
    as [(-> & -> & (_ & Vw & _) & I1)|(-> & -> & I1 & Hw1 & _)].
  - exfalso. pose proof (page_addr_pos s1 p _ I1). destruct (frame_alloc_spec pageout s1 s2 p (q :: f) true pg2 b I1 H2)
      as [(_ & _ & (_ & Vw2 & _) & _)|(_ & -> & _ & Hw2 & _)]; [|rewrite Hw2, lookup_insert_ne in Ha by lia];
      rewrite ?Vw2, Vw, Hnull in Ha; by destruct Ha.
  - split; [done|]. pose proof (page_addr_pos s p _ I) as Hp. set (a := page_addr s.(ft) p) in *.
    destruct (frame_alloc_spec pageout s1 s2 q f true pg2 b I1 H2)
      as [(_ & -> & _)|(_ & -> & I2 & Hw2 & _)].
    { right. unfold root, written. cbn [with_words words]. by rewrite wget_eq, lookup_insert_eq. }
    left. pose proof (page_addr_pos s1 q f I1) as Hq.
    pose proof (fi_fresh _ _ I1 q ltac:(by apply list_elem_of_here)) as Hfr.
    set (b := page_addr s1.(ft) q) in *.
    assert (a <> b) as Hab by (intros <-; by rewrite Hw1, lookup_insert_eq in Hfr).
    destruct (bare_wf (written s2.(words) a 0 b) a b) as [W R]; [| | lia | lia | |].
    + unfold written. by rewrite lookup_insert_ne, Hw2, lookup_insert_eq.
    + unfold written. by rewrite lookup_insert_eq.
    + unfold root, written. by rewrite wget_eq, lookup_insert_eq.
    + split; [done|]. split; [|done]. apply ft_inv_words; [done|]. unfold written. intros x.
      rewrite lookup_insert_is_Some. by intros [<-|[_ ?]].
Qed.
End ops.

(** ** On the concrete machine *)

Lemma paged_wf : pt_wf paged.(words) (2 ^ 39).
Proof.
  destruct (bare_wf paged.(words) (2 ^ 39) (2 ^ 38)) as [W _]; [done | by eexists | done | done | done | exact W].
Qed.

Lemma paged_ft_inv : ft_inv paged [1; 2; 3; 4; 5; 6; 7].
Proof.
  apply sample_ft_inv. intros p Hp. rewrite lookup_insert_ne, lookup_singleton_ne; [done|..];
    unfold page_addr; rewrite PAGE_SIZE_4K_eq; simpl; lia.
Qed.

Lemma page_lookup_finds_entry_witness : exists r, page_lookup (2 ^ 39) 8192 paged = Ok r paged.
Proof.
  destruct (page_lookup_finds_entry paged (2 ^ 39) 8192 paged_wf) as (r & H & _). exists r. exact H.
Defined.

(** The concrete page table with page 2 mapped to frame 0. *)
Definition entry0 : Z := page_update_entry 0 0.
Definition mapped_page : sos toy :=
  final (page_table_insert (fun _ => mret 0) (2 ^ 39) 8192 entry0 paged) paged.

Lemma mapped_page_run : page_table_insert (fun _ => mret 0) (2 ^ 39) 8192 entry0 paged = Ok 0 mapped_page.
Proof. apply value_final. vm_compute. reflexivity. Qed.

Lemma page_table_insert_updates_map_witness :
  (3 <= 7)%nat /\ forall u, resolve mapped_page.(words) (2 ^ 39) u =
    if decide (vpn u = vpn 8192) then present entry0 else resolve paged.(words) (2 ^ 39) u.
Proof.
  split; [lia|].
  destruct (page_table_insert_updates_map (fun _ => mret 0) paged mapped_page (2 ^ 39) 8192 entry0 0
    [1; 2; 3; 4; 5; 6; 7] paged_wf paged_ft_inv ltac:(simpl; lia) mapped_page_run)
    as (_ & _ & [[_ H]|[H _]]); [exact H | discriminate H].
Defined.

Lemma mapped_page_wf : pt_wf mapped_page.(words) (2 ^ 39).
Proof.
  apply (page_table_insert_spec (fun _ => mret 0) paged mapped_page (2 ^ 39) 8192 entry0 0
    [1; 2; 3; 4; 5; 6; 7] paged_wf paged_ft_inv ltac:(simpl; lia) mapped_page_run).
Qed.

Lemma page_table_remove_never_removes_witness :
  page_table_remove (2 ^ 39) 8192 mapped_page = Ok (-1) mapped_page /\
  page_table_remove (2 ^ 39) 8192 paged = Stuck Segv.
Proof.
  rewrite (page_table_remove_never_removes mapped_page (2 ^ 39) 8192 mapped_page_wf).
  rewrite (page_table_remove_never_removes paged (2 ^ 39) 8192 paged_wf).
  assert ((leaf_of mapped_page.(words) (2 ^ 39) 8192 =? 0) = false) as -> by (vm_compute; reflexivity).
  split; reflexivity.
Defined.

Lemma page_table_init_empty_witness : exists s',
  page_table_init (fun _ => mret 0) framed = Ok (2 ^ 40 + 4096) s' /\
  forall u, resolve s'.(words) (2 ^ 40 + 4096) u = None.
Proof.
  run_to (page_table_init (fun _ => mret 0)) framed (2 ^ 40 + 4096) Hrun. eexists. split; [exact Hrun|].
  destruct (page_table_init_empty (fun _ => mret 0) framed _ 1 2 (2 ^ 40 + 4096) [3; 4; 5; 6; 7]
    framed_ft_inv eq_refl Hrun) as [_ [(_ & _ & H)|H]]; [exact H|].
  exfalso. revert H. vm_compute. discriminate.
Defined.
