(* ===== verification/ObjectSpec.v ===== *)
(** * The kernel objects of a page table

    When the kernel lacks a paging structure for a page, [sos_map_frame] of
    [mapping.c] makes one and [save_seL4_info] of [pagetable.c] notes it in a
    list of frames that hangs off the page table.  The list is kept apart from
    the tree of the page table ([objects_ok]); the lemmas: noting an object
    keeps it apart and leaves every entry of the page table alone, whether or
    not a frame had to be added, and so does the whole of [sos_map_frame] up to
    the insertion of the page. *)
From S2P Require Import Prelude Utils Bitfield UtTable Bytes Sos Cspace Sample CspaceSpec CspaceGrow Mapping.
From S2P Require Import UtAlloc Layers FrameTable FrameClock PageTable FrameSpec PageSpec.

Implicit Types w : gmap Z (gmap Z Z).

(** ** Frames outside the tree *)

Definition tree_node w (pt q : Z) : Prop :=
  q <> 0 /\ exists path, (length path <= 3)%nat /\ Forall in_index path /\ walk w (root w pt) path = q.

(** [w'] has the frames of [w], with the root and the nodes of the tree as they
    were. *)
Record tree_kept (pt : Z) w w' : Prop := mk_tree_kept {
  tk_frames : forall q, is_Some (w !! q) -> is_Some (w' !! q);
  tk_root : root w' pt = root w pt;
  tk_nodes : forall q i, tree_node w pt q -> wget w' q i = wget w q i }.

Section kept.
Context w w' (pt : Z) (I : pt_wf w pt) (K : tree_kept pt w w').

Lemma walk_is_node path :
  (length path <= 3)%nat -> Forall in_index path -> walk w (root w pt) path <> 0 ->
  tree_node w pt (walk w (root w pt) path).
Proof. intros Hl Hf Hn. split; [done|]. by exists path. Qed.

Lemma kept_walk path :
  (length path <= 3)%nat -> Forall in_index path -> walk w' (root w pt) path = walk w (root w pt) path.
Proof.
  induction path as [|i path IH] using rev_ind; [done|]. rewrite length_app. cbn. intros Hl [Hf _]%Forall_app.
  specialize (IH ltac:(lia) Hf). rewrite (walk_snoc_root w pt path i I).
  destruct (walk_snoc w' (root w pt) path i) as [->|H]; [|by apply (pw_root _ _ I) in H].
  cbv zeta. rewrite IH. destruct (Z.eqb_spec (walk w (root w pt) path) 0) as [|Hn]; [done|].
  apply (tk_nodes _ _ _ K), walk_is_node; [lia|done|done].
Qed.

Lemma kept_wf : pt_wf w' pt.
Proof.
  split; rewrite ?(tk_root _ _ _ K).
  - apply (tk_frames _ _ _ K), (pw_table _ _ I).
  - apply (pw_root _ _ I).
  - intros path Hl Hf. rewrite kept_walk by done. intros Hn. destruct (pw_node _ _ I path Hl Hf Hn) as [Hs Hne].
    split; [by apply (tk_frames _ _ _ K)|done].
  - intros path path' Hl Hl' Hf Hf'. rewrite !kept_walk by done. by apply (pw_inj _ _ I).
Qed.

Lemma kept_resolve u : resolve w' pt u = resolve w pt u.
Proof.
  unfold resolve, leaf_of. rewrite (tk_root _ _ _ K), kept_walk by (done || apply path_in_index). cbv zeta.
  destruct (Z.eqb_spec (walk w (root w pt) (path_of u)) 0) as [|Hn]; [done|]. f_equal.
  apply (tk_nodes _ _ _ K), walk_is_node; [done|apply path_in_index|done].
Qed.

Lemma kept_node q : tree_node w' pt q <-> tree_node w pt q.
Proof.
  unfold tree_node. split; intros [Hq (path & Hl & Hf & Hp)]; (split; [done|]); exists path.
  - by rewrite (tk_root _ _ _ K), kept_walk in Hp.
  - by rewrite (tk_root _ _ _ K), kept_walk.
Qed.

Lemma node_frame q : tree_node w pt q -> is_Some (w !! q) /\ q <> pt.
Proof. intros [Hq (path & Hl & Hf & <-)]. by apply (pw_node _ _ I). Qed.
End kept.

Lemma tree_kept_refl pt w : tree_kept pt w w.
Proof. by split. Qed.

Lemma tree_kept_trans pt w1 w2 w3 :
  pt_wf w1 pt -> tree_kept pt w1 w2 -> tree_kept pt w2 w3 -> tree_kept pt w1 w3.
Proof.
  intros I K1 K2. split.
  - intros q Hq. by apply (tk_frames _ _ _ K2), (tk_frames _ _ _ K1).
  - by rewrite (tk_root _ _ _ K2), (tk_root _ _ _ K1).
  - intros q i Hq. rewrite (tk_nodes _ _ _ K2), (tk_nodes _ _ _ K1); [done|done|].
    by apply (kept_node w1 w2 pt I K1).
Qed.

(** A frame that was not there before. *)
Lemma fresh_kept pt w a c : pt_wf w pt -> w !! a = None -> tree_kept pt w (<[a := c]> w).
Proof.
  intros I Ha. assert (forall q i, is_Some (w !! q) -> wget (<[a := c]> w) q i = wget w q i) as Hget.
  { intros q i Hq. apply wget_ne. intros ->. rewrite Ha in Hq. by destruct Hq. }
  split; [|apply Hget, (pw_table _ _ I)|].
  - intros q Hq. apply lookup_insert_is_Some'. by right.
  - intros q i Hq. apply Hget. by apply (node_frame w pt).
Qed.

Lemma wget_written w q j p i v :
  wget (written w q j v) p i = if decide (p = q /\ i = j) then v else wget w p i.
Proof.
  unfold written. destruct (decide (p = q)) as [->|Hne].
  - rewrite wget_eq. case_decide as Hd; [destruct Hd as [_ ->]; by rewrite lookup_insert_eq|].
    rewrite lookup_insert_ne by naive_solver. unfold wget. by destruct (w !! q).
  - rewrite wget_ne by done. by rewrite decide_False by naive_solver.
Qed.

Lemma written_frames w q j v p : is_Some (w !! p) -> is_Some (written w q j v !! p).
Proof. intros Hp. apply lookup_insert_is_Some'. by right. Qed.

Lemma written_frames_inv w q j v p : is_Some (w !! q) -> is_Some (written w q j v !! p) -> is_Some (w !! p).
Proof. intros Hq. unfold written. rewrite lookup_insert_is_Some. by intros [<-|[_ ?]]. Qed.

(** A write outside the tree: into another frame, or into a word of the table
    other than that of the root. *)
Lemma written_kept pt w q j v :
  pt_wf w pt -> ~ tree_node w pt q -> (q = pt -> j <> 0) -> tree_kept pt w (written w q j v).
Proof.
  intros I Hq Hj. split; [intros p; apply written_frames| |].
  - unfold root. rewrite wget_written, decide_False; [done|]. naive_solver.
  - intros p i Hp. rewrite wget_written, decide_False; [done|]. intros [-> _]. done.
Qed.

(** ** The list of objects *)

(** From [p] the frames of [l] lead, by their second word, to [e]. *)
Fixpoint segment w (p : Z) (l : list Z) (e : Z) : Prop :=
  match l with
  | [] => p = e
  | q :: l' => p = q /\ segment w (wget w q 1) l' e
  end.

Lemma segment_frame w w' p l e :
  (forall q, q ∈ l -> wget w' q 1 = wget w q 1) -> segment w p l e -> segment w' p l e.
Proof.
  revert p. induction l as [|q l IH]; intros p Hw; [done|]. intros [-> Hs]. split; [done|].
  rewrite Hw by (by apply list_elem_of_here). apply IH; [|done]. intros x Hx. apply Hw. by apply list_elem_of_further.
Qed.

Lemma segment_snoc w p l q e : segment w p (l ++ [q]) e <-> segment w p l q /\ wget w q 1 = e.
Proof.
  revert p. induction l as [|x l IH]; intros p; cbn [segment app]; [naive_solver|]. rewrite IH. naive_solver.
Qed.

(** The frames of the list belong to nothing else; each counts its objects. *)
Definition object_frame w (pt q : Z) : Prop :=
  q <> 0 /\ q <> pt /\ ~ tree_node w pt q /\ is_Some (w !! q) /\ 0 <= wget w q 0.

Record objects_ok w (pt : Z) (l : list Z) : Prop := mk_objects_ok {
  ob_list : segment w (wget w pt 1) l 0;
  ob_nodup : NoDup l;
  ob_frames : Forall (object_frame w pt) l }.

Lemma object_frame_kept w w' pt q :
  pt_wf w pt -> tree_kept pt w w' -> (0 <= wget w q 0 -> 0 <= wget w' q 0) ->
  object_frame w pt q -> object_frame w' pt q.
Proof.
  intros I K Hc (H0 & Hne & Hn & Hs & Hpos). split; [done|]. split; [done|]. split; [|split; [|by apply Hc]].
  - by rewrite (kept_node w w' pt I K).
  - by apply (tk_frames _ _ _ K).
Qed.

(** A word of a frame of the list, other than its link. *)
Lemma objects_written w pt l q j v :
  pt_wf w pt -> objects_ok w pt l -> q ∈ l -> j <> 1 -> (j = 0 -> 0 <= v) ->
  tree_kept pt w (written w q j v) /\ objects_ok (written w q j v) pt l.
Proof.
  intros I [Hl Hnd Hf] Hq Hj Hv. pose proof (proj1 (Forall_forall _ _) Hf q Hq) as (_ & Hne & Hn & _ & _).
  assert (tree_kept pt w (written w q j v)) as K by (by apply written_kept).
  split; [done|]. split; [|done|].
  - rewrite wget_written, decide_False by naive_solver. revert Hl. apply segment_frame.
    intros x _. rewrite wget_written, decide_False by naive_solver. done.
  - eapply Forall_impl; [exact Hf|]. intros x. apply object_frame_kept; [done|done|].
    rewrite wget_written. case_decide; [|done]. naive_solver.
Qed.

(** Where the link to a new frame goes: the last frame, or the table itself. *)
Definition list_tail (pt : Z) (l : list Z) : Z := default pt (last l).

(** The frames once [a] has been added at the end of the list. *)
Definition appended w (o a : Z) : gmap Z (gmap Z Z) :=
  written (written (written (<[a := ∅]> w) o 1 a) a 0 0) a 1 0.

Section append.
Context w (pt a : Z) (l : list Z).
Context (I : pt_wf w pt) (O : objects_ok w pt l) (Ha : w !! a = None) (Ha0 : a <> 0).
Let o := list_tail pt l.

Lemma fresh_ne q : is_Some (w !! q) -> q <> a.
Proof. intros Hq ->. rewrite Ha in Hq. by destruct Hq. Qed.

Lemma tail_case : (l = [] /\ o = pt) \/ exists l0, l = l0 ++ [o] /\ o ∈ l.
Proof.
  unfold o, list_tail. destruct l as [|q l' _] using rev_ind; [by left|]. right. exists l'.
  rewrite last_snoc. split; [done|]. apply elem_of_app. right. by apply list_elem_of_singleton.
Qed.

Lemma tail_frame : is_Some (w !! o) /\ ~ tree_node w pt o.
Proof.
  destruct tail_case as [[_ ->]|(l0 & _ & Hin)].
  - split; [apply I|]. intros Hn%(node_frame w pt I). by destruct Hn.
  - apply (proj1 (Forall_forall _ _) (ob_frames _ _ _ O)) in Hin as (_ & _ & Hn & Hs & _). done.
Qed.

Lemma tail_link : wget w o 1 = 0.
Proof.
  destruct O as [Hl _ _]. destruct tail_case as [[Hnil ->]|(l0 & Hl0 & _)].
  - by rewrite Hnil in Hl.
  - rewrite Hl0 in Hl. by apply segment_snoc in Hl as [_ ?].
Qed.

Lemma wget_appended p i :
  p <> a -> wget (appended w o a) p i = if decide (p = o /\ i = 1) then a else wget w p i.
Proof.
  intros Hp. unfold appended. rewrite !wget_written, !(decide_False (P:=p = a /\ _)) by naive_solver.
  by rewrite wget_ne by done.
Qed.

Lemma wget_appended_new i : i = 0 \/ i = 1 -> wget (appended w o a) a i = 0.
Proof.
  intros Hi. unfold appended. rewrite !wget_written. repeat case_decide; [done|done|..]; naive_solver.
Qed.

Lemma appended_frames q : is_Some (w !! q) -> is_Some (appended w o a !! q).
Proof. intros Hq. do 3 apply written_frames. apply lookup_insert_is_Some'. by right. Qed.

Lemma appended_frames_inv q : is_Some (appended w o a !! q) -> is_Some (<[a := ∅]> w !! q).
Proof.
  assert (is_Some (<[a := ∅ : gmap Z Z]> w !! o)) as Ho.
  { apply lookup_insert_is_Some'. right. apply tail_frame. }
  assert (is_Some (<[a := ∅ : gmap Z Z]> w !! a)) as Hs by (by rewrite lookup_insert_eq).
  intros Hq. do 2 (apply written_frames_inv in Hq; [|by repeat apply written_frames]).
  by apply written_frames_inv in Hq.
Qed.

Lemma appended_kept : tree_kept pt w (appended w o a).
Proof.
  split; [apply appended_frames| |].
  - unfold root. rewrite wget_appended by (apply fresh_ne, I). by rewrite decide_False by naive_solver.
  - intros q i Hq. rewrite wget_appended by (by apply fresh_ne, (node_frame w pt I)).
    rewrite decide_False; [done|]. intros [-> _]. by apply tail_frame.
Qed.

Lemma objects_appended : objects_ok (appended w o a) pt (l ++ [a]).
Proof.
  pose proof O as [Hl Hnd Hf].
  assert (forall q, q ∈ l -> q <> a /\ q <> pt) as Hin.
  { intros q Hq. apply (proj1 (Forall_forall _ _) Hf) in Hq as (_ & Hne & _ & Hs & _). by split; [apply fresh_ne|]. }
  assert (pt <> a) as Hpa by (apply fresh_ne, I). split.
  - apply segment_snoc. split; [|by apply wget_appended_new; right].
    destruct tail_case as [[Hnil Ho]|(l0 & Hl0 & Ho)].
    + rewrite Hnil, wget_appended, decide_True by done. done.
    + rewrite Hl0 in Hl |- *. apply segment_snoc in Hl as [Hl _]. apply segment_snoc.
      rewrite !wget_appended, (decide_True (P:=o = o /\ _)) by (done || by apply Hin).
      rewrite decide_False by (intros [Heq _]; by apply (Hin o)). split; [|done].
      revert Hl. apply segment_frame. intros x Hx. rewrite wget_appended.
      * rewrite decide_False; [done|]. intros [-> _]. rewrite Hl0 in Hnd.
        apply NoDup_app in Hnd as (_ & Hd & _). apply (Hd o Hx). by apply list_elem_of_singleton.
      * apply Hin. rewrite Hl0. apply elem_of_app. by left.
  - apply NoDup_app. split; [done|]. split; [|apply NoDup_singleton].
    intros x Hx ->%list_elem_of_singleton. by apply Hin in Hx as [? _].
  - apply Forall_app. split; [|apply Forall_singleton].
    + apply Forall_forall. intros x Hx. apply (object_frame_kept w); [done|apply appended_kept| |].
      * rewrite wget_appended by (by apply Hin). by rewrite decide_False by naive_solver.
      * by apply (proj1 (Forall_forall _ _) Hf).
    + split; [done|]. split; [done|]. rewrite (kept_node w _ pt I appended_kept). split.
      * intros [Hs _]%(node_frame w pt I). by apply (fresh_ne a).
      * rewrite wget_appended_new by (by left). split; [|lia].
        do 3 apply written_frames. by rewrite lookup_insert_eq.
Qed.

(** The link set to null again when no frame could be had. *)
Lemma objects_relinked : tree_kept pt w (written w o 1 0) /\ objects_ok (written w o 1 0) pt l.
Proof.
  assert (forall p i, wget (written w o 1 0) p i = wget w p i) as Hw.
  { intros p i. rewrite wget_written. case_decide as Hd; [|done]. destruct Hd as [-> ->]. by rewrite tail_link. }
  assert (tree_kept pt w (written w o 1 0)) as K.
  { apply written_kept; [done|apply tail_frame|done]. }
  split; [done|]. destruct O as [Hl Hnd Hf]. split; [|done|].
  - rewrite Hw. revert Hl. apply segment_frame. intros q _. apply Hw.
  - eapply Forall_impl; [exact Hf|]. intros x. apply object_frame_kept; [done|done|]. by rewrite Hw.
Qed.
End append.

(** A frame that was not there before. *)
Lemma objects_fresh w pt l a c :
  pt_wf w pt -> objects_ok w pt l -> w !! a = None -> objects_ok (<[a := c]> w) pt l.
Proof.
  intros I [Hl Hnd Hf] Ha.
  assert (forall q i, is_Some (w !! q) -> wget (<[a := c]> w) q i = wget w q i) as Hget.
  { intros q i Hq. apply wget_ne. by apply (fresh_ne w). }
  rewrite Forall_forall in Hf. split; [|done|].
  - rewrite Hget by apply I. revert Hl. apply segment_frame. intros q Hq. apply Hget. by apply Hf.
  - apply Forall_forall. intros q Hq. pose proof (Hf q Hq) as Ho. pose proof Ho as (_ & _ & _ & Hs & _).
    revert Ho. apply object_frame_kept; [done | by apply fresh_kept |]. by rewrite Hget.
Qed.

(** ** Noting an object *)

Section note.
Context {E : Type} `{!Env E}.
Context (pageout : Z -> M (sos E) Z).
Implicit Types s : sos E.

(** The page table at [pt] with its list of objects, and at least [n] free
    frames; address 0 is not mapped. *)
Record stored s (pt : Z) (n : nat) : Prop := mk_stored {
  st_wf : pt_wf s.(words) pt;
  st_objects : exists l, objects_ok s.(words) pt l;
  st_null : s.(words) !! 0 = None;
  st_free : exists f, ft_inv s f /\ (n <= length f)%nat }.

Lemma stored_le s pt n m : (m <= n)%nat -> stored s pt n -> stored s pt m.
Proof. intros Hm [I O Z0 (f & If & Hf)]. split; [done..|]. exists f. split; [done|lia]. Qed.

Lemma stored_same_vm s s' pt n : same_vm s s' -> stored s pt n -> stored s' pt n.
Proof.
  intros V [I O Z0 (f & If & Hf)]. pose proof V as (_ & Vw & _). split; rewrite ?Vw; [done..|].
  exists f. split; [|done]. by apply (ft_inv_same_vm s).
Qed.

(** Words written into frames that are there. *)
Lemma stored_words s pt n w l :
  stored s pt n -> tree_kept pt s.(words) w -> objects_ok w pt l ->
  (forall q, is_Some (w !! q) -> is_Some (s.(words) !! q)) -> stored (with_words s w) pt n.
Proof.
  intros [I O Z0 (f & If & Hf)] K Ow Hw. split; cbn [with_words words]; [by apply (kept_wf s.(words)) | by exists l | |].
  - apply eq_None_not_Some. intros Hs%Hw. rewrite Z0 in Hs. by destruct Hs.
  - exists f. split; [|done]. by apply ft_inv_words.
Qed.

Lemma last_objects_frame_tail fuel pt l x s r s' :
  segment s.(words) x l 0 -> Forall (object_frame s.(words) pt) l -> x <> 0 ->
  last_objects_frame fuel x s = Ok r s' -> s' = s /\ last l = Some r.
Proof.
  revert x l. induction fuel as [|fuel IH]; intros x l Hs Hf Hx Hrun; [done|]. cbn [last_objects_frame] in Hrun.
  destruct l as [|q l]; [done|]. destruct Hs as [-> Hs]. apply Forall_cons in Hf as [(_ & _ & _ & Hq & _) Hf].
  rewrite (bind_run _ _ _ _ _ (word_get_run s q 1 Hq ltac:(unfold in_index; lia))) in Hrun.
  destruct (Z.eqb_spec (wget s.(words) q 1) 0) as [E0|Hn].
  - injection Hrun as <- <-. split; [done|]. destruct l as [|q2 l]; [done|]. destruct Hs as [Heq _].
    apply Forall_cons in Hf as [(H0 & _) _]. congruence.
  - destruct (IH _ l Hs Hf Hn Hrun) as [-> Hlast]. split; [done|]. destruct l; [done|]. by rewrite last_cons_cons.
Qed.

(** A frame added at the end of the list, or no frame to be had. *)
Definition add_frame (o : Z) (none : Z) : M (sos E) Z :=
  r ← frame_alloc_important pageout;
  word_put o 1 r.2;;
  if r.2 =? 0 then mret none
  else word_put r.2 0 0;; word_put r.2 1 0;; mret r.2.

(** [q] is null, or a frame of the list. *)
Definition listed s (pt q : Z) : Prop := q = 0 \/ exists l, objects_ok s.(words) pt l /\ q ∈ l.

Lemma link_run s s1 o a none :
  is_Some (s.(words) !! o) -> s1.(words) = <[a := ∅]> s.(words) ->
  (word_put o 1 a;; if a =? 0 then mret none else word_put a 0 0;; word_put a 1 0;; mret a) s1 =
  if a =? 0 then Ok none (with_words s1 (written s1.(words) o 1 a))
  else Ok a (with_words s1 (appended s.(words) o a)).
Proof.
  intros Ho Hw. assert (in_index 0 /\ in_index 1) as [J0 J1] by (unfold in_index; lia).
  assert (is_Some (s1.(words) !! o)) as Ho1 by (rewrite Hw; apply lookup_insert_is_Some'; by right).
  assert (is_Some (s1.(words) !! a)) as Ha by (by rewrite Hw, lookup_insert_eq).
  rewrite (bind_run _ _ _ _ _ (word_put_run s1 o 1 a Ho1 J1)). destruct (a =? 0); [done|].
  set (s2 := with_words s1 _). assert (is_Some (s2.(words) !! a)) as Ha2 by (by apply written_frames).
  rewrite (bind_run _ _ _ _ _ (word_put_run s2 a 0 0 Ha2 J0)).
  set (s3 := with_words s2 _). assert (is_Some (s3.(words) !! a)) as Ha3 by (by apply written_frames).
  rewrite (bind_run _ _ _ _ _ (word_put_run s3 a 1 0 Ha3 J1)). unfold appended. by rewrite <- Hw.
Qed.

Lemma add_frame_spec s s' pt l n none r :
  stored s pt (S n) -> objects_ok s.(words) pt l -> none = 0 \/ none ∈ l ->
  add_frame (list_tail pt l) none s = Ok r s' ->
  stored s' pt n /\ tree_kept pt s.(words) s'.(words) /\ listed s' pt r.
Proof.
  intros St Ol Hnone Hrun. pose proof St as [I _ Z0 ([|p f] & If & Hlen)]; [cbn in Hlen; lia|].
  destruct (tail_frame s.(words) pt l I Ol) as [Ho _]. unfold add_frame in Hrun.
  apply bind_Ok in Hrun as ([page a] & s1 & H1 & Hrun). cbn [snd] in Hrun.
  assert (in_index 1) as J1 by (unfold in_index; lia).
  destruct (frame_alloc_spec pageout s s1 p f true page a If H1)
    as [(-> & -> & V & If1)|(-> & -> & If1 & Hw1 & _)].
  - pose proof V as (_ & Vw & _). rewrite <- Vw in Ho, Ol, I.
    rewrite (bind_run _ _ _ _ _ (word_put_run s1 _ 1 0 Ho J1)) in Hrun. injection Hrun as <- <-.
    destruct (objects_relinked s1.(words) pt l I Ol) as [K Ok1]. cbn [with_words words].
    split; [|split; [by rewrite <- Vw|]].
    + apply (stored_le _ _ (S n)); [lia|]. apply (stored_words _ _ _ _ l); [by apply (stored_same_vm s) | done | done |].
      intros q. by apply written_frames_inv.
    + destruct Hnone as [->|Hin]; [by left|]. right. by exists l.
  - assert (s.(words) !! page_addr s.(ft) p = None) as Ha by (by apply (fi_fresh _ _ If), list_elem_of_here).
    pose proof (page_addr_pos s p f If) as Ha0. set (a := page_addr s.(ft) p) in *.
    rewrite (link_run s s1 _ a none Ho Hw1), (proj2 (Z.eqb_neq a 0)) in Hrun by lia. injection Hrun as <- <-.
    cbn [with_words words].
    pose proof (appended_kept s.(words) pt a l I Ol Ha ltac:(lia)) as K.
    pose proof (objects_appended s.(words) pt a l I Ol Ha ltac:(lia)) as O1.
    split; [|split; [exact K|]].
    + split; cbn [with_words words]; [by apply (kept_wf s.(words)) | by exists (l ++ [a]) | |].
      * apply eq_None_not_Some. intros Hs%appended_frames_inv; [|done|done].
        rewrite lookup_insert_ne, Z0 in Hs by lia. by destruct Hs.
      * exists f. split; [|cbn in Hlen; lia].
        apply (ft_inv_words s1 (appended s.(words) (list_tail pt l) a)); [done|]. intros q.
        rewrite Hw1. by apply appended_frames_inv.
    + right. exists (l ++ [a]). split; [exact O1|]. apply elem_of_app. right. by apply list_elem_of_singleton.
Qed.

Lemma objects_frame_spec s s' pt n r :
  stored s pt (S n) -> objects_frame pageout pt s = Ok r s' ->
  stored s' pt n /\ tree_kept pt s.(words) s'.(words) /\ listed s' pt r.
Proof.
  intros St Hrun. pose proof St as [I [l Ol] Z0 _]. pose proof Ol as [Hl _ Hf]. unfold objects_frame, pt_seL4_pages in Hrun.
  rewrite (bind_run _ _ _ _ _ (word_get_run s pt 1 (pw_table _ _ I) ltac:(unfold in_index; lia))) in Hrun.
  destruct (Z.eqb_spec (wget s.(words) pt 1) 0) as [E0|Hn].
  - assert (l = []) as ->.
    { destruct l as [|q l]; [done|]. apply Forall_cons in Hf as [(H0 & _) _]. destruct Hl as [Heq _]. congruence. }
    apply (add_frame_spec s s' pt [] n 0 r St Ol); [by left|done].
  - rewrite get_bind in Hrun. apply bind_Ok in Hrun as (q & s1 & H1 & Hrun).
    apply (last_objects_frame_tail _ pt l) in H1 as [-> Hlast]; [|done..].
    assert (q ∈ l) as Hq by (by apply last_Some_elem_of).
    pose proof (proj1 (Forall_forall _ _) Hf q Hq) as (_ & _ & _ & Hqs & _).
    rewrite (bind_run _ _ _ _ _ (word_get_run s q 0 Hqs ltac:(unfold in_index; lia))) in Hrun.
    destruct (_ =? PAGE_OBJECT_SIZE).
    + apply (add_frame_spec s s' pt l n q r St Ol); [by right|]. unfold list_tail. by rewrite Hlast.
    + injection Hrun as <- <-. split; [by apply (stored_le _ _ (S n)); [lia|]|]. split; [apply tree_kept_refl|].
      right. by exists l.
Qed.

Lemma word_put_listed s s' pt n l q j v u :
  stored s pt n -> objects_ok s.(words) pt l -> q ∈ l -> j <> 1 -> (j = 0 -> 0 <= v) ->
  word_put q j v s = Ok u s' ->
  stored s' pt n /\ tree_kept pt s.(words) s'.(words) /\ objects_ok s'.(words) pt l.
Proof.
  intros St Ol Hq Hj Hv Hrun. destruct (objects_written s.(words) pt l q j v (st_wf _ _ _ St) Ol Hq Hj Hv) as [K O'].
  pose proof (proj1 (Forall_forall _ _) (ob_frames _ _ _ Ol) q Hq) as (_ & _ & _ & [c Hc] & _).
  unfold word_put in Hrun. rewrite get_bind, (deref_bind _ c) in Hrun by done.
  apply bind_Ok in Hrun as ([] & s1 & H1 & Hrun). unfold access in H1. destruct (_ && _) in H1; [|done].
  injection H1 as <-. injection Hrun as _ <-. unfold written in K, O'. rewrite Hc in K, O'. cbn [default id] in K, O'.
  split; [|by split].
  apply (stored_words _ _ _ _ l St K O'). intros p. rewrite lookup_insert_is_Some. intros [<-|[_ ?]]; [by eexists|done].
Qed.

(** Noting an object takes at most one frame, and leaves the tree alone. *)
Lemma save_seL4_info_spec s s' pt n ut0 slot u :
  stored s pt (S n) -> save_seL4_info pageout pt ut0 slot s = Ok u s' ->
  stored s' pt n /\ tree_kept pt s.(words) s'.(words).
Proof.
  intros St Hrun. unfold save_seL4_info in Hrun. apply bind_Ok in Hrun as (q & s1 & H1 & Hrun).
  destruct (objects_frame_spec _ _ _ _ _ St H1) as (St1 & K1 & [->|(l & Ol & Hq)]).
  { unfold word_get in Hrun. apply bind_Ok in Hrun as (i & s2 & H2 & _). rewrite get_bind in H2.
    by rewrite (st_null _ _ _ St1) in H2. }
  pose proof (proj1 (Forall_forall _ _) (ob_frames _ _ _ Ol) q Hq) as (_ & _ & _ & Hs & Hpos).
  rewrite (bind_run _ _ _ _ _ (word_get_run s1 q 0 Hs ltac:(unfold in_index; lia))) in Hrun.
  set (ind := wget s1.(words) q 0) in *.
  apply bind_Ok in Hrun as (u2 & s2 & H2 & Hrun). apply bind_Ok in Hrun as (u3 & s3 & H3 & Hrun).
  eapply word_put_listed in H2 as (St2 & K2 & O2); [|exact St1|exact Ol|exact Hq|lia|intros _; apply u64_bound].
  eapply word_put_listed in H3 as (St3 & K3 & O3); [|exact St2|exact O2|exact Hq|lia|lia].
  eapply word_put_listed in Hrun as (St4 & K4 & _); [|exact St3|exact O3|exact Hq|lia|lia].
  split; [done|]. apply (tree_kept_trans _ _ s1.(words)); [apply St|done|].
  apply (tree_kept_trans _ _ s2.(words)); [apply St1|done|].
  apply (tree_kept_trans _ _ s3.(words)); [apply St2|done|done].
Qed.

(** ** [sos_map_frame] *)

Lemma sos_map_loop_kept c pt frame_cap vspace vaddr rights attr n m err s r s' :
  stored s pt (m + n) ->
  sos_map_loop pageout c pt frame_cap vspace vaddr rights attr m err s = Ok r s' ->
  stored s' pt n /\ tree_kept pt s.(words) s'.(words).
Proof.
  revert err s. induction m as [|m IH]; intros err s St Hrun; cbn [sos_map_loop] in Hrun.
  { injection Hrun as <- <-. split; [done|apply tree_kept_refl]. }
  assert (forall s1, same_vm s s1 -> stored s1 pt n /\ tree_kept pt s.(words) s1.(words)) as Hstop.
  { intros s1 V. split; [apply (stored_le _ _ (S m + n)); [lia|]; by apply (stored_same_vm s)|].
    destruct V as (_ & -> & _). apply tree_kept_refl. }
  destruct (negb _); [injection Hrun as <- <-; by apply Hstop|].
  apply bind_Ok in Hrun as (failed & s1 & H1%(layer_call same_vm) & Hrun).
  apply bind_Ok in Hrun as (u & s2 & H2%(layer_on_ut same_vm) & Hrun).
  destruct (u.1 =? 0); [injection Hrun as <- <-; apply Hstop; by etrans|].
  apply bind_Ok in Hrun as (slot & s3 & H3%(layer_cspace_alloc_slot same_vm) & Hrun).
  destruct (slot =? seL4_CapNull); [injection Hrun as <- <-; apply Hstop; etrans; [|exact H3]; by etrans|].
  apply bind_Ok in Hrun as (cap & s4 & H4%(layer_ut_cap_of same_vm) & Hrun).
  apply bind_Ok in Hrun as (err1 & s5 & H5%(layer_retype_map_level same_vm) & Hrun).
  assert (same_vm s s5) as V5 by (do 4 (etrans; [eassumption|]); done).
  apply bind_Ok in Hrun as (u6 & s6 & H6 & Hrun). apply bind_Ok in Hrun as (err2 & s7 & H7 & Hrun).
  destruct (save_seL4_info_spec s5 s6 pt (m + n) u.1 slot u6) as [St6 K6]; [by apply (stored_same_vm s)|done|].
  assert (same_vm s6 s7) as V7.
  { destruct (err1 =? 0); [by apply (layer_call same_vm) in H7|by injection H7 as <- <-]. }
  destruct (IH _ s7 (stored_same_vm _ _ _ _ V7 St6) Hrun) as [St' K'].
  destruct V5 as (_ & Vw5 & _), V7 as (_ & Vw7 & _). rewrite Vw5 in K6. rewrite Vw7 in K'.
  split; [done|]. apply (tree_kept_trans _ _ s6.(words)); [apply St|done|done].
Qed.

(** What [sos_map_frame] does to the page table, with frames for the objects
    and for the nodes: a result of 0 means that the page is entered, any other
    that no entry changed. *)
Lemma sos_map_frame_spec s s' c pt frame_cap vspace vaddr rights attr page r :
  stored s pt 6 ->
  sos_map_frame pageout c pt frame_cap vspace vaddr rights attr page true s = Ok r s' ->
  pt_wf s'.(words) pt /\ (exists f', ft_inv s' f') /\
  (r = 0 -> forall u, resolve s'.(words) pt u =
     if decide (vpn u = vpn vaddr) then present page else resolve s.(words) pt u) /\
  (r <> 0 -> forall u, resolve s'.(words) pt u = resolve s.(words) pt u).
Proof.
  intros St Hrun. unfold sos_map_frame in Hrun. apply bind_Ok in Hrun as (err & s1 & H1%(layer_call same_vm) & Hrun).
  apply bind_Ok in Hrun as (o & s2 & H2 & Hrun).
  destruct (sos_map_loop_kept c pt frame_cap vspace vaddr rights attr 3 (Z.to_nat MAPPING_SLOTS) err s1 o s2)
    as [St2 K]; [by apply (stored_same_vm s)|done|].
  destruct H1 as (_ & Vw & _). rewrite Vw in K.
  assert (forall u, resolve s2.(words) pt u = resolve s.(words) pt u) as Hres.
  { intros u. apply kept_resolve; [apply St|done]. }
  destruct St2 as [I _ _ (f & If & Hf)]. destruct o as [err'|].
  - destruct (page_table_insert_spec pageout s2 s' pt vaddr page r f I If Hf Hrun) as (I' & If' & [[-> Hm]|[-> Hm]]);
      (split; [done|]); (split; [done|]); (split; [|]); intros Hr u; try done; rewrite Hm, Hres; done.
  - injection Hrun as <- <-. split; [done|]. split; [by exists f|]. by split.
Qed.
End note.
