(* ===== verification/AddressSpace.v ===== *)
(** * Address spaces

    [sos/src/vm/address_space.c]: the regions of a process, a singly linked list
    searched by every page fault.  A list is the chain of the addresses of its
    nodes ([regions]); the nodes are in [region_heap], where a node that was
    taken out of its chain without being freed stays.

    The theorems: [valid_new_region] accepts a region exactly when it is
    disjoint from every region of the list, so [as_define_region] keeps the
    regions disjoint; in a list of disjoint regions [as_seek_region] finds the
    one region an address lies in; what [as_destroy_region] really unlinks. *)
From S2P Require Import Prelude Utils Bitfield UtTable Bytes Sos Cspace Sample CspaceSpec CspaceGrow Mapping.
From S2P Require Import UtAlloc FrameTable PageTable.

Definition READ : Z := 1.
Definition WRITE : Z := 2.
Definition EXEC : Z := 4.
Definition STACK_PAGES : Z := 4000.
Definition SHARE_BUF_SIZE : Z := 256.
Definition PROCESS_STACK_TOP : Z := 0x9000000000.
Definition PROCESS_HEAP_BASE : Z := 0x9000000000 + PAGE_SIZE_4K.
Definition PROCESS_SHARED_BUF_TOP : Z := 0xD0000000.
Definition PROCESS_IPC_BUFFER : Z := 0xA0000000.
Definition PROCESS_MAX : Z := 0xFFFFFFFFFFFFFFFF.
Definition SIZEOF_REGION : Z := 32.
Definition SIZEOF_ADDRSPACE : Z := 40.

(** ** The operations *)

(** The tests of [valid_new_region] against one region of the list. *)
Definition clashes (new curr : region) : bool :=
  ((curr.(vbase) <=? new.(vbase)) && (new.(vbase) <=? curr.(vtop))) ||
  ((curr.(vbase) <=? new.(vtop)) && (new.(vtop) <=? curr.(vtop))) ||
  ((curr.(vtop) <=? new.(vtop)) && (new.(vbase) <=? curr.(vbase))) ||
  ((new.(vtop) <=? curr.(vtop)) && (curr.(vbase) <=? new.(vbase))).

Definition contains (r : region) (vaddr : Z) : bool := (r.(vbase) <=? vaddr) && (vaddr <=? r.(vtop)).

Section address_space.
Context {E : Type} `{!Env E}.

Definition as_get (a : Z) : M (sos E) addrspace := v ← vm_get; deref (v.(ases) !! a).
Definition as_modify (a : Z) (f : addrspace -> addrspace) : M (sos E) unit :=
  x ← as_get a; vm_modify (fun v => {| v with ases := <[a := f x]> v.(ases) |}).
Definition region_get (r : Z) : M (sos E) region := v ← vm_get; deref (v.(region_heap) !! r).
Definition region_put (p : Z) (r : region) : M (sos E) unit :=
  vm_modify (fun v => {| v with region_heap := <[p := r]> v.(region_heap) |}).
Definition region_free (p : Z) : M (sos E) unit :=
  vm_modify (fun v => {| v with region_heap := delete p v.(region_heap) |});; free p.

Definition as_create (pageout : Z -> M (sos E) Z) : M (sos E) Z :=
  a ← malloc SIZEOF_ADDRSPACE;
  if a =? 0 then mret 0
  else
    stack ← call Uninit []; heap ← call Uninit []; buffer ← call Uninit []; pt0 ← call Uninit [];
    vm_modify (fun v => {| v with ases := <[a := mk_addrspace [] stack heap buffer pt0]> v.(ases) |});;
    pt ← page_table_init pageout;
    as_modify a (fun x => {| x with as_pt := pt |});;
    mret a.

Definition as_destroy (a : Z) : M (sos E) unit :=
  x ← as_get a;
  for_each x.(regions) region_free;;
  vm_modify (fun v => {| v with ases := delete a v.(ases) |});;
  free a.

Fixpoint valid_new_region (chain : list Z) (new : region) : M (sos E) bool :=
  match chain with
  | [] => mret true
  | p :: chain' => r ← region_get p; if clashes new r then mret false else valid_new_region chain' new
  end.

(** NULL is 0. *)
Fixpoint seek_region (chain : list Z) (vaddr : Z) : M (sos E) Z :=
  match chain with
  | [] => mret 0
  | p :: chain' => r ← region_get p; if contains r vaddr then mret p else seek_region chain' vaddr
  end.
Definition as_seek_region (a vaddr : Z) : M (sos E) Z := x ← as_get a; seek_region x.(regions) vaddr.

(** The new node is written before the test for NULL; a rejected node is not
    freed. *)
Definition as_define_region (a vbase0 size accmode0 : Z) : M (sos E) Z :=
  p ← malloc_used SIZEOF_REGION;
  let new := mk_region vbase0 (u64 (vbase0 + size)) accmode0 in
  region_put p new;;
  x ← as_get a;
  ok ← valid_new_region x.(regions) new;
  if negb ok then mret (-1)
  else as_modify a (fun x => {| x with regions := p :: x.(regions) |});; mret 0.

(** [as->regions]: the head of the list, NULL when it is empty. *)
Definition head_region (x : addrspace) : Z := default 0 (head x.(regions)).

Definition as_define_shared_buffer (a : Z) : M (sos E) Z :=
  result ← as_define_region a (PROCESS_SHARED_BUF_TOP - PAGE_SIZE_4K * SHARE_BUF_SIZE)
             (PAGE_SIZE_4K * SHARE_BUF_SIZE) (Z.lor READ WRITE);
  as_modify a (fun x => {| x with as_buffer := head_region x |});;
  mret result.
Definition as_define_stack (a : Z) : M (sos E) Z :=
  result ← as_define_region a (PROCESS_STACK_TOP - PAGE_SIZE_4K * STACK_PAGES)
             (PAGE_SIZE_4K * STACK_PAGES) (Z.lor READ WRITE);
  as_modify a (fun x => {| x with as_stack := head_region x |});;
  mret result.
Definition as_define_heap (a : Z) : M (sos E) Z :=
  result ← as_define_region a (PROCESS_STACK_TOP + PAGE_SIZE_4K)
             (PROCESS_MAX - PROCESS_STACK_TOP - PAGE_SIZE_4K) (Z.lor READ WRITE);
  as_modify a (fun x => {| x with as_heap := head_region x |});;
  mret result.

(** The search of [as_destroy_region] behind the head: the rest of the chain
    after the region found, and the region.  [prev] stays the head. *)
Fixpoint find_behind (chain : list Z) (vaddr : Z) : M (sos E) (option (Z * list Z)) :=
  match chain with
  | [] => mret None
  | p :: chain' =>
      r ← region_get p; if contains r vaddr then mret (Some (p, chain')) else find_behind chain' vaddr
  end.

Definition as_destroy_region (a vaddr : Z) : M (sos E) Z :=
  x ← as_get a;
  match x.(regions) with
  | [] => mret (-1)
  | p :: chain' =>
      r ← region_get p;
      if contains r vaddr then
        as_modify a (fun x => {| x with regions := chain' |});; region_free p;; mret 0
      else
        found ← find_behind chain' vaddr;
        match found with
        | None => mret (-1)
        | Some (q, rest) =>
            as_modify a (fun x => {| x with regions := p :: rest |});; region_free q;; mret 0
        end
  end.
End address_space.

(** ** Disjointness *)

Definition disjoint_region (r q : region) : Prop := r.(vtop) < q.(vbase) \/ q.(vtop) < r.(vbase).
Definition ordered (r : region) : Prop := r.(vbase) <= r.(vtop).

Lemma clashes_spec new curr :
  ordered new -> ordered curr -> clashes new curr = false <-> disjoint_region new curr.
Proof. unfold clashes, ordered, disjoint_region. intros. zbool. lia. Qed.

(** The regions of a chain, in order. *)
Definition chain_regions (h : gmap Z region) (chain : list Z) (rs : list region) : Prop :=
  Forall2 (fun p r => h !! p = Some r) chain rs.

Definition pairwise_disjoint (rs : list region) : Prop :=
  forall i j r q, i <> j -> rs !! i = Some r -> rs !! j = Some q -> disjoint_region r q.

Record as_inv {E} (s : sos E) (a : Z) (rs : list region) : Prop := mk_as_inv {
  ai_chain : exists x, s.(vm).(ases) !! a = Some x /\ chain_regions s.(vm).(region_heap) x.(regions) rs /\
    NoDup x.(regions) /\ 0 ∉ x.(regions);
  ai_ordered : Forall ordered rs;
  ai_disjoint : pairwise_disjoint rs }.

Section spec.
Context {E : Type} `{!Env E}.
Implicit Types s : sos E.

Lemma as_get_run s a x : s.(vm).(ases) !! a = Some x -> as_get a s = Ok x s.
Proof. intros H. unfold as_get, vm_get. rewrite (bind_run _ _ s s.(vm) s) by done. by rewrite H. Qed.
Lemma region_get_run s p r : s.(vm).(region_heap) !! p = Some r -> region_get p s = Ok r s.
Proof. intros H. unfold region_get, vm_get. rewrite (bind_run _ _ s s.(vm) s) by done. by rewrite H. Qed.

Lemma valid_new_region_run s chain rs new :
  chain_regions s.(vm).(region_heap) chain rs ->
  valid_new_region chain new s = Ok (forallb (fun r => negb (clashes new r)) rs) s.
Proof.
  induction 1 as [|p r chain rs Hp Hrs IH]; [done|]. cbn [valid_new_region forallb].
  rewrite (bind_run _ _ _ _ _ (region_get_run s p r Hp)). by destruct (clashes new r).
Qed.

Lemma valid_new_region_iff (s : sos E) (chain : list Z) (rs : list region) (new : region) :
  chain_regions s.(vm).(region_heap) chain rs -> Forall ordered rs -> ordered new ->
  exists b, valid_new_region chain new s = Ok b s /\ (b = true <-> Forall (disjoint_region new) rs).
Proof.
  intros Hc Ho Hn. eexists. split; [by apply valid_new_region_run|].
  rewrite forallb_forall, Forall_forall. rewrite Forall_forall in Ho. split; intros H r Hr.
  - specialize (H r). rewrite negb_true_iff in H. apply clashes_spec; [done|by apply Ho|].
    apply H. by apply list_elem_of_In.
  - apply list_elem_of_In in Hr. rewrite negb_true_iff. apply clashes_spec; [done|by apply Ho|]. by apply H.
Qed.

(** [valid_new_region] accepts a region exactly when it overlaps no region of
    the list; it always answers. *)
Theorem valid_new_region_exact (s : sos E) (chain : list Z) (rs : list region) (new : region) :
  chain_regions s.(vm).(region_heap) chain rs -> Forall ordered rs -> ordered new ->
  exists b, valid_new_region chain new s = Ok b s /\ (b = true <-> Forall (disjoint_region new) rs).
Proof. apply valid_new_region_iff. Qed.

(** Where [seek_region] stops. *)
Lemma seek_region_run s chain rs v :
  chain_regions s.(vm).(region_heap) chain rs -> 0 ∉ chain ->
  exists p, seek_region chain v s = Ok p s /\
    ((p = 0 /\ Forall (fun r => contains r v = false) rs) \/
     (p <> 0 /\ exists i r, chain !! i = Some p /\ rs !! i = Some r /\ contains r v = true)).
Proof.
  induction 1 as [|p r chain rs Hp Hrs IH]; intros H0; cbn [seek_region].
  - exists 0. split; [done|]. left. by split.
  - rewrite not_elem_of_cons in H0. destruct H0 as [Hp0 H0].
    rewrite (bind_run _ _ _ _ _ (region_get_run s p r Hp)). destruct (contains r v) eqn:Hc.
    + exists p. split; [done|]. right. split; [done|]. by exists 0%nat, r.
    + destruct (IH H0) as (q & Hq & Hcase). exists q. split; [done|].
      destruct Hcase as [[-> Hf]|(Hq0 & i & r' & ? & ? & ?)].
      * left. split; [done|]. by constructor.
      * right. split; [done|]. by exists (S i), r'.
Qed.

Lemma contains_spec r v : contains r v = true <-> r.(vbase) <= v <= r.(vtop).
Proof. unfold contains. zbool. done. Qed.

Lemma disjoint_contains r q v : disjoint_region r q -> contains r v = true -> contains q v = true -> False.
Proof. rewrite !contains_spec. unfold disjoint_region. lia. Qed.

Lemma as_seek_region_spec (s : sos E) (a v : Z) (rs : list region) :
  as_inv s a rs ->
  exists p, as_seek_region a v s = Ok p s /\
    if p =? 0 then Forall (fun r => ~ r.(vbase) <= v <= r.(vtop)) rs
    else exists r, s.(vm).(region_heap) !! p = Some r /\ r ∈ rs /\ r.(vbase) <= v <= r.(vtop) /\
           forall q, q ∈ rs -> q.(vbase) <= v <= q.(vtop) -> q = r.
Proof.
  intros [(x & Hx & Hc & _ & H0) Ho Hd]. unfold as_seek_region.
  rewrite (bind_run _ _ _ _ _ (as_get_run s a x Hx)).
  destruct (seek_region_run s x.(regions) rs v Hc H0) as (p & Hp & Hcase). exists p. split; [done|].
  destruct Hcase as [[-> Hf]|(Hp0 & i & r & Hi & Hr & Hv)].
  - cbn. eapply Forall_impl; [exact Hf|]. intros r Hr Hin. apply contains_spec in Hin. congruence.
  - rewrite (proj2 (Z.eqb_neq _ _) Hp0). exists r. split; [by apply (Forall2_lookup_lr _ _ _ i p r Hc)|].
    split; [by apply list_elem_of_lookup_2 in Hr|]. split; [by apply contains_spec|].
    intros q (j & Hj)%list_elem_of_lookup Hq. destruct (decide (i = j)) as [->|Hne]; [congruence|].
    destruct (disjoint_contains r q v); [by apply (Hd i j)|done|by apply contains_spec].
Qed.

(** [as_seek_region] returns NULL when the address lies in no region of the
    address space, and otherwise the node of the one region it lies in. *)
Theorem as_seek_region_unique (s : sos E) (a v : Z) (rs : list region) :
  as_inv s a rs ->
  exists p, as_seek_region a v s = Ok p s /\
    if p =? 0 then Forall (fun r => ~ r.(vbase) <= v <= r.(vtop)) rs
    else exists r, s.(vm).(region_heap) !! p = Some r /\ r ∈ rs /\ r.(vbase) <= v <= r.(vtop) /\
           forall q, q ∈ rs -> q.(vbase) <= v <= q.(vtop) -> q = r.
Proof. apply as_seek_region_spec. Qed.

(** *** Definition of a region *)

Definition with_chain (x : addrspace) (chain : list Z) : addrspace := {| x with regions := chain |}.

(** The new node, and the chain the address space then has. *)
Definition with_regions s (a p : Z) (x : addrspace) (new : region) (chain : list Z) (e : E) : sos E :=
  {| s with env := e; trace := (Malloc, [SIZEOF_REGION], p) :: s.(trace);
     vm := {| s.(vm) with region_heap := <[p := new]> s.(vm).(region_heap);
                          ases := <[a := with_chain x chain]> s.(vm).(ases) |} |}.

Lemma chain_regions_grow h p r chain rs :
  h !! p = None -> chain_regions h chain rs -> chain_regions (<[p := r]> h) chain rs.
Proof.
  intros Hp H. eapply Forall2_impl; [exact H|]. intros q r' Hq. cbn in *.
  rewrite lookup_insert_ne; [done|]. congruence.
Qed.

Lemma chain_regions_fresh h p chain rs : h !! p = None -> chain_regions h chain rs -> p ∉ chain.
Proof.
  intros Hp H (i & Hi)%list_elem_of_lookup. destruct (Forall2_lookup_l _ _ _ _ _ H Hi) as (r & _ & Hr). congruence.
Qed.

(** The regions after the call. *)
Definition defined (rs : list region) (new : region) : list region :=
  if forallb (fun r => negb (clashes new r)) rs then new :: rs else rs.

Lemma pairwise_cons new rs :
  Forall (disjoint_region new) rs -> pairwise_disjoint rs -> pairwise_disjoint (new :: rs).
Proof.
  intros Hf Hd [|i] [|j] r q Hne; cbn; intros Hr Hq; simplify_eq; try done.
  - apply (Forall_lookup_1 _ _ _ _ Hf Hq).
  - pose proof (Forall_lookup_1 _ _ _ _ Hf Hr) as H. unfold disjoint_region in *. lia.
  - apply (Hd i j); [congruence|done|done].
Qed.

(** The malloc of a node: nonnull, and not the address of a live node. *)
Definition malloc_region_ok s (p : Z) (e : E) : Prop :=
  ext Malloc [SIZEOF_REGION] s.(env) = (p, e) /\ p <> 0 /\ s.(vm).(region_heap) !! p = None.

Lemma as_define_region_run s a base size perm p e x rs :
  malloc_region_ok s p e -> s.(vm).(ases) !! a = Some x ->
  chain_regions s.(vm).(region_heap) x.(regions) rs ->
  let new := mk_region base (u64 (base + size)) perm in
  let ok := forallb (fun r => negb (clashes new r)) rs in
  as_define_region a base size perm s =
  Ok (if ok then 0 else -1) (with_regions s a p x new (if ok then p :: x.(regions) else x.(regions)) e).
Proof.
  intros (Hext & Hp0 & Hfresh) Hx Hc new ok. unfold as_define_region, malloc_used, malloc.
  assert (call Malloc [SIZEOF_REGION] s = Ok p {| s with env := e; trace := (Malloc, [SIZEOF_REGION], p) :: s.(trace) |})
    as Hcall by (unfold call; by rewrite Hext).
  set (s1 := {| s with env := e; trace := _ |}) in Hcall.
  assert ((p0 ← call Malloc [SIZEOF_REGION]; access (negb (p0 =? 0));; mret p0) s = Ok p s1) as Hmal.
  { rewrite (bind_run _ _ _ _ _ Hcall), access_bind; [done|]. by rewrite (proj2 (Z.eqb_neq _ _) Hp0). }
  rewrite (bind_run _ _ _ _ _ Hmal). unfold region_put, vm_modify. cbv zeta. rewrite modify_bind. fold new.
  set (s2 := {| s1 with vm := _ |}).
  rewrite (bind_run _ _ _ _ _ (as_get_run s2 a x Hx)).
  rewrite (bind_run _ _ _ _ _ (valid_new_region_run s2 x.(regions) rs new (chain_regions_grow _ _ _ _ _ Hfresh Hc))).
  fold ok. destruct ok; cbn [negb].
  - unfold as_modify. rewrite (bind_run _ _ s2 tt (with_regions s a p x new (p :: x.(regions)) e)); [done|].
    rewrite (bind_run _ _ _ _ _ (as_get_run s2 a x Hx)). done.
  - unfold mret, M_ret. f_equal. unfold with_regions, s2, s1. cbn [vm ases region_heap env trace].
    rewrite (insert_id s.(vm).(ases) a); [done|]. by destruct x.
Qed.

Lemma define_inv s a p x rs new e :
  as_inv s a rs -> s.(vm).(region_heap) !! p = None -> p <> 0 -> s.(vm).(ases) !! a = Some x ->
  let ok := forallb (fun r => negb (clashes new r)) rs in ordered new ->
  as_inv (with_regions s a p x new (if ok then p :: x.(regions) else x.(regions)) e) a (defined rs new).
Proof.
  intros [(x' & Hx' & Hc & Hnd & H0) Ho Hd] Hfresh Hp0 Hx ok Hnew. assert (x' = x) as -> by congruence.
  unfold defined. fold ok. destruct ok eqn:Hok.
  - assert (Forall (disjoint_region new) rs) as Hdis.
    { apply Forall_forall. intros r Hr. unfold ok in Hok. rewrite forallb_forall in Hok.
      apply clashes_spec; [done|by apply (proj1 (Forall_forall _ _) Ho)|].
      apply negb_true_iff, Hok. by apply list_elem_of_In. }
    split; [|by constructor|by apply pairwise_cons].
    eexists. split; [apply lookup_insert_eq|]. cbn [with_chain regions with_regions vm region_heap]. split; [|split].
    + constructor; [apply lookup_insert_eq|]. by apply chain_regions_grow.
    + constructor; [|done]. by eapply chain_regions_fresh.
    + rewrite not_elem_of_cons. by split.
  - split; [|done|done]. eexists. split; [apply lookup_insert_eq|].
    split; [by apply chain_regions_grow|]. done.
Qed.

Lemma as_define_region_spec (s : sos E) (a base size perm p : Z) (e : E) (rs : list region) :
  as_inv s a rs -> malloc_region_ok s p e ->
  0 <= base -> 0 <= size -> base + size < 2 ^ 64 ->
  let new := mk_region base (base + size) perm in
  exists s' r, as_define_region a base size perm s = Ok r s' /\ as_inv s' a (defined rs new) /\
    (r = 0 /\ Forall (disjoint_region new) rs \/ r = -1 /\ ~ Forall (disjoint_region new) rs) /\
    forall a' rs', a' <> a -> as_inv s a' rs' -> as_inv s' a' rs'.
Proof.
  intros I Hm Hb Hs Hend new. pose proof Hm as (_ & Hp0 & Hfresh). pose proof I as [(x & Hx & Hc & _) Ho _].
  assert (ordered new) as Hn by (unfold ordered; cbn; lia).
  pose proof (as_define_region_run s a base size perm p e x rs Hm Hx Hc) as Hrun. cbv zeta in Hrun.
  rewrite u64_small in Hrun by lia. fold new in Hrun. eexists _, _. split; [exact Hrun|].
  split; [by apply define_inv|]. split.
  - destruct (valid_new_region_iff s x.(regions) rs new Hc Ho Hn) as (b & Hb' & Hiff).
    rewrite (valid_new_region_run s x.(regions) rs new Hc) in Hb'. injection Hb' as Hb'. rewrite Hb'.
    destruct b; [left|right]; (split; [done|]); [by apply Hiff|]. intros H. by apply Hiff in H.
  - intros a' rs' Hne [(x' & Hx' & Hc' & Hrest) Ho' Hd']. split; [|done|done].
    exists x'. cbn [with_regions vm ases region_heap]. rewrite lookup_insert_ne by done.
    split; [done|]. split; [by apply chain_regions_grow|done].
Qed.

(** C34 [as_define_region] answers 0 and puts the new region in front when it
    overlaps no region of the address space, and -1 leaving the regions as they
    were otherwise; either way the regions stay pairwise disjoint, and so do
    those of every other address space. *)
Theorem as_define_region_disjoint (s : sos E) (a base size perm p : Z) (e : E) (rs : list region) :
  as_inv s a rs -> malloc_region_ok s p e ->
  0 <= base -> 0 <= size -> base + size < 2 ^ 64 ->
  let new := mk_region base (base + size) perm in
  exists s' r, as_define_region a base size perm s = Ok r s' /\ as_inv s' a (defined rs new) /\
    (r = 0 /\ Forall (disjoint_region new) rs \/ r = -1 /\ ~ Forall (disjoint_region new) rs) /\
    forall a' rs', a' <> a -> as_inv s a' rs' -> as_inv s' a' rs'.
Proof. apply as_define_region_spec. Qed.

(** *** Destruction of a region *)

Lemma find_behind_run s chain rs v :
  chain_regions s.(vm).(region_heap) chain rs ->
  exists o, find_behind chain v s = Ok o s /\
    match o with
    | None => Forall (fun r => contains r v = false) rs
    | Some (q, rest) => exists i r, chain !! i = Some q /\ rs !! i = Some r /\ contains r v = true /\
        rest = drop (S i) chain
    end.
Proof.
  induction 1 as [|p r chain rs Hp Hrs IH]; cbn [find_behind]; [by exists None|].
  rewrite (bind_run _ _ _ _ _ (region_get_run s p r Hp)). destruct (contains r v) eqn:Hc.
  - exists (Some (p, chain)). split; [done|]. by exists 0%nat, r.
  - destruct IH as ([[q rest]|] & Hq & Hcase).
    + exists (Some (q, rest)). split; [done|]. destruct Hcase as (i & r' & ? & ? & ? & ?). by exists (S i), r'.
    + exists None. split; [done|]. by constructor.
Qed.

(** A chain loses the node [q], which is freed, and perhaps others. *)
Definition unlinked s (a q : Z) (x : addrspace) (chain : list Z) : sos E :=
  let '(r, e) := ext Dealloc [q] s.(env) in
  {| s with env := e; trace := (Dealloc, [q], r) :: s.(trace);
     vm := {| s.(vm) with region_heap := delete q s.(vm).(region_heap);
                          ases := <[a := with_chain x chain]> s.(vm).(ases) |} |}.

Lemma unlink_run s a q x chain :
  s.(vm).(ases) !! a = Some x ->
  (as_modify a (fun x => {| x with regions := chain |});; region_free q;; mret 0) s =
  Ok 0 (unlinked s a q x chain).
Proof.
  intros Hx. unfold as_modify, region_free, vm_modify, free, unlinked.
  rewrite (bind_run _ _ s tt {| s with vm := {| s.(vm) with ases := <[a := with_chain x chain]> s.(vm).(ases) |} |}).
  2:{ rewrite (bind_run _ _ _ _ _ (as_get_run s a x Hx)). done. }
  unfold mbind, M_bind, modify, call, mret, M_ret. cbn [vm env ases region_heap trace].
  by destruct (ext Dealloc [q] s.(env)).
Qed.

Lemma unlinked_inv s a q x chain rs :
  chain_regions s.(vm).(region_heap) chain rs -> q ∉ chain -> NoDup chain -> 0 ∉ chain ->
  Forall ordered rs -> pairwise_disjoint rs -> as_inv (unlinked s a q x chain) a rs.
Proof.
  intros Hc Hq Hnd H0 Ho Hd. unfold unlinked. destruct (ext Dealloc [q] s.(env)) as [r e]. split; [|done|done].
  exists (with_chain x chain). cbn [vm ases region_heap]. split; [apply lookup_insert_eq|]. split; [|done].
  apply Forall2_same_length_lookup. split; [by eapply Forall2_length|]. intros i p r' Hp Hr. cbn.
  rewrite lookup_delete_ne by (intros ->; by apply list_elem_of_lookup_2 in Hp).
  by apply (Forall2_lookup_lr _ _ _ _ _ _ Hc Hp).
Qed.

Lemma pairwise_sub rs rs' : sublist rs' rs -> pairwise_disjoint rs -> pairwise_disjoint rs'.
Proof.
  induction 1 as [|r l k H IH|r l k H IH]; intros Hd; [done| |].
  - apply pairwise_cons.
    + apply Forall_forall. intros q Hq. apply (elem_of_sublist _ _ _ Hq) in H as (j & Hj)%list_elem_of_lookup.
      by apply (Hd 0%nat (S j)).
    + apply IH. intros i j r1 r2 Hne H1 H2. apply (Hd (S i) (S j)); [congruence|done|done].
  - apply IH. intros i j r1 r2 Hne H1 H2. apply (Hd (S i) (S j)); [congruence|done|done].
Qed.

(** What [as_destroy_region] unlinks: with the address in the [i]-th region of
    the list (counted from 0), the first region alone if [i] is 0, and otherwise
    every region after the first up to and including the [i]-th, because [prev]
    is never advanced.  So one region goes if [i] is at most 1 and [i] regions
    go beyond that.  An address in no region is answered with -1. *)
Theorem as_destroy_region_unlinks (s : sos E) (a v : Z) (rs : list region) :
  as_inv s a rs ->
  (Forall (fun r => contains r v = false) rs -> as_destroy_region a v s = Ok (-1) s) /\
  forall i r, rs !! i = Some r -> contains r v = true ->
    exists s', as_destroy_region a v s = Ok 0 s' /\
      as_inv s' a (match i with O => drop 1 rs | S _ => take 1 rs ++ drop (S i) rs end).
Proof.
  intros [(x & Hx & Hc & Hnd & H0) Ho Hd]. unfold as_destroy_region.
  rewrite (bind_run _ _ _ _ _ (as_get_run s a x Hx)).
  destruct x.(regions) as [|p chain] eqn:Hreg; inversion Hc as [|? r0 ? rs' Hp Hc' E1 E2]; subst.
  { split; [done|]. intros i r Hi. by rewrite lookup_nil in Hi. }
  apply NoDup_cons in Hnd as [Hpn Hnd]. rewrite not_elem_of_cons in H0. destruct H0 as [Hp0 H0].
  rewrite (bind_run _ _ _ _ _ (region_get_run s p r0 Hp)).
  destruct (find_behind_run s chain rs' v Hc') as (o & Ho' & Hcase).
  split.
  - intros Hf. apply Forall_cons in Hf as [-> Hf]. rewrite (bind_run _ _ _ _ _ Ho').
    destruct o as [[q rest]|]; [|done]. destruct Hcase as (i & r & _ & Hr & Hv & _).
    apply (Forall_lookup_1 _ _ _ _ Hf) in Hr. congruence.
  - assert (forall i j r q, (r0 :: rs') !! i = Some r -> (r0 :: rs') !! j = Some q -> contains r v = true ->
      contains q v = true -> i = j) as Huniq.
    { intros i j r q Hi Hj Hr Hq. destruct (decide (i = j)); [done|].
      destruct (disjoint_contains r q v); [by apply (Hd i j)|done|done]. }
    intros i r Hi Hv. destruct (contains r0 v) eqn:Hr0.
    + assert (i = 0)%nat as -> by (by eapply Huniq). rewrite (unlink_run s a p x chain Hx).
      eexists. split; [done|]. cbn [drop]. apply unlinked_inv; try done.
      * by apply Forall_cons in Ho as [_ Ho].
      * apply (pairwise_sub (r0 :: rs')); [|done]. by apply sublist_cons.
    + destruct i as [|i]; [cbn in Hi; congruence|]. rewrite (bind_run _ _ _ _ _ Ho').
      destruct o as [[q rest]|].
      2:{ apply (Forall_lookup_1 _ _ _ _ Hcase) in Hi. congruence. }
      destruct Hcase as (j & r' & Hq & Hr' & Hv' & ->).
      assert (j = i) as -> by (specialize (Huniq (S j) (S i) r' r Hr' Hi Hv' Hv); lia).
      rewrite (unlink_run s a q x (p :: drop (S i) chain) Hx). eexists. split; [done|]. cbn [take app drop].
      assert (q ∉ drop (S i) chain) as Hqd.
      { intros (k & Hk)%list_elem_of_lookup. rewrite lookup_drop in Hk.
        pose proof (NoDup_lookup _ _ _ _ Hnd Hq Hk). lia. }
      assert (sublist (drop (S i) chain) chain) as Hsub by apply sublist_drop.
      apply unlinked_inv.
      * constructor; [done|]. by apply Forall2_drop.
      * rewrite not_elem_of_cons. split; [|done]. intros ->. apply Hpn. by apply list_elem_of_lookup_2 in Hq.
      * constructor; [|by eapply sublist_NoDup]. intros H. by apply Hpn, (elem_of_sublist _ _ _ H Hsub).
      * rewrite not_elem_of_cons. split; [done|]. intros H. by apply H0, (elem_of_sublist _ _ _ H Hsub).
      * apply Forall_cons in Ho as [? Ho]. constructor; [done|]. by apply Forall_drop.
      * eapply pairwise_sub; [|exact Hd]. apply sublist_skip, sublist_drop.
Qed.
End spec.

(** ** On the concrete machine *)

Lemma spaced_chain : chain_regions spaced.(vm).(region_heap) [1000; 1001; 1002] sample_regions.
Proof. repeat constructor. Qed.

Lemma sample_regions_ordered : Forall ordered sample_regions.
Proof. by repeat constructor. Qed.

Lemma spaced_as_inv : as_inv spaced 500 sample_regions.
Proof.
  split; [|apply sample_regions_ordered|].
  - eexists. split; [done|]. split; [apply spaced_chain|].
    split; apply (bool_decide_unpack _); vm_compute; exact I.
  - intros i j r q Hij Hr Hq.
    assert (i < 3)%nat by (by apply lookup_lt_Some in Hr). assert (j < 3)%nat by (by apply lookup_lt_Some in Hq).
    assert (i = 0 \/ i = 1 \/ i = 2)%nat as [->|[->| ->]] by lia;
      assert (j = 0 \/ j = 1 \/ j = 2)%nat as [->|[->| ->]] by lia; simplify_eq/=; unfold disjoint_region; simpl; lia.
Qed.

Lemma valid_new_region_exact_witness : exists b,
  valid_new_region [1000; 1001; 1002] (mk_region 20000 30000 6) spaced = Ok b spaced /\
  (b = true <-> Forall (disjoint_region (mk_region 20000 30000 6)) sample_regions).
Proof.
  apply (valid_new_region_exact spaced [1000; 1001; 1002] sample_regions (mk_region 20000 30000 6)
    spaced_chain sample_regions_ordered). discriminate.
Defined.

Lemma as_seek_region_unique_witness : exists p, as_seek_region 500 17000 spaced = Ok p spaced.
Proof. destruct (as_seek_region_unique spaced 500 17000 sample_regions spaced_as_inv) as (p & H & _). by exists p. Defined.

Lemma as_define_region_disjoint_witness : exists s' r,
  as_define_region 500 40000 4096 6 spaced = Ok r s' /\
  as_inv s' 500 (defined sample_regions (mk_region 40000 44096 6)).
Proof.
  destruct (as_define_region_disjoint spaced 500 40000 4096 6 65536 (mk_toy 69632) sample_regions spaced_as_inv)
    as (s' & r & Hrun & Hinv & _); [by split_and! | lia | lia | lia |].
  by exists s', r.
Defined.

Lemma as_destroy_region_unlinks_witness : exists s',
  as_destroy_region 500 33000 spaced = Ok 0 s' /\ as_inv s' 500 [mk_region 4096 8191 6].
Proof.
  apply (proj2 (as_destroy_region_unlinks spaced 500 33000 sample_regions spaced_as_inv) 2%nat (mk_region 32768 36863 6));
    reflexivity.
Defined.
