(* ===== verification/Coroutines.v ===== *)
(** * Coroutines

    [sos/src/picoro/picoro.c]: the lists of running and idle coroutines, kept in
    the coroutine objects themselves.  The operations here are what [resume],
    [yield], [coroutine] and the end of a coroutine's function do to the lists;
    that control passes with them ([setjmp] and [longjmp]) is the meaning of the
    head of the running list.  [at_start] is the coroutine that has not come to
    the loop of [coroutine_main] yet: the first time it is resumed it forks the
    next one.  The stack objects of new coroutines are arguments.

    The theorems: in every reachable state the two lists are proper, disjoint
    lists and a coroutine can be resumed exactly when it is on neither;
    creating a coroutine always succeeds and gives one that can be resumed. *)
From S2P Require Import Prelude.


Record picoro : Type := mk_picoro {
  next : gmap Z Z; running : Z; idle : Z; at_start : option Z }.

Inductive which : Type := Running | Idle.

Definition next_of (c : Z) : M picoro Z := t ← get; deref (t.(next) !! c).
Definition set_next (c n : Z) : M picoro unit :=
  _ ← next_of c; modify (fun t => {| t with next := <[c := n]> t.(next) |}).
Definition list_head (l : which) : M picoro Z :=
  gets (fun t => match l with Running => t.(running) | Idle => t.(idle) end).
Definition set_head (l : which) (c : Z) : M picoro unit :=
  modify (fun t => match l with Running => {| t with running := c |} | Idle => {| t with idle := c |} end).

Definition get_running : M picoro Z := list_head Running.

Definition resumable (c : Z) : M picoro bool :=
  if c =? 0 then mret false else n ← next_of c; mret (n =? 0).

Definition push (l : which) (c : Z) : M picoro unit := h ← list_head l; set_next c h;; set_head l c.

Definition pop (l : which) : M picoro Z :=
  c ← list_head l; n ← next_of c; set_head l n;; set_next c 0;; mret c.

Definition resume (c : Z) : M picoro unit := ok ← resumable c; assert ok;; push Running c.
Definition yield : M picoro Z := pop Running.

(** [coroutine_start]: [coroutine_main] on a new stack, up to its first [pass]. *)
Definition fork (me : Z) : M picoro unit :=
  modify (fun t => {| t with next := <[me := 0]> t.(next); at_start := Some me |});; push Idle me.

(** [coroutine(fun)]; [me0] and [me1] are the objects on the new stacks. *)
Definition coroutine (me0 me1 : Z) : M picoro Z :=
  i ← list_head Idle;
  when (i =? 0) (fork me0);;
  c ← pop Idle;
  resume c;;
  (* now in [coroutine_main] of [c] *)
  t ← get;
  when (bool_decide (t.(at_start) = Some c)) (fork me1);;
  yield.

(** The function of the running coroutine returns. *)
Definition finish : M picoro unit := c ← pop Running; push Idle c.

(** ** The lists *)

Fixpoint chain (nx : gmap Z Z) (p : Z) (l : list Z) : Prop :=
  match l with
  | [] => p = 0
  | c :: l' => p = c /\ c <> 0 /\ exists n, nx !! c = Some n /\ chain nx n l'
  end.

Section spec.
(** The address of the static [first]. *)
Context (first : Z).

(** The running list [rl], which ends with [first], and the idle list [il]; the
    coroutines on neither are suspended. *)
Record core (t : picoro) (rl il : list Z) : Prop := mk_core {
  ls_running : chain t.(next) t.(running) rl;
  ls_idle : chain t.(next) t.(idle) il;
  ls_nodup : NoDup (rl ++ il);
  ls_others : forall c n, t.(next) !! c = Some n -> c <> 0 /\ (c ∉ rl ++ il -> n = 0);
  ls_first : last rl = Some first }.

(** The last idle coroutine is the one not started yet; before the first
    coroutine is created there is only [first]. *)
Record lists (t : picoro) (rl il : list Z) : Prop := mk_lists {
  ls_core : core t rl il;
  ls_start : t.(at_start) = last il;
  ls_init : il = [] -> rl = [first] /\ forall c, is_Some (t.(next) !! c) -> c = first }.

Lemma links_frame nx p l c n : c ∉ l -> chain nx p l -> chain (<[c := n]> nx) p l.
Proof.
  revert p. induction l as [|d l IH]; intros p Hc; [done|]. apply not_elem_of_cons in Hc as [Hne Hc].
  intros (-> & Hd & m & Hm & Hl). split; [done|]. split; [done|]. exists m. rewrite lookup_insert_ne by done.
  split; [done|]. by apply IH.
Qed.

Lemma chain_known nx p l c : chain nx p l -> c ∈ l -> is_Some (nx !! c).
Proof.
  revert p. induction l as [|d l IH]; intros p; [by intros _ ?%elem_of_nil|].
  intros (-> & _ & m & Hm & Hl) [->|Hc]%elem_of_cons; [by eexists|by eapply IH].
Qed.

(** *** The operations as functions *)

Definition head_at (l : which) (t : picoro) : Z := match l with Running => t.(running) | Idle => t.(idle) end.
Definition pushed (l : which) (c : Z) (t : picoro) : picoro :=
  let nx := <[c := head_at l t]> t.(next) in
  match l with Running => mk_picoro nx c t.(idle) t.(at_start) | Idle => mk_picoro nx t.(running) c t.(at_start) end.
Definition popped (l : which) (c n : Z) (t : picoro) : picoro :=
  let nx := <[c := 0]> t.(next) in
  match l with Running => mk_picoro nx n t.(idle) t.(at_start) | Idle => mk_picoro nx t.(running) n t.(at_start) end.

Lemma next_of_run t c n : t.(next) !! c = Some n -> next_of c t = Ok n t.
Proof. intros Hn. unfold next_of. rewrite get_bind. by rewrite Hn. Qed.

Lemma put_run l c t : is_Some (t.(next) !! c) -> push l c t = Ok tt (pushed l c t).
Proof.
  intros [n Hn]. unfold push. rewrite (bind_run _ _ t (head_at l t) t) by (by destruct l). unfold set_next.
  rewrite (bind_run _ _ t tt {| t with next := <[c := head_at l t]> t.(next) |}).
  - by destruct l.
  - by rewrite (bind_run _ _ _ _ _ (next_of_run t c n Hn)).
Qed.

Lemma pop_run l c n t : head_at l t = c -> t.(next) !! c = Some n -> pop l t = Ok c (popped l c n t).
Proof.
  intros Hc Hn. unfold pop. rewrite (bind_run _ _ t c t) by (rewrite <- Hc; by destruct l).
  rewrite (bind_run _ _ _ _ _ (next_of_run t c n Hn)). unfold set_head. rewrite modify_bind. unfold set_next.
  set (t1 := match l with Running => _ | Idle => _ end). assert (t1.(next) !! c = Some n) as Hn1 by (by destruct l).
  rewrite (bind_run _ _ t1 tt {| t1 with next := <[c := 0]> t1.(next) |}).
  - by destruct l.
  - by rewrite (bind_run _ _ _ _ _ (next_of_run t1 c n Hn1)).
Qed.

(** *** Moving a coroutine from list to list *)

Definition suspended (t : picoro) (rl il : list Z) (c : Z) : Prop := is_Some (t.(next) !! c) /\ c ∉ rl ++ il.

Lemma resumable_run t rl il c : core t rl il -> suspended t rl il c -> resumable c t = Ok true t.
Proof.
  intros L [[n Hn] Hc]. destruct (ls_others _ _ _ L c n Hn) as [H0 Hz]. rewrite Hz in Hn by done.
  unfold resumable. rewrite (proj2 (Z.eqb_neq _ _) H0). by rewrite (bind_run _ _ _ _ _ (next_of_run t c 0 Hn)).
Qed.

Lemma last_cons_ne {A} (x : A) l : l <> [] -> last (x :: l) = last l.
Proof. by destruct l. Qed.

Lemma rl_nonempty t rl il : core t rl il -> rl <> [].
Proof. intros L ->. by pose proof (ls_first _ _ _ L). Qed.

(** The lists with [c] put on one of them. *)
Definition on_running (l : which) (c : Z) (rl : list Z) : list Z := match l with Running => c :: rl | Idle => rl end.
Definition on_idle (l : which) (c : Z) (il : list Z) : list Z := match l with Running => il | Idle => c :: il end.

Lemma elem_of_put l c rl il d : d ∈ on_running l c rl ++ on_idle l c il <-> d = c \/ d ∈ rl ++ il.
Proof. destruct l; cbn; rewrite ?elem_of_cons, !elem_of_app, ?elem_of_cons; naive_solver. Qed.

Lemma NoDup_put l c rl il :
  NoDup (on_running l c rl ++ on_idle l c il) <-> c ∉ rl ++ il /\ NoDup (rl ++ il).
Proof. destruct l; cbn; [apply NoDup_cons|]. by rewrite <- Permutation_middle, NoDup_cons. Qed.

Lemma core_push l t rl il c :
  core t rl il -> suspended t rl il c -> core (pushed l c t) (on_running l c rl) (on_idle l c il).
Proof.
  intros L [[n Hn] Hc]. pose proof (rl_nonempty _ _ _ L) as Hrl. destruct L as [Hr Hi Hnd Ho Hf].
  pose proof Hc as [Hcr Hci]%not_elem_of_app. destruct (Ho c n Hn) as [H0 _]. split.
  - destruct l; cbn; [|by apply links_frame]. split; [done|]. split; [done|]. exists t.(running).
    rewrite lookup_insert_eq. split; [done|]. by apply links_frame.
  - destruct l; cbn; [by apply links_frame|]. split; [done|]. split; [done|]. exists t.(idle).
    rewrite lookup_insert_eq. split; [done|]. by apply links_frame.
  - by apply NoDup_put.
  - intros d m Hd. rewrite elem_of_put.
    assert (d = c \/ t.(next) !! d = Some m) as [->|Hd'] by (destruct l; cbn in Hd; apply lookup_insert_Some in Hd; naive_solver).
    + split; [done|]. naive_solver.
    + destruct (Ho d m Hd') as [Hd0 Hdz]. split; [done|]. naive_solver.
  - destruct l; cbn [on_running]; [by rewrite last_cons_ne|done].
Qed.

Lemma core_pop l t rl il c :
  core t (on_running l c rl) (on_idle l c il) -> rl <> [] ->
  exists n, pop l t = Ok c (popped l c n t) /\ core (popped l c n t) rl il /\ suspended (popped l c n t) rl il c.
Proof.
  intros [Hr Hi Hnd Ho Hf] Hrl. apply NoDup_put in Hnd as [Hc Hnd]. pose proof Hc as [Hcr Hci]%not_elem_of_app.
  assert (exists n, head_at l t = c /\ t.(next) !! c = Some n /\ c <> 0 /\
    chain t.(next) n (match l with Running => rl | Idle => il end)) as (n & Hh & Hn & H0 & Hl).
  { destruct l; cbn in Hr, Hi; naive_solver. }
  exists n. split; [by apply pop_run|]. split.
  - split.
    + destruct l; cbn; by apply links_frame.
    + destruct l; cbn; by apply links_frame.
    + done.
    + intros d m Hd. assert (d = c /\ m = 0 \/ d <> c /\ t.(next) !! d = Some m) as [[-> ->]|[Hne Hd']]
        by (destruct l; cbn in Hd; apply lookup_insert_Some in Hd; naive_solver); [done|].
      destruct (Ho d m Hd') as [Hd0 Hdz]. rewrite elem_of_put in Hdz. naive_solver.
    + destruct l; cbn in Hf; [by rewrite last_cons_ne in Hf|done].
  - split; [|done]. destruct l; cbn; rewrite lookup_insert_eq; by eexists.
Qed.

(** A coroutine object on a new stack. *)
Definition born (me : Z) (t : picoro) : picoro :=
  mk_picoro (<[me := 0]> t.(next)) t.(running) t.(idle) (Some me).

Lemma core_born t rl il me :
  core t rl il -> t.(next) !! me = None -> me <> 0 -> core (born me t) rl il /\ suspended (born me t) rl il me.
Proof.
  intros [Hr Hi Hnd Ho Hf] Hme H0. assert (me ∉ rl ++ il) as Hnot.
  { intros [Hin|Hin]%elem_of_app; [apply (chain_known _ _ _ _ Hr) in Hin | apply (chain_known _ _ _ _ Hi) in Hin];
      rewrite Hme in Hin; by destruct Hin. }
  pose proof Hnot as [Hnr Hni]%not_elem_of_app. split; [|split; [cbn; rewrite lookup_insert_eq; by eexists | done]].
  split; cbn; [by apply links_frame | by apply links_frame | done | | done].
  intros d m [[<- <-]|[Hne Hd]]%lookup_insert_Some; [done|]. by apply Ho.
Qed.

Lemma fork_spec t rl il me :
  core t rl il -> t.(next) !! me = None -> me <> 0 ->
  exists t', fork me t = Ok tt t' /\ core t' rl (me :: il) /\ t'.(at_start) = Some me /\
    t'.(running) = t.(running) /\ forall c, is_Some (t'.(next) !! c) <-> c = me \/ is_Some (t.(next) !! c).
Proof.
  intros L Hme H0. destruct (core_born t rl il me L Hme H0) as [L' S']. exists (pushed Idle me (born me t)).
  split; [unfold fork; rewrite modify_bind; apply put_run, S'|].
  split; [by apply (core_push Idle (born me t) rl il me)|]. split; [done|]. split; [done|]. intros c. cbn.
  rewrite !lookup_insert_is_Some'. intuition congruence.
Qed.

Lemma core_resume t rl il c :
  core t rl il -> suspended t rl il c -> resume c t = Ok tt (pushed Running c t) /\ core (pushed Running c t) (c :: rl) il.
Proof.
  intros L S. split; [|by apply (core_push Running)]. unfold resume.
  rewrite (bind_run _ _ _ _ _ (resumable_run _ _ _ _ L S)), assert_bind by done. apply put_run, S.
Qed.

(** *** The operations of the library *)

(** A new stack. *)
Definition unborn (t : picoro) (me : Z) : Prop := t.(next) !! me = None /\ me <> 0.

Lemma resume_spec t rl il c :
  lists t rl il -> suspended t rl il c -> exists t', resume c t = Ok tt t' /\ lists t' (c :: rl) il.
Proof.
  intros [L Hs Hin] S. destruct (core_resume t rl il c L S) as [Hrun L']. eexists. split; [exact Hrun|].
  split; [done|done|]. intros Hil. destruct (Hin Hil) as [-> Hall]. destruct S as [Hk Hno]. destruct Hno.
  rewrite (Hall c Hk). apply elem_of_app. left. apply list_elem_of_singleton. done.
Qed.

Lemma yield_spec t c rl il :
  lists t (c :: rl) il -> rl <> [] ->
  exists t', yield t = Ok c t' /\ lists t' rl il /\ suspended t' rl il c.
Proof.
  intros [L Hs Hin] Hrl. destruct (core_pop Running t rl il c L Hrl) as (n & Hrun & L' & S').
  eexists. split; [exact Hrun|]. split; [|done]. split; [done|done|]. intros Hil. by destruct (Hin Hil) as [[= _ ->] _].
Qed.

Lemma finish_spec t c rl il :
  lists t (c :: rl) il -> rl <> [] -> exists t', finish t = Ok tt t' /\ lists t' rl (c :: il).
Proof.
  intros [L Hs Hin] Hrl. destruct (core_pop Running t rl il c L Hrl) as (n & Hrun & L' & S').
  eexists. split; [unfold finish; rewrite (bind_run _ _ _ _ _ Hrun); apply put_run, S'|].
  split; [by apply (core_push Idle) | | done]. cbn [pushed popped at_start]. rewrite last_cons_ne; [done|].
  intros ->. by destruct (Hin eq_refl) as [[= _ ->] _].
Qed.

(** The part of [coroutine] after an idle coroutine is sure to be there. *)
Lemma create_from_idle t rl c il me :
  core t rl (c :: il) -> t.(at_start) = last (c :: il) -> unborn t me ->
  exists t' il', (c ← pop Idle; resume c;; t ← get; when (bool_decide (t.(at_start) = Some c)) (fork me);; yield) t = Ok c t' /\
    lists t' rl il' /\ suspended t' rl il' c.
Proof.
  intros L Hs [Hme H0]. pose proof (rl_nonempty _ _ _ L) as Hrl.
  destruct (core_pop Idle t rl il c L Hrl) as (n & Hrun & L1 & S1). rewrite (bind_run _ _ _ _ _ Hrun).
  destruct (core_resume _ _ _ _ L1 S1) as [Hres L2]. rewrite (bind_run _ _ _ _ _ Hres), get_bind.
  set (t2 := pushed Running c (popped Idle c n t)) in *. change (at_start t2) with (at_start t). rewrite Hs.
  assert (t2.(next) !! me = None) as Hme2.
  { cbn. assert (c <> me) as Hne by (intros ->; destruct (chain_known _ _ _ me (ls_idle _ _ _ L)) as [? ?];
      [apply elem_of_cons; by left | congruence]). by rewrite !lookup_insert_ne. }
  destruct il as [|d il].
  - cbn [last]. rewrite bool_decide_eq_true_2 by done. cbn [when].
    destruct (fork_spec t2 (c :: rl) [] me L2 Hme2 H0) as (t3 & Hfork & L3 & Hs3 & _). rewrite (bind_run _ _ _ _ _ Hfork).
    destruct (yield_spec t3 c rl [me]) as (t4 & Hy & L4 & S4); [by split|done|]. by exists t4, [me].
  - assert (last (c :: d :: il) <> Some c) as Hne.
    { rewrite last_cons_ne by done. intros Hlast%last_Some_elem_of. pose proof (ls_nodup _ _ _ L) as Hnd.
      apply NoDup_app in Hnd as (_ & _ & Hnd). apply NoDup_cons in Hnd as [Hc _]. done. }
    rewrite bool_decide_eq_false_2 by done. cbn [when]. rewrite ret_bind.
    destruct (yield_spec t2 c rl (d :: il)) as (t4 & Hy & L4 & S4); [by split|done|]. by exists t4, (d :: il).
Qed.

Lemma coroutine_run t rl il me0 me1 :
  lists t rl il -> unborn t me0 -> unborn t me1 -> me0 <> me1 ->
  exists c t' il', coroutine me0 me1 t = Ok c t' /\ lists t' rl il' /\ suspended t' rl il' c.
Proof.
  intros [L Hs Hin] [Hm0 H0] Hm1 Hne. unfold coroutine. rewrite (bind_run _ _ t t.(idle) t) by done.
  destruct il as [|c il].
  - assert (t.(idle) = 0) as -> by apply (ls_idle _ _ _ L). cbn [Z.eqb when].
    destruct (fork_spec t rl [] me0 L Hm0 H0) as (t1 & Hfork & L1 & Hs1 & _ & Hdom). rewrite (bind_run _ _ _ _ _ Hfork).
    destruct (create_from_idle t1 rl me0 [] me1) as (t' & il' & Hrun & HL); [done|done| |by exists me0, t', il'].
    destruct Hm1 as [Hm1 H1]. split; [|done]. apply eq_None_not_Some. rewrite Hdom, Hm1. intros [->|[? [=]]]. done.
  - destruct (ls_idle _ _ _ L) as (Hc & Hc0 & _). rewrite Hc, (proj2 (Z.eqb_neq _ _) Hc0). cbn [when]. rewrite ret_bind.
    destruct (create_from_idle t rl c il me1) as (t' & il' & Hrun & HL); [done|done|done|]. by exists c, t', il'.
Qed.

(** ** Reachable states *)

(** What a client does.  It resumes coroutines it got from [coroutine] or
    [get_running], so neither [first] nor the one that is not started yet; that
    the coroutine is on no list is left to the assertion of [resume].  The initial
    stack does not yield. *)
Inductive step : relation picoro :=
  | step_resume c t t' : c <> first -> t.(at_start) <> Some c -> resume c t = Ok tt t' -> step t t'
  | step_yield c t t' : t.(running) <> first -> yield t = Ok c t' -> step t t'
  | step_finish t t' : t.(running) <> first -> finish t = Ok tt t' -> step t t'
  | step_create me0 me1 c t t' :
      unborn t me0 -> unborn t me1 -> me0 <> me1 -> coroutine me0 me1 t = Ok c t' -> step t t'.

Definition initial : picoro := mk_picoro {[first := 0]} first 0 None.

Lemma chain_last nx p l c : chain nx p l -> c ∈ l -> nx !! c = Some 0 -> last l = Some c.
Proof.
  revert p. induction l as [|d l IH]; intros p; [by intros _ ?%elem_of_nil|].
  intros (-> & _ & m & Hm & Hl) [->|Hc]%elem_of_cons Hn.
  - assert (m = 0) as -> by congruence. destruct l as [|e l]; [done|]. destruct Hl as (<- & He & _). done.
  - rewrite last_cons_ne; [by eapply IH|]. intros ->. by apply elem_of_nil in Hc.
Qed.

(** [resumable] on the coroutines a client can have. *)
Lemma resumable_spec t rl il c :
  lists t rl il -> is_Some (t.(next) !! c) -> c <> first -> t.(at_start) <> Some c ->
  resumable c t = Ok (bool_decide (c ∉ rl ++ il)) t.
Proof.
  intros [L Hs _] Hk Hf Hst. case_bool_decide as Hin; [by apply (resumable_run t rl il)|].
  destruct Hk as [n Hn]. destruct (ls_others _ _ _ L c n Hn) as [H0 _]. unfold resumable.
  rewrite (proj2 (Z.eqb_neq _ _) H0), (bind_run _ _ _ _ _ (next_of_run t c n Hn)).
  destruct (Z.eqb_spec n 0) as [->|]; [|done]. apply elem_of_app in Hin as [Hin|Hin].
  - apply (chain_last _ _ _ _ (ls_running _ _ _ L)) in Hin; [|done]. rewrite (ls_first _ _ _ L) in Hin. congruence.
  - apply (chain_last _ _ _ _ (ls_idle _ _ _ L)) in Hin; [|done]. congruence.
Qed.

Lemma running_cons t rl il :
  lists t rl il -> t.(running) <> first -> exists c rl', rl = c :: rl' /\ rl' <> [].
Proof.
  intros [L _ _] Hne. destruct rl as [|c [|d rl]]; [by pose proof (rl_nonempty _ _ _ L)| |by exists c, (d :: rl)].
  destruct Hne. destruct (ls_running _ _ _ L) as [-> _]. pose proof (ls_first _ _ _ L) as Hf. cbn in Hf. congruence.
Qed.

Lemma step_lists t t' rl il : lists t rl il -> step t t' -> exists rl' il', lists t' rl' il'.
Proof.
  intros L Hstep. revert L.
  destruct Hstep as [c u u' Hf Hst Hrun|c u u' Hne Hrun|u u' Hne Hrun|me0 me1 c u u' Hm0 Hm1 Hm Hrun]; intros L.
  - assert (is_Some (u.(next) !! c) /\ resumable c u = Ok true u) as [Hk Hr].
    { unfold resume in Hrun. apply bind_Ok in Hrun as (b & u1 & Hb & Hrun).
      apply bind_Ok in Hrun as ([] & u2 & [-> ->]%assert_Ok & _). pose proof Hb as Hb'. unfold resumable in Hb'.
      destruct (c =? 0); [done|]. apply bind_Ok in Hb' as (n & u2 & Hn & [= _ ->]). unfold next_of in Hn.
      rewrite get_bind in Hn. apply deref_Ok in Hn as [Hn ->]. split; [by eexists|done]. }
    rewrite (resumable_spec u rl il c L Hk Hf Hst) in Hr. injection Hr as Hr%bool_decide_eq_true.
    destruct (resume_spec u rl il c L) as (u1 & Hrun' & L'); [done|]. rewrite Hrun' in Hrun. injection Hrun as <-. eauto.
  - destruct (running_cons _ _ _ L Hne) as (d & rl' & -> & Hrl).
    destruct (yield_spec u d rl' il L Hrl) as (u1 & Hrun' & L' & _). rewrite Hrun' in Hrun. injection Hrun as _ <-. eauto.
  - destruct (running_cons _ _ _ L Hne) as (d & rl' & -> & Hrl).
    destruct (finish_spec u d rl' il L Hrl) as (u1 & Hrun' & L'). rewrite Hrun' in Hrun. injection Hrun as <-. eauto.
  - destruct (coroutine_run u rl il me0 me1 L Hm0 Hm1 Hm) as (d & u1 & il' & Hrun' & L' & _).
    rewrite Hrun' in Hrun. injection Hrun as _ <-. eauto.
Qed.

Lemma initial_lists : first <> 0 -> lists initial [first] [].
Proof.
  intros H0. split; [split| |]; cbn.
  - split; [done|]. split; [done|]. exists 0. by rewrite lookup_singleton_eq.
  - done.
  - apply NoDup_singleton.
  - intros c n [<- <-]%lookup_singleton_Some. done.
  - done.
  - done.
  - intros _. split; [done|]. intros c [n [<- _]%lookup_singleton_Some]. done.
Qed.

Lemma reachable_lists t : first <> 0 -> rtc step initial t -> exists rl il, lists t rl il.
Proof.
  intros H0 Hsteps. assert (exists rl il, lists initial rl il) as Hinit by (eexists _, _; by apply initial_lists).
  revert Hinit. induction Hsteps as [t|t1 t2 t3 Hstep _ IH]; [done|]. intros (rl & il & L). apply IH. by eapply step_lists.
Qed.

(** C31 In every state clients can reach, the running and the idle coroutines form
    two proper disjoint lists, the running one down to the initial stack, and
    [resumable] says of a coroutine a client can have that it may be resumed
    exactly when it is on neither list. *)
Theorem coroutine_lists_proper t :
  first <> 0 -> rtc step initial t ->
  exists rl il, lists t rl il /\
    forall c, is_Some (t.(next) !! c) -> c <> first -> t.(at_start) <> Some c ->
      resumable c t = Ok (bool_decide (c ∉ rl ++ il)) t.
Proof.
  intros H0 Hsteps. destruct (reachable_lists t H0 Hsteps) as (rl & il & L). exists rl, il. split; [done|].
  intros c. by apply resumable_spec.
Qed.

(** Creating a coroutine always succeeds: from every reachable state
    [coroutine] returns a coroutine that is suspended and can be resumed, with
    the same coroutines running as before. *)
Theorem coroutine_creation_succeeds t me0 me1 :
  first <> 0 -> rtc step initial t -> unborn t me0 -> unborn t me1 -> me0 <> me1 ->
  exists c t' rl il il', lists t rl il /\ coroutine me0 me1 t = Ok c t' /\ lists t' rl il' /\
    suspended t' rl il' c /\ resumable c t' = Ok true t'.
Proof.
  intros H0 Hsteps Hm0 Hm1 Hm. destruct (reachable_lists t H0 Hsteps) as (rl & il & L).
  destruct (coroutine_run t rl il me0 me1 L Hm0 Hm1 Hm) as (c & t' & il' & Hrun & L' & S').
  exists c, t', rl, il, il'. split; [done|]. split; [done|]. split; [done|]. split; [done|].
  by apply (resumable_run t' rl il'); [apply L'|].
Qed.
End spec.

(** ** Two coroutines, one of them running *)

Definition two : picoro := final ((c ← coroutine 10 20; resume c) (initial 1)) (initial 1).

Lemma two_reachable : rtc (step 1) (initial 1) two.
Proof.
  run_to (coroutine 10 20) (initial 1) 10 H1.
  run_to (resume 10) (final (coroutine 10 20 (initial 1)) (initial 1)) tt H2.
  eapply rtc_l; [eapply (step_create 1 10 20); [split; [vm_compute; reflexivity | discriminate] .. | discriminate | exact H1]|].
  eapply rtc_l; [|apply rtc_refl]. eapply (step_resume 1 10); [discriminate | vm_compute; discriminate | exact H2].
Qed.

Lemma coroutine_lists_proper_witness : exists rl il, lists 1 two rl il.
Proof.
  destruct (coroutine_lists_proper 1 two) as (rl & il & L & _); [discriminate | exact two_reachable |].
  exists rl, il. exact L.
Defined.

Lemma coroutine_creation_succeeds_witness : exists c t', coroutine 30 40 two = Ok c t' /\ resumable c t' = Ok true t'.
Proof.
  destruct (coroutine_creation_succeeds 1 two 30 40) as (c & t' & rl & il & il' & _ & Hrun & _ & _ & Hres);
    [discriminate | exact two_reachable | split; [vm_compute; reflexivity | discriminate]
    | split; [vm_compute; reflexivity | discriminate] | discriminate |].
  exists c, t'. split; [exact Hrun | exact Hres].
Defined.
