(* ===== verification/Procs.v ===== *)
(** * Process table access and coroutine switches

    What every component of the server uses of [proc/proc.c] and
    [picoro/picoro.c]: [proc_get], the fields of a process, and the points where
    one coroutine hands control to another.

    The server is written in direct style on top of coroutines: a handler that
    has to wait calls [yield] and is resumed later by a callback or by another
    handler.  What the rest of the system does in between is the parameter
    [others] of the class [Sched]: a computation on the server's state that
    returns the argument of the [resume] that continues this coroutine.  The
    other way round, [resume c v] runs coroutine [c] until it yields; that is
    [switch_to].  The lists of coroutines themselves are modelled in
    [Coroutines]. *)
From S2P Require Import Prelude Utils Bitfield UtTable Bytes Sos Cspace Sample.

Definition KERNEL_PROC : Z := 0.
Definition INIT_PROC : Z := 1.

Class Sched (E : Type) : Type := {
  others : M (sos E) Z;
  switch_to : Z -> Z -> M (sos E) Z }.

Section procs.
Context {E : Type}.

(** [procs[pid]]: NULL is 0. *)
Definition proc_get (pid : Z) : M (sos E) Z := t ← pcb_get; index t.(procs) pid.
Definition proc_load (p : Z) : M (sos E) proc := t ← pcb_get; deref (t.(proc_heap) !! p).
Definition proc_modify (p : Z) (f : proc -> proc) : M (sos E) unit :=
  x ← proc_load p; pcb_modify (fun t => {| t with proc_heap := <[p := f x]> t.(proc_heap) |}).
(** [proc_get(pid)->...] *)
Definition proc_of (pid : Z) : M (sos E) proc := p ← proc_get pid; proc_load p.

Definition get_running : M (sos E) Z := t ← pcb_get; mret t.(running).

(** Control returns with the coroutine back at the head of the running list. *)
Definition yield `{Sched E} : M (sos E) Z :=
  me ← get_running;
  r ← others;
  pcb_modify (fun t => {| t with running := me |});;
  mret r.
Definition resume `{Sched E} (c arg : Z) : M (sos E) Z :=
  me ← get_running;
  access (negb (c =? 0));;
  pcb_modify (fun t => {| t with running := c |});;
  r ← switch_to c arg;
  pcb_modify (fun t => {| t with running := me |});;
  mret r.

(** Facts about a process known to be there. *)
Lemma proc_get_run (s : sos E) pid p :
  0 <= pid -> s.(pcb).(procs) !! Z.to_nat pid = Some p -> proc_get pid s = Ok p s.
Proof.
  intros Hp H. unfold proc_get, pcb_get. rewrite (bind_run _ _ s s.(pcb) s) by done. unfold index.
  rewrite access_bind by lia. by rewrite H.
Qed.
Lemma proc_load_run (s : sos E) p x : s.(pcb).(proc_heap) !! p = Some x -> proc_load p s = Ok x s.
Proof. intros H. unfold proc_load, pcb_get. rewrite (bind_run _ _ s s.(pcb) s) by done. by rewrite H. Qed.
Lemma proc_load_inv p (s s' : sos E) x : proc_load p s = Ok x s' -> s' = s /\ s.(pcb).(proc_heap) !! p = Some x.
Proof.
  unfold proc_load, pcb_get. rewrite (bind_run _ _ s s.(pcb) s) by done. intros Hrun.
  destruct (s.(pcb).(proc_heap) !! p); [|done]. by injection Hrun as <- <-.
Qed.
Lemma proc_get_inv pid (s s' : sos E) p :
  proc_get pid s = Ok p s' -> s' = s /\ 0 <= pid /\ s.(pcb).(procs) !! Z.to_nat pid = Some p.
Proof.
  unfold proc_get, pcb_get, index. rewrite (bind_run _ _ s s.(pcb) s) by done. intros Hrun.
  destruct (Z.leb_spec 0 pid); [|done]. rewrite access_bind in Hrun by done.
  destruct (s.(pcb).(procs) !! Z.to_nat pid); [|done]. by injection Hrun as <- <-.
Qed.
End procs.

(** The concrete machine has no other coroutine to run. *)
#[global] Instance toy_sched : Sched toy := {| others := mret 0; switch_to _ _ := mret 0 |}.
