(* ===== verification/SharedBuf.v ===== *)
(** * Shared buffers and [struct uio]

    [sos/src/vm/shared_buf.c] and [sos/src/uio.c]: one window of
    [SHARE_BUF_SIZE] pages per process, contiguous in the server's address
    space, mapped into the process as well; system calls pass bulk data through
    it.

    The theorems: the windows of different processes do not overlap, a copy
    moves exactly the bytes it says and at most a window of them, and what is
    copied in is what is copied out. *)
From S2P Require Import Prelude Utils Bitfield UtTable Bytes Sos Cspace Sample CspaceSpec CspaceGrow Mapping.
From S2P Require Import UtAlloc FrameTable PageTable AddressSpace Procs.

Definition BUF_BYTES : Z := SHARE_BUF_SIZE * PAGE_SIZE_4K.

(** [pid * SHARE_BUF_SIZE] is an [int]. *)
Definition buf_offset (pid : Z) : Z := u64 (s32 (pid * SHARE_BUF_SIZE) * PAGE_SIZE_4K).

Definition share_buf_check_len (len : Z) : Z :=
  if PAGE_SIZE_4K * SHARE_BUF_SIZE <? len then PAGE_SIZE_4K * SHARE_BUF_SIZE else len.

Section shared_buf.
Context {E : Type} `{!Env E}.

Definition get_buf_from_pid (pid : Z) : M (sos E) Z :=
  v ← vm_get; mret (u64 (v.(shared_buf_begin) + buf_offset pid)).

(** [memset(buf, 0, n)] *)
Definition mem_clear (a n : Z) : M (sos E) unit :=
  modify (fun s => {| s with mem := filter (fun x => ~ (a <= x.1 < a + n)) s.(mem) |}).
Definition zero_buf (pid : Z) : M (sos E) unit :=
  buf ← get_buf_from_pid pid; mem_clear buf BUF_BYTES.

Section with_pager.
Context (pageout : Z -> M (sos E) Z).

Fixpoint alloc_frames (n : nat) (vaddr : Z) : M (sos E) Z :=
  match n with
  | O => mret vaddr
  | S n' => r ← frame_alloc_important pageout; alloc_frames n' r.2
  end.

Definition shared_buf_init (c : Z) : M (sos E) unit :=
  vm_modify (fun v => {| v with buf_cspace := c |});;
  r ← frame_alloc_important pageout;
  vaddr ← alloc_frames (Z.to_nat (SHARE_BUF_SIZE * MAX_PROCESSES - 1)) 0;
  vm_modify (fun v => {| v with shared_buf_begin := r.2 |});;
  assert (negb (r.2 =? 0));;
  assert (negb (vaddr =? 0)).

(** The page of the window's [i]-th frame, and its entry. *)
Definition buf_entry (pid i : Z) : M (sos E) Z :=
  buf ← get_buf_from_pid pid;
  page ← vaddr_to_page_num (u64 (buf + i * PAGE_SIZE_4K));
  o ← get_frame page;
  deref o.

Definition sos_map_buf (pid : Z) : M (sos E) unit :=
  p ← proc_get pid;
  buf ← get_buf_from_pid pid;
  proc_modify p (fun x => {| x with shared_buf := buf |});;
  x ← proc_load p;
  reg ← as_seek_region x.(p_as) PROCESS_SHARED_BUF_TOP;
  for_each (zseq 0 (Z.to_nat SHARE_BUF_SIZE)) (fun i =>
    v ← vm_get;
    page ← buf_entry pid i;
    slot ← cspace_alloc_slot v.(buf_cspace);
    fte ← fte_get page;
    _ ← cspace_copy v.(buf_cspace) slot v.(buf_cspace) fte.(fte_cap) seL4_AllRights;
    x ← proc_load p;
    a ← as_get x.(p_as);
    r ← region_get reg;
    _ ← sos_map_frame pageout v.(buf_cspace) a.(as_pt) slot x.(vspace) (u64 (r.(vbase) + i * PAGE_SIZE_4K))
          seL4_AllRights seL4_ARM_Default_VMAttributes page false;
    fte_modify page (fun e => {| e with fte_user_cap := slot |})).
End with_pager.

(** The capability of the window is replaced by the result of unmapping it
    before it is deleted. *)
Definition sos_unmap_buf (pid : Z) : M (sos E) unit :=
  p ← proc_get pid;
  proc_modify p (fun x => {| x with shared_buf := 0 |});;
  for_each (zseq 0 (Z.to_nat SHARE_BUF_SIZE)) (fun i =>
    v ← vm_get;
    page ← buf_entry pid i;
    fte ← fte_get page;
    r ← call Page_Unmap [fte.(fte_user_cap)];
    fte_modify page (fun e => {| e with fte_user_cap := r |});;
    _ ← cspace_delete v.(buf_cspace) r;
    cspace_free_slot v.(buf_cspace) r;;
    fte_modify page (fun e => {| e with fte_user_cap := seL4_CapNull |}));;
  zero_buf pid.

(** [sos_copyin(pid, bytes, len)] from an object of the server, and from an
    address; [sos_copyout] into an object, and to an address. *)
Definition copyin_bytes (pid : Z) (l : list Z) : M (sos E) Z :=
  let len := share_buf_check_len (Z.of_nat (length l)) in
  buf ← get_buf_from_pid pid;
  mem_write buf (take (Z.to_nat len) l);;
  mret len.
Definition sos_copyin (pid kernel_vaddr len : Z) : M (sos E) Z :=
  let len := share_buf_check_len len in
  buf ← get_buf_from_pid pid;
  l ← mem_read kernel_vaddr len;
  mem_write buf l;;
  mret len.
Definition copyout_bytes (pid len : Z) : M (sos E) (list Z) :=
  buf ← get_buf_from_pid pid; mem_read buf (share_buf_check_len len).
Definition sos_copyout (pid kernel_vaddr len : Z) : M (sos E) Z :=
  let len := share_buf_check_len len in
  buf ← get_buf_from_pid pid;
  l ← mem_read buf len;
  mem_write kernel_vaddr l;;
  mret len.

(** ** uio *)

Definition uio_load (u : Z) : M (sos E) uio := t ← fs_get; deref (t.(uios) !! u).
Definition uio_put (u : Z) (x : uio) : M (sos E) unit :=
  fs_modify (fun t => {| t with uios := <[u := x]> t.(uios) |}).
(** [malloc(sizeof(struct uio))] without a test, then [uio_init]. *)
Definition SIZEOF_UIO : Z := 32.
Definition uio_init (u : Z) (rw : uio_rw_t) (len offset pid : Z) : M (sos E) unit :=
  access (negb (u =? 0));; uio_put u (mk_uio rw len offset pid).
Definition uio_free (u : Z) : M (sos E) unit :=
  fs_modify (fun t => {| t with uios := delete u t.(uios) |});; free u.

Definition uiomove (ptr n u : Z) : M (sos E) Z :=
  x ← uio_load u;
  let n := if x.(u_len) <? n then x.(u_len) else n in
  _ ← (if decide (x.(uio_rw) = UIO_READ) then sos_copyin x.(u_pid) ptr n else sos_copyout x.(u_pid) ptr n);
  mret n.
End shared_buf.

Lemma share_buf_check_len_eq len : share_buf_check_len len = Z.min len BUF_BYTES.
Proof.
  unfold share_buf_check_len. change (PAGE_SIZE_4K * SHARE_BUF_SIZE) with BUF_BYTES.
  destruct (Z.ltb_spec BUF_BYTES len); lia.
Qed.

Lemma buf_offset_eq pid : 0 <= pid < 32 -> buf_offset pid = pid * BUF_BYTES.
Proof.
  intros Hp. unfold buf_offset, BUF_BYTES. rewrite PAGE_SIZE_4K_eq. unfold SHARE_BUF_SIZE.
  rewrite s32_small, u64_small by lia. lia.
Qed.

Section spec.
Context {E : Type} `{!Env E}.
Implicit Types s : sos E.

(** The window of a process. *)
Definition window s (pid : Z) : Z := s.(vm).(shared_buf_begin) + pid * BUF_BYTES.
Definition in_window s (pid a : Z) : Prop := window s pid <= a < window s pid + BUF_BYTES.

Definition buf_ok s : Prop := 0 < s.(vm).(shared_buf_begin) < 2 ^ 48.

Lemma BUF_BYTES_eq : BUF_BYTES = 1048576.
Proof. reflexivity. Qed.

Lemma get_buf_run s pid : buf_ok s -> 0 <= pid < 32 -> get_buf_from_pid pid s = Ok (window s pid) s.
Proof.
  intros Hb Hp. unfold get_buf_from_pid, vm_get. rewrite (bind_run _ _ s s.(vm) s) by done.
  unfold mret, M_ret. f_equal. rewrite buf_offset_eq by done. unfold buf_ok in Hb.
  unfold window. rewrite BUF_BYTES_eq. apply u64_small. lia.
Qed.

Lemma copyin_bytes_run s pid l :
  buf_ok s -> 0 <= pid < 32 ->
  let len := Z.min (Z.of_nat (length l)) BUF_BYTES in
  copyin_bytes pid l s =
  Ok len {| s with mem := store_bytes s.(mem) (window s pid) (take (Z.to_nat len) l) |}.
Proof.
  intros Hb Hp len. unfold copyin_bytes. rewrite share_buf_check_len_eq.
  by rewrite (bind_run _ _ _ _ _ (get_buf_run s pid Hb Hp)).
Qed.

(** After [sos_copyin] the window begins with the bytes. *)
Lemma copyin_window s s1 pid src len :
  buf_ok s -> 0 <= pid < 32 -> 0 <= len <= BUF_BYTES -> sos_copyin pid src len s = Ok len s1 ->
  bytes_at s1.(mem) (window s1 pid) (Z.to_nat len) = bytes_at s.(mem) src (Z.to_nat len).
Proof.
  intros Hb Hp Hl. unfold sos_copyin. rewrite share_buf_check_len_eq, Z.min_l by lia.
  rewrite (bind_run _ _ _ _ _ (get_buf_run s pid Hb Hp)). intros [= <-]. cbn [mem].
  pose proof (bytes_at_length s.(mem) src (Z.to_nat len)) as Hlen. set (l := bytes_at s.(mem) src _) in *.
  rewrite <- Hlen. exact (bytes_at_stored _ _ l).
Qed.

(** Data copied into a process's shared buffer comes out again unchanged: up
    to the size of a buffer, [sos_copyout] after [sos_copyin] delivers the bytes
    that were copied in, and neither copy touches another process's buffer. *)
Theorem copy_roundtrip (s : sos E) (pid src dst len : Z) :
  buf_ok s -> 0 <= pid < 32 -> 0 <= len <= BUF_BYTES ->
  exists s1 s2, sos_copyin pid src len s = Ok len s1 /\ sos_copyout pid dst len s1 = Ok len s2 /\
    bytes_at s2.(mem) dst (Z.to_nat len) = bytes_at s.(mem) src (Z.to_nat len) /\
    (forall q a, q <> pid -> 0 <= q < 32 -> in_window s q a -> byte_at s1.(mem) a = byte_at s.(mem) a) /\
    (forall a, ~ (dst <= a < dst + len) -> byte_at s2.(mem) a = byte_at s1.(mem) a).
Proof.
  intros Hb Hp Hl. unfold sos_copyin, sos_copyout. rewrite !share_buf_check_len_eq, Z.min_l by lia.
  rewrite (bind_run _ _ _ _ _ (get_buf_run s pid Hb Hp)).
  set (data := bytes_at s.(mem) src (Z.to_nat len)).
  set (s1 := {| s with mem := store_bytes s.(mem) (window s pid) data |}).
  assert (length data = Z.to_nat len) as Hdata by apply bytes_at_length.
  exists s1, {| s1 with mem := store_bytes s1.(mem) dst data |}. split; [done|]. split; [|split; [|split]].
  - assert (get_buf_from_pid pid s1 = Ok (window s1 pid) s1) as H by (by apply get_buf_run).
    rewrite (bind_run _ _ _ _ _ H). unfold mem_read. rewrite (bind_run _ _ s1 data s1); [done|].
    rewrite get_bind. unfold mret, M_ret. f_equal. rewrite <- Hdata. apply bytes_at_stored.
  - cbn [mem]. rewrite <- Hdata at 1. apply bytes_at_stored.
  - intros q a Hne Hq Ha. cbn [s1 mem]. rewrite store_bytes_lookup, decide_False; [done|].
    rewrite Hdata, Z2Nat.id by lia. unfold in_window, window in *. rewrite BUF_BYTES_eq in *. nia.
  - intros a Ha. cbn [mem]. rewrite store_bytes_lookup, decide_False; [done|]. rewrite Hdata, Z2Nat.id by lia. done.
Qed.
End spec.

(** ** On the concrete machine *)

Lemma copy_roundtrip_witness : exists s1 s2,
  sos_copyin 3 4096 100 spaced = Ok 100 s1 /\ sos_copyout 3 8192 100 s1 = Ok 100 s2.
Proof.
  destruct (copy_roundtrip spaced 3 4096 8192 100) as (s1 & s2 & H1 & H2 & _);
    [by unfold buf_ok | lia | rewrite BUF_BYTES_eq; lia |].
  by exists s1, s2.
Defined.
