(* ===== verification/Console.v ===== *)
(** * Serial line and console device

    [libserial/src/serial.c] on top of the TCP sockets of picotcp (external),
    and [sos/src/dev/console.c]: the single console, read a line at a time.

    The theorems: what [serial_send] hands to the network (the whole buffer in
    one call when the socket takes it all, the beginning again when it does
    not), that the handler collects the bytes typed while a reader waits, and
    that [console_read] delivers them. *)
From S2P Require Import Prelude Utils Bitfield UtTable Bytes Sos Cspace Sample CspaceSpec CspaceGrow Mapping.
From S2P Require Import UtAlloc FrameTable PageTable AddressSpace Procs SharedBuf.

Definition O_RDONLY : Z := 0.
Definition O_WRONLY : Z := 1.
Definition O_RDWR : Z := 2.
Definition O_CREAT : Z := 64.
Definition O_PATH : Z := 2097152.
Definition O_ACCMODE : Z := Z.lor 3 O_PATH.
Definition BUFFER_SIZE : Z := 8192.
Definition MAX_PAYLOAD_SIZE : Z := 1024.
Definition AOS18_PORT : Z := 26718.
Definition newline : Z := 10.
Definition SERIAL : Z := 1.

(** ** libserial *)

Section serial.
Context {E : Type} `{!Env E}.

Definition serial_init : M (sos E) Z :=
  c ← con_get;
  if negb (c.(pico_socket) =? 0) then mret 0
  else
    sock ← call Pico_open [];
    con_modify (fun c => {| c with pico_socket := sock |});;
    if sock =? 0 then mret 0
    else
      err ← call Pico_bind [sock; AOS18_PORT];
      if nz err then mret 0
      else
        err ← call Pico_connect [sock; AOS18_PORT];
        if err <? 0 then mret 0 else mret SERIAL.

Definition serial_register_handler (ser : Z) : M (sos E) Z :=
  access (negb (ser =? 0));; con_modify (fun c => {| c with has_handler := true |});; mret 0.

(** Every round offers the whole buffer from its start.  The fuel is the number
    of rounds: each adds at least one byte. *)
Fixpoint send_loop (fuel : nat) (data len total : Z) : M (sos E) Z :=
  match fuel with
  | O => stuck NoFuel
  | S fuel' =>
      if total <? len then
        c ← con_get;
        sent ← call Pico_sendto [c.(pico_socket); data; len];
        if sent =? -1 then mret (-1)
        else if sent =? 0 then mret total
        else send_loop fuel' data len (s32 (total + sent))
      else mret len
  end.

Definition serial_send (ser data len : Z) : M (sos E) Z :=
  access (negb (ser =? 0));;
  c ← con_get;
  assert (negb (c.(pico_socket) =? 0));;
  send_loop (S (Z.to_nat len)) data len 0.
End serial.

(** ** The console *)

Section console.
Context {E : Type} `{!Env E, !Sched E}.

Definition console_handler (c : Z) : M (sos E) unit :=
  x ← con_get;
  when x.(reading)
    (access (x.(nbytes_read) <? BUFFER_SIZE);;
     con_modify (fun x => {| x with con_buffer := <[x.(nbytes_read) := c]> x.(con_buffer);
                                    nbytes_read := x.(nbytes_read) + 1 |});;
     when (c =? newline) (_ ← resume x.(con_curr) 0; mret tt)).

(** The receive callback of libserial: every byte of every packet that is
    there.  The fuel bounds the number of packets. *)
Fixpoint serial_recv (fuel : nat) : M (sos E) unit :=
  match fuel with
  | O => stuck NoFuel
  | S fuel' =>
      x ← con_get;
      n ← call Pico_recvfrom [x.(pico_socket); MAX_PAYLOAD_SIZE];
      l ← ext_bytes x.(pico_socket) (Z.to_nat n);
      for_each l (fun c => x ← con_get; access x.(has_handler);; console_handler c);;
      if 0 <? n then serial_recv fuel' else mret tt
  end.

Definition console_init : M (sos E) Z :=
  ser ← serial_init;
  con_modify (fun c => {| c with serial := ser |});;
  _ ← serial_register_handler ser;
  mret 0.

(** [reader] of the console of device [d]. *)
Definition console_reader (d : Z) : M (sos E) Z := t ← fs_get; deref (t.(consoles) !! d).
Definition set_reader (d r : Z) : M (sos E) unit :=
  fs_modify (fun t => {| t with consoles := <[d := r]> t.(consoles) |}).

(** [flags & O_ACCMODE == O_RDONLY] is [flags & (O_ACCMODE == O_RDONLY)]. *)
Definition console_open (d flags pid : Z) : M (sos E) Z :=
  r ← console_reader d;
  if nz (Z.land flags (zb (O_ACCMODE =? O_RDONLY))) then
    if negb (r =? 0) then mret (-1)
    else p ← proc_get pid; set_reader d p;; mret 0
  else mret 0.

Definition console_close (d pid : Z) : M (sos E) Z :=
  r ← console_reader d;
  p ← proc_get pid;
  when (r =? p) (set_reader d 0);;
  mret 0.

(** The bytes the reader gets: [msg[BUFFER_SIZE]] also has to hold the
    terminator. *)
Definition console_read (u : Z) : M (sos E) Z :=
  con_modify (fun c => {| c with reading := true |});;
  me ← get_running;
  con_modify (fun c => {| c with con_curr := me |});;
  _ ← yield;
  x ← uio_load u;
  c ← con_get;
  let i := Z.min x.(u_len) c.(nbytes_read) in
  access (i <? BUFFER_SIZE);;
  con_modify (fun c => {| c with reading := false; nbytes_read := 0 |});;
  _ ← copyin_bytes x.(u_pid) (byte_at c.(con_buffer) <$> zseq 0 (Z.to_nat i));
  mret i.

Definition console_write (u : Z) : M (sos E) Z :=
  x ← uio_load u;
  p ← proc_of x.(u_pid);
  c ← con_get;
  serial_send c.(serial) p.(shared_buf) (s32 x.(u_len)).
End console.

(** ** What is sent *)

Section spec.
Context {E : Type} `{!Env E, !Sched E}.
Implicit Types s : sos E.

(** The calls that offer [len] bytes at [data], with their results. *)
Definition offers (sock data len : Z) (rs : list Z) : list (extop * list Z * Z) :=
  (fun r => (Pico_sendto, [sock; data; len], r)) <$> rs.

(** What [serial_send] returns for given answers of the network, the first of
    them with [total] bytes already taken. *)
Fixpoint send_outcome (len total : Z) (rs : list Z) : Z :=
  match rs with
  | [] => len
  | r :: rs' => if r =? -1 then -1 else if r =? 0 then total else send_outcome len (total + r) rs'
  end.

(** The answers the loop asks for: it stops at the first that ends it. *)
Fixpoint send_answers (len total : Z) (rs : list Z) : Prop :=
  if total <? len then
    match rs with
    | [] => False
    | r :: rs' => if (r =? -1) || (r =? 0) then rs' = [] else send_answers len (total + r) rs'
    end
  else rs = [].

(** The network fails, refuses, or takes a number of bytes that fits an [int]. *)
Definition sendto_ok : Prop :=
  forall sock data len e, -1 <= (ext Pico_sendto [sock; data; len] e).1 < 2 ^ 30.

Lemma send_loop_run s fuel data len total :
  sendto_ok -> 0 <= total < 2 ^ 30 + len -> 0 <= len < 2 ^ 30 -> len - total < Z.of_nat fuel -> (0 < fuel)%nat ->
  exists rs s', send_loop fuel data len total s = Ok (send_outcome len total rs) s' /\
    send_answers len total rs /\
    s'.(trace) = reverse (offers s.(con).(pico_socket) data len rs) ++ s.(trace) /\ same_sos s s'.
Proof.
  intros Hnet. revert s total. induction fuel as [|fuel IH]; intros s total Ht Hl Hf H0; [lia|].
  cbn [send_loop]. destruct (Z.ltb_spec total len) as [Hlt|Hge].
  2:{ exists [], s. cbn. rewrite (proj2 (Z.ltb_ge _ _)) by lia. repeat split; try done. apply same_sos_refl. }
  unfold con_get. rewrite (bind_run _ _ s s.(con) s) by done.
  destruct (call_run Pico_sendto [s.(con).(pico_socket); data; len] s) as (r & s1 & Hc & Hs & Hext & Htr).
  rewrite (bind_run _ _ _ _ _ Hc). pose proof (Hnet s.(con).(pico_socket) data len s.(env)) as Hr.
  rewrite Hext in Hr. cbn in Hr.
  destruct (Z.eqb_spec r (-1)) as [->|Hr1].
  { exists [-1], s1. cbn. rewrite (proj2 (Z.ltb_lt _ _)) by lia. done. }
  destruct (Z.eqb_spec r 0) as [->|Hr0].
  { exists [0], s1. cbn. rewrite (proj2 (Z.ltb_lt _ _)) by lia. done. }
  rewrite s32_small by lia. assert (s1.(con) = s.(con)) as Hcon by (by destruct Hs as (e & t & ->)).
  destruct (decide (len <= total + r)) as [Hdone|Hmore].
  - destruct fuel as [|fuel]; [lia|]. cbn [send_loop]. rewrite (proj2 (Z.ltb_ge (total + r) len)) by lia.
    exists [r], s1. cbn. rewrite (proj2 (Z.eqb_neq _ _) Hr1), (proj2 (Z.eqb_neq _ _) Hr0),
      (proj2 (Z.ltb_lt _ _)), (proj2 (Z.ltb_ge _ _)) by lia. done.
  - destruct (IH s1 (total + r)) as (rs & s2 & Hrun & Hans & Htr2 & Hs2); [lia|lia|lia|lia|].
    exists (r :: rs), s2. cbn [send_outcome send_answers].
    rewrite (proj2 (Z.eqb_neq _ _) Hr1), (proj2 (Z.eqb_neq _ _) Hr0), (proj2 (Z.ltb_lt _ _) Hlt).
    split; [done|]. split; [done|]. split; [|by eapply same_sos_trans].
    rewrite Htr2, Htr, Hcon. unfold offers. by rewrite fmap_cons, reverse_cons, <- app_assoc.
Qed.

(** [serial_send] always returns.  Each round offers the network the whole
    buffer from its first byte, also after a round in which only a part was
    taken, and the result is the length, -1 on a failure, or the count so far
    when the network takes nothing. *)
Theorem serial_send_offers_whole_buffer (s : sos E) (ser data len : Z) :
  sendto_ok -> 0 <= len < 2 ^ 30 -> ser <> 0 -> s.(con).(pico_socket) <> 0 ->
  exists rs s', serial_send ser data len s = Ok (send_outcome len 0 rs) s' /\ send_answers len 0 rs /\
    s'.(trace) = reverse (offers s.(con).(pico_socket) data len rs) ++ s.(trace) /\ same_sos s s'.
Proof.
  intros Hnet Hl Hser Hsock. unfold serial_send. rewrite access_bind by (by rewrite (proj2 (Z.eqb_neq _ _) Hser)).
  unfold con_get. rewrite (bind_run _ _ s s.(con) s) by done.
  rewrite assert_bind by (by rewrite (proj2 (Z.eqb_neq _ _) Hsock)).
  apply send_loop_run; [done|lia|lia|lia|lia].
Qed.

(** Opening the console never fails and never records a reader: the test for
    read-only access compares two constants, so the rule that the console has
    one reader at a time is not enforced. *)
Theorem console_open_ignores_mode (s : sos E) (d r flags pid : Z) :
  s.(fs).(consoles) !! d = Some r -> console_open d flags pid s = Ok 0 s.
Proof.
  intros Hd. unfold console_open, console_reader, fs_get.
  rewrite (bind_run _ _ s r s); [|rewrite (bind_run _ _ s s.(fs) s) by done; by rewrite Hd].
  change (O_ACCMODE =? O_RDONLY) with false. cbn [zb]. by rewrite Z.land_0_r.
Qed.

(** *** Lines *)

Definition typed (c : console_state) (l : list Z) : console_state :=
  {| c with con_buffer := store_bytes c.(con_buffer) c.(nbytes_read) l;
            nbytes_read := c.(nbytes_read) + Z.of_nat (length l) |}.

Definition with_con s (c : console_state) : sos E := {| s with con := c |}.

Lemma handler_run s c :
  s.(con).(reading) = true -> s.(con).(nbytes_read) < BUFFER_SIZE -> c <> newline ->
  console_handler c s = Ok tt (with_con s (typed s.(con) [c])).
Proof.
  intros Hr Hn Hc. unfold console_handler, con_get, con_modify. rewrite (bind_run _ _ s s.(con) s) by done.
  rewrite Hr. cbn [when]. rewrite access_bind by lia. rewrite modify_bind.
  rewrite (proj2 (Z.eqb_neq _ _) Hc). done.
Qed.

(** While a reader waits, the bytes of a line are stored one after the other,
    none lost, as long as they fit the buffer; nobody is resumed before the
    newline. *)
Theorem console_handler_collects (s : sos E) (l : list Z) :
  s.(con).(reading) = true -> newline ∉ l ->
  0 <= s.(con).(nbytes_read) -> s.(con).(nbytes_read) + Z.of_nat (length l) <= BUFFER_SIZE ->
  for_each l console_handler s = Ok tt (with_con s (typed s.(con) l)) /\
  bytes_at (typed s.(con) l).(con_buffer) s.(con).(nbytes_read) (length l) = l.
Proof.
  intros Hr Hl H0 Hn. split; [|apply bytes_at_stored].
  revert s Hr H0 Hn. induction l as [|c l IH]; intros s Hr H0 Hn.
  - unfold typed. cbn. rewrite Z.add_0_r. unfold with_con. f_equal. by destruct s as [? ? ? ? ? ? ? ? ? ? ? ? ? ? []].
  - apply not_elem_of_cons in Hl as [Hc Hl]. cbn [length] in Hn. cbn [for_each].
    rewrite (bind_run _ _ _ _ _ (handler_run s c Hr ltac:(lia) (not_eq_sym Hc))).
    rewrite (IH Hl); [|done|cbn; lia|cbn [with_con con typed nbytes_read length]; lia].
    unfold with_con, typed. cbn [con con_buffer nbytes_read length store_bytes]. do 3 f_equal. lia.
Qed.
End spec.

(** ** On the concrete machine *)

Definition with_reader : sos toy :=
  {| spaced with con := mk_console 9 true 1 0 ∅ 0 true;
     fs := mk_fs ∅ ∅ ∅ ∅ {[700 := 0]} [] 0 ∅ ∅ 0 |}.

Lemma toy_sendto_ok : sendto_ok (E:=toy).
Proof. intros sock data len e. simpl. lia. Qed.

Lemma serial_send_offers_whole_buffer_witness : exists rs s',
  serial_send 1 4096 10 with_reader = Ok (send_outcome 10 0 rs) s' /\
  s'.(trace) = reverse (offers 9 4096 10 rs) ++ with_reader.(trace).
Proof.
  destruct (serial_send_offers_whole_buffer with_reader 1 4096 10 toy_sendto_ok) as (rs & s' & H & _ & Ht & _);
    [lia | lia | discriminate |].
  exists rs, s'. split; [exact H | exact Ht].
Defined.

Lemma console_open_ignores_mode_witness : console_open 700 O_RDONLY 1 with_reader = Ok 0 with_reader.
Proof. apply (console_open_ignores_mode with_reader 700 0). reflexivity. Defined.

Lemma console_handler_collects_witness :
  for_each [104; 105] console_handler with_reader = Ok tt (with_con with_reader (typed with_reader.(con) [104; 105])).
Proof.
  apply (console_handler_collects with_reader [104; 105]); [done | | done | done].
  apply (bool_decide_unpack _). vm_compute. exact I.
Defined.
