(* ===== verification/Vnode.v ===== *)
(** * Vnodes

    [sos/src/vfs/vnode.c]: reference-counted file objects.  [vn_ops] is [None]
    when it is NULL; the functions behind it are dispatched in [Nfs] and [Vfs].

    The theorems: the reference count of a vnode follows its users, and only
    the last reference reclaims it. *)
From S2P Require Import Prelude Utils Bitfield UtTable Bytes Sos Cspace Sample.

Definition SIZEOF_VNODE : Z := 24.

Section vnode.
Context {E : Type} `{!Env E}.

Definition vnode_load (v : Z) : M (sos E) vnode := t ← fs_get; deref (t.(vnodes) !! v).
Definition vnode_put (v : Z) (x : vnode) : M (sos E) unit :=
  fs_modify (fun t => {| t with vnodes := <[v := x]> t.(vnodes) |}).

Definition vnode_init (v : Z) (ops : option vnode_ops) (fsdata : Z) : M (sos E) Z :=
  assert (negb (v =? 0));;
  assert (bool_decide (is_Some ops));;
  vnode_put v (mk_vnode 1 fsdata ops);;
  mret 0.

Definition vnode_cleanup (v : Z) : M (sos E) unit :=
  x ← vnode_load v;
  assert (x.(vn_refcount) =? 1);;
  vnode_put v (mk_vnode 0 0 None).

Definition vnode_incref (v : Z) : M (sos E) unit :=
  x ← vnode_load v; vnode_put v {| x with vn_refcount := s32 (x.(vn_refcount) + 1) |}.

Definition vnode_decref (vop_reclaim : Z -> Z -> M (sos E) Z) (v pid : Z) : M (sos E) unit :=
  x ← vnode_load v;
  assert (0 <? x.(vn_refcount));;
  if 1 <? x.(vn_refcount) then vnode_put v {| x with vn_refcount := x.(vn_refcount) - 1 |}
  else _ ← vop_reclaim v pid; mret tt.

(** [vnode_check] logs what looks wrong and goes on; it reads the vnode. *)
Definition vnode_check (v : Z) : M (sos E) unit := _ ← vnode_load v; mret tt.

(** [(vn)->vn_ops] of [__VOP]. *)
Definition vop (v : Z) : M (sos E) vnode_ops := vnode_check v;; x ← vnode_load v; deref x.(vn_ops).
End vnode.

Section spec.
Context {E : Type} `{!Env E}.
Implicit Types s : sos E.

Lemma vnode_load_run s v x : s.(fs).(vnodes) !! v = Some x -> vnode_load v s = Ok x s.
Proof. intros H. unfold vnode_load, fs_get. rewrite (bind_run _ _ s s.(fs) s) by done. by rewrite H. Qed.

(** [n] references taken, then [m] given back. *)
Definition take_refs (v : Z) (n : nat) : M (sos E) unit := for_each (replicate n tt) (fun _ => vnode_incref v).
Definition drop_refs (reclaim : Z -> Z -> M (sos E) Z) (v pid : Z) (n : nat) : M (sos E) unit :=
  for_each (replicate n tt) (fun _ => vnode_decref reclaim v pid).

Definition with_refs s (v : Z) (x : vnode) (n : Z) : sos E :=
  {| s with fs := {| s.(fs) with vnodes := <[v := {| x with vn_refcount := n |}]> s.(fs).(vnodes) |} |}.

Lemma with_refs_twice s v x n m : with_refs (with_refs s v x n) v {| x with vn_refcount := n |} m = with_refs s v x m.
Proof. unfold with_refs. cbn. by rewrite insert_insert_eq. Qed.

Lemma with_refs_same s v x : s.(fs).(vnodes) !! v = Some x -> with_refs s v x x.(vn_refcount) = s.
Proof.
  intros H. unfold with_refs. rewrite insert_id by (destruct x; done). by destruct s as [? ? ? ? ? ? ? ? ? ? ? ? ? [] ?].
Qed.

Lemma take_refs_run s v x n :
  s.(fs).(vnodes) !! v = Some x -> 0 <= x.(vn_refcount) -> x.(vn_refcount) + Z.of_nat n < 2 ^ 31 ->
  take_refs v n s = Ok tt (with_refs s v x (x.(vn_refcount) + Z.of_nat n)).
Proof.
  revert s x. induction n as [|n IH]; intros s x Hv H0 Hn.
  - cbn. rewrite Z.add_0_r. by rewrite with_refs_same.
  - unfold take_refs. cbn [replicate for_each].
    rewrite (bind_run _ _ s tt (with_refs s v x (x.(vn_refcount) + 1))).
    2:{ unfold vnode_incref. rewrite (bind_run _ _ _ _ _ (vnode_load_run s v x Hv)). rewrite s32_small by lia. done. }
    etrans; [apply (IH _ {| x with vn_refcount := x.(vn_refcount) + 1 |}); cbn; [apply lookup_insert_eq|lia|lia]|].
    rewrite with_refs_twice. do 2 f_equal. cbn. lia.
Qed.

Lemma drop_refs_run s v x pid reclaim n :
  s.(fs).(vnodes) !! v = Some x -> Z.of_nat n < x.(vn_refcount) ->
  drop_refs reclaim v pid n s = Ok tt (with_refs s v x (x.(vn_refcount) - Z.of_nat n)).
Proof.
  revert s x. induction n as [|n IH]; intros s x Hv Hn.
  - cbn. rewrite Z.sub_0_r. by rewrite with_refs_same.
  - unfold drop_refs. cbn [replicate for_each].
    rewrite (bind_run _ _ s tt (with_refs s v x (x.(vn_refcount) - 1))).
    2:{ unfold vnode_decref. rewrite (bind_run _ _ _ _ _ (vnode_load_run s v x Hv)). rewrite assert_bind by lia.
        rewrite (proj2 (Z.ltb_lt 1 _)) by lia. done. }
    etrans; [apply (IH _ {| x with vn_refcount := x.(vn_refcount) - 1 |}); cbn; [apply lookup_insert_eq|lia]|].
    rewrite with_refs_twice. do 2 f_equal. cbn. lia.
Qed.

(** References to a vnode are counted: after [n] more references were taken
    and given back the vnode is as it was and was never reclaimed, and giving
    back the last reference reclaims it exactly once, with the count still 1. *)
Theorem vnode_refcount_balanced (s : sos E) (v : Z) (x : vnode) (n : nat) (pid : Z) (reclaim : Z -> Z -> M (sos E) Z) :
  s.(fs).(vnodes) !! v = Some x -> 1 <= x.(vn_refcount) -> x.(vn_refcount) + Z.of_nat n < 2 ^ 31 ->
  (take_refs v n;; drop_refs reclaim v pid n) s = Ok tt s /\
  (x.(vn_refcount) = 1 -> vnode_decref reclaim v pid s = (_ ← reclaim v pid; mret tt) s).
Proof.
  intros Hv H1 Hn. split.
  - rewrite (bind_run _ _ _ _ _ (take_refs_run s v x n Hv ltac:(lia) Hn)).
    rewrite (drop_refs_run _ v {| x with vn_refcount := x.(vn_refcount) + Z.of_nat n |});
      [|apply lookup_insert_eq|cbn; lia].
    rewrite with_refs_twice. cbn [vn_refcount]. rewrite Z.add_simpl_r. by rewrite with_refs_same.
  - intros Hx. unfold vnode_decref. rewrite (bind_run _ _ _ _ _ (vnode_load_run s v x Hv)).
    rewrite Hx. done.
Qed.
End spec.

(** ** On the concrete machine *)

Lemma vnode_refcount_balanced_witness :
  (take_refs 600 5;; drop_refs (fun _ _ => mret 0) 600 1 5) (peopled RUNNING) = Ok tt (peopled RUNNING).
Proof.
  refine (proj1 (vnode_refcount_balanced (peopled RUNNING) 600 (mk_vnode 1 700 (Some dev_vnode_ops)) 5 1
    (fun _ _ => mret 0) _ _ _)); [reflexivity | discriminate | reflexivity].
Defined.
