(* ===== verification/Device.v ===== *)
(** * Devices

    [sos/src/vfs/device_vops.c]: the vnode operations of devices.  The one
    device is the console, so the function pointers of [struct device] are the
    console's functions; [vn_data] is the device. *)
From S2P Require Import Prelude Utils Bitfield UtTable Bytes Sos Cspace CspaceSpec CspaceGrow Mapping.
From S2P Require Import UtAlloc FrameTable PageTable AddressSpace Procs SharedBuf Console Vnode.

Definition FM_EXEC : Z := 1.
Definition FM_WRITE : Z := 2.
Definition FM_READ : Z := 4.

Section device.
Context {E : Type} `{!Env E, !Sched E}.

Definition dev_eachopen (v flags pid : Z) : M (sos E) Z := x ← vnode_load v; console_open x.(vn_data) flags pid.
Definition dev_write (v u : Z) : M (sos E) Z := _ ← vnode_load v; console_write u.
Definition dev_read (v u : Z) : M (sos E) Z := _ ← vnode_load v; console_read u.
Definition dev_getdirent : M (sos E) Z := mret 0.
Definition dev_stat (v : Z) : M (sos E) (Z * option sos_stat_t) :=
  mret (0, Some (mk_stat 2 (Z.lor FM_READ FM_WRITE) 0 0 0)).
(** Nothing is stored through [*result]. *)
Definition dev_lookup : M (sos E) (Z * option Z) := mret (0, None).
Definition dev_reclaim (v pid : Z) : M (sos E) Z := x ← vnode_load v; console_close x.(vn_data) pid.

Definition dev_create_vnode (data : Z) : M (sos E) Z :=
  v ← malloc SIZEOF_VNODE;
  if v =? 0 then mret 0
  else _ ← vnode_init v (Some dev_vnode_ops) data; mret v.

Definition dev_uncreate_vnode (v : Z) : M (sos E) unit :=
  x ← vnode_load v;
  assert (bool_decide (x.(vn_ops) = Some dev_vnode_ops));;
  vnode_cleanup v;;
  fs_modify (fun t => {| t with vnodes := delete v t.(vnodes) |});;
  free v.
End device.
