(* ===== verification/Nfs.v ===== *)
(** * Files on the NFS server

    [sos/src/fs/libnfs_vops.c]: the vnode operations of files.  Every operation
    asks libnfs (external) for an asynchronous transfer, yields, and is resumed
    by the callback libnfs makes when the answer arrives.  [nfs_await] is that
    meeting point: the rest of the system runs, then the callback runs up to its
    [resume], then the operation goes on.

    The [struct nfs_data] through which an operation and its callback
    communicate is an object of [nfs_datas]; the fields a caller leaves
    uninitialised are written by the callback before they are read.  Paths are
    byte lists whose blocks are not tracked; [strcpy] into the block of [strlen(pathname)] bytes in
    [vnfs_lookup] writes its terminator one byte past the block, which the model
    does not follow.  [exit(10)] stops the server.

    The theorems: an operation of a zombie process does nothing, and every other
    operation takes back what it adds to the number of pending operations of a
    process, whatever the server answers and other coroutines do meanwhile. *)
From S2P Require Import Prelude Utils Bitfield UtTable Bytes Sos Cspace Sample CspaceSpec CspaceGrow Mapping.
From S2P Require Import UtAlloc FrameTable PageTable AddressSpace Procs SharedBuf Console Vnode.
From S2P Require Import Device.

Definition SIZEOF_NFS_DATA : Z := 64.
Definition SIZEOF_VNODE_NFS_DATA : Z := 32.

(** ["."] and [".."]. *)
Definition dot : list Z := [46].
Definition dotdot : list Z := [46; 46].

Section nfs.
Context {E : Type} `{!Env E, !Sched E}.
(** A bound on the entries of the server's directory. *)
Context (dir_entries : nat).

Definition nd_load (d : Z) : M (sos E) nfs_data := t ← fs_get; deref (t.(nfs_datas) !! d).
Definition nd_modify (d : Z) (f : nfs_data -> nfs_data) : M (sos E) unit :=
  x ← nd_load d; fs_modify (fun t => {| t with nfs_datas := <[d := f x]> t.(nfs_datas) |}).
Definition nd_alloc : M (sos E) Z :=
  d ← malloc_used SIZEOF_NFS_DATA;
  fs_modify (fun t => {| t with nfs_datas := <[d := mk_nfs_data 0 None 0 None 0 0 0]> t.(nfs_datas) |});;
  mret d.
Definition nd_free (d : Z) : M (sos E) unit :=
  fs_modify (fun t => {| t with nfs_datas := delete d t.(nfs_datas) |});; free d.

(** [v->vn_data] of a file's vnode. *)
Definition vd_load (v : Z) : M (sos E) vnode_nfs_data :=
  x ← vnode_load v; t ← fs_get; deref (t.(nfs_vdata) !! x.(vn_data)).
Definition vd_modify (v : Z) (f : vnode_nfs_data -> vnode_nfs_data) : M (sos E) unit :=
  x ← vnode_load v;
  d ← vd_load v;
  fs_modify (fun t => {| t with nfs_vdata := <[x.(vn_data) := f d]> t.(nfs_vdata) |}).

(** [d->co = get_running(); yield(NULL);] with the callback of the transfer. *)
Definition nfs_await (d : Z) (cb : Z -> Z -> Z -> M (sos E) unit) : M (sos E) unit :=
  me ← get_running;
  nd_modify d (fun x => {| x with d_co := me |});;
  _ ← yield;
  status ← call Nfs_status [d];
  data ← call Nfs_data [d];
  cb status data d.

(** ** Callbacks *)

Fixpoint dirent_loop (fuel : nat) (dir d len i : Z) : M (sos E) unit :=
  match fuel with
  | O => stuck NoFuel
  | S fuel' =>
      ent ← call Nfs_readdir [dir];
      if (ent =? 0) || (len <? i) then mret tt
      else if i =? len then
        name ← ext_str ent;
        nd_modify d (fun x => {| x with d_path := Some name; d_ret := 0 |})
      else dirent_loop fuel' dir d len (i + 1)
  end.

Definition nfs_dirent_cb (status data d : Z) : M (sos E) unit :=
  nd_modify d (fun x => {| x with d_path := None; d_ret := -1 |});;
  assert (negb (status <? 0));;
  x ← nd_load d;
  u ← uio_load x.(d_u);
  dirent_loop (Z.to_nat (u.(u_len) - x.(d_i) + 2)) data d u.(u_len) x.(d_i);;
  _ ← call Nfs_closedir [data];
  mret tt.

Definition nfs_read_cb (status data d : Z) : M (sos E) unit :=
  x ← nd_load d;
  assert (negb (status <? 0));;
  u ← uio_load x.(d_u);
  l ← ext_bytes data (Z.to_nat status);
  n ← copyin_bytes u.(u_pid) l;
  nd_modify d (fun x => {| x with d_ret := s32 n |}).

Definition nfs_write_cb (status data d : Z) : M (sos E) unit :=
  assert (negb (status <? 0));;
  nd_modify d (fun x => {| x with d_ret := status |}).

Definition nfs_close_cb (status data d : Z) : M (sos E) unit :=
  x ← nd_load d;
  _ ← vd_load x.(d_vn);
  assert (negb (status <? 0));;
  vd_modify x.(d_vn) (fun v => {| v with vd_nfsfh := 0 |});;
  nd_modify d (fun x => {| x with d_ret := 0 |}).

Definition nfs_open_cb (status data d : Z) : M (sos E) unit :=
  x ← nd_load d;
  vd_modify x.(d_vn) (fun v => {| v with vd_nfsfh := data |});;
  nd_modify d (fun x => {| x with d_ret := status |}).

(** The fields of [struct nfs_stat_64], by position. *)
Definition nfs_stat64_cb (status data d : Z) : M (sos E) unit :=
  if status <? 0 then nd_modify d (fun x => {| x with d_ret := -1 |})
  else
    atime ← call Nfs_data [data; 0]; ctime ← call Nfs_data [data; 1];
    mode ← call Nfs_data [data; 2]; size ← call Nfs_data [data; 3];
    nd_modify d (fun x => {| x with d_stat := Some (mk_stat 0 (s32 mode) (u32 size) ctime atime); d_ret := 0 |}).

(** ** Operations without transfers *)

Definition nfs_create_vnode : M (sos E) Z :=
  v ← malloc SIZEOF_VNODE;
  if v =? 0 then mret 0
  else
    data ← malloc_used SIZEOF_VNODE_NFS_DATA;
    fh ← call Uninit [];
    fs_modify (fun t => {| t with nfs_vdata := <[data := mk_vnode_nfs_data None false 0 fh]> t.(nfs_vdata) |});;
    _ ← vnode_init v (Some nfs_vnode_ops) data;
    mret v.

Definition nfs_uncreate_vnode (v : Z) : M (sos E) unit :=
  x ← vnode_load v;
  assert (bool_decide (x.(vn_ops) = Some nfs_vnode_ops));;
  fs_modify (fun t => {| t with nfs_vdata := delete x.(vn_data) t.(nfs_vdata) |});;
  free x.(vn_data);;
  vnode_cleanup v;;
  fs_modify (fun t => {| t with vnodes := delete v t.(vnodes) |});;
  free v.

Definition nfs_bootstrap : M (sos E) Z :=
  t ← fs_get;
  assert (negb (t.(nfs) =? 0));;
  v ← nfs_create_vnode;
  _ ← malloc_used 1;
  vd_modify v (fun d => {| d with vd_path := Some [] |});;
  d ← vd_load v;
  assert (d.(vd_next) =? 0);;
  mret v.

(** The device list of a directory; only the root's was set. *)
Definition dir_devices (dir : Z) : M (sos E) (list (list Z * Z)) :=
  d ← vd_load dir; access d.(dev_list);; t ← fs_get; mret t.(device_list).

Fixpoint find_name (l : list (list Z * Z)) (name : list Z) : Z :=
  match l with
  | [] => 0
  | (n, vn) :: l' => if bool_decide (name = n) then vn else find_name l' name
  end.
Definition find_device_name (dir : Z) (name : list Z) : M (sos E) Z :=
  l ← dir_devices dir; mret (find_name l name).

(** The name at position [len], and the value [*i] is left with. *)
Fixpoint find_pos (l : list (list Z * Z)) (i len : Z) : option (list Z) * Z :=
  match l with
  | [] => (None, i)
  | (n, _) :: l' => if len <? i then (None, i) else if i =? len then (Some n, i) else find_pos l' (i + 1) len
  end.
Definition find_device_pos (dir u : Z) : M (sos E) (option (list Z) * Z) :=
  l ← dir_devices dir; x ← uio_load u; mret (find_pos l 0 x.(u_len)).

(** ** Vnode operations

    [curproc->coro_count] counts the operations of a process that are pending;
    a zombie starts none. *)
Definition coro_inc (p : Z) : M (sos E) unit := proc_modify p (fun x => {| x with coro_count := x.(coro_count) + 1 |}).
Definition coro_dec (p : Z) : M (sos E) unit := proc_modify p (fun x => {| x with coro_count := x.(coro_count) - 1 |}).

Definition unless_zombie {A} (pid : Z) (dflt : A) (body : Z -> M (sos E) A) : M (sos E) A :=
  p ← proc_get pid;
  x ← proc_load p;
  if decide (x.(p_state) = ZOMBIE) then mret dflt
  else coro_inc p;; body p.

(** The end of an operation that waited: [ret = d->ret; free(d); coro_count--]. *)
Definition finish (d p : Z) : M (sos E) Z := x ← nd_load d; nd_free d;; coro_dec p;; mret x.(d_ret).

Definition vnfs_eachopen (v flags pid : Z) : M (sos E) Z :=
  unless_zombie pid 0 (fun p =>
    d ← nd_alloc;
    vnode_incref v;;
    data ← vd_load v;
    nd_modify d (fun x => {| x with d_vn := v |});;
    path ← deref data.(vd_path);
    err ← call Nfs_open (flags :: d :: path);
    if nz err then coro_dec p;; mret (-1)
    else nfs_await d nfs_open_cb;; finish d p).

Definition vnfs_write (v u : Z) : M (sos E) Z :=
  x ← uio_load u;
  unless_zombie x.(u_pid) 0 (fun p =>
    pr ← proc_load p;
    d ← nd_alloc;
    data ← vd_load v;
    nd_modify d (fun x => {| x with d_u := u |});;
    let len := share_buf_check_len (if Z.shiftl 1 14 <? x.(u_len) then Z.shiftl 1 14 else x.(u_len)) in
    uio_put u {| x with u_len := len |};;
    err ← call Nfs_pwrite [data.(vd_nfsfh); x.(u_offset); len; pr.(shared_buf); d];
    if nz err then nd_free d;; coro_dec p;; mret (-1)
    else nfs_await d nfs_write_cb;; finish d p).

Definition vnfs_read (v u : Z) : M (sos E) Z :=
  x ← uio_load u;
  unless_zombie x.(u_pid) 0 (fun p =>
    d ← nd_alloc;
    data ← vd_load v;
    nd_modify d (fun x => {| x with d_u := u |});;
    err ← call Nfs_pread [data.(vd_nfsfh); x.(u_offset); x.(u_len); d];
    if nz err then nd_free d;; coro_dec p;; mret (-1)
    else nfs_await d nfs_read_cb;; finish d p).

Definition vnfs_getdirent (dir u : Z) : M (sos E) Z :=
  x ← uio_load u;
  unless_zombie x.(u_pid) 0 (fun p =>
    assert (negb (dir =? 0));;
    r ← find_device_pos dir u;
    match r.1 with
    | Some name =>
        n ← copyin_bytes x.(u_pid) (name ++ [0]);
        assert (n =? Z.of_nat (length name) + 1);;
        coro_dec p;;
        mret (Z.of_nat (length name) + 1)
    | None =>
        d ← nd_alloc;
        nd_modify d (fun x => {| x with d_u := u; d_i := r.2 |});;
        err ← call Nfs_opendir [d];
        if nz err then nd_free d;; coro_dec p;; mret (-1)
        else
          nfs_await d nfs_dirent_cb;;
          y ← nd_load d;
          if nz y.(d_ret) then nd_free d;; coro_dec p;; mret 0
          else
            path ← deref y.(d_path);
            n ← copyin_bytes x.(u_pid) (path ++ [0]);
            assert (n =? Z.of_nat (length path) + 1);;
            nd_free d;;
            coro_dec p;;
            mret (Z.of_nat (length path) + 1)
    end).

(** Returns the result and what was stored through [statbuf], if anything. *)
Definition stat_await (d p : Z) : M (sos E) (Z * option sos_stat_t) :=
  nfs_await d nfs_stat64_cb;;
  x ← nd_load d;
  r ← finish d p;
  mret (r, x.(d_stat)).

Definition vnfs_stat (v pid : Z) : M (sos E) (Z * option sos_stat_t) :=
  unless_zombie pid (0, None) (fun p =>
    d ← nd_alloc;
    data ← vd_load v;
    path ← deref data.(vd_path);
    err ← call Nfs_stat64 (d :: path);
    if nz err then nd_free d;; coro_dec p;; mret (-1, None)
    else stat_await d p).

(** [*result]: [None] when the caller's variable was not written. *)
Definition vnfs_creat (dir : Z) (name : list Z) (pid : Z) : M (sos E) (Z * option Z) :=
  unless_zombie pid (0, None) (fun p =>
    new ← nfs_create_vnode;
    _ ← malloc_used (Z.of_nat (length name) + 1);
    d ← vd_load dir;
    vd_modify dir (fun d => {| d with vd_next := new |});;
    vd_modify new (fun x => {| x with vd_path := Some name; vd_next := d.(vd_next) |});;
    coro_dec p;;
    mret (0, Some new)).

Definition vnfs_reclaim (v pid : Z) : M (sos E) Z :=
  unless_zombie pid 0 (fun p =>
    d ← nd_alloc;
    data ← vd_load v;
    nd_modify d (fun x => {| x with d_vn := v |});;
    err ← call Nfs_close [data.(vd_nfsfh); d];
    if nz err then nd_free d;; coro_dec p;; mret (-1)
    else nfs_await d nfs_close_cb;; finish d p).

(** Dispatch through [vn_ops]; devices have no [vop_creat]. *)
Definition VOP_CREAT (dir : Z) (name : list Z) (pid : Z) : M (sos E) (Z * option Z) :=
  o ← vop dir;
  match o with nfs_vnode_ops => vnfs_creat dir name pid | dev_vnode_ops => stuck Segv end.
Definition VOP_RECLAIM (v pid : Z) : M (sos E) Z :=
  o ← vop v;
  match o with nfs_vnode_ops => vnfs_reclaim v pid | dev_vnode_ops => dev_reclaim v pid end.
Definition VOP_STAT (v pid : Z) : M (sos E) (Z * option sos_stat_t) :=
  o ← vop v;
  match o with nfs_vnode_ops => vnfs_stat v pid | dev_vnode_ops => dev_stat v end.

Fixpoint lookup_loop (fuel : nat) (dir d : Z) (path : list Z) : M (sos E) bool :=
  match fuel with
  | O => stuck NoFuel
  | S fuel' =>
      ent ← call Nfs_readdir [dir];
      if ent =? 0 then mret false
      else
        name ← ext_str ent;
        if bool_decide (name = path) then
          x ← nd_load d;
          r ← VOP_CREAT x.(d_vn) path KERNEL_PROC;
          nd_modify d (fun x => {| x with d_vn := default 0 r.2 |});;
          mret true
        else lookup_loop fuel' dir d path
  end.

Definition nfs_lookup_cb (status data d : Z) : M (sos E) unit :=
  nd_modify d (fun x => {| x with d_ret := -1 |});;
  assert (negb (status <? 0));;
  x ← nd_load d;
  path ← deref x.(d_path);
  found ← lookup_loop (S dir_entries) data d path;
  _ ← call Nfs_closedir [data];
  when found (nd_modify d (fun x => {| x with d_ret := 0 |})).

Definition nfs_create_cb (status data d : Z) : M (sos E) unit :=
  x ← nd_load d;
  vd_modify x.(d_vn) (fun v => {| v with vd_nfsfh := data |});;
  assert (negb (status <? 0));;
  vnode_incref x.(d_vn);;
  nd_modify d (fun x => {| x with d_ret := 0 |}).

(** The list of vnodes through [next]; the fuel is the number of vnodes. *)
Fixpoint find_vnode (fuel : nat) (curr : Z) (path : list Z) : M (sos E) Z :=
  match fuel with
  | O => stuck NoFuel
  | S fuel' =>
      if curr =? 0 then mret 0
      else
        d ← vd_load curr;
        p ← deref d.(vd_path);
        if bool_decide (path = p) then mret curr else find_vnode fuel' d.(vd_next) path
  end.

(** The creation of a missing file. *)
Definition create_missing (d p : Z) : M (sos E) (option Z) :=
  x ← nd_load d;
  path ← deref x.(d_path);
  r ← VOP_CREAT x.(d_vn) path KERNEL_PROC;
  new ← (match r.2 with Some n => mret n | None => call Uninit [] end);
  nd_modify d (fun x => {| x with d_vn := new |});;
  err ← call Nfs_creat (Z.lor O_RDWR O_CREAT :: d :: path);
  if nz err then
    _ ← VOP_RECLAIM new KERNEL_PROC; nd_free d;; coro_dec p;; mret None
  else
    nfs_await d nfs_create_cb;;
    x ← nd_load d;
    _ ← VOP_RECLAIM x.(d_vn) KERNEL_PROC;
    x ← nd_load d;
    mret (Some x.(d_ret)).

Definition vnfs_lookup (dir : Z) (pathname : list Z) (create : bool) (pid : Z) : M (sos E) (Z * option Z) :=
  unless_zombie pid (0, None) (fun p =>
    t ← fs_get;
    found ← find_vnode (S (S (size t.(nfs_vdata)))) dir pathname;
    if negb (found =? 0) then coro_dec p;; mret (0, Some found)
    else
      d ← nd_alloc;
      dev ← find_device_name dir pathname;
      if negb (dev =? 0) then coro_dec p;; mret (0, Some 0)
      else
        _ ← malloc_used (Z.of_nat (length pathname));
        nd_modify d (fun x => {| x with d_path := Some pathname; d_vn := dir |});;
        err ← call Nfs_opendir [d];
        if nz err then
          nd_free d;; x ← nd_load d; coro_dec p;; mret (-1, Some 0)
        else
          nfs_await d nfs_lookup_cb;;
          x ← nd_load d;
          ret ← (if nz x.(d_ret) && create then create_missing d p else mret (Some x.(d_ret)));
          match ret with
          | None => mret (-1, Some 0)
          | Some ret =>
              x ← nd_load d;
              nd_free d;;
              coro_dec p;;
              mret (ret, Some x.(d_vn))
          end).

(** [path] is the caller's buffer; [".."] is cut to ["."] in it. *)
Definition nfs_get_statbuf (dir : Z) (path : list Z) (pid : Z) : M (sos E) (Z * option sos_stat_t) :=
  unless_zombie pid (0, None) (fun p =>
    dev ← find_device_name dir path;
    if negb (dev =? 0) then coro_dec p;; r ← VOP_STAT dev pid; mret (0, r.2)
    else
      let path := if bool_decide (path = dotdot) then dot else path in
      d ← nd_alloc;
      err ← call Nfs_stat64 (d :: path);
      if nz err then coro_dec p;; nd_free d;; mret (-1, None)
      else stat_await d p).
End nfs.

(** ** Pending operations are counted correctly *)

Section count.
Context {E : Type} `{!Env E, !Sched E}.
Context (q : Z).
Implicit Types s : sos E.

(** The count of process [q]. *)
Definition count s : option Z := coro_count <$> s.(pcb).(proc_heap) !! q.

(** How a count can come from [o] to [o'] when the code at hand changes it by [k]
    in all and other coroutines run in between: each of its own changes is an
    addition, and what the others do is a run of [others]. *)
Inductive course : Z -> option Z -> option Z -> Prop :=
| course_nil o : course 0 o o
| course_own k j o o' : course k o o' -> course (k + j) o (Z.add j <$> o')
| course_others k o s r s' : course k o (count s) -> others s = Ok r s' -> course k o (count s').

Lemma course_trans j k o1 o2 o3 : course j o1 o2 -> course k o2 o3 -> course (j + k) o1 o3.
Proof.
  intros H1 H2. induction H2 as [|k i o o' _ IH|k o s r s' _ IH Hrun].
  - by rewrite Z.add_0_r.
  - rewrite Z.add_assoc. by apply course_own, IH.
  - by eapply course_others; [apply IH|].
Qed.

Lemma course_add j o : course j o (Z.add j <$> o).
Proof. apply (course_own 0 j o o), course_nil. Qed.

(** If the others leave the count alone, only the own changes remain. *)
Lemma course_quiet k o o' :
  (forall s r s', others s = Ok r s' -> count s' = count s) -> course k o o' -> o' = Z.add k <$> o.
Proof.
  intros Hq H. induction H as [o|k j o o' _ IH|k o s r s' _ IH Hrun].
  - by destruct o.
  - rewrite IH. destruct o; [cbn; f_equal; lia|done].
  - by rewrite (Hq _ _ _ Hrun).
Qed.

(** [c] itself changes the count by [k]. *)
Definition shifts {A} (k : Z) (c : M (sos E) A) : Prop :=
  forall s a s', c s = Ok a s' -> course k (count s) (count s').

Lemma shifts_bind {A B} j k (c : M (sos E) A) (f : A -> M (sos E) B) :
  shifts j c -> (forall a, shifts k (f a)) -> shifts (j + k) (mbind f c).
Proof.
  intros Hc Hf s b s' (a & s1 & H1 & H2)%bind_Ok. eapply course_trans; [by eapply Hc | by eapply Hf].
Qed.
Lemma shifts_seq {A B} k (c : M (sos E) A) (f : A -> M (sos E) B) :
  shifts 0 c -> (forall a, shifts k (f a)) -> shifts k (mbind f c).
Proof. intros. rewrite <- (Z.add_0_l k). by apply shifts_bind. Qed.
Lemma shifts_same {A} (c : M (sos E) A) : preserves (fun s s' => s'.(pcb) = s.(pcb)) c -> shifts 0 c.
Proof.
  intros H s a s' Hrun. apply H in Hrun. unfold count. rewrite Hrun. apply course_nil.
Qed.
Lemma shifts_ret {A} (a : A) : shifts 0 (mret a).
Proof. apply shifts_same. apply preserves_ret. split; [done|]. intros ???. congruence. Qed.
Lemma shifts_stuck {A} k e : shifts k (stuck e : M (sos E) A).
Proof. by intros s a s' H. Qed.

#[local] Instance same_pcb_preorder : PreOrder (fun s s' : sos E => s'.(pcb) = s.(pcb)).
Proof. split; [done|]. intros ???. congruence. Qed.

Lemma shifts_call op args : shifts 0 (call (E:=E) op args).
Proof. apply shifts_same. intros s a s' ((e & t & ->) & _)%call_inv. done. Qed.
Lemma shifts_malloc_used n : shifts 0 (malloc_used (E:=E) n).
Proof.
  unfold malloc_used, malloc. apply shifts_seq; [apply shifts_call|]. intros p.
  apply shifts_same. preserves.
Qed.
Lemma shifts_malloc n : shifts 0 (malloc (E:=E) n).
Proof. apply shifts_call. Qed.
Lemma shifts_free p : shifts 0 (free (E:=E) p).
Proof. apply shifts_seq; [apply shifts_call|intros; apply shifts_ret]. Qed.
Lemma shifts_fs_get : shifts 0 (fs_get (E:=E)).
Proof. apply shifts_same. unfold fs_get. preserves. Qed.
Lemma shifts_vm_get : shifts 0 (vm_get (E:=E)).
Proof. apply shifts_same. unfold vm_get. preserves. Qed.
Lemma shifts_fs_modify f : shifts 0 (fs_modify (E:=E) f).
Proof. apply shifts_same. by apply preserves_modify. Qed.
Lemma shifts_deref {A} (o : option A) : shifts 0 (deref o).
Proof. apply shifts_same. preserves. Qed.
Lemma shifts_assert b : shifts 0 (assert b).
Proof. apply shifts_same. preserves. Qed.
Lemma shifts_access b : shifts 0 (access b).
Proof. apply shifts_same. preserves. Qed.
Lemma shifts_proc_get pid : shifts 0 (proc_get (E:=E) pid).
Proof. apply shifts_same. unfold proc_get, pcb_get, index. preserves. Qed.
Lemma shifts_proc_load p : shifts 0 (proc_load (E:=E) p).
Proof. apply shifts_same. unfold proc_load, pcb_get. preserves. Qed.
Lemma shifts_when k b (c : M (sos E) unit) : k = 0 -> shifts 0 c -> shifts k (when b c).
Proof. intros -> H. destruct b; [done|apply shifts_ret]. Qed.

Create HintDb shifts.
#[local] Hint Resolve shifts_ret shifts_stuck shifts_call shifts_malloc_used shifts_malloc shifts_free shifts_fs_get
  shifts_vm_get shifts_fs_modify shifts_deref shifts_assert shifts_access shifts_proc_get shifts_proc_load : shifts.

Ltac shifts_step :=
  match goal with
  | |- forall _, _ => intros ?
  | |- shifts _ (mbind _ _) => apply shifts_seq
  | |- shifts _ (when _ _) => apply shifts_when; [done|]
  | |- shifts _ (let '(_, _) := ?r in _) => destruct r
  | |- shifts _ (if ?b then _ else _) => destruct b
  | |- shifts _ (match ?b with _ => _ end) => destruct b
  | |- shifts _ _ => solve [auto with shifts nocore]
  end.
Ltac shifts := repeat shifts_step.

Lemma shifts_nd_load d : shifts 0 (nd_load (E:=E) d).
Proof. unfold nd_load. shifts. Qed.
Lemma shifts_vnode_load v : shifts 0 (vnode_load (E:=E) v).
Proof. unfold vnode_load. shifts. Qed.
Lemma shifts_vnode_put v x : shifts 0 (vnode_put (E:=E) v x).
Proof. unfold vnode_put. shifts. Qed.
Lemma shifts_uio_load u : shifts 0 (uio_load (E:=E) u).
Proof. unfold uio_load. shifts. Qed.
Lemma shifts_uio_put u x : shifts 0 (uio_put (E:=E) u x).
Proof. unfold uio_put. shifts. Qed.
Lemma shifts_mem_write a l : shifts 0 (mem_write (E:=E) a l).
Proof. apply shifts_same. by apply preserves_modify. Qed.
Lemma shifts_ext_bytes p n : shifts 0 (ext_bytes (E:=E) p n).
Proof.
  unfold ext_bytes. induction (zseq 0 n) as [|i l IH]; cbn [foldr]; [apply shifts_ret|]. shifts.
Qed.
#[local] Hint Resolve shifts_nd_load shifts_vnode_load shifts_vnode_put shifts_uio_load shifts_uio_put
  shifts_mem_write shifts_ext_bytes : shifts.

Lemma shifts_copyin pid l : shifts 0 (copyin_bytes (E:=E) pid l).
Proof. unfold copyin_bytes, get_buf_from_pid. shifts. Qed.
Lemma shifts_nd_modify d f : shifts 0 (nd_modify (E:=E) d f).
Proof. unfold nd_modify. shifts. Qed.
Lemma shifts_nd_alloc : shifts 0 (nd_alloc (E:=E)).
Proof. unfold nd_alloc. shifts. Qed.
Lemma shifts_nd_free d : shifts 0 (nd_free (E:=E) d).
Proof. unfold nd_free. shifts. Qed.
Lemma shifts_vd_load v : shifts 0 (vd_load (E:=E) v).
Proof. unfold vd_load. shifts. Qed.
#[local] Hint Resolve shifts_copyin shifts_nd_modify shifts_nd_alloc shifts_nd_free shifts_vd_load : shifts.
Lemma shifts_vd_modify v f : shifts 0 (vd_modify (E:=E) v f).
Proof. unfold vd_modify. shifts. Qed.
Lemma shifts_ext_str p : shifts 0 (ext_str (E:=E) p).
Proof. unfold ext_str. shifts. Qed.
Lemma shifts_incref v : shifts 0 (vnode_incref (E:=E) v).
Proof. unfold vnode_incref. shifts. Qed.
Lemma shifts_vop v : shifts 0 (vop (E:=E) v).
Proof. unfold vop, vnode_check. shifts. Qed.
Lemma shifts_dir_devices v : shifts 0 (dir_devices (E:=E) v).
Proof. unfold dir_devices. shifts. Qed.
Lemma shifts_create_vnode : shifts 0 (nfs_create_vnode (E:=E)).
Proof. unfold nfs_create_vnode, vnode_init. shifts. Qed.
#[local] Hint Resolve shifts_vd_modify shifts_ext_str shifts_incref shifts_vop shifts_dir_devices
  shifts_create_vnode : shifts.

(** *** The counter itself *)

Definition delta (p : Z) : Z := if decide (p = q) then 1 else 0.

Lemma shifts_proc_modify p f k :
  (forall x, (f x).(coro_count) = x.(coro_count) + k) -> shifts (delta p * k) (proc_modify (E:=E) p f).
Proof.
  intros Hf s a s' H. unfold proc_modify in H. apply bind_Ok in H as (x & s1 & H1 & H).
  unfold proc_load, pcb_get in H1. run_inv H1. unfold pcb_modify in H. run_inv H.
  match goal with |- course ?j ?o ?o' => assert (o' = Z.add j <$> o) as -> end; [|apply course_add].
  unfold count, delta. cbn [pcb proc_heap]. case_decide as Hd.
  - subst p. rewrite lookup_insert_eq, H1. cbn. f_equal. rewrite Hf. lia.
  - rewrite lookup_insert_ne by done. by destruct (_ !! q).
Qed.
Lemma shifts_coro_inc p : shifts (delta p) (coro_inc (E:=E) p).
Proof. rewrite <- (Z.mul_1_r (delta p)). by apply shifts_proc_modify. Qed.
Lemma shifts_coro_dec p : shifts (- delta p) (coro_dec (E:=E) p).
Proof. replace (- delta p) with (delta p * -1) by lia. apply shifts_proc_modify. intros. cbn. lia. Qed.

(** The end of an operation: the counter goes down, then nothing changes it. *)
Lemma shifts_dec_then {A} p (k : unit -> M (sos E) A) :
  (forall u, shifts 0 (k u)) -> shifts (- delta p) (mbind k (coro_dec p)).
Proof. intros Hk. rewrite <- (Z.add_0_r (- delta p)). by apply shifts_bind; [apply shifts_coro_dec|]. Qed.

Lemma shifts_unless_zombie {A} pid (dflt : A) body :
  (forall p, shifts (- delta p) (body p)) -> shifts 0 (unless_zombie (E:=E) pid dflt body).
Proof.
  intros Hb. unfold unless_zombie. apply shifts_seq; [shifts|]. intros p. apply shifts_seq; [shifts|].
  intros x. destruct (decide _); [shifts|]. rewrite <- (Z.add_opp_diag_r (delta p)).
  apply shifts_bind; [apply shifts_coro_inc|]. intros. apply Hb.
Qed.

Ltac shifts_op_step :=
  match goal with
  | |- shifts _ (mbind _ (coro_dec _)) => apply shifts_dec_then
  | |- shifts _ (unless_zombie _ _ _) => apply shifts_unless_zombie
  | _ => shifts_step
  end.
Ltac shifts_op := repeat shifts_op_step.

Lemma shifts_others : shifts 0 others.
Proof. intros s r s' Hrun. eapply course_others; [apply course_nil|done]. Qed.
#[local] Hint Resolve shifts_others : shifts.

Lemma shifts_get_running : shifts 0 (get_running (E:=E)).
Proof. apply shifts_same. unfold get_running, pcb_get. preserves. Qed.
Lemma shifts_running f : shifts 0 (pcb_modify (E:=E) (fun t => {| t with running := f |})).
Proof. intros s a s' H. unfold pcb_modify in H. run_inv H. apply course_nil. Qed.
#[local] Hint Resolve shifts_get_running shifts_running : shifts.

Lemma shifts_yield : shifts 0 yield.
Proof. unfold yield. shifts. Qed.
#[local] Hint Resolve shifts_yield : shifts.

Lemma shifts_await d cb : (forall status data, shifts 0 (cb status data d)) -> shifts 0 (nfs_await d cb).
Proof. intros Hcb. unfold nfs_await. shifts. Qed.

Lemma shifts_finish d p : shifts (- delta p) (finish (E:=E) d p).
Proof. unfold finish. shifts_op. Qed.
#[local] Hint Resolve shifts_finish : shifts.

Lemma shifts_open_cb status data d : shifts 0 (nfs_open_cb (E:=E) status data d).
Proof. unfold nfs_open_cb. shifts. Qed.
Lemma shifts_read_cb status data d : shifts 0 (nfs_read_cb (E:=E) status data d).
Proof. unfold nfs_read_cb. shifts. Qed.
Lemma shifts_write_cb status data d : shifts 0 (nfs_write_cb (E:=E) status data d).
Proof. unfold nfs_write_cb. shifts. Qed.
Lemma shifts_close_cb status data d : shifts 0 (nfs_close_cb (E:=E) status data d).
Proof. unfold nfs_close_cb. shifts. Qed.
Lemma shifts_stat64_cb status data d : shifts 0 (nfs_stat64_cb (E:=E) status data d).
Proof. unfold nfs_stat64_cb. shifts. Qed.
Lemma shifts_create_cb status data d : shifts 0 (nfs_create_cb (E:=E) status data d).
Proof. unfold nfs_create_cb. shifts. Qed.
Lemma shifts_dirent_cb status data d : shifts 0 (nfs_dirent_cb (E:=E) status data d).
Proof.
  unfold nfs_dirent_cb. shifts.
  assert (forall fuel i len, shifts 0 (dirent_loop (E:=E) fuel data d len i)) as Hloop; [|apply Hloop].
  induction fuel as [|fuel IH]; intros i len; cbn [dirent_loop]; shifts. 
Qed.

#[local] Hint Resolve shifts_await shifts_open_cb shifts_read_cb shifts_write_cb shifts_close_cb shifts_stat64_cb
  shifts_create_cb shifts_dirent_cb : shifts.

Lemma shifts_eachopen v flags pid : shifts 0 (vnfs_eachopen v flags pid).
Proof. unfold vnfs_eachopen. shifts_op. Qed.
Lemma shifts_write v u : shifts 0 (vnfs_write v u).
Proof. unfold vnfs_write. shifts_op. Qed.
Lemma shifts_read v u : shifts 0 (vnfs_read v u).
Proof. unfold vnfs_read. shifts_op. Qed.
Lemma shifts_getdirent v u : shifts 0 (vnfs_getdirent v u).
Proof. unfold vnfs_getdirent, find_device_pos. shifts_op. Qed.
Lemma shifts_stat_await d p : shifts (- delta p) (stat_await d p).
Proof.
  unfold stat_await. apply shifts_seq; [shifts|]. intros. apply shifts_seq; [shifts|]. intros.
  rewrite <- (Z.add_0_r (- delta p)). apply shifts_bind; [shifts|]. shifts.
Qed.
#[local] Hint Resolve shifts_stat_await : shifts.
Lemma shifts_stat v pid : shifts 0 (vnfs_stat v pid).
Proof. unfold vnfs_stat. shifts_op. Qed.
Lemma shifts_creat dir name pid : shifts 0 (vnfs_creat (E:=E) dir name pid).
Proof. unfold vnfs_creat. shifts_op. Qed.
Lemma shifts_reclaim v pid : shifts 0 (vnfs_reclaim v pid).
Proof. unfold vnfs_reclaim. shifts_op. Qed.
#[local] Hint Resolve shifts_stat shifts_creat shifts_reclaim : shifts.

Lemma shifts_VOP_CREAT dir name pid : shifts 0 (VOP_CREAT (E:=E) dir name pid).
Proof. unfold VOP_CREAT. shifts. Qed.
Lemma shifts_VOP_RECLAIM v pid : shifts 0 (VOP_RECLAIM v pid).
Proof. unfold VOP_RECLAIM, dev_reclaim, console_close, console_reader, set_reader. shifts. Qed.
Lemma shifts_VOP_STAT v pid : shifts 0 (VOP_STAT v pid).
Proof. unfold VOP_STAT, dev_stat. shifts. Qed.
#[local] Hint Resolve shifts_VOP_CREAT shifts_VOP_RECLAIM shifts_VOP_STAT : shifts.

Lemma shifts_find_vnode fuel curr path : shifts 0 (find_vnode (E:=E) fuel curr path).
Proof. revert curr. induction fuel as [|fuel IH]; intros curr; cbn [find_vnode]; shifts. Qed.
Lemma shifts_lookup_cb n status data d : shifts 0 (nfs_lookup_cb (E:=E) n status data d).
Proof.
  unfold nfs_lookup_cb. shifts.
  assert (forall fuel path, shifts 0 (lookup_loop (E:=E) fuel data d path)) as Hloop; [|apply Hloop].
  induction fuel as [|fuel IH]; intros path; cbn [lookup_loop]; shifts.
Qed.
#[local] Hint Resolve shifts_find_vnode shifts_lookup_cb : shifts.

(** The creation of a missing file ends the operation itself when the server
    cannot be asked ([None]). *)
Definition ends (p : Z) (c : M (sos E) (option Z)) : Prop :=
  forall s r s', c s = Ok r s' -> course (match r with None => - delta p | Some _ => 0 end) (count s) (count s').

Lemma ends_seq {A} p (c : M (sos E) A) f : shifts 0 c -> (forall a, ends p (f a)) -> ends p (mbind f c).
Proof.
  intros Hc Hf s r s' (a & s1 & H1 & H2)%bind_Ok. apply Hc in H1. apply Hf in H2.
  exact (course_trans 0 _ _ _ _ H1 H2).
Qed.
Lemma ends_some p r : ends p (mret (Some r)).
Proof. intros s a s' H. injection H as <- <-. apply course_nil. Qed.
Lemma ends_none p : ends p (coro_dec p;; mret None).
Proof.
  intros s a s' (u & s1 & H1 & H2)%bind_Ok. injection H2 as <- <-. by apply (shifts_coro_dec p) in H1.
Qed.

Lemma ends_create_missing d p : ends p (create_missing d p).
Proof.
  unfold create_missing. do 5 (apply ends_seq; [shifts|]; intros ?).
  apply ends_seq; [shifts|]. intros err. destruct (nz err).
  - do 2 (apply ends_seq; [shifts|]; intros ?). apply ends_none.
  - do 4 (apply ends_seq; [shifts|]; intros ?). apply ends_some.
Qed.

Lemma shifts_ends {B} p c (f : option Z -> M (sos E) B) :
  ends p c -> shifts 0 (f None) -> (forall r, shifts (- delta p) (f (Some r))) -> shifts (- delta p) (mbind f c).
Proof.
  intros Hc Hn Hs s b s' (r & s1 & H1 & H2)%bind_Ok. apply Hc in H1.
  destruct r as [r|]; [apply Hs in H2 | apply Hn in H2]; pose proof (course_trans _ _ _ _ _ H1 H2) as H.
  - exact H.
  - by rewrite Z.add_0_r in H.
Qed.

Lemma shifts_lookup n dir path create pid : shifts 0 (vnfs_lookup n dir path create pid).
Proof.
  unfold vnfs_lookup, find_device_name. apply shifts_unless_zombie. intros p.
  do 2 (apply shifts_seq; [shifts|]; intros ?). case_if; [shifts_op|].
  do 2 (apply shifts_seq; [shifts|]; intros ?). case_if; [shifts_op|].
  do 3 (apply shifts_seq; [shifts|]; intros ?). case_if; [shifts_op|].
  do 2 (apply shifts_seq; [shifts|]; intros ?). apply shifts_ends; [|shifts|intros; shifts_op].
  case_if; [apply ends_create_missing | apply ends_some].
Qed.

Lemma shifts_get_statbuf dir path pid : shifts 0 (nfs_get_statbuf dir path pid).
Proof. unfold nfs_get_statbuf, find_device_name. shifts_op. Qed.

(** Over a run of [c] that returns, the changes [c] makes to the count cancel out:
    what is left is what other coroutines have done while it waited, so the count
    is as it was if they leave it alone. *)
Definition balanced {A} (c : M (sos E) A) : Prop :=
  forall s a s', c s = Ok a s' ->
    course 0 (count s) (count s') /\
    ((forall s r s', others s = Ok r s' -> count s' = count s) -> count s' = count s).

Lemma shifts_balanced {A} (c : M (sos E) A) : shifts 0 c -> balanced c.
Proof.
  intros Hc s a s' Hrun. apply Hc in Hrun. split; [done|]. intros Hq. rewrite (course_quiet _ _ _ Hq Hrun).
  by destruct (count s).
Qed.

End count.

(** A zombie starts no transfer: every file operation on behalf of a process
    that is a zombie returns at once with 0 and changes nothing. *)
Theorem zombie_starts_nothing {E} `{!Env E, !Sched E} (s : sos E) (n : nat) (v u flags pid p : Z) (x : proc) (y : uio)
    (path : list Z) (create : bool) :
  0 <= pid -> s.(pcb).(procs) !! Z.to_nat pid = Some p -> s.(pcb).(proc_heap) !! p = Some x ->
  x.(p_state) = ZOMBIE -> s.(fs).(uios) !! u = Some y -> y.(u_pid) = pid ->
  vnfs_eachopen v flags pid s = Ok 0 s /\ vnfs_write v u s = Ok 0 s /\ vnfs_read v u s = Ok 0 s /\
  vnfs_getdirent v u s = Ok 0 s /\ vnfs_stat v pid s = Ok (0, None) s /\ vnfs_reclaim v pid s = Ok 0 s /\
  vnfs_lookup n v path create pid s = Ok (0, None) s.
Proof.
  intros Hpid Hp Hx Hz Hu Hy.
  assert (forall A (dflt : A) body, unless_zombie pid dflt body s = Ok dflt s) as Hun.
  { intros A dflt body. unfold unless_zombie. rewrite (bind_run _ _ _ _ _ (proc_get_run s pid p Hpid Hp)).
    rewrite (bind_run _ _ _ _ _ (proc_load_run s p x Hx)). by rewrite decide_True. }
  assert (uio_load u s = Ok y s) as Hload.
  { unfold uio_load, fs_get. rewrite (bind_run _ _ s s.(fs) s) by done. by rewrite Hu. }
  unfold vnfs_eachopen, vnfs_write, vnfs_read, vnfs_getdirent, vnfs_stat, vnfs_reclaim, vnfs_lookup.
  rewrite !(bind_run _ _ _ _ _ Hload), Hy, !Hun. done.
Qed.

(** ** On the concrete machine *)

Lemma zombie_starts_nothing_witness :
  vnfs_write 601 77 (peopled ZOMBIE) = Ok 0 (peopled ZOMBIE).
Proof.
  refine (proj1 (proj2 (zombie_starts_nothing (peopled ZOMBIE) 0 601 77 0 1 9000 (sample_proc ZOMBIE)
    (mk_uio UIO_WRITE 10 0 1) [] false _ _ _ _ _ _))); (reflexivity || discriminate).
Defined.
