(* ===== verification/Vfs.v ===== *)
(** * The virtual file system and file tables

    [sos/src/vfs/vfs.c], the [VOP_*] macros of [vnode.h] and
    [sos/src/syscall/filetable.c]: names are looked up among the devices first
    and then on the NFS server; a process has [PROCESS_MAX_FILES] open files.

    The theorems: where a name leads, and that [fdt_place] takes the lowest free
    descriptor, refuses only a full table and leaves the others alone. *)
From S2P Require Import Prelude Utils Bitfield UtTable Bytes Sos Cspace Sample CspaceSpec CspaceGrow Mapping.
From S2P Require Import UtAlloc FrameTable PageTable AddressSpace Procs SharedBuf Console Vnode.
From S2P Require Import Device Nfs.

Definition PROCESS_MAX_FILES : Z := 16.
Definition N_NAME : Z := 32.
Definition SIZEOF_DEVICE_ENTRY : Z := 48.
Definition SIZEOF_DEVICE : Z := 40.
Definition SIZEOF_CONSOLE : Z := 8.
Definition SIZEOF_FILETABLE : Z := 128.
Definition SIZEOF_OPEN_FILE : Z := 32.
(** "console" *)
Definition console_name : list Z := [99; 111; 110; 115; 111; 108; 101].

Section vfs.
Context {E : Type} `{!Env E, !Sched E}.
Context (dir_entries : nat).

(** ** Dispatch *)

Definition VOP_EACHOPEN (v flags pid : Z) : M (sos E) Z :=
  o ← vop v;
  match o with nfs_vnode_ops => vnfs_eachopen v flags pid | dev_vnode_ops => dev_eachopen v flags pid end.
Definition VOP_READ (v u : Z) : M (sos E) Z :=
  o ← vop v; match o with nfs_vnode_ops => vnfs_read v u | dev_vnode_ops => dev_read v u end.
Definition VOP_WRITE (v u : Z) : M (sos E) Z :=
  o ← vop v; match o with nfs_vnode_ops => vnfs_write v u | dev_vnode_ops => dev_write v u end.
Definition VOP_GETDIRENTRY (v u : Z) : M (sos E) Z :=
  o ← vop v; match o with nfs_vnode_ops => vnfs_getdirent v u | dev_vnode_ops => dev_getdirent end.
Definition VOP_LOOKUP (v : Z) (name : list Z) (create : bool) (pid : Z) : M (sos E) (Z * option Z) :=
  o ← vop v;
  match o with
  | nfs_vnode_ops => vnfs_lookup dir_entries v name create pid
  | dev_vnode_ops => dev_lookup
  end.
Definition VOP_DECREF (v pid : Z) : M (sos E) unit := vnode_decref VOP_RECLAIM v pid.

(** ** vfs.c *)

Definition find_device (name : list Z) : M (sos E) Z := t ← fs_get; mret (find_name t.(device_list) name).

(** The result and [*retval], [None] if it was not written. *)
Definition vfs_lookup (path : list Z) (create : bool) (pid : Z) : M (sos E) (Z * option Z) :=
  startvn ← find_device path;
  if negb (startvn =? 0) then mret (0, Some startvn)
  else
    t ← fs_get;
    match path with
    | [] => mret (0, Some t.(vfs_root))
    | _ => VOP_LOOKUP t.(vfs_root) path create pid
    end.

Definition vfs_open (path : list Z) (mode pid : Z) : M (sos E) (Z * option Z) :=
  r ← vfs_lookup path true pid;
  if nz r.1 then mret (1, None)
  else
    res ← deref r.2;
    err ← VOP_EACHOPEN res mode pid;
    if nz err then mret (1, None) else mret (0, Some res).

Definition vfs_close (v pid : Z) : M (sos E) unit := VOP_DECREF v pid.

Definition vfs_bootstrap : M (sos E) unit :=
  _ ← malloc_used SIZEOF_DEVICE_ENTRY;
  dev ← malloc_used SIZEOF_DEVICE;
  _ ← malloc_used SIZEOF_CONSOLE;
  fs_modify (fun t => {| t with consoles := <[dev := 0]> t.(consoles) |});;
  vn ← dev_create_vnode dev;
  fs_modify (fun t => {| t with device_list := [(console_name, vn)] |});;
  _ ← console_init;
  root ← nfs_bootstrap;
  fs_modify (fun t => {| t with vfs_root := root |});;
  vd_modify root (fun d => {| d with dev_list := true |}).

(** ** filetable.c *)

Definition fdt_load (f : Z) : M (sos E) (list Z) := t ← fs_get; deref (t.(filetables) !! f).
Definition fdt_put (f : Z) (l : list Z) : M (sos E) unit :=
  fs_modify (fun t => {| t with filetables := <[f := l]> t.(filetables) |}).
Definition fdt_set (f i v : Z) : M (sos E) unit :=
  l ← fdt_load f; _ ← index l i; fdt_put f (<[Z.to_nat i := v]> l).
Definition of_load (p : Z) : M (sos E) open_file := t ← fs_get; deref (t.(open_files) !! p).
Definition of_put (p : Z) (x : open_file) : M (sos E) unit :=
  fs_modify (fun t => {| t with open_files := <[p := x]> t.(open_files) |}).
Definition of_free (p : Z) : M (sos E) unit :=
  fs_modify (fun t => {| t with open_files := delete p t.(open_files) |});; free p.

Definition fdt_create : M (sos E) Z :=
  f ← malloc_used SIZEOF_FILETABLE;
  fdt_put f (replicate (Z.to_nat PROCESS_MAX_FILES) 0);;
  mret f.

Definition fdt_destroy (f pid : Z) : M (sos E) unit :=
  for_each (zseq 0 (Z.to_nat PROCESS_MAX_FILES)) (fun i =>
    l ← fdt_load f;
    p ← index l i;
    when (negb (p =? 0))
      (x ← of_load p;
       _ ← VOP_RECLAIM x.(of_vn) pid;
       l ← fdt_load f;
       p ← index l i;
       of_free p;;
       fdt_set f i 0));;
  fs_modify (fun t => {| t with filetables := delete f t.(filetables) |});;
  free f.

(** The first NULL entry from position [i] on. *)
Fixpoint free_slot (l : list Z) (i : Z) : option Z :=
  match l with
  | [] => None
  | p :: l' => if p =? 0 then Some i else free_slot l' (i + 1)
  end.

(** The result and [*fd_ret]. *)
Definition fdt_place (f v mode : Z) : M (sos E) (Z * option Z) :=
  p ← malloc_used SIZEOF_OPEN_FILE;
  of_put p (mk_open_file v 0 mode 1);;
  l ← fdt_load f;
  match free_slot l 0 with
  | Some i => fdt_set f i p;; mret (0, Some i)
  | None => of_free p;; mret (-1, None)
  end.

(** Always reports failure. *)
Definition fdt_placeat (f v mode fd : Z) : M (sos E) Z :=
  p ← malloc_used SIZEOF_OPEN_FILE;
  of_put p (mk_open_file v 0 mode 1);;
  fdt_set f fd p;;
  mret (-1).
End vfs.

(** ** Theorems *)

Lemma free_slot_spec l i :
  match free_slot l i with
  | Some j => i <= j < i + Z.of_nat (length l) /\ l !! Z.to_nat (j - i) = Some 0 /\
              forall k x, (k < Z.to_nat (j - i))%nat -> l !! k = Some x -> x <> 0
  | None => Forall (fun x => x <> 0) l
  end.
Proof.
  revert i. induction l as [|p l IH]; intros i; cbn [free_slot]; [done|].
  destruct (Z.eqb_spec p 0) as [->|Hp].
  - cbn [length]. split; [lia|]. replace (i - i) with 0 by lia. split; [done|]. intros k x Hk. lia.
  - specialize (IH (i + 1)). destruct (free_slot l (i + 1)) as [j|].
    + destruct IH as (Hj & Hl & Hk). cbn [length]. split; [lia|].
      replace (Z.to_nat (j - i)) with (S (Z.to_nat (j - (i + 1)))) by lia. split; [done|].
      intros [|k] x Hlt; cbn; [by intros [= <-]|]. apply Hk. lia.
    + by constructor.
Qed.

Section spec.
Context {E : Type} `{!Env E, !Sched E}.
Implicit Types s : sos E.

Lemma fdt_load_run s f l : s.(fs).(filetables) !! f = Some l -> fdt_load f s = Ok l s.
Proof. intros H. unfold fdt_load, fs_get. rewrite (bind_run _ _ s s.(fs) s) by done. by rewrite H. Qed.

Lemma fdt_set_run s f l i v :
  s.(fs).(filetables) !! f = Some l -> 0 <= i < Z.of_nat (length l) ->
  fdt_set f i v s = Ok tt {| s with fs := {| s.(fs) with filetables := <[f := <[Z.to_nat i := v]> l]> s.(fs).(filetables) |} |}.
Proof.
  intros Hf Hi. unfold fdt_set. rewrite (bind_run _ _ _ _ _ (fdt_load_run s f l Hf)). unfold index.
  destruct (lookup_lt_is_Some_2 l (Z.to_nat i)) as [x Hx]; [lia|].
  rewrite (bind_run _ _ s x s); [done|]. rewrite access_bind by lia. by rewrite Hx.
Qed.

(** [fdt_place] puts a new open file, at offset 0 and with the mode given,
    at the lowest free descriptor of the table, and leaves every other
    descriptor and every other open file alone; it reports failure exactly when
    no descriptor is free, and then leaves no open file behind. *)
Theorem fdt_place_lowest (s : sos E) (f v mode p : Z) (e : E) (l : list Z) :
  ext Malloc [SIZEOF_OPEN_FILE] s.(env) = (p, e) -> p <> 0 -> s.(fs).(open_files) !! p = None ->
  s.(fs).(filetables) !! f = Some l ->
  exists s' r, fdt_place f v mode s = Ok r s' /\
  match r with
  | (0, Some fd) => 0 <= fd < Z.of_nat (length l) /\ l !! Z.to_nat fd = Some 0 /\
      (forall k x, (k < Z.to_nat fd)%nat -> l !! k = Some x -> x <> 0) /\
      s'.(fs).(filetables) = <[f := <[Z.to_nat fd := p]> l]> s.(fs).(filetables) /\
      s'.(fs).(open_files) = <[p := mk_open_file v 0 mode 1]> s.(fs).(open_files)
  | (r, o) => r = -1 /\ o = None /\ Forall (fun x => x <> 0) l /\
      s'.(fs).(filetables) = s.(fs).(filetables) /\ s'.(fs).(open_files) = s.(fs).(open_files)
  end.
Proof.
  intros Hext Hp Hfresh Hf. unfold fdt_place, malloc_used, malloc.
  set (s1 := {| s with env := e; trace := (Malloc, [SIZEOF_OPEN_FILE], p) :: s.(trace) |}).
  rewrite (bind_run _ _ s p s1).
  2:{ rewrite (bind_run _ _ s p s1) by (unfold call; by rewrite Hext).
      rewrite access_bind; [done|]. by rewrite (proj2 (Z.eqb_neq _ _) Hp). }
  unfold of_put, fs_modify. rewrite modify_bind. set (s2 := {| s1 with fs := _ |}).
  rewrite (bind_run _ _ _ _ _ (fdt_load_run s2 f l Hf)). pose proof (free_slot_spec l 0) as Hfree.
  destruct (free_slot l 0) as [i|].
  - destruct Hfree as (Hi & Hl & Hk). rewrite Z.sub_0_r in Hl, Hk.
    rewrite (bind_run _ _ _ _ _ (fdt_set_run s2 f l i p Hf ltac:(lia))). eexists _, (0, Some i).
    split; [done|]. split; [lia|]. done.
  - unfold of_free, fs_modify, free, mbind, M_bind, modify, call, mret, M_ret.
    destruct (ext Dealloc [p] _) as [r e']. eexists _, (-1, None). split; [done|].
    split; [done|]. split; [done|]. split; [done|]. split; [done|].
    cbn [fs open_files s2]. by rewrite delete_insert_id.
Qed.

(** A name is looked up among the devices first: the name of a device leads
    to its vnode without asking the server, the empty name to the root, and only
    other names to the NFS server. *)
Theorem vfs_lookup_devices_first (s : sos E) (n : nat) (path : list Z) (create : bool) (pid : Z) :
  let dev := find_name s.(fs).(device_list) path in
  vfs_lookup n path create pid s =
  if negb (dev =? 0) then Ok (0, Some dev) s
  else match path with
       | [] => Ok (0, Some s.(fs).(vfs_root)) s
       | _ => VOP_LOOKUP n s.(fs).(vfs_root) path create pid s
       end.
Proof.
  unfold vfs_lookup, find_device, fs_get. cbv zeta.
  rewrite (bind_run _ _ s (find_name s.(fs).(device_list) path) s) by done.
  case_if; [done|]. rewrite (bind_run _ _ s s.(fs) s) by done. by destruct path.
Qed.
End spec.

(** ** On the concrete machine *)

Lemma fdt_place_lowest_witness : exists s', fdt_place 800 600 1 (peopled RUNNING) = Ok (0, Some 2) s'.
Proof.
  destruct (fdt_place_lowest (peopled RUNNING) 800 600 1 65536 (mk_toy 69632) [3000; 3001; 0; 0])
    as (s' & r & Hrun & _); [reflexivity | discriminate | reflexivity | reflexivity |].
  exists s'. rewrite Hrun. f_equal. assert (value (Ok r s') = Some (0, Some 2)) as Hv; [|by injection Hv].
  rewrite <- Hrun. vm_compute. reflexivity.
Defined.
