(* ===== verification/Pager.v ===== *)
(** * The pager

    [sos/src/vm/pager.c]: frames are written to slots of a page file, and the
    page-table entry of the page then holds the slot.  Free slots below
    [pf_size] are kept in a list.

    The theorems: slots are handed out at most once at a time ([pf_inv]: the
    slots below [pf_size] are used or in the list, never both); returning a slot
    always succeeds and always terminates; up to the transfer itself, [pageout]
    puts the contents of the frame into the kernel's buffer and the slot into
    the page table, and [pagein] asks for that slot again. *)
From S2P Require Import Prelude Utils Bitfield UtTable Bytes Sos Cspace Sample CspaceSpec CspaceGrow Mapping.
From S2P Require Import UtAlloc FrameTable FrameClock PageTable FrameSpec PageSpec AddressSpace.
From S2P Require Import Procs SharedBuf Console Vnode Device Nfs Vfs.

Definition SIZEOF_PAGEFILE_NODE : Z := 16.
Definition SIZEOF_PAGEFILE_LIST : Z := 16.
(** "pagefile" *)
Definition pagefile_name : list Z := [112; 97; 103; 101; 102; 105; 108; 101].

Section pager.
Context {E : Type} `{!Env E, !Sched E}.
Context (dir_entries : nat).

Definition pagefile_open : M (sos E) Z :=
  r ← vfs_open dir_entries pagefile_name O_RDWR KERNEL_PROC;
  (match r.2 with Some v => vm_modify (fun x => {| x with pf_vnode := v |}) | None => mret tt end);;
  mret r.1.

Definition next_free_node : M (sos E) Z :=
  v ← vm_get;
  match v.(pf_free) with
  | (node, ind) :: rest => vm_modify (fun v => {| v with pf_free := rest |});; free node;; mret ind
  | [] => vm_modify (fun v => {| v with pf_size := u64 (v.(pf_size) + 1) |});; mret v.(pf_size)
  end.

(** The node is written before the test for NULL.  The loop does not advance:
    it inserts in its first round or never ends. *)
Definition add_free_list (entry : Z) : M (sos E) Z :=
  p ← malloc_used SIZEOF_PAGEFILE_NODE;
  v ← vm_get;
  match v.(pf_free) with
  | [] => vm_modify (fun v => {| v with pf_free := [(p, entry)] |});; mret 0
  | (h, ind) :: rest =>
      if entry <=? ind then vm_modify (fun v => {| v with pf_free := (p, entry) :: (h, ind) :: rest |});; mret 0
      else if (ind <=? entry) || bool_decide (rest = [])
      then vm_modify (fun v => {| v with pf_free := (h, ind) :: (p, entry) :: rest |});; mret 0
      else stuck NoFuel
  end.

Definition pageout (page : Z) : M (sos E) Z :=
  v ← vm_get;
  failed ← (if v.(pf_vnode) =? 0 then r ← pagefile_open; mret (nz r) else mret false);
  if (failed : bool) then mret (-1)
  else
    o ← get_frame page;
    page ← deref o;
    fte ← fte_get page;
    assert ((0 <=? fte.(fte_pid)) && (fte.(fte_pid) <=? MAX_PROCESSES));;
    assert (negb fte.(fte_important));;
    p ← proc_of fte.(fte_pid);
    a ← as_get p.(p_as);
    pte ← page_lookup a.(as_pt) fte.(fte_user_vaddr);
    assert (bool_decide (is_Some pte));;
    pte ← deref pte;
    ind ← next_free_node;
    word_put pte.1 pte.2 (page_update_entry P_PAGEFILE ind);;
    w ← word_get pte.1 pte.2;
    assert (page_entry_number w =? ind);;
    u ← malloc SIZEOF_UIO;
    uio_init u UIO_WRITE PAGE_SIZE_4K (u64 (ind * PAGE_SIZE_4K)) 0;;
    vaddr ← page_num_to_vaddr page;
    n ← sos_copyin KERNEL_PROC vaddr PAGE_SIZE_4K;
    assert (n =? PAGE_SIZE_4K);;
    v ← vm_get;
    n ← VOP_WRITE v.(pf_vnode) u;
    assert (u64 n =? PAGE_SIZE_4K);;
    uio_free u;;
    mret 0.

Definition pagein (entry kernel_vaddr : Z) : M (sos E) Z :=
  v ← vm_get;
  if v.(pf_size) <? entry then mret (-1)
  else
    u ← malloc SIZEOF_UIO;
    uio_init u UIO_READ PAGE_SIZE_4K (u64 (entry * PAGE_SIZE_4K)) 0;;
    v ← vm_get;
    n ← VOP_READ v.(pf_vnode) u;
    assert (u64 n =? PAGE_SIZE_4K);;
    n ← sos_copyout KERNEL_PROC kernel_vaddr PAGE_SIZE_4K;
    assert (n =? PAGE_SIZE_4K);;
    uio_free u;;
    _ ← add_free_list entry;
    mret 0.

Definition pagefile_remove (entry : Z) : M (sos E) Z :=
  v ← vm_get;
  if v.(pf_size) <? entry then mret (-1) else _ ← add_free_list entry; mret 0.

Definition pager_bootstrap : M (sos E) unit :=
  _ ← malloc_used SIZEOF_PAGEFILE_LIST;
  vm_modify (fun v => {| v with pf_size := 0; pf_free := []; pf_vnode := 0 |}).
End pager.

(** ** Slots *)

(** [used] are the slots that page-table entries may refer to. *)
Record pf_inv (v : vm_state) (used : gset Z) : Prop := mk_pf_inv {
  pi_nodup : NoDup (v.(pf_free).*2);
  pi_split : forall i, 0 <= i < v.(pf_size) <-> i ∈ used \/ i ∈ v.(pf_free).*2;
  pi_apart : forall i, i ∈ used -> i ∉ v.(pf_free).*2;
  pi_size : 0 <= v.(pf_size) < 2 ^ 51 }.

Section spec.
Context {E : Type} `{!Env E, !Sched E}.
Implicit Types s : sos E.

Lemma next_free_node_run s used :
  pf_inv s.(vm) used ->
  exists ind s', next_free_node s = Ok ind s' /\ ind ∉ used /\ 0 <= ind < 2 ^ 51 /\
    (s'.(vm).(pf_size) < 2 ^ 51 -> pf_inv s'.(vm) (used ∪ {[ind]})) /\
    (exists size l, s'.(vm) = {| s.(vm) with pf_size := size; pf_free := l |}) /\
    exists e t, s' = {| s with env := e; trace := t; vm := s'.(vm) |}.
Proof.
  intros [Hnd Hsp Hap Hs]. unfold next_free_node, vm_get. rewrite (bind_run _ _ s s.(vm) s) by done.
  destruct s.(vm).(pf_free) as [|[node ind] rest] eqn:Hfree.
  - eexists _, _. split; [done|]. cbn in Hsp, Hap. split; [|split; [lia|]].
    { intros H. assert (0 <= s.(vm).(pf_size) < s.(vm).(pf_size)); [|lia]. apply Hsp. by left. }
    split; [|split]; cbn [vm pf_size].
    + intros Hsz. rewrite u64_small in Hsz by lia. split; cbn [pf_free pf_size]; rewrite ?Hfree, ?u64_small by lia.
      * constructor.
      * intros i. assert (0 <= i < s.(vm).(pf_size) + 1 <-> 0 <= i < s.(vm).(pf_size) \/ i = s.(vm).(pf_size)) as -> by lia.
        rewrite Hsp. set_solver.
      * intros i _. cbn. set_solver.
      * lia.
    + eexists _, _. done.
    + exists s.(env), s.(trace). by destruct s.
  - cbn in Hnd, Hsp, Hap. apply NoDup_cons in Hnd as [Hni Hnd].
    unfold vm_modify. rewrite modify_bind. unfold free. destruct (call_run Dealloc [node]
      {| s with vm := {| s.(vm) with pf_free := rest |} |}) as (r & s1 & Hc & (e & t & ->) & _).
    unfold mbind, M_bind. rewrite Hc. eexists _, _. split; [done|].
    assert (0 <= ind < s.(vm).(pf_size)) as Hind by (apply Hsp; right; set_solver).
    split; [|split; [lia|]]. { intros H. apply (Hap ind H). set_solver. }
    split; [|split]; cbn [vm].
    + intros _. split; cbn [pf_free pf_size]; [done| | |done].
      * intros i. rewrite Hsp. set_solver.
      * intros i Hi. specialize (Hap i). set_solver.
    + by exists s.(vm).(pf_size), rest.
    + by exists e, t.
Qed.

(** A page-file slot is handed out at most once at a time: [next_free_node]
    always returns, with a slot that is not in use, and every slot below the
    file's size stays either used or in the free list, never both. *)
Theorem next_free_node_fresh (s : sos E) (used : gset Z) :
  pf_inv s.(vm) used ->
  exists ind s', next_free_node s = Ok ind s' /\ ind ∉ used /\
    (s'.(vm).(pf_size) < 2 ^ 51 -> pf_inv s'.(vm) (used ∪ {[ind]})).
Proof.
  intros I. destruct (next_free_node_run s used I) as (ind & s' & H1 & H2 & _ & H3 & _). eauto.
Qed.

(** Returning a slot that is in use always succeeds (the loop that looks for
    its place in the list never spins), and makes exactly that slot free. *)
Theorem add_free_list_returns_slot (s : sos E) (used : gset Z) (entry p : Z) (e : E) :
  pf_inv s.(vm) used -> entry ∈ used ->
  ext Malloc [SIZEOF_PAGEFILE_NODE] s.(env) = (p, e) -> p <> 0 ->
  exists s', add_free_list entry s = Ok 0 s' /\ pf_inv s'.(vm) (used ∖ {[entry]}).
Proof.
  intros [Hnd Hsp Hap Hs] Hin Hext Hp. unfold add_free_list, malloc_used, malloc.
  set (s1 := {| s with env := e; trace := (Malloc, [SIZEOF_PAGEFILE_NODE], p) :: s.(trace) |}).
  rewrite (bind_run _ _ s p s1).
  2:{ rewrite (bind_run _ _ s p s1) by (unfold call; by rewrite Hext).
      rewrite access_bind; [done|]. by rewrite (proj2 (Z.eqb_neq _ _) Hp). }
  unfold vm_get. rewrite (bind_run _ _ s1 s.(vm) s1) by done.
  assert (forall l, l.*2 ≡ₚ entry :: s.(vm).(pf_free).*2 ->
    pf_inv {| s.(vm) with pf_free := l |} (used ∖ {[entry]})) as Hdone.
  { intros l Hl. split; cbn [pf_free pf_size]; [|intros i|intros i Hi|done]; rewrite Hl.
    - constructor; [by apply Hap|done].
    - rewrite Hsp. destruct (decide (i = entry)); set_solver.
    - specialize (Hap i). set_solver. }
  destruct s.(vm).(pf_free) as [|[h ind] rest] eqn:Hfree.
  - eexists. split; [done|]. by apply Hdone.
  - destruct (Z.leb_spec entry ind) as [Hle|Hgt].
    + eexists. split; [done|]. by apply Hdone.
    + rewrite (proj2 (Z.leb_le ind entry)) by lia. eexists. split; [done|]. apply Hdone. cbn. constructor.
Qed.

(** *** Paging out *)

Lemma pagefile_entry_present ind :
  0 <= ind < 2 ^ 51 ->
  present (page_update_entry P_PAGEFILE ind) = Some (page_update_entry P_PAGEFILE ind) /\
  page_entry_number (page_update_entry P_PAGEFILE ind) = ind.
Proof.
  intros Hi. destruct (page_entry_pack P_PAGEFILE ind) as (_ & Hn & Hb); [lia|unfold P_PAGEFILE; lia|].
  split; [|done]. unfold present. by rewrite Hb.
Qed.

(** A frame that can be paged out: it belongs to a process, at an address that
    has an entry in the process's page table. *)
Record victim s (page : Z) (fte : frame_table_entry) (pt : Z) : Prop := mk_victim {
  vi_entry : s.(ft).(frame_table) !! Z.to_nat page = Some fte;
  vi_page : 0 <= page < s.(ft).(frame_table_size) /\ s.(ft).(frame_table_size) < 2 ^ 32;
  vi_base : 0 <= s.(ft).(base_vaddr) < 2 ^ 48;
  vi_pid : 0 <= fte.(fte_pid) < MAX_PROCESSES;
  vi_plain : fte.(fte_important) = false;
  vi_owner : exists p x a, s.(pcb).(procs) !! Z.to_nat fte.(fte_pid) = Some p /\
    s.(pcb).(proc_heap) !! p = Some x /\ s.(vm).(ases) !! x.(p_as) = Some a /\ a.(as_pt) = pt;
  vi_wf : pt_wf s.(words) pt;
  vi_leaf : leaf_of s.(words) pt fte.(fte_user_vaddr) <> 0 }.

Lemma victim_lookup n s page fte pt :
  victim s page fte pt -> s.(vm).(pf_vnode) <> 0 ->
  let leaf := leaf_of s.(words) pt fte.(fte_user_vaddr) in
  let i := (get_pt_index fte.(fte_user_vaddr)).(l4) in
  pageout n page s =
  (ind ← next_free_node;
   word_put leaf i (page_update_entry P_PAGEFILE ind);;
   w ← word_get leaf i;
   assert (page_entry_number w =? ind);;
   u ← malloc SIZEOF_UIO;
   uio_init u UIO_WRITE PAGE_SIZE_4K (u64 (ind * PAGE_SIZE_4K)) 0;;
   vaddr ← page_num_to_vaddr page;
   n ← sos_copyin KERNEL_PROC vaddr PAGE_SIZE_4K;
   assert (n =? PAGE_SIZE_4K);;
   v ← vm_get;
   n ← VOP_WRITE v.(pf_vnode) u;
   assert (u64 n =? PAGE_SIZE_4K);;
   uio_free u;;
   mret 0) s.
Proof.
  intros [He Hp Hb Hpid Hpl (p & x & a & Hpr & Hx & Ha & Hpt) Hwf Hl] Hv leaf i. unfold pageout.
  unfold vm_get at 1. rewrite (bind_run _ _ s s.(vm) s) by done. rewrite (proj2 (Z.eqb_neq _ _) Hv), ret_bind.
  unfold get_frame, ft_get. rewrite (bind_run _ _ s (Some page) s).
  2:{ rewrite (bind_run _ _ s s.(ft) s) by done. rewrite (proj2 (Z.ltb_ge _ _)) by lia. done. }
  rewrite (deref_bind _ page) by done. rewrite (bind_run _ _ _ _ _ (fte_get_run s page fte ltac:(lia) He)).
  unfold MAX_PROCESSES in *. rewrite assert_bind by lia. rewrite assert_bind by (by rewrite Hpl).
  unfold proc_of. rewrite (bind_run _ _ s x s).
  2:{ rewrite (bind_run _ _ _ _ _ (proc_get_run s _ p (proj1 Hpid) Hpr)). by apply proc_load_run. }
  rewrite (bind_run _ _ _ _ _ (as_get_run s _ a Ha)), Hpt.
  rewrite (bind_run _ _ _ _ _ (page_lookup_run s pt _ Hwf)). cbv zeta.
  rewrite (proj2 (Z.eqb_neq _ _) Hl), assert_bind by done. by rewrite (deref_bind _ (leaf, i)).
Qed.

(** A new [uio], when there is memory for it. *)
Definition malloc_uio_ok : Prop := forall e : E, (ext Malloc [SIZEOF_UIO] e).1 <> 0.

Lemma new_uio_run {A} s rw len off pid (k : Z -> M (sos E) A) :
  malloc_uio_ok -> exists u e t, u <> 0 /\
  (u ← malloc SIZEOF_UIO; uio_init u rw len off pid;; k u) s =
  k u {| s with env := e; trace := t; fs := {| s.(fs) with uios := <[u := mk_uio rw len off pid]> s.(fs).(uios) |} |}.
Proof.
  intros Hok. destruct (call_run Malloc [SIZEOF_UIO] s) as (u & s1 & Hc & (e & t & ->) & Hext & _).
  assert (u <> 0) as Hu by (specialize (Hok s.(env)); by rewrite Hext in Hok).
  exists u, e, t. split; [done|]. unfold malloc. rewrite (bind_run _ _ _ _ _ Hc). unfold uio_init.
  erewrite bind_run; [reflexivity|]. rewrite access_bind by (by rewrite (proj2 (Z.eqb_neq _ _) Hu)). done.
Qed.

(** The contents of a frame go to the kernel's buffer. *)
Lemma copy_frame_run {A} s page (k : M (sos E) A) :
  buf_ok s -> 0 <= page < 2 ^ 32 -> 0 <= s.(ft).(base_vaddr) < 2 ^ 48 ->
  (vaddr ← page_num_to_vaddr page; n ← sos_copyin KERNEL_PROC vaddr PAGE_SIZE_4K; assert (n =? PAGE_SIZE_4K);; k) s =
  k {| s with mem := store_bytes s.(mem) (window s KERNEL_PROC) (bytes_at s.(mem) (page_addr s.(ft) page) 4096) |}.
Proof.
  intros Hbuf Hp Hb. rewrite (bind_run _ _ s (page_addr s.(ft) page) s).
  2:{ unfold page_num_to_vaddr, ft_get. rewrite (bind_run _ _ s s.(ft) s) by done.
      unfold mret, M_ret, page_addr. f_equal. rewrite PAGE_SIZE_4K_eq. apply u64_small. lia. }
  unfold sos_copyin. rewrite share_buf_check_len_eq. unfold KERNEL_PROC.
  erewrite bind_run; [|rewrite (bind_run _ _ _ _ _ (get_buf_run s 0 Hbuf ltac:(lia))); reflexivity].
  by rewrite assert_bind.
Qed.

(** C30 Up to the write itself, [pageout] of a frame that belongs to a process
    takes an unused slot, puts it into the process's page table for the frame's
    page (and changes no other page), copies the frame's 4096 bytes into the
    kernel's buffer and asks for a write of one page at the slot's offset. *)
Theorem pageout_prepares_write (n : nat) (s : sos E) (page pt : Z) (fte : frame_table_entry) (used : gset Z) :
  victim s page fte pt -> s.(vm).(pf_vnode) <> 0 -> pf_inv s.(vm) used -> buf_ok s -> malloc_uio_ok ->
  exists ind u s1, ind ∉ used /\
    pageout n page s = (n ← VOP_WRITE s.(vm).(pf_vnode) u; assert (u64 n =? PAGE_SIZE_4K);; uio_free u;; mret 0) s1 /\
    (s1.(vm).(pf_size) < 2 ^ 51 -> pf_inv s1.(vm) (used ∪ {[ind]})) /\
    (forall v, resolve s1.(words) pt v =
       if decide (vpn v = vpn fte.(fte_user_vaddr)) then Some (page_update_entry P_PAGEFILE ind)
       else resolve s.(words) pt v) /\
    s1.(fs).(uios) !! u = Some (mk_uio UIO_WRITE PAGE_SIZE_4K (ind * PAGE_SIZE_4K) KERNEL_PROC) /\
    bytes_at s1.(mem) (window s KERNEL_PROC) 4096 = bytes_at s.(mem) (page_addr s.(ft) page) 4096.
Proof.
  intros V Hv Hpf Hbuf Hu. pose proof V as [_ Hp Hb _ _ _ Hwf Hl]. rewrite (victim_lookup n s page fte pt V Hv).
  destruct (next_free_node_run s used Hpf) as (ind & s1 & Hrun & Hind & Hib & Hpf' & (sz & l & Hvm) & e & t & Hs1).
  rewrite (bind_run _ _ _ _ _ Hrun). destruct (pagefile_entry_present ind Hib) as [Hpres Hnum].
  set (entry := page_update_entry P_PAGEFILE ind) in *.
  assert (s1.(words) = s.(words)) as Hw by (by rewrite Hs1).
  pose proof (l4_in_index fte.(fte_user_vaddr)) as Hl4. set (i := l4 _) in *. set (leaf := leaf_of _ _ _) in *.
  assert (is_Some (s1.(words) !! leaf)) as Hleaf.
  { rewrite Hw. apply (pw_node _ _ Hwf (path_of fte.(fte_user_vaddr))); [done|apply path_in_index|done]. }
  rewrite (bind_run _ _ _ _ _ (word_put_run s1 leaf i entry Hleaf Hl4)).
  set (s2 := with_words s1 _).
  assert (is_Some (s2.(words) !! leaf)) as Hleaf2 by (unfold s2, written; cbn; by rewrite lookup_insert_eq).
  rewrite (bind_run _ _ _ _ _ (word_get_run s2 leaf i Hleaf2 Hl4)).
  assert (wget s2.(words) leaf i = entry) as -> by (unfold s2, written; cbn; by rewrite wget_eq, lookup_insert_eq).
  rewrite assert_bind by (by rewrite Hnum, Z.eqb_refl).
  destruct (new_uio_run s2 UIO_WRITE PAGE_SIZE_4K (u64 (ind * PAGE_SIZE_4K)) 0 (fun u =>
    vaddr ← page_num_to_vaddr page; n ← sos_copyin KERNEL_PROC vaddr PAGE_SIZE_4K; assert (n =? PAGE_SIZE_4K);;
    v ← vm_get; n ← VOP_WRITE v.(pf_vnode) u; assert (u64 n =? PAGE_SIZE_4K);; uio_free u;; mret 0) Hu)
    as (u & e4 & t4 & _ & ->).
  rewrite u64_small by (rewrite PAGE_SIZE_4K_eq; lia). set (s4 := {| s2 with env := e4; trace := t4; fs := _ |}).
  assert (s4.(ft) = s.(ft) /\ s4.(mem) = s.(mem) /\ window s4 KERNEL_PROC = window s KERNEL_PROC /\ buf_ok s4)
    as (Hft & Hm & Hwin & Hbuf4).
  { unfold s4, s2, window, buf_ok. cbn. rewrite Hvm, Hs1. done. }
  rewrite copy_frame_run by (rewrite ?Hft; done || lia).
  set (s5 := {| s4 with mem :=
    store_bytes s4.(mem) (window s4 KERNEL_PROC) (bytes_at s4.(mem) (page_addr s4.(ft) page) 4096) |}).
  unfold vm_get. rewrite (bind_run _ _ s5 s5.(vm) s5) by done. change s5.(vm) with s1.(vm).
  exists ind, u, s5. change s5.(vm) with s1.(vm). split; [done|]. split; [by rewrite Hvm|]. split; [done|]. split; [|split].
  - intros v. change s5.(words) with (written s1.(words) leaf i entry). rewrite Hw.
    etrans; [by apply resolve_written|]. by rewrite Hpres.
  - apply lookup_insert_eq.
  - cbn [s5 mem]. rewrite Hft, Hm, Hwin. rewrite <- (bytes_at_length s.(mem) (page_addr s.(ft) page) 4096) at 2. apply bytes_at_stored.
Qed.
End spec.

(** ** On the concrete machine *)

Lemma sample_pf_inv v : pf_inv {| sample_vm with pf_vnode := v |} {[0; 1; 2]}.
Proof.
  split; [apply (bool_decide_unpack _); vm_compute; exact I | | | done];
    intros i; cbn; rewrite !elem_of_union, !elem_of_singleton, !elem_of_cons, elem_of_nil; lia.
Qed.

Lemma next_free_node_fresh_witness : exists ind s',
  next_free_node spaced = Ok ind s' /\ ind ∉ ({[0; 1; 2]} : gset Z).
Proof.
  destruct (next_free_node_fresh spaced {[0; 1; 2]} (sample_pf_inv 0)) as (ind & s' & H & Hi & _).
  exists ind, s'. split; [exact H | exact Hi].
Defined.

Lemma add_free_list_returns_slot_witness : exists s',
  add_free_list 1 spaced = Ok 0 s' /\ pf_inv s'.(vm) ({[0; 1; 2]} ∖ {[1]}).
Proof.
  refine (add_free_list_returns_slot spaced {[0; 1; 2]} 1 65536 (mk_toy 69632) (sample_pf_inv 0) _ _ _);
    [apply (bool_decide_unpack _); vm_compute; exact I | reflexivity | discriminate].
Defined.

(** Frame 0 holds page 2 of process 1; the page file's vnode is at 601. *)
Definition replaceable : sos toy :=
  let s := peopled RUNNING in {| s with words := mapped_page.(words); vm := {| sample_vm with pf_vnode := 601 |} |}.

Lemma replaceable_victim : victim replaceable 0 (mk_fte 7 9 33008 0 1 8192 true false) (2 ^ 39).
Proof.
  split; [reflexivity | split; [split|]; (reflexivity || discriminate) | split; (reflexivity || discriminate)
    | split; (reflexivity || discriminate) | reflexivity | | apply mapped_page_wf | vm_compute; discriminate].
  exists 9000, (sample_proc RUNNING), (mk_addrspace [1000; 1001; 1002] 1000 1001 1002 (2 ^ 39)). by split_and!.
Qed.

Lemma pageout_prepares_write_witness : exists ind u s1,
  ind ∉ ({[0; 1; 2]} : gset Z) /\
  pageout 1 0 replaceable =
    (n ← VOP_WRITE 601 u; assert (u64 n =? PAGE_SIZE_4K);; uio_free u;; mret 0) s1 /\
  s1.(fs).(uios) !! u = Some (mk_uio UIO_WRITE PAGE_SIZE_4K (ind * PAGE_SIZE_4K) KERNEL_PROC).
Proof.
  destruct (pageout_prepares_write 1 replaceable 0 (2 ^ 39) _ {[0; 1; 2]} replaceable_victim)
    as (ind & u & s1 & Hi & Hrun & _ & _ & Hu & _);
    [discriminate | exact (sample_pf_inv 601) | split; reflexivity | intros e; cbn; lia |].
  exists ind, u, s1. split; [exact Hi|]. split; [exact Hrun | exact Hu].
Defined.
