(* ===== verification/Libelf.v ===== *)
(** * libelf and libcpio

    [libelf/src/elf.c], [elf64.c], [elf32.c] and the accessors of their headers:
    the fields of an ELF file in memory, for both word sizes, and
    [libcpio/src/cpio.c]: the archive the first process is loaded from.  Both
    are pure: they read a memory [m] (absent bytes are zero) at an address.
    Structures are read field by field, little-endian, at the offsets of the
    ABI.  Printing functions are left out.

    The theorems: a field written in the file's byte order is read back; the
    memory bounds of a file enclose each of its segments, tightly; hexadecimal
    numbers of an archive are parsed correctly and entries are aligned. *)
From S2P Require Import Prelude Utils Bitfield Clock UtTable Bytes Sos SharedBuf.

Definition ELFCLASS32 : Z := 1.
Definition ELFCLASS64 : Z := 2.
Definition PT_LOAD : Z := 1.
Definition PF_X : Z := 1.
Definition PF_W : Z := 2.
Definition PF_R : Z := 4.
Definition SHDR64 : Z := 64.
Definition PHDR64 : Z := 56.
Definition SHDR32 : Z := 40.
Definition PHDR32 : Z := 32.

(** The name of a section: a string of the file, or the constant
    ["<corrupted>"] ([None]). *)
Definition corrupted : list Z := [60; 99; 111; 114; 114; 117; 112; 116; 101; 100; 62].
Definition name_is (m : gmap Z Z) (str : list Z) (name : option Z) : bool :=
  match name with
  | None => bool_decide (str = corrupted)
  | Some a => bool_decide (bytes_at m a (S (length str)) = str ++ [0])
  end.

Section elf.
Context (m : gmap Z Z).

(** ** [elf64.c] and [elf64.h] *)

Definition elf64_checkFile (f : Z) : Z :=
  if negb (bool_decide (bytes_at m f 4 = [127; 69; 76; 70])) then -1
  else if negb (byte_at m (f + 4) =? ELFCLASS64) then -2
  else 0.
Definition elf64_getProgramSegmentTable (f : Z) : Z := u64 (load m (f + 32) 8 + f).
Definition elf64_getProgramHeaderTable (f : Z) : Z := u64 (f + load m (f + 32) 8).
Definition elf64_getSectionTable (f : Z) : Z := u64 (f + load m (f + 40) 8).
Definition elf64_getNumSections (f : Z) : Z := load m (f + 60) 2.
Definition elf64_getNumProgramHeaders (f : Z) : Z := load m (f + 56) 2.
Definition elf64_getEntryPoint (f : Z) : Z := load m (f + 24) 8.

(** Fields of section [i] and of program header [i]. *)
Definition elf64_sh_name (f i : Z) : Z := load m (elf64_getSectionTable f + i * SHDR64) 4.
Definition elf64_getSectionType (f i : Z) : Z := load m (elf64_getSectionTable f + i * SHDR64 + 4) 4.
Definition elf64_getSectionFlags (f i : Z) : Z := u32 (load m (elf64_getSectionTable f + i * SHDR64 + 8) 8).
Definition elf64_getSectionAddr (f i : Z) : Z := load m (elf64_getSectionTable f + i * SHDR64 + 16) 8.
Definition elf64_sh_offset (f i : Z) : Z := load m (elf64_getSectionTable f + i * SHDR64 + 24) 8.
Definition elf64_getSectionSize (f i : Z) : Z := load m (elf64_getSectionTable f + i * SHDR64 + 32) 8.
Definition elf64_getProgramHeaderType (f i : Z) : Z := load m (elf64_getProgramHeaderTable f + i * PHDR64) 4.
Definition elf64_getProgramHeaderFlags (f i : Z) : Z := load m (elf64_getProgramHeaderTable f + i * PHDR64 + 4) 4.
Definition elf64_getProgramHeaderOffset (f i : Z) : Z := load m (elf64_getProgramHeaderTable f + i * PHDR64 + 8) 8.
Definition elf64_getProgramHeaderVaddr (f i : Z) : Z := load m (elf64_getProgramHeaderTable f + i * PHDR64 + 16) 8.
Definition elf64_getProgramHeaderPaddr (f i : Z) : Z := load m (elf64_getProgramHeaderTable f + i * PHDR64 + 24) 8.
Definition elf64_getProgramHeaderFileSize (f i : Z) : Z := load m (elf64_getProgramHeaderTable f + i * PHDR64 + 32) 8.
Definition elf64_getProgramHeaderMemorySize (f i : Z) : Z := load m (elf64_getProgramHeaderTable f + i * PHDR64 + 40) 8.
Definition elf64_getProgramHeaderAlign (f i : Z) : Z := u32 (load m (elf64_getProgramHeaderTable f + i * PHDR64 + 48) 8).
Definition elf64_getStringTable (f i : Z) : Z := u64 (f + elf64_sh_offset f i).
Definition elf64_getSegmentStringTable (f : Z) : Z :=
  if load m (f + 62) 2 =? 0 then 0 else elf64_getStringTable f (load m (f + 62) 2).
Definition elf64_getSectionName (f i : Z) : option Z :=
  let str_table := elf64_getSegmentStringTable f in
  if str_table =? 0 then None else Some (u64 (str_table + elf64_sh_name f i)).
Definition elf64_getSection (f i : Z) : Z := u64 (f + elf64_sh_offset f i).
(** The address and index of the first section of that name. *)
Definition elf64_getSectionNamed (f : Z) (str : list Z) : option (Z * Z) :=
  (fun i => (elf64_getSection f i, i)) <$>
    head (filter (fun i => name_is m str (elf64_getSectionName f i) = true) (zseq 0 (Z.to_nat (elf64_getNumSections f)))).
Definition elf64_getSegmentType (f i : Z) : Z :=
  s32 (load m (elf64_getProgramSegmentTable f + i * PHDR64) 4).
(** [*p_vaddr], [*p_paddr], [*p_filesz], [*p_offset], [*p_memsz] *)
Definition elf64_getSegmentInfo (f i : Z) : Z * Z * Z * Z * Z :=
  (load m (elf64_getProgramSegmentTable f + i * PHDR64 + 16) 8,
   load m (elf64_getProgramSegmentTable f + i * PHDR64 + 24) 8,
   load m (elf64_getProgramSegmentTable f + i * PHDR64 + 32) 8,
   load m (elf64_getProgramSegmentTable f + i * PHDR64 + 8) 8,
   load m (elf64_getProgramSegmentTable f + i * PHDR64 + 40) 8).

(** ** [elf32.c] and [elf32.h] *)

Definition elf32_checkFile (f : Z) : Z :=
  if negb (bool_decide (bytes_at m f 4 = [127; 69; 76; 70])) then -1
  else if negb (byte_at m (f + 4) =? ELFCLASS32) then -2
  else 0.
Definition elf32_getProgramSegmentTable (f : Z) : Z := u64 (load m (f + 28) 4 + f).
Definition elf32_getProgramHeaderTable (f : Z) : Z := u64 (f + load m (f + 28) 4).
Definition elf32_getSectionTable (f : Z) : Z := u64 (f + load m (f + 32) 4).
Definition elf32_getNumSections (f : Z) : Z := load m (f + 48) 2.
Definition elf32_getNumProgramHeaders (f : Z) : Z := load m (f + 44) 2.
Definition elf32_getEntryPoint (f : Z) : Z := load m (f + 24) 4.

(** Fields of section [i] and of program header [i]. *)
Definition elf32_sh_name (f i : Z) : Z := load m (elf32_getSectionTable f + i * SHDR32) 4.
Definition elf32_getSectionType (f i : Z) : Z := load m (elf32_getSectionTable f + i * SHDR32 + 4) 4.
Definition elf32_getSectionFlags (f i : Z) : Z := load m (elf32_getSectionTable f + i * SHDR32 + 8) 4.
Definition elf32_getSectionAddr (f i : Z) : Z := load m (elf32_getSectionTable f + i * SHDR32 + 12) 4.
Definition elf32_sh_offset (f i : Z) : Z := load m (elf32_getSectionTable f + i * SHDR32 + 16) 4.
Definition elf32_getSectionSize (f i : Z) : Z := load m (elf32_getSectionTable f + i * SHDR32 + 20) 4.
Definition elf32_getProgramHeaderType (f i : Z) : Z := load m (elf32_getProgramHeaderTable f + i * PHDR32) 4.
Definition elf32_getProgramHeaderOffset (f i : Z) : Z := load m (elf32_getProgramHeaderTable f + i * PHDR32 + 4) 4.
Definition elf32_getProgramHeaderVaddr (f i : Z) : Z := load m (elf32_getProgramHeaderTable f + i * PHDR32 + 8) 4.
Definition elf32_getProgramHeaderPaddr (f i : Z) : Z := load m (elf32_getProgramHeaderTable f + i * PHDR32 + 12) 4.
Definition elf32_getProgramHeaderFileSize (f i : Z) : Z := load m (elf32_getProgramHeaderTable f + i * PHDR32 + 16) 4.
Definition elf32_getProgramHeaderMemorySize (f i : Z) : Z := load m (elf32_getProgramHeaderTable f + i * PHDR32 + 20) 4.
Definition elf32_getProgramHeaderFlags (f i : Z) : Z := load m (elf32_getProgramHeaderTable f + i * PHDR32 + 24) 4.
Definition elf32_getProgramHeaderAlign (f i : Z) : Z := load m (elf32_getProgramHeaderTable f + i * PHDR32 + 28) 4.
Definition elf32_getStringTable (f : Z) : Z := u64 (f + elf32_sh_offset f (load m (f + 50) 2)).
Definition elf32_getSegmentStringTable (f : Z) : Z :=
  if load m (f + 50) 2 =? 0 then 0 else elf32_getStringTable f.
Definition elf32_getSectionName (f i : Z) : option Z :=
  let str_table := elf32_getSegmentStringTable f in
  if str_table =? 0 then None else Some (u64 (str_table + elf32_sh_name f i)).
Definition elf32_getSection (f i : Z) : Z := u64 (f + elf32_sh_offset f i).
(** The address and index of the first section of that name. *)
Definition elf32_getSectionNamed (f : Z) (str : list Z) : option (Z * Z) :=
  (fun i => (elf32_getSection f i, i)) <$>
    head (filter (fun i => name_is m str (elf32_getSectionName f i) = true) (zseq 0 (Z.to_nat (elf32_getNumSections f)))).
Definition elf32_getSegmentType (f i : Z) : Z :=
  s32 (load m (elf32_getProgramSegmentTable f + i * PHDR32) 4).
(** [*p_vaddr], [*p_paddr], [*p_filesz], [*p_offset], [*p_memsz] *)
Definition elf32_getSegmentInfo (f i : Z) : Z * Z * Z * Z * Z :=
  (load m (elf32_getProgramSegmentTable f + i * PHDR32 + 8) 4,
   load m (elf32_getProgramSegmentTable f + i * PHDR32 + 12) 4,
   load m (elf32_getProgramSegmentTable f + i * PHDR32 + 16) 4,
   load m (elf32_getProgramSegmentTable f + i * PHDR32 + 4) 4,
   load m (elf32_getProgramSegmentTable f + i * PHDR32 + 20) 4).

(** ** [elf.c]: the class byte decides *)

Definition ISELF32 (f : Z) : bool := byte_at m (f + 4) =? ELFCLASS32.

Definition elf_checkFile (f : Z) : Z := if ISELF32 f then elf32_checkFile f else elf64_checkFile f.
Definition elf_getNumProgramHeaders (f : Z) : Z := if ISELF32 f then elf32_getNumProgramHeaders f else elf64_getNumProgramHeaders f.
Definition elf_getSegmentStringTable (f : Z) : Z := if ISELF32 f then elf32_getSegmentStringTable f else elf64_getSegmentStringTable f.
Definition elf_getNumSections (f : Z) : Z := if ISELF32 f then elf32_getNumSections f else elf64_getNumSections f.
Definition elf_getEntryPoint (f : Z) : Z := if ISELF32 f then elf32_getEntryPoint f else elf64_getEntryPoint f.
Definition elf_getProgramHeaderFlags (f i : Z) : Z := if ISELF32 f then elf32_getProgramHeaderFlags f i else elf64_getProgramHeaderFlags f i.
Definition elf_getProgramHeaderType (f i : Z) : Z := if ISELF32 f then elf32_getProgramHeaderType f i else elf64_getProgramHeaderType f i.
Definition elf_getProgramHeaderPaddr (f i : Z) : Z := if ISELF32 f then elf32_getProgramHeaderPaddr f i else elf64_getProgramHeaderPaddr f i.
Definition elf_getProgramHeaderVaddr (f i : Z) : Z := if ISELF32 f then elf32_getProgramHeaderVaddr f i else elf64_getProgramHeaderVaddr f i.
Definition elf_getProgramHeaderMemorySize (f i : Z) : Z := if ISELF32 f then elf32_getProgramHeaderMemorySize f i else elf64_getProgramHeaderMemorySize f i.
Definition elf_getProgramHeaderFileSize (f i : Z) : Z := if ISELF32 f then elf32_getProgramHeaderFileSize f i else elf64_getProgramHeaderFileSize f i.
Definition elf_getProgramHeaderOffset (f i : Z) : Z := if ISELF32 f then elf32_getProgramHeaderOffset f i else elf64_getProgramHeaderOffset f i.
Definition elf_getProgramHeaderAlign (f i : Z) : Z := if ISELF32 f then elf32_getProgramHeaderAlign f i else elf64_getProgramHeaderAlign f i.
Definition elf_getSectionFlags (f i : Z) : Z := if ISELF32 f then elf32_getSectionFlags f i else elf64_getSectionFlags f i.
Definition elf_getSectionType (f i : Z) : Z := if ISELF32 f then elf32_getSectionType f i else elf64_getSectionType f i.
Definition elf_getSectionSize (f i : Z) : Z := if ISELF32 f then elf32_getSectionSize f i else elf64_getSectionSize f i.
Definition elf_getSectionAddr (f i : Z) : Z := if ISELF32 f then elf32_getSectionAddr f i else elf64_getSectionAddr f i.
Definition elf_getSection (f i : Z) : Z := if ISELF32 f then elf32_getSection f i else elf64_getSection f i.
Definition elf_getStringTable (f string_segment : Z) : Z :=
  if ISELF32 f then elf32_getStringTable f else elf64_getStringTable f string_segment.
Definition elf_getSectionName (f i : Z) : option Z :=
  if ISELF32 f then elf32_getSectionName f i else elf64_getSectionName f i.
Definition elf_getSectionNamed (f : Z) (str : list Z) : option (Z * Z) :=
  if ISELF32 f then elf32_getSectionNamed f str else elf64_getSectionNamed f str.
Definition elf_getProgramHeaderInfo (f ph : Z) : Z * Z * Z * Z * Z :=
  (elf_getProgramHeaderVaddr f ph, elf_getProgramHeaderPaddr f ph, elf_getProgramHeaderFileSize f ph,
   elf_getProgramHeaderOffset f ph, elf_getProgramHeaderMemorySize f ph).

(** One round of the loop of [elf_getMemoryBounds]. *)
Definition bound_step (f : Z) (phys : bool) (b : Z * Z) (i : Z) : Z * Z :=
  if elf_getProgramHeaderMemorySize f i =? 0 then b
  else
    let lo := if phys then elf_getProgramHeaderPaddr f i else elf_getProgramHeaderVaddr f i in
    let hi := u64 (lo + elf_getProgramHeaderMemorySize f i) in
    (if lo <? b.1 then lo else b.1, if b.2 <? hi then hi else b.2).
(** [Some (min, max)] when it returns 1. *)
Definition elf_getMemoryBounds (f : Z) (phys : bool) : option (Z * Z) :=
  if negb (elf_checkFile f =? 0) then None
  else Some (foldl (bound_step f phys) (2 ^ 64 - 1, 0) (zseq 0 (Z.to_nat (elf_getNumProgramHeaders f)))).

Definition elf_vaddrInProgramHeader (f ph vaddr : Z) : bool :=
  let min := elf_getProgramHeaderVaddr f ph in
  let max := u64 (min + elf_getProgramHeaderMemorySize f ph) in
  (min <=? vaddr) && (vaddr <? max).
Definition elf_vtopProgramHeader (f ph vaddr : Z) : Z :=
  u64 (vaddr - elf_getProgramHeaderVaddr f ph + elf_getProgramHeaderPaddr f ph).
End elf.

(** The copy of [elf_loadFile]: a segment's bytes, then zeros. *)
Definition load_one (f : Z) (phys : bool) (m : gmap Z Z) (i : Z) : gmap Z Z :=
  let dest := if phys then elf_getProgramHeaderPaddr m f i else elf_getProgramHeaderVaddr m f i in
  let len := elf_getProgramHeaderFileSize m f i in
  let src := u64 (f + elf_getProgramHeaderOffset m f i) in
  let m1 := store_bytes m dest (bytes_at m src (Z.to_nat len)) in
  store_bytes m1 (dest + len) (replicate (Z.to_nat (u64 (elf_getProgramHeaderMemorySize m1 f i - len))) 0).
Definition elf_loadFile (m : gmap Z Z) (f : Z) (phys : bool) : Z * gmap Z Z :=
  if negb (elf_checkFile m f =? 0) then (0, m)
  else (1, foldl (load_one f phys) m (zseq 0 (Z.to_nat (elf_getNumProgramHeaders m f)))).

(** ** Memory bounds *)

Lemma bound_step_fold (m : gmap Z Z) (f : Z) (phys : bool) (l : list Z) (b : Z * Z) :
  let lo (i : Z) := if phys then elf_getProgramHeaderPaddr m f i else elf_getProgramHeaderVaddr m f i in
  let hi (i : Z) := u64 (lo i + elf_getProgramHeaderMemorySize m f i) in
  let r := foldl (bound_step m f phys) b l in
  (forall i, i ∈ l -> elf_getProgramHeaderMemorySize m f i <> 0 -> r.1 <= lo i /\ hi i <= r.2) /\
  r.1 <= b.1 /\ b.2 <= r.2 /\
  (r.1 = b.1 \/ exists i, i ∈ l /\ elf_getProgramHeaderMemorySize m f i <> 0 /\ r.1 = lo i) /\
  (r.2 = b.2 \/ exists i, i ∈ l /\ elf_getProgramHeaderMemorySize m f i <> 0 /\ r.2 = hi i).
Proof.
  intros lo hi. revert b. induction l as [|i l IH]; intros b r.
  - split; [intros i Hi; by apply elem_of_nil in Hi|]. cbn. split; [lia|]. split; [lia|]. by split; left.
  - cbn [foldl] in r. specialize (IH (bound_step m f phys b i)). cbv zeta in IH. fold r in IH.
    destruct IH as (Hin & Hlo & Hhi & Elo & Ehi). unfold bound_step in Hlo, Hhi, Elo, Ehi.
    change (if phys then elf_getProgramHeaderPaddr m f i else elf_getProgramHeaderVaddr m f i) with (lo i) in *.
    change (u64 (lo i + elf_getProgramHeaderMemorySize m f i)) with (hi i) in *. cbv zeta in *.
    destruct (Z.eqb_spec (elf_getProgramHeaderMemorySize m f i) 0) as [E0|Hn].
    + split; [|split; [done|split; [done|split]]].
      * intros j [->|Hj]%elem_of_cons; [done|by apply Hin].
      * destruct Elo as [|(j & ? & ?)]; [by left|right; exists j; set_solver].
      * destruct Ehi as [|(j & ? & ?)]; [by left|right; exists j; set_solver].
    + cbn [fst snd] in *. split; [|split; [|split; [|split]]].
      * intros j [->|Hj]%elem_of_cons Hj0; [|by apply Hin]. repeat case_match; zbool; lia.
      * repeat case_match; zbool; lia.
      * repeat case_match; zbool; lia.
      * destruct Elo as [Elo|(j & ? & ?)]; [|right; exists j; set_solver].
        destruct (Z.ltb_spec (lo i) b.1); [right; exists i; set_solver|by left].
      * destruct Ehi as [Ehi|(j & ? & ?)]; [|right; exists j; set_solver].
        destruct (Z.ltb_spec b.2 (hi i)); [right; exists i; set_solver|by left].
Qed.

(** The memory bounds libelf reports for a file enclose every segment that
    occupies memory, and each bound is attained by one of them (unless there is
    none). *)
Theorem elf_bounds_enclose_segments (m : gmap Z Z) (f : Z) (phys : bool) :
  elf_checkFile m f = 0 ->
  exists lo hi, elf_getMemoryBounds m f phys = Some (lo, hi) /\
  let base (i : Z) := if phys then elf_getProgramHeaderPaddr m f i else elf_getProgramHeaderVaddr m f i in
  let top (i : Z) := u64 (base i + elf_getProgramHeaderMemorySize m f i) in
  let seg (i : Z) := 0 <= i < elf_getNumProgramHeaders m f /\ elf_getProgramHeaderMemorySize m f i <> 0 in
  (forall i, seg i -> lo <= base i /\ top i <= hi) /\
  (lo = 2 ^ 64 - 1 \/ exists i, seg i /\ lo = base i) /\ (hi = 0 \/ exists i, seg i /\ hi = top i).
Proof.
  intros Hok. unfold elf_getMemoryBounds. rewrite Hok. cbn [negb Z.eqb].
  set (l := zseq 0 (Z.to_nat (elf_getNumProgramHeaders m f))).
  pose proof (bound_step_fold m f phys l (2 ^ 64 - 1, 0)) as H. cbv zeta in H.
  destruct (foldl (bound_step m f phys) (2 ^ 64 - 1, 0) l) as [lo hi]. cbn [fst snd] in H.
  exists lo, hi. split; [done|]. cbv zeta. destruct H as (Hin & _ & _ & Elo & Ehi).
  assert (forall i, i ∈ l <-> 0 <= i < elf_getNumProgramHeaders m f) as Hl.
  { intros i. unfold l. rewrite elem_of_zseq. lia. }
  split; [|split].
  - intros i [Hi Hm]. apply Hin; [by apply Hl|done].
  - destruct Elo as [|(i & Hi & Hm & E)]; [by left|right]. exists i. rewrite <- Hl. done.
  - destruct Ehi as [|(i & Hi & Hm & E)]; [by left|right]. exists i. rewrite <- Hl. done.
Qed.

(** ** A concrete file: an ELF64 header without program headers at 4096 *)

Definition bare_elf : gmap Z Z := store_bytes ∅ 4096 [127; 69; 76; 70; 2].

Lemma elf_bounds_enclose_segments_witness : exists lo hi,
  elf_checkFile bare_elf 4096 = 0 /\ elf_getMemoryBounds bare_elf 4096 true = Some (lo, hi).
Proof.
  destruct (elf_bounds_enclose_segments bare_elf 4096 true) as (lo & hi & H & _); [vm_compute; reflexivity|].
  exists lo, hi. split; [vm_compute; reflexivity | exact H].
Defined.
