(* ===== verification/Cpio.v ===== *)
(** * The boot archive

    [libcpio/src/cpio.c]: the archive of programs linked into the server, from
    which the first process is loaded.  Pure functions on a memory [m]; a C
    string argument is the list of its bytes without the terminator.

    The theorem: in a memory that holds an archive of files ([archive_at]),
    looking up a name finds the first file of that name, its contents and its
    size, or reports that there is none; it always terminates. *)
From S2P Require Import Prelude Utils Bitfield Clock UtTable Bytes Sos SharedBuf.

(** "070701" and "TRAILER!!!" *)
Definition CPIO_HEADER_MAGIC : list Z := [48; 55; 48; 55; 48; 49].
Definition CPIO_FOOTER_MAGIC : list Z := [84; 82; 65; 73; 76; 69; 82; 33; 33; 33].
Definition CPIO_ALIGNMENT : Z := 4.
Definition SIZEOF_CPIO_HEADER : Z := 110.
Definition C_FILESIZE : Z := 54.
Definition C_NAMESIZE : Z := 94.

Definition align_up (n align : Z) : Z := Z.land (u64 (n + align - 1)) (u64 (Z.lnot (align - 1))).

Definition hex_digit (c : Z) : option Z :=
  if (48 <=? c) && (c <=? 57) then Some (c - 48)
  else if (97 <=? c) && (c <=? 102) then Some (c - 97 + 10)
  else if (65 <=? c) && (c <=? 70) then Some (c - 65 + 10)
  else None.

(** [r] is multiplied before the character is looked at. *)
Fixpoint parse_hex (l : list Z) (r : Z) : Z :=
  match l with
  | [] => r
  | c :: l' =>
      match hex_digit c with
      | Some d => parse_hex l' (u64 (r * 16 + d))
      | None => u64 (r * 16)
      end
  end.
Definition parse_hex_str (m : gmap Z Z) (s : Z) (max_len : nat) : Z := parse_hex (bytes_at m s max_len) 0.

(** [b] with its terminator. *)
Fixpoint strncmp_from (m : gmap Z Z) (a : Z) (b : list Z) (n : nat) : Z :=
  match n, b with
  | O, _ => 0
  | _, [] => 0
  | S n', c :: b' =>
      if negb (byte_at m a =? c) then byte_at m a - c
      else if byte_at m a =? 0 then 0
      else strncmp_from m (a + 1) b' n'
  end.
Definition cpio_strncmp (m : gmap Z Z) (a : Z) (b : list Z) (n : nat) : Z := strncmp_from m a (b ++ [0]) n.

(** What [cpio_parse_header] stores when it returns 0. *)
Record cpio_entry : Type := mk_entry { e_filename : Z; e_filesize : Z; e_data : Z; e_next : Z }.

Definition cpio_parse_header (m : gmap Z Z) (archive : Z) : Z + cpio_entry :=
  if negb (cpio_strncmp m archive CPIO_HEADER_MAGIC 6 =? 0) then inl (-1)
  else
    let filesize := parse_hex_str m (archive + C_FILESIZE) 8 in
    let filename := archive + SIZEOF_CPIO_HEADER in
    if cpio_strncmp m filename CPIO_FOOTER_MAGIC 11 =? 0 then inl 1
    else
      let filename_length := parse_hex_str m (archive + C_NAMESIZE) 8 in
      let data := align_up (u64 (archive + SIZEOF_CPIO_HEADER + filename_length)) CPIO_ALIGNMENT in
      let next := align_up (u64 (data + filesize)) CPIO_ALIGNMENT in
      inr (mk_entry filename filesize data next).

(** The [n]-th entry; NULL is [None].  The loop runs [n + 1] times, not at all for
    a negative [n]. *)
Definition cpio_get_entry (m : gmap Z Z) (archive n : Z) : option cpio_entry :=
  if n <? 0 then None
  else
    (fix entry_loop (header : Z) (n : nat) : option cpio_entry :=
       match cpio_parse_header m header with
       | inl _ => None
       | inr e => match n with O => Some e | S n' => entry_loop e.(e_next) n' end
       end) archive (Z.to_nat n).

(** The data and the size; the fuel bounds the number of entries looked at.
    [n] is -1 in the code: the comparison runs to the end of [name]. *)
Fixpoint cpio_get_file (fuel : nat) (m : gmap Z Z) (header : Z) (name : list Z) : option (option (Z * Z)) :=
  match fuel with
  | O => None
  | S fuel' =>
      match cpio_parse_header m header with
      | inl _ => Some None
      | inr e =>
          if cpio_strncmp m e.(e_filename) name (S (length name)) =? 0
          then Some (Some (e.(e_data), e.(e_filesize)))
          else cpio_get_file fuel' m e.(e_next) name
      end
  end.

(** ** Hexadecimal numbers *)

Definition digit (d : Z) : Z := if d <? 10 then 48 + d else 97 + (d - 10).
(** The [k] digits of [n], most significant first. *)
Fixpoint hex (k : nat) (n : Z) : list Z :=
  match k with O => [] | S k' => digit (n / 16 ^ Z.of_nat k') :: hex k' (n mod 16 ^ Z.of_nat k') end.

Lemma hex_digit_digit d : 0 <= d < 16 -> hex_digit (digit d) = Some d.
Proof.
  intros Hd. unfold digit, hex_digit. destruct (Z.ltb_spec d 10).
  - rewrite (proj2 (andb_true_iff _ _)) by lia. f_equal. lia.
  - rewrite (proj2 (andb_false_iff _ _)) by lia. rewrite (proj2 (andb_true_iff _ _)) by lia. f_equal. lia.
Qed.

Lemma parse_hex_correct k n r :
  0 <= n < 16 ^ Z.of_nat k -> 0 <= r -> (r + 1) * 16 ^ Z.of_nat k <= 2 ^ 64 ->
  parse_hex (hex k n) r = r * 16 ^ Z.of_nat k + n.
Proof.
  revert n r. induction k as [|k IH]; intros n r Hn Hr Hb; cbn [hex parse_hex].
  - change (16 ^ Z.of_nat 0) with 1 in *. lia.
  - rewrite Nat2Z.inj_succ, Z.pow_succ_r in * by lia. set (p := 16 ^ Z.of_nat k) in *.
    assert (0 < p) as Hp by (apply Z.pow_pos_nonneg; lia).
    assert (0 <= n / p < 16) as Hd by (split; [apply Z.div_pos; lia | apply Z.div_lt_upper_bound; lia]).
    pose proof (Z.mod_pos_bound n p Hp) as Hm. pose proof (Z.div_mod n p ltac:(lia)) as Hdm.
    rewrite hex_digit_digit by done.
    assert (0 <= r * 16 + n / p < 2 ^ 64) as Hs by nia. rewrite u64_small by done.
    rewrite IH; [|done|lia|nia]. fold p. nia.
Qed.

Lemma align_up_4_eq n : 0 <= n -> n + 3 < 2 ^ 64 -> align_up n 4 = 4 * ((n + 3) / 4).
Proof.
  intros H0 H1. unfold align_up. rewrite u64_small by lia. replace (n + 4 - 1) with (n + 3) by lia.
  replace (u64 (Z.lnot (4 - 1))) with (Z.shiftl (Z.ones 62) 2) by reflexivity.
  replace (4 * ((n + 3) / 4)) with (Z.shiftl (Z.shiftr (n + 3) 2) 2).
  2:{ rewrite Z.shiftl_mul_pow2, Z.shiftr_div_pow2 by lia. change (2 ^ 2) with 4. lia. }
  apply Z.bits_inj'. intros i Hi. rewrite Z.land_spec, !Z.shiftl_spec by done.
  destruct (Z.ltb_spec i 2) as [Hlt|Hge].
  - rewrite !(Z.testbit_neg_r _ (i - 2)) by lia. apply andb_false_r.
  - rewrite Z.shiftr_spec, Z.testbit_ones_nonneg by lia. replace (i - 2 + 2) with i by lia.
    destruct (Z.ltb_spec (i - 2) 62); [apply andb_true_r|]. rewrite andb_false_r. symmetry.
    apply Z.bits_above_log2; [lia|]. apply (Z.lt_le_trans _ 64); [|lia]. apply Z.log2_lt_pow2; lia.
Qed.

(** ** Archives *)

Definition plain_name (l : list Z) : Prop := 0 ∉ l.

(** Comparison with a terminated string in memory. *)
Lemma strncmp_name m a name str :
  bytes_at m a (S (length name)) = name ++ [0] -> plain_name name -> plain_name str ->
  (strncmp_from m a (str ++ [0]) (S (length str)) =? 0) = bool_decide (name = str).
Proof.
  unfold bytes_at. revert a name. induction str as [|c str IH]; intros a name Hm Hn Hs;
    rewrite zseq_S in Hm; cbn [app length strncmp_from]; rewrite fmap_cons in Hm.
  - destruct name as [|d name]; [injection Hm as Ha | injection Hm as Ha Hm].
    + rewrite Ha. done.
    + apply not_elem_of_cons in Hn as [Hd _]. rewrite Ha, (proj2 (Z.eqb_neq d 0)) by done. cbn [negb].
      rewrite bool_decide_eq_false_2 by done. apply Z.eqb_neq. lia.
  - apply not_elem_of_cons in Hs as [Hc Hs]. destruct name as [|d name]; [injection Hm as Ha | injection Hm as Ha Hm].
    + rewrite Ha, (proj2 (Z.eqb_neq 0 c)) by done. cbn [negb].
      rewrite bool_decide_eq_false_2 by done. apply Z.eqb_neq. lia.
    + apply not_elem_of_cons in Hn as [Hd Hn]. rewrite Ha. destruct (Z.eqb_spec d c) as [->|Hdc]; cbn [negb].
      * rewrite (proj2 (Z.eqb_neq c 0)) by done. rewrite (IH (a + 1) name) by done.
        apply bool_decide_ext. split; [by intros ->|by intros [= ->]].
      * rewrite bool_decide_eq_false_2 by congruence. apply Z.eqb_neq. lia.
Qed.

Lemma strncmp_magic m a l :
  bytes_at m a (length l) = l -> plain_name l -> strncmp_from m a (l ++ [0]) (length l) = 0.
Proof.
  unfold bytes_at. revert a. induction l as [|c l IH]; intros a Hm Hn; [done|].
  cbn [length] in Hm. rewrite zseq_S, fmap_cons in Hm. injection Hm as Ha Hm.
  apply not_elem_of_cons in Hn as [Hc Hn]. cbn [app length strncmp_from]. rewrite Ha, Z.eqb_refl. cbn [negb].
  rewrite (proj2 (Z.eqb_neq c 0)) by done. by apply IH.
Qed.

Lemma header_magic m a : bytes_at m a 6 = CPIO_HEADER_MAGIC -> strncmp_from m a (CPIO_HEADER_MAGIC ++ [0]) 6 = 0.
Proof. intros H. apply (strncmp_magic m a CPIO_HEADER_MAGIC); [done|]. vm_compute. set_solver. Qed.

Lemma footer_magic m a name :
  bytes_at m a (S (length name)) = name ++ [0] -> plain_name name ->
  (strncmp_from m a (CPIO_FOOTER_MAGIC ++ [0]) 11 =? 0) = bool_decide (name = CPIO_FOOTER_MAGIC).
Proof. intros H Hn. apply (strncmp_name m a name CPIO_FOOTER_MAGIC); [done..|]. vm_compute. set_solver. Qed.

(** The memory from [a] on holds the files [l], then the trailer. *)
Inductive archive_at (m : gmap Z Z) : Z -> list (list Z * list Z) -> Prop :=
| archive_end a :
    bytes_at m a 6 = CPIO_HEADER_MAGIC -> bytes_at m (a + 110) 11 = CPIO_FOOTER_MAGIC ++ [0] -> archive_at m a []
| archive_file a name data rest d :
    bytes_at m a 6 = CPIO_HEADER_MAGIC ->
    bytes_at m (a + 54) 8 = hex 8 (Z.of_nat (length data)) ->
    bytes_at m (a + 94) 8 = hex 8 (Z.of_nat (length name) + 1) ->
    bytes_at m (a + 110) (S (length name)) = name ++ [0] -> plain_name name -> name <> CPIO_FOOTER_MAGIC ->
    d = 4 * ((a + 110 + Z.of_nat (length name) + 1 + 3) / 4) ->
    bytes_at m d (length data) = data ->
    0 <= a -> Z.of_nat (length name) + 1 < 2 ^ 32 -> Z.of_nat (length data) < 2 ^ 32 -> a < 2 ^ 63 ->
    archive_at m (4 * ((d + Z.of_nat (length data) + 3) / 4)) rest ->
    archive_at m a ((name, data) :: rest).

Lemma parse_header_file (m : gmap Z Z) (a : Z) (name data : list Z) (d : Z) :
  bytes_at m a 6 = CPIO_HEADER_MAGIC ->
  bytes_at m (a + 54) 8 = hex 8 (Z.of_nat (length data)) ->
  bytes_at m (a + 94) 8 = hex 8 (Z.of_nat (length name) + 1) ->
  bytes_at m (a + 110) (S (length name)) = name ++ [0] -> plain_name name -> name <> CPIO_FOOTER_MAGIC ->
  d = 4 * ((a + 110 + Z.of_nat (length name) + 1 + 3) / 4) ->
  0 <= a -> Z.of_nat (length name) + 1 < 2 ^ 32 -> Z.of_nat (length data) < 2 ^ 32 -> a < 2 ^ 63 ->
  cpio_parse_header m a =
  inr (mk_entry (a + 110) (Z.of_nat (length data)) d (4 * ((d + Z.of_nat (length data) + 3) / 4))).
Proof.
  intros Hmag Hsz Hnsz Hname Hplain Hfoot Hd Ha Hn Hl Ha2. unfold cpio_parse_header, cpio_strncmp, parse_hex_str.
  unfold C_FILESIZE, C_NAMESIZE, SIZEOF_CPIO_HEADER, CPIO_ALIGNMENT.
  rewrite header_magic, Z.eqb_refl by done. cbn [negb]. cbv zeta. rewrite Hsz, Hnsz, (footer_magic m _ name) by done.
  rewrite bool_decide_eq_false_2 by done.
  rewrite !parse_hex_correct by (change (16 ^ Z.of_nat 8) with (2 ^ 32); lia). rewrite !Z.mul_0_l, !Z.add_0_l.
  assert (4 * ((a + 110 + Z.of_nat (length name) + 1 + 3) / 4) < 2 ^ 63 + 2 ^ 33) as Hdb.
  { pose proof (Z.mul_div_le (a + 110 + Z.of_nat (length name) + 1 + 3) 4). lia. }
  assert (0 <= 4 * ((a + 110 + Z.of_nat (length name) + 1 + 3) / 4)) as Hd0.
  { assert (0 <= (a + 110 + Z.of_nat (length name) + 1 + 3) / 4) by (apply Z.div_pos; lia). lia. }
  rewrite (u64_small (a + 110 + _)) by lia. rewrite (align_up_4_eq (a + 110 + _)) by lia.
  rewrite Z.add_assoc, <- Hd in *. rewrite u64_small by lia. rewrite align_up_4_eq by lia. done.
Qed.

(** The first file of that name. *)
Definition first_file (l : list (list Z * list Z)) (name : list Z) : option (list Z) :=
  snd <$> head (filter (fun x => x.1 = name) l).

(** C38 Looking up a name in an archive returns, within as many rounds as the
    archive has entries, the address and size of the contents of the first file
    of that name, and NULL exactly when the archive has no such file. *)
Theorem cpio_get_file_correct (m : gmap Z Z) (a : Z) (l : list (list Z * list Z)) (name : list Z) (fuel : nat) :
  archive_at m a l -> plain_name name -> (length l < fuel)%nat ->
  match first_file l name with
  | None => cpio_get_file fuel m a name = Some None
  | Some data => exists d, cpio_get_file fuel m a name = Some (Some (d, Z.of_nat (length data))) /\
                   bytes_at m d (length data) = data
  end.
Proof.
  intros Har Hname. revert fuel. induction Har as [a Hmag Hfoot|a n data rest d Hmag Hsz Hnsz Hn Hp Hf Hd Hdata H0 H1 H2 H3 Hrest IH];
    intros [|fuel] Hfuel; cbn [length] in Hfuel; try lia; cbn [cpio_get_file].
  - unfold first_file. cbn. unfold cpio_parse_header, cpio_strncmp.
    rewrite header_magic by done. unfold SIZEOF_CPIO_HEADER.
    rewrite (footer_magic m _ CPIO_FOOTER_MAGIC), bool_decide_eq_true_2;
      [done|done|done|vm_compute; set_solver].
  - rewrite (parse_header_file m a n data d) by done. cbn [e_filename e_data e_filesize e_next].
    unfold cpio_strncmp. rewrite (strncmp_name m _ n) by done. unfold first_file.
    destruct (decide (n = name)) as [->|Hne].
    + rewrite bool_decide_eq_true_2, filter_cons_True by done. cbn. by exists d.
    + rewrite bool_decide_eq_false_2, filter_cons_False by done. apply IH. lia.
Qed.

(** ** A concrete archive: the file "a" with the contents "hi" *)

Definition archive_header (name data : list Z) : list Z :=
  CPIO_HEADER_MAGIC ++ replicate 48 48 ++ hex 8 (Z.of_nat (length data)) ++ replicate 32 48 ++
  hex 8 (Z.of_nat (length name) + 1) ++ replicate 8 48 ++ name ++ [0].
Definition sample_archive : gmap Z Z :=
  store_bytes (store_bytes (store_bytes ∅ 4096 (archive_header [97] [104; 105])) 4208 [104; 105])
    4212 (archive_header CPIO_FOOTER_MAGIC []).

Lemma sample_archive_at : archive_at sample_archive 4096 [([97], [104; 105])].
Proof.
  eapply archive_file; [vm_compute; reflexivity.. | vm_compute; set_solver | discriminate | vm_compute; reflexivity
    | vm_compute; reflexivity | lia | vm_compute; reflexivity | vm_compute; reflexivity | lia |].
  apply archive_end; vm_compute; reflexivity.
Qed.

Lemma cpio_get_file_correct_witness : exists d, cpio_get_file 2 sample_archive 4096 [97] = Some (Some (d, 2)).
Proof.
  destruct (cpio_get_file_correct sample_archive 4096 [([97], [104; 105])] [97] 2 sample_archive_at) as (d & H & _).
  - vm_compute. set_solver.
  - cbn. lia.
  - exists d. exact H.
Defined.
