(* ===== verification/Elf.v ===== *)
(** * Loading programs

    [sos/src/elf.c]: the segments of an ELF file are loaded page by page into
    frames mapped both into the new process and, while they are filled, into the
    server at [SOS_ELF_VMEM].  The window shows the same frame as the frame's
    own address, and the model writes it there.

    The theorems: the permissions a segment gets, and the pages a segment is cut
    into: the loop ends, its pieces are the segment in order and none crosses a
    page. *)
From S2P Require Import Prelude Utils Bitfield UtTable Bytes Sos Cspace CspaceSpec CspaceGrow Mapping.
From S2P Require Import UtAlloc FrameTable PageTable AddressSpace Procs SharedBuf Console Vnode.
From S2P Require Import Device Nfs Vfs Pager Libelf.

Definition SOS_ELF_VMEM : Z := 0xD0000000.
(** "__vsyscall" *)
Definition vsyscall_section : list Z := [95; 95; 118; 115; 121; 115; 99; 97; 108; 108].

Definition get_sel4_rights_from_elf (permissions : Z) : Z :=
  let canRead := nz (Z.land permissions PF_R) || nz (Z.land permissions PF_X) in
  let canWrite := nz (Z.land permissions PF_W) in
  if negb canRead && negb canWrite then seL4_AllRights else seL4_CapRights_new false canRead canWrite.

Definition perm_from_elf (permissions : Z) : Z :=
  let p := 0 in
  let p := if nz (Z.land PF_X permissions) then Z.lor p EXEC else p in
  let p := if nz (Z.land PF_R permissions) then Z.lor p READ else p in
  if nz (Z.land PF_W permissions) then Z.lor p WRITE else p.

(** The part of the segment that fits the page of [dst]. *)
Definition piece (dst : Z) : Z := PAGE_SIZE_4K - dst mod PAGE_SIZE_4K.

(** The values of [dst], [src] and [pos] (an [unsigned int]) in the rounds of
    the loop, and whether the loop ended within the fuel. *)
Fixpoint pieces (fuel : nat) (size dst src pos : Z) : list (Z * Z * Z) * bool :=
  if pos <? size then
    match fuel with
    | O => ([], false)
    | S fuel' =>
        let n := piece dst in
        let '(l, complete) := pieces fuel' size (u64 (dst + n)) (u64 (src + n)) (u32 (pos + n)) in
        ((dst, src, pos) :: l, complete)
    end
  else ([], true).

Section elf.
Context {E : Type} `{!Env E, !Sched E}.
Context (dir_entries : nat).
Notation pageout := (pageout dir_entries).

(** The frame of one page: allocated, mapped into the process, recorded.
    Returns the page and the slot of the process's capability, or the error. *)
Definition load_frame (pid cs loadee dst permissions flags : Z) : M (sos E) (Z + Z * Z) :=
  let loadee_vaddr := ROUND_DOWN dst PAGE_SIZE_4K in
  p ← proc_get pid;
  r ← frame_alloc pageout;
  o ← get_frame r.1;
  loadee_slot ← cspace_alloc_slot cs;
  if loadee_slot =? seL4_CapNull then mret (inl (-1))
  else
    page ← deref o;
    fte ← fte_get page;
    err ← cspace_copy cs loadee_slot cs fte.(fte_cap) seL4_AllRights;
    if nz err then cspace_free_slot cs loadee_slot;; mret (inl err)
    else
      x ← proc_load p;
      a ← as_get x.(p_as);
      err ← sos_map_frame pageout cs a.(as_pt) loadee_slot loadee loadee_vaddr permissions
              seL4_ARM_Default_VMAttributes page true;
      fte_modify page (fun e => {| e with fte_user_cap := loadee_slot; fte_user_vaddr := loadee_vaddr;
        fte_pid := pid |});;
      if nz err && negb (err =? seL4_DeleteFirst) then
        _ ← cspace_delete cs loadee_slot; cspace_free_slot cs loadee_slot;; frame_free page;; mret (inl err)
      else if err =? seL4_DeleteFirst then
        x ← proc_of pid;
        reg ← as_seek_region x.(p_as) loadee_vaddr;
        r ← region_get reg;
        when (negb (r.(accmode) =? perm_from_elf flags))
          (_ ← cspace_delete cs loadee_slot; cspace_free_slot cs loadee_slot;; frame_free page);;
        mret (inr (page, loadee_slot))
      else mret (inr (page, loadee_slot)).

(** The window of the loader on that frame; [Some err] on failure. *)
Definition map_window (pid cs loader dst loadee_slot : Z) : M (sos E) (Z + Z) :=
  let loader_vaddr := ROUND_DOWN (u64 (SOS_ELF_VMEM + dst)) PAGE_SIZE_4K in
  p ← proc_get pid;
  loader_slot ← cspace_alloc_slot cs;
  if loader_slot =? seL4_CapNull then mret (inl (-1))
  else
    err ← cspace_copy cs loader_slot cs loadee_slot seL4_AllRights;
    if nz err then
      _ ← cspace_delete cs loadee_slot;
      cspace_free_slot cs loadee_slot;; cspace_free_slot cs loader_slot;; mret (inl err)
    else
      x ← proc_load p;
      a ← as_get x.(p_as);
      err ← sos_map_frame pageout cs a.(as_pt) loader_slot loader loader_vaddr seL4_AllRights
              seL4_ARM_Default_VMAttributes 0 false;
      if nz err then
        _ ← cspace_delete cs loadee_slot; _ ← cspace_delete cs loader_slot;
        cspace_free_slot cs loadee_slot;; cspace_free_slot cs loader_slot;; mret (inl err)
      else mret (inr loader_slot).

(** The body of the loop at one piece: [Some err] ends it. *)
Definition load_piece (pid cs loader loadee file_size permissions flags : Z) (x : Z * Z * Z) : M (sos E) (option Z) :=
  let '(dst, src, pos) := x in
  r ← load_frame pid cs loadee dst permissions flags;
  match r with
  | inl err => mret (Some err)
  | inr (page, loadee_slot) =>
      w ← map_window pid cs loader dst loadee_slot;
      match w with
      | inl err => mret (Some err)
      | inr loader_slot =>
          when (pos <? file_size)
            (vaddr ← page_num_to_vaddr page;
             l ← mem_read src (MIN (piece dst) (file_size - pos));
             mem_write (vaddr + dst mod PAGE_SIZE_4K) l);;
          let loader_vaddr := ROUND_DOWN (u64 (SOS_ELF_VMEM + dst)) PAGE_SIZE_4K in
          let loadee_vaddr := ROUND_DOWN dst PAGE_SIZE_4K in
          _ ← call PageGlobalDirectory_Unify_Instruction [loader; loader_vaddr; loader_vaddr + PAGE_SIZE_4K];
          _ ← call PageGlobalDirectory_Unify_Instruction [loadee; loadee_vaddr; loadee_vaddr + PAGE_SIZE_4K];
          _ ← cspace_delete cs loader_slot;
          cspace_free_slot cs loader_slot;;
          mret None
      end
  end.

Fixpoint load_pieces (body : Z * Z * Z -> M (sos E) (option Z)) (l : list (Z * Z * Z)) (complete : bool) : M (sos E) Z :=
  match l with
  | [] => if complete then mret 0 else stuck NoFuel
  | x :: l' => r ← body x; match r with Some err => mret err | None => load_pieces body l' complete end
  end.

Definition load_segment_into_vspace (pid cs loader loadee src segment_size file_size dst permissions flags : Z) :
    M (sos E) Z :=
  assert (file_size <=? segment_size);;
  _ ← proc_get pid;
  let '(l, complete) := pieces (Z.to_nat (segment_size / PAGE_SIZE_4K + 2)) segment_size dst src 0 in
  load_pieces (load_piece pid cs loader loadee file_size permissions flags) l complete.

(** The loop over the program headers: false when a segment failed. *)
Fixpoint load_headers (l : list Z) (pid cs loader loadee f : Z) : M (sos E) bool :=
  match l with
  | [] => mret true
  | i :: l' =>
      s ← get;
      let m := s.(mem) in
      if negb (elf_getProgramHeaderType m f i =? PT_LOAD) then load_headers l' pid cs loader loadee f
      else
        let source := u64 (f + elf_getProgramHeaderOffset m f i) in
        let file_size := elf_getProgramHeaderFileSize m f i in
        let segment_size := elf_getProgramHeaderMemorySize m f i in
        let vaddr := elf_getProgramHeaderVaddr m f i in
        let flags := elf_getProgramHeaderFlags m f i in
        err ← load_segment_into_vspace pid cs loader loadee source segment_size file_size vaddr
                (get_sel4_rights_from_elf flags) flags;
        if nz err then mret false
        else
          x ← proc_of pid;
          _ ← as_define_region x.(p_as) vaddr segment_size (perm_from_elf flags);
          load_headers l' pid cs loader loadee f
  end.

(** The entry point and the system-call table. *)
Definition note_entry (f : Z) : M (sos E) unit :=
  s ← get;
  sect ← deref (elf_getSectionNamed s.(mem) f vsyscall_section);
  vm_modify (fun v => {| v with vsyscall_table := load s.(mem) sect.1 8;
    entry_point := elf_getEntryPoint s.(mem) f |}).

Definition load_program (pid cs loader loadee f : Z) : M (sos E) bool :=
  s ← get;
  load_headers (zseq 0 (Z.to_nat (elf_getNumProgramHeaders s.(mem) f))) pid cs loader loadee f.

Definition elf_load (pid cs loader loadee f : Z) : M (sos E) Z :=
  _ ← proc_get pid;
  s ← get;
  if (f =? 0) || negb (elf_checkFile s.(mem) f =? 0) then mret (-1)
  else
    ok ← load_program pid cs loader loadee f;
    if negb ok then mret (-1) else note_entry f;; mret 0.

(** The file is read a page at a time; a read that returns nothing is repeated
    for ever. *)
Fixpoint read_file (fuel : nat) (vn u f size offset : Z) : M (sos E) unit :=
  match fuel with
  | O => stuck NoFuel
  | S fuel' =>
      if offset <? size then
        x ← uio_load u;
        uio_put u {| x with u_offset := offset; u_len := MIN PAGE_SIZE_4K (size - offset) |};;
        n ← VOP_READ vn u;
        let bytes_read := u64 n in
        _ ← sos_copyout KERNEL_PROC (u64 (f + offset)) bytes_read;
        read_file fuel' vn u f size (u64 (offset + bytes_read))
      else mret tt
  end.

Definition elf_load_fs (pid cs loader loadee : Z) (path : list Z) : M (sos E) Z :=
  r ← vfs_lookup dir_entries path false KERNEL_PROC;
  if nz r.1 then mret (-1)
  else
    vn ← deref r.2;
    st ← VOP_STAT vn KERNEL_PROC;
    if nz st.1 then mret (-1)
    else
      buf ← deref st.2;
      if negb (nz (Z.land buf.(st_fmode) FM_EXEC)) then mret (-1)
      else
        _ ← VOP_EACHOPEN vn O_RDONLY KERNEL_PROC;
        _ ← proc_get pid;
        assert (negb (vn =? 0));;
        u ← malloc SIZEOF_UIO;
        uio_init u UIO_READ PAGE_SIZE_4K 0 KERNEL_PROC;;
        f ← malloc buf.(st_size);
        assert (negb (f =? 0));;
        read_file (S (Z.to_nat buf.(st_size))) vn u f buf.(st_size) 0;;
        uio_free u;;
        ok ← load_program pid cs loader loadee f;
        if negb ok then mret (-1)
        else note_entry f;; free f;; mret 0.

Definition get_last_vsyscall_table : M (sos E) Z := v ← vm_get; mret v.(vsyscall_table).
Definition get_last_entry_point : M (sos E) Z := v ← vm_get; mret v.(entry_point).
End elf.

(** ** Permissions *)

(** The rights of a loaded segment: the region is readable, writable and
    executable exactly as the program header says; the frames are mapped
    writable exactly when the header has the write flag, and readable when it
    has the read or the execute flag, except that a header without any of the
    three gets all rights. *)
Theorem elf_permissions (flags : Z) :
  let r := Z.testbit flags 2 in let w := Z.testbit flags 1 in let x := Z.testbit flags 0 in
  perm_from_elf flags = Z.lor (if x then EXEC else 0) (Z.lor (if r then READ else 0) (if w then WRITE else 0)) /\
  get_sel4_rights_from_elf flags =
    if r || x || w then seL4_CapRights_new false (r || x) w else seL4_AllRights.
Proof.
  assert (forall k, 0 <= k -> nz (Z.land flags (2 ^ k)) = Z.testbit flags k) as Hbit.
  { intros k Hk. unfold nz. destruct (Z.testbit flags k) eqn:Hb.
    - rewrite (proj2 (Z.eqb_neq _ _)); [done|]. intros H0. apply (f_equal (fun z => Z.testbit z k)) in H0.
      rewrite Z.land_spec, Hb, Z.pow2_bits_true, Z.bits_0 in H0 by done. done.
    - rewrite (proj2 (Z.eqb_eq _ _)); [done|]. apply Z.bits_inj'. intros i Hi. rewrite Z.land_spec, Z.bits_0.
      destruct (decide (i = k)) as [->|]; [by rewrite Hb|]. rewrite Z.pow2_bits_false by congruence. apply andb_false_r. }
  pose proof (Hbit 0 ltac:(lia)) as H0. pose proof (Hbit 1 ltac:(lia)) as H1. pose proof (Hbit 2 ltac:(lia)) as H2.
  change (2 ^ 0) with PF_X in H0. change (2 ^ 1) with PF_W in H1. change (2 ^ 2) with PF_R in H2.
  unfold perm_from_elf, get_sel4_rights_from_elf. rewrite !(Z.land_comm PF_X), !(Z.land_comm PF_R), !(Z.land_comm PF_W).
  rewrite H0, H1, H2. by destruct (Z.testbit flags 0), (Z.testbit flags 1), (Z.testbit flags 2).
Qed.

(** ** Pieces *)

Lemma piece_bounds dst : 0 <= dst -> 0 < piece dst <= 4096 /\ (dst + piece dst) mod 4096 = 0.
Proof.
  intros Hd. unfold piece. rewrite PAGE_SIZE_4K_eq. pose proof (Z.mod_pos_bound dst 4096 ltac:(lia)).
  split; [lia|]. pose proof (Z.div_mod dst 4096 ltac:(lia)).
  replace (dst + (4096 - dst mod 4096)) with ((dst / 4096 + 1) * 4096) by lia. apply Z.mod_mul. lia.
Qed.

(** A list of pieces covers a segment from [pos] on: each starts where the one
    before ended, stays within its page, and the last reaches the end. *)
Fixpoint covers (size dst src pos : Z) (l : list (Z * Z * Z)) : Prop :=
  match l with
  | [] => size <= pos
  | x :: l' => pos < size /\ x = (dst, src, pos) /\ dst / 4096 = (dst + piece dst - 1) / 4096 /\
      covers size (dst + piece dst) (src + piece dst) (pos + piece dst) l'
  end.

Lemma pieces_cover fuel size dst src pos :
  0 <= dst -> 0 <= src -> 0 <= pos -> size < 2 ^ 31 ->
  dst + (size - pos) < 2 ^ 63 -> src + (size - pos) < 2 ^ 63 ->
  (dst mod 4096 = 0 /\ size - pos <= 4096 * Z.of_nat fuel \/ size - pos <= 4096 * (Z.of_nat fuel - 1)) ->
  exists l, pieces fuel size dst src pos = (l, true) /\ covers size dst src pos l.
Proof.
  revert dst src pos. induction fuel as [|fuel IH]; intros dst src pos Hd Hs Hp Hsz Hdb Hsb Hf; cbn [pieces];
    destruct (Z.ltb_spec pos size) as [Hlt|Hge]; try (by exists []); [lia|].
  pose proof (piece_bounds dst Hd) as [Hn Hal]. set (n := piece dst) in *.
  assert (dst mod 4096 = 0 -> n = 4096) as Hfull.
  { intros H0. unfold n, piece. rewrite PAGE_SIZE_4K_eq. lia. }
  rewrite (u64_small (dst + n)), (u64_small (src + n)), (u32_small (pos + n)) by lia. cbv zeta.
  destruct (IH (dst + n) (src + n) (pos + n)) as (l & -> & Hc); try lia.
  eexists. split; [done|]. cbn [covers]. fold n. split; [done|]. split; [done|]. split; [|done].
  unfold n, piece. rewrite PAGE_SIZE_4K_eq. replace (dst + (4096 - dst mod 4096) - 1) with (dst / 4096 * 4096 + 4095).
  - rewrite Z.div_add_l by lia. change (4095 / 4096) with 0. lia.
  - pose proof (Z.div_mod dst 4096 ltac:(lia)). lia.
Qed.

(** C40 The loop that loads a segment ends after at most one round per page it
    touches, and its rounds are exactly the segment in order: every piece lies
    within one page and starts, in the file and in memory, where the piece
    before it ended. *)
Theorem segment_cut_into_pages (size dst src : Z) :
  0 <= dst -> 0 <= src -> 0 <= size < 2 ^ 31 -> dst + size < 2 ^ 63 -> src + size < 2 ^ 63 ->
  exists l, pieces (Z.to_nat (size / PAGE_SIZE_4K + 2)) size dst src 0 = (l, true) /\ covers size dst src 0 l.
Proof.
  intros Hd Hs Hsz Hdb Hsb. apply pieces_cover; try lia. right. rewrite PAGE_SIZE_4K_eq.
  assert (0 <= size / 4096) by (apply Z.div_pos; lia). rewrite Z2Nat.id by lia.
  pose proof (Z.div_mod size 4096 ltac:(lia)). pose proof (Z.mod_pos_bound size 4096 ltac:(lia)). lia.
Qed.

(** ** On a concrete segment *)

Lemma segment_cut_into_pages_witness : exists l,
  pieces 4 10000 4200000 64 0 = (l, true) /\ covers 10000 4200000 64 0 l.
Proof. apply (segment_cut_into_pages 10000 4200000 64); lia. Defined.
