(* ===== verification/Vm.v ===== *)
(** * Page faults

    [vm_fault] and [vm_bootstrap] of [sos/src/vm/pagetable.c]: the handler of a
    virtual-memory fault of a process.  A fault in a region of the process backs
    the page with a new frame, fetches it from the page file, or maps it again
    when the clock hand had unmapped it.

    The theorems: what a first fault does to the page table and the frame table;
    a page the clock hand had unmapped gets its reference bit back; a fault
    outside every region stops the whole server. *)
From S2P Require Import Prelude Utils Bitfield UtTable Bytes Sos Cspace Sample CspaceSpec CspaceGrow Mapping.
From S2P Require Import UtAlloc Layers FrameTable FrameClock PageTable FrameSpec PageSpec ObjectSpec AddressSpace.
From S2P Require Import Procs SharedBuf Console Vnode Device Nfs Vfs Pager.

Section vm.
Context {E : Type} `{!Env E, !Sched E}.
Context (dir_entries : nat).
Notation pageout := (pageout dir_entries).

(** A new frame mapped at the page [va] of process [p] with address space [a]:
    the page, the address of the frame in the server, and the slot of the
    process's capability. *)
Definition fault_frame (p a va : Z) : M (sos E) (Z * Z * Z) :=
  v ← vm_get;
  let cs := v.(vm_cspace) in
  r ← frame_alloc pageout;
  o ← get_frame r.1;
  slot ← cspace_alloc_slot cs;
  page ← deref o;
  fte ← fte_get page;
  _ ← cspace_copy cs slot cs fte.(fte_cap) seL4_AllRights;
  x ← proc_load p;
  y ← as_get a;
  _ ← sos_map_frame pageout cs y.(as_pt) slot x.(vspace) va seL4_AllRights seL4_ARM_Default_VMAttributes r.1 true;
  mret (r.1, r.2, slot).

(** A page the clock hand unmapped.  The second assertion assigns. *)
Definition fault_remap (pid p va entry : Z) : M (sos E) unit :=
  o ← get_frame entry;
  page ← deref o;
  fte ← fte_get page;
  assert (negb fte.(fte_ref_bit));;
  fte_modify page (fun e => {| e with fte_pid := pid |});;
  assert (nz pid);;
  x ← proc_load p;
  _ ← call Page_Map [fte.(fte_user_cap); x.(vspace); va; seL4_AllRights; seL4_ARM_Default_VMAttributes];
  fte_modify page (fun e => {| e with fte_ref_bit := true |}).

(** A page in the page file. *)
Definition fault_pagein (pid p a va entry : Z) : M (sos E) unit :=
  r ← fault_frame p a va;
  let '(page, vaddr, slot) := r in
  _ ← pagein entry vaddr;
  v ← vm_get;
  _ ← sos_copyin pid v.(shared_buf_begin) PAGE_SIZE_4K;
  fte_modify page (fun e => {| e with fte_user_cap := slot |});;
  fte_modify page (fun e => {| e with fte_pid := pid |});;
  fte_modify page (fun e => {| e with fte_user_vaddr := va |}).

(** The first fault of a page. *)
Definition fault_new (pid p a va : Z) : M (sos E) unit :=
  r ← fault_frame p a va;
  let '(page, _, slot) := r in
  fte_modify page (fun e => {| e with fte_pid := pid |});;
  fte_modify page (fun e => {| e with fte_user_vaddr := va |});;
  fte_modify page (fun e => {| e with fte_user_cap := slot |}).

(** A fault in a region that can be read or written. *)
Definition fault_resolve (pid p a faultaddress : Z) : M (sos E) unit :=
  let va := PAGE_ALIGN_4K faultaddress in
  y ← as_get a;
  pte ← page_lookup y.(as_pt) va;
  match pte with
  | None => fault_new pid p a va
  | Some (leaf, i) =>
      w ← word_get leaf i;
      let entry := page_entry_number w in
      let bits := page_get_bits w in
      if bits =? 0 then fault_remap pid p va entry
      else if nz (Z.land bits P_PAGEFILE) then fault_pagein pid p a va entry
      else fault_new pid p a va
  end.

(** [reg != NULL && (reg->accmode & READ || reg->accmode & WRITE)] *)
Definition fault_allowed (reg : Z) : M (sos E) bool :=
  if reg =? 0 then mret false
  else r ← region_get reg; mret (nz (Z.land r.(accmode) READ) || nz (Z.land r.(accmode) WRITE)).

Definition vm_fault (pid : Z) : M (sos E) unit :=
  p ← proc_get pid;
  faultaddress ← call GetMR [1];
  x ← proc_load p;
  let a := x.(p_as) in
  v ← vm_get;
  let cs := v.(vm_cspace) in
  reply ← cspace_alloc_slot cs;
  _ ← cspace_save_reply_cap cs reply;
  reg ← as_seek_region a faultaddress;
  ok ← fault_allowed reg;
  (if (ok : bool) then fault_resolve pid p a faultaddress;; _ ← call SetMR [0; 0]; mret tt
   else (* [ZF_LOGF] *) stuck Assert);;
  _ ← call Send [reply; 0; 0; 0; 1];
  cspace_free_slot cs reply.

Definition vm_bootstrap (cs : Z) : M (sos E) unit := vm_modify (fun v => {| v with vm_cspace := cs |}).
End vm.

(** ** What a fault does *)

Section spec.
Context {E : Type} `{!Env E, !Sched E}.
Context (dir_entries : nat).
Implicit Types s : sos E.

(** Process [pid], at [p], faults at address [va]; its address space is [y] and
    has the regions [rs]. *)
Record faulting s (pid p : Z) (x : proc) (y : addrspace) (rs : list region) (va : Z) : Prop := mk_faulting {
  fl_pid : 0 <= pid;
  fl_get : s.(pcb).(procs) !! Z.to_nat pid = Some p;
  fl_proc : s.(pcb).(proc_heap) !! p = Some x;
  fl_as : s.(vm).(ases) !! x.(p_as) = Some y;
  fl_inv : as_inv s x.(p_as) rs;
  fl_addr : (ext GetMR [1] s.(env)).1 = va }.

Definition permitted (r : region) : bool := nz (Z.land r.(accmode) READ) || nz (Z.land r.(accmode) WRITE).

(** [va] lies in a region of [rs] that can be read or written. *)
Definition in_region (rs : list region) (va : Z) (r : region) : Prop := r ∈ rs /\ r.(vbase) <= va <= r.(vtop).

(** The memory of processes and the process table are as they were. *)
Definition same_maps s s' : Prop :=
  s'.(ft) = s.(ft) /\ s'.(words) = s.(words) /\ s'.(mem) = s.(mem) /\ s'.(vm) = s.(vm) /\ s'.(pcb) = s.(pcb).
#[local] Instance same_maps_layer : Layer same_maps.
Proof.
  split; [split; [done|]|done]. intros s1 s2 s3 (? & ? & ? & ? & ?) (? & ? & ? & ? & ?).
  unfold same_maps. intuition congruence.
Qed.

Lemma ft_inv_maps s s' f : same_maps s s' -> ft_inv s f -> ft_inv s' f.
Proof. intros (Hf & Hw & Hm & _). by apply ft_inv_same_vm. Qed.

Lemma as_inv_vm s s' a rs : s'.(vm) = s.(vm) -> as_inv s a rs -> as_inv s' a rs.
Proof. intros Heq [Hc Ho Hd]. split; [by rewrite Heq|done|done]. Qed.

(** The handler up to the question whether the address may be used. *)
Lemma vm_fault_seek s s' pid p x y rs va :
  faulting s pid p x y rs va -> vm_fault dir_entries pid s = Ok tt s' ->
  exists s1 s2 r, same_maps s s1 /\ in_region rs va r /\ permitted r = true /\
    fault_resolve dir_entries pid p x.(p_as) va s1 = Ok tt s2 /\ same_maps s2 s'.
Proof.
  intros [Hpid Hget Hx Hy Has Hva] Hrun. unfold vm_fault in Hrun.
  rewrite (bind_run _ _ _ _ _ (proc_get_run s pid p Hpid Hget)) in Hrun.
  apply bind_Ok in Hrun as (f & s1 & H1 & Hrun). destruct (call_inv _ _ _ _ _ H1) as (_ & Hf & _).
  rewrite Hf in Hva. simpl in Hva. subst f. apply (layer_call same_maps) in H1.
  assert (s1.(pcb).(proc_heap) !! p = Some x) as Hx1 by (by destruct H1 as (_ & _ & _ & _ & ->)).
  rewrite (bind_run _ _ _ _ _ (proc_load_run s1 p x Hx1)) in Hrun. unfold vm_get in Hrun.
  rewrite (bind_run _ _ s1 s1.(vm) s1) in Hrun by done.
  apply bind_Ok in Hrun as (reply & s2 & H2%(layer_cspace_alloc_slot same_maps) & Hrun).
  apply bind_Ok in Hrun as (err & s3 & H3%(layer_cspace_save_reply_cap same_maps) & Hrun).
  assert (same_maps s s3) as H13 by (etrans; [exact H1|etrans; [exact H2|exact H3]]).
  destruct (as_seek_region_spec s3 x.(p_as) va rs) as (reg & Hreg & Hspec).
  { apply (as_inv_vm s); [apply H13|done]. }
  rewrite (bind_run _ _ _ _ _ Hreg) in Hrun. unfold fault_allowed in Hrun.
  destruct (reg =? 0); [by rewrite ret_bind in Hrun|]. destruct Hspec as (r & Hr & Hin & Hrange & _).
  rewrite (bind_run _ _ s3 (permitted r) s3) in Hrun.
  2:{ by rewrite (bind_run _ _ _ _ _ (region_get_run s3 reg r Hr)). }
  destruct (permitted r) eqn:Hperm; [|done].
  apply bind_Ok in Hrun as ([] & s4 & H4 & Hrun). apply bind_Ok in H4 as ([] & s5 & H5 & H4).
  exists s3, s5, r. split; [done|]. split; [done|]. split; [done|]. split; [exact H5|].
  assert (preserves same_maps (_ ← call SetMR [0; 0]; mret tt)) as Hset by preserves. apply Hset in H4.
  assert (preserves same_maps (_ ← call Send [reply; 0; 0; 0; 1]; cspace_free_slot s1.(vm).(vm_cspace) reply)) as Hsend
    by preserves. apply Hsend in Hrun. by etrans.
Qed.

(** A fault at an address that no region of the process contains does not
    return: the handler runs into [ZF_LOGF], and the server stops. *)
Theorem vm_fault_outside_regions s s' pid p x y rs va :
  faulting s pid p x y rs va -> Forall (fun r => ~ r.(vbase) <= va <= r.(vtop)) rs ->
  vm_fault dir_entries pid s <> Ok tt s'.
Proof.
  intros Hf Hout Hrun. destruct (vm_fault_seek _ _ _ _ _ _ _ _ Hf Hrun) as (s1 & s2 & r & _ & [Hin Hr] & _).
  rewrite Forall_forall in Hout. by apply (Hout r).
Qed.

(** *** A page seen for the first time *)

Lemma leaf_there w pt va : pt_wf w pt -> leaf_of w pt va <> 0 -> is_Some (w !! leaf_of w pt va).
Proof. intros Hpt Hn. by apply (pw_node _ _ Hpt); [|apply path_in_index|]. Qed.

(** The page has no entry, or one that was never used. *)
Definition unbacked (w : gmap Z (gmap Z Z)) (pt va : Z) : Prop :=
  let leaf := leaf_of w pt va in leaf = 0 \/ page_get_bits (wget w leaf (get_pt_index va).(l4)) = P_INVALID.

Lemma fte_get_inv i s e s' :
  fte_get i s = Ok e s' -> s' = s /\ 0 <= i /\ s.(ft).(frame_table) !! Z.to_nat i = Some e.
Proof.
  unfold fte_get, ft_get, index. rewrite (bind_run _ _ s s.(ft) s) by done. intros Hrun.
  destruct (Z.leb_spec 0 i); [|done]. rewrite access_bind in Hrun by done.
  destruct (s.(ft).(frame_table) !! Z.to_nat i); [|done]. by injection Hrun as <- <-.
Qed.

Lemma fte_modify_inv i f s a s' :
  fte_modify i f s = Ok a s' -> exists e, 0 <= i /\ s.(ft).(frame_table) !! Z.to_nat i = Some e /\
    s'.(ft).(frame_table) = <[Z.to_nat i := f e]> s.(ft).(frame_table) /\
    s'.(words) = s.(words) /\ s'.(mem) = s.(mem) /\ s'.(vm) = s.(vm) /\ s'.(pcb) = s.(pcb).
Proof.
  unfold fte_modify. intros (e & s1 & (-> & Hi & He)%fte_get_inv & Hrun)%bind_Ok.
  injection Hrun as _ <-. by exists e.
Qed.

(** An allocation that finds a free page changes neither address spaces nor
    processes. *)
Definition same_owners s s' : Prop := s'.(vm) = s.(vm) /\ s'.(pcb) = s.(pcb).
#[local] Instance same_owners_layer : Layer same_owners.
Proof.
  split; [split; [done|]|done]. intros s1 s2 s3 [H1 H2] [H3 H4]. unfold same_owners. by rewrite H3, H4.
Qed.

Lemma frame_alloc_owners s s' q f r :
  ft_inv s (q :: f) -> frame_alloc (pageout dir_entries) s = Ok r s' -> same_owners s s'.
Proof.
  intros I. unfold frame_alloc. rewrite (frame_alloc_free_page _ s q f false I). revert r s'.
  match goal with |- forall r s', ?c s = _ -> _ => cut (preserves same_owners c) end; [intros H r s'; apply H|].
  assert (forall g, preserves same_owners (ft_modify (E:=E) g)) as Hft by (intros g; by apply preserves_modify).
  assert (forall v, preserves same_owners (zero_page (E:=E) v)) as Hz by (intros v; by apply preserves_modify).
  unfold alloc_retype_map, fte_modify, fte_get, ft_get. preserves.
Qed.

(** The frame for the page, still unmapped: the first free one, or none. *)
Definition got_frame s (q page vaddr : Z) : Prop :=
  (vaddr = 0 /\ page = 0) \/ (vaddr = page_addr s.(ft) q /\ vaddr <> 0 /\ page = q).

Lemma fault_alloc_spec s s' q f pt l page vaddr :
  pt_wf s.(words) pt -> objects_ok s.(words) pt l -> s.(words) !! 0 = None -> ft_inv s (q :: f) ->
  frame_alloc (pageout dir_entries) s = Ok (page, vaddr) s' ->
  got_frame s q page vaddr /\ same_owners s s' /\ stored s' pt (length f) /\ tree_kept pt s.(words) s'.(words).
Proof.
  intros Hpt Ho Hnull Hft Hrun. pose proof (frame_alloc_owners _ _ _ _ _ Hft Hrun) as Hown.
  destruct (frame_alloc_spec _ _ _ _ _ _ _ _ Hft Hrun) as [(-> & -> & (_ & Hw & _) & Hft')|(-> & -> & Hft' & Hw & _)].
  - split; [by left|]. split; [done|]. rewrite Hw. split; [|apply tree_kept_refl].
    split; rewrite ?Hw; [done|by exists l|done|]. exists (q :: f). split; [done|]. cbn. lia.
  - assert (s.(words) !! page_addr s.(ft) q = None) as Hfresh.
    { apply (fi_fresh _ _ Hft). apply elem_of_cons. by left. }
    pose proof (page_addr_pos s q f Hft) as Hpos. rewrite Hw.
    pose proof (fresh_kept pt s.(words) _ ∅ Hpt Hfresh) as K.
    split; [right; split; [done|]; split; [lia|done]|]. split; [done|]. split; [|done].
    split; rewrite ?Hw; [by apply (kept_wf s.(words)) | exists l; by apply objects_fresh | | by exists f].
    by rewrite lookup_insert_ne by lia.
Qed.

(** What [fault_frame] calls and what becomes of the page table: [r] is the
    result of [sos_map_frame], which the handler ignores. *)
Record frame_made s s' (x : proc) (y : addrspace) (va q page vaddr slot r : Z) (s2 s3 : sos E) : Prop := mk_frame_made {
  fm_alloc : frame_alloc (pageout dir_entries) s = Ok (page, vaddr) s2;
  fm_frame : got_frame s q page vaddr;
  fm_between : same_maps s2 s3;
  fm_map : sos_map_frame (pageout dir_entries) s.(vm).(vm_cspace) y.(as_pt) slot x.(vspace) va
             seL4_AllRights seL4_ARM_Default_VMAttributes page true s3 = Ok r s';
  fm_wf : pt_wf s'.(words) y.(as_pt);
  fm_pages : forall u, resolve s'.(words) y.(as_pt) u =
    if decide (r = 0 /\ vpn u = vpn va) then present page else resolve s.(words) y.(as_pt) u }.

Lemma fault_frame_spec s s' p x y va q f l page vaddr slot :
  s.(pcb).(proc_heap) !! p = Some x -> s.(vm).(ases) !! x.(p_as) = Some y ->
  pt_wf s.(words) y.(as_pt) -> objects_ok s.(words) y.(as_pt) l -> s.(words) !! 0 = None ->
  ft_inv s (q :: f) -> (6 <= length f)%nat ->
  fault_frame dir_entries p x.(p_as) va s = Ok (page, vaddr, slot) s' ->
  exists r s2 s3, frame_made s s' x y va q page vaddr slot r s2 s3.
Proof.
  intros Hx Hy Hpt Ho Hnull Hft Hlen Hrun. unfold fault_frame, vm_get in Hrun.
  rewrite (bind_run _ _ s s.(vm) s) in Hrun by done.
  apply bind_Ok in Hrun as ([pg va0] & s1 & H1 & Hrun).
  destruct (fault_alloc_spec _ _ _ _ _ _ _ _ Hpt Ho Hnull Hft H1) as (Hpage & [Hv1 Hp1] & St1 & K1).
  unfold get_frame, ft_get in Hrun. cbn [fst snd] in Hrun.
  apply bind_Ok in Hrun as (o & s2 & H2 & Hrun). rewrite (bind_run _ _ s1 s1.(ft) s1) in H2 by done. injection H2 as <- <-.
  apply bind_Ok in Hrun as (sl & s3 & H3%(layer_cspace_alloc_slot same_maps) & Hrun).
  apply bind_Ok in Hrun as (pg' & s4 & [_ ->]%deref_Ok & Hrun).
  apply bind_Ok in Hrun as (e & s4 & (-> & _)%fte_get_inv & Hrun).
  apply bind_Ok in Hrun as (err & s4 & H4%(layer_cspace_copy same_maps) & Hrun).
  assert (same_maps s1 s4) as H14 by (by etrans).
  pose proof H14 as (Hf4 & Hw4 & Hm4 & Hv4 & Hp4).
  assert (s4.(pcb).(proc_heap) !! p = Some x) as Hx4 by congruence.
  assert (s4.(vm).(ases) !! x.(p_as) = Some y) as Hy4 by congruence.
  rewrite (bind_run _ _ _ _ _ (proc_load_run s4 p x Hx4)), (bind_run _ _ _ _ _ (as_get_run s4 _ y Hy4)) in Hrun.
  apply bind_Ok in Hrun as (r & s5 & H5 & Hrun). injection Hrun as -> -> -> ->.
  assert (stored s4 y.(as_pt) 6) as St4.
  { apply (stored_le _ _ (length f)); [done|]. apply (stored_same_vm s1); done. }
  destruct (sos_map_frame_spec _ _ _ _ _ _ _ _ _ _ _ _ St4 H5) as (Hwf & _ & Hok & Hfail).
  exists r, s1, s4. split; [done..|]. intros u.
  rewrite <- (kept_resolve _ _ _ Hpt K1), <- Hw4. destruct (Z.eq_dec r 0) as [->|Hr].
  - rewrite Hok by done. by repeat case_decide; try naive_solver.
  - rewrite Hfail by done. by rewrite decide_False by naive_solver.
Qed.

(** The entry of the frame, once the handler has recorded the page in it. *)
Definition claimed (e : frame_table_entry) (pid va slot : Z) : frame_table_entry :=
  {| e with fte_pid := pid; fte_user_vaddr := va; fte_user_cap := slot |}.

Lemma fault_new_spec s s' pid p x y va q f l :
  s.(pcb).(proc_heap) !! p = Some x -> s.(vm).(ases) !! x.(p_as) = Some y ->
  pt_wf s.(words) y.(as_pt) -> objects_ok s.(words) y.(as_pt) l -> s.(words) !! 0 = None ->
  ft_inv s (q :: f) -> (6 <= length f)%nat ->
  fault_new dir_entries pid p x.(p_as) va s = Ok tt s' ->
  exists page vaddr slot r s2 s3 s4 e,
    frame_made s s4 x y va q page vaddr slot r s2 s3 /\ s'.(words) = s4.(words) /\
    s4.(ft).(frame_table) !! Z.to_nat page = Some e /\
    s'.(ft).(frame_table) = <[Z.to_nat page := claimed e pid va slot]> s4.(ft).(frame_table).
Proof.
  intros Hx Hy Hpt Ho Hnull Hft Hlen Hrun. unfold fault_new in Hrun.
  apply bind_Ok in Hrun as ([[page vaddr] slot] & s1 & H1 & Hrun).
  destruct (fault_frame_spec _ _ _ _ _ _ _ _ _ _ _ _ Hx Hy Hpt Ho Hnull Hft Hlen H1) as (r & s2' & s3' & Hmade).
  apply bind_Ok in Hrun as ([] & s2 & (e1 & Hpos & He1 & Hf2 & Hw2 & _)%fte_modify_inv & Hrun).
  apply bind_Ok in Hrun as ([] & s3 & (e2 & _ & He2 & Hf3 & Hw3 & _)%fte_modify_inv & Hrun).
  apply fte_modify_inv in Hrun as (e3 & _ & He3 & Hf4 & Hw4 & _).
  assert (Z.to_nat page < length s1.(ft).(frame_table))%nat as Hlt by (by apply lookup_lt_Some in He1).
  rewrite Hf2, list_lookup_insert_eq in He2 by done. injection He2 as <-.
  rewrite Hf3, list_lookup_insert_eq in He3 by (by rewrite Hf2, length_insert). injection He3 as <-.
  exists page, vaddr, slot, r, s2', s3', s1, e1. split; [done|]. split; [congruence|]. split; [done|].
  by rewrite Hf4, Hf3, Hf2, !list_insert_insert_eq.
Qed.

Lemma vpn_aligned va : 0 <= va < 2 ^ 64 -> vpn (PAGE_ALIGN_4K va) = vpn va.
Proof.
  intros Hva. unfold vpn. rewrite PAGE_ALIGN_4K_eq by done. f_equal.
  rewrite (Z.div_mod va 4096) at 1 by lia. replace (4096 * (va / 4096) + va mod 4096 - va mod 4096) with (va / 4096 * 4096) by lia.
  by apply Z.div_mul.
Qed.

(** The branch of a page without a used entry. *)
Lemma fault_resolve_unbacked s s' pid p a y va :
  s.(vm).(ases) !! a = Some y -> pt_wf s.(words) y.(as_pt) -> unbacked s.(words) y.(as_pt) (PAGE_ALIGN_4K va) ->
  fault_resolve dir_entries pid p a va s = Ok tt s' -> fault_new dir_entries pid p a (PAGE_ALIGN_4K va) s = Ok tt s'.
Proof.
  intros Hy Hpt Hun. unfold fault_resolve. cbv zeta. rewrite (bind_run _ _ _ _ _ (as_get_run s a y Hy)).
  rewrite (bind_run _ _ _ _ _ (page_lookup_run s y.(as_pt) _ Hpt)). cbv zeta.
  destruct (Z.eqb_spec (leaf_of s.(words) y.(as_pt) (PAGE_ALIGN_4K va)) 0) as [|Hn]; [done|].
  destruct Hun as [|Hbits]; [done|].
  rewrite (bind_run _ _ _ _ _ (word_get_run s _ _ (leaf_there _ _ _ Hpt Hn) (l4_in_index _))). by rewrite Hbits.
Qed.

(** C4 The first fault of a page, with seven free frames at hand.  The handler
    calls [frame_alloc], which takes the first free frame unless it reports
    failure with address 0, and then [sos_map_frame] with that frame, the
    process's own address space and the address of the page; missing kernel
    structures are made and noted on the way.  When [sos_map_frame] returns 0
    the page table of the process maps that page to the frame and every other
    page as before; when it returns an error no page is mapped differently.  The
    entry of the frame ends up with the process, the page and the slot of its
    capability.  The handler looks at neither result: after a failed allocation
    it goes on with page number 0. *)
Theorem vm_fault_backs_page s s' pid p x y rs va q f l :
  faulting s pid p x y rs va -> 0 <= va < 2 ^ 64 ->
  pt_wf s.(words) y.(as_pt) -> objects_ok s.(words) y.(as_pt) l -> s.(words) !! 0 = None ->
  ft_inv s (q :: f) -> (6 <= length f)%nat ->
  unbacked s.(words) y.(as_pt) (PAGE_ALIGN_4K va) -> vm_fault dir_entries pid s = Ok tt s' ->
  let base := va - va mod PAGE_SIZE_4K in
  exists page vaddr slot r s1 s2 s3 s4 e,
    same_maps s s1 /\
    frame_alloc (pageout dir_entries) s1 = Ok (page, vaddr) s2 /\
    (page, vaddr) = (if vaddr =? 0 then (0, 0) else (q, page_addr s.(ft) q)) /\
    same_maps s2 s3 /\
    sos_map_frame (pageout dir_entries) s.(vm).(vm_cspace) y.(as_pt) slot x.(vspace) base
      seL4_AllRights seL4_ARM_Default_VMAttributes page true s3 = Ok r s4 /\
    pt_wf s'.(words) y.(as_pt) /\
    (forall u, resolve s'.(words) y.(as_pt) u =
       if decide (r = 0 /\ vpn u = vpn va) then present page else resolve s.(words) y.(as_pt) u) /\
    s4.(ft).(frame_table) !! Z.to_nat page = Some e /\
    s'.(ft).(frame_table) = <[Z.to_nat page := claimed e pid base slot]> s4.(ft).(frame_table).
Proof.
  intros Hfl Hva Hpt Ho Hnull Hft Hlen Hun Hrun base.
  destruct (vm_fault_seek _ _ _ _ _ _ _ _ Hfl Hrun) as (s1 & s5 & rg & H1 & _ & _ & Hrun1 & H2).
  pose proof H1 as (Hf1 & Hw1 & _ & Hv1 & Hp1). pose proof H2 as (Hf2 & Hw2 & _).
  destruct (fault_new_spec s1 s5 pid p x y (PAGE_ALIGN_4K va) q f l)
    as (page & vaddr & slot & r & s2 & s3 & s4 & e & [Ma Mf Mb Mm Mw Mp] & Hw5 & He & Hf5);
    [by rewrite Hp1; apply Hfl | by rewrite Hv1; apply Hfl | by rewrite Hw1 | by rewrite Hw1 | by rewrite Hw1 |
     by apply (ft_inv_maps s) | done | |].
  { apply (fault_resolve_unbacked _ _ _ _ _ y) in Hrun1; [done | by rewrite Hv1; apply Hfl | by rewrite Hw1..]. }
  assert (PAGE_ALIGN_4K va = base) as Hbase by (by apply PAGE_ALIGN_4K_eq).
  rewrite (vpn_aligned va Hva) in Mp. rewrite Hbase in *.
  exists page, vaddr, slot, r, s1, s2, s3, s4, e. split; [done|]. split; [done|]. split.
  { rewrite <- Hf1. destruct Mf as [[-> ->]|(-> & Hne & ->)]; [done|]. by rewrite (proj2 (Z.eqb_neq _ _) Hne). }
  split; [done|]. split; [by rewrite <- Hv1|]. rewrite Hw2, Hf2, Hw5, Hf5, <- Hw1. done.
Qed.

(** *** A page the clock hand unmapped *)

Lemma fault_remap_spec s s' pid p va entry x :
  s.(pcb).(proc_heap) !! p = Some x -> fault_remap pid p va entry s = Ok tt s' ->
  exists e, let i := Z.to_nat entry in
    s.(ft).(frame_table) !! i = Some e /\ e.(fte_ref_bit) = false /\
    s'.(ft).(frame_table) = <[i := {| e with fte_pid := pid; fte_ref_bit := true |}]> s.(ft).(frame_table) /\
    s'.(words) = s.(words) /\ s'.(mem) = s.(mem) /\ s'.(vm) = s.(vm) /\ s'.(pcb) = s.(pcb).
Proof.
  intros Hx Hrun. unfold fault_remap, get_frame, ft_get in Hrun.
  apply bind_Ok in Hrun as (o & s1 & H1 & Hrun). rewrite (bind_run _ _ s s.(ft) s) in H1 by done. injection H1 as <- <-.
  apply bind_Ok in Hrun as (page & s1 & [Hpage ->]%deref_Ok & Hrun). case_match; [done|]. injection Hpage as <-.
  apply bind_Ok in Hrun as (e & s1 & (-> & Hi & He)%fte_get_inv & Hrun).
  apply bind_Ok in Hrun as ([] & s1 & [Hb ->]%assert_Ok & Hrun).
  apply bind_Ok in Hrun as ([] & s1 & (e1 & _ & He1 & Hf1 & Hw1 & Hm1 & Hv1 & Hp1)%fte_modify_inv & Hrun).
  rewrite He in He1. injection He1 as <-.
  apply bind_Ok in Hrun as ([] & s2 & [_ ->]%assert_Ok & Hrun).
  rewrite <- Hp1 in Hx. rewrite (bind_run _ _ _ _ _ (proc_load_run s1 p x Hx)) in Hrun.
  apply bind_Ok in Hrun as (err & s2 & (Hf2 & Hw2 & Hm2 & Hv2 & Hp2)%(layer_call same_maps) & Hrun).
  apply fte_modify_inv in Hrun as (e2 & _ & He2 & Hf3 & Hw3 & Hm3 & Hv3 & Hp3).
  rewrite Hf2, Hf1, list_lookup_insert_eq in He2 by (by apply lookup_lt_Some in He). injection He2 as <-.
  exists e. cbv zeta. split; [done|]. split; [by apply negb_true_iff|].
  rewrite Hf3, Hf2, Hf1, list_insert_insert_eq. split; [done|]. repeat split; congruence.
Qed.

Lemma resolve_same_page w pt u v : vpn u = vpn v -> resolve w pt u = resolve w pt v.
Proof.
  intros Heq. pose proof (same_page_path u v Heq) as Hpath. unfold resolve, leaf_of.
  by rewrite Hpath, (proj2 (same_page u v Hpath) Heq).
Qed.

(** The branch of a page whose entry names a frame. *)
Lemma fault_resolve_present s s' pid p a y va entry :
  s.(vm).(ases) !! a = Some y -> pt_wf s.(words) y.(as_pt) ->
  resolve s.(words) y.(as_pt) (PAGE_ALIGN_4K va) = Some entry -> page_get_bits entry = 0 ->
  fault_resolve dir_entries pid p a va s = Ok tt s' ->
  fault_remap pid p (PAGE_ALIGN_4K va) (page_entry_number entry) s = Ok tt s'.
Proof.
  intros Hy Hpt Hres Hbits. unfold fault_resolve. cbv zeta. rewrite (bind_run _ _ _ _ _ (as_get_run s a y Hy)).
  rewrite (bind_run _ _ _ _ _ (page_lookup_run s y.(as_pt) _ Hpt)). unfold resolve in Hres. cbv zeta in *.
  destruct (Z.eqb_spec (leaf_of s.(words) y.(as_pt) (PAGE_ALIGN_4K va)) 0) as [|Hn]; [done|].
  rewrite (bind_run _ _ _ _ _ (word_get_run s _ _ (leaf_there _ _ _ Hpt Hn) (l4_in_index _))).
  unfold present in Hres. destruct (nz _); [done|]. apply (inj Some) in Hres. by rewrite Hres, Hbits.
Qed.

(** A fault on a page whose frame the clock hand had unmapped: the frame's
    entry gets its reference bit back and belongs to the faulting process;
    nothing else of the frame table, no page table and no memory changes. *)
Theorem vm_fault_second_chance s s' pid p x y rs va entry :
  faulting s pid p x y rs va -> 0 <= va < 2 ^ 64 -> pt_wf s.(words) y.(as_pt) ->
  resolve s.(words) y.(as_pt) va = Some entry -> page_get_bits entry = 0 ->
  vm_fault dir_entries pid s = Ok tt s' ->
  exists e, let i := Z.to_nat (page_entry_number entry) in
    s.(ft).(frame_table) !! i = Some e /\ e.(fte_ref_bit) = false /\
    s'.(ft).(frame_table) = <[i := {| e with fte_pid := pid; fte_ref_bit := true |}]> s.(ft).(frame_table) /\
    s'.(words) = s.(words) /\ s'.(mem) = s.(mem) /\ s'.(vm) = s.(vm) /\ s'.(pcb) = s.(pcb).
Proof.
  intros Hfl Hva Hpt Hres Hbits Hrun.
  destruct (vm_fault_seek _ _ _ _ _ _ _ _ Hfl Hrun) as (s1 & s2 & r & H1 & _ & _ & Hrun1 & H2).
  pose proof H1 as (Hf1 & Hw1 & Hm1 & Hv1 & Hp1). pose proof H2 as (Hf2 & Hw2 & Hm2 & Hv2 & Hp2).
  rewrite Hf2, Hw2, Hm2, Hv2, Hp2, <- Hf1, <- Hw1, <- Hm1, <- Hv1, <- Hp1.
  apply (fault_remap_spec s1 s2 pid p (PAGE_ALIGN_4K va) _ x); [by rewrite Hp1; apply Hfl|].
  apply (fault_resolve_present _ _ _ _ _ y _ entry) in Hrun1; [done | by rewrite Hv1; apply Hfl | by rewrite Hw1 | | done].
  rewrite Hw1, <- Hres. by apply resolve_same_page, vpn_aligned.
Qed.
End spec.

(** ** The concrete machine: process 1 faults at address 5000 *)

Definition sample_space : addrspace := mk_addrspace [1000; 1001; 1002] 1000 1001 1002 (2 ^ 39).

Lemma peopled_faulting : faulting (peopled RUNNING) 1 9000 (sample_proc RUNNING) sample_space sample_regions 5000.
Proof. split; [lia | done | done | done | apply (as_inv_vm spaced); [done | apply spaced_as_inv] | done]. Qed.

Lemma peopled_ft_inv : ft_inv (peopled RUNNING) [1; 2; 3; 4; 5; 6; 7].
Proof. apply (ft_inv_same_vm paged); [done | apply paged_ft_inv]. Qed.

Lemma peopled_objects : objects_ok (peopled RUNNING).(words) (2 ^ 39) [].
Proof. split; [vm_compute; reflexivity | constructor | constructor]. Qed.

Lemma vm_fault_backs_page_witness : exists s' page,
  vm_fault 0 1 (peopled RUNNING) = Ok tt s' /\ page = 1 /\ resolve s'.(words) (2 ^ 39) 4096 = present page.
Proof.
  run_to (vm_fault 0 1) (peopled RUNNING) tt Hrun. eexists.
  destruct (vm_fault_backs_page 0 (peopled RUNNING) (final (vm_fault 0 1 (peopled RUNNING)) (peopled RUNNING)) 1 9000 (sample_proc RUNNING) sample_space sample_regions 5000
    1 [2; 3; 4; 5; 6; 7] [] peopled_faulting) as (page & vaddr & slot & r & s1 & s2 & s3 & s4 & e & _ & _ & Hpage & _ & _ & _ & Hmap & _);
    [lia | exact paged_wf | exact peopled_objects | vm_compute; reflexivity | exact peopled_ft_inv | simpl; lia |
     left; vm_compute; reflexivity | exact Hrun |].
  exists page. split; [exact Hrun|]. specialize (Hmap 4096).
  destruct (decide (r = 0 /\ vpn 4096 = vpn 5000)); [|vm_compute in Hmap; discriminate Hmap].
  split; [|exact Hmap]. destruct (vaddr =? 0); injection Hpage as Hp; [|exact Hp].
  rewrite Hp in Hmap. vm_compute in Hmap. discriminate Hmap.
Defined.

(** The same machine once the page is mapped to frame 0 and the hand has passed. *)
Definition tabled : sos toy :=
  final (page_table_insert (fun _ => mret 0) (2 ^ 39) 4096 0 (peopled RUNNING)) (peopled RUNNING).
Definition hand_passed (s : sos toy) : sos toy :=
  {| s with ft := {| s.(ft) with
       frame_table := alter (fun e => {| e with fte_ref_bit := false |}) 0%nat s.(ft).(frame_table) |} |}.
Definition passed : sos toy := hand_passed tabled.

Lemma tabled_run : page_table_insert (fun _ => mret 0) (2 ^ 39) 4096 0 (peopled RUNNING) = Ok 0 tabled.
Proof. apply value_final. vm_compute. reflexivity. Qed.

Lemma hand_passed_words s : (hand_passed s).(words) = s.(words).
Proof. done. Qed.

Lemma passed_wf : pt_wf passed.(words) (2 ^ 39).
Proof.
  unfold passed. rewrite hand_passed_words.
  apply (page_table_insert_spec (fun _ => mret 0) (peopled RUNNING) tabled (2 ^ 39) 4096 0 0
    [1; 2; 3; 4; 5; 6; 7] paged_wf peopled_ft_inv ltac:(simpl; lia) tabled_run).
Qed.

Lemma passed_faulting : faulting passed 1 9000 (sample_proc RUNNING) sample_space sample_regions 5000.
Proof.
  split; [lia | vm_compute; reflexivity | vm_compute; reflexivity | vm_compute; reflexivity | | vm_compute; reflexivity].
  apply (as_inv_vm spaced); [vm_compute; reflexivity | apply spaced_as_inv].
Qed.

Lemma vm_fault_second_chance_witness : exists s',
  vm_fault 0 1 passed = Ok tt s' /\ s'.(words) = passed.(words).
Proof.
  run_to (vm_fault 0 1) passed tt Hrun. eexists. split; [exact Hrun|].
  destruct (vm_fault_second_chance 0 passed (final (vm_fault 0 1 passed) passed) 1 9000 (sample_proc RUNNING) sample_space sample_regions 5000 0
    passed_faulting) as (e & _ & _ & _ & Hw & _);
    [lia | exact passed_wf | vm_compute; reflexivity | vm_compute; reflexivity | exact Hrun | exact Hw].
Defined.

(** A process without regions. *)
Definition bare : sos toy :=
  let s := peopled RUNNING in
  {| s with vm := let v := sample_vm in {| v with ases := {[500 := mk_addrspace [] 0 0 0 (2 ^ 39)]} |} |}.

Lemma vm_fault_outside_regions_witness : vm_fault 0 1 bare <> Ok tt bare.
Proof.
  apply (vm_fault_outside_regions 0 bare bare 1 9000 (sample_proc RUNNING) (mk_addrspace [] 0 0 0 (2 ^ 39)) [] 5000);
    [|constructor].
  split; [lia | reflexivity | reflexivity | reflexivity | | reflexivity].
  split; [|constructor | intros i j r q _ Hr; discriminate Hr].
  eexists. split; [reflexivity|]. split; [constructor|]. split; [constructor|]. intros Hin. by apply elem_of_nil in Hin.
Defined.
