(* ===== verification/Proc.v ===== *)
(** * Processes

    [sos/src/proc/proc.c]: the table of processes, their creation (address
    space, cspace, TCB, program, stack, IPC buffer), their end (zombie, waiting
    parents woken, orphans given to the first process, the zombie reaped once no
    file operation of it is pending).

    The lists of waiting processes, of children and of zombies are lists of node
    addresses with the contents of the node; nodes never change once they are
    linked, so a traversal sees the list as it was when it started.

    The theorems are in [ProcSpec]. *)
From S2P Require Import Prelude Utils Bitfield Clock UtTable Bytes Sos Cspace Sample CspaceSpec CspaceGrow.
From S2P Require Import Mapping UtAlloc FrameTable FrameClock PageTable FrameSpec PageSpec AddressSpace.
From S2P Require Import Procs SharedBuf Console Vnode Device Nfs Vfs Pager Libelf Cpio Elf.

Definition STDOUT_FILENO : Z := 1.
Definition STDERR_FILENO : Z := 2.
Definition TTY_PRIORITY : Z := 0.
Definition TTY_EP_BADGE : Z := 101.
Definition NS_IN_MS : Z := 1000000.
Definition AT_PAGESZ : Z := 6.
Definition AT_SYSINFO : Z := 32.
Definition SOS_SCRATCH : Z := 0xA0000000.
Definition SIZEOF_PROC : Z := 288.
Definition OFFSET_CSPACE : Z := 104.
Definition SIZEOF_WAIT_NODE : Z := 16.
(** "sosh" and "spaghettiOS" *)
Definition init_app_name : list Z := [115; 111; 115; 104].
Definition kernel_name : list Z := [115; 112; 97; 103; 104; 101; 116; 116; 105; 79; 83].

(** [pid << 20] is an [int]. *)
Definition SET_PID_BADGE (pid : Z) : Z := Z.lor TTY_EP_BADGE (s32 (Z.shiftl pid 20)).
Definition GET_PID_BADGE (badge : Z) : Z := s32 (Z.shiftr badge 20).

(** An [enum proc_state] that was never written: no code asks for [RUNNING], so
    the values that are not those of a constructor behave like it. *)
Definition state_of_word (w : Z) : proc_state :=
  if w =? 1 then WAITING else if w =? 2 then ZOMBIE else RUNNING.

Section proc.
Context {E : Type} `{!Env E, !Sched E}.
Context (dir_entries archive_entries : nat).
Context (cpio_archive : Z).
Notation pageout := (pageout dir_entries).

(** ** The initial stack *)

Definition stack_write (mapped_stack index val : Z) : M (sos E) Z :=
  mem_write (mapped_stack + index * 8) (le_bytes 8 val);; mret (index - 1).

(** The words written, and the new value of [index]. *)
Definition write_auxv (local_stack_top sysinfo : Z) : M (sos E) Z :=
  i ← stack_write local_stack_top (-2) 0;
  i ← stack_write local_stack_top i 0;
  i ← stack_write local_stack_top i PAGE_SIZE_4K;
  i ← stack_write local_stack_top i AT_PAGESZ;
  i ← stack_write local_stack_top i sysinfo;
  i ← stack_write local_stack_top i AT_SYSINFO;
  i ← stack_write local_stack_top i 0;
  i ← stack_write local_stack_top i 0;
  _ ← stack_write local_stack_top i 0;
  mret i.

(** The result is the stack pointer, 0 on failure. *)
Definition init_process_stack (p local_vspace : Z) : M (sos E) Z :=
  t ← pcb_get;
  let cs := t.(pr_cspace) in
  r ← alloc_retype cs seL4_ARM_SmallPageObject seL4_PageBits;
  proc_modify p (fun x => {| x with stack := default x.(stack) r.2; stack_ut := r.1 |});;
  if r.1 =? 0 then mret 0
  else
    let stack_bottom := PROCESS_STACK_TOP - PAGE_SIZE_4K in
    let local_stack_bottom := SOS_SCRATCH - PAGE_SIZE_4K in
    sysinfo ← get_last_vsyscall_table;
    if sysinfo =? 0 then mret 0
    else
      x ← proc_load p;
      err ← map_frame cs x.(stack) x.(vspace) stack_bottom seL4_AllRights seL4_ARM_Default_VMAttributes;
      if nz err then mret 0
      else
        local_stack_cptr ← cspace_alloc_slot cs;
        if local_stack_cptr =? seL4_CapNull then mret 0
        else
          x ← proc_load p;
          err ← cspace_copy cs local_stack_cptr cs x.(stack) seL4_AllRights;
          if nz err then cspace_free_slot cs local_stack_cptr;; mret 0
          else
            err ← map_frame cs local_stack_cptr local_vspace local_stack_bottom seL4_AllRights
                    seL4_ARM_Default_VMAttributes;
            if nz err then _ ← cspace_delete cs local_stack_cptr; cspace_free_slot cs local_stack_cptr;; mret 0
            else
              index ← write_auxv SOS_SCRATCH sysinfo;
              let stack_top := u64 (PROCESS_STACK_TOP + u64 (index * 8)) in
              assert (Z.rem index 2 =? 0);;
              assert (stack_top mod 16 =? 0);;
              err ← call Page_Unmap [local_stack_cptr];
              assert (err =? seL4_NoError);;
              err ← cspace_delete cs local_stack_cptr;
              assert (err =? seL4_NoError);;
              cspace_free_slot cs local_stack_cptr;;
              mret stack_top.

(** ** The table *)

(** [pid + 1 % MAX_PROCESSES] is [pid + 1]. *)
Fixpoint find_pid (fuel : nat) (pid : Z) : M (sos E) Z :=
  match fuel with
  | O => stuck NoFuel
  | S fuel' =>
      p ← proc_get pid;
      if p =? 0 then
        pcb_modify (fun t => {| t with curr_pid := pid + 1 mod MAX_PROCESSES |});; mret pid
      else
        let pid := (pid + 1) mod MAX_PROCESSES in
        t ← pcb_get;
        if pid =? t.(curr_pid) then mret (-1) else find_pid fuel' pid
  end.
Definition find_next_pid : M (sos E) Z := t ← pcb_get; find_pid (S (Z.to_nat MAX_PROCESSES)) t.(curr_pid).

(** [procs[pid] = p] *)
Definition procs_set (pid p : Z) : M (sos E) unit :=
  _ ← proc_get pid;
  pcb_modify (fun t => {| t with procs := <[Z.to_nat pid := p]> t.(procs) |}).
Definition proc_put (p : Z) (x : proc) : M (sos E) unit :=
  pcb_modify (fun t => {| t with proc_heap := <[p := x]> t.(proc_heap) |}).
(** [free(p)]: the process and the cspace inside it are gone. *)
Definition proc_free (p : Z) : M (sos E) unit :=
  modify (fun s => {| s with cspaces := delete (p + OFFSET_CSPACE) s.(cspaces) |});;
  pcb_modify (fun t => {| t with proc_heap := delete p t.(proc_heap) |});;
  free p.

(** [strcpy(proc->name, name)] *)
Definition copy_name (name : list Z) : M (sos E) unit := access (Z.of_nat (length name) <? N_NAME).

Definition ms_since_start : M (sos E) Z := now ← on_clk get_time; mret (u32 (now / NS_IN_MS)).

(** The fields no code writes before it reads them: [Uninit]. *)
Definition kernel_proc : M (sos E) Z :=
  p ← malloc_used SIZEOF_PROC;
  stime0 ← ms_since_start;
  a ← as_create pageout;
  v ← vm_get;
  wake ← call Uninit []; st ← call Uninit []; ib_ut ← call Uninit []; ib ← call Uninit [];
  proc_put p (mk_proc kernel_name 0 stime0 0 seL4_CapNull 0 seL4_CapInitThreadVSpace 0 a ib_ut ib
    (p + OFFSET_CSPACE) 0 seL4_CapNull [] [] 0 wake (state_of_word st) false v.(shared_buf_begin));;
  procs_set 0 p;;
  mret p.

(** ** Lists *)

Definition proc_wait_list_add (pid pid_to_add : Z) : M (sos E) Z :=
  node ← malloc SIZEOF_WAIT_NODE;
  if node =? 0 then mret (-1)
  else
    pcb_modify (fun t => {| t with wait_nodes := <[node := mk_wait_node pid pid_to_add]> t.(wait_nodes) |});;
    p ← proc_get pid;
    proc_modify p (fun x => {| x with wait_list := node :: x.(wait_list) |});;
    mret 0.

Definition add_child (parent child : Z) : M (sos E) Z :=
  node ← malloc SIZEOF_WAIT_NODE;
  if node =? 0 then mret (-1)
  else
    p ← proc_get parent;
    proc_modify p (fun x => {| x with child_list := (node, child) :: x.(child_list) |});;
    mret 0.

(** The arguments of [proc_wait_list_add] are the wrong way round: the children
    wait for the parent. *)
Definition wait_all_child (parent : Z) : M (sos E) Z :=
  x ← proc_of parent;
  for_each x.(child_list) (fun n =>
    c ← proc_get n.2;
    when (negb (c =? 0)) (_ ← proc_wait_list_add parent n.2; mret tt));;
  mret 0.

Definition add_reap_list (pid : Z) : M (sos E) Z :=
  node ← malloc SIZEOF_WAIT_NODE;
  if node =? 0 then mret (-1)
  else pcb_modify (fun t => {| t with reap_list := t.(reap_list) ++ [(node, pid)] |});; mret 0.

(** ** The end of a process *)

Definition wait_node_load (n : Z) : M (sos E) wait_node := t ← pcb_get; deref (t.(wait_nodes) !! n).
Definition wait_node_free (n : Z) : M (sos E) unit :=
  pcb_modify (fun t => {| t with wait_nodes := delete n t.(wait_nodes) |});; free n.

Definition proc_wait_wakeup (pid : Z) : M (sos E) Z :=
  x ← proc_of pid;
  for_each x.(wait_list) (fun curr =>
    n ← wait_node_load curr;
    w ← proc_get n.(pid_to_wake);
    (if w =? 0 then mret tt
     else y ← proc_load w;
          if decide (y.(p_state) = WAITING) then _ ← resume y.(wake_co) curr; mret tt else mret tt);;
    wait_node_free curr);;
  mret 0.

Definition destroy_child_list (pid : Z) : M (sos E) Z :=
  x ← proc_of pid;
  for_each x.(child_list) (fun n =>
    c ← proc_get n.2;
    when (negb (c =? 0)) (_ ← proc_wait_list_add n.2 1; _ ← add_child 1 n.2; mret tt);;
    free n.1);;
  mret 0.

Definition zombiefy (pid : Z) : M (sos E) Z :=
  p ← proc_get pid;
  if p =? 0 then mret (-1)
  else
    x ← proc_load p;
    if decide (x.(p_state) = ZOMBIE) then mret (-1)
    else if x.(protected_proc) then mret (-1)
    else
      proc_modify p (fun x => {| x with p_state := ZOMBIE |});;
      r ← add_reap_list pid;
      assert (r =? 0);;
      _ ← destroy_child_list pid;
      _ ← proc_wait_wakeup pid;
      x ← proc_load p;
      _ ← call TCB_Suspend [x.(tcb)];
      mret 0.

(** Everything [proc_destroy] gives back once no operation is pending. *)
Definition release_proc (pid p : Z) : M (sos E) unit :=
  t ← pcb_get;
  let cs := t.(pr_cspace) in
  x ← proc_load p;
  when (negb (x.(shared_buf) =? 0)) (sos_unmap_buf pid);;
  x ← proc_load p;
  a ← as_get x.(p_as);
  when (negb (a.(as_pt) =? 0)) (page_table_destroy pagefile_remove a.(as_pt) cs);;
  x ← proc_load p;
  when (negb (x.(p_as) =? 0)) (as_destroy x.(p_as));;
  when (negb (x.(vspace_ut) =? 0)) (on_ut (ut_free x.(vspace_ut) seL4_PGDBits));;
  when (negb (x.(ipc_buffer_ut) =? 0)) (on_ut (ut_free x.(ipc_buffer_ut) seL4_PageBits));;
  _ ← cspace_delete cs x.(tcb);
  _ ← cspace_delete cs x.(vspace);
  _ ← cspace_delete cs x.(ipc_buffer);
  _ ← cspace_delete cs x.(stack);
  cspace_destroy x.(p_cspace);;
  procs_set pid 0;;
  proc_free p.

Definition proc_destroy (pid : Z) : M (sos E) Z :=
  p ← proc_get pid;
  x ← proc_load p;
  assert (bool_decide (x.(p_state) = ZOMBIE));;
  if negb (x.(coro_count) =? 0) then mret (-1)
  else
    when (negb (x.(fdt) =? 0)) (fdt_destroy x.(fdt) pid);;
    x ← proc_load p;
    if negb (x.(coro_count) =? 0) then mret (-1)
    else release_proc pid p;; mret 0.

Definition reap : M (sos E) unit :=
  t ← pcb_get;
  match t.(reap_list) with
  | [] => mret tt
  | (node, pid) :: _ =>
      r ← proc_destroy pid;
      if r =? 0 then
        t ← pcb_get;
        (* [head->next], read after the destruction *)
        match t.(reap_list) with
        | (node', _) :: rest =>
            access (node' =? node);;
            pcb_modify (fun t => {| t with reap_list := rest |});; free node
        | [] => stuck Segv
        end
      else mret tt
  end.

(** ** The start of a process *)

Definition open_console (pid fd f : Z) : M (sos E) unit :=
  r ← vfs_open dir_entries console_name O_WRONLY pid;
  res ← (match r.2 with Some v => mret v | None => call Uninit [] end);
  _ ← fdt_placeat f res O_WRONLY fd; mret tt.

(** NULL is 0: the entry of the table stays behind. *)
Definition proc_create (app_name : list Z) : M (sos E) Z :=
  p ← malloc_used SIZEOF_PROC;
  stime0 ← ms_since_start;
  pid ← find_next_pid;
  copy_name app_name;;
  a ← as_create pageout;
  f ← fdt_create;
  wake ← call Uninit []; st ← call Uninit []; ib_ut ← call Uninit []; ib ← call Uninit [];
  proc_put p (mk_proc app_name pid stime0 0 seL4_CapNull 0 seL4_CapNull 0 a ib_ut ib (p + OFFSET_CSPACE)
    0 seL4_CapNull [] [] f wake (state_of_word st) ((pid =? INIT_PROC) || (pid =? KERNEL_PROC)) 0);;
  procs_set pid p;;
  t ← pcb_get;
  let cs := t.(pr_cspace) in
  r ← alloc_retype cs seL4_ARM_PageGlobalDirectoryObject seL4_PGDBits;
  proc_modify p (fun x => {| x with vspace := default x.(vspace) r.2; vspace_ut := r.1 |});;
  if r.1 =? 0 then mret 0
  else
    x ← proc_load p;
    err ← call ASIDPool_Assign [seL4_CapInitThreadASIDPool; x.(vspace)];
    if nz err then mret 0
    else
      err ← cspace_create_one_level cs (p + OFFSET_CSPACE);
      if negb (err =? CSPACE_NOERROR) then mret 0
      else
        r ← alloc_retype cs seL4_ARM_SmallPageObject seL4_PageBits;
        proc_modify p (fun x => {| x with ipc_buffer := default x.(ipc_buffer) r.2; ipc_buffer_ut := r.1 |});;
        if r.1 =? 0 then mret 0
        else
          x ← proc_load p;
          open_console x.(p_pid) STDOUT_FILENO x.(fdt);;
          x ← proc_load p;
          open_console x.(p_pid) STDERR_FILENO x.(fdt);;
          mret p.

(** [new->state = ZOMBIE; proc_destroy(new->pid); return -1] *)
Definition start_failed (p : Z) : M (sos E) Z :=
  proc_modify p (fun x => {| x with p_state := ZOMBIE |});;
  x ← proc_load p;
  _ ← proc_destroy x.(p_pid);
  mret (-1).

(** The badged endpoint and the TCB: whether all of it succeeded. *)
Definition start_thread (p : Z) : M (sos E) bool :=
  x ← proc_load p;
  t ← pcb_get;
  let cs := t.(pr_cspace) in
  user_ep ← cspace_alloc_slot x.(p_cspace);
  if user_ep =? seL4_CapNull then mret false
  else
    err ← cspace_mint x.(p_cspace) user_ep cs t.(pr_ep) seL4_AllRights (u64 (SET_PID_BADGE x.(p_pid)));
    if nz err then mret false
    else
      r ← alloc_retype cs seL4_TCBObject seL4_TCBBits;
      proc_modify p (fun x => {| x with tcb := default x.(tcb) r.2; tcb_ut := r.1 |});;
      if r.1 =? 0 then mret false
      else
        x ← proc_load p;
        c ← cspace_get x.(p_cspace);
        err ← call TCB_Configure [x.(tcb); user_ep; c.(root_cnode); 0; x.(vspace); 0; PROCESS_IPC_BUFFER; x.(ipc_buffer)];
        if nz err then mret false
        else
          err ← call TCB_SetPriority [x.(tcb); seL4_CapInitThreadTCB; TTY_PRIORITY];
          mret (negb (nz err)).

(** The program: from the archive for the first process, from the file system
    for the others. *)
Definition load_image (p : Z) (app_name : list Z) : M (sos E) bool :=
  x ← proc_load p;
  t ← pcb_get;
  if x.(p_pid) =? INIT_PROC then
    s ← get;
    match cpio_get_file archive_entries s.(mem) cpio_archive app_name with
    | None => stuck NoFuel
    | Some None => mret false
    | Some (Some (elf_base, _)) =>
        err ← elf_load dir_entries x.(p_pid) t.(pr_cspace) seL4_CapInitThreadVSpace x.(vspace) elf_base;
        mret (negb (nz err))
    end
  else
    err ← elf_load_fs dir_entries x.(p_pid) t.(pr_cspace) seL4_CapInitThreadVSpace x.(vspace) app_name;
    mret (negb (nz err)).

(** The regions of the process, its buffers and its first registers. *)
Definition start_memory (p sp : Z) : M (sos E) bool :=
  x ← proc_load p;
  t ← pcb_get;
  err ← as_define_stack x.(p_as);
  if nz err then mret false
  else
    err ← as_define_heap x.(p_as);
    if nz err then mret false
    else
      err ← as_define_shared_buffer x.(p_as);
      if nz err then mret false
      else
        sos_map_buf pageout x.(p_pid);;
        x ← proc_load p;
        err ← map_frame t.(pr_cspace) x.(ipc_buffer) x.(vspace) PROCESS_IPC_BUFFER seL4_AllRights
                seL4_ARM_Default_VMAttributes;
        if nz err then mret false
        else
          err ← as_define_region x.(p_as) PROCESS_IPC_BUFFER PAGE_SIZE_4K (Z.lor READ WRITE);
          if nz err then mret false
          else
            pc ← get_last_entry_point;
            proc_modify p (fun x => {| x with p_state := RUNNING |});;
            err ← call TCB_WriteRegisters [x.(tcb); 1; 0; 2; pc; sp];
            mret (negb (nz err)).

Definition proc_start (app_name : list Z) : M (sos E) Z :=
  p ← proc_create app_name;
  if p =? 0 then mret (-1)
  else
    ok ← start_thread p;
    if negb ok then start_failed p
    else
      ok ← load_image p app_name;
      if negb ok then start_failed p
      else
        sp ← init_process_stack p seL4_CapInitThreadVSpace;
        ok ← start_memory p sp;
        if negb ok then start_failed p
        else x ← proc_load p; mret x.(p_pid).

Definition proc_bootstrap (cs ep : Z) : M (sos E) bool :=
  pcb_modify (fun t => {| t with pr_cspace := cs; pr_ep := ep |});;
  k ← kernel_proc;
  assert (negb (k =? 0));;
  _ ← proc_start init_app_name;
  mret true.
End proc.
