(* ===== verification/ProcSpec.v ===== *)
(** * Processes: what the process table guarantees

    Theorems about [Proc]: the process id handed out is the first free one from
    the last one on; the initial stack has the layout of the System V ABI; the
    life of a process ends through the list of zombies. *)
From S2P Require Import Prelude Utils Bitfield Clock UtTable Bytes Sos Cspace Sample CspaceSpec CspaceGrow.
From S2P Require Import Mapping UtAlloc Layers FrameTable FrameClock PageTable FrameSpec PageSpec AddressSpace.
From S2P Require Import Procs SharedBuf Console Vnode Device Nfs Vfs Pager Libelf Cpio Elf Proc.

(** ** Process ids *)

Section pids.
Context {E : Type} `{!Env E}.
Implicit Types s : sos E.

(** The slot [k] places after [c], going round the table. *)
Definition slot_after (l : list Z) (c k : Z) : option Z := l !! Z.to_nat ((c + k) mod MAX_PROCESSES).

Definition took_pid s (pid : Z) : sos E := {| s with pcb := {| s.(pcb) with curr_pid := pid + 1 |} |}.

Lemma slot_after_lookup l c k :
  length l = 32%nat -> exists p, slot_after l c k = Some p.
Proof.
  intros Hl. unfold slot_after, MAX_PROCESSES. apply lookup_lt_is_Some_2.
  pose proof (Z.mod_pos_bound (c + k) 32). lia.
Qed.

Lemma find_pid_run s c n j :
  length s.(pcb).(procs) = 32%nat -> s.(pcb).(curr_pid) = c -> 0 <= c < 32 ->
  0 <= j < 32 -> Z.of_nat n = 32 - j -> (forall i, 0 <= i < j -> slot_after s.(pcb).(procs) c i <> Some 0) ->
  (find_pid (S n) ((c + j) mod MAX_PROCESSES) s = Ok (-1) s /\
   forall i, 0 <= i < 32 -> slot_after s.(pcb).(procs) c i <> Some 0) \/
  (exists k, j <= k < 32 /\ slot_after s.(pcb).(procs) c k = Some 0 /\
     (forall i, 0 <= i < k -> slot_after s.(pcb).(procs) c i <> Some 0) /\
     find_pid (S n) ((c + j) mod MAX_PROCESSES) s =
       Ok ((c + k) mod MAX_PROCESSES) (took_pid s ((c + k) mod MAX_PROCESSES))).
Proof.
  intros Hl Hc Hc0. revert j. induction n as [|n IH]; intros j Hj Hn Hbusy; [lia|].
  destruct (slot_after_lookup s.(pcb).(procs) c j Hl) as [p Hp]. cbn [find_pid].
  assert (0 <= (c + j) mod MAX_PROCESSES) as Hpos by (apply Z.mod_pos_bound; unfold MAX_PROCESSES; lia).
  rewrite (bind_run _ _ _ _ _ (proc_get_run s _ p Hpos Hp)).
  destruct (Z.eqb_spec p 0) as [->|Hp0].
  { right. exists j. split; [lia|]. split; [done|]. split; [done|]. done. }
  assert (forall i, 0 <= i < j + 1 -> slot_after s.(pcb).(procs) c i <> Some 0) as Hbusy'.
  { intros i Hi. destruct (decide (i = j)) as [->|]; [congruence|]. apply Hbusy. lia. }
  assert (((c + j) mod MAX_PROCESSES + 1) mod MAX_PROCESSES = (c + (j + 1)) mod MAX_PROCESSES) as ->.
  { unfold MAX_PROCESSES. rewrite Zplus_mod_idemp_l. f_equal. lia. }
  unfold pcb_get. rewrite (bind_run _ _ s s.(pcb) s) by done. rewrite Hc.
  destruct (Z.eqb_spec ((c + (j + 1)) mod MAX_PROCESSES) c) as [Heq|Hne].
  - left. split; [done|]. assert (j = 31) as ->; [|done].
    unfold MAX_PROCESSES in Heq. pose proof (Z.div_mod (c + (j + 1)) 32). lia.
  - assert (j + 1 < 32) as Hlt.
    { destruct (decide (j = 31)) as [->|]; [|lia]. exfalso. apply Hne. unfold MAX_PROCESSES.
      replace (c + (31 + 1)) with (c + 1 * 32) by lia. rewrite Z_mod_plus_full. apply Z.mod_small. lia. }
    destruct (IH (j + 1)) as [[Hr Hall]|(k & Hk & Hz & Hb & Hr)]; [lia|lia|done| |].
    + by left.
    + right. exists k. split; [lia|]. done.
Qed.

(** [find_next_pid] always returns: with the first free process id from
    [curr_pid] on, going round the table, and the search starts behind it the
    next time; or with -1 exactly when the table is full.  Once id 31 was handed
    out the next search reads past the end of the table, because the remainder
    is taken of 1 and not of the sum. *)
Theorem find_next_pid_first_free (s : sos E) :
  length s.(pcb).(procs) = 32%nat -> 0 <= s.(pcb).(curr_pid) < 32 ->
  let free k := slot_after s.(pcb).(procs) s.(pcb).(curr_pid) k = Some 0 in
  (find_next_pid s = Ok (-1) s /\ forall k, 0 <= k < 32 -> ~ free k) \/
  exists k pid, 0 <= k < 32 /\ free k /\ (forall i, 0 <= i < k -> ~ free i) /\
    pid = (s.(pcb).(curr_pid) + k) mod MAX_PROCESSES /\ find_next_pid s = Ok pid (took_pid s pid) /\
    (pid = 31 -> find_next_pid (took_pid s pid) = Stuck Segv).
Proof.
  intros Hl Hc free. unfold find_next_pid, pcb_get. rewrite (bind_run _ _ s s.(pcb) s) by done.
  destruct (find_pid_run s s.(pcb).(curr_pid) 32 0 Hl eq_refl Hc) as [[Hr Hall]|(k & Hk & Hz & Hb & Hr)];
    [lia|lia|lia|..]; rewrite Z.add_0_r, Z.mod_small in Hr by (unfold MAX_PROCESSES; lia).
  - left. by split.
  - right. exists k. eexists. do 4 (split; [done|]). split; [exact Hr|].
    intros ->. rewrite (bind_run _ _ (took_pid s 31) (took_pid s 31).(pcb) (took_pid s 31)) by done.
    cbn [find_pid Z.to_nat took_pid pcb curr_pid]. apply bind_stuck. unfold proc_get, pcb_get.
    rewrite (bind_run _ _ _ (took_pid s 31).(pcb) (took_pid s 31)) by done. unfold index.
    rewrite access_bind by done. cbn [took_pid pcb procs]. by rewrite lookup_ge_None_2 by (rewrite Hl; lia).
Qed.
End pids.

Lemma find_next_pid_first_free_witness :
  exists pid s', find_next_pid (peopled RUNNING) = Ok pid s' /\ pid = 2.
Proof.
  destruct (find_next_pid_first_free (peopled RUNNING)) as [[Hr _]|(k & pid & _ & _ & _ & Hp & Hr & _)];
    [reflexivity | split; [discriminate | reflexivity] | |].
  - exfalso. assert (value (find_next_pid (peopled RUNNING)) = Some (-1)) as Hv by (by rewrite Hr).
    revert Hv. vm_compute. discriminate.
  - exists pid. eexists. split; [exact Hr|]. assert (value (find_next_pid (peopled RUNNING)) = Some pid) as Hv by (by rewrite Hr).
    revert Hv. vm_compute. congruence.
Defined.

(** ** The initial stack *)

Lemma load_apart m a x b :
  b + 8 <= a \/ a + 8 <= b -> load (store_bytes m a (le_bytes 8 x)) b 8 = load m b 8.
Proof.
  intros Hb. unfold load. rewrite bytes_at_apart; [done|]. intros y Hy. rewrite le_bytes_length. lia.
Qed.

(** The words of the stack, from the stack pointer up: argc, the end of argv,
    the end of envp, the auxiliary vector. *)
Definition abi_stack (sysinfo : Z) : list Z := [0; 0; 0; AT_SYSINFO; sysinfo; AT_PAGESZ; PAGE_SIZE_4K; 0; 0].

(** Nine words below [top - 8]. *)
Definition with_stack (m : gmap Z Z) (top : Z) (l : list Z) : gmap Z Z :=
  foldl (fun m kx => store_bytes m (top - 80 + kx.1 * 8) (le_bytes 8 kx.2)) m (reverse (zip (zseq 0 9) l)).

Section stack.
Context {E : Type} `{!Env E}.
Implicit Types s : sos E.

Definition with_mem s (m : gmap Z Z) : sos E := {| s with mem := m |}.

Lemma stack_write_run s m top i x :
  stack_write top i x (with_mem s m) = Ok (i - 1) (with_mem s (store_bytes m (top + i * 8) (le_bytes 8 x))).
Proof. done. Qed.

Lemma write_auxv_run s top sysinfo :
  write_auxv top sysinfo s = Ok (-10) (with_mem s (with_stack s.(mem) top (abi_stack sysinfo))).
Proof.
  assert (s = with_mem s s.(mem)) as Hs by (by destruct s). rewrite Hs at 1. unfold write_auxv.
  do 9 (rewrite (bind_run _ _ _ _ _ (stack_write_run s _ _ _ _))).
  unfold mret, M_ret. f_equal. f_equal. unfold with_stack, abi_stack.
  cbn -[Z.add Z.mul Z.sub le_bytes store_bytes]. repeat (f_equal; try lia).
Qed.

Lemma with_stack_word m top sysinfo k x :
  0 <= sysinfo < 2 ^ 64 -> (k < 9)%nat -> abi_stack sysinfo !! k = Some x ->
  load (with_stack m top (abi_stack sysinfo)) (top - 80 + Z.of_nat k * 8) 8 = x.
Proof.
  intros Hs Hk Hx. unfold with_stack, abi_stack in *.
  cbn [zseq fmap list_fmap seq zip zip_with]. cbn -[Z.add Z.mul Z.sub le_bytes store_bytes load].
  do 9 (destruct k as [|k]; [injection Hx as <-; repeat (rewrite load_apart by lia); apply load_stored;
    change (256 ^ Z.of_nat 8) with (2 ^ 64); first [exact Hs | split; [discriminate|reflexivity]]|]).
  lia.
Qed.

(** The stack a new process starts with is the one the C library expects: when
    [init_process_stack] succeeds the stack pointer is aligned to 16 bytes, 80
    bytes below the top, and the words from there on are argc = 0, an empty argv
    and envp and the auxiliary vector with the system-call table and the page
    size. *)
Theorem init_process_stack_abi (s s' : sos E) (p local_vspace sp : Z) :
  init_process_stack p local_vspace s = Ok sp s' -> sp <> 0 ->
  0 <= s'.(vm).(vsyscall_table) < 2 ^ 64 ->
  sp = PROCESS_STACK_TOP - 80 /\ sp mod 16 = 0 /\
  forall k x, abi_stack s'.(vm).(vsyscall_table) !! k = Some x ->
    load s'.(mem) (SOS_SCRATCH - (PROCESS_STACK_TOP - sp) + Z.of_nat k * 8) 8 = x.
Proof.
  intros Hrun Hsp Hsys. unfold init_process_stack in Hrun.
  apply bind_Ok in Hrun as (t & s1 & _ & Hrun). apply bind_Ok in Hrun as (r & s2 & _ & Hrun).
  apply bind_Ok in Hrun as (u & s3 & _ & Hrun). destruct (r.1 =? 0); [run_inv Hrun; done|].
  apply bind_Ok in Hrun as (sysinfo & s4 & Hv & Hrun). destruct (sysinfo =? 0); [run_inv Hrun; done|].
  apply bind_Ok in Hrun as (x & s5 & H5 & Hrun). apply bind_Ok in Hrun as (e1 & s6 & H6 & Hrun).
  destruct (nz e1); [run_inv Hrun; done|]. apply bind_Ok in Hrun as (lc & s7 & H7 & Hrun).
  destruct (lc =? seL4_CapNull); [run_inv Hrun; done|]. apply bind_Ok in Hrun as (y & s8 & H8 & Hrun).
  apply bind_Ok in Hrun as (e2 & s9 & H9 & Hrun). destruct (nz e2); [run_inv Hrun; done|].
  apply bind_Ok in Hrun as (e3 & s10 & H10 & Hrun). destruct (nz e3); [run_inv Hrun; done|].
  rewrite (bind_run _ _ _ _ _ (write_auxv_run s10 _ _)) in Hrun. cbv zeta in Hrun.
  set (s11 := with_mem s10 _) in Hrun.
  assert (same_upper s11 s' /\ sp = PROCESS_STACK_TOP - 80) as [(e & tr & u0 & c & n & b & ->) ->].
  { apply bind_Ok in Hrun as (? & ? & [_ ->]%assert_Ok & Hrun). apply bind_Ok in Hrun as (? & ? & [_ ->]%assert_Ok & Hrun).
    match type of Hrun with ?c s11 = _ => assert (preserves same_upper c) as Hp by preserves end.
    split; [by apply (Hp s11 sp)|]. run_inv Hrun. reflexivity. }
  assert (s11.(vm).(vsyscall_table) = sysinfo) as Hsi.
  { unfold get_last_vsyscall_table, vm_get in Hv. run_inv Hv.
    apply (layer_map_frame same_upper) in H6. apply (layer_cspace_alloc_slot same_upper) in H7.
    apply (layer_cspace_copy same_upper) in H9. apply (layer_map_frame same_upper) in H10.
    unfold proc_load, pcb_get in H5, H8. run_inv H5. run_inv H8.
    assert (same_upper s3 s10) as (? & ? & ? & ? & ? & ? & Hs) by (etrans; [eassumption|]; etrans; [eassumption|]; by etrans).
    unfold s11. rewrite Hs. done. }
  cbn [vm mem]. rewrite Hsi. split; [done|]. split; [done|]. intros k x' Hk.
  replace (SOS_SCRATCH - (PROCESS_STACK_TOP - (PROCESS_STACK_TOP - 80)) + Z.of_nat k * 8)
    with (SOS_SCRATCH - 80 + Z.of_nat k * 8) by lia.
  apply with_stack_word; [by rewrite <- Hsi | by apply lookup_lt_Some in Hk | done].
Qed.
End stack.

Definition with_program : sos toy :=
  let s := peopled RUNNING in {| s with vm := {| sample_vm with vsyscall_table := 4198400 |} |}.

Lemma init_process_stack_abi_witness : exists s',
  init_process_stack 9000 3 with_program = Ok (PROCESS_STACK_TOP - 80) s' /\
  load s'.(mem) (SOS_SCRATCH - 80 + 4 * 8) 8 = 4198400.
Proof.
  run_to (init_process_stack 9000 3) with_program (PROCESS_STACK_TOP - 80) Hrun. eexists. split; [exact Hrun|].
  refine (proj2 (proj2 (init_process_stack_abi with_program _ 9000 3 (PROCESS_STACK_TOP - 80) Hrun _ _)) 4%nat 4198400 _);
    [discriminate | split; vm_compute; (reflexivity || discriminate) | vm_compute; reflexivity].
Defined.

(** ** Zombies *)

(** Operations that leave the process table alone, for every relation that only
    looks at the table. *)
Class Below {E} (R : relation (sos E)) : Prop :=
  { below_preorder :: PreOrder R; below_pcb : forall s s', s'.(pcb) = s.(pcb) -> R s s' }.
#[export] Instance below_layer {E} (R : relation (sos E)) : Below R -> Layer R.
Proof. intros HR. split; [apply _|]. intros. by apply below_pcb. Qed.

Section below.
Context {E : Type} `{!Env E} (R : relation (sos E)) `{!Below R}.

Lemma below_fs_modify f : preserves R (fs_modify f).
Proof. apply preserves_modify. intros s. by apply below_pcb. Qed.
Lemma below_vm_modify f : preserves R (vm_modify f).
Proof. apply preserves_modify. intros s. by apply below_pcb. Qed.
Lemma below_ft_modify f : preserves R (ft_modify f).
Proof. apply preserves_modify. intros s. by apply below_pcb. Qed.
Lemma below_words f : preserves R (modify (fun s => {| s with words := f s |})).
Proof. apply preserves_modify. intros s. by apply below_pcb. Qed.
Lemma below_mem f : preserves R (modify (fun s => {| s with mem := f s |})).
Proof. apply preserves_modify. intros s. by apply below_pcb. Qed.
#[local] Hint Resolve below_fs_modify below_vm_modify below_ft_modify below_words below_mem : pres.
#[local] Hint Extern 1 (preserves _ (modify _)) => apply below_words : pres.
#[local] Hint Extern 1 (preserves _ (modify _)) => apply below_mem : pres.

Lemma below_frame_free page : preserves R (frame_free page).
Proof. unfold frame_free, fte_modify, fte_get, drop_frame, page_num_to_vaddr, ft_get. preserves. Qed.
#[local] Hint Resolve below_frame_free : pres.
Lemma below_free_node p : preserves R (free_node p).
Proof. unfold free_node, vaddr_to_page_num, ft_get. preserves. Qed.
#[local] Hint Resolve below_free_node : pres.

Lemma below_destroy_objects fuel c frame : preserves R (destroy_objects fuel c frame).
Proof.
  revert frame. induction fuel as [|fuel IH]; intros frame; simpl; [preserves|].
  unfold word_get. preserves.
Qed.
#[local] Hint Resolve below_destroy_objects : pres.
Lemma below_page_table_destroy pt c : preserves R (page_table_destroy pagefile_remove pt c).
Proof.
  unfold page_table_destroy, destroy_children, destroy_entry, pagefile_remove, add_free_list, malloc_used,
    malloc, pt_pgd, pt_seL4_pages, word_get, vm_get.
  preserves.
Qed.
Lemma below_as_destroy a : preserves R (as_destroy a).
Proof. unfold as_destroy, as_get, region_free, free, vm_get. preserves. Qed.
End below.
#[export] Hint Resolve below_fs_modify below_vm_modify below_ft_modify below_frame_free below_page_table_destroy
  below_as_destroy : pres.
#[export] Hint Extern 1 (preserves _ (modify _)) => apply below_words : pres.
#[export] Hint Extern 1 (preserves _ (modify _)) => apply below_mem : pres.
#[export] Hint Extern 0 (Below _) => apply _ : pres.

Section zombies.
Context {E : Type} `{!Env E, !Sched E}.
Implicit Types s : sos E.

(** Process [pid] is in the table, at [p], and is a zombie. *)
Definition zombie_at (t : proc_table) (pid p : Z) : Prop :=
  0 <= pid /\ t.(procs) !! Z.to_nat pid = Some p /\ p <> 0 /\
  exists x, t.(proc_heap) !! p = Some x /\ x.(p_state) = ZOMBIE.

(** What is left of the process table without the process at [p], and what of
    that process decides about its end. *)
Definition without (p : Z) (t : proc_table) : proc_table := {| t with proc_heap := delete p t.(proc_heap) |}.
Definition fate (x : proc) : proc_state * Z * Z * Z := (x.(p_state), x.(coro_count), x.(fdt), x.(p_cspace)).

(** While process [pid] is a zombie, only the fields of [p] that do not decide
    about its end change in the table. *)
Definition winds_up (pid p : Z) s s' : Prop :=
  zombie_at s.(pcb) pid p ->
  without p s'.(pcb) = without p s.(pcb) /\
  fate <$> s'.(pcb).(proc_heap) !! p = fate <$> s.(pcb).(proc_heap) !! p.

Lemma zombie_fate t t' pid p :
  without p t' = without p t -> fate <$> t'.(proc_heap) !! p = fate <$> t.(proc_heap) !! p ->
  zombie_at t pid p -> zombie_at t' pid p.
Proof.
  intros Hw Hf (H0 & Hp & Hp0 & x & Hx & Hz). assert (t'.(procs) = t.(procs)) as Hpr by (by injection Hw).
  split; [done|]. rewrite Hpr. split; [done|]. split; [done|]. rewrite Hx in Hf.
  destruct (t'.(proc_heap) !! p) as [y|]; [|done]. injection Hf as Hy _. exists y. by rewrite Hy.
Qed.

#[local] Instance winds_up_preorder pid p : PreOrder (winds_up pid p).
Proof.
  split; [done|]. intros s1 s2 s3 H12 H23 Hz. destruct (H12 Hz) as [Hw Hf].
  destruct (H23 (zombie_fate _ _ _ _ Hw Hf Hz)) as [Hw' Hf']. split; congruence.
Qed.
#[local] Instance winds_up_below pid p : Below (winds_up pid p).
Proof. split; [apply _|]. intros s s' Heq _. by rewrite Heq. Qed.

Section wind_up.
Context (pid p : Z).
Notation R := (winds_up pid p).

Lemma up_reclaim v : preserves R (VOP_RECLAIM v pid).
Proof.
  unfold VOP_RECLAIM, vop, vnode_check, vnode_load, dev_reclaim, console_close, console_reader, set_reader, proc_get, vnode_load,
    fs_get, pcb_get.
  preserves. intros s res s' Hrun (H0 & Hp & Hp0 & x & Hx & Hz). unfold vnfs_reclaim, unless_zombie in Hrun.
  rewrite (bind_run _ _ _ _ _ (proc_get_run s pid p H0 Hp)), (bind_run _ _ _ _ _ (proc_load_run s p x Hx)) in Hrun.
  rewrite decide_True in Hrun by done. by run_inv Hrun.
Qed.
#[local] Hint Resolve up_reclaim : pres.

Lemma up_fdt_destroy f : preserves R (fdt_destroy f pid).
Proof. unfold fdt_destroy, of_load, of_free, fdt_set, fdt_put, fdt_load, fs_get, free. preserves. Qed.

Lemma up_bind_get {A} (k : Z -> M (sos E) A) : preserves R (k p) -> preserves R (q ← proc_get pid; k q).
Proof.
  intros Hk s a s' Hrun Hz. destruct (Hz) as (H0 & Hp & _).
  rewrite (bind_run _ _ _ _ _ (proc_get_run s pid p H0 Hp)) in Hrun. by eapply Hk.
Qed.

(** A field that does not decide about the end of the process. *)
Lemma up_modify f : (forall x, fate (f x) = fate x) -> preserves R (proc_modify p f).
Proof.
  intros Hf s a s' Hrun (_ & _ & _ & x & Hx & _). unfold proc_modify in Hrun.
  rewrite (bind_run _ _ _ _ _ (proc_load_run s p x Hx)) in Hrun. injection Hrun as _ <-. unfold without. simpl.
  rewrite delete_insert_eq, lookup_insert_eq, Hx. simpl. by rewrite Hf.
Qed.

Lemma up_unmap_buf : preserves R (sos_unmap_buf pid).
Proof.
  unfold sos_unmap_buf. apply up_bind_get. apply preserves_bind; [apply _|by apply up_modify|]. intros _.
  unfold buf_entry, zero_buf, mem_clear, get_buf_from_pid, vaddr_to_page_num, get_frame, fte_get, fte_modify, fte_get,
    vm_get, ft_get.
  preserves.
Qed.
End wind_up.

Lemma without_delete p t : without p {| t with proc_heap := delete p t.(proc_heap) |} = without p t.
Proof. unfold without. simpl. by rewrite delete_delete_eq. Qed.

(** The process table once [pid] is gone. *)
Definition cleared (pid p : Z) (t : proc_table) : proc_table :=
  let t := without p t in {| t with procs := <[Z.to_nat pid := 0]> t.(procs) |}.

Lemma cleared_without pid p t t' : without p t' = without p t -> cleared pid p t' = cleared pid p t.
Proof. unfold cleared. by intros ->. Qed.

(** Runs that end with the process cleared. *)
Definition clears {A} (pid p : Z) (c : M (sos E) A) : Prop :=
  forall s a s', c s = Ok a s' -> zombie_at s.(pcb) pid p -> s'.(pcb) = cleared pid p s.(pcb).

Lemma clears_bind {A B} pid p (c : M (sos E) A) (k : A -> M (sos E) B) :
  preserves (winds_up pid p) c -> (forall a, clears pid p (k a)) -> clears pid p (mbind k c).
Proof.
  intros Hc Hk s b s' Hrun Hz. apply bind_Ok in Hrun as (a & s1 & H1 & Hrun). destruct (Hc _ _ _ H1 Hz) as [Hw Hf].
  rewrite (Hk a _ _ _ Hrun (zombie_fate _ _ _ _ Hw Hf Hz)). by apply cleared_without.
Qed.

Lemma clears_end pid p : clears pid p (procs_set pid 0;; proc_free p).
Proof.
  intros s a s' Hrun (H0 & Hp & _). apply bind_Ok in Hrun as ([] & s1 & H1 & Hrun).
  unfold procs_set in H1. rewrite (bind_run _ _ _ _ _ (proc_get_run s pid p H0 Hp)) in H1. injection H1 as <-.
  unfold proc_free, pcb_modify, free in Hrun. rewrite !modify_bind in Hrun.
  apply bind_Ok in Hrun as (r & s2 & H2 & Hrun). run_inv Hrun. apply (layer_call same_upper) in H2.
  by destruct H2 as (e & t & u & c & n & b & ->).
Qed.

Lemma release_proc_clears pid p : clears pid p (release_proc pid p).
Proof.
  unfold release_proc, pcb_get. pose proof (up_unmap_buf pid p).
  repeat (first [apply clears_end | apply clears_bind; [unfold proc_load, as_get, vm_get, pcb_get; preserves | intros ?]]).
Qed.

Lemma proc_destroy_spec s s' pid p x r :
  proc_destroy pid s = Ok r s' -> zombie_at s.(pcb) pid p -> s.(pcb).(proc_heap) !! p = Some x ->
  if x.(coro_count) =? 0 then r = 0 /\ s'.(pcb) = cleared pid p s.(pcb) else r = -1 /\ s' = s.
Proof.
  intros Hrun Hz Hx. destruct (Hz) as (H0 & Hp & Hp0 & x' & Hx' & Hzx). rewrite Hx in Hx'. injection Hx' as <-.
  unfold proc_destroy in Hrun.
  rewrite (bind_run _ _ _ _ _ (proc_get_run s pid p H0 Hp)), (bind_run _ _ _ _ _ (proc_load_run s p x Hx)) in Hrun.
  rewrite bool_decide_eq_true_2, assert_bind in Hrun by done.
  destruct (x.(coro_count) =? 0) eqn:Hc; simpl in Hrun; [|by run_inv Hrun].
  apply bind_Ok in Hrun as ([] & s1 & H1 & Hrun).
  assert (winds_up pid p s s1) as Hup.
  { revert H1. apply preserves_when; [apply _|]. apply up_fdt_destroy. }
  destruct (Hup Hz) as [Hw Hf]. pose proof (zombie_fate _ _ _ _ Hw Hf Hz) as Hz1.
  destruct (Hz1) as (_ & _ & _ & x1 & Hx1 & _).
  rewrite (bind_run _ _ _ _ _ (proc_load_run s1 p x1 Hx1)) in Hrun.
  rewrite Hx, Hx1 in Hf. injection Hf as _ Hc1 _ _. rewrite Hc1, Hc in Hrun. simpl in Hrun.
  apply bind_Ok in Hrun as ([] & s2 & H2 & Hrun). run_inv Hrun. split; [done|].
  rewrite (release_proc_clears _ _ _ _ _ H2 Hz1). by apply cleared_without.
Qed.

(** What one call of [reap] makes of the process table: with an operation still
    pending on behalf of the first zombie nothing, otherwise its entry, its
    object and its node of the list are gone. *)
Definition reaped (x : proc) (pid p : Z) (rest : list (Z * Z)) (t : proc_table) : proc_table :=
  if x.(coro_count) =? 0 then let t := cleared pid p t in {| t with reap_list := rest |} else t.

Lemma reap_spec s s' node pid rest p x a :
  reap s = Ok a s' -> s.(pcb).(reap_list) = (node, pid) :: rest ->
  zombie_at s.(pcb) pid p -> s.(pcb).(proc_heap) !! p = Some x ->
  s'.(pcb) = reaped x pid p rest s.(pcb).
Proof.
  intros Hrun Hl Hz Hx. unfold reap, pcb_get in Hrun. rewrite (bind_run _ _ s s.(pcb) s), Hl in Hrun by done.
  apply bind_Ok in Hrun as (r & s1 & H1 & Hrun). pose proof (proc_destroy_spec _ _ _ _ _ _ H1 Hz Hx) as Hd.
  unfold reaped. destruct (x.(coro_count) =? 0); destruct Hd as [-> Hd]; simpl in Hrun; [|by run_inv Hrun].
  rewrite (bind_run _ _ s1 s1.(pcb) s1) in Hrun by done.
  assert (s1.(pcb).(reap_list) = (node, pid) :: rest) as Hl1 by (by rewrite Hd). rewrite Hl1 in Hrun.
  rewrite access_bind in Hrun by lia. unfold pcb_modify in Hrun. rewrite modify_bind in Hrun.
  apply bind_Ok in Hrun as (r & s2 & H2 & Hrun). run_inv Hrun. apply (layer_call same_upper) in H2.
  destruct H2 as (e & t & u & c & n & b & ->). simpl. by rewrite Hd.
Qed.

(** Reaping a process: when [reap] returns, it has either removed the first
    zombie of the list (table entry, process object and list node, every other
    process and list untouched) if no operation is pending on its behalf, or
    changed nothing of the process table if one is. *)
Theorem reap_removes_first_zombie s s' node pid rest p x a :
  reap s = Ok a s' -> s.(pcb).(reap_list) = (node, pid) :: rest ->
  zombie_at s.(pcb) pid p -> s.(pcb).(proc_heap) !! p = Some x ->
  s'.(pcb) = reaped x pid p rest s.(pcb).
Proof. apply reap_spec. Qed.

(** ** The life cycle *)

(** Every process of the reap list is a zombie that is listed once, and no two
    entries of the process table share an object. *)
Record zombies_ok (t : proc_table) : Prop := {
  zombies_once : NoDup t.(reap_list).*2;
  zombies_dead : forall pid, pid ∈ t.(reap_list).*2 -> exists p, zombie_at t pid p;
  zombies_own : forall i j p, t.(procs) !! i = Some p -> t.(procs) !! j = Some p -> p <> 0 -> i = j }.

Definition keeps_zombies s s' : Prop := zombies_ok s.(pcb) -> zombies_ok s'.(pcb).
#[local] Instance keeps_zombies_below : Below keeps_zombies.
Proof.
  split; [split|].
  - by intros s Hok.
  - intros s1 s2 s3 H12 H23 Hok. by apply H23, H12.
  - intros s s' Heq. unfold keeps_zombies. by rewrite Heq.
Qed.

Lemma zombie_at_inv t pid p x : zombie_at t pid p -> t.(proc_heap) !! p = Some x -> x.(p_state) = ZOMBIE.
Proof. intros (_ & _ & _ & y & Hy & Hz). congruence. Qed.

Lemma keeps_reap : preserves keeps_zombies reap.
Proof.
  intros s a s' Hrun Hok. destruct (s.(pcb).(reap_list)) as [|[node pid] rest] eqn:Hl.
  { unfold reap, pcb_get in Hrun. rewrite (bind_run _ _ s s.(pcb) s), Hl in Hrun by done. by run_inv Hrun. }
  destruct Hok as [Hnd Hdead Hown]. rewrite Hl in Hnd, Hdead. apply NoDup_cons in Hnd as [Hout Hnd].
  destruct (Hdead pid) as (p & Hz); [apply elem_of_cons; by left|]. destruct (Hz) as (H0 & Hp & Hp0 & x & Hx & Hzx).
  rewrite (reap_spec _ _ _ _ _ _ _ _ Hrun Hl Hz Hx). unfold reaped. destruct (x.(coro_count) =? 0).
  2:{ split; rewrite ?Hl; [by apply NoDup_cons|done|done]. }
  split; simpl.
  - done.
  - intros pid' Hin. destruct (Hdead pid') as (p' & Hz'); [apply elem_of_cons; by right|]. exists p'.
    assert (pid' <> pid) by (by intros ->). destruct Hz' as (H0' & Hp' & Hp0' & x' & Hx' & Hzx').
    assert (p' <> p) by (intros ->; pose proof (Hown _ _ _ Hp Hp' Hp0); lia).
    split; [done|]. simpl. rewrite list_lookup_insert_ne by lia. split; [done|]. split; [done|].
    exists x'. by rewrite lookup_delete_ne.
  - intros i j q. rewrite !list_lookup_insert_Some. naive_solver.
Qed.

(** Changing a process without changing its state. *)
Lemma keeps_modify q f : (forall x, (f x).(p_state) = x.(p_state)) -> preserves keeps_zombies (proc_modify q f).
Proof.
  intros Hf s a s' Hrun [Hnd Hdead Hown]. unfold proc_modify in Hrun.
  apply bind_Ok in Hrun as (x & s1 & H1 & Hrun). apply proc_load_inv in H1 as [-> Hx]. injection Hrun as _ <-.
  split; simpl; [done| |done]. intros pid Hin. destruct (Hdead pid Hin) as (p & H0 & Hp & Hp0 & y & Hy & Hz).
  exists p. split; [done|]. split; [done|]. split; [done|]. simpl. destruct (decide (q = p)) as [->|Hne].
  - exists (f x). rewrite lookup_insert_eq, Hf. split; [done|]. congruence.
  - exists y. by rewrite lookup_insert_ne.
Qed.

(** Marking a live process and queueing it. *)
Lemma keeps_mark s t pid p x node :
  zombies_ok s.(pcb) -> 0 <= pid -> s.(pcb).(procs) !! Z.to_nat pid = Some p -> p <> 0 ->
  s.(pcb).(proc_heap) !! p = Some x -> x.(p_state) <> ZOMBIE ->
  t.(procs) = s.(pcb).(procs) -> t.(proc_heap) = <[p := {| x with p_state := ZOMBIE |}]> s.(pcb).(proc_heap) ->
  t.(reap_list) = s.(pcb).(reap_list) ++ [(node, pid)] -> zombies_ok t.
Proof.
  intros [Hnd Hdead Hown] H0 Hp Hp0 Hx Hlive Hpr Hh Hr.
  split; rewrite ?Hr, ?Hpr, ?fmap_app; [| |done].
  - apply NoDup_app. split; [done|]. split; [|apply NoDup_singleton]. intros pid' Hin ->%list_elem_of_singleton.
    destruct (Hdead pid Hin) as (q & Hz). assert (q = p) as -> by (destruct Hz as (_ & Hq & _); congruence).
    by pose proof (zombie_at_inv _ _ _ _ Hz Hx).
  - intros pid' [Hin| ->%list_elem_of_singleton]%elem_of_app.
    + destruct (Hdead pid' Hin) as (q & H0' & Hq & Hq0 & y & Hy & Hz). exists q. unfold zombie_at. rewrite Hpr, Hh.
      split; [done|]. split; [done|]. split; [done|]. exists y. rewrite lookup_insert_ne; [done|]. intros ->. congruence.
    + exists p. unfold zombie_at. rewrite Hpr, Hh, lookup_insert_eq. split; [done|]. split; [done|]. split; [done|]. by eexists.
Qed.

(** What runs while the server waits, in other coroutines, keeps to the rule. *)
Definition peers_keep_zombies : Prop := forall c v, preserves keeps_zombies (switch_to c v).

Section life_cycle.
Context (Hpeers : peers_keep_zombies).

Lemma keeps_wait_nodes f : preserves keeps_zombies (pcb_modify (fun t => {| t with wait_nodes := f t |})).
Proof. apply preserves_modify. intros s [Hnd Hdead Hown]. by split. Qed.
Lemma keeps_running f : preserves keeps_zombies (pcb_modify (fun t => {| t with running := f t |})).
Proof. apply preserves_modify. intros s [Hnd Hdead Hown]. by split. Qed.
#[local] Hint Resolve keeps_wait_nodes keeps_running keeps_modify : pres.
#[local] Hint Extern 1 (preserves _ (proc_modify _ _)) => by apply keeps_modify : pres.

Lemma keeps_wait_list_add pid w : preserves keeps_zombies (proc_wait_list_add pid w).
Proof. unfold proc_wait_list_add, malloc, proc_get, pcb_get. preserves. Qed.
Lemma keeps_add_child pid c : preserves keeps_zombies (add_child pid c).
Proof. unfold add_child, malloc, proc_get, pcb_get. preserves. Qed.
#[local] Hint Resolve keeps_wait_list_add keeps_add_child : pres.
Lemma keeps_destroy_child_list pid : preserves keeps_zombies (destroy_child_list pid).
Proof. unfold destroy_child_list, proc_of, proc_get, proc_load, free, pcb_get. preserves. Qed.

Lemma keeps_resume c v : preserves keeps_zombies (resume c v).
Proof. unfold resume, get_running, pcb_get. preserves. Qed.
#[local] Hint Resolve keeps_resume : pres.
Lemma keeps_wait_wakeup pid : preserves keeps_zombies (proc_wait_wakeup pid).
Proof.
  unfold proc_wait_wakeup, wait_node_load, wait_node_free, proc_of, proc_get, proc_load, free, pcb_get. preserves.
Qed.
#[local] Hint Resolve keeps_destroy_child_list keeps_wait_wakeup : pres.

Lemma keeps_zombiefy pid : preserves keeps_zombies (zombiefy pid).
Proof.
  intros s r s' Hrun Hok. unfold zombiefy in Hrun. apply bind_Ok in Hrun as (p & s1 & H1 & Hrun).
  apply proc_get_inv in H1 as (-> & H0 & Hp). destruct (Z.eqb_spec p 0) as [->|Hp0]; [by run_inv Hrun|].
  apply bind_Ok in Hrun as (x & s1 & H1 & Hrun). apply proc_load_inv in H1 as [-> Hx].
  destruct (decide (x.(p_state) = ZOMBIE)) as [Hz|Hlive]; [by run_inv Hrun|].
  destruct (x.(protected_proc)); [by run_inv Hrun|].
  apply bind_Ok in Hrun as ([] & s1 & H1 & Hrun). unfold proc_modify in H1.
  rewrite (bind_run _ _ _ _ _ (proc_load_run s p x Hx)) in H1. injection H1 as <-.
  apply bind_Ok in Hrun as (q & s2 & H2 & Hrun). unfold add_reap_list, malloc in H2.
  apply bind_Ok in H2 as (node & s3 & H3 & H2). apply (layer_call same_upper) in H3.
  destruct H3 as (e & t & u & c & n & b & ->).
  destruct (node =? 0); [by run_inv H2|]. injection H2 as <- <-. rewrite assert_bind in Hrun by done.
  assert (preserves keeps_zombies (_ ← destroy_child_list pid; _ ← proc_wait_wakeup pid; x ← proc_load p;
    _ ← call TCB_Suspend [x.(tcb)]; mret 0)) as Hrest by (unfold proc_load, pcb_get; preserves).
  apply Hrest in Hrun. apply Hrun. by eapply (keeps_mark s _ pid p x node).
Qed.

(** What happens to processes between two system calls: one is killed, the first
    zombie is reaped, or something runs that leaves the process table alone. *)
Inductive life_step : relation (sos E) :=
  | step_kill pid r s s' : zombiefy pid s = Ok r s' -> life_step s s'
  | step_reap s s' : reap s = Ok tt s' -> life_step s s'
  | step_apart s s' : s'.(pcb) = s.(pcb) -> life_step s s'.

(** C3 The life cycle of processes: through every sequence of kills and reaps,
    every process on the reap list is a zombie, is listed exactly once (so it is
    never destroyed twice), and no two entries of the process table share a
    process object, provided the coroutines woken on the way keep to it too. *)
Theorem life_cycle_invariant s s' : rtc life_step s s' -> zombies_ok s.(pcb) -> zombies_ok s'.(pcb).
Proof.
  induction 1 as [s|s1 s2 s3 Hstep _ IH]; [done|]. intros Hok. apply IH. clear IH.
  destruct Hstep as [pid r s s' Hrun|s s' Hrun|s s' Heq].
  - exact (keeps_zombiefy pid _ _ _ Hrun Hok).
  - exact (keeps_reap _ _ _ Hrun Hok).
  - by rewrite Heq.
Qed.
End life_cycle.
End zombies.

(** ** A process dies *)

Definition mortal : sos toy :=
  let s := peopled RUNNING in
  {| s with vm := let v := sample_vm in {| v with ases := {[500 := mk_addrspace [1000; 1001; 1002] 1000 1001 1002 0]} |};
       cspaces := <[150 := mk_cspace 2 false 12 (Some [3; 0]) None 0 0 200 None [0; 0; 0; 0]]> s.(cspaces);
       fs := let f := sample_fs in
         {| f with filetables := {[800 := [3000; 3001] ++ replicate (Z.to_nat PROCESS_MAX_FILES) 0]} |} |}.
Definition mourned : sos toy := final (zombiefy 1 mortal) mortal.

Lemma mourned_zombie : zombie_at mourned.(pcb) 1 9000.
Proof.
  split; [lia|]. split; [vm_compute; reflexivity|]. split; [lia|]. eexists. split; vm_compute; reflexivity.
Qed.

Lemma mortal_ok : zombies_ok mortal.(pcb).
Proof.
  split; [constructor | by intros pid Hin%elem_of_nil|].
  assert (forall k p, mortal.(pcb).(procs) !! k = Some p -> p <> 0 -> k = 1%nat) as Hone.
  { intros [|[|k]] p Hk Hp; [by injection Hk as <- | done|]. by apply (lookup_replicate_1 30 0) in Hk as [-> _]. }
  intros i j p Hi Hj Hp. by rewrite (Hone i p), (Hone j p).
Qed.

Lemma reap_removes_first_zombie_witness : exists s',
  reap mourned = Ok tt s' /\ s'.(pcb).(procs) !! 1%nat = Some 0 /\ s'.(pcb).(reap_list) = [].
Proof.
  run_to reap mourned tt Hrun. eexists. split; [exact Hrun|].
  rewrite (reap_removes_first_zombie mourned _ 65536 1 [] 9000 (sample_proc ZOMBIE) tt Hrun);
    [split; vm_compute; reflexivity | vm_compute; reflexivity | exact mourned_zombie | vm_compute; reflexivity].
Defined.

Lemma life_cycle_invariant_witness :
  exists s', rtc life_step mortal s' /\ s'.(pcb).(reap_list) = [] /\ zombies_ok s'.(pcb).
Proof.
  run_to (zombiefy 1) mortal 0 Hkill. run_to reap mourned tt Hreap.
  assert (rtc life_step mortal (final (reap mourned) mourned)) as Hsteps.
  { eapply rtc_l; [exact (step_kill _ _ _ _ Hkill)|]. eapply rtc_l; [exact (step_reap _ _ Hreap)|]. apply rtc_refl. }
  eexists. split; [exact Hsteps|]. split; [vm_compute; reflexivity|].
  refine (life_cycle_invariant _ _ _ Hsteps _).
  - intros c v s a s' [= <- <-] Hok. exact Hok.
  - exact mortal_ok.
Defined.
