(* ===== verification/Syscalls.v ===== *)
(** * The system calls

    [sos/src/syscall]: [file_syscalls.c], [proc_syscalls.c], [time_syscalls.c]
    and [vm_syscalls.c].  A handler gets the process (its address [p]), reads its
    arguments from the message registers, and returns the number of message
    registers of the reply.  A path is the bytes copied out of the shared buffer
    up to the terminator; a path without one within the bytes copied is outside
    the array on the server's stack.

    The lemmas: however a handler that answers ends, its reply has one word, or
    two for [open] and [brk]. *)
From S2P Require Import Prelude Utils Bitfield Pqueue Clock UtTable Bytes Sos Cspace Sample CspaceSpec CspaceGrow Mapping.
From S2P Require Import UtAlloc Layers FrameTable PageTable AddressSpace Procs SharedBuf Console Vnode Device Nfs Vfs.
From S2P Require Import Pager Libelf Cpio Elf Vm Proc.

Definition SIZEOF_SOS_PROCESS : Z := 44.
(** The callback of [syscall_usleep] among the callbacks of the timer driver. *)
Definition USLEEP_HANDLER : Z := 1.
Definition SIZEOF_JOB : Z := 56.

Section syscalls.
Context {E : Type} `{!Env E, !Sched E}.
Context (dir_entries archive_entries : nat) (cpio_archive : Z).
Notation proc_start := (proc_start dir_entries archive_entries cpio_archive).

Definition GetMR (i : Z) : M (sos E) Z := call GetMR [i].
Definition SetMR (i v : Z) : M (sos E) unit := _ ← call SetMR [i; u64 v]; mret tt.

(** [seL4_SetMR(0, v); return 1] *)
Definition reply (v : Z) : M (sos E) Z := SetMR 0 v;; mret 1.

(** [char path[size]; sos_copyout(pid, path, size)] *)
Definition path_arg (p size : Z) : M (sos E) (list Z) :=
  x ← proc_load p; copyout_bytes x.(p_pid) size.

(** [curproc->fdt->openfiles[fd]] *)
Definition file_of (p fd : Z) : M (sos E) Z := x ← proc_load p; l ← fdt_load x.(fdt); index l fd.

(** ** Files *)

(** [how == O_WRONLY && of->flags & O_ACCMODE == O_RDONLY || ...]: the
    comparison binds tighter than [&]. *)
Definition mode_refused (how flags : Z) : bool :=
  (how =? O_WRONLY) && nz (Z.land flags (zb (O_ACCMODE =? O_RDONLY))) ||
  (how =? O_RDONLY) && nz (Z.land flags (zb (O_ACCMODE =? O_WRONLY))).

Definition syscall_readwrite (p how : Z) : M (sos E) Z :=
  w ← GetMR 1;
  let fd := s32 w in
  nbyte ← GetMR 2;
  f ← file_of p fd;
  if (f =? 0) || (nbyte <=? 0) then reply 0
  else
    o ← of_load f;
    if mode_refused how o.(of_flags) then reply 0
    else
      u ← malloc SIZEOF_UIO;
      x ← proc_load p;
      let known := (how =? O_WRONLY) || (how =? O_RDONLY) in
      if negb known then reply 0
      else
        uio_init u (if how =? O_WRONLY then UIO_WRITE else UIO_READ) nbyte o.(of_offset) x.(p_pid);;
        n ← (if how =? O_WRONLY then VOP_WRITE o.(of_vn) u else VOP_READ o.(of_vn) u);
        let bytes_processed := u64 n in
        o ← of_load f;
        of_put f {| o with of_offset := u64 (o.(of_offset) + bytes_processed) |};;
        uio_free u;;
        reply bytes_processed.

Definition syscall_write (p : Z) : M (sos E) Z := syscall_readwrite p O_WRONLY.
Definition syscall_read (p : Z) : M (sos E) Z := syscall_readwrite p O_RDONLY.

(** The rest of [syscall_open], with its arguments. *)
Definition open_path (p : Z) (path : list Z) (mode : Z) : M (sos E) Z :=
  x ← proc_load p;
  r ← vfs_open dir_entries path mode x.(p_pid);
  if nz r.1 then reply 1
  else
    x ← proc_load p;
    res ← deref r.2;
    r ← fdt_place x.(fdt) res mode;
    if nz r.1 then reply 1
    else fd ← deref r.2; SetMR 0 0;; SetMR 1 fd;; mret 2.
Definition syscall_open (p : Z) : M (sos E) Z :=
  w ← GetMR 1;
  let mode := s32 w in
  size ← GetMR 2;
  l ← path_arg p size;
  path ← deref (cstr l);
  open_path p path mode.

(** Neither the range of the descriptor nor the entry is tested. *)
Definition syscall_close (p : Z) : M (sos E) Z :=
  w ← GetMR 1;
  let fd := s32 w in
  f ← file_of p fd;
  o ← of_load f;
  x ← proc_load p;
  _ ← VOP_RECLAIM o.(of_vn) x.(p_pid);
  of_free f;;
  x ← proc_load p;
  fdt_set x.(fdt) fd 0;;
  reply 0.

Definition syscall_getdirent (p : Z) : M (sos E) Z :=
  w ← GetMR 1;
  let pos := s32 w in
  nbyte ← GetMR 2;
  _ ← path_arg p nbyte;
  x ← proc_load p;
  r ← vfs_lookup dir_entries [] false x.(p_pid);
  if nz r.1 then reply 0
  else
    res ← deref r.2;
    u ← malloc SIZEOF_UIO;
    x ← proc_load p;
    uio_init u UIO_READ (u64 pos) 0 x.(p_pid);;
    n ← VOP_GETDIRENTRY res u;
    SetMR 0 n;;
    uio_free u;;
    mret 1.

(** The bytes of an object no one wrote. *)
Definition uninit_bytes (n : nat) : M (sos E) (list Z) :=
  foldr (fun _ k => b ← call Uninit []; l ← k; mret (u8 b :: l)) (mret []) (zseq 0 n).

(** [sos_stat_t] as it lies in memory: four bytes of padding after the size. *)
Definition stat_bytes (o : option sos_stat_t) : M (sos E) (list Z) :=
  match o with
  | None => uninit_bytes 32
  | Some t =>
      pad ← uninit_bytes 4;
      mret (le_bytes 4 t.(st_type) ++ le_bytes 4 t.(st_fmode) ++ le_bytes 4 t.(st_size) ++ pad ++
            le_bytes 8 t.(st_ctime) ++ le_bytes 8 t.(st_atime))
  end.

Definition syscall_stat (p : Z) : M (sos E) Z :=
  nbyte ← GetMR 1;
  l ← path_arg p nbyte;
  x ← proc_load p;
  r ← vfs_lookup dir_entries [] false x.(p_pid);
  if nz r.1 then reply (-1)
  else
    res ← deref r.2;
    path ← deref (cstr l);
    x ← proc_load p;
    r ← nfs_get_statbuf res path x.(p_pid);
    if nz r.1 then reply (-1)
    else
      x ← proc_load p;
      b ← stat_bytes r.2;
      _ ← copyin_bytes x.(p_pid) b;
      reply 0.

(** ** Processes *)

(** [path[nbytes] = '\0'] is one byte past the array. *)
Definition syscall_proc_create (p : Z) : M (sos E) Z :=
  nbytes ← GetMR 1;
  l ← path_arg p nbytes;
  path ← deref (cstr (l ++ [0]));
  pid ← proc_start path;
  (if 2 <=? pid then x ← proc_load p; _ ← add_child x.(p_pid) pid; mret tt else mret tt);;
  reply pid.

(** The test of the process id does not return. *)
Definition syscall_proc_delete (p : Z) : M (sos E) Z :=
  w ← GetMR 1;
  let pid := s32 w in
  when ((pid <=? 0) || (MAX_PROCESSES <=? pid)) (SetMR 0 (-1));;
  ret ← zombiefy pid;
  reply ret.

Definition syscall_proc_my_id (p : Z) : M (sos E) Z := x ← proc_load p; reply x.(p_pid).

(** [sos_process_t] as it lies in memory: behind the name, what was there. *)
Definition process_bytes (id : Z) (x : proc) (size : Z) : M (sos E) (list Z) :=
  rest ← uninit_bytes (Z.to_nat N_NAME - S (length x.(p_name)))%nat;
  mret (le_bytes 4 id ++ le_bytes 4 size ++ le_bytes 4 x.(stime) ++ x.(p_name) ++ [0] ++ rest).

Definition process_entry (id : Z) : M (sos E) (option (list Z)) :=
  c ← proc_get id;
  if c =? 0 then mret None
  else
    x ← proc_load c;
    a ← as_get x.(p_as);
    size ← get_proc_size a.(as_pt);
    b ← process_bytes id x size;
    mret (Some b).

(** The entries of the processes [id], [id + 1], ... below [max], and their
    number. *)
Fixpoint process_entries (n : nat) (id : Z) : M (sos E) (list Z * Z) :=
  match n with
  | O => mret ([], 0)
  | S n' =>
      e ← process_entry id;
      r ← process_entries n' (id + 1);
      mret (match e with None => r | Some b => (b ++ r.1, 1 + r.2) end)
  end.

Definition syscall_proc_status (p : Z) : M (sos E) Z :=
  w ← GetMR 1;
  let max := u32 w in
  processes ← malloc (u64 (SIZEOF_SOS_PROCESS * max));
  r ← process_entries (Z.to_nat (max - 1)) 1;
  access ((r.2 =? 0) || negb (processes =? 0));;
  x ← proc_load p;
  _ ← copyin_bytes x.(p_pid) r.1;
  free processes;;
  reply r.2.

Definition syscall_proc_wait (p : Z) : M (sos E) Z :=
  w ← GetMR 1;
  let pid := s32 w in
  if (pid <? -1) || (pid =? KERNEL_PROC) || (MAX_PROCESSES <=? pid) then reply (-1)
  else
    q ← proc_get pid;
    dead ← (if q =? 0 then mret true else y ← proc_load q; mret (bool_decide (y.(p_state) = ZOMBIE)));
    if (dead : bool) then reply (-1)
    else
      proc_modify p (fun x => {| x with p_state := WAITING |});;
      x ← proc_load p;
      _ ← (if 1 <=? pid then proc_wait_list_add pid x.(p_pid) else wait_all_child x.(p_pid));
      c ← get_running;
      proc_modify p (fun x => {| x with wake_co := c |});;
      node ← yield;
      n ← wait_node_load node;
      p ← proc_get n.(pid_to_wake);
      proc_modify p (fun x => {| x with p_state := RUNNING |});;
      reply n.(owner).

(** ** Time *)

Definition set_fired (b : bool) : M (sos E) unit := pcb_modify (fun t => {| t with timer_fired := b |}).

(** [usleep_handler(id, data)]: the job of the timer runs it. *)
Definition usleep_handler (id data : Z) : M (sos E) unit :=
  set_fired true;;
  _ ← resume data 0;
  SetMR 0 0.

(** [msec * 1000] is an [int]. *)
Definition syscall_usleep (p : Z) : M (sos E) Z :=
  w ← GetMR 1;
  let msec := s32 w in
  set_fired false;;
  c ← get_running;
  job ← malloc SIZEOF_JOB;
  timer ← on_clk (register_timer (negb (job =? 0)) (u64 (s32 (msec * 1000))) ONE_SHOT USLEEP_HANDLER c);
  if timer =? 0 then reply 1
  else
    t ← pcb_get;
    when (negb t.(timer_fired)) (_ ← yield; mret tt);;
    mret 1.

Definition syscall_time_stamp (p : Z) : M (sos E) Z := time ← on_clk get_time; reply time.

(** ** Memory *)

Definition syscall_brk (p : Z) : M (sos E) Z :=
  newbrk ← GetMR 1;
  x ← proc_load p;
  a ← as_get x.(p_as);
  r ← region_get a.(as_heap);
  let hbase := if PROCESS_HEAP_BASE <=? newbrk then newbrk else r.(vbase) in
  SetMR 0 0;;
  SetMR 1 hbase;;
  mret 2.
End syscalls.

(** ** What the handlers return *)

(** Whatever [c] returns satisfies [P]. *)
Definition gives {S A} (P : A -> Prop) (c : M S A) : Prop := forall s a s', c s = Ok a s' -> P a.

Lemma gives_ret {S A} (P : A -> Prop) a : P a -> gives P (mret a : M S A).
Proof. by intros HP s b s' [= <- _]. Qed.
Lemma gives_bind {S A B} (P : B -> Prop) (c : M S A) (k : A -> M S B) :
  (forall a, gives P (k a)) -> gives P (mbind k c).
Proof. intros Hk s b s' (a & s1 & _ & Hrun)%bind_Ok. by eapply Hk. Qed.

Ltac gives :=
  repeat match goal with
  | |- gives _ (mbind _ _) => apply gives_bind; intros ?
  | |- gives _ (mret _) => apply gives_ret; auto
  | |- gives _ (stuck _) => intros ? ? ? [=]
  | |- gives _ (let _ := _ in _) => cbv zeta
  | |- gives _ (if ?b then _ else _) => destruct b
  end.

Section words.
Context {E : Type} `{!Env E, !Sched E}.
Context (dir_entries archive_entries : nat) (cpio_archive : Z).

Definition reply_words (n : Z) : Prop := n = 1 \/ n = 2.

Lemma reply_one v : gives reply_words (reply (E:=E) v).
Proof. unfold reply. gives. by left. Qed.
#[local] Hint Resolve reply_one : core.

Lemma readwrite_words p how : gives reply_words (syscall_readwrite (E:=E) p how).
Proof. unfold syscall_readwrite. gives; done. Qed.
Lemma open_words p : gives reply_words (syscall_open (E:=E) dir_entries p).
Proof. unfold syscall_open, open_path. gives; try done. by right. Qed.
Lemma close_words p : gives reply_words (syscall_close (E:=E) p).
Proof. unfold syscall_close. gives; done. Qed.
Lemma getdirent_words p : gives reply_words (syscall_getdirent (E:=E) dir_entries p).
Proof. unfold syscall_getdirent. gives; try done. by left. Qed.
Lemma stat_words p : gives reply_words (syscall_stat (E:=E) dir_entries p).
Proof. unfold syscall_stat. gives; done. Qed.
Lemma create_words p : gives reply_words (syscall_proc_create (E:=E) dir_entries archive_entries cpio_archive p).
Proof. unfold syscall_proc_create. gives; done. Qed.
Lemma delete_words p : gives reply_words (syscall_proc_delete (E:=E) p).
Proof. unfold syscall_proc_delete. gives; done. Qed.
Lemma status_words p : gives reply_words (syscall_proc_status (E:=E) p).
Proof. unfold syscall_proc_status. gives; done. Qed.
Lemma wait_words p : gives reply_words (syscall_proc_wait (E:=E) p).
Proof. unfold syscall_proc_wait. gives; done. Qed.
Lemma usleep_words p : gives reply_words (syscall_usleep (E:=E) p).
Proof. unfold syscall_usleep. gives; try done. by left. Qed.
Lemma my_id_words p : gives reply_words (syscall_proc_my_id (E:=E) p).
Proof. unfold syscall_proc_my_id. gives; done. Qed.
Lemma time_words p : gives reply_words (syscall_time_stamp (E:=E) p).
Proof. unfold syscall_time_stamp. gives; done. Qed.
Lemma brk_words p : gives reply_words (syscall_brk (E:=E) p).
Proof. unfold syscall_brk. gives. by right. Qed.
End words.
#[export] Hint Resolve readwrite_words open_words close_words getdirent_words stat_words create_words delete_words
  status_words wait_words usleep_words my_id_words time_words brk_words : core.
