(* ===== verification/Morecore.v ===== *)
(** * The server's own memory

    [sos/src/sys/morecore.c]: the C library of the server gets its memory from
    [brk] on a static area, and for large requests from [mmap], which takes a
    region of the kernel process's address space between [MMAP_BOT] and
    [MMAP_TOP] and backs it with frames that are never replaced.

    The theorems: the break never leaves its area, and the search of [mmap] for a
    gap ends: each round it moves past one region. *)
From S2P Require Import Prelude Utils Bitfield UtTable Bytes Sos Cspace Sample CspaceSpec CspaceGrow Mapping.
From S2P Require Import UtAlloc Layers FrameTable FrameClock PageTable FrameSpec PageSpec AddressSpace Procs.
From S2P Require Import SharedBuf Console Vnode Device Nfs Vfs Pager.

Definition MMAP_BOT : Z := 0xF0000000.
Definition MMAP_TOP : Z := 0x1000000000.

Section morecore.
Context {E : Type} `{!Env E, !Sched E}.
Context (dir_entries : nat).
(** The address of the static [morecore_area]. *)
Context (morecore_area : Z).
Notation pageout := (pageout dir_entries).

Definition more_get : M (sos E) morecore_state := gets more.
Definition more_modify (f : morecore_state -> morecore_state) : M (sos E) unit :=
  modify (fun s => {| s with more := f s.(more) |}).

Definition sys_brk (newbrk : Z) : M (sos E) Z :=
  t ← more_get;
  if newbrk =? 0 then mret t.(morecore_base)
  else if (newbrk <? t.(morecore_top)) && (morecore_area <? newbrk) then
    more_modify (fun t => {| t with morecore_base := newbrk |});; mret newbrk
  else mret 0.

(** ** mmap *)

(** The search: the address that is left, defined there unless it reached the
    top.  Where a region cannot be defined, the code reads the region it did not
    find. *)
Fixpoint mmap_search (fuel : nat) (a length addr : Z) : M (sos E) Z :=
  if addr <? MMAP_TOP then
    match fuel with
    | O => stuck NoFuel
    | S fuel' =>
        reg ← as_seek_region a addr;
        if reg =? 0 then
          err ← as_define_region a addr length (Z.lor READ WRITE);
          if err =? 0 then mret addr else stuck Segv
        else
          r ← region_get reg;
          mmap_search fuel' a length (u64 (PAGE_ALIGN_4K r.(vtop) + PAGE_SIZE_4K))
    end
  else mret addr.

(** One page of the new region. *)
Definition mmap_page (p reg i : Z) : M (sos E) unit :=
  r ← frame_alloc_important pageout;
  o ← get_frame r.1;
  t ← more_get;
  slot ← cspace_alloc_slot t.(mc_cspace);
  page ← deref o;
  fte ← fte_get page;
  _ ← cspace_copy t.(mc_cspace) slot t.(mc_cspace) fte.(fte_cap) seL4_AllRights;
  x ← proc_load p;
  y ← as_get x.(p_as);
  g ← region_get reg;
  _ ← sos_map_frame pageout t.(mc_cspace) y.(as_pt) slot x.(vspace) (u64 (g.(vbase) + i * PAGE_SIZE_4K))
        seL4_AllRights seL4_ARM_Default_VMAttributes r.1 true;
  fte_modify page (fun e => {| e with fte_user_cap := slot |}).

(** The fuel of the search is one more than the regions there are. *)
Definition sys_mmap (ogaddr length : Z) : M (sos E) Z :=
  p ← proc_get 0;
  if negb (ogaddr =? 0) then stuck Assert
  else
    let length := u64 (length + PAGE_SIZE_4K) in
    x ← proc_load p;
    y ← as_get x.(p_as);
    addr ← mmap_search (S (List.length y.(regions))) x.(p_as) length MMAP_BOT;
    if (MMAP_TOP <? addr) || (MMAP_TOP <? u64 (addr + length)) then mret (-1)
    else
      reg ← as_seek_region x.(p_as) addr;
      for_each (zseq 0 (Z.to_nat (BYTES_TO_4K_PAGES length))) (mmap_page p reg);;
      g ← region_get reg;
      mret g.(vbase).

(** Pages [i], [i + 1], ... of the region at [base]: whether all were there. *)
Fixpoint munmap_pages (n : nat) (pt base i : Z) : M (sos E) bool :=
  match n with
  | O => mret true
  | S n' =>
      pte ← page_lookup pt (PAGE_ALIGN_4K (u64 (base + i * PAGE_SIZE_4K)));
      match pte with
      | None => mret false
      | Some (leaf, j) =>
          w ← word_get leaf j;
          if page_get_bits w =? 0 then
            frame_free (page_entry_number w);;
            word_put leaf j (page_update_entry P_INVALID 0);;
            munmap_pages n' pt base (i + 1)
          else mret false
      end
  end.

Definition sys_munmap (addr length : Z) : M (sos E) Z :=
  p ← proc_get 0;
  x ← proc_load p;
  reg ← as_seek_region x.(p_as) addr;
  g ← region_get reg;
  y ← as_get x.(p_as);
  ok ← munmap_pages (Z.to_nat (BYTES_TO_4K_PAGES length)) y.(as_pt) g.(vbase) 0;
  if (ok : bool) then _ ← as_destroy_region x.(p_as) addr; mret 0 else mret (-1).

Definition sys_madvise : M (sos E) Z := mret 0.

Definition morecore_bootstrap (cs : Z) : M (sos E) unit := more_modify (fun t => {| t with mc_cspace := cs |}).
End morecore.

(** ** brk *)

Section spec.
Context {E : Type} `{!Env E, !Sched E}.
Implicit Types s : sos E.

(** The break of the server's heap stays in its static area: whatever address
    is asked for, [sys_brk] returns, and either refuses with 0 and changes
    nothing, or returns the break it then has, which lies in the area. *)
Theorem sys_brk_stays_in_area s (area newbrk : Z) :
  0 < area <= s.(more).(morecore_base) -> s.(more).(morecore_base) < s.(more).(morecore_top) ->
  exists r s', sys_brk area newbrk s = Ok r s' /\
    area <= s'.(more).(morecore_base) < s'.(more).(morecore_top) /\
    (r = 0 /\ s' = s \/ r = s'.(more).(morecore_base) /\ (newbrk = 0 \/ r = newbrk)).
Proof.
  intros Hbase Htop. unfold sys_brk, more_get. rewrite (bind_run _ _ s s.(more) s) by done.
  destruct (Z.eqb_spec newbrk 0) as [->|Hn].
  { exists s.(more).(morecore_base), s. split; [done|]. split; [lia|]. right. auto. }
  destruct (Z.ltb_spec newbrk s.(more).(morecore_top)), (Z.ltb_spec area newbrk); cbn [andb].
  2-4: exists 0, s; split; [done|]; split; [lia|]; by left.
  eexists newbrk, _. split; [done|]. cbn. split; [lia|]. right. auto.
Qed.

(** ** The search for a gap *)

(** The regions that reach [addr] or beyond: the search has yet to pass them. *)
Definition ahead (rs : list region) (addr : Z) : nat := length (filter (fun r => addr <= r.(vtop)) rs).

Lemma ahead_le rs addr addr' : addr <= addr' -> (ahead rs addr' <= ahead rs addr)%nat.
Proof.
  intros Hle. unfold ahead. induction rs as [|r rs IH]; [done|]. rewrite !filter_cons.
  repeat case_decide; cbn; lia.
Qed.

Lemma ahead_lt rs r addr addr' :
  r ∈ rs -> addr <= r.(vtop) -> r.(vtop) < addr' -> (ahead rs addr' < ahead rs addr)%nat.
Proof.
  intros Hin H1 H2. induction rs as [|q rs IH]; [by apply elem_of_nil in Hin|].
  apply elem_of_cons in Hin as [<-|Hin].
  - pose proof (ahead_le rs addr addr' ltac:(lia)). unfold ahead in *. rewrite !filter_cons.
    rewrite decide_False, decide_True by lia. cbn. lia.
  - specialize (IH Hin). unfold ahead in *. rewrite !filter_cons. repeat case_decide; cbn; lia.
Qed.

(** What the search can come to, from [addr] on. *)
Definition searched s (a length addr : Z) (rs : list region) (out : result (sos E) Z) : Prop :=
  exists addr', addr <= addr' /\
    ((MMAP_TOP <= addr' /\ out = Ok addr' s) \/
     (addr' < MMAP_TOP /\ Forall (fun r => ~ r.(vbase) <= addr' <= r.(vtop)) rs /\
      let new := mk_region addr' (addr' + length) (Z.lor READ WRITE) in
      ((Forall (disjoint_region new) rs /\ exists s', out = Ok addr' s' /\ as_inv s' a (defined rs new)) \/
       (~ Forall (disjoint_region new) rs /\ out = Stuck Segv)))).

Lemma mmap_search_spec s a length rs p e fuel addr :
  as_inv s a rs -> Forall (fun r => r.(vtop) < 2 ^ 48) rs -> malloc_region_ok s p e ->
  0 <= length < 2 ^ 48 -> 0 <= addr -> (ahead rs addr < fuel)%nat ->
  searched s a length addr rs (mmap_search fuel a length addr s).
Proof.
  intros I Htop Hm Hl. revert addr. induction fuel as [|fuel IH]; intros addr Ha Hf; [lia|]. cbn [mmap_search].
  destruct (Z.ltb_spec addr MMAP_TOP) as [Hlt|]; [|exists addr; split; [lia|]; by left].
  destruct (as_seek_region_spec s a addr rs I) as (reg & Hreg & Hspec). rewrite (bind_run _ _ _ _ _ Hreg).
  destruct (reg =? 0).
  - destruct (as_define_region_spec s a addr length (Z.lor READ WRITE) p e rs I Hm) as (s' & r & Hrun & I' & Hr & _);
      [lia|lia|unfold MMAP_TOP in Hlt; lia|]. rewrite (bind_run _ _ _ _ _ Hrun).
    exists addr. split; [lia|]. right. split; [done|]. split; [done|]. cbv zeta.
    destruct Hr as [[-> Hd]|[-> Hd]]; cbn; [left|right]; (split; [done|]); [|done]. by exists s'.
  - destruct Hspec as (r & Hr & Hin & Hrange & _). rewrite (bind_run _ _ _ _ _ (region_get_run s reg r Hr)).
    rewrite Forall_forall in Htop. specialize (Htop r Hin).
    rewrite PAGE_ALIGN_4K_eq, PAGE_SIZE_4K_eq, u64_small by (pose proof (Z.mod_pos_bound r.(vtop) 4096); lia).
    set (next := r.(vtop) - r.(vtop) mod 4096 + 4096).
    assert (r.(vtop) < next) as Hnext by (pose proof (Z.mod_pos_bound r.(vtop) 4096); unfold next; lia).
    destruct (IH next) as (addr' & Hle & Hout); [lia | pose proof (ahead_lt rs r addr next Hin); lia |].
    exists addr'. split; [lia|done].
Qed.

(** The search of [sys_mmap] for a place ends within one round more than there
    are regions, and comes to one of three ends: there is no free address below
    [MMAP_TOP]; at the first free address the new region is defined, disjoint
    from all others; or the gap there is too small, and the server follows a null
    pointer instead of looking further. *)
Theorem mmap_search_outcome s a length rs p e :
  as_inv s a rs -> Forall (fun r => r.(vtop) < 2 ^ 48) rs -> malloc_region_ok s p e -> 0 <= length < 2 ^ 48 ->
  searched s a length MMAP_BOT rs (mmap_search (S (List.length rs)) a length MMAP_BOT s).
Proof.
  intros I Htop Hm Hl. apply (mmap_search_spec s a length rs p e); try done.
  unfold ahead. pose proof (length_filter (fun r => MMAP_BOT <= r.(vtop)) rs). lia.
Qed.
End spec.

Lemma sys_brk_stays_in_area_witness : exists r s', sys_brk 1048576 1500000 idle = Ok r s'.
Proof.
  destruct (sys_brk_stays_in_area idle 1048576 1500000) as (r & s' & Hrun & _);
    [split; vm_compute; (reflexivity || discriminate) | vm_compute; reflexivity |]. exists r, s'. exact Hrun.
Defined.

Lemma mmap_search_outcome_witness :
  searched spaced 500 8192 MMAP_BOT sample_regions (mmap_search 4 500 8192 MMAP_BOT spaced).
Proof.
  apply (mmap_search_outcome spaced 500 8192 sample_regions 65536 (mk_toy 69632) spaced_as_inv).
  - repeat constructor.
  - split; [vm_compute; reflexivity|]. split; [lia | vm_compute; reflexivity].
  - split; vm_compute; (reflexivity || discriminate).
Defined.
