(* ===== verification/Main.v ===== *)
(** * The server's main loop

    [sos/src/main.c]: interrupts, faults and system calls arrive as messages on
    one endpoint; the badge of a message tells who sent it and its label what it
    is.  Faults and system calls run in coroutines of their own.  A handler that
    yields continues later; what happens in between is [others], so that one
    turn of the loop is the whole handler.

    Also here: [init_irq] of [libclock/src/clock.c] on the real state, and the
    start of the server: [main], which brings up memory, and [main_continued],
    which brings up everything else.

    The theorems: badges of processes and of interrupts cannot be confused and
    give the process back; a system call whose handler returns is answered on
    its own reply slot with one or two words, and a call with an unknown number is never answered. *)
From S2P Require Import Prelude Utils Bitfield Pqueue Clock UtTable Bytes Sos Cspace Sample CspaceSpec CspaceGrow Mapping.
From S2P Require Import UtAlloc Layers Dma Bootstrap FrameTable PageTable AddressSpace Procs SharedBuf Console Vnode Device Nfs Vfs.
From S2P Require Import Pager Libelf Cpio Elf Vm Proc Syscalls Morecore.

Definition IRQ_EP_BADGE : Z := BIT 63.
Definition IRQ_BADGE_NETWORK_IRQ : Z := BIT 0.
Definition IRQ_BADGE_NETWORK_TICK : Z := BIT 1.
Definition IRQ_BADGE_TIMER : Z := BIT 2.
Definition NUM_SYSCALLS : Z := 14.
Definition seL4_Fault_NullFault : Z := 0.
Definition seL4_Fault_VMFault : Z := 5.
Definition seL4_CapIRQControl : Z := 4.
Definition seL4_EndpointBits : Z := 4.
Definition SIZEOF_PQUEUE : Z := 24.
Definition TIMER_MUX : Z := 0xc1109990.
Definition TIMER_PADDR : Z := PAGE_ALIGN_4K TIMER_MUX.
Definition TIMER_F_IRQ : Z := 92.
Definition SOS_STACK : Z := 0xC0000000.
Definition SOS_STACK_PAGES : Z := 100.

Section main.
Context {E : Type} `{!Env E, !Sched E}.
Context (dir_entries archive_entries : nat) (cpio_archive : Z).
(** The address of the static [cspace], and the fuel of the timer interrupt: one
    more than the jobs it may find due. *)
Context (cspace : Z) (timer_jobs : nat).

(** ** System calls *)

(** [syscall_table[n](p)], for a number the test has let through. *)
Definition syscall_table (n p : Z) : M (sos E) Z :=
  match n with
  | 1 => syscall_write p
  | 2 => syscall_read p
  | 3 => syscall_open dir_entries p
  | 4 => syscall_close p
  | 5 => syscall_brk p
  | 6 => syscall_usleep p
  | 7 => syscall_time_stamp p
  | 8 => syscall_getdirent dir_entries p
  | 9 => syscall_stat dir_entries p
  | 10 => syscall_proc_create dir_entries archive_entries cpio_archive p
  | 11 => syscall_proc_delete p
  | 12 => syscall_proc_my_id p
  | 13 => syscall_proc_status p
  | 14 => syscall_proc_wait p
  | _ => stuck Segv
  end.

Definition handle_syscall (pid : Z) : M (sos E) unit :=
  reply ← cspace_alloc_slot cspace;
  syscall_number ← GetMR 0;
  err ← cspace_save_reply_cap cspace reply;
  assert (err =? 0);;
  p ← proc_get pid;
  (if ISINRANGE 1 syscall_number NUM_SYSCALLS then
     nwords ← syscall_table syscall_number p;
     _ ← call Send [reply; 0; 0; 0; nwords]; mret tt
   else mret tt);;
  cspace_free_slot cspace reply.

(** ** The loop *)

(** [resume(coroutine(f), pid)]: a coroutine that is not in use runs [f]. *)
Definition in_coroutine (f : Z -> M (sos E) unit) (pid : Z) : M (sos E) unit :=
  me ← get_running;
  c ← call Coroutine [];
  pcb_modify (fun t => {| t with running := c |});;
  f pid;;
  pcb_modify (fun t => {| t with running := me |}).

(** The callbacks registered with the timer driver. *)
Definition timer_callback (cb id data : Z) : M (sos E) unit :=
  if cb =? USLEEP_HANDLER then usleep_handler id data else stuck Segv.

Definition sos_timer_interrupt : M (sos E) Z :=
  timer_interrupt (fun A => on_clk) timer_callback (call Timestamp [])
    (fun irq => _ ← call IRQHandler_Ack [irq]; mret tt) timer_jobs.

Definition handle_notification (badge : Z) : M (sos E) unit :=
  when (nz (Z.land badge IRQ_BADGE_NETWORK_IRQ)) (_ ← call Network_Irq []; mret tt);;
  when (nz (Z.land badge IRQ_BADGE_NETWORK_TICK)) (_ ← call Network_Tick []; mret tt);;
  when (nz (Z.land badge IRQ_BADGE_TIMER)) (_ ← sos_timer_interrupt; mret tt).

(** What the loop does with a message. *)
Inductive event : Type := Notification (badge : Z) | Fault (pid : Z) | Syscall (pid : Z) | Unknown.

Definition classify (badge label : Z) : event :=
  if nz (Z.land badge IRQ_EP_BADGE) then Notification badge
  else if label =? seL4_Fault_VMFault then Fault (GET_PID_BADGE badge)
  else if label =? seL4_Fault_NullFault then Syscall (GET_PID_BADGE badge)
  else Unknown.

Definition handle_event (ev : event) : M (sos E) unit :=
  match ev with
  | Notification badge => handle_notification badge
  | Fault pid => in_coroutine (vm_fault dir_entries) pid
  | Syscall pid => in_coroutine handle_syscall pid
  | Unknown => stuck Assert
  end.

(** One turn of the loop. *)
Definition syscall_loop_turn (ep : Z) : M (sos E) unit :=
  reap;;
  badge ← call Recv [ep];
  label ← call RecvLabel [];
  handle_event (classify badge label).

(** ** Starting up *)

(** The notification object and the endpoint. *)
Definition sos_ipc_init : M (sos E) (Z * Z) :=
  r ← alloc_retype cspace seL4_NotificationObject seL4_NotificationBits;
  assert (negb (r.1 =? 0));;
  ntfn ← deref r.2;
  err ← call TCB_BindNotification [seL4_CapInitThreadTCB; ntfn];
  assert (err =? 0);;
  r ← alloc_retype cspace seL4_EndpointObject seL4_EndpointBits;
  assert (negb (r.1 =? 0));;
  ipc_ep ← deref r.2;
  mret (ipc_ep, ntfn).

Definition irq_badge (badge : Z) : Z := Z.lor badge IRQ_EP_BADGE.

Definition badge_irq_ntfn (ntfn badge : Z) : M (sos E) Z :=
  badged_cap ← cspace_alloc_slot cspace;
  assert (negb (badged_cap =? seL4_CapNull));;
  _ ← cspace_mint cspace badged_cap cspace ntfn seL4_AllRights (irq_badge badge);
  mret badged_cap.

(** [init_irq] of [clock.c] *)
Definition init_irq (irq_number edge_triggered ntfn : Z) : M (sos E) Z :=
  irq_handler ← cspace_alloc_slot cspace;
  assert (negb (irq_handler =? seL4_CapNull));;
  error ← cspace_irq_control_get cspace irq_handler seL4_CapIRQControl irq_number edge_triggered;
  assert (error =? 0);;
  error ← call IRQHandler_SetNotification [irq_handler; ntfn];
  assert (error =? 0);;
  _ ← call IRQHandler_Ack [irq_handler];
  mret irq_handler.

(** The registers of the device start from what is in them. *)
Definition sos_start_timer (ntfn : Z) : M (sos E) Z :=
  q ← malloc SIZEOF_PQUEUE;
  mux ← call Uninit [];
  f ← call Uninit [];
  start_timer (fun A => on_clk) (call Timestamp []) (init_irq TIMER_F_IRQ 1 ntfn)
    (fun irq => _ ← call IRQHandler_Clear [irq]; mret tt) (negb (q =? 0)) (u32 mux) (u32 f).

(** Everything up to the loop; the endpoint it listens on. *)
Definition main_continued : M (sos E) Z :=
  ipc ← sos_ipc_init;
  let '(ipc_ep, ntfn) := ipc in
  timer_vaddr ← sos_map_device cspace (PAGE_ALIGN_4K TIMER_PADDR) PAGE_SIZE_4K;
  irq ← badge_irq_ntfn ntfn IRQ_BADGE_NETWORK_IRQ;
  tick ← badge_irq_ntfn ntfn IRQ_BADGE_NETWORK_TICK;
  _ ← call Network_Init [cspace; irq; tick; timer_vaddr];
  timer ← badge_irq_ntfn ntfn IRQ_BADGE_TIMER;
  _ ← sos_start_timer timer;
  frame_table_init cspace;;
  morecore_bootstrap cspace;;
  vm_bootstrap cspace;;
  shared_buf_init (pageout dir_entries) cspace;;
  vfs_bootstrap;;
  pager_bootstrap;;
  success ← proc_bootstrap dir_entries archive_entries cpio_archive cspace ipc_ep;
  assert success;;
  mret ipc_ep.

(** The bigger stack, with a page below it that is not mapped. *)
Definition map_stack_page (vaddr : Z) : M (sos E) unit :=
  r ← alloc_retype cspace seL4_ARM_SmallPageObject seL4_PageBits;
  assert (negb (r.1 =? 0));;
  frame_cap ← deref r.2;
  err ← map_frame cspace frame_cap seL4_CapInitThreadVSpace vaddr seL4_AllRights seL4_ARM_Default_VMAttributes;
  assert (err =? 0).

(** [main], without the installation of the C library's system calls and the
    output. *)
Definition sos_main (bi : bootinfo) : M (sos E) Z :=
  sos_bootstrap cspace bi;;
  _ ← call Uart_Init [cspace];
  for_each (zseq 0 (Z.to_nat SOS_STACK_PAGES)) (fun i => map_stack_page (u64 (SOS_STACK + i * PAGE_SIZE_4K)));;
  main_continued.
End main.

(** ** Badges *)

Definition irq_sources : list Z := [IRQ_BADGE_NETWORK_IRQ; IRQ_BADGE_NETWORK_TICK; IRQ_BADGE_TIMER].

(** Badges tell senders apart: the badge minted for a process is read back as
    that process and never as an interrupt, so its messages are its faults and
    system calls; every badge minted for an interrupt source is recognised as a
    notification of that source, whatever the label. *)
Theorem badge_identifies_sender (pid label : Z) :
  0 <= pid < MAX_PROCESSES ->
  classify (u64 (SET_PID_BADGE pid)) label =
    (if label =? seL4_Fault_VMFault then Fault pid
     else if label =? seL4_Fault_NullFault then Syscall pid else Unknown) /\
  forall src, src ∈ irq_sources ->
    classify (irq_badge src) label = Notification (irq_badge src) /\
    forall src', src' ∈ irq_sources ->
      nz (Z.land (irq_badge src) src') = bool_decide (src' = src).
Proof.
  intros Hpid. split.
  - assert (Forall (fun q => nz (Z.land (u64 (SET_PID_BADGE q)) IRQ_EP_BADGE) = false /\
      GET_PID_BADGE (u64 (SET_PID_BADGE q)) = q) (zseq 0 32)) as Hall.
    { apply (bool_decide_unpack _). vm_compute. exact I. }
    rewrite Forall_forall in Hall. destruct (Hall pid) as [Hirq Hget];
      [apply elem_of_zseq; unfold MAX_PROCESSES in Hpid; lia|].
    unfold classify. by rewrite Hirq, Hget.
  - assert (Forall (fun src => nz (Z.land (irq_badge src) IRQ_EP_BADGE) = true /\
      Forall (fun src' => nz (Z.land (irq_badge src) src') = bool_decide (src' = src)) irq_sources) irq_sources) as Hall.
    { apply (bool_decide_unpack _). vm_compute. exact I. }
    rewrite Forall_forall in Hall. intros src Hsrc. destruct (Hall src Hsrc) as [Hirq Hother].
    split; [unfold classify; by rewrite Hirq | by apply Forall_forall].
Qed.

Lemma badge_identifies_sender_witness : classify (u64 (SET_PID_BADGE 7)) seL4_Fault_NullFault = Syscall 7.
Proof. refine (proj1 (badge_identifies_sender 7 seL4_Fault_NullFault _)). split; [discriminate | reflexivity]. Defined.

(** ** Replies *)

Section replies.
Context {E : Type} `{!Env E, !Sched E}.
Context (dir_entries archive_entries : nat) (cpio_archive cspace : Z).
Implicit Types s : sos E.
Notation syscall_table := (syscall_table dir_entries archive_entries cpio_archive).
Notation handle_syscall := (handle_syscall dir_entries archive_entries cpio_archive cspace).

Lemma table_words n p : 1 <= n <= NUM_SYSCALLS -> gives reply_words (syscall_table n p).
Proof.
  intros Hn. assert (n ∈ zseq 1 14) as Hin by (apply elem_of_zseq; unfold NUM_SYSCALLS in Hn; lia).
  vm_compute in Hin. repeat (apply elem_of_cons in Hin as [->|Hin]; [simpl; unfold syscall_write, syscall_read; auto|]).
  by apply elem_of_nil in Hin.
Qed.

(** Freeing a slot asks nothing of the kernel. *)
Definition same_trace s s' : Prop := s'.(trace) = s.(trace).
#[local] Instance same_trace_preorder : PreOrder same_trace.
Proof. split; [done|]. intros s1 s2 s3 H1 H2. unfold same_trace in *. congruence. Qed.

Lemma free_slot_silent c q : preserves same_trace (cspace_free_slot (E:=E) c q).
Proof.
  unfold cspace_free_slot, on_top_bf, on_bot_bf, bot_lvl_node_ptr, on_bf, cspace_put, node_put, cspace_get, node_get, index.
  preserves; by apply preserves_modify.
Qed.

(** A system call with a known number whose handler returns is answered: the
    last thing asked of the kernel is to send one or two words on the reply slot
    taken for the call.  A call with an unknown number is not answered at all:
    saving the reply capability was the last request. *)
Theorem handle_syscall_replies s s' pid :
  handle_syscall pid s = Ok tt s' ->
  exists reply n s1 s2, cspace_alloc_slot cspace s = Ok reply s1 /\ GetMR 0 s1 = Ok n s2 /\
    if ISINRANGE 1 n NUM_SYSCALLS
    then exists nwords r t, reply_words nwords /\ s'.(trace) = (Send, [reply; 0; 0; 0; nwords], r) :: t
    else exists root r, s'.(trace) = (CNode_SaveCaller, [root; reply; seL4_WordBits], r) :: s2.(trace).
Proof.
  intros Hrun. unfold handle_syscall in Hrun.
  apply bind_Ok in Hrun as (rp & s1 & H1 & Hrun). apply bind_Ok in Hrun as (n & s2 & H2 & Hrun).
  exists rp, n, s1, s2. split; [done|]. split; [done|].
  apply bind_Ok in Hrun as (err & s3 & H3 & Hrun). apply bind_Ok in Hrun as ([] & s4 & [_ ->]%assert_Ok & Hrun).
  apply bind_Ok in Hrun as (p & s4 & (-> & _)%proc_get_inv & Hrun).
  apply bind_Ok in Hrun as ([] & s4 & H4 & Hrun). apply free_slot_silent in Hrun as ->.
  destruct (ISINRANGE 1 n NUM_SYSCALLS) eqn:Hn.
  - apply bind_Ok in H4 as (nwords & s5 & H5 & H4). apply bind_Ok in H4 as (r & s6 & H6 & H4).
    apply call_inv in H6 as (_ & _ & Ht). injection H4 as <-. exists nwords, r, s5.(trace). split; [|done].
    apply ISINRANGE_spec in Hn; [|unfold NUM_SYSCALLS; lia]. by eapply table_words.
  - injection H4 as <-. unfold cspace_save_reply_cap in H3. apply bind_Ok in H3 as (x & s5 & H5 & H3).
    apply call_inv in H3 as (_ & _ & ->). exists x.(root_cnode), err.
    unfold cspace_get in H5. apply bind_Ok in H5 as (s6 & s7 & [= <- <-] & H5). apply deref_Ok in H5 as [_ ->]. done.
Qed.
End replies.

(** Process 1 asks for its id (system call 12). *)
Lemma handle_syscall_replies_witness : exists s' reply nwords r t,
  handle_syscall 0 0 0 100 1 (peopled RUNNING) = Ok tt s' /\
  s'.(trace) = (Send, [reply; 0; 0; 0; nwords], r) :: t.
Proof.
  run_to (handle_syscall 0 0 0 100 1) (peopled RUNNING) tt Hrun.
  destruct (handle_syscall_replies 0 0 0 100 (peopled RUNNING) _ 1 Hrun) as (reply & n & s1 & s2 & H1 & H2 & H3).
  assert (n = 12) as ->.
  { revert H2. unfold GetMR, call. cbn. intros [= <- _]. reflexivity. }
  destruct H3 as (nwords & r & t & _ & Ht).
  exists (final (handle_syscall 0 0 0 100 1 (peopled RUNNING)) (peopled RUNNING)), reply, nwords, r, t.
  split; [exact Hrun | exact Ht].
Defined.
