(* ===== verification/Libsosapi.v ===== *)
(** * The user library

    [libsosapi]: the stubs by which a program calls SOS ([sos.c]) and the system
    calls of the C library built on them ([sys_stdio.c], [sys_time.c],
    [sys_morecore.c], [sys_exit.c], [sys_thread.c]).  This is the other side of
    [Syscalls]: a program has memory and message registers of its own, and the
    pages of its shared buffer are those of its window in the server.

    The kernel's [seL4_Call] is the parameter [seL4_Call] of the class [Ipc]: it
    may change the message registers and the program's memory (the server writes
    the window).  Pointers are addresses of the program's memory, in which
    absent bytes are zero.  The arguments of a system call of the C library
    ([va_list]) are a list of words.

    The theorems: the path of a call arrives at the server as it was given; what
    a read or a directory listing changes in the program's memory is exactly the
    bytes the reply announces, taken from the window, whether or not the buffer
    has room for them; [writev] hands over every part of the vector in order. *)
From S2P Require Import Prelude Utils UtTable Bytes Sos Cspace Sample AddressSpace Procs SharedBuf Console Vfs Syscalls.

Definition SOS_SYS_WRITE : Z := 1.
Definition SOS_SYS_READ : Z := 2.
Definition SOS_SYS_OPEN : Z := 3.
Definition SOS_SYS_CLOSE : Z := 4.
Definition SOS_SYS_BRK : Z := 5.
Definition SOS_SYS_USLEEP : Z := 6.
Definition SOS_SYS_TIME_STAMP : Z := 7.
Definition SOS_SYS_GETDIRENT : Z := 8.
Definition SOS_SYS_STAT : Z := 9.
Definition SOS_PROC_CREATE : Z := 10.
Definition SOS_PROC_DELETE : Z := 11.
Definition SOS_PROC_MY_ID : Z := 12.
Definition SOS_PROC_STATUS : Z := 13.
Definition SOS_PROC_WAIT : Z := 14.
Definition SOS_IPC_EP_CAP : Z := 1.
Definition SHARE_BUF : Z := 0xD0000000.
Definition SIZEOF_SOS_STAT : Z := 32.

Definition EINVAL : Z := 22.
Definition ENOSYS : Z := 38.
Definition IOV_MAX : Z := 1024.
Definition SSIZE_MAX : Z := 2 ^ 63 - 1.
Definition O_LARGEFILE : Z := 131072.
Definition STDOUT_FD : Z := 1.
Definition STDERR_FD : Z := 2.
Definition MS_IN_S : Z := 1000.
Definition US_IN_S : Z := 1000000.
Definition NS_IN_US : Z := 1000.
Definition NS_IN_MS : Z := 1000000.
Definition CLOCK_REALTIME : Z := 0.

(** The functions that can be in the table of system calls of the C library
    ([aos/vsyscall.c]): the two that are there at start, and the library's. *)
Inductive sysfun :=
  | boot_set_tid_address | boot_sys_writev
  | Sys_exit | Sys_rt_sigprocmask | Sys_gettid | Sys_getpid | Sys_tgkill | Sys_exit_group
  | Sys_close | Sys_readv | Sys_read | Sys_ioctl | Sys_openat | Sys_brk | Sys_writev
  | Sys_set_tid_address | Sys_clock_gettime | Sys_nanosleep | Sys_mmap.

(** A program: its memory, its message registers, and in its C library the table
    of system calls and the argument of [set_tid_address] at start. *)
Record user := mk_user {
  umem : gmap Z Z; mrs : gmap Z Z;
  syscalls : gmap Z sysfun; boot_set_tid_address_arg : option Z }.

Class Ipc := seL4_Call : Z -> Z -> M user unit.

Definition mr (u : user) (i : Z) : Z := default 0 (u.(mrs) !! i).
Definition seL4_SetMR (i v : Z) : M user unit := modify (fun u => {| u with mrs := <[i := u64 v]> u.(mrs) |}).
Definition seL4_GetMR (i : Z) : M user Z := u ← get; mret (mr u i).

Definition check_len (len : Z) : Z :=
  if PAGE_SIZE_4K * SHARE_BUF_SIZE <? len then PAGE_SIZE_4K * SHARE_BUF_SIZE else len.

(** [SHARE_BUF - PAGE_SIZE_4K * SHARE_BUF_SIZE]: where a program sees its window. *)
Definition user_window : Z := u32 (SHARE_BUF - PAGE_SIZE_4K * SHARE_BUF_SIZE).

Definition umem_read (a n : Z) : M user (list Z) := u ← get; mret (bytes_at u.(umem) a (Z.to_nat n)).
Definition umem_write (a : Z) (l : list Z) : M user unit :=
  modify (fun u => {| u with umem := store_bytes u.(umem) a l |}).

Definition user_copyin (user_vaddr len : Z) : M user Z :=
  let len := check_len len in
  l ← umem_read user_vaddr len;
  umem_write user_window l;;
  mret len.
Definition strlen (a : Z) : M user Z := u ← get; mret (strlen_in u.(umem) (S (size u.(umem))) a).
Definition user_copyout (user_vaddr len : Z) : M user Z :=
  let len := check_len len in
  l ← umem_read user_window len;
  umem_write user_vaddr l;;
  mret len.

Section stubs.
Context `{!Ipc}.

(** ** sos.c *)

Definition word_result : M user Z := r ← seL4_GetMR 0; mret (s32 r).
Definition open_result : M user Z :=
  err ← seL4_GetMR 0;
  if nz err then mret (-1) else fd ← seL4_GetMR 1; mret (s32 fd).
Definition sos_sys_open (path mode : Z) : M user Z :=
  seL4_SetMR 0 SOS_SYS_OPEN;;
  seL4_SetMR 1 mode;;
  n ← strlen path;
  seL4_SetMR 2 (n + 1);;
  n ← strlen path;
  _ ← user_copyin path (n + 1);
  seL4_Call SOS_IPC_EP_CAP 3;;
  open_result.

Definition sos_sys_close (file : Z) : M user Z :=
  seL4_SetMR 0 SOS_SYS_CLOSE;;
  seL4_SetMR 1 file;;
  seL4_Call SOS_IPC_EP_CAP 2;;
  word_result.

Definition read_result (buf : Z) : M user Z :=
  bytes_read ← seL4_GetMR 0;
  _ ← user_copyout buf bytes_read;
  mret (s32 bytes_read).
Definition sos_sys_read (file buf nbyte : Z) : M user Z :=
  seL4_SetMR 0 SOS_SYS_READ;;
  seL4_SetMR 1 file;;
  seL4_SetMR 2 nbyte;;
  seL4_Call SOS_IPC_EP_CAP 3;;
  read_result buf.

Definition sos_sys_write (file buf nbyte : Z) : M user Z :=
  seL4_SetMR 0 SOS_SYS_WRITE;;
  nbyte ← user_copyin buf nbyte;
  seL4_SetMR 1 file;;
  seL4_SetMR 2 nbyte;;
  seL4_Call SOS_IPC_EP_CAP 3;;
  word_result.

Definition sos_getdirent (pos name nbyte : Z) : M user Z :=
  assert (0 <=? pos);;
  seL4_SetMR 0 SOS_SYS_GETDIRENT;;
  nbyte ← user_copyin name nbyte;
  seL4_SetMR 1 pos;;
  seL4_SetMR 2 nbyte;;
  seL4_Call SOS_IPC_EP_CAP 3;;
  n ← seL4_GetMR 0;
  _ ← user_copyout name n;
  n ← seL4_GetMR 0; mret (s32 n).

Definition stat_result (buf : Z) : M user Z :=
  r ← seL4_GetMR 0;
  if nz r then mret (s32 r)
  else _ ← user_copyout buf SIZEOF_SOS_STAT; r ← seL4_GetMR 0; mret (s32 r).
Definition sos_stat (path buf : Z) : M user Z :=
  seL4_SetMR 0 SOS_SYS_STAT;;
  n ← strlen path;
  nbyte ← user_copyin path (n + 1);
  seL4_SetMR 1 nbyte;;
  seL4_Call SOS_IPC_EP_CAP 2;;
  stat_result buf.

Definition sos_process_create (path : Z) : M user Z :=
  seL4_SetMR 0 SOS_PROC_CREATE;;
  n ← strlen path;
  nbytes ← user_copyin path (n + 1);
  seL4_SetMR 1 nbytes;;
  seL4_Call SOS_IPC_EP_CAP 2;;
  word_result.

Definition sos_process_delete (pid : Z) : M user Z :=
  seL4_SetMR 0 SOS_PROC_DELETE;;
  seL4_SetMR 1 pid;;
  seL4_Call SOS_IPC_EP_CAP 2;;
  word_result.

Definition sos_my_id : M user Z :=
  seL4_SetMR 0 SOS_PROC_MY_ID;;
  seL4_Call SOS_IPC_EP_CAP 1;;
  word_result.

Definition sos_process_status (processes max : Z) : M user Z :=
  seL4_SetMR 0 SOS_PROC_STATUS;;
  seL4_SetMR 1 max;;
  seL4_Call SOS_IPC_EP_CAP 2;;
  nactive ← seL4_GetMR 0;
  _ ← user_copyout processes (u64 (nactive * SIZEOF_SOS_PROCESS));
  mret (s32 nactive).

Definition sos_process_wait (pid : Z) : M user Z :=
  seL4_SetMR 0 SOS_PROC_WAIT;;
  seL4_SetMR 1 pid;;
  seL4_Call SOS_IPC_EP_CAP 2;;
  word_result.

Definition sos_sys_usleep (msec : Z) : M user unit :=
  if msec <? 0 then mret tt
  else
    seL4_SetMR 0 SOS_SYS_USLEEP;;
    seL4_SetMR 1 msec;;
    seL4_Call SOS_IPC_EP_CAP 2.

Definition sos_sys_time_stamp : M user Z :=
  seL4_SetMR 0 SOS_SYS_TIME_STAMP;;
  seL4_Call SOS_IPC_EP_CAP 1;;
  r ← seL4_GetMR 0; mret (s64 r).

Definition sos_sys_brk (newbrk : Z) : M user Z :=
  seL4_SetMR 0 SOS_SYS_BRK;;
  seL4_SetMR 1 newbrk;;
  seL4_Call SOS_IPC_EP_CAP 2;;
  r ← seL4_GetMR 1; mret (s64 r).

(** ** System calls of the C library *)

Definition sosapi_abort : M user Z :=
  me ← sos_my_id;
  _ ← sos_process_delete me;
  (* [while (1);] *)
  stuck NoFuel.

Definition sys_rt_sigprocmask : M user Z := mret 0.
Definition sys_gettid : M user Z := mret 0.
Definition sys_getpid : M user Z := mret 0.
Definition sys_exit : M user Z := sosapi_abort.
Definition sys_exit_group : M user Z := sosapi_abort.
Definition sys_tgkill : M user Z := sosapi_abort.
Definition sys_set_tid_address : M user Z := mret (-ENOSYS).

Record iovec := mk_iovec { iov_base : Z; iov_len : Z }.

Definition word_at (a : Z) : M user Z := l ← umem_read a 8; mret (le_value l).
(** [iov[i]] *)
Definition iov_at (iov i : Z) : M user iovec :=
  b ← word_at (iov + 16 * i); n ← word_at (iov + 16 * i + 8); mret (mk_iovec b n).

(** The check of the lengths from the [i]-th on; [None] is [-EINVAL]. *)
Fixpoint sum_lens (iov : Z -> M user iovec) (n : nat) (i sum : Z) : M user (option Z) :=
  match n with
  | O => mret (Some sum)
  | S n' =>
      v ← iov i;
      let sum := s64 (sum + s64 v.(iov_len)) in
      if SSIZE_MAX <? sum then mret None else sum_lens iov n' (i + 1) sum
  end.

(** [ret += f(iov[i].iov_base, iov[i].iov_len)] *)
Fixpoint each_part (f : Z -> Z -> M user Z) (iov : Z -> M user iovec) (n : nat) (i ret : Z) : M user Z :=
  match n with
  | O => mret ret
  | S n' =>
      v ← iov i;
      r ← f v.(iov_base) v.(iov_len);
      each_part f iov n' (i + 1) (s64 (ret + r))
  end.

(** [sos_write], the output function of the program. *)
Context (sos_write : Z -> Z -> M user Z).

Definition writev_of (fildes : Z) (iov : Z -> M user iovec) (iovcnt : Z) : M user Z :=
  if (iovcnt <=? 0) || (IOV_MAX <? iovcnt) then mret (-EINVAL)
  else
    sum ← sum_lens iov (Z.to_nat iovcnt) 0 0;
    match sum with
    | None => mret (-EINVAL)
    | Some 0 => mret 0
    | Some _ =>
        each_part (if (fildes =? STDOUT_FD) || (fildes =? STDERR_FD) then sos_write else sos_sys_write fildes)
          iov (Z.to_nat iovcnt) 0 0
    end.
Definition sys_writev (fildes iov iovcnt : Z) : M user Z := writev_of fildes (iov_at iov) iovcnt.

Definition readv_of (fd : Z) (iov : Z -> M user iovec) (iovcnt : Z) : M user Z :=
  each_part (sos_sys_read fd) iov (Z.to_nat iovcnt) 0 0.
Definition sys_readv (fd iov iovcnt : Z) : M user Z := readv_of fd (iov_at iov) iovcnt.

(** What the C library returns for the result of a system call. *)
Definition syscall_ret (r : Z) : Z := if u64 (-4096) <? u64 r then -1 else r.
(** The vector of one part is on the stack. *)
Definition one_part (buf count : Z) : Z -> M user iovec := fun _ => mret (mk_iovec buf count).
Definition sys_read (fd buf count : Z) : M user Z :=
  r ← readv_of fd (one_part buf count) 1; mret (syscall_ret r).
Definition sys_write (fd buf count : Z) : M user Z :=
  r ← writev_of fd (one_part buf count) 1; mret (syscall_ret r).

Definition sys_ioctl (fd request : Z) : M user Z :=
  if fd =? STDOUT_FD then mret 0 else stuck Assert.

Definition sos_sys_open_wrapper (pathname flags : Z) : M user Z := sos_sys_open pathname flags.
Definition sys_openat (dirfd pathname flags mode : Z) : M user Z :=
  sos_sys_open_wrapper pathname (Z.land flags (Z.lnot O_LARGEFILE)).
Definition sys_close (fd : Z) : M user Z := sos_sys_close fd.

Definition sys_brk (newbrk : Z) : M user Z := sos_sys_brk newbrk.
Definition sys_mmap (addr length prot flags fd offset : Z) : M user Z := mret 0.

(** [MS_IN_S] and [NS_IN_MS] are unsigned. *)
Definition sleep_millis (tv_sec tv_nsec : Z) : Z :=
  let millis := s32 (tv_sec * MS_IN_S) in s32 (millis + u64 tv_nsec / NS_IN_MS).
Definition sys_nanosleep (req : Z) : M user Z :=
  tv_sec ← word_at req;
  tv_nsec ← word_at (req + 8);
  sos_sys_usleep (sleep_millis tv_sec tv_nsec);;
  mret 0.

Definition put_word (a v : Z) : M user unit := umem_write a (le_bytes 8 v).
Definition timespec_of (micros : Z) : Z * Z := (u64 micros / US_IN_S, u64 micros mod US_IN_S * NS_IN_US).
Definition sys_clock_gettime (clk_id res : Z) : M user Z :=
  if negb (clk_id =? CLOCK_REALTIME) then mret (-EINVAL)
  else
    micros ← sos_sys_time_stamp;
    put_word res (timespec_of micros).1;;
    put_word (res + 8) (timespec_of micros).2;;
    mret 0.

(** ** The table of system calls *)

Definition boot_set_tid (tid : Z) : M user Z :=
  u ← get;
  match u.(boot_set_tid_address_arg) with
  | Some _ => mret 1
  | None => modify (fun u => {| u with boot_set_tid_address_arg := Some tid |});; mret 1
  end.

(** The characters only go to the kernel's debug output; the counter of a part is
    an [int]. *)
Definition boot_writev (iov iovcnt : Z) : M user Z :=
  each_part (fun _ len => mret len) (iov_at iov) (Z.to_nat iovcnt) 0 0.

Definition va_arg (ap : list Z) (i : Z) : M user Z := index ap i.
Definition va_int (ap : list Z) (i : Z) : M user Z := x ← index ap i; mret (s32 x).

Definition run_sys (f : sysfun) (ap : list Z) : M user Z :=
  match f with
  | boot_set_tid_address => t ← va_arg ap 0; boot_set_tid t
  | boot_sys_writev => iov ← va_arg ap 1; n ← va_int ap 2; boot_writev iov n
  | Sys_exit => sys_exit
  | Sys_rt_sigprocmask => sys_rt_sigprocmask
  | Sys_gettid => sys_gettid
  | Sys_getpid => sys_getpid
  | Sys_tgkill => sys_tgkill
  | Sys_exit_group => sys_exit_group
  | Sys_close => fd ← va_int ap 0; sys_close fd
  | Sys_readv => fd ← va_int ap 0; iov ← va_arg ap 1; n ← va_int ap 2; sys_readv fd iov n
  | Sys_read => fd ← va_int ap 0; buf ← va_arg ap 1; n ← va_arg ap 2; sys_read fd buf n
  | Sys_ioctl => fd ← va_int ap 0; r ← va_int ap 1; sys_ioctl fd r
  | Sys_openat =>
      d ← va_int ap 0; path ← va_arg ap 1; flags ← va_int ap 2; mode ← va_arg ap 3; sys_openat d path flags mode
  | Sys_brk => b ← va_arg ap 0; sys_brk b
  | Sys_writev => fd ← va_int ap 0; iov ← va_arg ap 1; n ← va_int ap 2; sys_writev fd iov n
  | Sys_set_tid_address => sys_set_tid_address
  | Sys_clock_gettime => c ← va_int ap 0; res ← va_arg ap 1; sys_clock_gettime c res
  | Sys_nanosleep => req ← va_arg ap 0; sys_nanosleep req
  | Sys_mmap =>
      a ← va_arg ap 0; n ← va_arg ap 1; p ← va_int ap 2; f ← va_int ap 3; fd ← va_int ap 4; o ← va_arg ap 5;
      sys_mmap a n p f fd o
  end.

Definition MUSLC_NUM_SYSCALLS : Z := 291.

Definition muslcsys_install_syscall (syscall : Z) (new_syscall : sysfun) : M user (option sysfun) :=
  assert (u64 syscall <? MUSLC_NUM_SYSCALLS);;
  u ← get;
  modify (fun u => {| u with syscalls := <[syscall := new_syscall]> u.(syscalls) |});;
  mret (u.(syscalls) !! syscall).

Definition sel4_vsyscall (sysnum : Z) (ap : list Z) : M user Z :=
  if (sysnum <? 0) || (MUSLC_NUM_SYSCALLS <=? sysnum) then mret (-ENOSYS)
  else
    u ← get;
    match u.(syscalls) !! sysnum with None => mret (-ENOSYS) | Some f => run_sys f ap end.

(** The table at start, and what [sosapi_init_syscall_table] installs. *)
Definition syscall_table_start : gmap Z sysfun := {[ 96 := boot_set_tid_address; 66 := boot_sys_writev ]}.
Definition sosapi_syscalls : list (Z * sysfun) :=
  [(93, Sys_exit); (135, Sys_rt_sigprocmask); (178, Sys_gettid); (172, Sys_getpid); (131, Sys_tgkill);
   (94, Sys_exit_group); (57, Sys_close); (65, Sys_readv); (63, Sys_read); (29, Sys_ioctl); (56, Sys_openat);
   (214, Sys_brk); (66, Sys_writev); (96, Sys_set_tid_address); (113, Sys_clock_gettime); (101, Sys_nanosleep);
   (222, Sys_mmap)].
Definition sosapi_init_syscall_table : M user unit :=
  for_each sosapi_syscalls (fun x => _ ← muslcsys_install_syscall x.1 x.2; mret tt).
End stubs.

(** ** Strings and the window *)

Lemma strlen_run u a l : c_string u.(umem) a l -> strlen a u = Ok (Z.of_nat (length l)) u.
Proof.
  intros Hs. unfold strlen. rewrite get_bind. unfold mret, M_ret. f_equal.
  apply strlen_in_string; [done|]. pose proof (c_string_size _ _ _ Hs). lia.
Qed.

Lemma check_len_eq len : check_len len = Z.min len BUF_BYTES.
Proof. apply share_buf_check_len_eq. Qed.
Lemma user_window_eq : user_window = PROCESS_SHARED_BUF_TOP - BUF_BYTES.
Proof. reflexivity. Qed.

Lemma user_copyin_run u a len :
  let n := Z.min len BUF_BYTES in
  user_copyin a len u = Ok n {| u with umem := store_bytes u.(umem) user_window (bytes_at u.(umem) a (Z.to_nat n)) |}.
Proof. intros n. unfold user_copyin. by rewrite check_len_eq. Qed.
Lemma user_copyout_run u a len :
  let n := Z.min len BUF_BYTES in
  user_copyout a len u = Ok n {| u with umem := store_bytes u.(umem) a (bytes_at u.(umem) user_window (Z.to_nat n)) |}.
Proof. intros n. unfold user_copyout. by rewrite check_len_eq. Qed.

Definition with_mr (i v : Z) (u : user) : user := {| u with mrs := <[i := u64 v]> u.(mrs) |}.
Lemma SetMR_bind {A} i v (k : unit -> M user A) u : (seL4_SetMR i v ≫= k) u = k tt (with_mr i v u).
Proof. apply modify_bind. Qed.
Lemma mr_with_mr i v u j : mr (with_mr i v u) j = if decide (i = j) then u64 v else mr u j.
Proof. unfold mr, with_mr. cbn [mrs]. rewrite lookup_insert. by destruct (decide (i = j)). Qed.

(** A message [number] with the path [l] and its size in register [reg]; of the
    rest of the memory only the window has changed. *)
Definition sent (number reg : Z) (l : list Z) (u u1 : user) : Prop :=
  mr u1 0 = number /\ mr u1 reg = Z.of_nat (length l) + 1 /\
  bytes_at u1.(umem) user_window (S (length l)) = l ++ [0] /\
  forall a, ~ (user_window <= a < user_window + BUF_BYTES) -> byte_at u1.(umem) a = byte_at u.(umem) a.

Section transfer.
Context {E : Type} `{!Env E, !Sched E} `{!Ipc} (dir_entries : nat).
Implicit Types s : sos E.

(** The window of process [pid] is the shared buffer of the program. *)
Definition shares (u : user) s (pid : Z) : Prop :=
  forall i, 0 <= i < BUF_BYTES -> byte_at s.(mem) (window s pid + i) = byte_at u.(umem) (user_window + i).
(** The kernel hands the server the message registers of the program. *)
Definition delivers (u : user) s : Prop := forall i, ext (Env:=_) Sos.GetMR [i] s.(env) = (mr u i, s.(env)).
(** [s'] is [s] after some calls that changed nothing. *)
Definition only_calls s s' : Prop := exists t, s' = {| s with trace := t |}.

Lemma shares_bytes u s pid n :
  shares u s pid -> Z.of_nat n <= BUF_BYTES ->
  bytes_at s.(mem) (window s pid) n = bytes_at u.(umem) user_window n.
Proof.
  intros Hs Hn. unfold bytes_at, zseq. rewrite <- !list_fmap_compose. apply list_fmap_ext.
  intros j i Hi. apply lookup_seq in Hi as [-> Hi]. apply Hs. lia.
Qed.

Lemma path_arg_run u s p x n :
  s.(pcb).(proc_heap) !! p = Some x -> buf_ok s -> 0 <= x.(p_pid) < 32 -> shares u s x.(p_pid) ->
  Z.of_nat n <= BUF_BYTES ->
  path_arg p (Z.of_nat n) s = Ok (bytes_at u.(umem) user_window n) s.
Proof.
  intros Hp Hb Hpid Hs Hn. unfold path_arg. rewrite (bind_run _ _ _ _ _ (proc_load_run s p x Hp)).
  unfold copyout_bytes. rewrite (bind_run _ _ _ _ _ (get_buf_run s x.(p_pid) Hb Hpid)).
  rewrite share_buf_check_len_eq, Z.min_l by done. unfold mem_read. rewrite get_bind, Nat2Z.id.
  by rewrite (shares_bytes u s).
Qed.

Lemma getmr_run u s i : delivers u s -> exists s', Syscalls.GetMR i s = Ok (mr u i) s' /\ only_calls s s'.
Proof.
  intros Hd. unfold Syscalls.GetMR, call. rewrite (Hd i). eexists. split; [done|]. by eexists.
Qed.

(** The path is what a handler that takes it from register [reg] gets. *)
Definition reaches (l : list Z) (reg : Z) (u : user) : Prop :=
  forall s p x, s.(pcb).(proc_heap) !! p = Some x -> buf_ok s -> 0 <= x.(p_pid) < 32 -> shares u s x.(p_pid) ->
    path_arg p (mr u reg) s = Ok (l ++ [0]) s.

Lemma sent_reaches number reg l u u1 : Z.of_nat (length l) < BUF_BYTES -> sent number reg l u u1 -> reaches l reg u1.
Proof.
  intros Hl (_ & Hreg & Hw & _) s p x Hp Hb Hpid Hs. rewrite Hreg.
  replace (Z.of_nat (length l) + 1) with (Z.of_nat (S (length l))) by lia.
  rewrite (path_arg_run u1 s p x) by (done || lia). by rewrite Hw.
Qed.

(** Registers set before a string is copied stay, and so does the string. *)
Lemma string_copied u path l :
  c_string u.(umem) path l -> Z.of_nat (length l) < BUF_BYTES ->
  exists m, user_copyin path (Z.of_nat (length l) + 1) u = Ok (Z.of_nat (length l) + 1) {| u with umem := m |} /\
    bytes_at m user_window (S (length l)) = l ++ [0] /\
    forall a, ~ (user_window <= a < user_window + BUF_BYTES) -> byte_at m a = byte_at u.(umem) a.
Proof.
  intros [Hs _] Hl. rewrite user_copyin_run, Z.min_l by lia.
  replace (Z.to_nat (Z.of_nat (length l) + 1)) with (S (length l)) by lia. rewrite Hs. eexists. split; [done|].
  assert (length (l ++ [0]) = S (length l)) as Hlen by (rewrite length_app; cbn; lia).
  split; [rewrite <- Hlen; apply bytes_at_stored|].
  intros a Ha. rewrite store_bytes_lookup, decide_False by lia. done.
Qed.

Lemma s32_u64 x : s32 (u64 x) = s32 x.
Proof.
  unfold s32, sgn, u64, wrap. rewrite <- Znumtheory.Zmod_div_mod; [done | lia | lia |].
  exists (2 ^ 32). reflexivity.
Qed.

Lemma open_sent u path l mode :
  c_string u.(umem) path l -> Z.of_nat (length l) < BUF_BYTES ->
  exists u1, sos_sys_open path mode u = (seL4_Call SOS_IPC_EP_CAP 3;; open_result) u1 /\
    sent SOS_SYS_OPEN 2 l u u1 /\ mr u1 1 = u64 mode.
Proof.
  intros Hs Hl. unfold sos_sys_open. rewrite !SetMR_bind.
  rewrite (bind_run _ _ _ _ _ (strlen_run (with_mr 1 mode (with_mr 0 SOS_SYS_OPEN u)) path l Hs)), SetMR_bind.
  set (u1 := with_mr 2 _ _).
  rewrite (bind_run _ _ _ _ _ (strlen_run u1 path l Hs)).
  destruct (string_copied u1 path l Hs Hl) as (m & Hrun & Hw & Hfr). rewrite (bind_run _ _ _ _ _ Hrun).
  eexists. split; [reflexivity|]. rewrite BUF_BYTES_eq in Hl.
  assert (mr u1 0 = SOS_SYS_OPEN /\ mr u1 2 = u64 (Z.of_nat (length l) + 1) /\ mr u1 1 = u64 mode) as (H0 & H2 & H1).
  { unfold u1. rewrite !mr_with_mr. done. }
  split; [split; [exact H0 | split; [|done]] | exact H1]. rewrite u64_small in H2 by lia. exact H2.
Qed.

(** [sos_stat] and [sos_process_create] send their path the same way. *)
Lemma path_sent {A} number u path l (k : M user A) :
  0 <= number < 2 ^ 64 -> c_string u.(umem) path l -> Z.of_nat (length l) < BUF_BYTES ->
  exists u1,
    (seL4_SetMR 0 number;; n ← strlen path; nbyte ← user_copyin path (n + 1); seL4_SetMR 1 nbyte;; k) u = k u1 /\
    sent number 1 l u u1.
Proof.
  intros Hn Hs Hl. rewrite SetMR_bind. set (u0 := with_mr 0 number u).
  rewrite (bind_run _ _ _ _ _ (strlen_run u0 path l Hs)).
  destruct (string_copied u0 path l Hs Hl) as (m & Hrun & Hw & Hfr). rewrite (bind_run _ _ _ _ _ Hrun), SetMR_bind.
  eexists. split; [reflexivity|]. rewrite BUF_BYTES_eq in Hl. split; [|split; [|done]].
  - rewrite mr_with_mr. cbn. change (mr u0 0 = number). unfold u0. rewrite mr_with_mr. cbn. by apply u64_small.
  - rewrite mr_with_mr. cbn. apply u64_small. lia.
Qed.

(** C33 A path arrives as it was given: the stubs of [open], [stat] and
    [process_create] put the string and its terminator into the shared buffer and
    change nothing else of the program's memory, the server's handlers copy
    exactly that string out of the window of the process, and [syscall_open]
    goes on with this path and this mode. *)
Theorem path_arrives u path l mode buf :
  c_string u.(umem) path l -> Z.of_nat (length l) < BUF_BYTES ->
  (exists u1, sos_sys_open path mode u = (seL4_Call SOS_IPC_EP_CAP 3;; open_result) u1 /\
     sent SOS_SYS_OPEN 2 l u u1 /\ reaches l 2 u1 /\
     forall s p x, s.(pcb).(proc_heap) !! p = Some x -> buf_ok s -> 0 <= x.(p_pid) < 32 ->
       shares u1 s x.(p_pid) -> delivers u1 s ->
       exists s', syscall_open dir_entries p s = open_path dir_entries p l (s32 mode) s' /\ only_calls s s') /\
  (exists u1, sos_stat path buf u = (seL4_Call SOS_IPC_EP_CAP 2;; stat_result buf) u1 /\
     sent SOS_SYS_STAT 1 l u u1 /\ reaches l 1 u1) /\
  (exists u1, sos_process_create path u = (seL4_Call SOS_IPC_EP_CAP 2;; word_result) u1 /\
     sent SOS_PROC_CREATE 1 l u u1 /\ reaches l 1 u1).
Proof.
  intros Hs Hl. split; [|split].
  - destruct (open_sent u path l mode Hs Hl) as (u1 & Hrun & Hsent & Hmode). exists u1.
    pose proof (sent_reaches _ _ _ _ _ Hl Hsent) as Hreach. split; [done|]. split; [done|]. split; [done|].
    intros s p x Hp Hb Hpid Hsh Hd. unfold syscall_open.
    destruct (getmr_run u1 s 1 Hd) as (s1 & H1 & t1 & ->). rewrite (bind_run _ _ _ _ _ H1). cbv zeta.
    destruct (getmr_run u1 {| s with trace := t1 |} 2 Hd) as (s2 & H2 & t2 & E2). rewrite (bind_run _ _ _ _ _ H2).
    assert (path_arg p (mr u1 2) s2 = Ok (l ++ [0]) s2) as H3 by (subst s2; by apply (Hreach _ p x)).
    rewrite (bind_run _ _ _ _ _ H3), cstr_app by apply Hs.
    rewrite Hmode, s32_u64. exists s2. split; [done|]. by exists t2.
  - destruct (path_sent SOS_SYS_STAT u path l (seL4_Call SOS_IPC_EP_CAP 2;; stat_result buf)) as (u1 & Hrun & Hsent); [done | exact Hs | done |].
    exists u1. split; [exact Hrun|]. split; [done|]. by eapply sent_reaches.
  - destruct (path_sent SOS_PROC_CREATE u path l (seL4_Call SOS_IPC_EP_CAP 2;; word_result)) as (u1 & Hrun & Hsent); [done | exact Hs | done |].
    exists u1. split; [exact Hrun|]. split; [done|]. by eapply sent_reaches.
Qed.

(** The message [sos_sys_read] sends. *)
Definition read_message (file nbyte : Z) (u : user) : user :=
  with_mr 2 nbyte (with_mr 1 file (with_mr 0 SOS_SYS_READ u)).

(** What the stub does with the reply: as many bytes as it announces, at most a
    window, go to the buffer.  The size of the buffer plays no part. *)
Lemma read_reply file buf nbyte u u2 :
  seL4_Call SOS_IPC_EP_CAP 3 (read_message file nbyte u) = Ok tt u2 ->
  let n := Z.to_nat (Z.min (mr u2 0) BUF_BYTES) in
  exists u3, sos_sys_read file buf nbyte u = Ok (s32 (mr u2 0)) u3 /\
    bytes_at u3.(umem) buf n = bytes_at u2.(umem) user_window n /\
    forall a, ~ (buf <= a < buf + Z.of_nat n) -> byte_at u3.(umem) a = byte_at u2.(umem) a.
Proof.
  intros Hcall n. unfold sos_sys_read. rewrite !SetMR_bind. fold (read_message file nbyte u).
  rewrite (bind_run _ _ _ _ _ Hcall). unfold read_result, seL4_GetMR. rewrite (bind_run _ _ u2 (mr u2 0) u2) by done.
  rewrite (bind_run _ _ _ _ _ (user_copyout_run u2 buf (mr u2 0))). fold n.
  set (l := bytes_at u2.(umem) user_window n). assert (length l = n) as Hlen by apply bytes_at_length.
  eexists. split; [done|]. cbn [umem]. split.
  - rewrite <- Hlen at 1. apply bytes_at_stored.
  - intros a Ha. rewrite store_bytes_lookup, decide_False by lia. done.
Qed.

(** Data read from a file reaches the caller's buffer: the [n] bytes the server
    copied into the window of the process before it answered [n] are in the
    buffer when [sos_sys_read] returns [n], and no other byte of the memory
    changes after the call. *)
Theorem read_delivers file buf nbyte u u2 (s s1 : sos E) pid src n :
  seL4_Call SOS_IPC_EP_CAP 3 (read_message file nbyte u) = Ok tt u2 ->
  buf_ok s -> 0 <= pid < 32 -> 0 <= n <= BUF_BYTES ->
  sos_copyin pid src n s = Ok n s1 -> shares u2 s1 pid -> mr u2 0 = n ->
  exists u3, sos_sys_read file buf nbyte u = Ok n u3 /\
    bytes_at u3.(umem) buf (Z.to_nat n) = bytes_at s.(mem) src (Z.to_nat n) /\
    forall a, ~ (buf <= a < buf + n) -> byte_at u3.(umem) a = byte_at u2.(umem) a.
Proof.
  intros Hcall Hb Hpid Hn Hin Hsh Hmr. destruct (read_reply file buf nbyte u u2 Hcall) as (u3 & Hrun & Hbuf & Hfr).
  rewrite Hmr, Z.min_l in * by lia. rewrite s32_small in Hrun by (rewrite BUF_BYTES_eq in Hn; lia).
  exists u3. split; [done|]. split; [|intros a Ha; apply Hfr; lia].
  rewrite Hbuf, <- (shares_bytes u2 s1 pid) by (done || lia). by eapply copyin_window.
Qed.

(** An error of a read overruns the buffer: when the server answers [-1],
    [sos_sys_read] returns [-1], but it has copied the whole window over the
    megabyte of memory behind the buffer, whatever size the caller passed. *)
Theorem read_error_overruns file buf nbyte u u2 :
  seL4_Call SOS_IPC_EP_CAP 3 (read_message file nbyte u) = Ok tt u2 -> mr u2 0 = u64 (-1) ->
  exists u3, sos_sys_read file buf nbyte u = Ok (-1) u3 /\
    bytes_at u3.(umem) buf (Z.to_nat BUF_BYTES) = bytes_at u2.(umem) user_window (Z.to_nat BUF_BYTES).
Proof.
  intros Hcall Hmr. destruct (read_reply file buf nbyte u u2 Hcall) as (u3 & Hrun & Hbuf & _).
  rewrite Hmr in Hrun, Hbuf. exists u3. split; [exact Hrun | exact Hbuf].
Qed.
End transfer.

(** ** On the concrete machine

    The environment of the server is the program that calls it: message registers
    are the program's, every other call returns zero. *)

#[local] Instance user_env : Env user := fun op args u =>
  match op, args with Sos.GetMR, [i] => (mr u i, u) | _, _ => (0, u) end.
#[local] Instance user_sched : Sched user := {| others := mret 0; switch_to _ _ := mret 0 |}.

(** A program with the string at 5000, and the server that shares process 1's
    window with it. *)
Definition sample_user : user := mk_user {[5000 := 99]} ∅ syscall_table_start None.
Definition sharing (m : gmap Z Z) (a : Z) (n : nat) (u : user) : gmap Z Z :=
  store_bytes m a (bytes_at u.(umem) user_window n).
Definition serving (n : nat) (u : user) : sos user :=
  let s := peopled RUNNING in
  mk_sos user u [] s.(ut) s.(cspaces) s.(nodes) s.(boot) s.(device_virt) s.(ft) s.(words)
    (sharing s.(mem) (window s 1) n u)
    s.(clk) s.(vm) s.(pcb) s.(fs) s.(con) s.(more) s.(dma).

Lemma serving_shares n u : BUF_BYTES <= Z.of_nat n -> shares u (serving n u) 1.
Proof.
  intros Hn i Hi. unfold serving, sharing. cbn [mem].
  change (window _ 1) with (window (peopled RUNNING) 1). rewrite store_bytes_lookup, bytes_at_length.
  rewrite decide_True by lia. unfold bytes_at, zseq. rewrite !list_lookup_fmap, lookup_seq_lt by lia. cbn.
  f_equal. lia.
Qed.

Lemma exists_nat_above (z : Z) : exists n, z <= Z.of_nat n.
Proof. exists (Z.to_nat z). lia. Qed.

Lemma path_arrives_witness : exists u1 s s',
  sos_sys_open (H := fun _ _ => mret tt) 5000 2 sample_user = open_result u1 /\
  syscall_open 0 9000 s = open_path 0 9000 [99] 2 s' /\ shares u1 s 1.
Proof.
  assert (c_string (umem sample_user) 5000 [99]) as Hs.
  { split; [reflexivity|]. intros H%list_elem_of_singleton. discriminate H. }
  destruct (path_arrives (H := fun _ _ => mret tt) 0 sample_user 5000 [99] 2 0 Hs eq_refl)
    as [(u1 & Hrun & _ & _ & Hserver) _].
  destruct (exists_nat_above BUF_BYTES) as [n Hn].
  destruct (Hserver (serving n u1) 9000 (sample_proc RUNNING)) as (s' & Hopen & _).
  - reflexivity.
  - split; reflexivity.
  - split; [discriminate | reflexivity].
  - by apply serving_shares.
  - intros i. reflexivity.
  - exists u1, (serving n u1), s'. split; [exact Hrun|]. split; [exact Hopen|]. by apply serving_shares.
Defined.

(** A kernel that answers with [n] and puts [l] into the window. *)
Definition answering (n : Z) (l : list Z) : Ipc := fun _ _ =>
  modify (fun u => {| u with umem := store_bytes u.(umem) user_window l; mrs := <[0 := n]> u.(mrs) |}).

Lemma read_error_overruns_witness : exists u3,
  sos_sys_read (H := answering (2 ^ 64 - 1) [1; 2]) 0 5000 4 sample_user = Ok (-1) u3.
Proof.
  destruct (read_error_overruns (H := answering (2 ^ 64 - 1) [1; 2]) 0 5000 4 sample_user _ eq_refl eq_refl)
    as (u3 & Hrun & _).
  exists u3. exact Hrun.
Defined.

(** Two windows that were empty and then got the same bytes. *)
Lemma shares_stored (u : user) (s : sos toy) (m m' : gmap Z Z) l :
  u.(umem) = store_bytes m user_window l -> s.(mem) = store_bytes m' (window s 1) l ->
  (forall a, user_window <= a -> byte_at m a = 0) -> (forall a, window s 1 <= a -> byte_at m' a = 0) -> shares u s 1.
Proof.
  intros Hu Hs Hm Hm' i Hi. rewrite Hu, Hs, !store_bytes_lookup.
  destruct (decide (i < Z.of_nat (length l))) as [Hin|Hout].
  - rewrite !decide_True by lia. do 2 f_equal. lia.
  - rewrite !decide_False by lia. rewrite Hm, Hm' by lia. done.
Qed.

Lemma byte_at_singleton_above k b c : k < c -> forall a, c <= a -> byte_at {[k := b]} a = 0.
Proof. intros Hk a Ha. unfold byte_at. rewrite lookup_singleton_ne by lia. done. Qed.

Definition source_state : sos toy := let s := spaced in {| s with mem := {[4096 := 7]} |}.

Definition answered : user :=
  let u := read_message 0 4 sample_user in
  {| u with umem := store_bytes u.(umem) user_window [7]; mrs := <[0 := 1]> u.(mrs) |}.

Lemma read_delivers_witness : exists u3,
  sos_sys_read (H := answering 1 [7]) 0 6000 4 sample_user = Ok 1 u3 /\ bytes_at u3.(umem) 6000 1 = [7].
Proof.
  destruct (read_delivers (H := answering 1 [7]) 0 6000 4 sample_user answered source_state
    {| source_state with mem := store_bytes {[4096 := 7]} (window source_state 1) [7] |} 1 4096 1)
    as (u3 & Hrun & Hbuf & _).
  - reflexivity.
  - split; reflexivity.
  - split; [discriminate | reflexivity].
  - split; discriminate.
  - reflexivity.
  - apply (shares_stored answered _ {[5000 := 99]} {[4096 := 7]} [7]);
      [reflexivity | reflexivity | by apply byte_at_singleton_above | by apply byte_at_singleton_above].
  - reflexivity.
  - exists u3. split; [exact Hrun | exact Hbuf].
Defined.
