(* ===== verification/Zdr.v ===== *)
(** * The external data representation of libnfs

    [libnfs/lib/libnfs-zdr.c], with [htonl] of the C library: the buffer an RPC
    message is written to and read from, one function per type that does both,
    RPC messages and credentials.  The chain of blocks [zdr_malloc] threads
    through the blocks themselves is the list [zmem].  An object behind a pointer
    is the value of that type; a [char *] is an address.  Signed additions that
    could overflow wrap. *)
From S2P Require Import Prelude Bytes.

(** ** Byte order *)

Definition bswap_32 (x : Z) : Z :=
  Z.lor (Z.lor (Z.lor (Z.shiftr x 24) (Z.land (Z.shiftr x 8) 0xff00))
               (Z.land (u32 (Z.shiftl x 8)) 0xff0000)) (u32 (Z.shiftl x 24)).
Definition htonl (n : Z) : Z := bswap_32 n.
Definition ntohl (n : Z) : Z := bswap_32 n.

(** ** The heap *)

(** [malloc] answers from the blocks in use and the size; 0 is NULL. *)
Class Allocator : Type := malloc_at : list (Z * Z) -> Z -> Z.

Record heap := mk_heap {
  bytes : gmap Z Z;
  blocks : list (Z * Z);   (* address and size of the blocks in use *)
  error_string : string;   (* of the [rpc_context] *)
}.

Section heap.
Context `{Allocator}.

Definition hmalloc (size : Z) : M heap Z :=
  h ← get;
  let p := malloc_at h.(blocks) size in
  if p =? 0 then mret 0
  else put {| h with blocks := (p, size) :: h.(blocks) |};; mret p.
(** The result is used without a test. *)
Definition hmalloc_used (size : Z) : M heap Z := p ← hmalloc size; access (negb (p =? 0));; mret p.
Definition hfree (p : Z) : M heap unit :=
  if p =? 0 then mret tt
  else h ← get;
    access (bool_decide (p ∈ h.(blocks).*1));;
    put {| h with blocks := filter (fun b => b.1 <> p) h.(blocks) |}.
Definition hread (a n : Z) : M heap (list Z) := h ← get; mret (bytes_at h.(bytes) a (Z.to_nat n)).
Definition hwrite (a : Z) (l : list Z) : M heap unit :=
  modify (fun h => {| h with bytes := store_bytes h.(bytes) a l |}).
Definition hstrlen (a : Z) : M heap Z := h ← get; mret (strlen_in h.(bytes) (S (size h.(bytes))) a).
Definition rpc_set_error (msg : string) : M heap unit := modify (fun h => {| h with error_string := msg |}).
Definition rpc_get_error : M heap string := gets error_string.
End heap.

(** ** The buffer *)

Inductive zdr_op := ZDR_ENCODE | ZDR_DECODE.

Record ZDR := mk_zdr {
  x_op : zdr_op;
  zbuf : Z;
  zsize : Z;
  zpos : Z;
  zmem : list Z;
}.

Record zst := mk_zst { zdrs : ZDR; hp : heap }.
Abbreviation Zdr := (M zst).

Definition on_heap {A} (c : M heap A) : Zdr A := zoom hp (fun h s => {| s with hp := h |}) c.
Definition zdr_modify (f : ZDR -> ZDR) : Zdr unit := modify (fun s => {| s with zdrs := f s.(zdrs) |}).
Definition set_pos (p : Z) : Zdr unit := zdr_modify (fun z => {| z with zpos := p |}).

Definition libnfs_zdr_setpos (pos : Z) : Zdr bool := set_pos (s32 pos);; mret true.
Definition libnfs_zdr_getpos : Zdr Z := z ← gets zdrs; mret (u32 z.(zpos)).
Definition libnfs_zdrmem_create (addr size : Z) (xop : zdr_op) : Zdr unit :=
  zdr_modify (fun _ => mk_zdr xop addr (s32 size) 0 []).

Section zdr.
Context `{Allocator}.

(** [offsetof(struct zdr_mem, buf)] *)
Definition ZDR_MEM_BUF : Z := 12.

Definition zdr_malloc (size : Z) : Zdr Z :=
  let mem_size := s32 (ZDR_MEM_BUF + size) in
  mem ← on_heap (hmalloc_used (u64 mem_size));
  access (ZDR_MEM_BUF <=? u64 mem_size);;
  zdr_modify (fun z => {| z with zmem := mem :: z.(zmem) |});;
  mret (mem + ZDR_MEM_BUF).

Definition libnfs_zdr_destroy : Zdr unit :=
  z ← gets zdrs;
  for_each z.(zmem) (fun mem => on_heap (hfree mem));;
  zdr_modify (fun z => {| z with zmem := [] |}).

(** ** Numbers *)

Definition libnfs_zdr_u_int (u : Z) : Zdr (bool * Z) :=
  z ← gets zdrs;
  if z.(zsize) <? s32 (z.(zpos) + 4) then mret (false, u)
  else match z.(x_op) with
  | ZDR_ENCODE =>
      on_heap (hwrite (z.(zbuf) + z.(zpos)) (le_bytes 4 (htonl u)));;
      set_pos (s32 (z.(zpos) + 4));;
      mret (true, u)
  | ZDR_DECODE =>
      l ← on_heap (hread (z.(zbuf) + z.(zpos)) 4);
      set_pos (s32 (z.(zpos) + 4));;
      mret (true, ntohl (le_value l))
  end.

Definition libnfs_zdr_int (i : Z) : Zdr (bool * Z) :=
  r ← libnfs_zdr_u_int (u32 i); mret (r.1, s32 r.2).

Definition libnfs_zdr_uint64_t (u : Z) : Zdr (bool * Z) :=
  z ← gets zdrs;
  if z.(zsize) <? s32 (z.(zpos) + 8) then mret (false, u)
  else match z.(x_op) with
  | ZDR_ENCODE =>
      on_heap (hwrite (z.(zbuf) + z.(zpos)) (le_bytes 4 (htonl (u32 (Z.shiftr u 32)))));;
      let pos := s32 (z.(zpos) + 4) in
      set_pos pos;;
      on_heap (hwrite (z.(zbuf) + pos) (le_bytes 4 (htonl (Z.land u 0xffffffff))));;
      set_pos (s32 (pos + 4));;
      mret (true, u)
  | ZDR_DECODE =>
      l ← on_heap (hread (z.(zbuf) + z.(zpos)) 4);
      let u := ntohl (le_value l) in
      let pos := s32 (z.(zpos) + 4) in
      set_pos pos;;
      let u := u64 (Z.shiftl u 32) in
      l ← on_heap (hread (z.(zbuf) + pos) 4);
      let u := Z.lor u (ntohl (le_value l)) in
      set_pos (s32 (pos + 4));;
      mret (true, u)
  end.

Definition libnfs_zdr_int64_t (i : Z) : Zdr (bool * Z) :=
  r ← libnfs_zdr_uint64_t (u64 i); mret (r.1, s64 r.2).

Definition libnfs_zdr_enum (e : Z) : Zdr (bool * Z) :=
  let i := s32 e in
  r ← libnfs_zdr_u_int (u32 i);
  let i := s32 r.2 in
  mret (r.1, u32 i).

Definition libnfs_zdr_bool (b : Z) : Zdr (bool * Z) := libnfs_zdr_u_int b.
Definition libnfs_zdr_void {A} (v : A) : Zdr (bool * A) := mret (true, v).

(** ** Bytes and strings *)

Definition libnfs_zdr_bytes (bufp size maxsize : Z) : Zdr (bool * (Z * Z)) :=
  r ← libnfs_zdr_u_int size;
  let size := r.2 in
  if negb r.1 then mret (false, (bufp, size)) else
  z ← gets zdrs;
  if z.(zsize) <? s32 (z.(zpos) + s32 size) then mret (false, (bufp, size)) else
  match z.(x_op) with
  | ZDR_ENCODE =>
      l ← on_heap (hread bufp size);
      on_heap (hwrite (z.(zbuf) + z.(zpos)) l);;
      let pos := s32 (z.(zpos) + size) in
      let pad := Z.land (4 - Z.land pos 3) 3 in
      set_pos pos;;
      when (nz pad)
        (on_heap (hwrite (z.(zbuf) + pos) (replicate (Z.to_nat pad) 0));; set_pos (s32 (pos + pad)));;
      mret (true, (bufp, size))
  | ZDR_DECODE =>
      bufp ← (if negb (bufp =? 0) then
                l ← on_heap (hread (z.(zbuf) + z.(zpos)) size); on_heap (hwrite bufp l);; mret bufp
              else mret (z.(zbuf) + z.(zpos)));
      let pos := s32 (z.(zpos) + size) in
      set_pos (Z.land (s32 (pos + 3)) (-4));;
      mret (true, (bufp, size))
  end.

Definition libnfs_zdr_opaque (objp size : Z) : Zdr bool :=
  z ← gets zdrs;
  match z.(x_op) with
  | ZDR_ENCODE =>
      l ← on_heap (hread objp size);
      on_heap (hwrite (z.(zbuf) + z.(zpos)) l);;
      let pos := s32 (z.(zpos) + size) in
      when (nz (Z.land pos 3))
        (on_heap (hwrite (z.(zbuf) + pos) (replicate (Z.to_nat (4 - Z.land pos 3)) 0)));;
      set_pos (Z.land (s32 (pos + 3)) (-4));;
      mret true
  | ZDR_DECODE =>
      l ← on_heap (hread (z.(zbuf) + z.(zpos)) size);
      on_heap (hwrite objp l);;
      let pos := s32 (z.(zpos) + size) in
      set_pos (Z.land (s32 (pos + 3)) (-4));;
      mret true
  end.

Definition libnfs_zdr_string (strp maxsize : Z) : Zdr (bool * Z) :=
  z ← gets zdrs;
  size ← match z.(x_op) with
         | ZDR_ENCODE => n ← on_heap (hstrlen strp); mret (u32 n)
         | ZDR_DECODE => mret 0   (* not set yet *)
         end;
  r ← libnfs_zdr_u_int size;
  let size := r.2 in
  if negb r.1 then mret (false, strp) else
  z ← gets zdrs;
  if z.(zsize) <? s32 (z.(zpos) + s32 size) then mret (false, strp) else
  match z.(x_op) with
  | ZDR_ENCODE => b ← libnfs_zdr_opaque strp size; mret (b, strp)
  | ZDR_DECODE =>
      l ← on_heap (hread (z.(zbuf) + u32 (z.(zpos) + size)) 1);
      if (s32 (z.(zpos) + s32 size) <? z.(zsize)) && (le_value l =? 0) then
        if strp =? 0 then
          let strp := z.(zbuf) + z.(zpos) in
          on_heap (hwrite (strp + size) [0]);;
          let pos := s32 (z.(zpos) + size) in
          set_pos (Z.land (s32 (pos + 3)) (-4));;
          mret (true, strp)
        else
          on_heap (hwrite (strp + size) [0]);;
          b ← libnfs_zdr_opaque strp size; mret (b, strp)
      else
        strp ← zdr_malloc (u32 (size + 1));
        if strp =? 0 then mret (false, strp) else
        on_heap (hwrite (strp + size) [0]);;
        b ← libnfs_zdr_opaque strp size; mret (b, strp)
  end.

(** ** Pointers and arrays *)

(** An object behind a pointer is absent or there; [zero] is the object of zero
    bytes that [memset] makes. *)
Definition libnfs_zdr_pointer {A} (zero : A) (size : Z) (proc : A -> Zdr (bool * A)) (objp : option A) :
    Zdr (bool * option A) :=
  let more_data := zb (bool_decide (is_Some objp)) in
  r ← libnfs_zdr_bool more_data;
  if negb r.1 then mret (false, objp) else
  if r.2 =? 0 then mret (true, None) else
  z ← gets zdrs;
  match z.(x_op) with
  | ZDR_DECODE =>
      p ← zdr_malloc size;
      if p =? 0 then mret (false, None) else
      r ← proc zero; mret (r.1, Some r.2)
  | ZDR_ENCODE =>
      a ← deref objp;
      r ← proc a; mret (r.1, Some r.2)
  end.

(** [char **arrp, uint32_t *size]: the number, the address and the elements. *)
Record zarray (A : Type) := mk_zarray { arr_size : Z; arr_ptr : Z; arr_items : list A }.
#[global] Arguments mk_zarray {A}.
#[global] Arguments arr_size {A}.
#[global] Arguments arr_ptr {A}.
#[global] Arguments arr_items {A}.

(** The loop over the elements; [room i]: element [i] is inside the block. *)
Fixpoint zdr_items {A} (proc : A -> Zdr (bool * A)) (room : Z -> bool) (n : nat) (i : Z) (l : list A) :
    Zdr (bool * list A) :=
  match n with
  | O => mret (true, l)
  | S n' =>
      match l with
      | [] => stuck Segv
      | a :: l' =>
          access (room i);;
          r ← proc a;
          if negb r.1 then mret (false, r.2 :: l')
          else t ← zdr_items proc room n' (i + 1) l'; mret (t.1, r.2 :: t.2)
      end
  end.

Definition libnfs_zdr_array {A} (zero : A) (elsize : Z) (proc : A -> Zdr (bool * A)) (maxsize : Z) (a : zarray A) :
    Zdr (bool * zarray A) :=
  r ← libnfs_zdr_u_int a.(arr_size);
  let size := r.2 in
  if negb r.1 then mret (false, mk_zarray size a.(arr_ptr) a.(arr_items)) else
  z ← gets zdrs;
  match z.(x_op) with
  | ZDR_DECODE =>
      let total := u32 (size * elsize) in
      p ← zdr_malloc total;
      if p =? 0 then mret (false, mk_zarray size p []) else
      t ← zdr_items proc (fun i => u32 (i * elsize) + elsize <=? total)
            (Z.to_nat (s32 size)) 0 (replicate (Z.to_nat (s32 size)) zero);
      mret (t.1, mk_zarray size p t.2)
  | ZDR_ENCODE =>
      t ← zdr_items proc (fun _ => true) (Z.to_nat (s32 size)) 0 a.(arr_items);
      mret (t.1, mk_zarray size a.(arr_ptr) t.2)
  end.

(** ** RPC messages *)

(** [if (!proc(zdrs, &x)) { rpc_set_error(rpc, msg); return FALSE; }] *)
Definition or_error (msg : string) {A} (c : Zdr (bool * A)) : Zdr (bool * A) :=
  r ← c;
  when (negb r.1) (on_heap (rpc_set_error msg));;
  mret r.

Record opaque_auth := mk_auth { oa_flavor : Z; oa_base : Z; oa_length : Z }.
Definition null_auth : opaque_auth := mk_auth 0 0 0.
#[global] Instance opaque_auth_eq_dec : EqDecision opaque_auth.
Proof. solve_decision. Defined.

Definition libnfs_opaque_auth (auth : opaque_auth) : Zdr (bool * opaque_auth) :=
  r ← libnfs_zdr_u_int auth.(oa_flavor);
  let auth := {| auth with oa_flavor := r.2 |} in
  if negb r.1 then mret (false, auth) else
  r ← libnfs_zdr_bytes auth.(oa_base) auth.(oa_length) auth.(oa_length);
  mret (r.1, {| auth with oa_base := r.2.1; oa_length := r.2.2 |}).

Record call_body := mk_call {
  rpcvers : Z; cb_prog : Z; cb_vers : Z; cb_proc : Z; cred : opaque_auth; verf : opaque_auth }.
#[global] Instance call_body_eq_dec : EqDecision call_body.
Proof. solve_decision. Defined.

Definition libnfs_rpc_call_body (cmb : call_body) : Zdr (bool * call_body) :=
  r ← or_error "libnfs_rpc_call_body failed to encode RPCVERS" (libnfs_zdr_u_int cmb.(rpcvers));
  let cmb := {| cmb with rpcvers := r.2 |} in
  if negb r.1 then mret (false, cmb) else
  r ← or_error "libnfs_rpc_call_body failed to encode PROG" (libnfs_zdr_u_int cmb.(cb_prog));
  let cmb := {| cmb with cb_prog := r.2 |} in
  if negb r.1 then mret (false, cmb) else
  r ← or_error "libnfs_rpc_call_body failed to encode VERS" (libnfs_zdr_u_int cmb.(cb_vers));
  let cmb := {| cmb with cb_vers := r.2 |} in
  if negb r.1 then mret (false, cmb) else
  r ← or_error "libnfs_rpc_call_body failed to encode PROC" (libnfs_zdr_u_int cmb.(cb_proc));
  let cmb := {| cmb with cb_proc := r.2 |} in
  if negb r.1 then mret (false, cmb) else
  r ← or_error "libnfs_rpc_call_body failed to encode CRED" (libnfs_opaque_auth cmb.(cred));
  let cmb := {| cmb with cred := r.2 |} in
  if negb r.1 then mret (false, cmb) else
  r ← or_error "libnfs_rpc_call_body failed to encode VERF" (libnfs_opaque_auth cmb.(verf));
  mret (r.1, {| cmb with verf := r.2 |}).

(** [enum accept_stat], [enum reject_stat], [enum reply_stat], [enum msg_type] *)
Definition SUCCESS : Z := 0.
Definition PROG_UNAVAIL : Z := 1.
Definition PROG_MISMATCH : Z := 2.
Definition PROC_UNAVAIL : Z := 3.
Definition GARBAGE_ARGS : Z := 4.
Definition SYSTEM_ERR : Z := 5.
Definition RPC_MISMATCH : Z := 0.
Definition AUTH_ERROR : Z := 1.
Definition MSG_ACCEPTED : Z := 0.
Definition MSG_DENIED : Z := 1.
Definition CALL : Z := 0.
Definition REPLY : Z := 1.

Section reply.
Context {R : Type}.

(** [results]: the function, its address and the object it is for; in a message
    of zero bytes the function is NULL. *)
Inductive reply_data :=
| Results (addr : Z) (proc : R -> Zdr (bool * R)) (where_ : R)
| Mismatch_info (low high : Z)
| Zero_data.

Record accepted_reply := mk_accepted { ar_verf : opaque_auth; ar_stat : Z; ar_data : reply_data }.
(** [reject_data.stat] is the word [reject_data.mismatch_info.low]. *)
Record rejected_reply := mk_rejected { rr_stat : Z; rr_low : Z; rr_high : Z }.
Inductive reply_union := Areply (a : accepted_reply) | Rreply (r : rejected_reply).
Record reply_body := mk_reply { rb_stat : Z; rb_reply : reply_union }.
Inductive msg_union := Cbody (c : call_body) | Rbody (r : reply_body).
Record rpc_msg := mk_msg { m_xid : Z; m_direction : Z; m_body : msg_union }.

Definition blank_call : call_body := mk_call 0 0 0 0 null_auth null_auth.
Definition blank_reply : reply_body := mk_reply 0 (Areply (mk_accepted null_auth 0 Zero_data)).

(** The unions hold one member.  To encode another one is undefined.  To decode
    into another one is to find in it what the bytes of the first one make of
    it, which matters for the pointers of a call: [cred.oa_base] is where
    [verf.oa_length] of a reply is, [verf.oa_base] where [results.proc] is. *)
Definition decoding_only {A} (a : A) : Zdr A :=
  z ← gets zdrs; match z.(x_op) with ZDR_DECODE => mret a | ZDR_ENCODE => stuck Segv end.
Definition call_member (b : msg_union) : Zdr call_body :=
  match b with
  | Cbody c => mret c
  | Rbody (mk_reply _ (Areply (mk_accepted v _ (Results addr _ _)))) =>
      decoding_only (mk_call 0 0 0 0 (mk_auth 0 v.(oa_length) 0) (mk_auth 0 addr 0))
  | Rbody _ => stuck Segv
  end.
Definition reply_member (b : msg_union) : Zdr reply_body :=
  match b with
  | Rbody r => mret r
  | Cbody c => access (bool_decide (c = blank_call));; decoding_only blank_reply
  end.
Definition rejected_member (u : reply_union) : Zdr rejected_reply :=
  match u with
  | Rreply r => mret r
  | Areply a => access (bool_decide (a.(ar_verf) = null_auth));; decoding_only (mk_rejected 0 0 0)
  end.
Definition mismatch_member (d : reply_data) : Zdr (Z * Z) :=
  match d with Mismatch_info l h => mret (l, h) | _ => decoding_only (0, 0) end.

Definition libnfs_accepted_reply (ar : accepted_reply) : Zdr (bool * accepted_reply) :=
  r ← libnfs_opaque_auth ar.(ar_verf);
  let ar := {| ar with ar_verf := r.2 |} in
  if negb r.1 then mret (false, ar) else
  r ← libnfs_zdr_u_int ar.(ar_stat);
  let ar := {| ar with ar_stat := r.2 |} in
  if negb r.1 then mret (false, ar) else
  if ar.(ar_stat) =? SUCCESS then
    match ar.(ar_data) with
    | Results addr proc where_ =>
        r ← proc where_;
        mret (r.1, {| ar with ar_data := Results addr proc r.2 |})
    | _ => stuck Segv
    end
  else if ar.(ar_stat) =? PROG_MISMATCH then
    lh ← mismatch_member ar.(ar_data);
    r ← libnfs_zdr_u_int lh.1;
    let ar := {| ar with ar_data := Mismatch_info r.2 lh.2 |} in
    if negb r.1 then mret (false, ar) else
    r' ← libnfs_zdr_u_int lh.2;
    mret (r'.1, {| ar with ar_data := Mismatch_info r.2 r'.2 |})
  else mret (true, ar).

Definition libnfs_rejected_reply (rr : rejected_reply) : Zdr (bool * rejected_reply) :=
  r ← libnfs_zdr_u_int rr.(rr_stat);
  let rr := {| rr with rr_stat := r.2 |} in
  if negb r.1 then mret (false, rr) else
  if rr.(rr_stat) =? RPC_MISMATCH then
    r ← libnfs_zdr_u_int rr.(rr_low);
    let rr := {| rr with rr_low := r.2 |} in
    if negb r.1 then mret (false, rr) else
    r ← libnfs_zdr_u_int rr.(rr_high);
    mret (r.1, {| rr with rr_high := r.2 |})
  else if rr.(rr_stat) =? AUTH_ERROR then
    r ← libnfs_zdr_u_int rr.(rr_low);
    mret (r.1, {| rr with rr_low := r.2 |})
  else mret (true, rr).

Definition libnfs_rpc_reply_body (rmb : reply_body) : Zdr (bool * reply_body) :=
  r ← or_error "libnfs_rpc_reply_body failed to decode STAT" (libnfs_zdr_u_int rmb.(rb_stat));
  let rmb := {| rmb with rb_stat := r.2 |} in
  if negb r.1 then mret (false, rmb) else
  if rmb.(rb_stat) =? MSG_ACCEPTED then
    ar ← deref (match rmb.(rb_reply) with Areply a => Some a | Rreply _ => None end);
    r ← or_error "libnfs_rpc_reply_body failed to decode ACCEPTED" (libnfs_accepted_reply ar);
    mret (r.1, {| rmb with rb_reply := Areply r.2 |})
  else if rmb.(rb_stat) =? MSG_DENIED then
    rr ← rejected_member rmb.(rb_reply);
    r ← or_error "libnfs_rpc_reply_body failed to decode DENIED" (libnfs_rejected_reply rr);
    mret (r.1, {| rmb with rb_reply := Rreply r.2 |})
  else
    on_heap (rpc_set_error "libnfs_rpc_reply_body failed to decode. Neither ACCEPTED nor DENIED");;
    mret (false, rmb).

(** [rpc_set_error(rpc, msg ", ret=%d: %s", ret, rpc_get_error(rpc))] *)
Definition or_wrapped (msg : string) {A} (c : Zdr (bool * A)) : Zdr (bool * A) :=
  r ← c;
  when (negb r.1) (e ← on_heap rpc_get_error; on_heap (rpc_set_error (msg +:+ ", ret=0: " +:+ e)));;
  mret r.

Definition libnfs_rpc_msg (msg : rpc_msg) : Zdr (bool * rpc_msg) :=
  r ← or_error "libnfs_rpc_msg failed to decode XID" (libnfs_zdr_u_int msg.(m_xid));
  let msg := {| msg with m_xid := r.2 |} in
  if negb r.1 then mret (false, msg) else
  r ← or_error "libnfs_rpc_msg failed to decode DIRECTION" (libnfs_zdr_u_int msg.(m_direction));
  let msg := {| msg with m_direction := r.2 |} in
  if negb r.1 then mret (false, msg) else
  if msg.(m_direction) =? CALL then
    cb ← call_member msg.(m_body);
    r ← or_wrapped "libnfs_rpc_msg failed to encode CALL" (libnfs_rpc_call_body cb);
    mret (r.1, {| msg with m_body := Cbody r.2 |})
  else if msg.(m_direction) =? REPLY then
    rb ← reply_member msg.(m_body);
    r ← or_wrapped "libnfs_rpc_msg failed to decode REPLY" (libnfs_rpc_reply_body rb);
    mret (r.1, {| msg with m_body := Rbody r.2 |})
  else
    on_heap (rpc_set_error "libnfs_rpc_msg failed to decode. Neither CALL not REPLY");;
    mret (false, msg).

Definition libnfs_zdr_callmsg (msg : rpc_msg) : Zdr (bool * rpc_msg) := libnfs_rpc_msg msg.
Definition libnfs_zdr_replymsg (msg : rpc_msg) : Zdr (bool * rpc_msg) := libnfs_rpc_msg msg.
End reply.

(** ** Credentials *)

Definition AUTH_NONE : Z := 0.
Definition AUTH_UNIX : Z := 1.
Definition SIZEOF_AUTH : Z := 56.

Record AUTH := mk_AUTH { ah_cred : opaque_auth; ah_verf : opaque_auth; ah_private : Z }.

(** The address of the structure and its contents. *)
Definition authnone_create : M heap (Z * AUTH) :=
  auth ← hmalloc_used SIZEOF_AUTH;
  mret (auth, mk_AUTH (mk_auth AUTH_NONE 0 0) (mk_auth AUTH_NONE 0 0) 0).

(** [buf[idx] = htonl(x)] *)
Definition put_word (buf idx x : Z) : M heap unit := hwrite (buf + 4 * idx) (le_bytes 4 (htonl (u32 x))).

(** [while (len-- > 0) buf[idx++] = htonl of the next group] *)
Fixpoint put_groups (buf idx : Z) (n : nat) (groups : list Z) : M heap unit :=
  match n with
  | O => mret tt
  | S n' =>
      match groups with
      | [] => stuck Segv
      | g :: groups' => put_word buf idx g;; put_groups buf (idx + 1) n' groups'
      end
  end.

(** [now] is [(uint32_t)rpc_current_time()]. *)
Definition libnfs_authunix_create (now host uid gid len : Z) (groups : list Z) : M heap (Z * AUTH) :=
  n ← hstrlen host;
  let size := s32 (4 + 4 + Z.land (n + 3) (-4) + 4 + 4 + 4 + u32 (len * 4)) in
  auth ← hmalloc_used SIZEOF_AUTH;
  base ← hmalloc_used (u64 size);
  hwrite base (replicate (Z.to_nat (u64 size)) 0);;
  put_word base 0 now;;
  put_word base 1 n;;
  name ← hread host n;
  hwrite (base + 8) name;;
  let idx := 2 + Z.shiftr (n + 3) 2 in
  put_word base idx uid;;
  put_word base (idx + 1) gid;;
  put_word base (idx + 2) len;;
  put_groups base (idx + 3) (Z.to_nat len) groups;;
  mret (auth, mk_AUTH (mk_auth AUTH_UNIX base (u32 size)) (mk_auth AUTH_NONE 0 0) 0).

Definition libnfs_auth_destroy (p : Z) (auth : AUTH) : M heap unit :=
  when (negb (auth.(ah_cred).(oa_base) =? 0)) (hfree auth.(ah_cred).(oa_base));;
  when (negb (auth.(ah_verf).(oa_base) =? 0)) (hfree auth.(ah_verf).(oa_base));;
  hfree p.
End zdr.
Arguments reply_data _ : clear implicits.
Arguments accepted_reply _ : clear implicits.
Arguments reply_union _ : clear implicits.
Arguments reply_body _ : clear implicits.
Arguments msg_union _ : clear implicits.
Arguments rpc_msg _ : clear implicits.
