(* ===== verification/ZdrSpec.v ===== *)
(** * What the external data representation guarantees

    A [codec] says how the values of a type look on the wire and in memory, and
    [codes] that a function implements it: written values are the wire image and
    nothing else, a full buffer is reported and never overrun, and the wire image
    is read back as the value.  Codecs for numbers, bytes, strings, pointers and
    arrays and the ways to combine them, each proved to be implemented. *)
From S2P Require Import Prelude Bytes Zdr.
#[local] Arguments le_bytes : simpl never.
#[local] Arguments bytes_at : simpl never.
#[local] Arguments store_bytes : simpl never.

(** ** Byte order *)

Lemma bswap_fields x b0 b1 b2 b3 :
  0 <= b0 < 256 -> 0 <= b1 < 256 -> 0 <= b2 < 256 -> 0 <= b3 < 256 -> x = b0 + 256 * (b1 + 256 * (b2 + 256 * b3)) ->
  x / 2 ^ 24 = b3 /\ ((x / 2 ^ 8) / 2 ^ 8) mod 2 ^ 8 = b2 /\
  (((x * 2 ^ 8) mod 2 ^ 32) / 2 ^ 16) mod 2 ^ 8 = b1 /\ (x * 2 ^ 24) mod 2 ^ 32 = b0 * 2 ^ 24.
Proof. intros. Z.to_euclidean_division_equations; repeat split; lia. Qed.

Lemma bswap_32_eq b0 b1 b2 b3 :
  0 <= b0 < 256 -> 0 <= b1 < 256 -> 0 <= b2 < 256 -> 0 <= b3 < 256 ->
  bswap_32 (le_value [b0; b1; b2; b3]) = le_value [b3; b2; b1; b0].
Proof.
  intros H0 H1 H2 H3. cbn [le_value]. unfold bswap_32, u32, wrap.
  change 0xff00 with ((2 ^ 8 - 1) * 2 ^ 8). change 0xff0000 with ((2 ^ 8 - 1) * 2 ^ 16).
  rewrite !land_field, !Z.shiftr_div_pow2, !Z.shiftl_mul_pow2 by lia.
  destruct (bswap_fields (b0 + 256 * (b1 + 256 * (b2 + 256 * (b3 + 256 * 0)))) b0 b1 b2 b3) as (-> & -> & -> & ->);
    [lia..|].
  rewrite (lor_add b3 b2 8), (lor_add _ b1 16), (lor_add _ b0 24) by lia. lia.
Qed.

(** Four bytes read and swapped are the number with its first byte on top. *)
Lemma ntohl_value l :
  length l = 4%nat -> Forall (fun b => 0 <= b < 256) l -> ntohl (le_value l) = le_value (reverse l).
Proof.
  intros Hl Hb. destruct l as [|b0 [|b1 [|b2 [|b3 [|? ?]]]]]; try discriminate Hl.
  rewrite !Forall_cons in Hb. destruct Hb as (H0 & H1 & H2 & H3 & _). by apply bswap_32_eq.
Qed.

Lemma ntohl_wire x : 0 <= x < 2 ^ 32 -> ntohl (le_value (be_bytes 4 x)) = x.
Proof.
  intros Hx. rewrite ntohl_value; [|apply be_bytes_length|apply Forall_reverse, le_bytes_range].
  unfold be_bytes. rewrite reverse_involutive. by apply le_roundtrip.
Qed.

Lemma htonl_wire x : 0 <= x < 2 ^ 32 -> le_bytes 4 (htonl x) = be_bytes 4 x.
Proof.
  intros Hx. unfold be_bytes. pose proof (le_bytes_range 4 x) as Hr. pose proof (le_bytes_length 4 x) as Hl.
  rewrite <- (le_roundtrip 4 x Hx) at 1. change (htonl (le_value (le_bytes 4 x))) with (ntohl (le_value (le_bytes 4 x))).
  rewrite ntohl_value by done. rewrite <- (length_reverse (le_bytes 4 x)) in Hl. rewrite <- Hl at 1.
  apply le_bytes_value. by apply Forall_reverse.
Qed.

(** ** Codecs *)

(** [wire v] are the bytes of the value [v]; [rep m a v]: in memory [m] the C
    object [a] stands for [v], for which it looks at the addresses [foot a v]
    only; [okv]: the values there are; [blank]: the objects to decode into. *)
Record codec (A V : Type) := mk_codec {
  wire : V -> list Z;
  rep : gmap Z Z -> A -> V -> Prop;
  foot : A -> V -> Z -> Prop;
  okv : V -> Prop;
  blank : A -> Prop;
}.
Arguments mk_codec {A V}.
Arguments wire {A V}.
Arguments rep {A V}.
Arguments foot {A V}.
Arguments okv {A V}.
Arguments blank {A V}.

Definition in_buf (z : ZDR) (x : Z) : Prop := z.(zbuf) <= x < z.(zbuf) + z.(zsize).
Definition allocated (h : heap) (x : Z) : Prop := exists p n, (p, n) ∈ h.(blocks) /\ p <= x < p + n.

(** The position is a multiple of a word, and far from overflow. *)
Definition pos_ok (z : ZDR) : Prop :=
  0 <= z.(zpos) <= z.(zsize) /\ z.(zsize) < 2 ^ 30 /\ (4 | z.(zpos)).
Definition encoding (s : zst) : Prop := s.(zdrs).(x_op) = ZDR_ENCODE /\ pos_ok s.(zdrs).
Definition decoding (s : zst) : Prop :=
  s.(zdrs).(x_op) = ZDR_DECODE /\ pos_ok s.(zdrs) /\ forall x, in_buf s.(zdrs) x -> allocated s.(hp) x.

(** The buffer is a number of whole words. *)
Definition whole (s : zst) : Prop := (4 | s.(zdrs).(zsize)).

Definition fits (s : zst) (w : list Z) : Prop := s.(zdrs).(zpos) + Z.of_nat (length w) <= s.(zdrs).(zsize).
#[global] Instance fits_dec s w : Decision (fits s w).
Proof. unfold fits. apply _. Defined.
(** The next bytes of the buffer are [w]. *)
Definition arrived (s : zst) (w : list Z) : Prop :=
  bytes_at s.(hp).(bytes) (s.(zdrs).(zbuf) + s.(zdrs).(zpos)) (length w) = w.

(** What writing [w] does. *)
Definition move_pos (z : ZDR) (n : Z) : ZDR := {| z with zpos := z.(zpos) + n |}.
Definition emit (s : zst) (w : list Z) : zst :=
  let h := s.(hp) in
  mk_zst (move_pos s.(zdrs) (Z.of_nat (length w)))
    {| h with bytes := store_bytes h.(bytes) (s.(zdrs).(zbuf) + s.(zdrs).(zpos)) w |}.

(** What a failed attempt may do: the rest of the buffer is the only memory it
    changes. *)
Definition kept (s s' : zst) : Prop :=
  s'.(hp).(blocks) = s.(hp).(blocks) /\ s'.(zdrs).(zmem) = s.(zdrs).(zmem) /\
  forall x, ~ (s.(zdrs).(zbuf) + s.(zdrs).(zpos) <= x < s.(zdrs).(zbuf) + s.(zdrs).(zsize)) ->
    byte_at s'.(hp).(bytes) x = byte_at s.(hp).(bytes) x.

(** What reading [n] bytes does: memory in use stays as it is. *)
Definition advanced (s s' : zst) (n : nat) : Prop :=
  s'.(zdrs).(x_op) = s.(zdrs).(x_op) /\ s'.(zdrs).(zbuf) = s.(zdrs).(zbuf) /\ s'.(zdrs).(zsize) = s.(zdrs).(zsize) /\
  s'.(zdrs).(zpos) = s.(zdrs).(zpos) + Z.of_nat n /\
  (forall x, allocated s.(hp) x -> allocated s'.(hp) x /\ byte_at s'.(hp).(bytes) x = byte_at s.(hp).(bytes) x).

Section codes.
Context {Mal : Allocator}.

(** Fresh blocks are disjoint from those in use. *)
Class MallocFresh : Prop := {
  malloc_positive : forall l n, 0 <= malloc_at l n;
  malloc_fresh : forall l n p k, malloc_at l n <> 0 -> (p, k) ∈ l -> p <> malloc_at l n;
  malloc_disjoint : forall l n p k x, malloc_at l n <> 0 -> (p, k) ∈ l ->
    p <= x < p + k -> ~ (malloc_at l n <= x < malloc_at l n + n);
}.

Context {Fresh : MallocFresh}.

Definition out_of_memory : Prop := exists l n, malloc_at l n = 0.

Record codes {A V} (proc : A -> Zdr (bool * A)) (c : codec A V) : Prop := mk_codes {
  c_foot : forall m m' a v, c.(okv) v ->
    (forall x, c.(foot) a v x -> byte_at m' x = byte_at m x) -> c.(rep) m a v -> c.(rep) m' a v;
  c_words : forall v, c.(okv) v -> (4 | Z.of_nat (length (c.(wire) v)));
  c_encode : forall s a v,
    encoding s -> c.(okv) v -> c.(rep) s.(hp).(bytes) a v -> (forall x, c.(foot) a v x -> ~ in_buf s.(zdrs) x) ->
    fits s (c.(wire) v) -> proc a s = Ok (true, a) (emit s (c.(wire) v));
  c_full : forall s a v,
    encoding s -> whole s -> c.(okv) v -> c.(rep) s.(hp).(bytes) a v -> (forall x, c.(foot) a v x -> ~ in_buf s.(zdrs) x) ->
    ~ fits s (c.(wire) v) -> exists a' s', proc a s = Ok (false, a') s' /\ kept s s';
  c_decode : forall s a v,
    decoding s -> c.(okv) v -> c.(blank) a -> arrived s (c.(wire) v) -> fits s (c.(wire) v) ->
    match proc a s with
    | Ok r s' => r.1 = true /\ c.(rep) s'.(hp).(bytes) r.2 v /\ advanced s s' (length (c.(wire) v)) /\
        (forall x, c.(foot) r.2 v x -> allocated s'.(hp) x)
    | Stuck e => e = Segv /\ out_of_memory
    end;
}.

(** *** Writing and reading in sequence *)

Lemma emit_app s w1 w2 : emit (emit s w1) w2 = emit s (w1 ++ w2).
Proof.
  destruct s as [[op buf sz pos mem] [by_ bl er]]. unfold emit, move_pos. cbn. rewrite store_bytes_app, length_app.
  do 2 f_equal; [lia|]. f_equal. lia.
Qed.

Lemma emit_nil s : emit s [] = s.
Proof. destruct s as [[op buf sz pos mem] [by_ bl er]]. unfold emit, move_pos. cbn. by rewrite Z.add_0_r. Qed.

Lemma fits_app s w1 w2 : fits s (w1 ++ w2) <-> fits s w1 /\ fits (emit s w1) w2.
Proof. unfold fits, emit. cbn. rewrite length_app. lia. Qed.

Lemma encoding_emit s w : encoding s -> fits s w -> (4 | Z.of_nat (length w)) -> encoding (emit s w).
Proof.
  intros [Hop (Hp & Hs & H4)] Hf Hw. unfold fits in Hf. split; [done|]. unfold pos_ok, emit. cbn.
  repeat split; try lia. by apply Z.divide_add_r.
Qed.

(** Writing leaves the memory outside the buffer alone. *)
Lemma emit_outside s w x :
  pos_ok s.(zdrs) -> fits s w -> ~ in_buf s.(zdrs) x -> byte_at (emit s w).(hp).(bytes) x = byte_at s.(hp).(bytes) x.
Proof.
  intros (Hp & _) Hf Hx. unfold fits, in_buf in *. cbn. apply byte_at_apart. lia.
Qed.

Lemma kept_emit s w s' : pos_ok s.(zdrs) -> fits s w -> kept (emit s w) s' -> kept s s'.
Proof.
  intros (Hp & _) Hf (Hb & Hm & Hk). unfold fits in Hf. split_and!; [done..|]. intros x Hx.
  rewrite Hk by (cbn; lia). cbn. apply byte_at_apart. lia.
Qed.

Lemma kept_refl s : kept s s.
Proof. by split_and!. Qed.

Lemma advanced_refl s : advanced s s 0.
Proof. unfold advanced. split_and!; try done. lia. Qed.

Lemma advanced_trans s1 s2 s3 n k : advanced s1 s2 n -> advanced s2 s3 k -> advanced s1 s3 (n + k).
Proof.
  intros (O1 & B1 & Z1 & P1 & H1) (O2 & B2 & Z2 & P2 & H2). unfold advanced. split_and!; try congruence.
  - rewrite P2, P1. lia.
  - intros x Hx. destruct (H1 x Hx) as [Ha E1]. destruct (H2 x Ha) as [Hb E2]. split; [done | congruence].
Qed.

Lemma advanced_decoding s s' w :
  decoding s -> fits s w -> (4 | Z.of_nat (length w)) -> advanced s s' (length w) -> decoding s'.
Proof.
  intros (Hop & (Hp & Hs & H4) & Hin) Hf Hw (O & B & Z & P & Hx). unfold fits in Hf.
  split; [congruence|]. split.
  - unfold pos_ok. rewrite P, Z. repeat split; try lia. by apply Z.divide_add_r.
  - unfold in_buf in *. rewrite B, Z. intros x Hb. by apply Hx, Hin.
Qed.

Lemma arrived_app s w1 w2 :
  arrived s (w1 ++ w2) <->
  arrived s w1 /\ bytes_at s.(hp).(bytes) (s.(zdrs).(zbuf) + s.(zdrs).(zpos) + Z.of_nat (length w1)) (length w2) = w2.
Proof.
  unfold arrived. rewrite length_app, bytes_at_app. split; [|by intros [-> ->]].
  intros E. apply app_inj_1 in E; [done|]. apply bytes_at_length.
Qed.

(** What comes behind [w1] has arrived when [w1] has been read. *)
Lemma arrived_next s s' w1 w2 :
  decoding s -> arrived s (w1 ++ w2) -> fits s (w1 ++ w2) -> advanced s s' (length w1) -> arrived s' w2 /\ fits s' w2.
Proof.
  intros (_ & (Hp & _) & Hin) [_ Ha]%arrived_app Hf (_ & B & Z & P & Hx).
  unfold fits in *. rewrite length_app in Hf. unfold arrived. rewrite B, P, Z. split; [|lia].
  rewrite Z.add_assoc. etrans; [|exact Ha]. apply bytes_at_ext. intros x Hr. apply Hx, Hin. unfold in_buf. lia.
Qed.

Lemma outside_emit s w (P : Z -> Prop) :
  (forall x, P x -> ~ in_buf s.(zdrs) x) -> forall x, P x -> ~ in_buf (emit s w).(zdrs) x.
Proof. done. Qed.

Lemma rep_emit {A V} proc (c : codec A V) s w a v :
  codes proc c -> encoding s -> fits s w -> c.(okv) v -> (forall x, c.(foot) a v x -> ~ in_buf s.(zdrs) x) ->
  c.(rep) s.(hp).(bytes) a v -> c.(rep) (emit s w).(hp).(bytes) a v.
Proof.
  intros Hc [_ Hok] Hf Hv Hx. apply (c_foot _ _ Hc); [done|]. intros x Hfx. apply emit_outside; [done..|]. by apply Hx.
Qed.

(** ** Products *)

Definition zpair {A B} (p : A -> Zdr (bool * A)) (q : B -> Zdr (bool * B)) (x : A * B) : Zdr (bool * (A * B)) :=
  r ← p x.1;
  if negb r.1 then mret (false, (r.2, x.2))
  else t ← q x.2; mret (t.1, (r.2, t.2)).

Definition cpair {A B V W} (c : codec A V) (d : codec B W) : codec (A * B) (V * W) := {|
  wire v := c.(wire) v.1 ++ d.(wire) v.2;
  rep m x v := c.(rep) m x.1 v.1 /\ d.(rep) m x.2 v.2;
  foot x v a := c.(foot) x.1 v.1 a \/ d.(foot) x.2 v.2 a;
  okv v := c.(okv) v.1 /\ d.(okv) v.2;
  blank x := c.(blank) x.1 /\ d.(blank) x.2;
|}.

Lemma codes_pair {A B V W} p q (c : codec A V) (d : codec B W) :
  codes p c -> codes q d -> codes (zpair p q) (cpair c d).
Proof.
  intros Hc Hd. split.
  - intros m m' [a b] [v w] [Hv Hw] Hx [Ha Hb]. cbn in *.
    split; [eapply (c_foot _ _ Hc); [done| |exact Ha] | eapply (c_foot _ _ Hd); [done| |exact Hb]]; auto.
  - intros [v w] [Hv Hw]. cbn. rewrite length_app, Nat2Z.inj_add.
    apply Z.divide_add_r; [by apply (c_words _ _ Hc) | by apply (c_words _ _ Hd)].
  - intros s [a b] [v w] He [Hv Hw] [Ha Hb] Hout Hf. cbn in *. apply fits_app in Hf as [Hf1 Hf2].
    unfold zpair. cbn. erewrite bind_run by (apply (c_encode _ _ Hc s a v); auto). cbn.
    erewrite bind_run; [|apply (c_encode _ _ Hd _ b w); auto].
    + unfold mret, M_ret. cbn. by rewrite emit_app.
    + apply encoding_emit; [done..|]. by apply (c_words _ _ Hc).
    + eapply rep_emit; eauto.
    + apply outside_emit. auto.
  - intros s [a b] [v w] He H4 [Hv Hw] [Ha Hb] Hout Hf. cbn in *. rewrite fits_app in Hf.
    unfold zpair. cbn. destruct (decide (fits s (c.(wire) v))) as [Hf1|Hf1].
    + erewrite bind_run by (apply (c_encode _ _ Hc s a v); auto). cbn.
      destruct (c_full _ _ Hd (emit s (c.(wire) v)) b w) as (b' & s' & Hr & Hk); auto.
      * apply encoding_emit; [done..|]. by apply (c_words _ _ Hc).
      * eapply rep_emit; eauto.
      * apply outside_emit. auto.
      * rewrite (bind_run _ _ _ _ _ Hr). eexists _, _. split; [reflexivity|]. eapply kept_emit; [apply He|done..].
    + destruct (c_full _ _ Hc s a v) as (a' & s' & Hr & Hk); auto.
      rewrite (bind_run _ _ _ _ _ Hr). eexists _, _. by split.
  - intros s [a b] [v w] Hdec [Hv Hw] [Ha Hb] Har Hf. cbn in *. pose proof Har as [Har1 _]%arrived_app.
    pose proof Hf as [Hf1 _]%fits_app. unfold zpair. cbn. unfold mbind, M_bind.
    pose proof (c_decode _ _ Hc s a v Hdec Hv Ha Har1 Hf1) as H1.
    destruct (p a s) as [[b1 a1] s1|e]; [|done]. cbn in H1. destruct H1 as (-> & Hr1 & Ad1 & Al1). cbn.
    destruct (arrived_next _ _ _ _ Hdec Har Hf Ad1) as [Har2 Hf2].
    assert (decoding s1) as Hdec1 by (eapply advanced_decoding; eauto; by apply (c_words _ _ Hc)).
    pose proof (c_decode _ _ Hd s1 b w Hdec1 Hw Hb Har2 Hf2) as H2.
    destruct (q b s1) as [[b2 a2] s2|e]; [|done]. cbn in H2 |- *. destruct H2 as (-> & Hr2 & Ad2 & Al2).
    pose proof Ad2 as (_ & _ & _ & _ & Hx).
    split_and!; try done.
    + eapply (c_foot _ _ Hc); [done| |exact Hr1]. intros x Hfx. by apply Hx, Al1.
    + rewrite length_app. eapply advanced_trans; eauto.
    + intros x [Hfx|Hfx]; [by apply Hx, Al1 | by apply Al2].
Qed.

(** A record is read and written as the tuple of its fields. *)
Definition cmap {A B V} (f : B -> A) (c : codec A V) : codec B V := {|
  wire := c.(wire);
  rep m x v := c.(rep) m (f x) v;
  foot x v := c.(foot) (f x) v;
  okv := c.(okv);
  blank x := c.(blank) (f x);
|}.

Definition zmap {A B} (f : B -> A) (g : A -> B) (p : A -> Zdr (bool * A)) (x : B) : Zdr (bool * B) :=
  r ← p (f x); mret (r.1, g r.2).

Lemma codes_map {A B V} (f : B -> A) (g : A -> B) p q (c : codec A V) :
  (forall x, f (g x) = x) -> (forall x, g (f x) = x) ->
  (forall x s, q x s = zmap f g p x s) -> codes p c -> codes q (cmap f c).
Proof.
  intros Hfg Hgf Hq Hc. split; cbn.
  - intros m m' a v. apply (c_foot _ _ Hc).
  - apply (c_words _ _ Hc).
  - intros s a v He Hv Hr Ho Hf. rewrite Hq. unfold zmap. erewrite bind_run by (apply (c_encode _ _ Hc s (f a) v); auto).
    cbn. by rewrite Hgf.
  - intros s a v He H4 Hv Hr Ho Hf. destruct (c_full _ _ Hc s (f a) v) as (a' & s' & Hrun & Hk); auto.
    rewrite Hq. unfold zmap. rewrite (bind_run _ _ _ _ _ Hrun). eexists _, _. by split.
  - intros s a v Hd Hv Hb Ha Hf. rewrite Hq. unfold zmap, mbind, M_bind.
    pose proof (c_decode _ _ Hc s (f a) v Hd Hv Hb Ha Hf) as H1.
    destruct (p (f a) s) as [r s'|e]; [|done]. cbn. by rewrite Hfg.
Qed.

(** ** Error messages *)

Definition with_error (s : zst) (e : string) : zst := let h := s.(hp) in {| s with hp := {| h with error_string := e |} |}.

(** What is only done on failure, and only sets the message, does not matter. *)
Lemma codes_on_failure {A V} (f : Zdr unit) p q (c : codec A V) :
  (forall s, exists e, f s = Ok tt (with_error s e)) ->
  (forall a s, q a s = (r ← p a; when (negb r.1) f;; mret r : Zdr (bool * A)) s) -> codes p c -> codes q c.
Proof.
  intros Hf Hq Hc. split.
  - apply (c_foot _ _ Hc).
  - apply (c_words _ _ Hc).
  - intros s a v He Hv Hr Ho Hfit. rewrite Hq. by erewrite bind_run by (apply (c_encode _ _ Hc s a v); auto).
  - intros s a v He H4 Hv Hr Ho Hfit. destruct (c_full _ _ Hc s a v) as (a' & s' & Hrun & Hk); auto.
    destruct (Hf s') as [e Hs']. rewrite Hq, (bind_run _ _ _ _ _ Hrun). cbn. rewrite (bind_run _ _ _ _ _ Hs').
    eexists _, _. split; [reflexivity|]. exact Hk.
  - intros s a v Hd Hv Hb Ha Hfit. rewrite Hq. unfold mbind, M_bind.
    pose proof (c_decode _ _ Hc s a v Hd Hv Hb Ha Hfit) as H1.
    destruct (p a s) as [[b a'] s'|e]; [|done]. destruct H1 as (Hb' & H1). cbn in Hb'. subst b. done.
Qed.

Lemma codes_or_error {A V} msg p (c : codec A V) : codes p c -> codes (fun a => or_error msg (p a)) c.
Proof. apply codes_on_failure with (f := on_heap (rpc_set_error msg)); [|done]. intros s. by exists msg. Qed.

Lemma codes_or_wrapped {A V} msg p (c : codec A V) : codes p c -> codes (fun a => or_wrapped msg (p a)) c.
Proof.
  apply codes_on_failure with
    (f := e ← on_heap rpc_get_error; on_heap (rpc_set_error (msg +:+ ", ret=0: " +:+ e))); [|done].
  intros s. eexists. reflexivity.
Qed.

(** ** Numbers *)

Definition skip (s : zst) (n : Z) : zst := {| s with zdrs := move_pos s.(zdrs) n |}.

Lemma skip_advanced s n : advanced s (skip s (Z.of_nat n)) n.
Proof. done. Qed.

Lemma word_pos s : pos_ok s.(zdrs) -> s32 (s.(zdrs).(zpos) + 4) = s.(zdrs).(zpos) + 4.
Proof. intros (Hp & Hs & _). apply s32_small. lia. Qed.

Lemma u_int_encode s u :
  encoding s -> 0 <= u < 2 ^ 32 -> fits s (be_bytes 4 u) -> libnfs_zdr_u_int u s = Ok (true, u) (emit s (be_bytes 4 u)).
Proof.
  intros [Hop Hok] Hu Hf. pose proof (word_pos s Hok) as Hp. unfold fits in Hf. rewrite be_bytes_length in Hf.
  destruct s as [[op buf sz pos mem] [by_ bl er]]. unfold libnfs_zdr_u_int, gets, mbind, M_bind.
  cbn in *. subst op. rewrite Hp.
  rewrite (proj2 (Z.ltb_ge _ _)) by lia. unfold emit, move_pos. cbn. rewrite be_bytes_length, htonl_wire by done. done.
Qed.

Lemma u_int_full s u w : pos_ok s.(zdrs) -> length w = 4%nat -> ~ fits s w -> libnfs_zdr_u_int u s = Ok (false, u) s.
Proof.
  intros Hok Hw Hf. pose proof (word_pos s Hok) as Hp. unfold fits in Hf. rewrite Hw in Hf.
  unfold libnfs_zdr_u_int, gets, mbind, M_bind. cbn. rewrite Hp, (proj2 (Z.ltb_lt _ _)) by lia. done.
Qed.

Lemma u_int_decode s u v :
  decoding s -> 0 <= v < 2 ^ 32 -> arrived s (be_bytes 4 v) -> fits s (be_bytes 4 v) ->
  libnfs_zdr_u_int u s = Ok (true, v) (skip s 4).
Proof.
  intros (Hop & Hok & _) Hv Ha Hf. pose proof (word_pos s Hok) as Hp. unfold fits in Hf. unfold arrived in Ha.
  rewrite be_bytes_length in Hf, Ha.
  destruct s as [[op buf sz pos mem] [by_ bl er]]. unfold libnfs_zdr_u_int, gets, mbind, M_bind.
  cbn in *. subst op. rewrite Hp.
  rewrite (proj2 (Z.ltb_ge _ _)) by lia. unfold on_heap, zoom, hread, mbind, M_bind. cbn.
  change (Z.to_nat 4) with 4%nat. by rewrite Ha, ntohl_wire by done.
Qed.

Definition c_u32 : codec Z Z := {|
  wire := be_bytes 4;
  rep _ a v := a = v;
  foot _ _ _ := False;
  okv v := 0 <= v < 2 ^ 32;
  blank _ := True;
|}.

Lemma codes_u_int : codes libnfs_zdr_u_int c_u32.
Proof.
  split; cbn [wire rep foot okv blank c_u32].
  - done.
  - intros v _. rewrite be_bytes_length. by exists 1.
  - intros s a v He Hv -> _ Hf. by apply u_int_encode.
  - intros s a v [_ Hok] _ Hv -> _ Hf. exists v, s. split; [|apply kept_refl].
    apply (u_int_full s v (be_bytes 4 v)); [done|apply be_bytes_length|done].
  - intros s a v Hd Hv _ Ha Hf. rewrite (u_int_decode s a v) by done. cbn. by split_and!.
Qed.

(** *** Numbers of 64 bits *)

Definition c_u64 : codec Z Z := {|
  wire := be_bytes 8;
  rep _ a v := a = v;
  foot _ _ _ := False;
  okv v := 0 <= v < 2 ^ 64;
  blank _ := True;
|}.

Lemma be_bytes_8 v : be_bytes 8 v = be_bytes 4 (v / 2 ^ 32) ++ be_bytes 4 (v mod 2 ^ 32).
Proof. exact (be_bytes_app 4 4 v). Qed.

Lemma halves v : 0 <= v < 2 ^ 64 ->
  0 <= v / 2 ^ 32 < 2 ^ 32 /\ 0 <= v mod 2 ^ 32 < 2 ^ 32 /\ Z.lor (u64 (Z.shiftl (v / 2 ^ 32) 32)) (v mod 2 ^ 32) = v.
Proof.
  intros Hv. assert (0 <= v / 2 ^ 32 < 2 ^ 32) as Hh by (Z.to_euclidean_division_equations; lia).
  assert (0 <= v mod 2 ^ 32 < 2 ^ 32) as Hl by (apply Z.mod_pos_bound; lia). split_and!; try lia.
  rewrite Z.shiftl_mul_pow2, u64_small, Z.lor_comm, lor_add by lia. pose proof (Z.div_mod v (2 ^ 32)). lia.
Qed.

Lemma codes_uint64 : codes libnfs_zdr_uint64_t c_u64.
Proof.
  split; cbn [wire rep foot okv blank c_u64].
  - done.
  - intros v _. rewrite be_bytes_length. by exists 2.
  - intros s a v [Hop Hok] Hv -> _ Hf. destruct (halves v Hv) as (Hh & Hl & _). unfold fits in Hf.
    rewrite be_bytes_8, length_app, !be_bytes_length in Hf. rewrite be_bytes_8, <- emit_app. destruct Hok as (Hp & Hz & _).
    destruct s as [[op buf sz pos mem] [by_ bl er]]. cbn in *. subst op.
    unfold libnfs_zdr_uint64_t. rewrite gets_bind. cbn.
    rewrite (s32_small (pos + 8)), (s32_small (pos + 4)), (s32_small (pos + 4 + 4)) by lia. rewrite (proj2 (Z.ltb_ge _ _)) by lia.
    rewrite Z.shiftr_div_pow2, u32_small by lia. change 0xffffffff with (Z.ones 32). rewrite Z.land_ones by lia.
    rewrite !htonl_wire by done. unfold emit, move_pos. cbn. rewrite !be_bytes_length. done.
  - intros s a v [_ (Hp & Hz & _)] _ Hv -> _ Hf. exists v, s. split; [|apply kept_refl].
    unfold fits in Hf. rewrite be_bytes_length in Hf. unfold libnfs_zdr_uint64_t. rewrite gets_bind.
    by rewrite s32_small, (proj2 (Z.ltb_lt _ _)) by lia.
  - intros s a v (Hop & (Hp & Hz & _) & _) Hv _ Ha Hf. destruct (halves v Hv) as (Hh & Hl & E).
    rewrite be_bytes_8 in Ha. apply arrived_app in Ha as [Ha1 Ha2]. unfold arrived in Ha1.
    unfold fits in Hf. rewrite !be_bytes_length in *. destruct s as [[op buf sz pos mem] [by_ bl er]]. cbn in *. subst op.
    unfold libnfs_zdr_uint64_t. rewrite gets_bind. cbn.
    rewrite (s32_small (pos + 8)), (s32_small (pos + 4)), (s32_small (pos + 4 + 4)) by lia. rewrite (proj2 (Z.ltb_ge _ _)) by lia.
    unfold on_heap, zoom, hread, set_pos, zdr_modify, modify, mbind, M_bind. cbn. change (Z.to_nat 4) with 4%nat.
    change (Z.of_nat 4) with 4 in Ha2. rewrite Z.add_assoc, Ha1, Ha2, !ntohl_wire, E by done.
    unfold advanced. cbn -[Z.of_nat]. split_and!; try done. lia.
Qed.

(** *** A word that says what follows *)

Definition ztag {A} (t : Z -> Zdr (bool * Z)) (p : Z -> A -> Zdr (bool * A)) (x : Z * A) : Zdr (bool * (Z * A)) :=
  r ← t x.1;
  if negb r.1 then mret (false, (r.2, x.2))
  else t ← p r.2 x.2; mret (t.1, (r.2, t.2)).

Definition ctag {A V} (c : Z -> codec A V) : codec (Z * A) (Z * V) := {|
  wire v := be_bytes 4 v.1 ++ (c v.1).(wire) v.2;
  rep m x v := x.1 = v.1 /\ (c v.1).(rep) m x.2 v.2;
  foot x v a := (c v.1).(foot) x.2 v.2 a;
  okv v := 0 <= v.1 < 2 ^ 32 /\ (c v.1).(okv) v.2;
  blank x := forall n, (c n).(blank) x.2;
|}.

(** After the word it is the sequence of the word and what it says. *)
Lemma ztag_pair {A} t (p : Z -> A -> Zdr (bool * A)) n x s :
  match t x.1 s with Ok r _ => r.1 = true -> r.2 = n | Stuck _ => True end ->
  ztag t p x s = zpair t (p n) x s.
Proof. unfold ztag, zpair, mbind, M_bind. destruct (t x.1 s) as [[[] k] s'|e]; [|done..]. cbn. by intros ->. Qed.

Lemma codes_tag {A V} t p (c : Z -> codec A V) :
  codes t c_u32 -> (forall n, 0 <= n < 2 ^ 32 -> codes (p n) (c n)) -> codes (ztag t p) (ctag c).
Proof.
  intros Ht Hc. pose proof (fun n Hn => codes_pair _ _ _ _ Ht (Hc n Hn)) as Hp. split.
  - intros m m' [k a] [n v] [Hn Hv] Hx [Hk Hr]. cbn in *. split; [done|]. by eapply (c_foot _ _ (Hc n Hn)).
  - intros [n v] [Hn Hv]. apply (c_words _ _ (Hp n Hn) (n, v)). by split.
  - intros s [k a] [n v] He [Hn Hv] [Hk Hr] Ho Hf. cbn in Hk, Hn, Hv, Hr. subst k. rewrite (ztag_pair _ _ n).
    + apply (c_encode _ _ (Hp n Hn) s (n, a) (n, v)); [done..| |done]. by intros x [[]|Hx]; apply Ho.
    + cbn. apply fits_app in Hf as [Hf _]. by rewrite (c_encode _ _ Ht s n n).
  - intros s [k a] [n v] He H4 [Hn Hv] [Hk Hr] Ho Hf. cbn in Hk, Hn, Hv, Hr. subst k. rewrite (ztag_pair _ _ n).
    + apply (c_full _ _ (Hp n Hn) s (n, a) (n, v)); [done..| |done]. by intros x [[]|Hx]; apply Ho.
    + cbn. destruct (decide (fits s (be_bytes 4 n))); [by rewrite (c_encode _ _ Ht s n n)|].
      by destruct (c_full _ _ Ht s n n) as (k & s' & -> & _).
  - intros s [k a] [n v] Hd [Hn Hv] Hb Ha Hf. cbn in Hn, Hv. cbn [wire ctag fst snd] in Ha, Hf. rewrite (ztag_pair _ _ n).
    + pose proof (c_decode _ _ (Hp n Hn) s (k, a) (n, v) Hd (conj Hn Hv) (conj I (Hb n)) Ha Hf) as H1.
      destruct (zpair _ _ _ _) as [r s'|e]; [|done]. destruct H1 as (E & [Hr1 Hr2] & Hadv & Hal).
      split_and!; try done. intros x Hx. apply Hal. by right.
    + cbn. apply fits_app in Hf as [Hf _]. apply arrived_app in Ha as [Ha _].
      pose proof (c_decode _ _ Ht s k n Hd Hn I Ha Hf) as H1. destruct (t k s); [naive_solver | done].
Qed.

(** *** One member of a union *)

(** The objects [con a]; [unv] says which values they stand for. *)
Definition cinj {A B V W} (con : A -> B) (unv : W -> option V) (b : B -> Prop) (c : codec A V) : codec B W := {|
  wire w := match unv w with Some v => c.(wire) v | None => [] end;
  rep m x w := exists a v, x = con a /\ unv w = Some v /\ c.(rep) m a v;
  foot x w z := exists a v, x = con a /\ unv w = Some v /\ c.(foot) a v z;
  okv w := exists v, unv w = Some v /\ c.(okv) v;
  blank := b;
|}.

Definition zinj {A B} (con : A -> B) (p : A -> Zdr (bool * A)) (a : A) : Zdr (bool * B) :=
  r ← p a; mret (r.1, con r.2).

Lemma codes_inj {A B V W} (con : A -> B) (unv : W -> option V) b p q (c : codec A V) :
  Inj (=) (=) con -> codes p c ->
  (forall a s, encoding s -> q (con a) s = zinj con p a s) ->
  (forall x s, decoding s -> b x -> exists a, c.(blank) a /\ q x s = zinj con p a s) ->
  codes q (cinj con unv b c).
Proof.
  intros Hinj Hc Henc Hdec. unfold zinj in *. split; unfold cinj; cbn.
  - intros m m' x w (v & E & Hv) Hx (a & v' & -> & E' & Hr). simplify_eq. exists a, v. split_and!; [done..|].
    apply (c_foot _ _ Hc m); [done| |done]. intros z Hz. apply Hx. by exists a, v.
  - intros w (v & -> & Hv). by apply (c_words _ _ Hc).
  - intros s x w He (v & E & Hv) (a & v' & -> & E' & Hr) Ho. simplify_eq. rewrite E. intros Hf. rewrite Henc by done.
    erewrite bind_run; [|apply (c_encode _ _ Hc s a v); [done..| |done]]; [done|]. intros z Hz. apply Ho. by exists a, v.
  - intros s x w He H4 (v & E & Hv) (a & v' & -> & E' & Hr) Ho. simplify_eq. rewrite E. intros Hf. rewrite Henc by done.
    destruct (c_full _ _ Hc s a v) as (a' & s' & H1 & H2); [done..| |done|].
    + intros z Hz. apply Ho. by exists a, v.
    + rewrite (bind_run _ _ _ _ _ H1). eexists _, _. by split.
  - intros s x w Hd (v & E & Hv) Hb. rewrite E. intros Ha Hf. destruct (Hdec x s Hd Hb) as (a & Hba & ->).
    pose proof (c_decode _ _ Hc s a v Hd Hv Hba Ha Hf) as H1. unfold mbind, M_bind.
    destruct (p a s) as [r s'|e]; [|done]. destruct H1 as (E1 & Hr & Had & Hal). cbn. split_and!; [done| |done|].
    + by exists r.2, v.
    + intros z (a' & v' & E0%(inj con) & E' & Hz). cbn in E0. simplify_eq. by apply Hal.
Qed.

(** ** Bytes and strings *)

(** The bytes that fill up the last word. *)
Definition padding (n : nat) : list Z := replicate (Z.to_nat ((- Z.of_nat n) mod 4)) 0.

Lemma padding_length n : Z.of_nat (length (padding n)) = (- Z.of_nat n) mod 4.
Proof. unfold padding. rewrite length_replicate. pose proof (Z.mod_pos_bound (- Z.of_nat n) 4). lia. Qed.

Lemma padded_words n : (4 | Z.of_nat n + Z.of_nat (length (padding n))).
Proof.
  rewrite padding_length. exists ((Z.of_nat n + 3) / 4). Z.to_euclidean_division_equations; lia.
Qed.

Lemma land_3 q : Z.land q 3 = q mod 4.
Proof. exact (Z.land_ones q 2 ltac:(done)). Qed.

Lemma pad_land q : Z.land (4 - Z.land q 3) 3 = (- q) mod 4.
Proof. rewrite !land_3. Z.to_euclidean_division_equations; lia. Qed.

Lemma round_land q : Z.land (q + 3) (-4) = q + (- q) mod 4.
Proof.
  change (-4) with (Z.lnot (Z.ones 2)). rewrite <- Z.ldiff_land, Z.ldiff_ones_r, Z.shiftl_mul_pow2, Z.shiftr_div_pow2 by lia.
  change (2 ^ 2) with 4. Z.to_euclidean_division_equations; lia.
Qed.

(** Behind an aligned position the padding depends on the length only. *)
Lemma mod_aligned p n : (4 | p) -> (- (p + n)) mod 4 = (- n) mod 4.
Proof. intros [k ->]. replace (- (k * 4 + n)) with (- n + (- k) * 4) by lia. by rewrite Z.mod_add by lia. Qed.

(** Data of which the last word may be partly used fits with its padding. *)
Lemma fits_padded s l :
  fits s (l ++ padding (length l)) -> s.(zdrs).(zpos) + Z.of_nat (length l) <= s.(zdrs).(zsize).
Proof. unfold fits. rewrite length_app. lia. Qed.
Lemma padded_fits s l :
  pos_ok s.(zdrs) -> whole s -> s.(zdrs).(zpos) + Z.of_nat (length l) <= s.(zdrs).(zsize) ->
  fits s (l ++ padding (length l)).
Proof.
  intros (Hp & Hs & [k Hk]) [j Hj]. unfold fits. rewrite length_app, Nat2Z.inj_add, padding_length.
  Z.to_euclidean_division_equations; lia.
Qed.

Lemma opaque_encode s p l :
  encoding s -> fits s (l ++ padding (length l)) -> bytes_at s.(hp).(bytes) p (length l) = l ->
  libnfs_zdr_opaque p (Z.of_nat (length l)) s = Ok true (emit s (l ++ padding (length l))).
Proof.
  intros [Hop Hok] Hf Hl. pose proof (fits_padded s l Hf) as Hf'. destruct Hok as (Hp & Hs & H4).
  destruct s as [[op buf sz pos mem] [by_ bl er]]. cbn in *. subst op.
  unfold libnfs_zdr_opaque, gets, on_heap, zoom, hread, hwrite, set_pos, zdr_modify, modify, mbind, M_bind.
  cbn. rewrite Nat2Z.id, Hl, (s32_small (pos + _)), (s32_small (pos + _ + 3)), round_land by lia.
  rewrite land_3. unfold emit, move_pos. cbn. rewrite store_bytes_app, length_app, Nat2Z.inj_add, padding_length.
  unfold padding. pose proof (mod_aligned pos (Z.of_nat (length l)) H4) as Hm.
  unfold nz. destruct (Z.eqb_spec ((pos + Z.of_nat (length l)) mod 4) 0) as [E|E]; cbn.
  - assert ((- Z.of_nat (length l)) mod 4 = 0) as E0 by (rewrite <- Hm; apply Z.mod_opp_l_z; lia).
    rewrite Hm, E0. cbn. unfold mret, M_ret. unfold store_bytes at 2. do 3 f_equal. lia.
  - assert (4 - (pos + Z.of_nat (length l)) mod 4 = (- Z.of_nat (length l)) mod 4) as ->
      by (rewrite <- Hm; by rewrite Z.mod_opp_l_nz by lia).
    rewrite Hm. unfold mret, M_ret. do 3 f_equal; [lia|]. f_equal. lia.
Qed.

Definition counted (l : list Z) : list Z := be_bytes 4 (Z.of_nat (length l)) ++ l ++ padding (length l).

Lemma counted_words l : (4 | Z.of_nat (length (counted l))).
Proof.
  unfold counted. rewrite !length_app, be_bytes_length, !Nat2Z.inj_add.
  apply Z.divide_add_r; [by exists 1 | apply padded_words].
Qed.

Definition short (l : list Z) : Prop := Z.of_nat (length l) < 2 ^ 30.

Lemma word_emit_ok s n : encoding s -> fits s (be_bytes 4 n) -> encoding (emit s (be_bytes 4 n)).
Proof. intros He Hf. apply encoding_emit; [done..|]. rewrite be_bytes_length. by exists 1. Qed.

Lemma word_skip_ok s n : decoding s -> fits s (be_bytes 4 n) -> decoding (skip s 4).
Proof.
  intros Hd Hf. eapply advanced_decoding; [done|done| |].
  - rewrite be_bytes_length. by exists 1.
  - rewrite be_bytes_length. apply (skip_advanced s 4).
Qed.

Definition c_bytes : codec (Z * Z) (list Z) := {|
  wire := counted;
  rep m x l := x.2 = Z.of_nat (length l) /\ bytes_at m x.1 (length l) = l;
  foot x l a := x.1 <= a < x.1 + Z.of_nat (length l);
  okv := short;
  blank x := x.1 = 0;
|}.

(** The source of the data is still there when the length has been written. *)
Lemma source_kept s w p l :
  encoding s -> fits s w -> (forall x, p <= x < p + Z.of_nat (length l) -> ~ in_buf s.(zdrs) x) ->
  bytes_at s.(hp).(bytes) p (length l) = l -> bytes_at (emit s w).(hp).(bytes) p (length l) = l.
Proof.
  intros [_ Hok] Hf Ho Hl. etrans; [|exact Hl]. apply bytes_at_ext. intros x Hx. apply emit_outside; auto.
Qed.

(** The test for the end of the buffer does not count the padding. *)
Lemma bytes_encode_body s p l max :
  encoding s -> short l -> (forall x, p <= x < p + Z.of_nat (length l) -> ~ in_buf s.(zdrs) x) ->
  bytes_at s.(hp).(bytes) p (length l) = l -> fits s (be_bytes 4 (Z.of_nat (length l)) ++ l) ->
  libnfs_zdr_bytes p (Z.of_nat (length l)) max s = Ok (true, (p, Z.of_nat (length l))) (emit s (counted l)).
Proof.
  intros He Hs Ho Hl [Hf1 Hf2]%fits_app. unfold short in Hs. unfold libnfs_zdr_bytes.
  rewrite (bind_run _ _ _ _ _ (u_int_encode s (Z.of_nat (length l)) He ltac:(lia) Hf1)). cbn [fst snd negb].
  pose proof (source_kept s _ p l He Hf1 Ho Hl) as Hl1. unfold counted. rewrite <- emit_app.
  pose proof (word_emit_ok _ _ He Hf1) as He1. revert He1 Hl1 Hf2. generalize (emit s (be_bytes 4 (Z.of_nat (length l)))).
  clear s He Ho Hl Hf1. intros s [Hop Hok] Hl Hf'. unfold fits in Hf'.
  destruct Hok as (Hp & Hz & H4). destruct s as [[op buf sz pos mem] [by_ bl er]]. cbn in *. subst op.
  unfold gets, on_heap, zoom, hread, hwrite, set_pos, zdr_modify, modify, mbind, M_bind. cbn.
  rewrite !(s32_small (Z.of_nat _)), !(s32_small (pos + _)) by lia. rewrite (proj2 (Z.ltb_ge _ _)) by lia. cbn.
  rewrite Nat2Z.id, Hl, pad_land, mod_aligned by done. cbn. unfold emit, move_pos. cbn.
  rewrite store_bytes_app, length_app, Nat2Z.inj_add, padding_length. unfold padding.
  unfold nz. destruct (Z.eqb_spec ((- Z.of_nat (length l)) mod 4) 0) as [E|E]; cbn.
  - rewrite E. unfold mret, M_ret. unfold store_bytes at 2. cbn. do 3 f_equal. lia.
  - pose proof (Z.mod_pos_bound (- Z.of_nat (length l)) 4). rewrite s32_small by lia.
    unfold mret, M_ret. do 3 f_equal; [lia|]. f_equal. lia.
Qed.

Lemma counted_fits s l : fits s (counted l) -> fits s (be_bytes 4 (Z.of_nat (length l)) ++ l).
Proof. unfold fits, counted. rewrite !length_app. lia. Qed.

Lemma bytes_encode s p l max :
  encoding s -> short l -> (forall x, p <= x < p + Z.of_nat (length l) -> ~ in_buf s.(zdrs) x) ->
  bytes_at s.(hp).(bytes) p (length l) = l -> fits s (counted l) ->
  libnfs_zdr_bytes p (Z.of_nat (length l)) max s = Ok (true, (p, Z.of_nat (length l))) (emit s (counted l)).
Proof. intros He Hs Ho Hl Hf. apply bytes_encode_body; [done..|]. by apply counted_fits. Qed.

Lemma bytes_full s p l max :
  encoding s -> whole s -> short l -> ~ fits s (counted l) -> exists s',
  libnfs_zdr_bytes p (Z.of_nat (length l)) max s = Ok (false, (p, Z.of_nat (length l))) s' /\ kept s s'.
Proof.
  intros He H4 Hs Hf. unfold short in Hs. unfold counted in Hf. rewrite fits_app in Hf. unfold libnfs_zdr_bytes.
  destruct (decide (fits s (be_bytes 4 (Z.of_nat (length l))))) as [Hf1|Hf1].
  - rewrite (bind_run _ _ _ _ _ (u_int_encode s (Z.of_nat (length l)) He ltac:(lia) Hf1)). cbn [fst snd negb].
    pose proof (word_emit_ok _ _ He Hf1) as [_ Hok].
    apply not_and_l in Hf as [Hf|Hf]; [done|]. pose proof (fun H => Hf (padded_fits _ l Hok H4 H)) as Hf'. clear Hf. rename Hf' into Hf.
    exists (emit s (be_bytes 4 (Z.of_nat (length l)))). split; [|eapply kept_emit; [apply He|done|apply kept_refl]].
    set (s1 := emit s _) in *. destruct Hok as (Hp & Hz & _). unfold gets, mbind, M_bind.
    rewrite (s32_small (Z.of_nat _)), s32_small by lia. rewrite (proj2 (Z.ltb_lt _ _)) by lia. done.
  - exists s. split; [|apply kept_refl].
    rewrite (bind_run _ _ _ _ _ (u_int_full s _ _ (proj2 He) (be_bytes_length 4 _) Hf1)). done.
Qed.

Lemma bytes_decode s n0 l max :
  decoding s -> short l -> arrived s (counted l) -> fits s (counted l) ->
  libnfs_zdr_bytes 0 n0 max s =
    Ok (true, (s.(zdrs).(zbuf) + s.(zdrs).(zpos) + 4, Z.of_nat (length l))) (skip s (Z.of_nat (length (counted l)))).
Proof.
  intros Hd Hs Ha Hf. pose proof Ha as [Ha1 _]%arrived_app. pose proof Hf as [Hf1 Hf2]%fits_app. unfold short in Hs.
  unfold libnfs_zdr_bytes. rewrite (bind_run _ _ _ _ _ (u_int_decode s _ (Z.of_nat (length l)) Hd ltac:(lia) Ha1 Hf1)). cbn [fst snd negb].
  destruct (word_skip_ok _ _ Hd Hf1) as (Hop & Hok & _). pose proof (fits_padded (skip s 4) l Hf2) as Hf'.
  unfold counted. rewrite !length_app, be_bytes_length, !Nat2Z.inj_add, padding_length.
  destruct Hok as (Hp & Hz & H4). destruct s as [[op buf sz pos mem] h]. unfold skip, move_pos in *. cbn in *. subst op.
  unfold gets, set_pos, zdr_modify, modify, mbind, M_bind. cbn.
  rewrite !(s32_small (Z.of_nat _)), !(s32_small (pos + 4 + _)), (s32_small (pos + 4 + _ + 3)) by lia.
  rewrite (proj2 (Z.ltb_ge _ _)) by lia. rewrite round_land, mod_aligned by done. unfold mret, M_ret. cbn.
  rewrite (Z.add_assoc buf). do 3 f_equal. lia.
Qed.

Lemma codes_bytes max : codes (fun x => libnfs_zdr_bytes x.1 x.2 max) c_bytes.
Proof.
  split.
  - intros m m' [p n] l _ Hx [Hn Hl]. cbn in *. split; [done|]. rewrite <- Hl at 2. by apply bytes_at_ext.
  - intros l _. apply counted_words.
  - intros s [p n] l He Hs [Hn Hl] Ho Hf. cbn in *. subst n. by apply bytes_encode.
  - intros s [p n] l He H4 Hs [Hn Hl] Ho Hf. cbn in *. subst n. destruct (bytes_full s p l max) as (s' & H1 & H2); eauto.
  - intros s [p n] l Hd Hs Hb Ha Hf. cbn in *. subst p. rewrite (bytes_decode s n l max) by done. cbn.
    pose proof Ha as [_ Ha2]%arrived_app. rewrite be_bytes_length in Ha2.
    rewrite length_app, bytes_at_app in Ha2. apply app_inj_1 in Ha2; [|by rewrite bytes_at_length]. destruct Ha2 as [Ha2 _].
    split_and!; try done. intros x Hx. destruct Hd as (_ & (Hp & _) & Hin). apply Hin. unfold in_buf, fits, counted in *.
    rewrite !length_app, be_bytes_length in Hf. lia.
Qed.

(** *** Blocks for decoded data *)

Definition grown (s : zst) (p n : Z) : zst :=
  let z := s.(zdrs) in let h := s.(hp) in
  mk_zst {| z with zmem := p :: z.(zmem) |} {| h with blocks := (p, n) :: h.(blocks) |}.

Lemma zdr_malloc_run s n : 0 <= n <= 2 ^ 30 ->
  let p := malloc_at s.(hp).(blocks) (12 + n) in
  (p = 0 -> zdr_malloc n s = Stuck Segv) /\ (p <> 0 -> zdr_malloc n s = Ok (p + 12) (grown s p (12 + n))).
Proof.
  intros Hn. cbn. unfold zdr_malloc, ZDR_MEM_BUF. rewrite s32_small, u64_small by lia.
  unfold on_heap, zoom, hmalloc_used, hmalloc, mbind, M_bind. cbn. split; intros Hp.
  - by rewrite Hp.
  - rewrite (proj2 (Z.eqb_neq _ _) Hp). cbn. rewrite (proj2 (Z.eqb_neq _ _) Hp). cbn.
    unfold access. rewrite (proj2 (Z.leb_le _ _)) by lia. done.
Qed.

Lemma allocated_grown s p n x : allocated (grown s p n).(hp) x <-> p <= x < p + n \/ allocated s.(hp) x.
Proof.
  unfold allocated. cbn. setoid_rewrite elem_of_cons. split.
  - intros (q & k & [[= -> ->]|Hq] & Hx); eauto.
  - intros [Hx|(q & k & Hq & Hx)]; eauto 10.
Qed.

Lemma grown_fresh s n x :
  malloc_at s.(hp).(blocks) n <> 0 -> allocated s.(hp) x ->
  ~ (malloc_at s.(hp).(blocks) n <= x < malloc_at s.(hp).(blocks) n + n).
Proof. intros Hp (q & k & Hq & Hx). by eapply malloc_disjoint. Qed.

(** Decoding into fresh memory: [l] is written where nothing was. *)
Definition stored (s : zst) (p : Z) (l : list Z) : zst :=
  let h := s.(hp) in {| s with hp := {| h with bytes := store_bytes h.(bytes) p l |} |}.

(** A state that differs in a fresh block and the position only. *)
Lemma advanced_fresh s s' n k :
  let p := malloc_at s.(hp).(blocks) n in p <> 0 ->
  s'.(zdrs).(x_op) = s.(zdrs).(x_op) -> s'.(zdrs).(zbuf) = s.(zdrs).(zbuf) -> s'.(zdrs).(zsize) = s.(zdrs).(zsize) ->
  s'.(zdrs).(zpos) = s.(zdrs).(zpos) + Z.of_nat k -> s'.(hp).(blocks) = (p, n) :: s.(hp).(blocks) ->
  (forall x, ~ (p <= x < p + n) -> byte_at s'.(hp).(bytes) x = byte_at s.(hp).(bytes) x) -> advanced s s' k.
Proof.
  intros p Hp Ho Hb Hz Hk Hbl Hx. split_and!; [done..|]. intros x Ha. split.
  - destruct Ha as (q & j & Hq & Hr). exists q, j. rewrite Hbl. split; [by right | done].
  - by apply Hx, grown_fresh.
Qed.

Lemma opaque_decode s p l :
  decoding s -> arrived s (l ++ padding (length l)) -> fits s (l ++ padding (length l)) ->
  libnfs_zdr_opaque p (Z.of_nat (length l)) s =
    Ok true (stored (skip s (Z.of_nat (length (l ++ padding (length l))))) p l).
Proof.
  intros (Hop & Hok & _) Ha Hf. pose proof (fits_padded s l Hf) as Hf'. apply arrived_app in Ha as [Ha _].
  destruct Hok as (Hp & Hs & H4). unfold arrived in Ha.
  destruct s as [[op buf sz pos mem] [by_ bl er]]. cbn in *. subst op.
  unfold libnfs_zdr_opaque, gets, on_heap, zoom, hread, hwrite, set_pos, zdr_modify, modify, mbind, M_bind.
  cbn. rewrite Nat2Z.id, Ha, (s32_small (pos + _)), (s32_small (pos + _ + 3)), round_land, mod_aligned by (done || lia).
  unfold stored, skip, move_pos. cbn. rewrite length_app, Nat2Z.inj_add, padding_length.
  unfold mret, M_ret. do 3 f_equal. lia.
Qed.

Definition c_str : codec Z (list Z) := {|
  wire := counted;
  rep m p l := c_string m p l;
  foot p l a := p <= a < p + Z.of_nat (length l) + 1;
  okv l := short l /\ 0 ∉ l;
  blank p := p = 0;
|}.

Lemma c_string_bytes m p l : c_string m p l -> bytes_at m p (length l) = l.
Proof.
  intros [Hl _]. rewrite <- Nat.add_1_r, bytes_at_app in Hl. apply app_inj_1 in Hl; [by destruct Hl|].
  apply bytes_at_length.
Qed.

Lemma c_string_ext m m' p l :
  (forall x, p <= x < p + Z.of_nat (length l) + 1 -> byte_at m' x = byte_at m x) -> c_string m p l -> c_string m' p l.
Proof. intros Hx [Hl H0]. split; [|done]. rewrite <- Hl. apply bytes_at_ext. intros x Hr. apply Hx. lia. Qed.

Lemma hstrlen_run s p l : c_string s.(hp).(bytes) p l -> on_heap (hstrlen p) s = Ok (Z.of_nat (length l)) s.
Proof.
  intros Hl. unfold on_heap, zoom, hstrlen, mbind, M_bind, get. pose proof (c_string_size _ _ _ Hl).
  rewrite (strlen_in_string _ _ l) by (done || lia). by destruct s.
Qed.

Lemma string_encode s p l max :
  encoding s -> short l -> c_string s.(hp).(bytes) p l ->
  (forall x, p <= x < p + Z.of_nat (length l) + 1 -> ~ in_buf s.(zdrs) x) -> fits s (counted l) ->
  libnfs_zdr_string p max s = Ok (true, p) (emit s (counted l)).
Proof.
  intros He Hs Hl Ho [Hf1 Hf2]%fits_app. unfold short in Hs. unfold libnfs_zdr_string.
  rewrite gets_bind, (proj1 He).
  erewrite bind_run by (rewrite (bind_run _ _ _ _ _ (hstrlen_run _ _ _ Hl)); unfold mret, M_ret; reflexivity).
  rewrite u32_small by lia.
  rewrite (bind_run _ _ _ _ _ (u_int_encode s (Z.of_nat (length l)) He ltac:(lia) Hf1)). cbn [fst snd negb].
  assert (bytes_at (emit s (be_bytes 4 (Z.of_nat (length l)))).(hp).(bytes) p (length l) = l) as Hl1.
  { apply source_kept; [done..| |by apply c_string_bytes]. intros x Hx. apply Ho. lia. }
  unfold counted. rewrite <- emit_app. pose proof (word_emit_ok _ _ He Hf1) as He1. revert He1 Hl1 Hf2.
  generalize (emit s (be_bytes 4 (Z.of_nat (length l)))). clear s He Ho Hl Hf1. intros s He Hl Hf.
  pose proof He as [Hop Hok]. pose proof (fits_padded s l Hf) as Hf'. destruct Hok as (Hp & Hz & _).
  rewrite gets_bind, (s32_small (Z.of_nat _)), s32_small by lia.
  rewrite (proj2 (Z.ltb_ge _ _)) by lia. rewrite Hop. by rewrite (bind_run _ _ _ _ _ (opaque_encode s p l He Hf Hl)).
Qed.

Lemma string_full s p l max :
  encoding s -> whole s -> short l -> c_string s.(hp).(bytes) p l -> ~ fits s (counted l) -> exists s',
  libnfs_zdr_string p max s = Ok (false, p) s' /\ kept s s'.
Proof.
  intros He H4 Hs Hl Hf. unfold short in Hs. unfold counted in Hf. rewrite fits_app in Hf. unfold libnfs_zdr_string.
  rewrite gets_bind, (proj1 He).
  erewrite bind_run by (rewrite (bind_run _ _ _ _ _ (hstrlen_run _ _ _ Hl)); unfold mret, M_ret; reflexivity).
  rewrite u32_small by lia. destruct (decide (fits s (be_bytes 4 (Z.of_nat (length l))))) as [Hf1|Hf1].
  - rewrite (bind_run _ _ _ _ _ (u_int_encode s (Z.of_nat (length l)) He ltac:(lia) Hf1)). cbn [fst snd negb].
    pose proof (word_emit_ok _ _ He Hf1) as [_ Hok].
    apply not_and_l in Hf as [Hf|Hf]; [done|]. pose proof (fun H => Hf (padded_fits _ l Hok H4 H)) as Hf'. clear Hf. rename Hf' into Hf.
    exists (emit s (be_bytes 4 (Z.of_nat (length l)))). split; [|eapply kept_emit; [apply He|done|apply kept_refl]].
    set (s1 := emit s _) in *. destruct Hok as (Hp & Hz & _). unfold gets, mbind, M_bind.
    rewrite (s32_small (Z.of_nat _)), s32_small by lia. rewrite (proj2 (Z.ltb_lt _ _)) by lia. done.
  - exists s. split; [|apply kept_refl].
    by rewrite (bind_run _ _ _ _ _ (u_int_full s _ _ (proj2 He) (be_bytes_length 4 _) Hf1)).
Qed.

(** The string is terminated in the buffer. *)
Definition terminated (s : zst) (l : list Z) : Prop :=
  s.(zdrs).(zpos) + 4 + Z.of_nat (length l) < s.(zdrs).(zsize) /\
  byte_at s.(hp).(bytes) (s.(zdrs).(zbuf) + s.(zdrs).(zpos) + 4 + Z.of_nat (length l)) = 0.
#[local] Instance terminated_dec s l : Decision (terminated s l).
Proof. unfold terminated. apply _. Defined.

(** What is done with a string once its length is known. *)
Definition string_in_place (s : zst) (l : list Z) : Zdr (bool * Z) :=
  let a := s.(zdrs).(zbuf) + (s.(zdrs).(zpos) + 4) in
  on_heap (hwrite (a + Z.of_nat (length l)) [0]);;
  set_pos (s.(zdrs).(zpos) + Z.of_nat (length (counted l)));;
  mret (true, a).
Definition string_copied (l : list Z) : Zdr (bool * Z) :=
  strp ← zdr_malloc (Z.of_nat (length l) + 1);
  if strp =? 0 then mret (false, strp) else
  on_heap (hwrite (strp + Z.of_nat (length l)) [0]);;
  b ← libnfs_zdr_opaque strp (Z.of_nat (length l)); mret (b, strp).

Lemma string_length_read s l max :
  decoding s -> short l -> arrived s (counted l) -> fits s (counted l) ->
  libnfs_zdr_string 0 max s =
    (if bool_decide (terminated s l) then string_in_place s l else string_copied l) (skip s 4).
Proof.
  intros Hd Hs Ha Hf. pose proof Ha as [Ha1 _]%arrived_app. pose proof Hf as [Hf1 Hf2]%fits_app. unfold short in Hs.
  unfold libnfs_zdr_string, string_in_place, string_copied. rewrite gets_bind, (proj1 Hd), ret_bind.
  rewrite (bind_run _ _ _ _ _ (u_int_decode s _ (Z.of_nat (length l)) Hd ltac:(lia) Ha1 Hf1)). cbn [fst snd negb].
  destruct (word_skip_ok _ _ Hd Hf1) as (Hop & Hok & _). pose proof (fits_padded (skip s 4) l Hf2) as Hf'.
  unfold counted. rewrite !length_app, be_bytes_length, !Nat2Z.inj_add, padding_length.
  destruct Hok as (Hp & Hz & H4). unfold terminated.
  destruct s as [[op buf sz pos mem] [by_ bl er]]. unfold skip, move_pos in *. cbn in *. subst op.
  rewrite gets_bind. cbn. rewrite !(s32_small (Z.of_nat _)), !(s32_small (pos + 4 + _)), (s32_small (pos + 4 + _ + 3)) by lia.
  rewrite (proj2 (Z.ltb_ge _ _)) by lia.
  unfold on_heap at 1, zoom, hread. unfold mbind at 1, M_bind at 1. unfold mbind at 1, M_bind at 1. cbn.
  rewrite !u32_small, round_land, mod_aligned by (done || lia). change (Z.to_nat 1) with 1%nat.
  replace (bytes_at by_ (buf + (pos + 4 + Z.of_nat (length l))) 1) with [byte_at by_ (buf + pos + 4 + Z.of_nat (length l))]
    by (unfold bytes_at; cbn; do 2 f_equal; lia).
  cbn [le_value]. rewrite Z.mul_0_r, Z.add_0_r.
  replace (pos + (Z.of_nat 4 + (Z.of_nat (length l) + (- Z.of_nat (length l)) mod 4)))
    with (pos + 4 + Z.of_nat (length l) + (- Z.of_nat (length l)) mod 4) by lia.
  match goal with |- (if ?b then _ else _) _ = (if ?c then _ else _) _ => replace b with c end.
  - by case_bool_decide.
  - destruct (Z.ltb_spec (pos + 4 + Z.of_nat (length l)) sz); cbn; [|case_bool_decide; [lia|done]].
    destruct (Z.eqb_spec (byte_at by_ (buf + pos + 4 + Z.of_nat (length l))) 0) as [Eb|Eb]; case_bool_decide as Ec;
      try done; [by destruct Ec | by destruct Ec as [_ ?]].
Qed.

Lemma string_in_place_run s l :
  string_in_place s l (skip s 4) =
    Ok (true, s.(zdrs).(zbuf) + (s.(zdrs).(zpos) + 4))
      (stored (skip s (Z.of_nat (length (counted l))))
         (s.(zdrs).(zbuf) + (s.(zdrs).(zpos) + 4) + Z.of_nat (length l)) [0]).
Proof. done. Qed.

(** Storing what is there changes nothing that can be read. *)
Lemma stored_same s p b : byte_at s.(hp).(bytes) p = b -> advanced s (stored s p [b]) 0.
Proof.
  intros Hb. unfold advanced, stored. cbn. split_and!; try done; [lia|]. intros x Ha. split; [done|].
  rewrite store_bytes_lookup. case_decide; [|done]. cbn in *. replace x with p by lia. by rewrite Z.sub_diag.
Qed.

Lemma string_decode_terminated s l :
  decoding s -> 0 ∉ l -> arrived s (counted l) -> fits s (counted l) -> terminated s l ->
  match string_in_place s l (skip s 4) with
  | Ok r s' => r.1 = true /\ c_string s'.(hp).(bytes) r.2 l /\ advanced s s' (length (counted l)) /\
      (forall x, r.2 <= x < r.2 + Z.of_nat (length l) + 1 -> allocated s'.(hp) x)
  | Stuck _ => False
  end.
Proof.
  intros Hd H0 Ha Hf [Ht1 Ht2]. rewrite string_in_place_run. cbn [fst snd]. rewrite <- Z.add_assoc in Ht2.
  pose proof (stored_same (skip s (Z.of_nat (length (counted l))))
    (s.(zdrs).(zbuf) + (s.(zdrs).(zpos) + 4) + Z.of_nat (length l)) 0) as Had.
  assert (advanced s (stored (skip s (Z.of_nat (length (counted l))))
    (s.(zdrs).(zbuf) + (s.(zdrs).(zpos) + 4) + Z.of_nat (length l)) [0]) (length (counted l))) as Hadv.
  { rewrite <- (Nat.add_0_r (length _)) at 2. eapply advanced_trans; [apply skip_advanced|]. apply Had. cbn.
    rewrite <- Ht2. f_equal. lia. }
  assert (forall x, s.(zdrs).(zbuf) + (s.(zdrs).(zpos) + 4) <= x <
    s.(zdrs).(zbuf) + (s.(zdrs).(zpos) + 4) + Z.of_nat (length l) + 1 -> allocated s.(hp) x) as Hal.
  { intros x Hx. destruct Hd as (_ & (Hp & _) & Hin). apply Hin. unfold in_buf. lia. }
  split_and!; try done.
  apply (c_string_ext s.(hp).(bytes)); [intros x Hx; apply Hadv, Hal; lia|]. split; [|done].
  apply arrived_app in Ha as [_ Ha]. rewrite be_bytes_length, length_app, bytes_at_app in Ha.
  apply app_inj_1 in Ha; [|by rewrite bytes_at_length]. destruct Ha as [Ha _].
  change (Z.of_nat 4) with 4 in Ha. rewrite <- Nat.add_1_r, bytes_at_app. rewrite Z.add_assoc, Ha. f_equal. unfold bytes_at. cbn. f_equal.
  rewrite <- Ht2. f_equal. lia.
Qed.

Lemma string_decode_copied s l :
  decoding s -> short l -> 0 ∉ l -> arrived s (counted l) -> fits s (counted l) ->
  match string_copied l (skip s 4) with
  | Ok r s' => r.1 = true /\ c_string s'.(hp).(bytes) r.2 l /\ advanced s s' (length (counted l)) /\
      (forall x, r.2 <= x < r.2 + Z.of_nat (length l) + 1 -> allocated s'.(hp) x)
  | Stuck e => e = Segv /\ out_of_memory
  end.
Proof.
  intros Hd Hs H0 Ha Hf. unfold short in Hs. unfold string_copied.
  destruct (arrived_next s (skip s 4) (be_bytes 4 (Z.of_nat (length l))) (l ++ padding (length l)) Hd Ha Hf
    (skip_advanced s 4)) as [Ha1 Hf1].
  pose proof Hf as [Hfw _]%fits_app. pose proof (word_skip_ok _ _ Hd Hfw) as Hd1. set (s1 := skip s 4) in *.
  destruct (zdr_malloc_run s1 (Z.of_nat (length l) + 1)) as [Hnull Hmal]; [lia|].
  set (p := malloc_at _ _) in *. destruct (decide (p = 0)) as [E|E].
  { rewrite (bind_stuck _ _ _ _ (Hnull E)). split; [done|]. by eexists _, _. }
  rewrite (bind_run _ _ _ _ _ (Hmal E)). pose proof (malloc_positive s1.(hp).(blocks) (12 + (Z.of_nat (length l) + 1))).
  fold p in H. rewrite (proj2 (Z.eqb_neq (p + 12) 0)) by lia.
  set (g := grown _ _ _). set (g1 := stored g (p + 12 + Z.of_nat (length l)) [0]).
  assert (advanced s1 g1 0) as Had.
  { eapply advanced_fresh; [exact E|done..|by rewrite Z.add_0_r|done|].
    intros x Hx. fold p in Hx. apply byte_at_apart. cbn. lia. }
  change (on_heap (hwrite (p + 12 + Z.of_nat (length l)) [0]) g) with (Ok tt g1 : result zst unit).
  erewrite bind_run by reflexivity.
  destruct (arrived_next s1 g1 [] (l ++ padding (length l)) Hd1 Ha1 Hf1 Had) as [Ha2 Hf2].
  assert (decoding g1) as Hd2.
  { apply (advanced_decoding s1 g1 []); [done| |by exists 0|done]. unfold fits. cbn. destruct Hd1 as (_ & (? & _) & _). cbn in *. lia. }
  rewrite (bind_run _ _ _ _ _ (opaque_decode g1 (p + 12) l Hd2 Ha2 Hf2)). cbn [fst snd mret M_ret].
  set (s2 := stored (skip g1 _) (p + 12) l).
  assert (advanced s1 s2 (length (l ++ padding (length l)))) as Had2.
  { eapply advanced_fresh; [exact E|done..|]. intros x Hx. fold p in Hx. cbn. rewrite !byte_at_apart; cbn; [done|lia..]. }
  split_and!; [done| | |].
  - split; [|done]. rewrite <- Nat.add_1_r, bytes_at_app. f_equal; [cbn; apply bytes_at_stored|].
    unfold bytes_at. cbn. f_equal. rewrite byte_at_apart by lia. rewrite store_bytes_lookup, decide_True by (cbn; lia).
    rewrite Z.add_0_r, Z.sub_diag. done.
  - unfold counted. rewrite length_app, be_bytes_length. eapply advanced_trans; [|exact Had2]. apply (skip_advanced s 4).
  - intros x Hx. apply (allocated_grown s1 p (12 + (Z.of_nat (length l) + 1))). left. lia.
Qed.

Lemma codes_string max : codes (fun p => libnfs_zdr_string p max) c_str.
Proof.
  split.
  - intros m m' p l _ Hx Hl. cbn in *. by apply (c_string_ext m).
  - intros l _. apply counted_words.
  - intros s p l He [Hs H0] Hl Ho Hf. by apply string_encode.
  - intros s p l He H4 [Hs H0] Hl Ho Hf. destruct (string_full s p l max) as (s' & H1 & H2); eauto.
  - intros s p l Hd [Hs H0] Hb Ha Hf. cbn in Hb. subst p. cbn [wire c_str rep foot] in *.
    rewrite (string_length_read s l max) by done. case_bool_decide.
    + pose proof (string_decode_terminated s l Hd H0 Ha Hf H) as Hr. by destruct (string_in_place s l (skip s 4)).
    + by apply string_decode_copied.
Qed.

(** ** Pointers and arrays *)

(** Fresh memory does not disturb what has arrived. *)
Lemma decoding_grown s n :
  let p := malloc_at s.(hp).(blocks) n in p <> 0 -> decoding s ->
  advanced s (grown s p n) 0 /\ decoding (grown s p n).
Proof.
  intros p Hp Hd. assert (advanced s (grown s p n) 0) as Ha.
  { eapply advanced_fresh; [exact Hp|done..|cbn; lia|done|done]. }
  split; [done|]. apply (advanced_decoding s _ []); [done| |by exists 0|done].
  unfold fits. cbn. destruct Hd as (_ & (? & _) & _). lia.
Qed.

(** A decoder that runs in fresh memory. *)
Lemma decode_fresh {A V} proc (c : codec A V) s n a v :
  codes proc c -> let p := malloc_at s.(hp).(blocks) n in p <> 0 ->
  decoding s -> c.(okv) v -> c.(blank) a -> arrived s (c.(wire) v) -> fits s (c.(wire) v) ->
  match proc a (grown s p n) with
  | Ok r s' => r.1 = true /\ c.(rep) s'.(hp).(bytes) r.2 v /\ advanced s s' (length (c.(wire) v)) /\
      (forall x, c.(foot) r.2 v x -> allocated s'.(hp) x)
  | Stuck e => e = Segv /\ out_of_memory
  end.
Proof.
  intros Hc p Hp Hd Hv Hb Ha Hf. destruct (decoding_grown s n Hp Hd) as [Had Hd1].
  destruct (arrived_next s _ [] _ Hd Ha Hf Had) as [Ha1 Hf1].
  pose proof (c_decode _ _ Hc _ a v Hd1 Hv Hb Ha1 Hf1) as H1. fold p in H1.
  destruct (proc a (grown s p n)) as [r s'|e]; [|done]. destruct H1 as (E & Hr & Had2 & Hal).
  split_and!; [done..| |done]. exact (advanced_trans _ _ _ 0 _ Had Had2).
Qed.

Lemma decode_allocated {A B V} proc (c : codec A V) s size a v (dflt : Z -> B) (g : Z -> A -> B) :
  codes proc c -> 0 <= size <= 2 ^ 30 ->
  decoding s -> c.(okv) v -> c.(blank) a -> arrived s (c.(wire) v) -> fits s (c.(wire) v) ->
  match (p ← zdr_malloc size;
         if p =? 0 then mret (false, dflt p) else r ← proc a; mret (r.1, g p r.2) : Zdr (bool * B)) s with
  | Ok r s' => r.1 = true /\ advanced s s' (length (c.(wire) v)) /\
      exists p a', r.2 = g p a' /\ c.(rep) s'.(hp).(bytes) a' v /\ forall x, c.(foot) a' v x -> allocated s'.(hp) x
  | Stuck e => e = Segv /\ out_of_memory
  end.
Proof.
  intros Hc Hsz Hd Hv Hb Ha Hf. destruct (zdr_malloc_run s size Hsz) as [Hnull Hmal]. set (p := malloc_at _ _) in *.
  destruct (decide (p = 0)) as [E|E]; [rewrite (bind_stuck _ _ _ _ (Hnull E)); split; [done|by eexists _, _]|].
  rewrite (bind_run _ _ _ _ _ (Hmal E)). pose proof (malloc_positive s.(hp).(blocks) (12 + size)) as Hpos.
  fold p in Hpos. rewrite (proj2 (Z.eqb_neq (p + 12) 0)) by lia.
  pose proof (decode_fresh _ _ s (12 + size) a v Hc E Hd Hv Hb Ha Hf) as H1. fold p in H1. unfold mbind, M_bind.
  destruct (proc a _) as [r s'|e]; [|done]. destruct H1 as (E1 & Hr & Had & Hal). cbn.
  split_and!; [done..|]. by exists (p + 12), r.2.
Qed.

Definition c_pointer {A V} (c : codec A V) : codec (option A) (option V) := {|
  wire v := match v with None => be_bytes 4 0 | Some v => be_bytes 4 1 ++ c.(wire) v end;
  rep m x v := match x, v with Some a, Some v => c.(rep) m a v | None, None => True | _, _ => False end;
  foot x v := match x, v with Some a, Some v => c.(foot) a v | _, _ => fun _ => False end;
  okv v := match v with None => True | Some v => c.(okv) v end;
  blank _ := True;
|}.

Lemma pointer_encode_eq {A} (zero : A) size proc a s :
  encoding s -> libnfs_zdr_pointer zero size proc (Some a) s =
    (r ← zpair libnfs_zdr_u_int proc (1, a); mret (r.1, Some r.2.2) : Zdr (bool * option A)) s.
Proof.
  intros He. unfold libnfs_zdr_pointer, libnfs_zdr_bool, zpair. rewrite bool_decide_eq_true_2 by done. cbn [zb fst snd].
  unfold mbind, M_bind, gets. destruct (decide (fits s (be_bytes 4 1))) as [Hf|Hf].
  - rewrite (u_int_encode s 1 He) by done. cbn. rewrite (proj1 He). unfold mret, M_ret. cbn. by destruct (proc a _).
  - by rewrite (u_int_full s 1 (be_bytes 4 1) (proj2 He)).
Qed.

Lemma codes_pointer {A V} (zero : A) size proc (c : codec A V) :
  0 <= size < 2 ^ 30 -> c.(blank) zero -> codes proc c -> codes (libnfs_zdr_pointer zero size proc) (c_pointer c).
Proof.
  intros Hsz Hzero Hc. pose proof (codes_pair _ _ _ _ codes_u_int Hc) as Hp. split.
  - intros m m' [a|] [v|]; cbn; try done. apply (c_foot _ _ Hc).
  - intros [v|]; cbn; intros Hv; [|rewrite be_bytes_length; by exists 1].
    by apply (c_words _ _ Hp (1, v)).
  - intros s [a|] [v|] He Hv Hr Ho Hf; cbn in Hv, Hr, Ho; try done; cbn [wire c_pointer] in *.
    + rewrite pointer_encode_eq by done. erewrite bind_run; [|apply (c_encode _ _ Hp s (1, a) (1, v)); try done].
      * done.
      * by intros x [[]|Hx]; apply Ho.
    + unfold libnfs_zdr_pointer, libnfs_zdr_bool. rewrite bool_decide_eq_false_2 by (by intros []). cbn [zb].
      by rewrite (bind_run _ _ _ _ _ (u_int_encode s 0 He ltac:(done) Hf)).
  - intros s [a|] [v|] He H4 Hv Hr Ho Hf; cbn in Hv, Hr, Ho; try done; cbn [wire c_pointer] in *.
    + rewrite pointer_encode_eq by done.
      destruct (c_full _ _ Hp s (1, a) (1, v)) as (a' & s' & H1 & H2); try done.
      * by intros x [[]|Hx]; apply Ho.
      * rewrite (bind_run _ _ _ _ _ H1). eexists _, _. by split.
    + unfold libnfs_zdr_pointer, libnfs_zdr_bool. rewrite bool_decide_eq_false_2 by (by intros []). cbn [zb].
      rewrite (bind_run _ _ _ _ _ (u_int_full s 0 (be_bytes 4 0) (proj2 He) (be_bytes_length 4 0) Hf)).
      eexists _, _. split; [done|apply kept_refl].
  - intros s a [v|] Hd Hv _ Ha Hf; cbn [wire c_pointer okv] in *; unfold libnfs_zdr_pointer, libnfs_zdr_bool.
    + pose proof Ha as [Ha1 _]%arrived_app. pose proof Hf as [Hf1 _]%fits_app.
      rewrite (bind_run _ _ _ _ _ (u_int_decode s _ 1 Hd ltac:(done) Ha1 Hf1)). cbn [fst snd negb Z.eqb].
      destruct (arrived_next _ _ _ _ Hd Ha Hf (skip_advanced s 4)) as [Ha2 Hf2].
      pose proof (word_skip_ok _ _ Hd Hf1) as Hd1. change (Z.of_nat 4) with 4 in *. rewrite gets_bind, (proj1 Hd1).
      pose proof (decode_allocated _ _ _ size zero v (fun _ => None) (fun _ => Some) Hc ltac:(lia) Hd1 Hv Hzero Ha2 Hf2) as H1.
      cbv beta in H1.
      match type of H1 with match ?c with _ => _ end => destruct c as [[b x] s'|e]; [|done] end. destruct H1 as (E1 & Had & p & a' & E2 & Hr & Hal).
      cbn in E2. subst x. split_and!; [done..| |done].
      rewrite length_app, be_bytes_length. exact (advanced_trans _ _ _ 4 _ (skip_advanced s 4) Had).
    + rewrite (bind_run _ _ _ _ _ (u_int_decode s _ 0 Hd ltac:(done) Ha Hf)). cbn. by split_and!.
Qed.

(** The elements of an array, [n] of them. *)
Definition c_items {A V} (c : codec A V) (n : nat) : codec (list A) (list V) := {|
  wire vs := concat (c.(wire) <$> vs);
  rep m l vs := Forall2 (c.(rep) m) l vs;
  foot l vs x := exists i a v, l !! i = Some a /\ vs !! i = Some v /\ c.(foot) a v x;
  okv vs := length vs = n /\ Forall c.(okv) vs;
  blank l := length l = n /\ Forall c.(blank) l;
|}.

Lemma zdr_items_cons {A} (proc : A -> Zdr (bool * A)) room n i a l s :
  room i = true ->
  zdr_items proc room (S n) i (a :: l) s =
    (r ← zpair proc (zdr_items proc room n (i + 1)) (a, l); mret (r.1, r.2.1 :: r.2.2) : Zdr (bool * list A)) s.
Proof.
  intros Hr. cbn [zdr_items]. rewrite access_bind by done. unfold zpair, mbind, M_bind. cbn.
  destruct (proc a s) as [[[] a'] s'|e]; cbn; [|done..]. by destruct (zdr_items _ _ _ _ _ _).
Qed.

Lemma foot_cons {A V} (c : codec A V) n a l v vs x :
  (cpair c (c_items c n)).(foot) (a, l) (v, vs) x -> (c_items c (S n)).(foot) (a :: l) (v :: vs) x.
Proof. intros [Hx|(i & a' & v' & Hl & Hv & Hx)]; cbn; [by exists 0%nat, a, v | by exists (S i), a', v']. Qed.

Lemma codes_items {A V} proc (c : codec A V) room n i :
  codes proc c -> (forall j, i <= j < i + Z.of_nat n -> room j = true) -> codes (zdr_items proc room n i) (c_items c n).
Proof.
  intros Hc. revert i. induction n as [|n IH]; intros i Hroom.
  - split; cbn [c_items wire rep foot okv blank].
    + intros m m' l vs [->%nil_length_inv _] _ Hr. by inversion Hr.
    + intros vs [->%nil_length_inv _]. by exists 0.
    + intros s l vs _ [->%nil_length_inv _] Hr _ _. cbn. by rewrite emit_nil.
    + intros s l vs [_ (? & _)] _ [->%nil_length_inv _] _ _ []. unfold fits. cbn. lia.
    + intros s l vs Hd [->%nil_length_inv _] [->%nil_length_inv _] _ _. cbn.
      split; [done|]. split; [by constructor|]. split; [apply advanced_refl|]. by intros x (j & a & v & Hj & _).
  - assert (room i = true) as Hri by (apply Hroom; lia).
    assert (codes (zdr_items proc room n (i + 1)) (c_items c n)) as Hn by (apply IH; intros j Hj; apply Hroom; lia).
    pose proof (codes_pair _ _ _ _ Hc Hn) as Hp. split.
    + intros m m' l vs [Hlen Hok] Hx Hr. cbn in *. destruct Hr as [|a v l vs Ha Hr]; [done|].
      apply Forall_cons in Hok as [Hv Hok]. injection Hlen as Hlen.
      destruct (c_foot _ _ Hp m m' (a, l) (v, vs)) as [H1 H2]; [by split_and!| |by split|by constructor].
      intros x Hfx. by apply Hx, (foot_cons c n).
    + intros [|v vs] [Hlen Hok]; [done|]. apply Forall_cons in Hok as [Hv Hok]. injection Hlen as Hlen.
      apply (c_words _ _ Hp (v, vs)). by split_and!.
    + intros s l vs He [Hlen Hok] Hr Ho Hf. cbn in Hr. destruct Hr as [|a v l vs Ha Hr]; [done|].
      apply Forall_cons in Hok as [Hv Hok]. injection Hlen as Hlen. rewrite zdr_items_cons by done.
      erewrite bind_run; [|apply (c_encode _ _ Hp s (a, l) (v, vs)); try done]; [done|].
      intros x Hfx. by apply Ho, (foot_cons c n).
    + intros s l vs He H4 [Hlen Hok] Hr Ho Hf. cbn in Hr. destruct Hr as [|a v l vs Ha Hr]; [done|].
      apply Forall_cons in Hok as [Hv Hok]. injection Hlen as Hlen. rewrite zdr_items_cons by done.
      destruct (c_full _ _ Hp s (a, l) (v, vs)) as (a' & s' & H1 & H2); try done.
      * intros x Hfx. by apply Ho, (foot_cons c n).
      * rewrite (bind_run _ _ _ _ _ H1). eexists _, _. by split.
    + intros s [|a l] [|v vs] Hd [Hlen Hok] [Hlen' Hb] Ha Hf; try done.
      apply Forall_cons in Hok as [Hv Hok], Hb as [Hba Hb]. injection Hlen as Hlen. injection Hlen' as Hlen'.
      rewrite zdr_items_cons by done. unfold mbind, M_bind.
      pose proof (c_decode _ _ Hp s (a, l) (v, vs) Hd (conj Hv (conj Hlen Hok)) (conj Hba (conj Hlen' Hb)) Ha Hf) as H1.
      destruct (zpair _ _ _ _) as [[b [a' l']] s'|e]; [|done]. destruct H1 as (E & [Hr1 Hr2] & Had & Hal). cbn in *.
      split_and!; [done|by constructor|done|]. intros x ([|j] & a1 & v1 & Hj & Hj' & Hx); cbn in *.
      * simplify_eq. apply Hal. by left.
      * apply Hal. right. by exists j, a1, v1.
Qed.

Definition c_array {A V} (c : codec A V) (elsize : Z) : codec (zarray A) (list V) := {|
  wire vs := be_bytes 4 (Z.of_nat (length vs)) ++ concat (c.(wire) <$> vs);
  rep m x vs := x.(arr_size) = Z.of_nat (length vs) /\ Forall2 (c.(rep) m) x.(arr_items) vs;
  foot x vs := (c_items c (length vs)).(foot) x.(arr_items) vs;
  okv vs := Z.of_nat (length vs) * elsize < 2 ^ 30 /\ Z.of_nat (length vs) < 2 ^ 30 /\ Forall c.(okv) vs;
  blank _ := True;
|}.

Lemma array_encode_eq {A} (zero : A) elsize proc max (x : zarray A) n s :
  encoding s -> x.(arr_size) = Z.of_nat n -> Z.of_nat n < 2 ^ 30 ->
  libnfs_zdr_array zero elsize proc max x s =
    (r ← zpair libnfs_zdr_u_int (zdr_items proc (fun _ => true) n 0) (Z.of_nat n, x.(arr_items));
     mret (r.1, mk_zarray (Z.of_nat n) x.(arr_ptr) r.2.2) : Zdr (bool * zarray A)) s.
Proof.
  intros He Hn Hb. unfold libnfs_zdr_array, zpair. rewrite Hn. cbn [fst snd]. unfold mbind, M_bind, gets.
  destruct (decide (fits s (be_bytes 4 (Z.of_nat n)))) as [Hf|Hf].
  - rewrite (u_int_encode s (Z.of_nat n) He) by (done || lia). cbn. rewrite (proj1 He), s32_small, Nat2Z.id by lia.
    by destruct (zdr_items _ _ _ _ _ _).
  - by rewrite (u_int_full s _ (be_bytes 4 (Z.of_nat n)) (proj2 He)).
Qed.

(** The elements are inside the block as long as the product does not wrap. *)
Lemma array_room {A V} proc (c : codec A V) elsize n :
  codes proc c -> 0 <= elsize -> Z.of_nat n * elsize < 2 ^ 30 ->
  codes (zdr_items proc (fun i => u32 (i * elsize) + elsize <=? Z.of_nat n * elsize) n 0) (c_items c n).
Proof.
  intros Hc Hel Hn. apply codes_items; [done|]. intros j Hj.
  assert (j * elsize + elsize <= Z.of_nat n * elsize) by nia. rewrite u32_small by nia. by apply Z.leb_le.
Qed.

Lemma codes_array {A V} (zero : A) elsize proc max (c : codec A V) :
  0 <= elsize -> c.(blank) zero -> codes proc c -> codes (libnfs_zdr_array zero elsize proc max) (c_array c elsize).
Proof.
  intros Hel Hzero Hc.
  assert (forall n, codes (zpair libnfs_zdr_u_int (zdr_items proc (fun _ => true) n 0)) (cpair c_u32 (c_items c n))) as Hp
    by (intros n; apply codes_pair; [apply codes_u_int | by apply codes_items]). split.
  - intros m m' x vs (_ & Hn & Hok) Hx [Hs Hr]. split; [done|].
    by apply (c_foot _ _ (codes_items proc c (fun _ => true) (length vs) 0 Hc (fun _ _ => eq_refl)) m).
  - intros vs (_ & Hn & Hok). apply (c_words _ _ (Hp (length vs)) (Z.of_nat (length vs), vs)). split_and!; cbn; (done || lia).
  - intros s x vs He (_ & Hn & Hok) [Hs Hr] Ho Hf. rewrite (array_encode_eq _ _ _ _ _ (length vs)) by done.
    erewrite bind_run; [|apply (c_encode _ _ (Hp (length vs)) s (Z.of_nat (length vs), x.(arr_items)) (Z.of_nat (length vs), vs))]; try done.
    + unfold mret, M_ret. cbn. rewrite <- Hs. by destruct x.
    + split_and!; cbn; (done || lia).
    + by intros a [[]|Hx]; apply Ho.
  - intros s x vs He H4 (_ & Hn & Hok) [Hs Hr] Ho Hf. rewrite (array_encode_eq _ _ _ _ _ (length vs)) by done.
    destruct (c_full _ _ (Hp (length vs)) s (Z.of_nat (length vs), x.(arr_items)) (Z.of_nat (length vs), vs))
      as (a' & s' & H1 & H2); try done.
    + split_and!; cbn; (done || lia).
    + by intros a [[]|Hx]; apply Ho.
    + rewrite (bind_run _ _ _ _ _ H1). eexists _, _. by split.
  - intros s x vs Hd (Hel' & Hn & Hok) _ Ha Hf. cbn [wire c_array] in *. unfold libnfs_zdr_array.
    pose proof Ha as [Ha1 _]%arrived_app. pose proof Hf as [Hf1 _]%fits_app.
    rewrite (bind_run _ _ _ _ _ (u_int_decode s _ (Z.of_nat (length vs)) Hd ltac:(lia) Ha1 Hf1)). cbn [fst snd negb].
    destruct (arrived_next _ _ _ _ Hd Ha Hf (skip_advanced s 4)) as [Ha2 Hf2].
    pose proof (word_skip_ok _ _ Hd Hf1) as Hd1. change (Z.of_nat 4) with 4 in *. rewrite gets_bind, (proj1 Hd1).
    rewrite s32_small, Nat2Z.id, (u32_small (_ * _)) by lia.
    pose proof (decode_allocated _ _ _ (Z.of_nat (length vs) * elsize) (replicate (length vs) zero) vs
      (fun p => mk_zarray (Z.of_nat (length vs)) p []) (mk_zarray (Z.of_nat (length vs)))
      (array_room proc c elsize (length vs) Hc Hel Hel') ltac:(lia) Hd1 (conj eq_refl Hok)
      (conj (length_replicate _ _) (Forall_replicate _ _ _ Hzero)) Ha2 Hf2) as H1.
    cbv beta in H1.
      match type of H1 with match ?c with _ => _ end => destruct c as [[b y] s'|e]; [|done] end.
    destruct H1 as (E1 & Had & p & l' & E2 & Hr & Hal). cbn in E2. subst y. split_and!; [done..| |done].
    rewrite length_app, be_bytes_length. exact (advanced_trans _ _ _ 4 _ (skip_advanced s 4) Had).
Qed.
End codes.
