(* ===== verification/ZdrMsg.v ===== *)
(** * RPC messages on the wire

    Calls, replies and credentials of [Zdr] implement their codecs, and what
    follows: messages survive the round trip; an encoded call is the image
    RFC 5531 gives it, or it does not fit and no byte is written past the buffer
    rounded up to a word; the credential that [libnfs_authunix_create] lays out
    by hand is the one the encoder would have written.  A body is padded past the
    end of a buffer whose size is no multiple of four.  The last part is about
    input no encoder has made: a length whose top bit is set passes the test for
    the end of the buffer, and an array whose size wraps is decoded past its
    block. *)
From S2P Require Import Prelude Bytes Zdr ZdrSpec.
#[local] Arguments le_bytes : simpl never.
#[local] Arguments bytes_at : simpl never.
#[local] Arguments store_bytes : simpl never.

Section messages.
Context {Mal : Allocator} {Fresh : MallocFresh}.

(** ** Messages *)

(** Case analysis on every call of two programs that are the same but for the
    way they are bracketed. *)
Ltac same_calls :=
  repeat match goal with
  | |- context [match ?c ?s with Ok _ _ => _ | Stuck _ => _ end] =>
      lazymatch c with context [match _ with _ => _ end] => fail | _ => destruct (c s) as [[[] ?] ?|]; cbn; try done end
  end.

Definition auth_fields (x : opaque_auth) : Z * (Z * Z) := (x.(oa_flavor), (x.(oa_base), x.(oa_length))).
Definition auth_of (x : Z * (Z * Z)) : opaque_auth := mk_auth x.1 x.2.1 x.2.2.
(** The flavour and the bytes. *)
Definition c_auth : codec opaque_auth (Z * list Z) := cmap auth_fields (cpair c_u32 c_bytes).

Lemma codes_auth : codes libnfs_opaque_auth c_auth.
Proof.
  apply (codes_map auth_fields auth_of (zpair libnfs_zdr_u_int (fun x => libnfs_zdr_bytes x.1 x.2 0))).
  - by intros [? [? ?]].
  - by intros [].
  - intros x s. unfold libnfs_opaque_auth, zmap, zpair, mbind, M_bind. cbn.
    destruct (libnfs_zdr_u_int _ s) as [[[] u] s1|]; cbn; [|done..].
    change (libnfs_zdr_bytes x.(oa_base) x.(oa_length) x.(oa_length)) with (libnfs_zdr_bytes x.(oa_base) x.(oa_length) 0).
    by destruct (libnfs_zdr_bytes _ _ _ s1) as [[b [p n]] s2|].
  - apply codes_pair; [apply codes_u_int | apply codes_bytes].
Qed.

Definition call_fields (x : call_body) : Z * Z * Z * Z * opaque_auth * opaque_auth :=
  (x.(rpcvers), x.(cb_prog), x.(cb_vers), x.(cb_proc), x.(cred), x.(verf)).
Definition call_of (x : Z * Z * Z * Z * opaque_auth * opaque_auth) : call_body :=
  let '(a, b, c, d, e, f) := x in mk_call a b c d e f.
(** RPC version, program, version, procedure, credential, verifier. *)
Definition c_call : codec call_body (Z * Z * Z * Z * (Z * list Z) * (Z * list Z)) :=
  cmap call_fields (cpair (cpair (cpair (cpair (cpair c_u32 c_u32) c_u32) c_u32) c_auth) c_auth).

Lemma codes_call : codes libnfs_rpc_call_body c_call.
Proof.
  apply (codes_map call_fields call_of
    (zpair (zpair (zpair (zpair (zpair
      (fun x => or_error "libnfs_rpc_call_body failed to encode RPCVERS" (libnfs_zdr_u_int x))
      (fun x => or_error "libnfs_rpc_call_body failed to encode PROG" (libnfs_zdr_u_int x)))
      (fun x => or_error "libnfs_rpc_call_body failed to encode VERS" (libnfs_zdr_u_int x)))
      (fun x => or_error "libnfs_rpc_call_body failed to encode PROC" (libnfs_zdr_u_int x)))
      (fun x => or_error "libnfs_rpc_call_body failed to encode CRED" (libnfs_opaque_auth x)))
      (fun x => or_error "libnfs_rpc_call_body failed to encode VERF" (libnfs_opaque_auth x)))).
  - by intros [[[[[? ?] ?] ?] ?] ?].
  - by intros [].
  - intros x s. unfold libnfs_rpc_call_body, zmap, zpair, mbind, M_bind. cbn. same_calls.
  - repeat apply codes_pair; apply codes_or_error; (apply codes_u_int || apply codes_auth).
Qed.

(** No value, nothing to show. *)
Lemma codes_void {A V} proc (c : codec A V) : (forall v, ~ c.(okv) v) -> codes proc c.
Proof. intros Hv. split; intros; exfalso; eapply Hv; eauto. Qed.

(** What comes after the status of an accepted reply. *)
Inductive reply_value (V : Type) := VResults (v : V) | VMismatch (low high : Z) | VNone.
#[global] Arguments VResults {V}.
#[global] Arguments VMismatch {V}.
#[global] Arguments VNone {V}.

Section replies.
Context {R V : Type} (addr : Z) (proc : R -> Zdr (bool * R)) (c : codec R V).
Context (Hproc : codes proc c).

Definition results_proc (d : reply_data R) : Zdr (bool * reply_data R) :=
  match d with Results a p w => r ← p w; mret (r.1, Results a p r.2) | _ => stuck Segv end.
Definition mismatch_proc (d : reply_data R) : Zdr (bool * reply_data R) :=
  lh ← mismatch_member d;
  r ← libnfs_zdr_u_int lh.1;
  if negb r.1 then mret (false, Mismatch_info r.2 lh.2) else
  r' ← libnfs_zdr_u_int lh.2; mret (r'.1, Mismatch_info r.2 r'.2).
Definition data_proc (n : Z) : reply_data R -> Zdr (bool * reply_data R) :=
  if n =? SUCCESS then results_proc else if n =? PROG_MISMATCH then mismatch_proc else fun d => mret (true, d).

(** The object to decode into is the one of the caller. *)
Definition caller_results (d : reply_data R) : Prop := exists w, d = Results addr proc w /\ c.(blank) w.
Definition c_results : codec (reply_data R) (reply_value V) :=
  cinj (Results addr proc) (fun v => match v with VResults v => Some v | _ => None end) caller_results c.
Definition c_mismatch : codec (reply_data R) (reply_value V) :=
  cinj (fun x => Mismatch_info x.1 x.2) (fun v => match v with VMismatch l h => Some (l, h) | _ => None end)
    caller_results (cpair c_u32 c_u32).
Definition c_nothing : codec (reply_data R) (reply_value V) := {|
  wire v := [];
  rep m d v := True;
  foot d v x := False;
  okv v := v = VNone;
  blank := caller_results;
|}.
Definition c_data (n : Z) : codec (reply_data R) (reply_value V) :=
  if n =? SUCCESS then c_results else if n =? PROG_MISMATCH then c_mismatch else c_nothing.

Lemma codes_results : codes results_proc c_results.
Proof using Hproc.
  apply (codes_inj _ _ _ proc); [by intros ?? [= ->] | done | done |].
  intros d s Hd (w & -> & Hw). by exists w.
Qed.

Lemma codes_words : codes (zpair libnfs_zdr_u_int libnfs_zdr_u_int) (cpair c_u32 c_u32).
Proof. apply codes_pair; apply codes_u_int. Qed.

Lemma mismatch_eq l h d s :
  mismatch_member d s = Ok (l, h) s ->
  mismatch_proc d s = zinj (fun x => Mismatch_info x.1 x.2) (zpair libnfs_zdr_u_int libnfs_zdr_u_int) (l, h) s.
Proof.
  intros Hm. unfold mismatch_proc, zinj. rewrite (bind_run _ _ _ _ _ Hm). unfold zpair, mbind, M_bind. cbn. same_calls.
Qed.

Lemma codes_mismatch : codes mismatch_proc c_mismatch.
Proof.
  apply (codes_inj _ _ _ (zpair libnfs_zdr_u_int libnfs_zdr_u_int)); [by intros [] [] [= -> ->] | apply codes_words | |].
  - intros [l h] s _. by apply mismatch_eq.
  - intros d s Hd (w & -> & Hw). exists (0, 0). split; [done|]. apply mismatch_eq.
    unfold mismatch_member, decoding_only. by rewrite gets_bind, (proj1 Hd).
Qed.

Lemma codes_nothing : codes (fun d : reply_data R => mret (true, d)) c_nothing.
Proof.
  split; try done.
  - by exists 0.
  - intros s d v He Hv Hr Ho Hf. cbn. by rewrite emit_nil.
  - intros s d v [_ (Hp & _)] _ Hv Hr Ho []. unfold fits. cbn. lia.
  - intros s d v Hd Hv Hb Ha Hf. cbn. split; [done|]. split; [done|]. split; [apply advanced_refl|done].
Qed.

Lemma codes_data n : codes (data_proc n) (c_data n).
Proof using Hproc.
  unfold data_proc, c_data. destruct (n =? SUCCESS); [apply codes_results|].
  destruct (n =? PROG_MISMATCH); [apply codes_mismatch | apply codes_nothing].
Qed.

Definition accepted_fields (x : accepted_reply R) : opaque_auth * (Z * reply_data R) :=
  (x.(ar_verf), (x.(ar_stat), x.(ar_data))).
Definition accepted_of (x : opaque_auth * (Z * reply_data R)) : accepted_reply R := mk_accepted x.1 x.2.1 x.2.2.
(** Verifier, status and what the status says. *)
Definition c_accepted : codec (accepted_reply R) ((Z * list Z) * (Z * reply_value V)) :=
  cmap accepted_fields (cpair c_auth (ctag c_data)).

Lemma codes_accepted : codes libnfs_accepted_reply c_accepted.
Proof using Hproc.
  apply (codes_map accepted_fields accepted_of (zpair libnfs_opaque_auth (ztag libnfs_zdr_u_int data_proc))).
  - by intros [? [? ?]].
  - by intros [].
  - intros x s. unfold libnfs_accepted_reply, zmap, zpair, ztag, mbind, M_bind. cbn.
    destruct (libnfs_opaque_auth _ s) as [[[] a] s1|]; cbn; [|done..].
    destruct (libnfs_zdr_u_int _ s1) as [[[] n] s2|]; cbn; [|done..].
    unfold data_proc. destruct (n =? SUCCESS).
    + unfold results_proc. destruct x.(ar_data) as [ad p w|l h|]; [|done..]. cbn. unfold mbind, M_bind.
      by destruct (p w s2) as [[b w'] s3|].
    + destruct (n =? PROG_MISMATCH); [|done]. unfold mismatch_proc, mbind, M_bind.
      destruct (mismatch_member _ s2) as [[l h] s3|]; cbn; [|done].
      destruct (libnfs_zdr_u_int l s3) as [[[] l'] s4|]; cbn; [|done..].
      by destruct (libnfs_zdr_u_int h s4) as [[[] h'] s5|].
  - apply codes_pair; [apply codes_auth | apply codes_tag; [apply codes_u_int | intros; apply codes_data]].
Qed.

(** A refused call: the versions the server knows, or why it does not trust us. *)
Definition reject_proc (n : Z) (x : Z * Z) : Zdr (bool * (Z * Z)) :=
  if n =? RPC_MISMATCH then zpair libnfs_zdr_u_int libnfs_zdr_u_int x
  else if n =? AUTH_ERROR then r ← libnfs_zdr_u_int x.1; mret (r.1, (r.2, x.2))
  else mret (true, x).
Definition c_low : codec (Z * Z) (Z * Z) := {|
  wire v := be_bytes 4 v.1;
  rep m x v := x.1 = v.1;
  foot x v a := False;
  okv v := 0 <= v.1 < 2 ^ 32;
  blank x := True;
|}.
Definition c_none : codec (Z * Z) (Z * Z) := {|
  wire v := []; rep m x v := True; foot x v a := False; okv v := True; blank x := True |}.
Definition c_reject (n : Z) : codec (Z * Z) (Z * Z) :=
  if n =? RPC_MISMATCH then cpair c_u32 c_u32 else if n =? AUTH_ERROR then c_low else c_none.

Lemma codes_reject n : codes (reject_proc n) (c_reject n).
Proof.
  unfold reject_proc, c_reject. destruct (n =? RPC_MISMATCH); [|destruct (n =? AUTH_ERROR)].
  - apply codes_words.
  - pose proof codes_u_int as Hu. split; [done|intros v Hv; exact (c_words _ _ Hu v.1 Hv)|..].
    + intros s [l h] [l' h'] He Hv Hr Ho Hf. cbn in Hr. subst l'. cbn.
      by erewrite bind_run by (by apply (c_encode _ _ Hu s l l)).
    + intros s [l h] [l' h'] He H4 Hv Hr Ho Hf. cbn in Hr. subst l'. cbn.
      destruct (c_full _ _ Hu s l l) as (a' & s' & H1 & H2); try done.
      rewrite (bind_run _ _ _ _ _ H1). eexists _, _. by split.
    + intros s [l h] [l' h'] Hd Hv Hb Ha Hf. cbn.
      pose proof (c_decode _ _ Hu s l l' Hd Hv I Ha Hf) as H1. unfold mbind, M_bind.
      destruct (libnfs_zdr_u_int l s) as [[b r] s'|e]; [|done]. cbn in *. naive_solver.
  - split; try done.
    + by exists 0.
    + intros s d v He Hv Hr Ho Hf. cbn. by rewrite emit_nil.
    + intros s d v [_ (Hp & _)] _ Hv Hr Ho []. unfold fits. cbn. lia.
    + intros s d v Hd Hv Hb Ha Hf. cbn. split; [done|]. split; [done|]. split; [apply advanced_refl|done].
Qed.

Definition rejected_fields (x : rejected_reply) : Z * (Z * Z) := (x.(rr_stat), (x.(rr_low), x.(rr_high))).
Definition rejected_of (x : Z * (Z * Z)) : rejected_reply := mk_rejected x.1 x.2.1 x.2.2.
Definition c_rejected : codec rejected_reply (Z * (Z * Z)) := cmap rejected_fields (ctag c_reject).

Lemma codes_rejected : codes libnfs_rejected_reply c_rejected.
Proof.
  apply (codes_map rejected_fields rejected_of (ztag libnfs_zdr_u_int reject_proc)).
  - by intros [? [? ?]].
  - by intros [].
  - intros x s. unfold libnfs_rejected_reply, zmap, ztag, mbind, M_bind. cbn.
    destruct (libnfs_zdr_u_int _ s) as [[[] n] s1|]; cbn; [|done..]. unfold reject_proc.
    destruct (n =? RPC_MISMATCH); [unfold zpair, mbind, M_bind; cbn; same_calls|].
    destruct (n =? AUTH_ERROR); [|done]. unfold mbind, M_bind. cbn. same_calls.
  - apply codes_tag; [apply codes_u_int|]. intros. apply codes_reject.
Qed.

(** *** Replies *)

Definition reply_proc (n : Z) (u : reply_union R) : Zdr (bool * reply_union R) :=
  if n =? MSG_ACCEPTED then
    ar ← deref (match u with Areply a => Some a | Rreply _ => None end);
    r ← or_error "libnfs_rpc_reply_body failed to decode ACCEPTED" (libnfs_accepted_reply ar); mret (r.1, Areply r.2)
  else if n =? MSG_DENIED then
    rr ← rejected_member u;
    r ← or_error "libnfs_rpc_reply_body failed to decode DENIED" (libnfs_rejected_reply rr); mret (r.1, Rreply r.2)
  else
    on_heap (rpc_set_error "libnfs_rpc_reply_body failed to decode. Neither ACCEPTED nor DENIED");; mret (false, u).

Inductive reply_union_value :=
| VAccepted (v : (Z * list Z) * (Z * reply_value V))
| VDenied (v : Z * (Z * Z)).

(** The union as [rpc_process_reply] sets it up. *)
Definition caller_reply (u : reply_union R) : Prop :=
  exists a, u = Areply a /\ a.(ar_verf) = null_auth /\ caller_results a.(ar_data).
Definition c_reply (n : Z) : codec (reply_union R) reply_union_value :=
  if n =? MSG_ACCEPTED then
    cinj Areply (fun v => match v with VAccepted v => Some v | _ => None end) caller_reply c_accepted
  else if n =? MSG_DENIED then
    cinj Rreply (fun v => match v with VDenied v => Some v | _ => None end) caller_reply c_rejected
  else mk_codec (fun _ => []) (fun _ _ _ => True) (fun _ _ _ => False) (fun _ => False) caller_reply.

Lemma caller_accepted a : a.(ar_verf) = null_auth -> caller_results a.(ar_data) -> c_accepted.(blank) a.
Proof.
  intros Hv Hd. split; cbn; [by rewrite Hv|]. intros n. unfold c_data.
  destruct (n =? SUCCESS); [done|]. by destruct (n =? PROG_MISMATCH).
Qed.

Lemma codes_reply n : codes (reply_proc n) (c_reply n).
Proof using Hproc.
  unfold reply_proc, c_reply. destruct (n =? MSG_ACCEPTED); [|destruct (n =? MSG_DENIED)].
  - eapply codes_inj; [by intros ?? [= ->]| | |].
    + apply codes_or_error, codes_accepted.
    + done.
    + intros u s Hd (a & -> & Hv & Hr). exists a. split; [by apply caller_accepted|done].
  - eapply codes_inj; [by intros ?? [= ->]| | |].
    + apply codes_or_error, codes_rejected.
    + done.
    + intros u s Hd (a & -> & Hv & Hr). exists (mk_rejected 0 0 0). split.
      { cbn. intros m. unfold c_reject. destruct (m =? RPC_MISMATCH); [done|]. by destruct (m =? AUTH_ERROR). }
      erewrite bind_run; [done|]. unfold rejected_member. rewrite access_bind by (by rewrite bool_decide_eq_true_2).
      unfold decoding_only. by rewrite gets_bind, (proj1 Hd).
  - apply codes_void. by intros v [].
Qed.

Definition reply_fields (x : reply_body R) : Z * reply_union R := (x.(rb_stat), x.(rb_reply)).
Definition reply_of (x : Z * reply_union R) : reply_body R := mk_reply x.1 x.2.
Definition c_reply_body : codec (reply_body R) (Z * reply_union_value) := cmap reply_fields (ctag c_reply).

Lemma codes_reply_body : codes libnfs_rpc_reply_body c_reply_body.
Proof using Hproc.
  apply (codes_map reply_fields reply_of (ztag (fun x => or_error "libnfs_rpc_reply_body failed to decode STAT"
    (libnfs_zdr_u_int x)) reply_proc)).
  - by intros [].
  - by intros [].
  - intros x s. unfold libnfs_rpc_reply_body, zmap, ztag, mbind, M_bind. cbn.
    destruct (or_error _ _ s) as [[[] n] s1|]; cbn; [|done..]. unfold reply_proc.
    destruct (n =? MSG_ACCEPTED); [|destruct (n =? MSG_DENIED); [|done]]; unfold mbind, M_bind.
    + destruct (deref _ s1) as [a s2|]; [|done]. by destruct (or_error _ _ s2) as [[[] r] s3|].
    + destruct (rejected_member _ s1) as [a s2|]; [|done]. by destruct (or_error _ _ s2) as [[[] r] s3|].
  - apply codes_tag; [apply codes_or_error, codes_u_int | intros; apply codes_reply].
Qed.

(** *** Messages *)

Definition body_proc (n : Z) (b : msg_union R) : Zdr (bool * msg_union R) :=
  if n =? CALL then
    cb ← call_member b;
    r ← or_wrapped "libnfs_rpc_msg failed to encode CALL" (libnfs_rpc_call_body cb); mret (r.1, Cbody r.2)
  else if n =? REPLY then
    rb ← reply_member b;
    r ← or_wrapped "libnfs_rpc_msg failed to decode REPLY" (libnfs_rpc_reply_body rb); mret (r.1, Rbody r.2)
  else
    on_heap (rpc_set_error "libnfs_rpc_msg failed to decode. Neither CALL not REPLY");; mret (false, b).

Definition msg_fields (x : rpc_msg R) : Z * (Z * msg_union R) := (x.(m_xid), (x.(m_direction), x.(m_body))).
Definition msg_of (x : Z * (Z * msg_union R)) : rpc_msg R := mk_msg x.1 x.2.1 x.2.2.

Lemma codes_msg {W} (k : Z -> codec (msg_union R) W) :
  (forall n, 0 <= n < 2 ^ 32 -> codes (body_proc n) (k n)) ->
  codes libnfs_rpc_msg (cmap msg_fields (cpair c_u32 (ctag k))).
Proof.
  intros Hk.
  apply (codes_map msg_fields msg_of
    (zpair (fun x => or_error "libnfs_rpc_msg failed to decode XID" (libnfs_zdr_u_int x))
      (ztag (fun x => or_error "libnfs_rpc_msg failed to decode DIRECTION" (libnfs_zdr_u_int x)) body_proc))).
  - by intros [? [? ?]].
  - by intros [].
  - intros x s. unfold libnfs_rpc_msg, zmap, zpair, ztag, mbind, M_bind. cbn.
    destruct (or_error _ _ s) as [[[] i] s0|]; cbn; [|done..].
    destruct (or_error _ _ s0) as [[[] n] s1|]; cbn; [|done..]. unfold body_proc.
    destruct (n =? CALL); [|destruct (n =? REPLY); [|done]]; unfold mbind, M_bind.
    + destruct (call_member _ s1) as [a s2|]; [|done]. by destruct (or_wrapped _ _ s2) as [[[] r] s3|].
    + destruct (reply_member _ s1) as [a s2|]; [|done]. by destruct (or_wrapped _ _ s2) as [[[] r] s3|].
  - apply codes_pair; [apply codes_or_error, codes_u_int|]. apply codes_tag; [apply codes_or_error, codes_u_int | done].
Qed.

(** A call, and a reply as the client decodes it. *)
Definition c_call_msg : codec (rpc_msg R) (Z * (Z * (Z * Z * Z * Z * (Z * list Z) * (Z * list Z)))) :=
  cmap msg_fields (cpair c_u32 (ctag (fun n =>
    if n =? CALL then cinj Cbody Some (fun b => b = Cbody blank_call) c_call
    else mk_codec (fun _ => []) (fun _ _ _ => True) (fun _ _ _ => False) (fun _ => False) (fun b => b = Cbody blank_call)))).
Definition c_reply_msg : codec (rpc_msg R) (Z * (Z * (Z * reply_union_value))) :=
  cmap msg_fields (cpair c_u32 (ctag (fun n =>
    let b b := exists r, b = Rbody r /\ caller_reply r.(rb_reply) in
    if n =? REPLY then cinj Rbody Some b c_reply_body
    else mk_codec (fun _ => []) (fun _ _ _ => True) (fun _ _ _ => False) (fun _ => False) b))).

Lemma codes_call_msg : codes libnfs_zdr_callmsg c_call_msg.
Proof.
  apply codes_msg. intros n _. unfold body_proc. destruct (n =? CALL); [|apply codes_void; by intros v []].
  eapply codes_inj; [by intros ?? [= ->]|apply codes_or_wrapped, codes_call|done|].
  intros u s Hd ->. exists blank_call. done.
Qed.

Lemma caller_reply_body r : caller_reply r.(rb_reply) -> c_reply_body.(blank) r.
Proof.
  intros Hr n. cbn. unfold c_reply. destruct (n =? MSG_ACCEPTED); [done|]. by destruct (n =? MSG_DENIED).
Qed.

Lemma codes_reply_msg : codes libnfs_zdr_replymsg c_reply_msg.
Proof using Hproc.
  apply codes_msg. intros n _. unfold body_proc. destruct (Z.eqb_spec n REPLY) as [->|Hn]; [|apply codes_void; by intros v []].
  eapply codes_inj; [by intros ?? [= ->]|apply codes_or_wrapped, codes_reply_body|done|].
  intros u s Hd (r & -> & Hr). exists r. split; [by apply caller_reply_body|done].
Qed.
End replies.

(** ** The round trip *)

(** The buffer of [s] from position [p], opened to read. *)
Definition reader (s : zst) (p : Z) : zst :=
  mk_zst (mk_zdr ZDR_DECODE s.(zdrs).(zbuf) s.(zdrs).(zsize) p []) s.(hp).

Lemma reader_decoding s w :
  encoding s -> (forall x, in_buf s.(zdrs) x -> allocated s.(hp) x) -> fits s w ->
  let d := reader (emit s w) s.(zdrs).(zpos) in decoding d /\ arrived d w /\ fits d w.
Proof.
  intros [_ (Hp & Hz & H4)] Hin Hf. cbn. split_and!; try done.
  unfold arrived. cbn. apply bytes_at_stored.
Qed.

Lemma codec_roundtrip {A V} proc (c : codec A V) s a v a0 :
  codes proc c -> encoding s -> (forall x, in_buf s.(zdrs) x -> allocated s.(hp) x) ->
  c.(okv) v -> c.(rep) s.(hp).(bytes) a v -> (forall x, c.(foot) a v x -> ~ in_buf s.(zdrs) x) ->
  fits s (c.(wire) v) -> c.(blank) a0 ->
  exists s1, proc a s = Ok (true, a) s1 /\
    match proc a0 (reader s1 s.(zdrs).(zpos)) with
    | Ok r s2 => r.1 = true /\ c.(rep) s2.(hp).(bytes) r.2 v
    | Stuck e => e = Segv /\ out_of_memory
    end.
Proof.
  intros Hc He Hin Hv Hr Ho Hf Hb. exists (emit s (c.(wire) v)). split; [by apply (c_encode _ _ Hc)|].
  destruct (reader_decoding s (c.(wire) v) He Hin Hf) as (Hd & Ha & Hf').
  pose proof (c_decode _ _ Hc _ a0 v Hd Hv Hb Ha Hf') as H1.
  destruct (proc a0 _) as [r s2|e]; [|done]. by destruct H1 as (? & ? & _).
Qed.

(** C13 A reply is what was sent: whatever a server encodes - accepted with results of
    any type that has a codec, with a version mismatch or another status, or
    denied - the client decodes to a message that stands for the same values,
    unless memory runs out on the way. *)
Theorem replymsg_roundtrip {R V} addr proc (c : codec R V) s msg v w :
  codes proc c -> encoding s -> (forall x, in_buf s.(zdrs) x -> allocated s.(hp) x) ->
  let k := c_reply_msg addr proc c in
  k.(okv) v -> k.(rep) s.(hp).(bytes) msg v -> (forall x, k.(foot) msg v x -> ~ in_buf s.(zdrs) x) ->
  fits s (k.(wire) v) -> c.(blank) w ->
  let reply := mk_msg 0 0 (Rbody (mk_reply 0 (Areply (mk_accepted null_auth 0 (Results addr proc w))))) in
  exists s1, libnfs_zdr_replymsg msg s = Ok (true, msg) s1 /\
    match libnfs_zdr_replymsg reply (reader s1 s.(zdrs).(zpos)) with
    | Ok r s2 => r.1 = true /\ k.(rep) s2.(hp).(bytes) r.2 v
    | Stuck e => e = Segv /\ out_of_memory
    end.
Proof.
  intros Hc He Hin k Hv Hr Ho Hf Hw reply. apply codec_roundtrip; [by apply codes_reply_msg|done..|].
  split; [done|]. intros n. cbn. destruct (n =? REPLY); cbn.
  all: eexists; split; [reflexivity|]; eexists; split_and!; [reflexivity..|]; by exists w.
Qed.

(** ** The image of a call *)

Definition auth_image (flavor : Z) (body : list Z) : list Z := be_bytes 4 flavor ++ counted body.
(** RFC 5531: transaction, CALL, version of the protocol, program, version,
    procedure, credential, verifier. *)
Definition call_image (xid : Z) (x : call_body) (cbytes vbytes : list Z) : list Z :=
  be_bytes 4 xid ++ be_bytes 4 CALL ++ be_bytes 4 x.(rpcvers) ++ be_bytes 4 x.(cb_prog) ++ be_bytes 4 x.(cb_vers) ++
  be_bytes 4 x.(cb_proc) ++ auth_image x.(cred).(oa_flavor) cbytes ++ auth_image x.(verf).(oa_flavor) vbytes.

Definition u32_ok (x : Z) : Prop := 0 <= x < 2 ^ 32.
(** The body of a credential is in memory, outside the buffer. *)
Definition auth_ready (s : zst) (a : opaque_auth) (l : list Z) : Prop :=
  u32_ok a.(oa_flavor) /\ short l /\ a.(oa_length) = Z.of_nat (length l) /\
  bytes_at s.(hp).(bytes) a.(oa_base) (length l) = l /\
  forall x, a.(oa_base) <= x < a.(oa_base) + Z.of_nat (length l) -> ~ in_buf s.(zdrs) x.

(** *** How far an encoder can write *)

Definition round_up (n : Z) : Z := n + (- n) mod 4.

(** Somewhere in the buffer, or behind it by the padding of the last word. *)
Record room (s : zst) : Prop := mk_room {
  ro_op : s.(zdrs).(x_op) = ZDR_ENCODE;
  ro_pos : 0 <= s.(zdrs).(zpos) <= round_up s.(zdrs).(zsize);
  ro_size : 0 <= s.(zdrs).(zsize) < 2 ^ 30;
  ro_word : (4 | s.(zdrs).(zpos)) }.

(** The memory that changes is the rest of the buffer, rounded up to a word. *)
Record kept_words (s s' : zst) : Prop := mk_kept_words {
  kw_buf : s'.(zdrs).(zbuf) = s.(zdrs).(zbuf);
  kw_size : s'.(zdrs).(zsize) = s.(zdrs).(zsize);
  kw_pos : s.(zdrs).(zpos) <= s'.(zdrs).(zpos);
  kw_blocks : s'.(hp).(blocks) = s.(hp).(blocks);
  kw_mem : s'.(zdrs).(zmem) = s.(zdrs).(zmem);
  kw_bytes : forall x,
    ~ (s.(zdrs).(zbuf) + s.(zdrs).(zpos) <= x < s.(zdrs).(zbuf) + round_up s.(zdrs).(zsize)) ->
    byte_at s'.(hp).(bytes) x = byte_at s.(hp).(bytes) x }.

#[local] Instance kept_words_preorder : PreOrder kept_words.
Proof.
  split; [by split|]. intros s1 s2 s3 [B1 Z1 P1 K1 M1 H1] [B2 Z2 P2 K2 M2 H2]. split; try congruence; [lia|].
  intros x Hx. rewrite H2, H1; [done|done|]. rewrite B1, Z1. lia.
Qed.

(** [c] returns, with a value that satisfies [P], and stays in its room. *)
Definition confined {A} (c : Zdr A) (P : A -> Prop) : Prop :=
  forall s, room s -> exists a s', c s = Ok a s' /\ P a /\ room s' /\ kept_words s s'.

Lemma confined_ret {A} (a : A) (P : A -> Prop) : P a -> confined (mret a) P.
Proof. intros Ha s Hs. by exists a, s. Qed.

Lemma confined_bind {A B} (c : Zdr A) (k : A -> Zdr B) P Q :
  confined c P -> (forall a, P a -> confined (k a) Q) -> confined (c ≫= k) Q.
Proof.
  intros Hc Hk s Hs. destruct (Hc s Hs) as (a & s1 & H1 & Ha & Hs1 & K1).
  destruct (Hk a Ha s1 Hs1) as (b & s2 & H2 & Hb & Hs2 & K2). exists b, s2.
  rewrite (bind_run _ _ _ _ _ H1). split; [done|]. split; [done|]. split; [done|]. by etrans.
Qed.

(** Only the error message changes. *)
Lemma confined_message {A} (c : Zdr A) (P : A -> Prop) :
  (forall s, exists a e, c s = Ok a (with_error s e) /\ P a) -> confined c P.
Proof.
  intros Hc s [Ho Hp Hz Hw]. destruct (Hc s) as (a & e & Hrun & Ha). exists a, (with_error s e). split; [done|].
  split; [done|]. by split.
Qed.

Lemma confined_or {A} f (c : Zdr (bool * A)) P :
  (forall s, exists e, f s = Ok tt (with_error s e)) -> confined c P ->
  confined (r ← c; when (negb r.1) f;; mret r) P.
Proof.
  intros Hf Hc. apply (confined_bind _ _ P); [done|]. intros [b a] Ha. apply (confined_bind _ _ (fun _ => True)).
  - destruct b; [by apply confined_ret|]. apply confined_message. intros s. destruct (Hf s) as [e He]. by exists tt, e.
  - intros _ _. by apply confined_ret.
Qed.

Lemma confined_or_error {A} msg (c : Zdr (bool * A)) P : confined c P -> confined (or_error msg c) P.
Proof. apply confined_or. intros s. by exists msg. Qed.
Lemma confined_or_wrapped {A} msg (c : Zdr (bool * A)) P : confined c P -> confined (or_wrapped msg c) P.
Proof. apply confined_or. intros s. eexists. reflexivity. Qed.

Lemma round_up_le n : n <= round_up n < n + 4.
Proof. unfold round_up. pose proof (Z.mod_pos_bound (- n) 4). lia. Qed.

Lemma round_up_small n : n < 2 ^ 30 -> round_up n <= 2 ^ 30.
Proof. unfold round_up. intros Hn. Z.to_euclidean_division_equations; lia. Qed.

Lemma body_in_room p n z : (4 | p) -> 0 <= n -> p + n <= z -> p + n + (- n) mod 4 <= round_up z.
Proof. intros [k ->] Hn Hz. unfold round_up. Z.to_euclidean_division_equations; lia. Qed.

(** Words written at the position. *)
Lemma room_emit s w :
  room s -> (4 | Z.of_nat (length w)) -> s.(zdrs).(zpos) + Z.of_nat (length w) <= round_up s.(zdrs).(zsize) ->
  room (emit s w) /\ kept_words s (emit s w).
Proof.
  intros [Ho Hp Hz Hw] H4 Hf. split.
  - split; cbn; [done | lia | done | by apply Z.divide_add_r].
  - split; cbn; [done | done | lia | done | done |]. intros x Hx. apply byte_at_apart. lia.
Qed.

Lemma confined_u_int u : u32_ok u -> confined (libnfs_zdr_u_int u) (fun r => r.2 = u).
Proof.
  intros Hu s Hs. pose proof Hs as [Ho Hp Hz Hw]. pose proof (round_up_le s.(zdrs).(zsize)) as Hr.
  destruct (Z.le_gt_cases (s.(zdrs).(zpos) + 4) s.(zdrs).(zsize)) as [Hf|Hf].
  - assert (encoding s) as He by (split; [done|]; unfold pos_ok; split_and!; (done || lia)).
    rewrite u_int_encode by (done || unfold fits; rewrite be_bytes_length; lia).
    exists (true, u), (emit s (be_bytes 4 u)). split; [done|]. split; [done|].
    apply room_emit; rewrite ?be_bytes_length; [done | by exists 1 | lia].
  - exists (false, u), s. split; [|done]. unfold libnfs_zdr_u_int. rewrite gets_bind, s32_small by lia.
    by rewrite (proj2 (Z.ltb_lt _ _)) by lia.
Qed.

Lemma confined_bytes p n max : 0 <= n < 2 ^ 30 -> confined (libnfs_zdr_bytes p n max) (fun r => r.2 = (p, n)).
Proof.
  intros Hn. pose proof (Z.mod_pos_bound (- n) 4 ltac:(lia)) as Hm. unfold libnfs_zdr_bytes.
  eapply confined_bind; [apply confined_u_int; unfold u32_ok; lia|].
  intros [b n'] Hn'. cbn in Hn'. subst n'. cbn [fst snd]. destruct b; cbn [negb]; [|by apply confined_ret].
  intros s Hs. pose proof Hs as [Ho Hp Hz Hw]. pose proof (round_up_le s.(zdrs).(zsize)) as Hr.
  pose proof (round_up_small s.(zdrs).(zsize) (proj2 Hz)) as Hr'. rewrite gets_bind, (s32_small n), s32_small by lia.
  destruct (Z.ltb_spec s.(zdrs).(zsize) (s.(zdrs).(zpos) + n)) as [Hf|Hf]; [by exists (false, (p, n)), s|].
  rewrite Ho. set (l := bytes_at s.(hp).(bytes) p (Z.to_nat n)).
  assert (length l = Z.to_nat n) as Hl by apply bytes_at_length.
  assert (Z.of_nat (length (l ++ padding (length l))) = n + (- n) mod 4) as Hlen.
  { rewrite length_app, Nat2Z.inj_add, padding_length, Hl, Z2Nat.id by lia. done. }
  exists (true, (p, n)), (emit s (l ++ padding (length l))). split; [|split; [done|]].
  - unfold emit, move_pos. rewrite Hlen, store_bytes_app, Hl, Z2Nat.id by lia. unfold padding.
    rewrite Z2Nat.id by lia. destruct s as [[op buf sz pos mem] [by_ bl er]]. cbn in *. subst op.
    unfold on_heap, zoom, hread, hwrite, set_pos, zdr_modify, modify, mbind, M_bind. cbn. fold l.
    rewrite pad_land, mod_aligned by (done || lia).
    unfold nz. destruct (Z.eqb_spec ((- n) mod 4) 0) as [E|E]; cbn.
    + rewrite E, Z.add_0_r. done.
    + rewrite s32_small by lia. unfold mret, M_ret. do 3 f_equal; [lia|]. f_equal. lia.
  - apply room_emit; [done| |rewrite Hlen, Z.add_assoc; by apply body_in_room; [|lia|]].
    rewrite Hlen. unfold padding in *. exists ((n + 3) / 4). Z.to_euclidean_division_equations; lia.
Qed.

Lemma confined_auth a : u32_ok a.(oa_flavor) -> 0 <= a.(oa_length) < 2 ^ 30 ->
  confined (libnfs_opaque_auth a) (fun _ => True).
Proof.
  intros Hf Hl. unfold libnfs_opaque_auth. eapply confined_bind; [by apply confined_u_int|].
  intros [b f] _. destruct b; cbn [fst snd negb oa_base oa_length]; [|by apply confined_ret].
  eapply confined_bind; [by apply confined_bytes|]. intros r _. by apply confined_ret.
Qed.

Ltac confined_word :=
  eapply confined_bind; [apply confined_or_error, confined_u_int; assumption|];
  intros [[] ?] ?; simpl in *; subst; [|by apply confined_ret].

Lemma confined_call_body x :
  u32_ok x.(rpcvers) -> u32_ok x.(cb_prog) -> u32_ok x.(cb_vers) -> u32_ok x.(cb_proc) ->
  u32_ok x.(cred).(oa_flavor) -> 0 <= x.(cred).(oa_length) < 2 ^ 30 ->
  u32_ok x.(verf).(oa_flavor) -> 0 <= x.(verf).(oa_length) < 2 ^ 30 ->
  confined (libnfs_rpc_call_body x) (fun _ => True).
Proof.
  intros H1 H2 H3 H4 H5 H6 H7 H8. unfold libnfs_rpc_call_body. do 4 confined_word.
  eapply confined_bind; [by apply confined_or_error, confined_auth|]. intros [[] a] _; simpl; [|by apply confined_ret].
  eapply confined_bind; [by apply confined_or_error, confined_auth|]. intros r _. by apply confined_ret.
Qed.

Lemma confined_callmsg {R} xid x :
  u32_ok xid -> u32_ok x.(rpcvers) -> u32_ok x.(cb_prog) -> u32_ok x.(cb_vers) -> u32_ok x.(cb_proc) ->
  u32_ok x.(cred).(oa_flavor) -> 0 <= x.(cred).(oa_length) < 2 ^ 30 ->
  u32_ok x.(verf).(oa_flavor) -> 0 <= x.(verf).(oa_length) < 2 ^ 30 ->
  confined (libnfs_zdr_callmsg (mk_msg xid CALL (Cbody x) : rpc_msg R)) (fun _ => True).
Proof.
  intros H0 H1 H2 H3 H4 H5 H6 H7 H8. unfold libnfs_zdr_callmsg, libnfs_rpc_msg.
  assert (u32_ok CALL) by done. do 2 confined_word.
  eapply (confined_bind _ _ (fun cb => cb = x)); [by apply confined_ret|]. intros ? ->.
  eapply confined_bind; [by apply confined_or_wrapped, confined_call_body|]. intros r _. by apply confined_ret.
Qed.

(** C24 An encoded call is the image the protocol gives it, written at the position of
    the buffer and nothing else, whenever it fits.  When it does not fit the
    encoder returns and has written nothing outside the rest of the buffer,
    rounded up to a word.  If the size of the buffer is a multiple of four, it
    says that it failed, and nothing outside the buffer is written; for other
    sizes, which [rpc_allocate_pdu2] does not rule out, padding may be written
    past the end (see [zdr_bytes_pads_past_end]). *)
Theorem callmsg_image {R} s xid x cbytes vbytes :
  encoding s -> u32_ok xid -> u32_ok x.(rpcvers) -> u32_ok x.(cb_prog) -> u32_ok x.(cb_vers) -> u32_ok x.(cb_proc) ->
  auth_ready s x.(cred) cbytes -> auth_ready s x.(verf) vbytes ->
  let msg : rpc_msg R := mk_msg xid CALL (Cbody x) in
  let image := call_image xid x cbytes vbytes in
  (fits s image -> libnfs_zdr_callmsg msg s = Ok (true, msg) (emit s image)) /\
  (~ fits s image -> exists ok msg' s', libnfs_zdr_callmsg msg s = Ok (ok, msg') s' /\ kept_words s s' /\
     ((4 | s.(zdrs).(zsize)) -> ok = false /\ kept s s')).
Proof.
  intros He Hx H1 H2 H3 H4 (F1 & S1 & L1 & B1 & O1) (F2 & S2 & L2 & B2 & O2) msg image.
  set (v := (xid, (CALL, (x.(rpcvers), x.(cb_prog), x.(cb_vers), x.(cb_proc),
    (x.(cred).(oa_flavor), cbytes), (x.(verf).(oa_flavor), vbytes))))).
  assert (image = (c_call_msg (R:=R)).(wire) v) as ->.
  { cbn. unfold image, call_image, auth_image. by rewrite <- !app_assoc. }
  assert ((c_call_msg (R:=R)).(okv) v) as Hv.
  { cbn. split; [done|]. split; [done|]. eexists. split; [reflexivity|]. cbn. unfold u32_ok in *. tauto. }
  assert ((c_call_msg (R:=R)).(rep) s.(hp).(bytes) msg v) as Hr.
  { cbn. split; [done|]. split; [done|]. eexists _, _. split; [reflexivity|]. split; [reflexivity|]. cbn. tauto. }
  assert (forall a, (c_call_msg (R:=R)).(foot) msg v a -> ~ in_buf s.(zdrs) a) as Ho.
  { cbn. intros a [[]|(x' & v' & [= <-] & [= <-] & Ha)]. cbn in Ha.
    destruct Ha as [[[[[[]|[]]|[]]|[]]|[[]|Ha]]|[[]|Ha]]; [by apply O1 | by apply O2]. }
  split; [by apply (c_encode _ _ codes_call_msg)|]. intros Hf. pose proof He as [Hop (Hp & Hz & Hw)].
  unfold short in S1, S2. pose proof (round_up_le s.(zdrs).(zsize)).
  destruct (confined_callmsg (R:=R) xid x) with (s := s) as ([ok msg'] & s' & Hrun & _ & _ & K); [done..|lia|done|lia| |].
  { split; [done|lia|lia|done]. }
  exists ok, msg', s'. split; [exact Hrun|]. split; [done|]. intros H4w.
  destruct (c_full _ _ (codes_call_msg (R:=R)) s msg v He H4w Hv Hr Ho Hf) as (m2 & s2 & Hrun2 & K2).
  unfold msg in Hrun2. rewrite Hrun in Hrun2. by injection Hrun2 as -> -> ->.
Qed.

(** The end of a body whose last word is only partly in the buffer. *)
Lemma counted_ends s l :
  pos_ok s.(zdrs) -> fits s (be_bytes 4 (Z.of_nat (length l)) ++ l) -> ~ fits s (counted l) ->
  s.(zdrs).(zpos) + Z.of_nat (length (counted l)) = round_up s.(zdrs).(zsize).
Proof.
  unfold fits, counted, round_up. intros (_ & _ & k & ->). rewrite !length_app, !be_bytes_length, !Nat2Z.inj_add, padding_length.
  intros. Z.to_euclidean_division_equations; lia.
Qed.

(** C26 A body whose last word is only partly in the buffer is accepted: the test
    does not count the padding.  [libnfs_zdr_bytes] reports success with the
    position at the end of that word, behind the buffer.  All bytes between the end
    of the buffer and that position have been set to 0; nothing further out has
    changed. *)
Theorem zdr_bytes_pads_past_end s p l max :
  encoding s -> short l -> (forall x, p <= x < p + Z.of_nat (length l) -> ~ in_buf s.(zdrs) x) ->
  bytes_at s.(hp).(bytes) p (length l) = l ->
  fits s (be_bytes 4 (Z.of_nat (length l)) ++ l) -> ~ fits s (counted l) ->
  exists s', libnfs_zdr_bytes p (Z.of_nat (length l)) max s = Ok (true, (p, Z.of_nat (length l))) s' /\
    s.(zdrs).(zsize) < s'.(zdrs).(zpos) /\ s'.(zdrs).(zpos) = round_up s.(zdrs).(zsize) /\ kept_words s s' /\
    forall i, s.(zdrs).(zsize) <= i < s'.(zdrs).(zpos) -> byte_at s'.(hp).(bytes) (s.(zdrs).(zbuf) + i) = 0.
Proof.
  intros He Hs Ho Hl Hf Hn. exists (emit s (counted l)). split; [by apply bytes_encode_body|].
  destruct He as [Hop Hpos]. pose proof (counted_ends _ _ Hpos Hf Hn) as Hend. unfold fits in Hn, Hf.
  destruct Hpos as (Hp & Hz & Hw). pose proof (round_up_le s.(zdrs).(zsize)).
  split; [cbn; lia|]. split; [exact Hend|]. split.
  { apply room_emit; [split; (done || lia) | apply counted_words | lia]. }
  rewrite length_app, be_bytes_length in Hf. intros i Hi. cbn in Hi |- *.
  assert (length (counted l) = 4 + length l + length (padding (length l)))%nat as Hc.
  { unfold counted. rewrite !length_app, be_bytes_length. lia. }
  rewrite store_bytes_lookup, decide_True by lia. unfold counted.
  rewrite app_assoc, lookup_app_r by (rewrite length_app, be_bytes_length; lia).
  rewrite length_app, be_bytes_length. unfold padding in *. rewrite length_replicate in Hc.
  rewrite lookup_replicate_2; [done|lia].
Qed.

(** ** Input no encoder has made *)

(** A length with its top bit set is taken for a negative number by the test for
    the end of the buffer: [libnfs_zdr_bytes] accepts it, hands out more than two
    gigabytes of a buffer that is smaller, and does not get past the length.
    [libnfs_zdr_string] makes the same test. *)
Theorem zdr_bytes_top_bit s n0 max n :
  decoding s -> 2 ^ 31 <= n < 2 ^ 32 -> arrived s (be_bytes 4 n) -> fits s (be_bytes 4 n) ->
  exists s', libnfs_zdr_bytes 0 n0 max s = Ok (true, (s.(zdrs).(zbuf) + s.(zdrs).(zpos) + 4, n)) s' /\
    s'.(zdrs).(zsize) < n /\ s'.(zdrs).(zpos) <= s.(zdrs).(zpos) + 4 /\ s'.(hp) = s.(hp).
Proof.
  intros Hd Hn Ha Hf. unfold libnfs_zdr_bytes.
  rewrite (bind_run _ _ _ _ _ (u_int_decode s _ n Hd ltac:(lia) Ha Hf)). cbn [fst snd negb].
  destruct (word_skip_ok _ _ Hd Hf) as (Hop & (Hp & Hz & H4) & _).
  destruct s as [[op buf sz pos mem] h]. unfold skip, move_pos in *. cbn in *. subst op. rewrite gets_bind. cbn.
  assert (s32 n = n - 2 ^ 32) as ->.
  { unfold s32, sgn. rewrite Z.mod_small by lia. by rewrite (proj2 (Z.ltb_ge _ _)) by lia. }
  assert (s32 (pos + 4 + n) = pos + 4 + n - 2 ^ 32) as ->.
  { unfold s32, sgn. destruct (Z.lt_ge_cases (pos + 4 + n) (2 ^ 32)).
    - rewrite Z.mod_small by lia. by rewrite (proj2 (Z.ltb_ge _ _)) by lia.
    - assert ((pos + 4 + n) mod 2 ^ 32 = pos + 4 + n - 2 ^ 32) as -> by (symmetry; apply (Z.mod_unique_pos _ _ 1); lia).
      by rewrite (proj2 (Z.ltb_lt _ _)) by lia. }
  rewrite !(s32_small (pos + 4 + _)) by lia. rewrite (proj2 (Z.ltb_ge _ _)) by lia. rewrite s32_small by lia.
  rewrite round_land. eexists. split; [unfold mbind, M_bind; cbn; rewrite Z.add_assoc; reflexivity|]. cbn.
  destruct H4 as [k Hk]. split_and!; try done; [lia|]. Z.to_euclidean_division_equations; lia.
Qed.

(** A loop that has come to its end has been inside the block all the time. *)
Lemma zdr_items_room {A} (proc : A -> Zdr (bool * A)) room n i l s l' s' :
  zdr_items proc room n i l s = Ok (true, l') s' -> forall j, i <= j < i + Z.of_nat n -> room j = true.
Proof.
  revert i l s l'. induction n as [|n IH]; intros i l s l' Hrun j Hj; [lia|]. destruct l as [|a l]; [done|].
  cbn [zdr_items] in Hrun. apply bind_Ok in Hrun as ([] & s1 & [Hr ->]%access_Ok & Hrun).
  destruct (decide (j = i)) as [->|Hne]; [done|].
  apply bind_Ok in Hrun as ([b a'] & s2 & _ & Hrun). destruct b; [|done]. cbn in Hrun.
  apply bind_Ok in Hrun as ([b t] & s3 & Hrun & Hret). cbn in Hret. injection Hret as -> _ ->.
  eapply IH; [exact Hrun|lia].
Qed.

(** An array whose size in bytes wraps around is never decoded: its block is smaller
    than its elements, and before the decoder could return TRUE it has written
    past the end of it. *)
Theorem zdr_array_wraps {A} (zero : A) elsize proc max x s n :
  decoding s -> 0 < elsize -> 0 <= n < 2 ^ 31 -> 2 ^ 32 <= n * elsize ->
  arrived s (be_bytes 4 n) -> fits s (be_bytes 4 n) ->
  forall x' s', libnfs_zdr_array zero elsize proc max x s <> Ok (true, x') s'.
Proof.
  intros Hd Hel Hn Hwrap Ha Hf x' s' Hrun. unfold libnfs_zdr_array in Hrun.
  rewrite (bind_run _ _ _ _ _ (u_int_decode s _ n Hd ltac:(lia) Ha Hf)) in Hrun. cbn [fst snd negb] in Hrun.
  destruct (word_skip_ok _ _ Hd Hf) as (Hop & _). rewrite gets_bind, Hop in Hrun.
  apply bind_Ok in Hrun as (p & s1 & _ & Hrun). destruct (p =? 0); [done|].
  apply bind_Ok in Hrun as ([b l] & s2 & Hrun & Hret). cbn in Hret. injection Hret as -> _ ->.
  pose proof (zdr_items_room _ _ _ _ _ _ _ _ Hrun (u32 (n * elsize) / elsize)) as Hroom.
  rewrite s32_small in Hroom by lia. pose proof (u32_bound (n * elsize)) as Hu. set (B := u32 (n * elsize)) in *.
  pose proof (Z.mul_div_le B elsize Hel). pose proof (Z.mul_succ_div_gt B elsize Hel).
  assert (0 <= B / elsize) by (apply Z.div_pos; lia). assert (B / elsize < n) by nia.
  specialize (Hroom ltac:(lia)). rewrite u32_small in Hroom by nia. apply Z.leb_le in Hroom. nia.
Qed.

(** *** A call where a reply is expected *)

(** A word is read and what is behind it comes next. *)
Lemma word_decode msg s u v w :
  decoding s -> u32_ok v -> arrived s (be_bytes 4 v ++ w) -> fits s (be_bytes 4 v ++ w) ->
  or_error msg (libnfs_zdr_u_int u) s = Ok (true, v) (skip s 4) /\
  decoding (skip s 4) /\ arrived (skip s 4) w /\ fits (skip s 4) w.
Proof.
  intros Hd Hv Ha Hf. pose proof Ha as [Ha1 _]%arrived_app. pose proof Hf as [Hf1 _]%fits_app.
  destruct (arrived_next _ (skip s 4) _ _ Hd Ha Hf) as [Ha2 Hf2]; [rewrite be_bytes_length; apply (skip_advanced s 4)|].
  split_and!; [|by eapply word_skip_ok|done..].
  unfold or_error. by rewrite (bind_run _ _ _ _ _ (u_int_decode s u v Hd Hv Ha1 Hf1)).
Qed.

Lemma or_error_plain {A} msg (c : Zdr (bool * A)) s a s' : or_error msg c s = Ok (true, a) s' -> c s = Ok (true, a) s'.
Proof.
  unfold or_error. intros (r & s1 & Hc & Hr)%bind_Ok. destruct r as [[] a1]; cbn in Hr.
  - by injection Hr as <- <-.
  - apply bind_Ok in Hr as (? & ? & _ & Hr). by injection Hr.
Qed.

Lemma or_error_ok {A} msg (c : Zdr (bool * A)) s a s' : c s = Ok (true, a) s' -> or_error msg c s = Ok (true, a) s'.
Proof. intros E. unfold or_error. by rewrite (bind_run _ _ _ _ _ E). Qed.

(** The body of a credential that is given a place is copied there. *)
Lemma bytes_decode_copy s p n0 l max :
  decoding s -> p <> 0 -> short l -> arrived s (counted l) -> fits s (counted l) ->
  libnfs_zdr_bytes p n0 max s = Ok (true, (p, Z.of_nat (length l))) (stored (skip s (Z.of_nat (length (counted l)))) p l).
Proof.
  intros Hd Hp0 Hs Ha Hf. pose proof Ha as [Ha1 Ha2]%arrived_app. pose proof Hf as [Hf1 Hf2]%fits_app. unfold short in Hs.
  rewrite be_bytes_length, length_app, bytes_at_app in Ha2. apply app_inj_1 in Ha2; [|by rewrite bytes_at_length].
  destruct Ha2 as [Ha2 _]. change (Z.of_nat 4) with 4 in Ha2.
  unfold libnfs_zdr_bytes. rewrite (bind_run _ _ _ _ _ (u_int_decode s _ (Z.of_nat (length l)) Hd ltac:(lia) Ha1 Hf1)).
  cbn [fst snd negb]. destruct (word_skip_ok _ _ Hd Hf1) as (Hop & Hok & _).
  pose proof (fits_padded (skip s 4) l Hf2) as Hf'.
  unfold counted. rewrite !length_app, be_bytes_length, !Nat2Z.inj_add, padding_length.
  destruct Hok as (Hp & Hz & H4). destruct s as [[op buf sz pos mem] [by_ bl er]].
  unfold stored, skip, move_pos in *. cbn in *. subst op. rewrite gets_bind. cbn.
  rewrite !(s32_small (Z.of_nat _)), !(s32_small (pos + 4 + _)), (s32_small (pos + 4 + _ + 3)) by lia.
  rewrite (proj2 (Z.ltb_ge _ _)) by lia. rewrite (proj2 (Z.eqb_neq _ _) Hp0).
  unfold on_heap, zoom, hread, hwrite, set_pos, zdr_modify, modify, mbind, M_bind. cbn.
  rewrite Nat2Z.id, Z.add_assoc, Ha2, round_land, mod_aligned by done. unfold mret, M_ret. do 3 f_equal. lia.
Qed.

Lemma skip_skip s a b : skip (skip s a) b = skip s (a + b).
Proof. destruct s as [[op buf sz pos mem] h]. unfold skip, move_pos. cbn. do 2 f_equal. lia. Qed.

Lemma auth_decode s n0 f l w :
  decoding s -> u32_ok f -> short l -> arrived s (auth_image f l ++ w) -> fits s (auth_image f l ++ w) ->
  let s' := skip s (Z.of_nat (length (auth_image f l))) in
  (exists a, libnfs_opaque_auth (mk_auth 0 0 n0) s = Ok (true, a) s') /\ decoding s' /\ arrived s' w /\ fits s' w.
Proof.
  intros Hd Hv Hs Ha Hf s'.
  destruct (arrived_next _ s' _ _ Hd Ha Hf (skip_advanced _ _)) as [Ha2 Hf2].
  split_and!; [| |done..].
  - unfold auth_image in Ha, Hf. rewrite <- app_assoc in Ha, Hf.
    destruct (word_decode "" s 0 f (counted l ++ w) Hd Hv Ha Hf) as (Hr%or_error_plain & Hd1 & Ha1 & Hf1).
    apply arrived_app in Ha1 as [Ha1 _]. apply fits_app in Hf1 as [Hf1 _].
    unfold libnfs_opaque_auth. cbn [oa_flavor oa_base oa_length]. rewrite (bind_run _ _ _ _ _ Hr). cbn [fst snd negb].
    eexists. rewrite (bind_run _ _ _ _ _ (bytes_decode (skip s 4) n0 l n0 Hd1 Hs Ha1 Hf1)).
    unfold mret, M_ret. subst s'. unfold auth_image. rewrite skip_skip, length_app, be_bytes_length, Nat2Z.inj_add. done.
  - apply fits_app in Hf as [Hf _]. eapply advanced_decoding; [done|exact Hf| |apply skip_advanced].
    unfold auth_image. rewrite length_app, be_bytes_length, Nat2Z.inj_add.
    apply Z.divide_add_r; [by exists 1 | apply counted_words].
Qed.

Lemma auth_decode_copy s p f l :
  decoding s -> p <> 0 -> u32_ok f -> short l -> arrived s (auth_image f l) -> fits s (auth_image f l) ->
  exists a s', libnfs_opaque_auth (mk_auth 0 p 0) s = Ok (true, a) s' /\ bytes_at s'.(hp).(bytes) p (length l) = l.
Proof.
  intros Hd Hp Hv Hs Ha Hf. unfold auth_image in Ha, Hf.
  destruct (word_decode "" s 0 f (counted l) Hd Hv Ha Hf) as (E%or_error_plain & Hd1 & Ha1 & Hf1).
  unfold libnfs_opaque_auth. cbn [oa_flavor oa_base oa_length]. rewrite (bind_run _ _ _ _ _ E). cbn [fst snd negb].
  rewrite (bind_run _ _ _ _ _ (bytes_decode_copy _ p 0 l 0 Hd1 Hp Hs Ha1 Hf1)).
  eexists _, _. split; [reflexivity|]. cbn. apply bytes_at_stored.
Qed.

(** Read one word of the message under way and go on behind it. *)
Ltac next_word Hd Hv Ha Hf :=
  let E := fresh in let Hd' := fresh in let Ha' := fresh in let Hf' := fresh in
  edestruct word_decode as (E & Hd' & Ha' & Hf'); [exact Hd|exact Hv|exact Ha|exact Hf|];
  rewrite (bind_run _ _ _ _ _ E); clear E Hd Ha Hf; rename Hd' into Hd, Ha' into Ha, Hf' into Hf;
  cbn [fst snd negb m_xid m_direction m_body rpcvers cb_prog cb_vers cb_proc cred verf].

Lemma call_body_confused s addr x cbytes vbytes :
  decoding s -> addr <> 0 ->
  u32_ok x.(rpcvers) -> u32_ok x.(cb_prog) -> u32_ok x.(cb_vers) -> u32_ok x.(cb_proc) ->
  u32_ok x.(cred).(oa_flavor) -> short cbytes -> u32_ok x.(verf).(oa_flavor) -> short vbytes ->
  let image := be_bytes 4 x.(rpcvers) ++ be_bytes 4 x.(cb_prog) ++ be_bytes 4 x.(cb_vers) ++ be_bytes 4 x.(cb_proc) ++
    auth_image x.(cred).(oa_flavor) cbytes ++ auth_image x.(verf).(oa_flavor) vbytes in
  arrived s image -> fits s image ->
  exists c s', libnfs_rpc_call_body (mk_call 0 0 0 0 (mk_auth 0 0 0) (mk_auth 0 addr 0)) s = Ok (true, c) s' /\
    bytes_at s'.(hp).(bytes) addr (length vbytes) = vbytes.
Proof.
  intros Hd Haddr H1 H2 H3 H4 F1 S1 F2 S2 image Ha Hf. unfold image in *. unfold libnfs_rpc_call_body.
  cbn [rpcvers cb_prog cb_vers cb_proc cred verf].
  next_word Hd H1 Ha Hf. next_word Hd H2 Ha Hf. next_word Hd H3 Ha Hf. next_word Hd H4 Ha Hf.
  destruct (auth_decode _ 0 _ _ _ Hd F1 S1 Ha Hf) as ([a E] & Hd1 & Ha1 & Hf1).
  rewrite (bind_run _ _ _ _ _ (or_error_ok _ _ _ _ _ E)). clear E Hd Ha Hf. cbn [fst snd negb cred verf].
  destruct (auth_decode_copy _ addr _ _ Hd1 Haddr F2 S2 Ha1 Hf1) as (a2 & s2 & E & Hb).
  rewrite (bind_run _ _ _ _ _ (or_error_ok _ _ _ _ _ E)). by eexists _, s2.
Qed.

(** C25 A server that answers with a call instead of a reply writes into the client's
    code: the verifier of the call lies in the union where the reply has the
    address of the function that decodes the results, so its bytes are copied
    there. *)
Theorem reply_type_confusion {R} s addr proc (w : R) xid x cbytes vbytes :
  decoding s -> addr <> 0 -> u32_ok xid ->
  u32_ok x.(rpcvers) -> u32_ok x.(cb_prog) -> u32_ok x.(cb_vers) -> u32_ok x.(cb_proc) ->
  u32_ok x.(cred).(oa_flavor) -> short cbytes -> u32_ok x.(verf).(oa_flavor) -> short vbytes ->
  arrived s (call_image xid x cbytes vbytes) -> fits s (call_image xid x cbytes vbytes) ->
  let reply := mk_msg 0 0 (Rbody (mk_reply 0 (Areply (mk_accepted null_auth 0 (Results addr proc w))))) in
  exists msg s', libnfs_zdr_replymsg reply s = Ok (true, msg) s' /\
    bytes_at s'.(hp).(bytes) addr (length vbytes) = vbytes.
Proof.
  intros Hd Haddr Hx H1 H2 H3 H4 F1 S1 F2 S2 Ha Hf reply. unfold call_image in Ha, Hf.
  unfold libnfs_zdr_replymsg, libnfs_rpc_msg. cbn [m_xid m_direction m_body reply].
  assert (u32_ok CALL) as Hcall by done. next_word Hd Hx Ha Hf. next_word Hd Hcall Ha Hf. cbn [Z.eqb CALL].
  match goal with |- context [mbind ?k (call_member ?b) ?s] => assert (call_member b s = Ok
    (mk_call 0 0 0 0 (mk_auth 0 0 0) (mk_auth 0 addr 0)) s) as E end.
  { cbn. unfold decoding_only. by rewrite gets_bind, (proj1 Hd). }
  rewrite (bind_run _ _ _ _ _ E). clear E. unfold or_wrapped.
  destruct (call_body_confused _ addr x cbytes vbytes Hd Haddr H1 H2 H3 H4 F1 S1 F2 S2 Ha Hf) as (c & s' & E & Hb).
  eexists _, s'. split; [|exact Hb]. erewrite bind_run by (rewrite (bind_run _ _ _ _ _ E); reflexivity). reflexivity.
Qed.

(** ** Credentials *)

(** At [p] is [done], then zeros up to [n] bytes; the rest is as in [m0]. *)
Definition filled (m0 m : gmap Z Z) (p : Z) (n : nat) (done : list Z) : Prop :=
  (length done <= n)%nat /\ bytes_at m p n = done ++ replicate (n - length done) 0 /\
  forall x, ~ (p <= x < p + Z.of_nat n) -> byte_at m x = byte_at m0 x.

(** A range stored inside a range that is known. *)
Lemma bytes_at_splice m p l1 l2 l3 l :
  bytes_at m p (length l1 + length l2 + length l3) = l1 ++ l2 ++ l3 -> length l = length l2 ->
  bytes_at (store_bytes m (p + Z.of_nat (length l1)) l) p (length l1 + length l2 + length l3) = l1 ++ l ++ l3.
Proof.
  intros Hm Hl. rewrite !bytes_at_app in Hm |- *. rewrite <- app_assoc in Hm |- *.
  apply app_inj_1 in Hm as [Hm1 Hm]; [|apply bytes_at_length]. apply app_inj_1 in Hm as [Hm2 Hm3]; [|apply bytes_at_length].
  f_equal; [|f_equal].
  - rewrite <- Hm1 at 3. apply bytes_at_apart. intros x Hx. lia.
  - rewrite <- Hl. apply bytes_at_stored.
  - rewrite <- Hm3 at 2. apply bytes_at_apart. intros x Hx. lia.
Qed.

Lemma filled_step m0 m p n done l :
  filled m0 m p n done -> (length done + length l <= n)%nat ->
  filled m0 (store_bytes m (p + Z.of_nat (length done)) l) p n (done ++ l).
Proof.
  intros (Hn & Hm & Hx) Hl. unfold filled. rewrite length_app. split_and!; [lia| |].
  - replace (n - length done)%nat with (length l + (n - (length done + length l)))%nat in Hm by lia.
    rewrite replicate_add in Hm. rewrite <- app_assoc.
    pose proof (bytes_at_splice m p done (replicate (length l) 0) (replicate (n - (length done + length l)) 0) l) as H.
    rewrite !length_replicate in H. replace (length done + length l + (n - (length done + length l)))%nat with n in H by lia.
    by apply H.
  - intros x Ho. rewrite byte_at_apart by lia. by apply Hx.
Qed.

(** Zeros that are there already need not be written. *)
Lemma filled_zeros m0 m p n done k :
  filled m0 m p n done -> (length done + k <= n)%nat -> filled m0 m p n (done ++ replicate k 0).
Proof.
  intros (Hn & Hm & Hx) Hl. unfold filled. rewrite length_app, length_replicate. split_and!; [lia| |done].
  rewrite Hm, <- app_assoc, <- replicate_add. do 2 f_equal. lia.
Qed.

(** [h] with the memory [m]. *)
Definition with_bytes (h : heap) (m : gmap Z Z) : heap := {| h with bytes := m |}.

(** [c] returns [v] and takes the block from [d] to [d']. *)
Definition fills {A} (m0 : gmap Z Z) (p : Z) (n : nat) (c : M heap A) (v : A) (d d' : list Z) : Prop :=
  forall h, filled m0 h.(bytes) p n d -> exists m, c h = Ok v (with_bytes h m) /\ filled m0 m p n d'.

Lemma fills_seq {A B} m0 p n (c : M heap A) (k : A -> M heap B) u v d d1 d2 :
  fills m0 p n c u d d1 -> fills m0 p n (k u) v d1 d2 -> fills m0 p n (mbind k c) v d d2.
Proof.
  intros H1 H2 h Hf. destruct (H1 h Hf) as (m1 & E1 & F1). destruct (H2 (with_bytes h m1) F1) as (m2 & E2 & F2).
  exists m2. by rewrite (bind_run _ _ _ _ _ E1), E2.
Qed.

Lemma fills_ret {A} m0 p n (v : A) d : fills m0 p n (mret v) v d d.
Proof. intros h Hf. exists h.(bytes). by destruct h. Qed.

Lemma fills_word m0 p n idx x d :
  Z.of_nat (length d) = 4 * idx -> (length d + 4 <= n)%nat -> u32_ok x ->
  fills m0 p n (put_word p idx x) tt d (d ++ be_bytes 4 x).
Proof.
  intros Hidx Hn Hx h Hf. eexists. split; [reflexivity|]. rewrite u32_small, htonl_wire, <- Hidx by done.
  apply filled_step; [done|]. by rewrite be_bytes_length.
Qed.

Lemma fills_groups m0 p n idx gs d :
  Z.of_nat (length d) = 4 * idx -> (length d + 4 * length gs <= n)%nat -> Forall u32_ok gs ->
  fills m0 p n (put_groups p idx (length gs) gs) tt d (d ++ concat (be_bytes 4 <$> gs)).
Proof.
  revert d idx. induction gs as [|g gs IH]; intros d idx Hidx Hn Hgs; cbn [length put_groups fmap list_fmap concat] in *.
  - rewrite app_nil_r. apply fills_ret.
  - apply Forall_cons in Hgs as [Hg Hgs]. eapply fills_seq; [apply fills_word; [done|lia|done]|].
    rewrite app_assoc. apply IH; [rewrite length_app, be_bytes_length; lia..|done].
Qed.

(** Memory outside the block is still there to be read. *)
Lemma fills_read m0 p n a l d :
  bytes_at m0 a (length l) = l -> (forall x, a <= x < a + Z.of_nat (length l) -> ~ (p <= x < p + Z.of_nat n)) ->
  fills m0 p n (hread a (Z.of_nat (length l))) l d d.
Proof.
  intros Hl Hx h Hf. exists h.(bytes). split; [|done]. unfold hread. rewrite get_bind, Nat2Z.id. unfold mret, M_ret.
  f_equal; [|by destruct h]. etrans; [|exact Hl]. apply bytes_at_ext. intros x Hr. apply Hf. by apply Hx.
Qed.

(** A string copied to a place behind [d], with room left up to the next word. *)
Lemma fills_write m0 p n l d k a :
  a = p + Z.of_nat (length d) -> (length d + length l + k <= n)%nat ->
  fills m0 p n (hwrite a l) tt d (d ++ l ++ replicate k 0).
Proof.
  intros -> Hn h Hf. eexists. split; [reflexivity|]. rewrite app_assoc. apply filled_zeros.
  - apply filled_step; [done|lia].
  - rewrite length_app. lia.
Qed.

(** RFC 5531, [authsys_parms]: stamp, machine, user, group, groups. *)
Definition c_authsys : codec (Z * (Z * (Z * (Z * zarray Z)))) (Z * (list Z * (Z * (Z * list Z)))) :=
  cpair c_u32 (cpair c_str (cpair c_u32 (cpair c_u32 (c_array c_u32 4)))).
Definition zdr_authsys : Z * (Z * (Z * (Z * zarray Z))) -> Zdr (bool * (Z * (Z * (Z * (Z * zarray Z))))) :=
  zpair libnfs_zdr_u_int (zpair (fun p => libnfs_zdr_string p 255) (zpair libnfs_zdr_u_int (zpair libnfs_zdr_u_int
    (libnfs_zdr_array 0 4 libnfs_zdr_u_int 16)))).

Lemma codes_authsys : codes zdr_authsys c_authsys.
Proof.
  repeat apply codes_pair; try apply codes_u_int; [apply codes_string|].
  apply codes_array; [done|done|apply codes_u_int].
Qed.

Lemma groups_length gs : length (concat (be_bytes 4 <$> gs)) = (4 * length gs)%nat.
Proof. induction gs as [|g gs IH]; [done|]. cbn. rewrite length_app, be_bytes_length, IH. lia. Qed.

Lemma authsys_length now l uid gid gs :
  Z.of_nat (length (c_authsys.(wire) (now, (l, (uid, (gid, gs)))))) =
    4 + 4 + Z.land (Z.of_nat (length l) + 3) (-4) + 4 + 4 + 4 + Z.of_nat (length gs) * 4.
Proof.
  cbn -[Z.land Z.of_nat]. unfold counted. rewrite !length_app, !be_bytes_length, round_land, groups_length.
  pose proof (padding_length (length l)). lia.
Qed.

(** Words, the name, and words again. *)
Lemma authsys_filled {A} m0 base host now l uid gid gs (v : A) :
  let w := c_authsys.(wire) (now, (l, (uid, (gid, gs)))) in
  u32_ok now -> short l -> u32_ok uid -> u32_ok gid -> Forall u32_ok gs -> Z.of_nat (length gs) < 2 ^ 27 ->
  bytes_at m0 host (length l) = l ->
  (forall x, host <= x < host + Z.of_nat (length l) -> ~ (base <= x < base + Z.of_nat (length w))) ->
  let idx := 2 + Z.shiftr (Z.of_nat (length l) + 3) 2 in
  fills m0 base (length w)
    (put_word base 0 now;; put_word base 1 (Z.of_nat (length l));;
     name ← hread host (Z.of_nat (length l)); hwrite (base + 8) name;;
     put_word base idx uid;; put_word base (idx + 1) gid;; put_word base (idx + 2) (Z.of_nat (length gs));;
     put_groups base (idx + 3) (length gs) gs;; mret v) v [] w.
Proof.
  intros w Hnow Hl Huid Hgid Hgs Hlen Hhost Hapart idx. unfold short in Hl.
  assert (Z.of_nat (length w) = 20 + (Z.of_nat (length l) + (- Z.of_nat (length l)) mod 4) + Z.of_nat (length gs) * 4) as Hw
    by (unfold w; rewrite authsys_length, round_land; lia).
  pose proof (padding_length (length l)) as Hpad. pose proof (Z.mod_pos_bound (- Z.of_nat (length l)) 4 ltac:(lia)) as Hm.
  assert (4 * idx = 8 + Z.of_nat (length l) + (- Z.of_nat (length l)) mod 4) as Hidx.
  { unfold idx. rewrite Z.shiftr_div_pow2 by lia. change (2 ^ 2) with 4. Z.to_euclidean_division_equations; lia. }
  eapply fills_seq; [apply fills_word; [done|unfold length at 1; lia|done]|]. cbn [app].
  eapply fills_seq; [apply fills_word; [by rewrite be_bytes_length|rewrite be_bytes_length; lia|unfold u32_ok; lia]|].
  set (d := be_bytes 4 now ++ be_bytes 4 (Z.of_nat (length l))).
  assert (length d = 8%nat) as Hd by (unfold d; by rewrite length_app, !be_bytes_length).
  eapply fills_seq; [by apply fills_read|].
  eapply fills_seq; [apply (fills_write _ _ _ _ _ (Z.to_nat ((- Z.of_nat (length l)) mod 4))); lia|].
  eapply fills_seq; [apply fills_word; [rewrite !length_app, length_replicate; lia.. | done]|].
  eapply fills_seq; [apply fills_word; [rewrite !length_app, length_replicate, be_bytes_length; lia.. | done]|].
  eapply fills_seq; [apply fills_word; [rewrite !length_app, length_replicate, !be_bytes_length; lia.. | unfold u32_ok; lia]|].
  eapply fills_seq; [apply fills_groups; [rewrite !length_app, length_replicate, !be_bytes_length; lia.. | done]|].
  assert (w = ((((d ++ l ++ padding (length l)) ++ be_bytes 4 uid) ++ be_bytes 4 gid) ++ be_bytes 4 (Z.of_nat (length gs))) ++
    concat (be_bytes 4 <$> gs)) as Ew by (unfold w, d; cbn; unfold counted; by rewrite <- !app_assoc).
  rewrite Ew at 2. apply fills_ret.
Qed.

Lemma hstrlen_heap h p l : c_string h.(bytes) p l -> hstrlen p h = Ok (Z.of_nat (length l)) h.
Proof.
  intros Hl. unfold hstrlen. rewrite get_bind. pose proof (c_string_size _ _ _ Hl).
  by rewrite (strlen_in_string _ _ l) by (done || lia).
Qed.

Lemma hmalloc_used_run h n :
  let p := malloc_at h.(blocks) n in
  (p = 0 -> hmalloc_used n h = Stuck Segv) /\
  (p <> 0 -> hmalloc_used n h = Ok p {| h with blocks := (p, n) :: h.(blocks) |}).
Proof.
  cbn. unfold hmalloc_used, hmalloc. split; intros Hp.
  - unfold mbind, M_bind. cbn. by rewrite Hp.
  - unfold mbind, M_bind. cbn. rewrite (proj2 (Z.eqb_neq _ _) Hp). cbn. by rewrite (proj2 (Z.eqb_neq _ _) Hp).
Qed.

(** C18 The credential that [libnfs_authunix_create] lays out word by word is, byte for
    byte, what the encoder writes for the same parameters, in a fresh block of
    exactly that size; nothing that was in use changes. *)
Theorem authunix_as_encoded h now host l uid gid gs :
  c_string h.(bytes) host l -> (forall x, host <= x < host + Z.of_nat (length l) -> allocated h x) ->
  short l -> u32_ok now -> u32_ok uid -> u32_ok gid -> Forall u32_ok gs -> Z.of_nat (length gs) < 2 ^ 27 ->
  let w := c_authsys.(wire) (now, (l, (uid, (gid, gs)))) in
  match libnfs_authunix_create now host uid gid (Z.of_nat (length gs)) gs h with
  | Ok (p, auth) h' =>
      auth.(ah_cred).(oa_flavor) = AUTH_UNIX /\ auth.(ah_cred).(oa_length) = Z.of_nat (length w) /\
      bytes_at h'.(bytes) auth.(ah_cred).(oa_base) (length w) = w /\ auth.(ah_verf) = null_auth /\
      h'.(blocks) = (auth.(ah_cred).(oa_base), Z.of_nat (length w)) :: (p, SIZEOF_AUTH) :: h.(blocks) /\
      (forall x, allocated h x -> byte_at h'.(bytes) x = byte_at h.(bytes) x)
  | Stuck e => e = Segv /\ out_of_memory
  end /\
  (forall s p ptr, encoding s -> c_string s.(hp).(bytes) p l -> fits s w ->
     (forall x, p <= x < p + Z.of_nat (length l) + 1 -> ~ in_buf s.(zdrs) x) ->
     let a := (now, (p, (uid, (gid, mk_zarray (Z.of_nat (length gs)) ptr gs)))) in
     zdr_authsys a s = Ok (true, a) (emit s w)).
Proof.
  intros Hl Hal Hs Hnow Huid Hgid Hgs Hlen w. split.
  - pose proof Hs as Hs'. unfold short in Hs'. unfold libnfs_authunix_create.
    rewrite (bind_run _ _ _ _ _ (hstrlen_heap h host l Hl)), (u32_small (_ * 4)) by lia.
    rewrite <- (authsys_length now l uid gid gs). fold w.
    assert (Z.of_nat (length w) < 2 ^ 31) as Hw.
    { unfold w. rewrite authsys_length, round_land. pose proof (Z.mod_pos_bound (- Z.of_nat (length l)) 4). lia. }
    rewrite s32_small, u64_small, u32_small, Nat2Z.id, Nat2Z.id by lia.
    destruct (hmalloc_used_run h SIZEOF_AUTH) as [Hnull Hok]. set (p := malloc_at _ SIZEOF_AUTH) in *.
    destruct (decide (p = 0)) as [E|E]; [rewrite (bind_stuck _ _ _ _ (Hnull E)); split; [done|by eexists _, _]|].
    rewrite (bind_run _ _ _ _ _ (Hok E)). clear Hnull Hok. set (h1 := {| h with blocks := _ |}).
    destruct (hmalloc_used_run h1 (Z.of_nat (length w))) as [Hnull Hok]. set (base := malloc_at _ (Z.of_nat _)) in *.
    destruct (decide (base = 0)) as [E'|E']; [rewrite (bind_stuck _ _ _ _ (Hnull E')); split; [done|by eexists _, _]|].
    rewrite (bind_run _ _ _ _ _ (Hok E')). clear Hnull Hok. set (h2 := {| h1 with blocks := _ |}).
    assert (forall x, allocated h x -> ~ (base <= x < base + Z.of_nat (length w))) as Hfresh.
    { intros x (q & k & Hq & Hx). apply (malloc_disjoint h1.(blocks) (Z.of_nat (length w)) q k); [done|by right|done]. }
    set (m1 := store_bytes h2.(bytes) base (replicate (length w) 0)).
    rewrite (bind_run _ _ _ tt (with_bytes h2 m1)) by done.
    destruct (authsys_filled h.(bytes) base host now l uid gid gs
      (p, mk_AUTH (mk_auth AUTH_UNIX base (Z.of_nat (length w))) (mk_auth AUTH_NONE 0 0) 0) Hnow Hs Huid Hgid Hgs Hlen
      (c_string_bytes _ _ _ Hl)) with (h := with_bytes h2 m1) as (m & Er & Hn & Hm & Hx).
    + intros x Hx. by apply Hfresh, Hal.
    + split_and!; [cbn; lia| |].
      * change (bytes_at m1 base (length w) = replicate (length w - 0) 0). rewrite Nat.sub_0_r.
        rewrite <- (length_replicate (length w) 0) at 1. apply bytes_at_stored.
      * intros x Hx. apply byte_at_apart. rewrite length_replicate. done.
    + fold w in Er, Hm, Hx, Hn. rewrite Er. cbn. rewrite Nat.sub_diag, app_nil_r in Hm. split_and!; try done.
      intros x Ha. apply Hx. by apply Hfresh.
  - intros s p ptr He Hp Hf Ho a. apply (c_encode _ _ codes_authsys s a (now, (l, (uid, (gid, gs))))); try done.
    + cbn. unfold u32_ok in *. split_and!; try done; try lia. apply Hl.
    + intros x Hx. cbn in Hx. apply Ho. destruct Hx as [[]|[Hx|[[]|[[]|(i & ? & ? & _ & _ & [])]]]]. done.
Qed.

End messages.

(** ** A concrete heap *)

(** The block behind all others. *)
#[local] Instance behind_all : Allocator := fun l n => foldr (fun b m => Z.max (1 + b.1) (Z.max (b.1 + b.2) m)) 65536 l.

Lemma behind_all_spec l p k : (p, k) ∈ l -> p < behind_all l 0 /\ p + k <= behind_all l 0.
Proof.
  unfold behind_all. induction l as [|[q j] l IH]; [by intros ?%not_elem_of_nil|]. cbn.
  intros [[= -> ->]|Hp]%elem_of_cons; [lia|]. specialize (IH Hp). lia.
Qed.

#[local] Instance behind_all_fresh : MallocFresh.
Proof.
  split.
  - intros l n. cbn. unfold malloc_at, behind_all. induction l as [|b l IH]; cbn; lia.
  - intros l n p k _ Hp. destruct (behind_all_spec l p k Hp) as [H1 _]. change (malloc_at l n) with (behind_all l 0). lia.
  - intros l n p k x _ Hp Hx. destruct (behind_all_spec l p k Hp) as [_ H1]. change (malloc_at l n) with (behind_all l 0). lia.
Defined.

(** A buffer of 128 bytes, and a name outside of it. *)
Definition sample_heap (l : list Z) : heap := mk_heap (store_bytes (store_bytes ∅ 4096 l) 8192 [110; 102; 115]) [(4096, 128); (8192, 4)] "".
Definition sample_buf (op : zdr_op) (l : list Z) : zst := mk_zst (mk_zdr op 4096 128 0 []) (sample_heap l).

Lemma sample_encoding l : encoding (sample_buf ZDR_ENCODE l).
Proof. split; [done|]. repeat split; try done. by exists 0. Defined.
Lemma sample_in_buf op l x : in_buf (sample_buf op l).(zdrs) x -> allocated (sample_buf op l).(hp) x.
Proof. intros Hx. exists 4096, 128. split; [left|exact Hx]. Defined.
Lemma sample_decoding l : decoding (sample_buf ZDR_DECODE l).
Proof. split; [done|]. split; [apply (sample_encoding l) | apply sample_in_buf]. Defined.

(** A word as the result of a call. *)
Lemma replymsg_roundtrip_witness :
  exists s1,
    let msg := mk_msg 7 REPLY (Rbody (mk_reply MSG_ACCEPTED (Areply (mk_accepted null_auth SUCCESS (Results 64 libnfs_zdr_u_int 42))))) in
    libnfs_zdr_replymsg msg (sample_buf ZDR_ENCODE []) = Ok (true, msg) s1 /\
    match libnfs_zdr_replymsg (mk_msg 0 0 (Rbody (mk_reply 0 (Areply (mk_accepted null_auth 0 (Results 64 libnfs_zdr_u_int 0))))))
      (reader s1 0) with
    | Ok r s2 => r.1 = true /\ (c_reply_msg 64 libnfs_zdr_u_int c_u32).(rep) s2.(hp).(bytes) r.2
        (7, (REPLY, (MSG_ACCEPTED, VAccepted ((0, []), (SUCCESS, VResults 42)))))
    | Stuck e => e = Segv /\ out_of_memory
    end.
Proof.
  eapply (replymsg_roundtrip 64 libnfs_zdr_u_int c_u32 (sample_buf ZDR_ENCODE []) _
    (7, (REPLY, (MSG_ACCEPTED, VAccepted ((0, []), (SUCCESS, VResults 42))))) 0 codes_u_int (sample_encoding [])
    (sample_in_buf ZDR_ENCODE [])).
  - repeat (split; try done). eexists. split; [reflexivity|]. repeat (split; try done).
    eexists. split; [reflexivity|]. repeat (split; try done). eexists. by split.
  - repeat (split; try done). eexists _, _. split; [reflexivity|]. split; [reflexivity|]. repeat (split; try done).
    eexists _, _. split; [reflexivity|]. split; [reflexivity|]. repeat (split; try done). by eexists _, _.
  - intros x Hx. exfalso. cbn in Hx. destruct Hx as [[]|(a & v & [= <-] & [= <-] & Hx)]. cbn in Hx.
    destruct Hx as (a & v & [= <-] & [= <-] & Hx). cbn in Hx. destruct Hx as [[[]|Hx]|(a & v & [= <-] & [= <-] & [])].
    cbn in Hx. lia.
  - unfold fits. vm_compute. discriminate.
  - done.
Defined.

Lemma callmsg_image_witness :
  let x := mk_call 2 100003 3 1 (mk_auth 1 8192 3) (mk_auth 0 0 0) in
  let msg : rpc_msg Z := mk_msg 7 CALL (Cbody x) in
  libnfs_zdr_callmsg msg (sample_buf ZDR_ENCODE []) =
    Ok (true, msg) (emit (sample_buf ZDR_ENCODE []) (call_image 7 x [110; 102; 115] [])).
Proof.
  apply (callmsg_image (R:=Z) (sample_buf ZDR_ENCODE []) 7 (mk_call 2 100003 3 1 (mk_auth 1 8192 3) (mk_auth 0 0 0)) [110; 102; 115] []);
    try done.
  - apply sample_encoding.
  - split_and!; try done. intros x Hx Hin. unfold in_buf in Hin. cbn in *. lia.
  - split_and!; try done. intros x Hx Hin. cbn in *. lia.
Defined.

(** A buffer of ten bytes. *)
Definition odd_buf : zst :=
  let s := sample_buf ZDR_ENCODE [] in let z := s.(zdrs) in {| s with zdrs := {| z with zsize := 10 |} |}.

Lemma zdr_bytes_pads_past_end_witness :
  exists s', libnfs_zdr_bytes 8192 5 0 odd_buf = Ok (true, (8192, 5)) s' /\
    10 < s'.(zdrs).(zpos) /\ s'.(zdrs).(zpos) = 12 /\ kept_words odd_buf s' /\
    forall i, 10 <= i < s'.(zdrs).(zpos) -> byte_at s'.(hp).(bytes) (odd_buf.(zdrs).(zbuf) + i) = 0.
Proof.
  apply (zdr_bytes_pads_past_end odd_buf 8192 (bytes_at odd_buf.(hp).(bytes) 8192 5) 0).
  - split; [done|]. split; [split; vm_compute; discriminate|]. split; [done|]. by exists 0.
  - done.
  - intros x Hx Hin. unfold in_buf in Hin. cbn in Hx, Hin. lia.
  - vm_compute. reflexivity.
  - unfold fits. vm_compute. discriminate.
  - unfold fits. vm_compute. intros H. by apply H.
Defined.

Lemma zdr_bytes_top_bit_witness :
  exists s', libnfs_zdr_bytes 0 0 0 (sample_buf ZDR_DECODE [255; 255; 255; 252]) = Ok (true, (4100, 4294967292)) s' /\
    s'.(zdrs).(zsize) < 4294967292 /\ s'.(zdrs).(zpos) <= 4 /\ s'.(hp) = (sample_buf ZDR_DECODE [255; 255; 255; 252]).(hp).
Proof.
  apply (zdr_bytes_top_bit (sample_buf ZDR_DECODE [255; 255; 255; 252]) 0 0 4294967292); try done.
  apply sample_decoding.
Defined.

Lemma zdr_array_wraps_witness :
  forall x' s', libnfs_zdr_array 0 4 libnfs_zdr_u_int 0 (mk_zarray 0 0 []) (sample_buf ZDR_DECODE [64; 0; 0; 0]) <> Ok (true, x') s'.
Proof.
  apply (zdr_array_wraps 0 4 libnfs_zdr_u_int 0 (mk_zarray 0 0 []) (sample_buf ZDR_DECODE [64; 0; 0; 0]) (2 ^ 30)); try done.
  apply sample_decoding.
Defined.

Definition foreign_call : call_body := mk_call 2 100003 3 1 null_auth (mk_auth 0 0 4).

Lemma reply_type_confusion_witness :
  exists msg s',
    libnfs_zdr_replymsg (mk_msg 0 0 (Rbody (mk_reply 0 (Areply (mk_accepted null_auth 0 (Results 64 libnfs_zdr_u_int 0))))))
      (sample_buf ZDR_DECODE (call_image 7 foreign_call [] [1; 2; 3; 4])) = Ok (true, msg) s' /\
    bytes_at s'.(hp).(bytes) 64 4 = [1; 2; 3; 4].
Proof.
  apply (reply_type_confusion (sample_buf ZDR_DECODE (call_image 7 foreign_call [] [1; 2; 3; 4])) 64 libnfs_zdr_u_int 0
    7 foreign_call [] [1; 2; 3; 4]); try done.
  apply sample_decoding.
Defined.

Lemma authunix_as_encoded_witness :
  match libnfs_authunix_create 5 8192 1000 100 1 [10] (sample_heap []) with
  | Ok (p, auth) h' =>
      auth.(ah_cred).(oa_length) = 28 /\ bytes_at h'.(bytes) auth.(ah_cred).(oa_base) 28 =
        [0; 0; 0; 5; 0; 0; 0; 3; 110; 102; 115; 0; 0; 0; 3; 232; 0; 0; 0; 100; 0; 0; 0; 1; 0; 0; 0; 10]
  | Stuck e => e = Segv /\ out_of_memory
  end.
Proof.
  assert (c_string (sample_heap []).(bytes) 8192 [110; 102; 115]) as Hl.
  { split; [reflexivity|]. by repeat (apply not_elem_of_cons; split); [..|apply not_elem_of_nil]. }
  assert (forall x, 8192 <= x < 8192 + 3 -> allocated (sample_heap []) x) as Hal.
  { intros x Hx. exists 8192, 4. split; [right; left|lia]. }
  pose proof (authunix_as_encoded (sample_heap []) 5 8192 [110; 102; 115] 1000 100 [10] Hl Hal ltac:(done) ltac:(done)
    ltac:(done) ltac:(done) ltac:(by constructor) ltac:(done)) as [H _].
  change (Z.of_nat (length [10])) with 1 in H. revert H.
  destruct (libnfs_authunix_create _ _ _ _ _ _ _) as [[p auth] h'|]; [|done]. intros (_ & Hn & Hb & _).
  split; [exact Hn | exact Hb].
Defined.
