(* ===== verification/Rpc.v ===== *)
(** * Remote procedure calls

    The client side of [libnfs/lib/pdu.c], [socket.c] and [init.c]: calls that
    wait to be sent or answered, the stream they travel on, and what happens when
    it breaks.  The [rpc_context] and the calls ([rpc_pdu]) are records; calls are
    linked through [p_next] as in the code, and a queue has its two ends.  The
    memory of messages is the heap of [Zdr].

    The sockets and the clock are the class [Net], the callbacks of the users of
    the library the class [Callbacks]: they may do whatever they like to the
    context.  Log output is left out, what the code formats into its messages as
    well, and so are the functions of a server ([rpc_process_call] and what it
    answers with), which SOS is not. *)
From S2P Require Import Prelude Bytes Zdr.

(** ** Constants *)

Definition RPC_CONTEXT_MAGIC : Z := 0xc6e46435.
Definition RPC_PARAM_UNDEFINED : Z := -1.
Definition HASHES : Z := 1024.
Definition NFS_MAX_XFER_SIZE : Z := 1024 * 1024.
Definition ZDR_ENCODEBUF_MINSIZE : Z := 4096.
Definition MAX_UDP_SIZE : Z := 65536.
Definition RPC_MSG_VERSION : Z := 2.
Definition PDU_DISCARD_AFTER_SENDING : Z := 1.
Definition RPC_STATUS_SUCCESS : Z := 0.
Definition RPC_STATUS_ERROR : Z := 1.
Definition RPC_STATUS_CANCEL : Z := 2.
Definition RPC_STATUS_TIMEOUT : Z := 3.
Definition SIZEOF_RPC_PDU : Z := 120.
Definition SIZEOF_RPC_FRAGMENT : Z := 24.
Definition SIZEOF_RPC_CONTEXT : Z := 16968.
Definition POLLIN : Z := 1.
Definition POLLOUT : Z := 4.
Definition POLLERR : Z := 8.
Definition POLLHUP : Z := 16.
Definition EINTR : Z := 4.
Definition EAGAIN : Z := 11.
Definition EACCES : Z := 13.
Definition EINPROGRESS : Z := 115.
Definition AF_INET : Z := 2.
Definition AF_INET6 : Z := 10.
Definition IPPORT_RESERVED : Z := 1024.

Definition PAD_TO_8_BYTES (x : Z) : Z := Z.land (x + 7) (-8).

(** ** The world outside *)

Inductive netop :=
| Rpc_current_time
| Create_socket | Set_bind_device | Set_tcp_sockopt | Dup2 | Close | Getservbyport | Bind | Set_nonblocking | Set_nolinger
| Connect | Getsockopt_error | Sendto | Getaddrinfo | Getuid | Getgid | Getpid.

(** A call answers with its result and [errno] ([Getsockopt_error] with its result
    and the error it has stored, [Getaddrinfo] with its result and the family of
    the address); [recv] with the bytes it has put into the buffer, or with
    [errno]. *)
Class Net (W : Type) := {
  net : netop -> list Z -> W -> Z * Z * W;
  net_send : Z -> list Z -> W -> Z * Z * W;
  net_recv : Z -> Z -> W -> (list Z + Z) * W;
  (** 1000 when there is no [clock_gettime], else 0 *)
  clock_slack : Z;
  (** where the string literal "libnfs" is *)
  libnfs_literal : Z;
}.

(** ** State *)

Section rpc_state.
Context (R W : Type).

Record rpc_pdu := mk_pdu {
  p_next : Z;
  p_xid : Z;
  p_zdr : ZDR;
  written : Z;
  out_size : Z;          (* outdata.size *)
  out_data : Z;          (* outdata.data *)
  p_cb : Z;
  p_private : Z;
  zdr_decode_addr : Z;   (* zdr_decode_fn, the pointer *)
  zdr_decode_fn : R -> M zst (bool * R);
  zdr_decode_buf : option R;
  zdr_decode_bufsize : Z;
  p_flags : Z;
  p_timeout : Z;
}.

Record rpc_queue := mk_queue { q_head : Z; q_tail : Z }.

(** Whom to tell that the connection stands. *)
Inductive connect_callback := No_cb | Reconnect_cb | User_cb (cb private : Z).

Record rpc_context := mk_ctx {
  self : Z;              (* its address *)
  magic : Z;
  fd : Z;
  old_fd : Z;
  is_connected : Z;
  is_nonblocking : Z;
  connect_cb : connect_callback;
  auth : Z;              (* the pointer *)
  auth_data : AUTH;      (* what it points to *)
  xid : Z;
  outqueue : rpc_queue;
  waitpdu : list rpc_queue;
  waitpdu_len : Z;
  inpos : Z;
  rm_buf : list Z;
  inbuf : Z;
  is_udp : Z;
  is_broadcast : Z;
  auto_reconnect : Z;
  num_retries : Z;
  fragments : list (Z * (Z * Z));   (* structure, data and size *)
  tcp_syncnt : Z;
  c_uid : Z;
  c_gid : Z;
  readahead : Z;
  pagecache : Z;
  pagecache_ttl : Z;
  rpc_timeout : Z;
  is_server_context : Z;
  s_family : Z;          (* s.ss_family *)
}.

(** [port_ofs] is the static [portOfs] of [rpc_connect_sockaddr_async], [salt] the
    one of [rpc_init_context]. *)
Record rpc := mk_rpc {
  ctx : rpc_context;
  pdus : gmap Z rpc_pdu;
  mem : heap;
  port_ofs : Z;
  salt : Z;
  world : W;
}.

(** What a callback is given. *)
Inductive cb_data := Cb_result (r : option R) | Cb_message (s : string) | Cb_null.
End rpc_state.
Arguments mk_pdu {R}.
Arguments p_next {R}.
Arguments p_xid {R}.
Arguments p_zdr {R}.
Arguments written {R}.
Arguments out_size {R}.
Arguments out_data {R}.
Arguments p_cb {R}.
Arguments p_private {R}.
Arguments zdr_decode_addr {R}.
Arguments zdr_decode_fn {R}.
Arguments zdr_decode_buf {R}.
Arguments zdr_decode_bufsize {R}.
Arguments p_flags {R}.
Arguments p_timeout {R}.
Arguments mk_rpc {R W}.
Arguments ctx {R W}.
Arguments pdus {R W}.
Arguments mem {R W}.
Arguments port_ofs {R W}.
Arguments salt {R W}.
Arguments world {R W}.
Arguments Cb_result {R}.
Arguments Cb_message {R}.
Arguments Cb_null {R}.

(** [run_cb]: the function a user has registered, called with status, data and its
    own argument.  [rpc_process_call]: what a server does with a message.
    [zero_result]: the object of zero bytes that results are decoded into. *)
Class Callbacks (R W : Type) := {
  run_cb : Z -> Z -> cb_data R -> Z -> M (rpc R W) unit;
  rpc_process_call : ZDR -> M (rpc R W) (Z * ZDR);
  zero_result : R;
}.

Section rpc.
Context {R W : Type} `{Allocator} `{Net W} `{Callbacks R W}.
Abbreviation Rpc := (M (rpc R W)).

(** ** Access *)

Definition ctx_modify (f : rpc_context -> rpc_context) : Rpc unit := modify (fun s => {| s with ctx := f s.(ctx) |}).
Definition on_mem {A} (c : M heap A) : Rpc A := zoom mem (fun h s => {| s with mem := h |}) c.
Definition set_error (msg : string) : Rpc unit := on_mem (rpc_set_error msg).
Definition get_error : Rpc string := on_mem rpc_get_error.
Definition call (op : netop) (args : list Z) : Rpc (Z * Z) :=
  fun s => let '(r, e, w) := net op args s.(world) in Ok (r, e) {| s with world := w |}.
Definition check_magic : Rpc unit := c ← gets ctx; assert (c.(magic) =? RPC_CONTEXT_MAGIC).

Definition pdu_at (p : Z) : Rpc (rpc_pdu R) := s ← get; deref (s.(pdus) !! p).
Definition pdu_modify (p : Z) (f : rpc_pdu R -> rpc_pdu R) : Rpc unit :=
  x ← pdu_at p; modify (fun s => {| s with pdus := <[p := f x]> s.(pdus) |}).
Definition set_next (p n : Z) : Rpc unit := pdu_modify p (fun x => {| x with p_next := n |}).

(** The queues of a context. *)
Inductive queue_loc := Out | Wait (hash : Z).
Definition queue_at (l : queue_loc) : Rpc rpc_queue :=
  c ← gets ctx; match l with Out => mret c.(outqueue) | Wait h => deref (c.(waitpdu) !! Z.to_nat h) end.
Definition queue_put (l : queue_loc) (q : rpc_queue) : Rpc unit :=
  ctx_modify (fun c => match l with
    | Out => {| c with outqueue := q |}
    | Wait h => {| c with waitpdu := <[Z.to_nat h := q]> c.(waitpdu) |}
    end).

(** A computation on a [ZDR] of one's own. *)
Definition run_zdr {A} (z : ZDR) (c : M zst A) : Rpc (A * ZDR) :=
  fun s => match c (mk_zst z s.(mem)) with
           | Ok a t => Ok (a, t.(zdrs)) {| s with mem := t.(hp) |}
           | Stuck e => Stuck e
           end.
Definition with_pdu_zdr {A} (p : Z) (c : M zst A) : Rpc A :=
  x ← pdu_at p; r ← run_zdr x.(p_zdr) c;
  pdu_modify p (fun x => {| x with p_zdr := r.2 |});; mret r.1.
Definition rpc_current_time : Rpc Z := r ← call Rpc_current_time []; mret (u64 r.1).

(** ** Queues *)

Definition rpc_reset_queue (l : queue_loc) : Rpc unit := queue_put l (mk_queue 0 0).

Definition rpc_enqueue (l : queue_loc) (pdu : Z) : Rpc unit :=
  q ← queue_at l;
  q ← (if q.(q_head) =? 0 then mret {| q with q_head := pdu |}
       else set_next q.(q_tail) pdu;; mret q);
  queue_put l {| q with q_tail := pdu |};;
  set_next pdu 0.

Definition rpc_return_to_queue (l : queue_loc) (pdu : Z) : Rpc unit :=
  q ← queue_at l;
  set_next pdu q.(q_head);;
  let q := {| q with q_head := pdu |} in
  queue_put l (if q.(q_tail) =? 0 then {| q with q_tail := pdu |} else q).

Definition rpc_hash_xid (xid : Z) : Z := u32 (xid * 7919) mod HASHES.

(** ** Calls *)

Definition null_zdr : ZDR := mk_zdr ZDR_ENCODE 0 0 0 [].

Definition rpc_free_pdu (pdu : Z) : Rpc unit :=
  check_magic;;
  x ← pdu_at pdu;
  on_mem (hfree x.(out_data));;
  with_pdu_zdr pdu libnfs_zdr_destroy;;
  on_mem (hfree pdu);;
  modify (fun s => {| s with pdus := delete pdu s.(pdus) |}).

Definition rpc_allocate_pdu2 (program version procedure cb private decode_addr : Z) (decode_fn : R -> M zst (bool * R))
    (decode_bufsize alloc_hint : Z) : Rpc Z :=
  check_magic;;
  let pdu_size := s32 (s32 (PAD_TO_8_BYTES SIZEOF_RPC_PDU) + PAD_TO_8_BYTES decode_bufsize) in
  pdu ← on_mem (hmalloc (u64 pdu_size));
  if pdu =? 0 then set_error "Out of memory: Failed to allocate pdu structure";; mret 0 else
  c ← gets ctx;
  ctx_modify (fun c => {| c with xid := u32 (c.(xid) + 1) |});;
  modify (fun s => {| s with pdus :=
    <[pdu := mk_pdu 0 c.(xid) null_zdr 0 0 0 cb private decode_addr decode_fn None (u32 decode_bufsize) 0 0]> s.(pdus) |});;
  data ← on_mem (hmalloc (u64 (ZDR_ENCODEBUF_MINSIZE + alloc_hint)));
  pdu_modify pdu (fun x => {| x with out_data := data |});;
  if data =? 0 then
    set_error "Out of memory: Failed to allocate encode buffer";;
    on_mem (hfree pdu);;
    modify (fun s => {| s with pdus := delete pdu s.(pdus) |});;
    mret 0
  else
  with_pdu_zdr pdu (libnfs_zdrmem_create data (u32 (ZDR_ENCODEBUF_MINSIZE + alloc_hint)) ZDR_ENCODE);;
  when (c.(is_udp) =? 0) (_ ← with_pdu_zdr pdu (libnfs_zdr_setpos 4); mret tt);;
  access (negb (c.(auth) =? 0));;
  let msg : rpc_msg R := mk_msg c.(xid) CALL (Cbody (mk_call RPC_MSG_VERSION (u32 program) (u32 version) (u32 procedure)
    c.(auth_data).(ah_cred) c.(auth_data).(ah_verf))) in
  r ← with_pdu_zdr pdu (libnfs_zdr_callmsg msg);
  if negb r.1 then
    e ← get_error;
    set_error ("zdr_callmsg failed with " +:+ e);;
    with_pdu_zdr pdu libnfs_zdr_destroy;;
    on_mem (hfree data);;
    on_mem (hfree pdu);;
    modify (fun s => {| s with pdus := delete pdu s.(pdus) |});;
    mret 0
  else mret pdu.

Definition rpc_allocate_pdu (program version procedure cb private decode_addr : Z) (decode_fn : R -> M zst (bool * R))
    (decode_bufsize : Z) : Rpc Z :=
  rpc_allocate_pdu2 program version procedure cb private decode_addr decode_fn decode_bufsize 0.

Definition rpc_set_next_xid (x : Z) : Rpc unit := ctx_modify (fun c => {| c with xid := x |}).

Definition rpc_queue_pdu (pdu : Z) : Rpc Z :=
  check_magic;;
  c ← gets ctx;
  t ← (if 0 <? c.(rpc_timeout) then t ← rpc_current_time; mret (u64 (t + c.(rpc_timeout) + clock_slack)) else mret 0);
  pdu_modify pdu (fun x => {| x with p_timeout := t |});;
  n ← with_pdu_zdr pdu libnfs_zdr_getpos;
  let size := s32 n in
  if negb (c.(is_udp) =? 0) then
    x ← pdu_at pdu;
    r ← call Sendto [c.(fd); x.(p_zdr).(zbuf); size];
    if r.1 <? 0 then
      set_error "Sendto failed with errno";;
      rpc_free_pdu pdu;;
      mret (-1)
    else
    rpc_enqueue (Wait (rpc_hash_xid x.(p_xid))) pdu;;
    ctx_modify (fun c => {| c with waitpdu_len := u32 (c.(waitpdu_len) + 1) |});;
    mret 0
  else
  _ ← with_pdu_zdr pdu (libnfs_zdr_setpos 0);
  let recordmarker := s32 (Z.lor (u32 (size - 4)) 0x80000000) in
  _ ← with_pdu_zdr pdu (libnfs_zdr_int recordmarker);
  pdu_modify pdu (fun x => {| x with out_size := size |});;
  rpc_enqueue Out pdu;;
  mret 0.

(** The bytes of the record marker. *)
Definition rpc_get_pdu_size (buf : list Z) : Z := u32 (Z.land (ntohl (le_value buf)) 0x7fffffff + 4).

(** ** Fragments *)

Definition rpc_free_fragment (f : Z * (Z * Z)) : Rpc unit :=
  when (negb (f.2.1 =? 0)) (on_mem (hfree f.2.1));;
  on_mem (hfree f.1).

Definition rpc_free_all_fragments : Rpc unit :=
  check_magic;;
  c ← gets ctx;
  for_each c.(fragments) (fun f =>
    ctx_modify (fun c => {| c with fragments := tail c.(fragments) |});;
    rpc_free_fragment f).

Definition rpc_add_fragment (data size : Z) : Rpc Z :=
  check_magic;;
  fragment ← on_mem (hmalloc SIZEOF_RPC_FRAGMENT);
  if fragment =? 0 then mret (-1) else
  d ← on_mem (hmalloc size);
  if d =? 0 then on_mem (hfree fragment);; mret (-1) else
  l ← on_mem (hread data size);
  on_mem (hwrite d l);;
  ctx_modify (fun c => {| c with fragments := c.(fragments) ++ [(fragment, (d, size))] |});;
  mret 0.

(** ** Replies *)

(** The fields of the decoded message that decide; in a call they are other
    fields at the same place. *)
Definition reply_stat (b : msg_union R) : Z :=
  match b with Rbody r => r.(rb_stat) | Cbody c => c.(rpcvers) end.
Definition accept_stat (b : msg_union R) : Z :=
  match b with
  | Rbody (mk_reply _ (Areply a)) => a.(ar_stat)
  | Rbody (mk_reply _ (Rreply r)) => 0
  | Cbody c => c.(cred).(oa_length)
  end.
Definition decoded (b : msg_union R) : option R :=
  match b with Rbody (mk_reply _ (Areply (mk_accepted _ _ (Results _ _ w)))) => Some w | _ => None end.

Definition accept_message (stat : Z) : string :=
  if stat =? PROG_UNAVAIL then "Server responded: Program not available"
  else if stat =? PROG_MISMATCH then "Server responded: Program version mismatch"
  else if stat =? PROC_UNAVAIL then "Server responded: Procedure not available"
  else if stat =? GARBAGE_ARGS then "Server responded: Garbage arguments"
  else if stat =? SYSTEM_ERR then "Server responded: System Error"
  else "Unknown rpc response from server".

Definition rpc_process_reply (pdu : Z) (zdr : ZDR) : Rpc (Z * ZDR) :=
  check_magic;;
  x ← pdu_at pdu;
  let buf := if 0 <? x.(zdr_decode_bufsize) then Some (default zero_result x.(zdr_decode_buf)) else x.(zdr_decode_buf) in
  let msg := mk_msg 0 0 (Rbody (mk_reply 0 (Areply (mk_accepted null_auth 0
    (Results x.(zdr_decode_addr) x.(zdr_decode_fn) (default zero_result buf)))))) in
  r ← run_zdr zdr (libnfs_zdr_replymsg msg);
  let '((ok, msg), zdr) := r in
  pdu_modify pdu (fun x => {| x with zdr_decode_buf :=
    match buf with Some w => Some (default w (decoded msg.(m_body))) | None => None end |});;
  if negb ok then
    e ← get_error;
    set_error ("zdr_replymsg failed in rpc_process_reply: " +:+ e);;
    run_cb x.(p_cb) RPC_STATUS_ERROR (Cb_message "Message rejected by server") x.(p_private);;
    pdu_modify pdu (fun x => {| x with zdr_decode_buf := None |});;
    mret (0, zdr)
  else if negb (reply_stat msg.(m_body) =? MSG_ACCEPTED) then
    run_cb x.(p_cb) RPC_STATUS_ERROR (Cb_message "RPC Packet not accepted by the server") x.(p_private);;
    mret (0, zdr)
  else
  let stat := accept_stat msg.(m_body) in
  (if stat =? SUCCESS then
     x ← pdu_at pdu; run_cb x.(p_cb) RPC_STATUS_SUCCESS (Cb_result x.(zdr_decode_buf)) x.(p_private)
   else run_cb x.(p_cb) RPC_STATUS_ERROR (Cb_message (accept_message stat)) x.(p_private));;
  mret (0, zdr).

(** The call that waits for [x], and the one before it in its chain. *)
Fixpoint find_waiting (fuel : nat) (x prev pdu : Z) : Rpc (option (Z * Z)) :=
  match fuel with
  | O => stuck NoFuel
  | S fuel' =>
      if pdu =? 0 then mret None else
      e ← pdu_at pdu;
      if e.(p_xid) =? x then mret (Some (prev, pdu)) else find_waiting fuel' x pdu e.(p_next)
  end.

Definition unlink_waiting (l : queue_loc) (prev pdu : Z) : Rpc unit :=
  q ← queue_at l;
  e ← pdu_at pdu;
  let q := if pdu =? q.(q_head) then {| q with q_head := e.(p_next) |} else q in
  let q := if pdu =? q.(q_tail) then {| q with q_tail := prev |} else q in
  queue_put l q;;
  when (negb (prev =? 0)) (set_next prev e.(p_next));;
  ctx_modify (fun c => {| c with waitpdu_len := u32 (c.(waitpdu_len) - 1) |}).

(** Copy the fragments and the last piece one behind the other. *)
Fixpoint copy_fragments (ptr : Z) (fs : list (Z * (Z * Z))) : Rpc Z :=
  match fs with
  | [] => mret ptr
  | f :: fs' =>
      l ← on_mem (hread f.2.1 f.2.2);
      on_mem (hwrite ptr l);;
      copy_fragments (ptr + f.2.2) fs'
  end.

(** The record put together from its fragments: [None] when there is no memory. *)
Definition reassemble (buf size : Z) : Rpc (option (Z * Z)) :=
  c ← gets ctx;
  let total := foldl (fun t f => u32 (t + f.2.2)) (u32 (size - 4)) c.(fragments) in
  reasbuf ← on_mem (hmalloc total);
  if reasbuf =? 0 then
    set_error "Failed to reassemble PDU";;
    rpc_free_all_fragments;;
    mret None
  else
  ptr ← copy_fragments reasbuf c.(fragments);
  l ← on_mem (hread (buf + 4) (u64 (size - 4)));
  on_mem (hwrite ptr l);;
  mret (Some (reasbuf, total)).

(** A complete message in [zdr]: find its call and answer it. *)
Definition process_message (zdr : ZDR) (reasbuf : Z) : Rpc Z :=
  c ← gets ctx;
  if negb (c.(is_server_context) =? 0) then
    r ← rpc_process_call zdr;
    _ ← run_zdr r.2 libnfs_zdr_destroy;
    on_mem (hfree reasbuf);;
    mret r.1
  else
  r ← run_zdr zdr libnfs_zdr_getpos;
  let pos := s32 r.1 in
  r ← run_zdr r.2 (libnfs_zdr_int 0);
  let '((ok, i), zdr) := r in
  if negb ok then
    set_error "zdr_int reading xid failed";;
    _ ← run_zdr zdr libnfs_zdr_destroy;
    on_mem (hfree reasbuf);;
    mret (-1)
  else
  let x := u32 i in
  r ← run_zdr zdr (libnfs_zdr_setpos (u32 pos));
  let zdr := r.2 in
  let l := Wait (rpc_hash_xid x) in
  q ← queue_at l;
  s ← get;
  found ← find_waiting (S (size s.(pdus))) x 0 q.(q_head);
  match found with
  | None =>
      _ ← run_zdr zdr libnfs_zdr_destroy;
      on_mem (hfree reasbuf);;
      mret 0
  | Some (prev, pdu) =>
      c ← gets ctx;
      let once := (c.(is_udp) =? 0) || (c.(is_broadcast) =? 0) in
      when once (unlink_waiting l prev pdu);;
      r ← rpc_process_reply pdu zdr;
      when (negb (r.1 =? 0)) (set_error "rpc_procdess_reply failed");;
      _ ← run_zdr r.2 libnfs_zdr_destroy;
      c ← gets ctx;
      when ((c.(is_udp) =? 0) || (c.(is_broadcast) =? 0)) (rpc_free_pdu pdu);;
      on_mem (hfree reasbuf);;
      mret 0
  end.

Definition rpc_process_pdu (buf size : Z) : Rpc Z :=
  check_magic;;
  r ← run_zdr null_zdr (libnfs_zdrmem_create buf (u32 size) ZDR_DECODE);
  let zdr := r.2 in
  c ← gets ctx;
  if negb (c.(is_udp) =? 0) then process_message zdr 0 else
  r ← run_zdr zdr (libnfs_zdr_int 0);
  let '((ok, recordmarker), zdr) := r in
  if negb ok then
    set_error "zdr_int reading recordmarker failed";;
    _ ← run_zdr zdr libnfs_zdr_destroy;
    mret (-1)
  else if Z.land (u32 recordmarker) 0x80000000 =? 0 then
    _ ← run_zdr zdr libnfs_zdr_destroy;
    e ← rpc_add_fragment (buf + 4) (u32 (size - 4));
    if negb (e =? 0) then set_error "Failed to queue fragment for reassembly.";; mret (-1) else mret 0
  else match c.(fragments) with
  | [] => process_message zdr 0
  | _ :: _ =>
      _ ← run_zdr zdr libnfs_zdr_destroy;
      o ← reassemble buf size;
      match o with
      | None => mret (-1)
      | Some (reasbuf, total) =>
          r ← run_zdr zdr (libnfs_zdrmem_create reasbuf total ZDR_DECODE);
          rpc_free_all_fragments;;
          process_message r.2 reasbuf
      end
  end.

(** ** Ending calls *)

(** The calls of a queue that is no longer the context's: each is told and freed. *)
Fixpoint purge_chain (fuel : nat) (status : Z) (error : cb_data R) (pdu : Z) : Rpc unit :=
  match fuel with
  | O => stuck NoFuel
  | S fuel' =>
      if pdu =? 0 then mret tt else
      x ← pdu_at pdu;
      set_next pdu 0;;
      run_cb x.(p_cb) status error x.(p_private);;
      rpc_free_pdu pdu;;
      purge_chain fuel' status error x.(p_next)
  end.

Definition purge_queue (status : Z) (error : cb_data R) (l : queue_loc) : Rpc unit :=
  q ← queue_at l;
  rpc_reset_queue l;;
  s ← get;
  purge_chain (S (size s.(pdus))) status error q.(q_head).

Definition wait_queues : list queue_loc := Wait <$> zseq 0 (Z.to_nat HASHES).

Definition rpc_purge_all_pdus (status : Z) (error : cb_data R) : Rpc unit :=
  check_magic;;
  purge_queue status error Out;;
  for_each wait_queues (purge_queue status error);;
  for_each (Out :: wait_queues) (fun l => q ← queue_at l; assert (q.(q_head) =? 0)).

Definition rpc_error_all_pdus (error : string) : Rpc unit := rpc_purge_all_pdus RPC_STATUS_ERROR (Cb_message error).

(** ** Timeouts *)

(** The item whose successor is [item], or the last one. *)
Fixpoint find_before (fuel : nat) (item p : Z) : Rpc Z :=
  match fuel with
  | O => stuck NoFuel
  | S fuel' =>
      e ← pdu_at p;
      if (e.(p_next) =? 0) || (e.(p_next) =? item) then mret p else find_before fuel' item e.(p_next)
  end.

(** [LIBNFS_LIST_REMOVE(&q->head, item)] *)
Definition LIBNFS_LIST_REMOVE (l : queue_loc) (item : Z) : Rpc unit :=
  q ← queue_at l;
  if q.(q_head) =? item then
    e ← pdu_at item;
    queue_put l {| q with q_head := e.(p_next) |}
  else
  s ← get;
  p ← find_before (S (size s.(pdus))) item q.(q_head);
  e ← pdu_at p;
  when (negb (e.(p_next) =? 0)) (n ← pdu_at e.(p_next); set_next p n.(p_next)).

Fixpoint scan_chain (fuel : nat) (t : Z) (l : queue_loc) (pdu : Z) : Rpc unit :=
  match fuel with
  | O => stuck NoFuel
  | S fuel' =>
      if pdu =? 0 then mret tt else
      x ← pdu_at pdu;
      (if (x.(p_timeout) =? 0) || (t <? x.(p_timeout)) then mret tt
       else
         LIBNFS_LIST_REMOVE l pdu;;
         q ← queue_at l;
         when (q.(q_head) =? 0) (queue_put l {| q with q_tail := 0 |});;
         set_error "command timed out";;
         run_cb x.(p_cb) RPC_STATUS_TIMEOUT Cb_null x.(p_private);;
         rpc_free_pdu pdu);;
      scan_chain fuel' t l x.(p_next)
  end.

Definition scan_queue (t : Z) (l : queue_loc) : Rpc unit :=
  q ← queue_at l; s ← get; scan_chain (S (size s.(pdus))) t l q.(q_head).

Definition rpc_timeout_scan : Rpc unit :=
  t ← rpc_current_time;
  scan_queue t Out;;
  for_each wait_queues (scan_queue t).

(** ** Connecting *)

Definition htons (x : Z) : Z := Z.lor (Z.shiftl (Z.land x 0xff) 8) (Z.land (Z.shiftr x 8) 0xff).

Definition FIRST_PORT : Z := 512.
Definition PORT_COUNT : Z := IPPORT_RESERVED - FIRST_PORT.

(** The loop over the privileged ports. *)
Fixpoint bind_ports (fuel : nat) (family startOfs : Z) : Rpc unit :=
  match fuel with
  | O => stuck NoFuel
  | S fuel' =>
      s ← get;
      let port := htons (FIRST_PORT + s.(port_ofs)) in
      modify (fun s => {| s with port_ofs := Z.rem (s.(port_ofs) + 1) PORT_COUNT |});;
      known ← call Getservbyport [port];
      r ← (if known.1 =? 0 then call Bind [s.(ctx).(fd); family; port] else mret (-1, 0));
      if negb (r.1 =? 0) && (r.2 =? EACCES) && (known.1 =? 0) then mret tt else
      s ← get;
      if negb (r.1 =? 0) && negb (s.(port_ofs) =? startOfs) then bind_ports fuel' family startOfs else mret tt
  end.

(** A new socket for the address; false when the code has returned. *)
Definition open_socket (family : Z) : Rpc bool :=
  r ← call Create_socket [family];
  ctx_modify (fun c => {| c with fd := r.1 |});;
  b ← call Set_bind_device [r.1];
  if negb (b.1 =? 0) then set_error "Failed to bind to interface";; mret false else
  c ← gets ctx;
  when (negb (c.(tcp_syncnt) =? RPC_PARAM_UNDEFINED)) (_ ← call Set_tcp_sockopt [r.1; c.(tcp_syncnt)]; mret tt);;
  mret true.

Definition rpc_connect_sockaddr_async : Rpc Z :=
  check_magic;;
  c ← gets ctx;
  let family := c.(s_family) in
  ok ← (if (family =? AF_INET) || (family =? AF_INET6) then open_socket family
        else set_error "Can not handle AF_FAMILY";; mret false);
  if negb ok then mret (-1) else
  c ← gets ctx;
  if c.(fd) =? -1 then set_error "Failed to open socket";; mret (-1) else
  ok ← (if negb (c.(old_fd) =? 0) then
          r ← call Dup2 [c.(fd); c.(old_fd)];
          if r.1 =? -1 then mret false else
          _ ← call Close [c.(fd)];
          ctx_modify (fun c => {| c with fd := c.(old_fd) |});;
          mret true
        else mret true);
  if negb ok then mret (-1) else
  s ← get;
  when (s.(port_ofs) =? 0) (t ← rpc_current_time; modify (fun s => {| s with port_ofs := t mod 400 |}));;
  s ← get;
  bind_ports (Z.to_nat PORT_COUNT) family s.(port_ofs);;
  c ← gets ctx;
  r ← call Set_nonblocking [c.(fd)];
  ctx_modify (fun c => {| c with is_nonblocking := Z.b2z (r.1 =? 0) |});;
  _ ← call Set_nolinger [c.(fd)];
  r ← call Connect [c.(fd); family];
  if negb (r.1 =? 0) && negb (r.2 =? EINPROGRESS) then set_error "connect() to server failed";; mret (-1)
  else mret 0.

(** The address is known by its family. *)
Definition rpc_set_sockaddr (server port : Z) : Rpc Z :=
  r ← call Getaddrinfo [server];
  if negb (r.1 =? 0) then set_error "Invalid address";; mret (-1) else
  when ((r.2 =? AF_INET) || (r.2 =? AF_INET6)) (ctx_modify (fun c => {| c with s_family := r.2 |}));;
  mret 0.

Definition rpc_connect_async (server port : Z) (cb : connect_callback) : Rpc Z :=
  check_magic;;
  c ← gets ctx;
  if negb (c.(is_server_context) =? 0) then set_error "Can not connect on a server context";; mret (-1) else
  if negb (c.(fd) =? -1) then set_error "Trying to connect while already connected";; mret (-1) else
  if negb (c.(is_udp) =? 0) then set_error "Trying to connect on UDP socket";; mret (-1) else
  ctx_modify (fun c => {| c with auto_reconnect := 0 |});;
  r ← rpc_set_sockaddr server port;
  if negb (r =? 0) then mret (-1) else
  ctx_modify (fun c => {| c with connect_cb := cb |});;
  r ← rpc_connect_sockaddr_async;
  if negb (r =? 0) then mret (-1) else mret 0.

Definition rpc_set_autoreconnect (n : Z) : Rpc unit :=
  check_magic;;
  c ← gets ctx;
  when (c.(is_server_context) =? 0) (ctx_modify (fun c => {| c with auto_reconnect := n |})).

Definition rpc_disconnect (error : string) : Rpc Z :=
  check_magic;;
  c ← gets ctx;
  if c.(is_connected) =? 0 then mret 0 else
  rpc_set_autoreconnect 0;;
  when (negb (c.(fd) =? -1)) (_ ← call Close [c.(fd)]; mret tt);;
  ctx_modify (fun c => {| c with fd := -1; is_connected := 0 |});;
  when (c.(is_server_context) =? 0) (rpc_error_all_pdus error);;
  mret 0.

(** The calls in flight go back, each before the queue. *)
Fixpoint requeue_chain (fuel : nat) (pdu : Z) : Rpc unit :=
  match fuel with
  | O => stuck NoFuel
  | S fuel' =>
      if pdu =? 0 then mret tt else
      x ← pdu_at pdu;
      rpc_return_to_queue Out pdu;;
      pdu_modify pdu (fun x => {| x with written := 0 |});;
      requeue_chain fuel' x.(p_next)
  end.

Definition requeue (l : queue_loc) : Rpc unit :=
  q ← queue_at l; s ← get;
  requeue_chain (S (size s.(pdus))) q.(q_head);;
  rpc_reset_queue l.

Definition rpc_reconnect_requeue : Rpc Z :=
  check_magic;;
  c ← gets ctx;
  if c.(auto_reconnect) =? 0 then rpc_error_all_pdus "RPC ERROR: Failed to reconnect async";; mret (-1) else
  when (negb (c.(is_connected) =? 0)) (ctx_modify (fun c => {| c with num_retries := c.(auto_reconnect) |}));;
  when (negb (c.(fd) =? -1)) (ctx_modify (fun c => {| c with old_fd := c.(fd) |}));;
  ctx_modify (fun c => {| c with fd := -1; is_connected := 0 |});;
  q ← queue_at Out;
  when (negb (q.(q_head) =? 0)) (pdu_modify q.(q_head) (fun x => {| x with written := 0 |}));;
  for_each wait_queues requeue;;
  ctx_modify (fun c => {| c with waitpdu_len := 0 |});;
  c ← gets ctx;
  if (c.(auto_reconnect) <? 0) || (0 <? c.(num_retries)) then
    ctx_modify (fun c => {| c with num_retries := s32 (c.(num_retries) - 1); connect_cb := Reconnect_cb |});;
    r ← rpc_connect_sockaddr_async;
    if negb (r =? 0) then rpc_error_all_pdus "RPC ERROR: Failed to reconnect async";; mret (-1) else mret 0
  else
  rpc_error_all_pdus "RPC ERROR: All attempts to reconnect failed.";; mret (-1).

Definition reconnect_cb (status : Z) : Rpc unit :=
  check_magic;;
  if negb (status =? RPC_STATUS_SUCCESS) then
    set_error "Failed to reconnect async";;
    _ ← rpc_reconnect_requeue; mret tt
  else ctx_modify (fun c => {| c with is_connected := 1; connect_cb := No_cb; old_fd := 0 |}).

Definition maybe_call_connect_cb (status : Z) : Rpc unit :=
  c ← gets ctx;
  match c.(connect_cb) with
  | No_cb => mret tt
  | Reconnect_cb => ctx_modify (fun c => {| c with connect_cb := No_cb |});; reconnect_cb status
  | User_cb cb private =>
      ctx_modify (fun c => {| c with connect_cb := No_cb |});;
      e ← get_error;
      run_cb cb status (Cb_message e) private
  end.

(** ** The socket *)

Definition rpc_get_fd : Rpc Z :=
  check_magic;; c ← gets ctx; mret (if negb (c.(old_fd) =? 0) then c.(old_fd) else c.(fd)).

Definition rpc_has_queue (q : rpc_queue) : bool := negb (q.(q_head) =? 0).

Definition rpc_which_events : Rpc Z :=
  check_magic;;
  c ← gets ctx;
  let events := if negb (c.(is_connected) =? 0) then POLLIN else POLLOUT in
  if negb (c.(is_udp) =? 0) then mret POLLIN else
  mret (if rpc_has_queue c.(outqueue) then Z.lor events POLLOUT else events).

Definition send (fd : Z) (l : list Z) : Rpc (Z * Z) :=
  fun s => let '(r, e, w) := net_send fd l s.(world) in Ok (r, e) {| s with world := w |}.
Definition recv (fd n : Z) : Rpc (list Z + Z) :=
  fun s => let '(r, w) := net_recv fd n s.(world) in Ok r {| s with world := w |}.

(** A call that has been sent completely waits for its answer; true when the code
    has returned. *)
Definition sent (pdu : Z) : Rpc bool :=
  x ← pdu_at pdu;
  c ← gets ctx;
  let q := {| c.(outqueue) with q_head := x.(p_next) |} in
  queue_put Out (if x.(p_next) =? 0 then {| q with q_tail := 0 |} else q);;
  if negb (Z.land x.(p_flags) PDU_DISCARD_AFTER_SENDING =? 0) then rpc_free_pdu pdu;; mret true else
  rpc_enqueue (Wait (rpc_hash_xid x.(p_xid))) pdu;;
  ctx_modify (fun c => {| c with waitpdu_len := u32 (c.(waitpdu_len) + 1) |});;
  mret false.

(** One round: the code goes on ([None]) or returns. *)
Definition write_step (pdu : Z) : Rpc (option Z) :=
  c ← gets ctx;
  x ← pdu_at pdu;
  l ← on_mem (hread (x.(out_data) + x.(written)) (u64 (s32 (x.(out_size) - x.(written)))));
  r ← send c.(fd) l;
  let count := r.1 in
  if count =? -1 then
    if r.2 =? EAGAIN then mret (Some 0) else set_error "Error when writing to socket";; mret (Some (-1))
  else
  let n := u32 (x.(written) + count) in
  pdu_modify pdu (fun x => {| x with written := n |});;
  if n =? x.(out_size) then
    b ← sent pdu; mret (if b : bool then Some 0 else None)
  else mret None.

Fixpoint write_loop (fuel : nat) : Rpc Z :=
  match fuel with
  | O => stuck NoFuel
  | S fuel' =>
      q ← queue_at Out;
      if q.(q_head) =? 0 then mret 0 else
      o ← write_step q.(q_head);
      match o with Some r => mret r | None => write_loop fuel' end
  end.

Definition rpc_write_to_socket (fuel : nat) : Rpc Z :=
  check_magic;;
  c ← gets ctx;
  if c.(fd) =? -1 then set_error "trying to write but not connected";; mret (-1) else
  write_loop fuel.

Definition read_datagram : Rpc Z :=
  buf ← on_mem (hmalloc MAX_UDP_SIZE);
  if buf =? 0 then set_error "Failed to malloc buffer for recvfrom";; mret (-1) else
  c ← gets ctx;
  r ← recv c.(fd) MAX_UDP_SIZE;
  match r with
  | inr e =>
      on_mem (hfree buf);;
      if (e =? EINTR) || (e =? EAGAIN) then mret 0 else set_error "Failed recvfrom";; mret (-1)
  | inl l =>
      on_mem (hwrite buf l);;
      r ← rpc_process_pdu buf (Z.of_nat (length l));
      (if negb (r =? 0) then
        set_error "Invalid/garbage pdu received from server. Ignoring PDU";;
        on_mem (hfree buf);; mret (-1)
      else on_mem (hfree buf);; mret 0)
  end.

(** Where the next bytes go, 0 for [rm_buf], and how many bytes the piece has. *)
Definition read_target : Rpc (option (Z * Z)) :=
  c ← gets ctx;
  if c.(inpos) <? 4 then mret (Some (0, 4)) else
  let pdu_size := rpc_get_pdu_size c.(rm_buf) in
  if negb (c.(inbuf) =? 0) then mret (Some (c.(inbuf), pdu_size)) else
  if NFS_MAX_XFER_SIZE + 4096 <? pdu_size then set_error "Incoming PDU exceeds limit of bytes.";; mret None else
  b ← on_mem (hmalloc pdu_size);
  ctx_modify (fun c => {| c with inbuf := b |});;
  if b =? 0 then set_error "Failed to allocate buffer of bytes for pdu. Closing socket.";; mret None else
  on_mem (hwrite b c.(rm_buf));;
  mret (Some (b, pdu_size)).

Definition write_at (ofs : Z) (l m : list Z) : list Z :=
  take (Z.to_nat ofs) m ++ l ++ drop (Z.to_nat ofs + length l) m.

Definition read_store (buf : Z) (l : list Z) : Rpc unit :=
  c ← gets ctx;
  if buf =? 0 then
    access (c.(inpos) + Z.of_nat (length l) <=? 4);;
    ctx_modify (fun c => {| c with rm_buf := write_at c.(inpos) l c.(rm_buf) |})
  else on_mem (hwrite (buf + c.(inpos)) l).

(** One round of the loop: the code goes to the test at its end ([None]) or
    returns. *)
Definition read_step : Rpc (option Z) :=
  o ← read_target;
  match o with
  | None => mret (Some (-1))
  | Some (buf, pdu_size) =>
      c ← gets ctx;
      r ← recv c.(fd) (u32 (pdu_size - c.(inpos)));
      match r with
      | inr e =>
          if (e =? EINTR) || (e =? EAGAIN) then mret (Some 0)
          else set_error "Read from socket failed. Closing socket.";; mret (Some (-1))
      | inl [] => mret (Some (-1))
      | inl l =>
          read_store buf l;;
          let n := u32 (c.(inpos) + Z.of_nat (length l)) in
          ctx_modify (fun c => {| c with inpos := n |});;
          (if n =? 4 then mret None else
          if n =? pdu_size then
            ctx_modify (fun c => {| c with inbuf := 0; inpos := 0 |});;
            r ← rpc_process_pdu buf (s32 pdu_size);
            if negb (r =? 0) then
              set_error "Invalid/garbage pdu received from server. Closing socket";;
              on_mem (hfree buf);; mret (Some (-1))
            else on_mem (hfree buf);; mret None
          else mret None)
      end
  end.

Fixpoint read_loop (fuel : nat) : Rpc Z :=
  match fuel with
  | O => stuck NoFuel
  | S fuel' =>
      o ← read_step;
      match o with
      | Some r => mret r
      | None =>
          c ← gets ctx;
          if negb (c.(is_nonblocking) =? 0) && (0 <? c.(waitpdu_len)) then read_loop fuel' else mret 0
      end
  end.

Definition rpc_read_from_socket (fuel : nat) : Rpc Z :=
  check_magic;;
  c ← gets ctx;
  if negb (c.(is_udp) =? 0) then read_datagram else read_loop fuel.

Definition has (events bit : Z) : bool := negb (Z.land events bit =? 0).

(** The socket is broken. *)
Definition service_broken (revents : Z) : Rpc Z :=
  c ← gets ctx;
  when (negb (revents =? -1) && has revents POLLERR) (
    r ← call Getsockopt_error [c.(fd)];
    set_error (if negb (r.1 =? 0) || negb (r.2 =? 0) then "rpc_service: socket error"
               else "rpc_service: POLLERR, Unknown socket error."));;
  when (negb (revents =? -1) && has revents POLLHUP) (set_error "Socket failed with POLLHUP");;
  if negb (c.(auto_reconnect) =? 0) then rpc_reconnect_requeue
  else maybe_call_connect_cb RPC_STATUS_ERROR;; mret (-1).

Definition service_connected : Rpc Z :=
  c ← gets ctx;
  r ← call Getsockopt_error [c.(fd)];
  if negb (r.1 =? 0) || (negb (r.2 =? 0) && negb (r.2 =? EINPROGRESS)) then
    set_error "rpc_service: socket error while connecting.";;
    maybe_call_connect_cb RPC_STATUS_ERROR;; mret (-1)
  else
  ctx_modify (fun c => {| c with is_connected := 1 |});;
  maybe_call_connect_cb RPC_STATUS_SUCCESS;; mret 0.

Definition service_failed : Rpc Z :=
  c ← gets ctx; if negb (c.(is_server_context) =? 0) then mret (-1) else rpc_reconnect_requeue.

(** [fuel]: how often the loops of a read and of a write may go round. *)
Definition rpc_service (fuel : nat) (revents : Z) : Rpc Z :=
  check_magic;;
  rpc_timeout_scan;;
  if (revents =? -1) || has revents (Z.lor POLLERR POLLHUP) then service_broken revents else
  c ← gets ctx;
  if (c.(is_connected) =? 0) && negb (c.(fd) =? -1) && has revents POLLOUT then service_connected else
  r ← (if has revents POLLIN then rpc_read_from_socket fuel else mret 0);
  if negb (r =? 0) then service_failed else
  c ← gets ctx;
  r ← (if has revents POLLOUT && rpc_has_queue c.(outqueue) then rpc_write_to_socket fuel else mret 0);
  if negb (r =? 0) then service_failed else mret 0.

Fixpoint chain_length (fuel : nat) (i pdu : Z) : Rpc Z :=
  match fuel with
  | O => stuck NoFuel
  | S fuel' => if pdu =? 0 then mret i else x ← pdu_at pdu; chain_length fuel' (s32 (i + 1)) x.(p_next)
  end.

Definition rpc_queue_length : Rpc Z :=
  check_magic;;
  s ← get;
  i ← chain_length (S (size s.(pdus))) 0 s.(ctx).(outqueue).(q_head);
  mret (s32 (i + s.(ctx).(waitpdu_len))).

Definition rpc_set_fd (n : Z) : Rpc unit := check_magic;; ctx_modify (fun c => {| c with fd := n |}).
Definition rpc_set_tcp_syncnt (v : Z) : Rpc unit := check_magic;; ctx_modify (fun c => {| c with tcp_syncnt := v |}).
Definition rpc_set_timeout (t : Z) : Rpc unit := check_magic;; ctx_modify (fun c => {| c with rpc_timeout := t |}).
Definition rpc_get_timeout : Rpc Z := check_magic;; c ← gets ctx; mret c.(rpc_timeout).

(** ** Making and unmaking a context *)

Definition NFS_BLKSIZE : Z := 4096.
Definition NFS_PAGECACHE_DEFAULT_TTL : Z := 5.

Definition authunix_create (uid gid : Z) : Rpc (Z * AUTH) :=
  t ← rpc_current_time;
  on_mem (libnfs_authunix_create (u32 t) libnfs_literal uid gid 0 []).

Definition libnfs_authunix_create_default : Rpc (Z * AUTH) :=
  uid ← call Getuid []; gid ← call Getgid []; authunix_create uid.1 gid.1.

(** The new context replaces the state's; 0 when there is no memory. *)
Definition rpc_init_context : Rpc Z :=
  rpc ← on_mem (hmalloc SIZEOF_RPC_CONTEXT);
  if rpc =? 0 then mret 0 else
  a ← libnfs_authunix_create_default;
  s ← get;
  t ← rpc_current_time;
  pid ← call Getpid [];
  modify (fun s => {| s with salt := u32 (s.(salt) + 0x01000000) |});;
  uid ← call Getuid []; gid ← call Getgid [];
  modify (fun s' => {| s' with
    ctx := mk_ctx rpc RPC_CONTEXT_MAGIC (-1) 0 0 0 No_cb a.1 a.2 (u32 (s.(salt) + u32 t + Z.shiftl pid.1 16))
      (mk_queue 0 0) (replicate (Z.to_nat HASHES) (mk_queue 0 0)) 0 0 [0; 0; 0; 0] 0 0 0 0 0 []
      RPC_PARAM_UNDEFINED uid.1 gid.1 0 0 NFS_PAGECACHE_DEFAULT_TTL (-1) 0 0;
    mem := mk_heap s'.(mem).(bytes) s'.(mem).(blocks) EmptyString |});;
  mret rpc.

Definition rpc_init_udp_context : Rpc Z :=
  rpc ← rpc_init_context;
  when (negb (rpc =? 0)) (ctx_modify (fun c => {| c with is_udp := 1 |}));;
  mret rpc.

Definition rpc_set_auth (a : Z * AUTH) : Rpc unit :=
  check_magic;;
  c ← gets ctx;
  when (negb (c.(auth) =? 0)) (on_mem (libnfs_auth_destroy c.(auth) c.(auth_data)));;
  ctx_modify (fun c => {| c with auth := a.1; auth_data := a.2 |}).

Definition rpc_set_uid_gid (uid gid : Z) : Rpc unit :=
  c ← gets ctx;
  when (negb (uid =? c.(c_uid)) || negb (gid =? c.(c_gid))) (
    a ← authunix_create uid gid;
    when (negb (a.1 =? 0)) (
      rpc_set_auth a;;
      ctx_modify (fun c => {| c with c_uid := uid; c_gid := gid |}))).

Definition rpc_set_uid (uid : Z) : Rpc unit := c ← gets ctx; rpc_set_uid_gid uid c.(c_gid).
Definition rpc_set_gid (gid : Z) : Rpc unit := c ← gets ctx; rpc_set_uid_gid c.(c_uid) gid.

Fixpoint round_loop (fuel : nat) (power x : Z) : option Z :=
  match fuel with
  | O => None
  | S fuel' => if power <? x then round_loop fuel' (u32 (Z.shiftl power 1)) x else Some power
  end.

(** [None]: the loop does not end within [fuel] rounds. *)
Definition round_to_power_of_two (fuel : nat) (x : Z) : option Z := round_loop fuel 1 x.

Definition rounded (x : Z) : Rpc Z :=
  match round_to_power_of_two 33 x with Some p => mret p | None => stuck NoFuel end.

Definition rpc_set_pagecache (v : Z) : Rpc unit :=
  check_magic;;
  c ← gets ctx;
  p ← rounded v;
  ctx_modify (fun c' => {| c' with pagecache := Z.max c.(pagecache) p |}).

Definition rpc_set_pagecache_ttl (v : Z) : Rpc unit := ctx_modify (fun c => {| c with pagecache_ttl := v |}).

Definition rpc_set_readahead (v : Z) : Rpc unit :=
  check_magic;;
  v ← (if negb (v =? 0) then p ← rounded v; mret (Z.max NFS_BLKSIZE p) else mret v);
  ctx_modify (fun c => {| c with readahead := v |});;
  let min_pagecache := u32 (2 * v) / NFS_BLKSIZE in
  c ← gets ctx;
  when (c.(pagecache) <? min_pagecache) (rpc_set_pagecache min_pagecache).

Definition rpc_destroy_context : Rpc unit :=
  check_magic;;
  rpc_purge_all_pdus RPC_STATUS_CANCEL Cb_null;;
  rpc_free_all_fragments;;
  c ← gets ctx;
  when (negb (c.(auth) =? 0)) (
    on_mem (libnfs_auth_destroy c.(auth) c.(auth_data));;
    ctx_modify (fun c => {| c with auth := 0 |}));;
  when (negb (c.(fd) =? -1)) (_ ← call Close [c.(fd)]; mret tt);;
  on_mem (hfree c.(inbuf));;
  ctx_modify (fun c => {| c with inbuf := 0; magic := 0 |});;
  on_mem (hfree c.(self)).
End rpc.
