(* ===== verification/RpcSpec.v ===== *)
(** * The queues of the RPC client

    The linked calls of [Rpc] as lists: [holds s Q] says which calls the queues of
    a context hold, in order.  The operations on queues are those on lists, and
    no call is lost or held twice on its way from the queue of calls to be sent to
    the chain it waits in, and back when the connection breaks. *)
From stdpp Require Import functions.
From S2P Require Import Prelude Bytes Zdr Rpc.

#[export] Instance queue_loc_eq_dec : EqDecision queue_loc.
Proof. solve_decision. Defined.

Section chains.
Context {R : Type}.
Implicit Types (m : gmap Z (rpc_pdu R)) (l : list Z) (x y : rpc_pdu R).

(** From [p] over the calls [l] to [r]. *)
Fixpoint seg m (p : Z) l (r : Z) : Prop :=
  match l with
  | [] => p = r
  | a :: l' => p = a /\ a <> 0 /\ exists x, m !! a = Some x /\ seg m x.(p_next) l' r
  end.

Lemma seg_app m l1 l2 p r : seg m p (l1 ++ l2) r <-> exists q, seg m p l1 q /\ seg m q l2 r.
Proof.
  revert p; induction l1 as [|a l1 IH]; intros p; cbn; [naive_solver|].
  split.
  - intros (-> & Ha & x & Hx & (q & H1 & H2)%IH). eauto 8.
  - intros (q & (-> & Ha & x & Hx & H1) & H2). split_and!; [done..|]. exists x; split; [done|]. apply IH; eauto.
Qed.

Lemma seg_det m p l1 l2 : seg m p l1 0 -> seg m p l2 0 -> l1 = l2.
Proof.
  revert p l2; induction l1 as [|a l1 IH]; intros p [|b l2]; cbn; [naive_solver..|].
  intros (-> & Ha & x & Hx & H1) (<- & _ & y & Hy & H2). simplify_eq. f_equal; eauto.
Qed.

Lemma seg_nodup m p l : seg m p l 0 -> NoDup l.
Proof.
  revert p; induction l as [|a l IH]; intros p; cbn; [constructor|].
  intros (-> & Ha & x & Hx & Hl). constructor; [|eauto].
  intros (u & v & ->)%list_elem_of_split.
  apply seg_app in Hl as (q & Hu & Hv).
  assert (q = a) as -> by (cbn in Hv; naive_solver).
  assert (seg m a (a :: u ++ a :: v) 0) as Hl.
  { cbn. split_and!; [done..|]. exists x; split; [done|]. apply seg_app; eauto. }
  pose proof (seg_det _ _ _ _ Hl Hv) as E. apply (f_equal length) in E. cbn in E. rewrite length_app in E. cbn in E. lia.
Qed.

Lemma seg_elem m p l r a : seg m p l r -> a ∈ l -> a <> 0 /\ exists x, m !! a = Some x.
Proof.
  revert p; induction l as [|b l IH]; intros p; cbn; [set_solver|].
  intros (-> & Hb & x & Hx & Hl) [->|Ha]%elem_of_cons; eauto.
Qed.

(** Calls outside the list do not matter, and of those on it only the links. *)
Lemma seg_ext m m' p l r :
  (forall a x, a ∈ l -> m !! a = Some x -> exists y, m' !! a = Some y /\ y.(p_next) = x.(p_next)) ->
  seg m p l r -> seg m' p l r.
Proof.
  revert p; induction l as [|a l IH]; intros p Hm; cbn; [done|].
  intros (-> & Ha & x & Hx & Hl). destruct (Hm a x) as (y & Hy & Hn); [set_solver|done|].
  split_and!; [done..|]. exists y; split; [done|]. rewrite Hn. apply IH; [|done]. intros b z Hb. apply Hm. set_solver.
Qed.

Lemma seg_insert m p l r a x : a ∉ l -> seg m p l r -> seg (<[a := x]> m) p l r.
Proof.
  intros Ha. apply seg_ext. intros b y Hb Hy. exists y. rewrite lookup_insert_ne; [done|]. intros ->. done.
Qed.
Lemma seg_delete m p l r a : a ∉ l -> seg m p l r -> seg (delete a m) p l r.
Proof.
  intros Ha. apply seg_ext. intros b y Hb Hy. exists y. rewrite lookup_delete_ne; [done|]. intros ->. done.
Qed.
Lemma seg_update m p l r a x y :
  m !! a = Some x -> y.(p_next) = x.(p_next) -> seg m p l r -> seg (<[a := y]> m) p l r.
Proof.
  intros Hx Hn. apply seg_ext. intros b z Hb Hz.
  destruct (decide (a = b)) as [->|]; [rewrite lookup_insert_eq|rewrite lookup_insert_ne by done]; naive_solver.
Qed.

(** The last call of a list linked to something else. *)
Lemma seg_relink m p l a r r' x :
  seg m p (l ++ [a]) r -> a ∉ l -> m !! a = Some x -> seg (<[a := {| x with p_next := r' |}]> m) p (l ++ [a]) r'.
Proof.
  intros (q & Hl & Hq)%seg_app Ha Hx. cbn in Hq. destruct Hq as (-> & Ha0 & _).
  apply seg_app. exists a. split; [by apply seg_insert|]. cbn. split_and!; [done..|].
  eexists. rewrite lookup_insert_eq. split; [done|]. done.
Qed.

(** A queue with its two ends. *)
Definition linked m (q : rpc_queue) l : Prop := seg m q.(q_head) l 0 /\ q.(q_tail) = default 0 (last l).

Lemma linked_ext m m' q l :
  (forall a x, a ∈ l -> m !! a = Some x -> exists y, m' !! a = Some y /\ y.(p_next) = x.(p_next)) ->
  linked m q l -> linked m' q l.
Proof. intros Hm [Hs Ht]. split; [|done]. by apply (seg_ext m). Qed.

Lemma linked_head m q l : linked m q l -> q.(q_head) = default 0 (head l).
Proof. intros [Hs _]. destruct l; cbn in *; naive_solver. Qed.

(** The calls without their links. *)
Definition erase m : gmap Z (rpc_pdu R) := (fun x => {| x with p_next := 0 |}) <$> m.

Lemma erase_relink m a x n : m !! a = Some x -> erase (<[a := {| x with p_next := n |}]> m) = erase m.
Proof.
  intros Hx. unfold erase. rewrite fmap_insert. cbn. apply insert_id. rewrite lookup_fmap, Hx. done.
Qed.

Lemma erase_lookup m m' a x :
  erase m = erase m' -> m !! a = Some x -> exists n, m' !! a = Some {| x with p_next := n |}.
Proof.
  intros E Hx. assert (erase m !! a = Some {| x with p_next := 0 |}) as H by (unfold erase; by rewrite lookup_fmap, Hx).
  rewrite E in H. unfold erase in H. rewrite lookup_fmap in H. destruct (m' !! a) as [y|]; [|done]. cbn in H.
  exists y.(p_next). destruct x, y. cbn in *. injection H as -> -> -> -> -> -> -> -> -> -> -> -> ->. done.
Qed.
End chains.

Section queues.
Context {R W : Type} `{!Allocator} `{!Net W} `{!Callbacks R W}.
Implicit Types (s : rpc R W) (l : queue_loc) (Q : queue_loc -> list Z) (p : Z).

(** ** Steps *)

Lemma pdu_at_bind {B} (k : rpc_pdu R -> M (rpc R W) B) s p x : s.(pdus) !! p = Some x -> (pdu_at p ≫= k) s = k x s.
Proof. intros Hx. unfold pdu_at, mbind, M_bind, get, deref. cbn. by rewrite Hx. Qed.

Lemma pdu_modify_run s p x f :
  s.(pdus) !! p = Some x -> pdu_modify p f s = Ok tt {| s with pdus := <[p := f x]> s.(pdus) |}.
Proof. intros Hx. unfold pdu_modify. by erewrite pdu_at_bind by done. Qed.
Lemma pdu_modify_bind {B} (k : unit -> M (rpc R W) B) s p x f :
  s.(pdus) !! p = Some x -> (pdu_modify p f ≫= k) s = k tt {| s with pdus := <[p := f x]> s.(pdus) |}.
Proof. intros Hx. by erewrite bind_run by by apply pdu_modify_run. Qed.

(** A queue of the context. *)
Definition valid l : Prop := match l with Out => True | Wait h => 0 <= h < HASHES end.
Definition qget (c : rpc_context) l : option rpc_queue :=
  match l with Out => Some c.(outqueue) | Wait h => c.(waitpdu) !! Z.to_nat h end.
Definition qset l (q : rpc_queue) (c : rpc_context) : rpc_context :=
  match l with
  | Out => {| c with outqueue := q |}
  | Wait h => {| c with waitpdu := <[Z.to_nat h := q]> c.(waitpdu) |}
  end.
Definition put_queue l (q : rpc_queue) s : rpc R W := {| s with ctx := qset l q s.(ctx) |}.

Lemma queue_at_bind {B} (k : rpc_queue -> M (rpc R W) B) s l q :
  qget s.(ctx) l = Some q -> (queue_at l ≫= k) s = k q s.
Proof. intros Hq. destruct l; unfold queue_at, mbind, M_bind, gets, deref; cbn in *; [by simplify_eq|by rewrite Hq]. Qed.
Lemma queue_put_run s l q : queue_put (R:=R) l q s = Ok tt (put_queue l q s).
Proof. by destruct l. Qed.
Lemma queue_put_bind {B} (k : unit -> M (rpc R W) B) s l q : (queue_put l q ≫= k) s = k tt (put_queue l q s).
Proof. by erewrite bind_run by apply queue_put_run. Qed.

Lemma qget_qset c l q l' :
  valid l -> valid l' -> is_Some (qget c l) -> qget (qset l q c) l' = if decide (l' = l) then Some q else qget c l'.
Proof.
  intros Hl Hl' [q0 Hq]. destruct l as [|h], l' as [|h']; cbn in *; try done.
  destruct (decide (Wait h' = Wait h)) as [E|E].
  - simplify_eq. apply list_lookup_insert_eq. by eapply lookup_lt_Some.
  - apply list_lookup_insert_ne. intros E'%Z2Nat.inj; [by subst|lia..].
Qed.

(** ** The queues as lists *)

Definition waiting_in Q : Z := foldr Z.add 0 ((fun h => Z.of_nat (length (Q (Wait h)))) <$> zseq 0 (Z.to_nat HASHES)).

Record holds s Q : Prop := {
  h_queue l : valid l -> exists q, qget s.(ctx) l = Some q /\ linked s.(pdus) q (Q l);
  h_once l l' a : valid l -> valid l' -> a ∈ Q l -> a ∈ Q l' -> l = l';
  h_hash h a x : valid (Wait h) -> a ∈ Q (Wait h) -> s.(pdus) !! a = Some x -> rpc_hash_xid x.(p_xid) = h;
}.

(** The queues differ, and nothing else. *)
Definition no_queues (c : rpc_context) : rpc_context := {| c with outqueue := mk_queue 0 0; waitpdu := [] |}.
Record requeued s s' : Prop := {
  r_calls : erase s.(pdus) = erase s'.(pdus);
  r_ctx : no_queues s.(ctx) = no_queues s'.(ctx);
  r_mem : s.(mem) = s'.(mem);
  r_port : s.(port_ofs) = s'.(port_ofs);
  r_salt : s.(salt) = s'.(salt);
  r_world : s.(world) = s'.(world);
}.
#[export] Instance requeued_equiv : Equivalence requeued.
Proof. split; [by split|intros s t []; by split|intros s t u [] []; split; by etrans]. Qed.

Lemma requeued_set_next s p x n :
  s.(pdus) !! p = Some x -> requeued s {| s with pdus := <[p := {| x with p_next := n |}]> s.(pdus) |}.
Proof. intros Hx. split; try done. symmetry. by apply erase_relink. Qed.
Lemma requeued_put s l q : requeued s (put_queue l q s).
Proof. split; try done. by destruct l. Qed.

(** One queue holds other calls: the others are as before. *)
Lemma holds_update s s' Q l q la :
  holds s Q -> valid l ->
  s'.(ctx) = qset l q s.(ctx) ->
  linked s'.(pdus) q la ->
  (forall l' a, valid l' -> l' <> l -> a ∈ Q l' -> a ∉ la) ->
  (forall l' a x, valid l' -> l' <> l -> a ∈ Q l' -> s.(pdus) !! a = Some x ->
     exists y, s'.(pdus) !! a = Some y /\ y.(p_next) = x.(p_next) /\ y.(p_xid) = x.(p_xid)) ->
  (forall h a x, l = Wait h -> a ∈ la -> s'.(pdus) !! a = Some x -> rpc_hash_xid x.(p_xid) = h) ->
  holds s' (<[l := la]> Q).
Proof.
  intros HQ Hl Hc Hla Hsep Hsame Hhash.
  assert (forall l', l' = l /\ (<[l := la]> Q) l' = la \/ l' <> l /\ (<[l := la]> Q) l' = Q l') as HU.
  { intros l'. destruct (decide (l' = l)) as [->|]; [left|right]; split; try done;
      [by rewrite fn_lookup_insert|by rewrite fn_lookup_insert_ne]. }
  split.
  - intros l' Hl'. destruct (h_queue _ _ HQ l) as (q0 & Hq0 & _); [done|].
    rewrite Hc, qget_qset by eauto. destruct (HU l') as [[-> ->]|[Hne ->]].
    + rewrite decide_True by done. eauto.
    + rewrite decide_False by done. destruct (h_queue _ _ HQ l') as (q' & Hq' & Hlk); [done|]. exists q'; split; [done|].
      apply (linked_ext s.(pdus)); [|done]. intros a x Ha Hx. destruct (Hsame l' a x) as (y & ? & ? & ?); eauto.
  - intros l1 l2 a H1 H2. destruct (HU l1) as [[-> ->]|[N1 ->]], (HU l2) as [[-> ->]|[N2 ->]]; [done|..].
    + intros Ha Hb. by destruct (Hsep l2 a).
    + intros Ha Hb. by destruct (Hsep l1 a).
    + intros Ha Hb. by eapply h_once.
  - intros h a x Hh. destruct (HU (Wait h)) as [[<- ->]|[N ->]]; [eauto|].
    intros Ha Hx. destruct (h_queue _ _ HQ (Wait h)) as (q' & _ & Hs & _); [done|].
    destruct (seg_elem _ _ _ _ a Hs Ha) as (_ & x0 & Hx0).
    destruct (Hsame (Wait h) a x0) as (y & Hy & _ & E); [done..|]. rewrite Hx in Hy. simplify_eq. rewrite E. by eapply h_hash.
Qed.

(** A call that is in no queue. *)
Definition unqueued Q p : Prop := forall l, valid l -> p ∉ Q l.

Lemma holds_unqueued s s' Q p :
  holds s Q -> unqueued Q p -> s'.(ctx) = s.(ctx) -> (forall a, a <> p -> s'.(pdus) !! a = s.(pdus) !! a) -> holds s' Q.
Proof.
  intros HQ Hp Hc Hm. assert (forall l a, valid l -> a ∈ Q l -> s'.(pdus) !! a = s.(pdus) !! a) as Hm'.
  { intros l a Hl Ha. apply Hm. intros ->. by apply (Hp l). }
  split.
  - intros l Hl. destruct (h_queue _ _ HQ l) as (q & Hq & Hk); [done|]. exists q. rewrite Hc. split; [done|].
    apply (linked_ext s.(pdus)); [|done]. intros a y Ha Hy. exists y. by rewrite (Hm' l).
  - apply (h_once _ _ HQ).
  - intros h a y Hh Ha. rewrite (Hm' (Wait h)) by done. by apply (h_hash _ _ HQ).
Qed.

(** Other fields of a call. *)
Lemma holds_touch s s' Q p x y :
  holds s Q -> s.(pdus) !! p = Some x -> y.(p_next) = x.(p_next) -> y.(p_xid) = x.(p_xid) ->
  s'.(ctx) = s.(ctx) -> s'.(pdus) = <[p := y]> s.(pdus) -> holds s' Q.
Proof.
  intros HQ Hx En Ex Ec Em. split; rewrite ?Ec, ?Em.
  - intros l Hl. destruct (h_queue _ _ HQ l) as (q & Hq & Hs & Ht); [done|]. exists q. rewrite ?Ec, ?Em. split; [done|].
    split; [|done]. by apply (seg_update _ _ _ _ _ x).
  - apply (h_once _ _ HQ).
  - intros h a z Hh Ha. destruct (decide (a = p)) as [->|Hne].
    + rewrite lookup_insert_eq. intros [= <-]. rewrite Ex. by apply (h_hash _ _ HQ _ p).
    + rewrite lookup_insert_ne by done. by apply (h_hash _ _ HQ).
Qed.

(** ** Operations *)

Lemma linked_nil (m : gmap Z (rpc_pdu R)) q : linked m q [] -> q.(q_head) = 0.
Proof. by intros [Hs _]. Qed.

Lemma linked_last (m : gmap Z (rpc_pdu R)) q la t :
  linked m q (la ++ [t]) -> q.(q_head) <> 0 /\ q.(q_tail) = t /\ t ∉ la /\ (exists x, m !! t = Some x).
Proof.
  intros [Hs Ht]. rewrite last_snoc in Ht. cbn in Ht. pose proof (seg_nodup _ _ _ Hs) as Hnd.
  apply NoDup_app in Hnd as (_ & Hnd & _).
  destruct (seg_elem _ _ _ _ t Hs) as (Ht0 & x & Hx); [set_solver|].
  split_and!; [|done| |eauto].
  - destruct la; cbn in Hs; naive_solver.
  - intros Hin. apply (Hnd t); set_solver.
Qed.

Definition rehashed l (x : rpc_pdu R) : Prop := forall h, l = Wait h -> rpc_hash_xid x.(p_xid) = h.

(** One queue is linked anew, with some of its calls and some that were in no queue. *)
Lemma holds_relinked s s' Q l q la :
  holds s Q -> valid l ->
  s'.(ctx) = qset l q s.(ctx) -> erase s.(pdus) = erase s'.(pdus) ->
  linked s'.(pdus) q la ->
  (forall a, a ∈ la -> a ∈ Q l \/ unqueued Q a /\ forall x, s.(pdus) !! a = Some x -> rehashed l x) ->
  (forall l' a, valid l' -> l' <> l -> a ∈ Q l' -> s'.(pdus) !! a = s.(pdus) !! a) ->
  holds s' (<[l := la]> Q).
Proof.
  intros HQ Hl Hc He Hk Hla Hsame. eapply holds_update; [done..| | |].
  - intros l' a Hl' Hne Ha Hin. destruct (Hla a Hin) as [Hq|[Hu _]].
    + by apply Hne, (h_once _ _ HQ _ _ a).
    + by apply (Hu l').
  - intros l' a x Hl' Hne Ha Hx. exists x. rewrite (Hsame l') by done. done.
  - intros h a y -> Ha Hy. destruct (erase_lookup _ _ a y (eq_sym He) Hy) as (n & Hx).
    destruct (Hla a Ha) as [Hq|[_ Hh]]; [by apply (h_hash _ _ HQ _ _ _ Hl Hq Hx)|by apply (Hh _ Hx)].
Qed.

(** The links of other queues are not touched. *)
Lemma lookup_unqueued Q l' a p (m : gmap Z (rpc_pdu R)) x :
  unqueued Q p -> valid l' -> a ∈ Q l' -> (<[p := x]> m) !! a = m !! a.
Proof. intros Hp Hl' Ha. apply lookup_insert_ne. intros <-. by apply (Hp l'). Qed.
Lemma lookup_other s Q l l' a t (m : gmap Z (rpc_pdu R)) x :
  holds s Q -> valid l -> valid l' -> l' <> l -> t ∈ Q l -> a ∈ Q l' -> (<[t := x]> m) !! a = m !! a.
Proof. intros HQ Hl Hl' Hne Ht Ha. apply lookup_insert_ne. intros <-. by apply Hne, (h_once _ _ HQ _ _ t). Qed.

Lemma enqueue_ok s Q l p x :
  holds s Q -> valid l -> unqueued Q p -> p <> 0 -> s.(pdus) !! p = Some x -> rehashed l x ->
  exists s', rpc_enqueue l p s = Ok tt s' /\ holds s' (<[l := Q l ++ [p]]> Q) /\ requeued s s'.
Proof.
  intros HQ Hl Hp Hp0 Hx Hhash. destruct (h_queue _ _ HQ l Hl) as (q & Hq & Hk).
  assert (forall a, a ∈ Q l ++ [p] -> a ∈ Q l \/ unqueued Q a /\ forall x, s.(pdus) !! a = Some x -> rehashed l x) as Hnew.
  { intros a [Ha| ->%list_elem_of_singleton]%elem_of_app; [by left|right]. split; [done|]. intros y Hy. by simplify_eq. }
  unfold rpc_enqueue. erewrite queue_at_bind by done.
  pose proof (Hp l Hl) as Hpl. destruct (Q l) as [|t la _] eqn:EQ using rev_ind.
  - rewrite (linked_nil _ _ Hk), Z.eqb_refl, ret_bind, queue_put_bind.
    unfold set_next. erewrite pdu_modify_run by done. eexists; split; [done|].
    set (s1 := put_queue l (mk_queue p p) s).
    assert (requeued s {| s1 with pdus := <[p := {| x with p_next := 0 |}]> s.(pdus) |}) as Hr.
    { etrans; [apply (requeued_put s l)|]. by apply (requeued_set_next s1). }
    split; [|exact Hr].
    eapply holds_relinked; [done..|apply Hr| |by rewrite EQ|].
    + split; [|done]. cbn. split_and!; [done..|]. eexists. rewrite lookup_insert_eq. done.
    + intros l' a Hl' Hne Ha. cbn. by eapply lookup_unqueued.
  - destruct (linked_last _ _ _ _ Hk) as (Hh & Ht & Hnt & y & Hy).
    rewrite (proj2 (Z.eqb_neq _ _) Hh). subst t. unfold set_next.
    assert (q.(q_tail) <> p) as Htp by set_solver.
    erewrite bind_run; [|by erewrite pdu_modify_bind by done]. rewrite queue_put_bind.
    erewrite pdu_modify_run by (cbn; by rewrite lookup_insert_ne). eexists; split; [done|].
    set (s1 := {| s with pdus := <[q.(q_tail) := {| y with p_next := p |}]> s.(pdus) |}).
    set (s2 := put_queue l (mk_queue q.(q_head) p) s1).
    assert (requeued s {| s2 with pdus := <[p := {| x with p_next := 0 |}]> s1.(pdus) |}) as Hr.
    { etrans; [exact (requeued_set_next s _ y p Hy)|]. etrans; [apply (requeued_put s1 l)|].
      apply (requeued_set_next s2). cbn. by rewrite lookup_insert_ne. }
    split; [|exact Hr].
    eapply holds_relinked; [done..|apply Hr| |by rewrite EQ|].
    + split; [|by rewrite last_snoc]. cbn. apply seg_app. exists p. split.
      * apply seg_insert; [done|]. apply (seg_relink _ _ _ _ 0); [apply Hk|done..].
      * cbn. split_and!; [done..|]. eexists. rewrite lookup_insert_eq. done.
    + intros l' a Hl' Hne Ha. cbn. erewrite lookup_unqueued by done. apply (lookup_other s Q l l'); try done. rewrite EQ. set_solver.
Qed.

(** The head of a queue taken. *)
Lemma holds_pop s Q l p la x q :
  holds s Q -> valid l -> Q l = p :: la -> s.(pdus) !! p = Some x ->
  q = mk_queue x.(p_next) (if x.(p_next) =? 0 then 0 else default 0 (last (p :: la))) ->
  holds (put_queue l q s) (<[l := la]> Q) /\ unqueued (<[l := la]> Q) p.
Proof.
  intros HQ Hl EQ Hx ->. destruct (h_queue _ _ HQ l Hl) as (q & Hq & Hs & Ht). rewrite EQ in Hs, Ht.
  pose proof (seg_nodup _ _ _ Hs) as Hnd. cbn in Hs. destruct Hs as (Hh & Hp0 & x' & Hx' & Hs).
  rewrite Hx in Hx'. injection Hx' as <-.
  apply NoDup_cons in Hnd as [Hnin _]. split.
  - eapply holds_relinked; [done..|apply requeued_put| | |done].
    + split; [done|]. cbn. destruct la as [|b la]; [|by cbn in Hs; destruct Hs as (-> & ? & _); rewrite (proj2 (Z.eqb_neq _ _)) by done].
      cbn in Hs. by rewrite Hs.
    + intros a Ha. left. rewrite EQ. set_solver.
  - intros l' Hl'. destruct (decide (l' = l)) as [->|Hne]; [by rewrite fn_lookup_insert|].
    rewrite fn_lookup_insert_ne by done. intros Hin. apply Hne, (h_once _ _ HQ _ _ p); [done..|]. rewrite EQ. set_solver.
Qed.

Lemma return_ok s Q l p x :
  holds s Q -> valid l -> unqueued Q p -> p <> 0 -> s.(pdus) !! p = Some x -> rehashed l x ->
  exists s', rpc_return_to_queue l p s = Ok tt s' /\ holds s' (<[l := p :: Q l]> Q) /\ requeued s s' /\
    forall a, a <> p -> s'.(pdus) !! a = s.(pdus) !! a.
Proof.
  intros HQ Hl Hp Hp0 Hx Hhash. destruct (h_queue _ _ HQ l Hl) as (q & Hq & Hk).
  unfold rpc_return_to_queue, set_next. erewrite queue_at_bind, pdu_modify_bind by done.
  rewrite queue_put_run. eexists; split; [done|]. cbn.
  set (s1 := {| s with pdus := <[p := {| x with p_next := q.(q_head) |}]> s.(pdus) |}).
  set (q1 := if q.(q_tail) =? 0 then _ else _).
  assert (requeued s (put_queue l q1 s1)) as Hr.
  { etrans; [exact (requeued_set_next s p x q.(q_head) Hx)|]. apply (requeued_put s1). }
  split; [|split; [exact Hr|]]; [|intros a Ha; cbn; by apply lookup_insert_ne].
  assert (q.(q_tail) = 0 <-> Q l = []) as Htail.
  { destruct Hk as [Hs Ht]. rewrite Ht. destruct (Q l) as [|t la _] using rev_ind; [done|]. rewrite last_snoc. cbn.
    destruct (seg_elem _ _ _ _ t Hs) as [? _]; [set_solver|]. split; [done|]. intros E. by destruct la. }
  eapply holds_relinked; [done..|apply Hr| | |].
  - split; cbn.
    + replace (q_head q1) with p by (unfold q1; by destruct (_ =? _)). split_and!; [done..|].
      eexists. rewrite lookup_insert_eq. split; [done|]. cbn. apply seg_insert; [by apply Hp|apply Hk].
    + unfold q1. destruct (Z.eqb_spec q.(q_tail) 0) as [E|E]; cbn; [by rewrite (proj1 Htail E)|].
      destruct Hk as [_ Ht]. rewrite Ht. destruct (Q l); [by rewrite (proj2 Htail) in E|done].
  - intros a [->|Ha]%elem_of_cons; [right|by left]. split; [done|]. intros y Hy. by simplify_eq.
  - intros l' a Hl' Hne Ha. cbn. by eapply lookup_unqueued.
Qed.

(** What [holds] looks at. *)
Lemma holds_same s s' Q :
  s'.(pdus) = s.(pdus) -> (forall l, qget s'.(ctx) l = qget s.(ctx) l) -> holds s Q -> holds s' Q.
Proof.
  intros Em Eq HQ. split.
  - intros l Hl. rewrite Em, Eq. by apply HQ.
  - apply HQ.
  - rewrite Em. apply HQ.
Qed.

(** The tail after [p] is taken out. *)
Lemma tail_without (u v : list Z) p :
  NoDup (u ++ p :: v) ->
  (if p =? default 0 (last (u ++ p :: v)) then default 0 (last u) else default 0 (last (u ++ p :: v))) =
  default 0 (last (u ++ v)).
Proof.
  intros (_ & _ & [Hp _]%NoDup_cons)%NoDup_app. destruct v as [|z v _] using rev_ind.
  - rewrite last_snoc, app_nil_r. cbn. by rewrite Z.eqb_refl.
  - rewrite app_comm_cons, !app_assoc, !last_snoc. cbn. rewrite (proj2 (Z.eqb_neq _ _)); [done|set_solver].
Qed.

(** A chain without [p], the one before it linked to the one behind it. *)
Definition bypass (u : list Z) (n : Z) (m : gmap Z (rpc_pdu R)) : gmap Z (rpc_pdu R) :=
  match last u with Some t => alter (fun y => {| y with p_next := n |}) t m | None => m end.

Lemma seg_bypass m h u p v x :
  seg m h (u ++ p :: v) 0 -> m !! p = Some x ->
  seg (bypass u x.(p_next) m) (if p =? h then x.(p_next) else h) (u ++ v) 0.
Proof.
  intros Hs Hx. pose proof (seg_nodup _ _ _ Hs) as Hnd. destruct u as [|t u _] using rev_ind.
  - cbn in *. destruct Hs as (-> & _ & x' & Hx' & Hs). rewrite Z.eqb_refl. rewrite Hx in Hx'. by injection Hx' as <-.
  - apply seg_app in Hs as (q & Hu & Hq). cbn in Hq. destruct Hq as (-> & Hp0 & x' & Hx' & Hv).
    rewrite Hx in Hx'. injection Hx' as <-. apply NoDup_app in Hnd as ((_ & Hd & _)%NoDup_app & Hd' & _).
    assert (t ∉ u) by (intros Ht; apply (Hd t); set_solver).
    assert (t ∉ p :: v) by (apply Hd'; set_solver).
    assert (p <> h). { intros ->. destruct u as [|b u]; cbn in Hu; destruct Hu as (<- & _); set_solver. }
    rewrite (proj2 (Z.eqb_neq _ _)) by done. unfold bypass. rewrite last_snoc.
    destruct (seg_elem _ _ _ _ t Hu) as (_ & y & Hy); [set_solver|].
    rewrite (alter_alt_Some _ _ _ y) by done. apply seg_app. exists x.(p_next). split.
    + by apply (seg_relink _ _ _ _ p).
    + apply seg_insert; [set_solver|done].
Qed.

(** One call more, or less, waits. *)
Definition count (d : Z) s : rpc R W :=
  {| s with ctx := {| s.(ctx) with waitpdu_len := u32 (s.(ctx).(waitpdu_len) + d) |} |}.
Lemma holds_count d s Q : holds s Q -> holds (count d s) Q.
Proof. by apply holds_same; [|intros []]. Qed.

Lemma unqueued_without s Q l u p v :
  holds s Q -> valid l -> Q l = u ++ p :: v -> NoDup (u ++ p :: v) -> unqueued (<[l := u ++ v]> Q) p.
Proof.
  intros HQ Hl EQ (_ & Hd & [Hp _]%NoDup_cons)%NoDup_app l' Hl'. destruct (decide (l' = l)) as [->|Hne].
  - rewrite fn_lookup_insert. intros [Hin|Hin]%elem_of_app; [|done]. apply (Hd p Hin). set_solver.
  - rewrite fn_lookup_insert_ne by done. intros Hin. apply Hne, (h_once _ _ HQ _ _ p); [done..|]. rewrite EQ. set_solver.
Qed.

(** A call taken out of the middle of its chain, the way a reply does it. *)
Lemma unlink_ok s Q l u p v :
  holds s Q -> valid l -> Q l = u ++ p :: v ->
  exists s', unlink_waiting l (default 0 (last u)) p s = Ok tt s' /\
    holds s' (<[l := u ++ v]> Q) /\ unqueued (<[l := u ++ v]> Q) p /\
    exists t, requeued s t /\ s' = count (-1) t.
Proof.
  intros HQ Hl EQ. destruct (h_queue _ _ HQ l Hl) as (q & Hq & Hs & Ht). rewrite EQ in Hs, Ht.
  pose proof (seg_nodup _ _ _ Hs) as Hnd. destruct (seg_elem _ _ _ _ p Hs) as (Hp0 & x & Hx); [set_solver|].
  set (q' := mk_queue (if p =? q.(q_head) then x.(p_next) else q.(q_head)) (default 0 (last (u ++ v)))).
  set (t := {| s with ctx := qset l q' s.(ctx); pdus := bypass u x.(p_next) s.(pdus) |}).
  assert (erase s.(pdus) = erase (bypass u x.(p_next) s.(pdus))) as He.
  { unfold bypass. destruct (last u) as [b|] eqn:Eb; [|done].
    destruct (seg_elem _ _ _ _ b Hs) as (_ & y & Hy); [apply last_Some_elem_of in Eb; set_solver|].
    rewrite (alter_alt_Some _ _ _ y) by done. symmetry. by apply erase_relink. }
  assert (requeued s t) as Hr.
  { split; try done. by destruct l. }
  exists (count (-1) t). split; [|split_and!; [| |eauto]].
  - unfold unlink_waiting. erewrite queue_at_bind, pdu_at_bind by done. rewrite queue_put_bind.
    set (s1 := put_queue l _ s).
    assert (s1 = put_queue l q' s) as ->.
    { unfold s1, q'. f_equal. rewrite <- (tail_without u v p), <- Ht by done.
      destruct q; cbn. by destruct (p =? _), (p =? _). }
    rewrite (bind_run _ _ _ tt t); [done|].
    unfold when, t, bypass. destruct (last u) as [b|] eqn:Eb; cbn; [|done].
    destruct (seg_elem _ _ _ _ b Hs) as (Hb0 & y & Hy); [apply last_Some_elem_of in Eb; set_solver|].
    rewrite (proj2 (Z.eqb_neq _ _)), (alter_alt_Some _ _ _ y) by done. cbn. unfold set_next. by erewrite pdu_modify_run by done.
  - apply holds_count. eapply holds_relinked; [done..| | |].
    + split; [|done]. by apply seg_bypass.
    + intros a Ha. left. rewrite EQ. set_solver.
    + intros l' a Hl' Hne Ha. cbn. unfold bypass. destruct (last u) as [b|] eqn:Eb; [|done].
      apply lookup_alter_ne. intros <-. apply Hne, (h_once _ _ HQ _ _ b); [done..|]. apply last_Some_elem_of in Eb. rewrite EQ. set_solver.
  - by eapply unqueued_without.
Qed.

(** The search finds the first call with the number, and the one before it. *)
Lemma find_waiting_ok s x fuel h u p v prev y :
  seg s.(pdus) h (u ++ p :: v) 0 -> s.(pdus) !! p = Some y -> y.(p_xid) = x ->
  (forall a z, a ∈ u -> s.(pdus) !! a = Some z -> z.(p_xid) <> x) -> (length u < fuel)%nat ->
  find_waiting fuel x prev h s = Ok (Some (default prev (last u), p)) s.
Proof.
  intros Hs Hp Hy. revert fuel h prev Hs; induction u as [|a u IH]; intros [|fuel] h prev Hs Hu Hf; [cbn in Hf; lia..| |cbn in Hf; lia|].
  - cbn in Hs. destruct Hs as (-> & H0 & _). cbn. rewrite (proj2 (Z.eqb_neq _ _)) by done.
    erewrite pdu_at_bind by done. by rewrite Hy, Z.eqb_refl.
  - cbn in Hs. destruct Hs as (-> & H0 & z & Hz & Hs). cbn [find_waiting]. rewrite (proj2 (Z.eqb_neq _ _)) by done.
    erewrite pdu_at_bind by done. rewrite (proj2 (Z.eqb_neq _ _)) by (apply (Hu a); [set_solver|done]).
    rewrite (IH fuel _ a Hs); [|intros b w Hb; apply Hu; set_solver|cbn in Hf; lia].
    rewrite last_cons. by destruct (last u).
Qed.

Lemma find_waiting_none s x fuel h u prev :
  seg s.(pdus) h u 0 -> (forall a z, a ∈ u -> s.(pdus) !! a = Some z -> z.(p_xid) <> x) -> (length u < fuel)%nat ->
  find_waiting fuel x prev h s = Ok None s.
Proof.
  revert fuel h prev; induction u as [|a u IH]; intros [|fuel] h prev Hs Hu Hf; [cbn in Hf; lia| |cbn in Hf; lia|].
  - cbn in Hs. subst h. done.
  - cbn in Hs. destruct Hs as (-> & H0 & z & Hz & Hs). cbn [find_waiting]. rewrite (proj2 (Z.eqb_neq _ _)) by done.
    erewrite pdu_at_bind by done. rewrite (proj2 (Z.eqb_neq _ _)) by (apply (Hu a); [set_solver|done]).
    apply IH; [done| |cbn in Hf; lia]. intros b w Hb; apply Hu; set_solver.
Qed.

(** The fuel given to a walk over a queue is enough. *)
Lemma seg_fuel (m : gmap Z (rpc_pdu R)) h la : seg m h la 0 -> (length la < S (size m))%nat.
Proof.
  intros Hs. rewrite <- (size_list_to_set (C:=gset Z)) by by eapply seg_nodup.
  rewrite <- size_dom. apply Nat.lt_succ_r, subseteq_size. intros a Ha%elem_of_list_to_set.
  destruct (seg_elem _ _ _ _ a Hs Ha) as (_ & x & Hx). by eapply elem_of_dom_2.
Qed.
End queues.
