(* ===== verification/RpcReply.v ===== *)
(** * Replies find their calls

    What [rpc_process_pdu] of [Rpc] does with a record that has arrived: the call
    that waits for the number in the record is taken out of its chain - no other
    call is, and their order stays - and its callback is given what the server
    has encoded; a record nobody waits for changes nothing.  A record in
    fragments is handled like the same record in one piece. *)
From stdpp Require Import functions.
From S2P Require Import Prelude Bytes Zdr ZdrSpec ZdrMsg Rpc RpcSpec.
#[local] Arguments le_bytes : simpl never.
#[local] Arguments bytes_at : simpl never.
#[local] Arguments store_bytes : simpl never.

(** ** Freeing *)

(** Blocks [ps] are gone, the others are still there. *)
Record freed (ps : list Z) (h h' : heap) : Prop := {
  fr_bytes : h'.(bytes) = h.(bytes);
  fr_blocks b : b ∈ h'.(blocks) -> b ∈ h.(blocks);
  fr_others b : b ∈ h.(blocks) -> b.1 ∉ ps -> b ∈ h'.(blocks);
  fr_gone b : b ∈ h'.(blocks) -> b.1 ∉ ps;
}.
Lemma freed_nil h : freed [] h h.
Proof. split; set_solver. Qed.
Lemma freed_trans ps qs h1 h2 h3 : freed ps h1 h2 -> freed qs h2 h3 -> freed (ps ++ qs) h1 h3.
Proof.
  intros [B1 K1 O1 G1] [B2 K2 O2 G2]. split; [congruence|auto| |].
  - intros b Hb Hp. apply O2; [apply O1|]; set_solver.
  - intros b Hb [Hp|Hp]%elem_of_app; [by apply (G1 b); [apply K2|]|by apply (G2 b)].
Qed.
Lemma freed_in ps h h' p : freed ps h h' -> p ∈ h.(blocks).*1 -> p ∉ ps -> p ∈ h'.(blocks).*1.
Proof. intros [_ _ O _] ([] & -> & Hb)%list_elem_of_fmap Hp. apply list_elem_of_fmap. eexists; split; [reflexivity|]. by apply O. Qed.

Lemma hfree_run p h : p <> 0 -> p ∈ h.(blocks).*1 -> exists h', hfree p h = Ok tt h' /\ freed [p] h h'.
Proof.
  intros Hp Hin. unfold hfree. rewrite (proj2 (Z.eqb_neq _ _)), get_bind by done.
  rewrite access_bind by by apply bool_decide_eq_true_2. eexists; split; [reflexivity|].
  split; cbn; [done|..]; intros b; rewrite list_elem_of_filter; [by intros []| |set_solver].
  intros Hb Hne. split; [set_solver|done].
Qed.

Section replies.
Context {R W : Type} {Mal : Allocator} {Fresh : MallocFresh} `{!Net W} `{!Callbacks R W}.
Implicit Types (s : rpc R W).

(** An accepted reply with results, as the server means it. *)
Definition success {V} (x : Z) (verf : Z * list Z) (v : V) : Z * (Z * (Z * reply_union_value)) :=
  (x, (REPLY, (MSG_ACCEPTED, VAccepted (verf, (SUCCESS, VResults v))))).

Lemma check_magic_bind {B} (k : unit -> M (rpc R W) B) s :
  s.(ctx).(magic) = RPC_CONTEXT_MAGIC -> (check_magic ≫= k) s = k tt s.
Proof. intros Hm. unfold check_magic, gets, mbind, M_bind. cbn. by rewrite Hm. Qed.

Lemma run_zdr_bind {A B} z (c : M zst A) (k : A * ZDR -> M (rpc R W) B) s a t :
  c (mk_zst z s.(mem)) = Ok a t -> (run_zdr z c ≫= k) s = k (a, t.(zdrs)) {| s with mem := t.(hp) |}.
Proof. intros Hc. unfold run_zdr, mbind, M_bind. by rewrite Hc. Qed.

Lemma process_reply_success {V} s p y z (c : codec R V) x verf v :
  let k := c_reply_msg y.(zdr_decode_addr) y.(zdr_decode_fn) c in
  let t := mk_zst z s.(mem) in
  s.(ctx).(magic) = RPC_CONTEXT_MAGIC -> s.(pdus) !! p = Some y -> codes y.(zdr_decode_fn) c ->
  0 < y.(zdr_decode_bufsize) -> c.(blank) (default zero_result y.(zdr_decode_buf)) ->
  k.(okv) (success x verf v) -> decoding t -> arrived t (k.(wire) (success x verf v)) -> fits t (k.(wire) (success x verf v)) ->
  (exists r z1 h1,
     rpc_process_reply p z s =
       (run_cb y.(p_cb) RPC_STATUS_SUCCESS (Cb_result (Some r)) y.(p_private);; mret (0, z1))
       {| s with mem := h1; pdus := <[p := {| y with zdr_decode_buf := Some r |}]> s.(pdus) |} /\
     c.(rep) h1.(bytes) r v /\ advanced t (mk_zst z1 h1) (length (k.(wire) (success x verf v)))) \/
  rpc_process_reply p z s = Stuck Segv /\ out_of_memory.
Proof.
  intros k t Hm Hp Hc Hsz Hb Hv Hd Ha Hf. unfold rpc_process_reply.
  rewrite check_magic_bind by done. erewrite pdu_at_bind by done. rewrite (proj2 (Z.ltb_lt _ _)) by done. cbn [default].
  set (msg := mk_msg 0 0 _).
  assert (k.(blank) msg) as Hblank.
  { split; [done|]. intros n. cbn. destruct (n =? REPLY); cbn.
    all: eexists; split; [reflexivity|]; eexists; split_and!; [reflexivity..|]; eexists; (split; [reflexivity|done]). }
  pose proof (c_decode _ _ (codes_reply_msg y.(zdr_decode_addr) _ c Hc) t msg _ Hd Hv Hblank Ha Hf) as H1.
  change (libnfs_zdr_replymsg msg t) with (libnfs_zdr_replymsg msg (mk_zst z s.(mem))) in H1.
  destruct (libnfs_zdr_replymsg msg (mk_zst z s.(mem))) as [[b m'] t1|e] eqn:Erun.
  2: { right. destruct H1 as [-> ?]. split; [|done]. apply bind_stuck. unfold run_zdr. by rewrite Erun. }
  left. destruct H1 as (Eb & Hr & Had & _). cbn in Eb. subst b.
  cbn in Hr. destruct Hr as (_ & _ & a1 & v1 & Eb1 & [= <-] & E2 & Hr). cbn in E2, Hr.
  destruct Hr as (a2 & v2 & Eb2 & [= <-] & Hr). cbn in Hr. destruct Hr as (_ & E3 & a3 & v3 & Eb3 & [= <-] & Hr).
  exists a3, t1.(zdrs), t1.(hp). split; [|split; [done|by destruct t1]].
  erewrite run_zdr_bind by exact Erun. cbn [fst snd]. erewrite pdu_modify_bind by done.
  destruct m' as [mx md mb]. cbn in Eb1. subst mb. destruct a1 as [st rr]. cbn in Eb2, E2. subst rr st.
  destruct a2 as [vf ast ad]. cbn in Eb3, E3. subst ad ast. cbn [negb m_body reply_stat rb_stat Z.eqb accept_stat ar_stat].
  rewrite !Z.eqb_refl. cbn [negb]. rewrite bind_assoc. erewrite pdu_at_bind by (cbn; apply lookup_insert_eq). done.
Qed.

(** A word of the buffer read. *)
Definition readable (t : zst) : Prop :=
  t.(zdrs).(x_op) = ZDR_DECODE /\ 0 <= t.(zdrs).(zpos) /\ t.(zdrs).(zsize) < 2 ^ 30.
Lemma decoding_readable t : decoding t -> readable t.
Proof. intros (H1 & H2 & _). split; [done|]. destruct H2. lia. Qed.

Lemma zdr_int_bind {B} z s i w (k : (bool * Z) * ZDR -> M (rpc R W) B) :
  let t := mk_zst z s.(mem) in
  readable t -> 0 <= w < 2 ^ 32 -> arrived t (be_bytes 4 w) -> fits t (be_bytes 4 w) ->
  (run_zdr z (libnfs_zdr_int i) ≫= k) s = k ((true, s32 w), move_pos z 4) s.
Proof.
  intros t (Hop & Hp & Hz) Hw Ha Hf. unfold arrived, fits in *. rewrite be_bytes_length in Ha, Hf. cbn in Hop, Hp, Hz, Ha, Hf.
  assert (libnfs_zdr_u_int (u32 i) t = Ok (true, w) (skip t 4)) as E.
  { unfold libnfs_zdr_u_int, t. rewrite gets_bind. cbn. rewrite (s32_small (_ + 4)), (proj2 (Z.ltb_ge _ _)), Hop by lia.
    unfold on_heap, zoom, hread, mbind, M_bind, get, mret, M_ret, set_pos, zdr_modify, modify. cbn.
    change (Z.to_nat 4) with 4%nat. by rewrite Ha, ntohl_wire. }
  erewrite run_zdr_bind; [|unfold libnfs_zdr_int; rewrite (bind_run _ _ _ _ _ E); reflexivity].
  cbn. by destruct s.
Qed.

Lemma u32_s32 x : 0 <= x < 2 ^ 32 -> u32 (s32 x) = x.
Proof.
  intros Hx. unfold u32, s32, sgn. rewrite (Z.mod_small x) by lia. destruct (_ <? _); [by apply Z.mod_small|].
  symmetry. apply (Z.mod_unique_pos _ _ (-1)); lia.
Qed.

Lemma hash_valid x : valid (Wait (rpc_hash_xid x)).
Proof. unfold valid, rpc_hash_xid, HASHES. by apply Z.mod_pos_bound. Qed.

(** Is the number of a call in the message looked up. *)
Lemma process_message_lookup z s x rest reasbuf :
  let t := mk_zst z s.(mem) in
  readable t -> 0 <= x < 2 ^ 32 -> arrived t (be_bytes 4 x ++ rest) -> fits t (be_bytes 4 x ++ rest) ->
  s.(ctx).(is_server_context) = 0 ->
  process_message z reasbuf s =
    (q ← queue_at (Wait (rpc_hash_xid x));
     s ← get;
     found ← find_waiting (S (size s.(pdus))) x 0 q.(q_head);
     match found with
     | None => _ ← run_zdr z libnfs_zdr_destroy; on_mem (hfree reasbuf);; mret 0
     | Some (prev, pdu) =>
         c ← gets ctx;
         when ((c.(is_udp) =? 0) || (c.(is_broadcast) =? 0)) (unlink_waiting (Wait (rpc_hash_xid x)) prev pdu);;
         r ← rpc_process_reply pdu z;
         when (negb (r.1 =? 0)) (set_error "rpc_procdess_reply failed");;
         _ ← run_zdr r.2 libnfs_zdr_destroy;
         c ← gets ctx;
         when ((c.(is_udp) =? 0) || (c.(is_broadcast) =? 0)) (rpc_free_pdu pdu);;
         on_mem (hfree reasbuf);;
         mret 0
     end) s.
Proof.
  intros t Hd Hx [Ha _]%arrived_app [Hf _]%fits_app Hsrv. unfold process_message. rewrite gets_bind, Hsrv. cbn [Z.eqb negb].
  pose proof Hd as (_ & Hp & Hz). unfold fits in Hf. cbn in Hp, Hz, Hf. rewrite be_bytes_length in Hf.
  erewrite run_zdr_bind by reflexivity. cbn [fst snd zdrs hp].
  replace {| s with mem := mem s |} with s by by destruct s.
  rewrite (zdr_int_bind z s 0 x) by (done || unfold fits; by rewrite be_bytes_length). cbn [negb].
  rewrite u32_s32 by done.
  erewrite run_zdr_bind by reflexivity.
  assert (s32 (u32 (s32 (u32 z.(zpos)))) = z.(zpos)) as E.
  { by rewrite (u32_small z.(zpos)), (s32_small z.(zpos)), (u32_small z.(zpos)), (s32_small z.(zpos)) by lia. }
  unfold set_pos, zdr_modify, modify, move_pos. cbn [snd zdrs hp]. rewrite E.
  replace {| s with mem := mem s |} with s by by destruct s. by destruct z.
Qed.

(** ** A record in one piece *)

(** A connected client between two records. *)
Record client s : Prop := {
  cl_magic : s.(ctx).(magic) = RPC_CONTEXT_MAGIC;
  cl_tcp : s.(ctx).(is_udp) = 0;
  cl_client : s.(ctx).(is_server_context) = 0;
}.

(** The record marker [m] and [w] are in a block of memory. *)
Record record_at s (buf m : Z) (w : list Z) : Prop := {
  ra_marker : 0 <= m < 2 ^ 32;
  ra_short : Z.of_nat (length w) + 4 < 2 ^ 30;
  ra_bytes : bytes_at s.(mem).(bytes) buf (4 + length w) = be_bytes 4 m ++ w;
  ra_block x : buf <= x < buf + 4 + Z.of_nat (length w) -> allocated s.(mem) x;
}.
Definition LAST : Z := 2 ^ 31.
Definition opened (buf : Z) (w : list Z) (pos : Z) : ZDR := mk_zdr ZDR_DECODE buf (Z.of_nat (length w) + 4) pos [].

Lemma record_opened s buf m w :
  record_at s buf m w ->
  let t0 := mk_zst (opened buf w 0) s.(mem) in
  let t := mk_zst (opened buf w 4) s.(mem) in
  (readable t0 /\ arrived t0 (be_bytes 4 m) /\ fits t0 (be_bytes 4 m)) /\ readable t /\ arrived t w /\ fits t w.
Proof.
  intros [Hm Hs Hb Hin] t0 t. rewrite bytes_at_app in Hb. change (Z.of_nat 4) with 4 in Hb.
  apply app_inj_1 in Hb as [Hb1 Hb2]; [|by rewrite bytes_at_length, be_bytes_length].
  unfold fits, arrived, readable. cbn. rewrite be_bytes_length, Z.add_0_r. split_and!; try done; lia.
Qed.

(** Replies are made of words. *)
Lemma record_decoding s buf m w :
  record_at s buf m w -> (4 | Z.of_nat (length w)) -> decoding (mk_zst (opened buf w 4) s.(mem)).
Proof.
  intros [Hm Hs Hb Hin] H4. assert ((4 | Z.of_nat (length w) + 4)) by (apply Z.divide_add_r; [done|by exists 1]).
  split; [done|]. split; [unfold pos_ok; cbn; split_and!; try done; try lia; by exists 1|].
  intros x Hx; apply Hin; unfold in_buf in Hx; cbn in Hx; lia.
Qed.

Lemma top_bit m : 0 <= m < 2 ^ 32 -> (Z.land m 0x80000000 =? 0) = (m <? LAST).
Proof.
  intros Hm. change 0x80000000 with ((2 ^ 1 - 1) * 2 ^ 31). rewrite land_field by lia. unfold LAST.
  destruct (Z.ltb_spec m (2 ^ 31)).
  - rewrite Z.div_small by lia. done.
  - assert (m / 2 ^ 31 = 1) as ->; [|done]. symmetry. apply (Z.div_unique_pos _ _ _ (m - 2 ^ 31)); lia.
Qed.

(** What the record marker decides. *)
Lemma process_pdu_marker s buf m w :
  client s -> record_at s buf m w ->
  rpc_process_pdu buf (Z.of_nat (length w) + 4) s =
    (if m <? LAST then
       e ← rpc_add_fragment (buf + 4) (Z.of_nat (length w));
       if negb (e =? 0) then set_error "Failed to queue fragment for reassembly.";; mret (-1) else mret 0
     else match s.(ctx).(fragments) with
     | [] => process_message (opened buf w 4) 0
     | _ :: _ =>
         o ← reassemble buf (Z.of_nat (length w) + 4);
         match o with
         | None => mret (-1)
         | Some (reasbuf, total) =>
             r ← run_zdr (opened buf w 4) (libnfs_zdrmem_create reasbuf total ZDR_DECODE);
             rpc_free_all_fragments;;
             process_message r.2 reasbuf
         end
     end) s.
Proof.
  intros Hcl Hrec. destruct (record_opened _ _ _ _ Hrec) as ((Hd & Ha & Hf) & _).
  pose proof (ra_marker _ _ _ _ Hrec) as Hm32. pose proof (ra_short _ _ _ _ Hrec) as Hs.
  assert ({| s with mem := mem s |} = s) as Es by by destruct s.
  unfold rpc_process_pdu. rewrite check_magic_bind by apply Hcl. erewrite run_zdr_bind by reflexivity. cbn [snd zdrs hp].
  rewrite Es, gets_bind, (cl_tcp _ Hcl). cbn [Z.eqb negb]. rewrite (u32_small (_ + 4)), (s32_small (_ + 4)) by lia.
  rewrite (zdr_int_bind (opened buf w 0) s 0 m) by done. cbn [negb]. rewrite u32_s32, top_bit by done.
  replace (u32 (Z.of_nat (length w) + 4 - 4)) with (Z.of_nat (length w)) by (rewrite u32_small; lia).
  destruct (m <? LAST); [|destruct (fragments _); [done|]].
  all: erewrite run_zdr_bind by reflexivity; cbn [snd zdrs hp]; by rewrite Es.
Qed.

(** Nobody in the chain waits for [x]. *)
Definition nobody s (l : list Z) (x : Z) : Prop := forall a z, a ∈ l -> s.(pdus) !! a = Some z -> z.(p_xid) <> x.

(** The call is no longer in a queue when the reply is looked at. *)
Lemma process_message_found z s Q x rest u p v y reasbuf :
  let t := mk_zst z s.(mem) in
  decoding t -> 0 <= x < 2 ^ 32 -> arrived t (be_bytes 4 x ++ rest) -> fits t (be_bytes 4 x ++ rest) ->
  client s -> holds s Q -> Q (Wait (rpc_hash_xid x)) = u ++ p :: v ->
  s.(pdus) !! p = Some y -> y.(p_xid) = x -> nobody s u x ->
  exists s1 n,
    process_message z reasbuf s =
      (r ← rpc_process_reply p z;
       when (negb (r.1 =? 0)) (set_error "rpc_procdess_reply failed");;
       _ ← run_zdr r.2 libnfs_zdr_destroy;
       c ← gets ctx;
       when ((c.(is_udp) =? 0) || (c.(is_broadcast) =? 0)) (rpc_free_pdu p);;
       on_mem (hfree reasbuf);;
       mret 0) s1 /\
    holds s1 (<[Wait (rpc_hash_xid x) := u ++ v]> Q) /\ unqueued (<[Wait (rpc_hash_xid x) := u ++ v]> Q) p /\
    s1.(mem) = s.(mem) /\ s1.(world) = s.(world) /\ s1.(ctx).(magic) = s.(ctx).(magic) /\
    s1.(ctx).(fragments) = s.(ctx).(fragments) /\ s1.(pdus) !! p = Some {| y with p_next := n |}.
Proof.
  intros t Hd Hx Ha Hf Hcl HQ EQ Hp Hy Hu. pose proof (hash_valid x) as Hv. apply decoding_readable in Hd.
  destruct (h_queue _ _ HQ _ Hv) as (q & Hq & Hs & _). rewrite EQ in Hs.
  destruct (unlink_ok s Q _ u p v HQ Hv EQ) as (s1 & Hun & HQ1 & Huq & t1 & [Hr1 Hr2 Hr3 _ _ Hr6] & ->).
  destruct (erase_lookup _ _ p y Hr1 Hp) as (n & Hn).
  exists (count (-1) t1), n. split; [|split_and!; try done].
  - rewrite (process_message_lookup z s x rest) by (done || apply Hcl).
    erewrite queue_at_bind, get_bind by done.
    erewrite bind_run by (eapply find_waiting_ok; [done..|]; pose proof (seg_fuel _ _ _ Hs) as Hl; rewrite length_app in Hl; lia).
    cbv beta iota. rewrite gets_bind, (cl_tcp _ Hcl). cbn [Z.eqb orb when]. by rewrite (bind_run _ _ _ _ _ Hun).
  - cbn. by apply (f_equal magic) in Hr2.
  - cbn. by apply (f_equal fragments) in Hr2.
Qed.

(** What answering the call comes to. *)
Definition answered {V} s Q (x : Z) (u : list Z) (p : Z) (v : list Z) (y : rpc_pdu R) (c : codec R V) (val : V) (reasbuf : Z)
    (run : result (rpc R W) Z) : Prop :=
  let Q1 := <[Wait (rpc_hash_xid x) := u ++ v]> Q in
  (exists r z s1,
     run =
       (run_cb y.(p_cb) RPC_STATUS_SUCCESS (Cb_result (Some r)) y.(p_private);;
        _ ← run_zdr z libnfs_zdr_destroy;
        c ← gets ctx;
        when ((c.(is_udp) =? 0) || (c.(is_broadcast) =? 0)) (rpc_free_pdu p);;
        on_mem (hfree reasbuf);;
        mret 0) s1 /\
     c.(rep) s1.(mem).(bytes) r val /\ holds s1 Q1 /\ unqueued Q1 p /\ s1.(world) = s.(world) /\
     s1.(ctx).(fragments) = s.(ctx).(fragments)) \/
  run = Stuck Segv /\ out_of_memory.

Lemma message_answered {V} s Q z x u p v y (c : codec R V) verf val reasbuf :
  let k := c_reply_msg y.(zdr_decode_addr) y.(zdr_decode_fn) c in
  let w := k.(wire) (success x verf val) in
  let t := mk_zst z s.(mem) in
  client s -> decoding t -> arrived t w -> fits t w -> k.(okv) (success x verf val) ->
  holds s Q -> Q (Wait (rpc_hash_xid x)) = u ++ p :: v -> s.(pdus) !! p = Some y -> y.(p_xid) = x -> nobody s u x ->
  codes y.(zdr_decode_fn) c -> 0 < y.(zdr_decode_bufsize) -> c.(blank) (default zero_result y.(zdr_decode_buf)) ->
  answered s Q x u p v y c val reasbuf (process_message z reasbuf s).
Proof.
  intros k w t Hcl Hd Ha Hf Hok HQ EQ Hp Hy Hu Hc Hsz Hb.
  assert (0 <= x < 2 ^ 32) as Hx by apply Hok.
  destruct (process_message_found z s Q x _ u p v y reasbuf Hd Hx Ha Hf Hcl HQ EQ Hp Hy Hu)
    as (s1 & n & Erun & HQ1 & Huq & Em & Ew & Emg & Efr & Hp1).
  rewrite Erun. unfold answered.
  destruct (process_reply_success s1 p {| y with p_next := n |} z c x verf val) as [(r & z1 & h1 & Er & Hr & _)|[Er Ho]].
  all: try exact Hp1; rewrite ?Em; try done.
  - rewrite Emg. apply Hcl.
  - left. exists r, z1. match type of Er with _ = _ ?st => exists st end. split.
    + unfold mbind at 1, M_bind at 1. rewrite Er. unfold mbind, M_bind. cbn. by destruct (run_cb _ _ _ _ _) as [[] s2|].
    + cbn. split_and!; try done. eapply (holds_unqueued s1); [done..|]. cbn. intros a Hne. by rewrite lookup_insert_ne.
  - right. split; [|done]. by apply bind_stuck.
Qed.

(** C11 A reply finds its call: when a complete record arrives that answers call
    number [x], [rpc_process_pdu] takes the first call waiting for [x] out of its
    chain - every other call stays queued where it was, in order - and calls its
    callback, with success and with what the server has encoded; the call is
    freed when the callback is back.  Nothing else happens, unless memory runs
    out in the decoder. *)
Theorem reply_delivered {V} s Q buf m x u p v y (c : codec R V) verf val :
  let k := c_reply_msg y.(zdr_decode_addr) y.(zdr_decode_fn) c in
  let w := k.(wire) (success x verf val) in
  client s -> s.(ctx).(fragments) = [] -> record_at s buf m w -> LAST <= m -> k.(okv) (success x verf val) ->
  holds s Q -> Q (Wait (rpc_hash_xid x)) = u ++ p :: v -> s.(pdus) !! p = Some y -> y.(p_xid) = x -> nobody s u x ->
  codes y.(zdr_decode_fn) c -> 0 < y.(zdr_decode_bufsize) -> c.(blank) (default zero_result y.(zdr_decode_buf)) ->
  answered s Q x u p v y c val 0 (rpc_process_pdu buf (Z.of_nat (length w) + 4) s).
Proof.
  intros k w Hcl Hfr Hrec Hm Hok HQ EQ Hp Hy Hu Hc Hsz Hb.
  destruct (record_opened _ _ _ _ Hrec) as (_ & Hd & Ha & Hf).
  rewrite (process_pdu_marker s buf m w), (proj2 (Z.ltb_ge _ _)), Hfr by done. eapply message_answered; try done.
  by apply (record_decoding _ _ m), (c_words _ _ (codes_reply_msg _ _ c Hc)).
Qed.

(** A record that answers no call - a late or forged reply - changes nothing. *)
Theorem reply_ignored s Q buf m x rest :
  client s -> s.(ctx).(fragments) = [] -> record_at s buf m (be_bytes 4 x ++ rest) -> LAST <= m -> 0 <= x < 2 ^ 32 ->
  holds s Q -> nobody s (Q (Wait (rpc_hash_xid x))) x ->
  rpc_process_pdu buf (Z.of_nat (length (be_bytes 4 x ++ rest)) + 4) s = Ok 0 s.
Proof.
  intros Hcl Hfr Hrec Hm Hx HQ Hno. destruct (record_opened _ _ _ _ Hrec) as (_ & Hd & Ha & Hf).
  destruct (h_queue _ _ HQ _ (hash_valid x)) as (q & Hq & Hs & _).
  rewrite (process_pdu_marker s buf m), (proj2 (Z.ltb_ge _ _)), Hfr by done.
  rewrite (process_message_lookup _ s x rest) by (done || apply Hcl). erewrite queue_at_bind, get_bind by done.
  erewrite bind_run by (eapply find_waiting_none; [done..|]; by eapply seg_fuel). cbv beta iota.
  erewrite run_zdr_bind by reflexivity. by destruct s.
Qed.

(** ** A record in fragments *)

Lemma on_mem_bind {A B} (c : M heap A) (k : A -> M (rpc R W) B) s a h :
  c s.(mem) = Ok a h -> (on_mem c ≫= k) s = k a {| s with mem := h |}.
Proof. intros Hc. unfold on_mem, zoom, mbind, M_bind. by rewrite Hc. Qed.

(** The blocks of a fragment. *)
Definition fblocks (f : Z * (Z * Z)) : list Z := [f.2.1; f.1].
Definition owned (fs : list (Z * (Z * Z))) : list Z := mjoin (fblocks <$> fs).

Lemma owned_snoc fs f : owned (fs ++ [f]) = owned fs ++ fblocks f.
Proof. unfold owned. by rewrite fmap_app, join_app. Qed.

Definition drop_fragments (n : nat) (h : heap) s : rpc R W :=
  {| s with ctx := {| s.(ctx) with fragments := drop n s.(ctx).(fragments) |}; mem := h |}.

Lemma free_fragment_run f s :
  NoDup (fblocks f) -> (forall p, p ∈ fblocks f -> p <> 0 /\ p ∈ s.(mem).(blocks).*1) ->
  exists h, rpc_free_fragment f s = Ok tt {| s with mem := h |} /\ freed (fblocks f) s.(mem) h.
Proof.
  intros Hnd Hin. unfold rpc_free_fragment.
  destruct (Hin f.2.1) as [H0 H1]; [set_solver|]. destruct (Hin f.1) as [H2 H3]; [set_solver|].
  destruct (hfree_run f.2.1 s.(mem) H0 H1) as (h1 & E1 & F1).
  destruct (hfree_run f.1 h1 H2) as (h2 & E2 & F2).
  { apply (freed_in _ _ _ _ F1); [done|]. unfold fblocks in Hnd. apply NoDup_cons in Hnd. set_solver. }
  rewrite (proj2 (Z.eqb_neq _ _)) by done. cbn [negb when]. erewrite on_mem_bind by done.
  exists h2. unfold on_mem, zoom. cbn. rewrite E2. split; [done|]. exact (freed_trans _ _ _ _ _ F1 F2).
Qed.

Lemma free_fragments_run s :
  s.(ctx).(magic) = RPC_CONTEXT_MAGIC ->
  let fs := s.(ctx).(fragments) in
  NoDup (owned fs) -> (forall p, p ∈ owned fs -> p <> 0 /\ p ∈ s.(mem).(blocks).*1) ->
  exists h, rpc_free_all_fragments s = Ok tt (drop_fragments (length fs) h s) /\ freed (owned fs) s.(mem) h.
Proof.
  intros Hm fs. unfold rpc_free_all_fragments. rewrite check_magic_bind by done. rewrite gets_bind. fold fs.
  assert (exists fs', s.(ctx).(fragments) = fs ++ fs') as [fs' E] by (exists []; by rewrite app_nil_r).
  clearbody fs. clear Hm. revert s E. induction fs as [|f fs IH]; intros s E Hnd Hin.
  - exists s.(mem). cbn. split; [destruct s as [[]]; cbn in *; done|]. apply freed_nil.
  - unfold owned in Hnd. cbn in Hnd. apply (NoDup_app (fblocks f)) in Hnd as (Hf & Hd & Hnd).
    set (s1 := {| s with ctx := {| s.(ctx) with fragments := tail s.(ctx).(fragments) |} |}).
    destruct (free_fragment_run f s1) as (h1 & E1 & F1); [done| |].
    { intros p Hp. apply Hin. unfold owned. cbn. set_solver. }
    set (s2 := {| s1 with mem := h1 |}).
    destruct (IH s2) as (h2 & E2 & F2); [cbn; by rewrite E|done| |].
    { intros p Hp. destruct (Hin p) as [H0 Hb]; [unfold owned in *; cbn; set_solver|]. split; [done|].
      apply (freed_in _ _ _ _ F1); [done|]. intros Hp'. by apply (Hd p). }
    exists h2. cbn [for_each]. rewrite (bind_run _ _ _ tt s2) by exact E1. rewrite E2.
    split; [|exact (freed_trans _ _ _ _ _ F1 F2)].
    f_equal. unfold drop_fragments. cbn. by rewrite E.
Qed.

(** More memory is in use, what was in use is as it was. *)
Record grows (h h' : heap) : Prop := {
  gr_blocks b : b ∈ h.(blocks) -> b ∈ h'.(blocks);
  gr_bytes x : allocated h x -> byte_at h'.(bytes) x = byte_at h.(bytes) x;
}.
Lemma grows_allocated h h' x : grows h h' -> allocated h x -> allocated h' x.
Proof. intros [Hb _] (p & n & Hp & Hx). exists p, n. auto. Qed.
#[export] Instance grows_preorder : PreOrder grows.
Proof.
  split; [by split|]. intros h1 h2 h3 H1 H2. split; [intros; by apply H2, H1|].
  intros x Hx. rewrite (gr_bytes _ _ H2), (gr_bytes _ _ H1); [done..|]. by apply (grows_allocated h1).
Qed.
Lemma grows_bytes h h' a n :
  grows h h' -> (forall x, a <= x < a + Z.of_nat n -> allocated h x) -> bytes_at h'.(bytes) a n = bytes_at h.(bytes) a n.
Proof. intros Hg Hx. apply bytes_at_ext. intros x Hr. by apply Hg, Hx. Qed.

Definition with_block (p n : Z) (h : heap) : heap := {| h with blocks := (p, n) :: h.(blocks) |}.
Definition with_bytes (a : Z) (l : list Z) (h : heap) : heap := {| h with bytes := store_bytes h.(bytes) a l |}.

Lemma hmalloc_cases n h :
  hmalloc n h = Ok 0 h /\ out_of_memory \/
  exists p, p <> 0 /\ hmalloc n h = Ok p (with_block p n h) /\ p ∉ h.(blocks).*1 /\
    (forall x, allocated h x -> ~ (p <= x < p + n)) /\
    forall l, Z.of_nat (length l) <= n -> grows h (with_bytes p l (with_block p n h)).
Proof.
  unfold hmalloc. rewrite get_bind. cbv zeta. destruct (Z.eqb_spec (malloc_at h.(blocks) n) 0) as [E|E].
  - left. split; [done|]. by eexists _, _.
  - right. exists (malloc_at h.(blocks) n). split; [done|]. split; [done|]. split.
    + intros ([q k] & Eq & Hin)%list_elem_of_fmap. by apply (malloc_fresh h.(blocks) n q k).
    + assert (forall x, allocated h x -> ~ (malloc_at h.(blocks) n <= x < malloc_at h.(blocks) n + n)) as Hx
        by (intros x (q & k & Hq & Hx); by eapply malloc_disjoint).
      split; [done|]. intros l Hl. split; cbn; [set_solver|]. intros x Hin. apply byte_at_apart. pose proof (Hx x Hin). lia.
Qed.

(** The fragments that have come, and what is in them. *)
Record fragments_at s (ds : list (list Z)) : Prop := {
  fg_data : Forall2 (fun f d => f.2.2 = Z.of_nat (length d) /\ (f.2.1, f.2.2) ∈ s.(mem).(blocks) /\
              bytes_at s.(mem).(bytes) f.2.1 (length d) = d) s.(ctx).(fragments) ds;
  fg_nodup : NoDup (owned s.(ctx).(fragments));
  fg_blocks p : p ∈ owned s.(ctx).(fragments) -> p <> 0 /\ p ∈ s.(mem).(blocks).*1;
}.
Lemma grows_in h h' p : grows h h' -> p ∈ h.(blocks).*1 -> p ∈ h'.(blocks).*1.
Proof. intros Hg (b & -> & Hb)%list_elem_of_fmap. apply list_elem_of_fmap. exists b. split; [done|]. by apply Hg. Qed.

Lemma fragments_grow s s' ds :
  fragments_at s ds -> s'.(ctx).(fragments) = s.(ctx).(fragments) -> grows s.(mem) s'.(mem) -> fragments_at s' ds.
Proof.
  intros [Hd Hn Hb] E Hg. split; rewrite E; [|done|].
  - eapply Forall2_impl; [exact Hd|]. intros f d (H1 & H2 & H3). split_and!; [done|by apply Hg|].
    rewrite (grows_bytes _ _ _ _ Hg); [done|]. intros x Hx. exists f.2.1, f.2.2. split; [done|lia].
  - intros p Hp. destruct (Hb p Hp). split; [done|]. by apply (grows_in s.(mem)).
Qed.

Lemma add_fragment_ok s ds a d :
  s.(ctx).(magic) = RPC_CONTEXT_MAGIC -> fragments_at s ds ->
  bytes_at s.(mem).(bytes) a (length d) = d -> (forall x, a <= x < a + Z.of_nat (length d) -> allocated s.(mem) x) ->
  (exists h fs, rpc_add_fragment a (Z.of_nat (length d)) s =
      Ok 0 {| s with mem := h; ctx := {| s.(ctx) with fragments := fs |} |} /\
    fragments_at {| s with mem := h; ctx := {| s.(ctx) with fragments := fs |} |} (ds ++ [d]) /\ grows s.(mem) h) \/
  (exists s', rpc_add_fragment a (Z.of_nat (length d)) s = Ok (-1) s') /\ out_of_memory.
Proof.
  intros Hm Hfr Hd Hal. unfold rpc_add_fragment. rewrite check_magic_bind by done.
  destruct (hmalloc_cases SIZEOF_RPC_FRAGMENT s.(mem)) as [[E Ho]|(f & Hf0 & E & Hfn & _ & Hg)].
  { right. erewrite on_mem_bind by done. cbn. eauto. }
  erewrite on_mem_bind by done. rewrite (proj2 (Z.eqb_neq _ _)) by done.
  set (h1 := with_block f _ _). specialize (Hg []). change (with_bytes f [] h1) with h1 in Hg.
  assert (grows s.(mem) h1) as Hg1 by by apply Hg. clear Hg.
  destruct (hmalloc_cases (Z.of_nat (length d)) h1) as [[E2 Ho]|(b & Hb0 & E2 & Hbn & _ & Hg)].
  { right. erewrite on_mem_bind by done. cbn [Z.eqb]. split; [|done].
    destruct (hfree_run f h1) as (h2 & E3 & _); [done|cbn; set_solver|]. erewrite on_mem_bind by exact E3. eauto. }
  left. erewrite on_mem_bind by done. rewrite (proj2 (Z.eqb_neq _ _)) by done.
  set (h2 := with_block b _ h1) in *. specialize (Hg d ltac:(lia)).
  erewrite on_mem_bind by reflexivity. cbn [mem]. rewrite Nat2Z.id. change (bytes h2) with (bytes s.(mem)). rewrite Hd.
  erewrite on_mem_bind by reflexivity. cbn. eexists _, _. split; [reflexivity|].
  assert (grows s.(mem) (with_bytes b d h2)) as Hg2 by by etrans.
  split; [|exact Hg2].
  destruct (fragments_grow s {| s with mem := with_bytes b d h2 |} ds Hfr eq_refl Hg2) as [Fd Fn Fb].
  assert (forall p, p ∈ owned s.(ctx).(fragments) -> p <> f /\ p <> b) as Hne.
  { intros p [_ Hp]%(fg_blocks _ _ Hfr). split; [by intros ->|]. intros ->. by apply Hbn, (grows_in s.(mem)). }
  assert (b <> f) by (intros ->; apply Hbn; cbn; set_solver).
  split; cbn -[owned].
  - apply Forall2_app; [exact Fd|]. constructor; [|done]. cbn. split_and!; [done|set_solver|apply bytes_at_stored].
  - rewrite owned_snoc. apply NoDup_app. split; [done|]. split.
    + intros p Hp. destruct (Hne p Hp). set_solver.
    + apply NoDup_cons. split; [set_solver|]. apply NoDup_singleton.
  - rewrite owned_snoc. intros p [Hp|Hp]%elem_of_app; [exact (Fb p Hp)|]. cbn in Hp.
    apply elem_of_cons in Hp as [->| ->%list_elem_of_singleton]; (split; [done|]); cbn; set_solver.
Qed.

(** The context but for the fragments. *)
Definition no_fragments (c : rpc_context) : rpc_context := {| c with fragments := [] |}.

(** A record that is not the last of its message is put behind the fragments
    that have come before it, byte for byte; nothing else changes. *)
Theorem fragment_kept s ds buf m d :
  client s -> fragments_at s ds -> record_at s buf m d -> m < LAST ->
  (exists s', rpc_process_pdu buf (Z.of_nat (length d) + 4) s = Ok 0 s' /\ fragments_at s' (ds ++ [d]) /\
     grows s.(mem) s'.(mem) /\ s'.(pdus) = s.(pdus) /\ s'.(world) = s.(world) /\
     no_fragments s'.(ctx) = no_fragments s.(ctx)) \/
  (exists s', rpc_process_pdu buf (Z.of_nat (length d) + 4) s = Ok (-1) s') /\ out_of_memory.
Proof.
  intros Hcl Hfr Hrec Hm. destruct (record_opened _ _ _ _ Hrec) as (_ & _ & Ha1 & _).
  rewrite (process_pdu_marker s buf m d), (proj2 (Z.ltb_lt _ _)) by done.
  destruct (add_fragment_ok s ds (buf + 4) d) as [(h & fs & E & Hfr' & Hg)|[[s' E] Ho]].
  - apply Hcl.
  - done.
  - unfold arrived in Ha1. cbn in Ha1. done.
  - intros x Hx. apply (ra_block _ _ _ _ Hrec). lia.
  - left. rewrite (bind_run _ _ _ _ _ E). cbn. eexists. split; [reflexivity|]. by split_and!.
  - right. rewrite (bind_run _ _ _ _ _ E). cbn. split; [|done]. eexists. reflexivity.
Qed.

Lemma copy_fragments_run lo hi fs ds ptr s :
  Forall2 (fun f d => f.2.2 = Z.of_nat (length d) /\ bytes_at s.(mem).(bytes) f.2.1 (length d) = d /\
    forall x, f.2.1 <= x < f.2.1 + Z.of_nat (length d) -> ~ (lo <= x < hi)) fs ds ->
  lo <= ptr -> ptr + Z.of_nat (length (concat ds)) <= hi ->
  copy_fragments ptr fs s =
    Ok (ptr + Z.of_nat (length (concat ds))) {| s with mem := with_bytes ptr (concat ds) s.(mem) |}.
Proof.
  revert ds ptr s. induction fs as [|f fs IH]; intros ds ptr s HF Hlo Hhi.
  - apply Forall2_nil_inv_l in HF as ->. cbn. rewrite Z.add_0_r. unfold with_bytes. cbn. by destruct s as [? ? []].
  - apply Forall2_cons_inv_l in HF as (d & ds' & (H1 & H2 & H3) & HF' & ->).
    cbn [copy_fragments concat] in *. rewrite length_app, Nat2Z.inj_add in Hhi |- *.
    erewrite on_mem_bind by reflexivity. cbn [mem]. rewrite H1, Nat2Z.id, H2.
    erewrite on_mem_bind by reflexivity. cbn [mem]. etrans; [apply (IH ds'); [|lia..]|].
    + eapply Forall2_impl; [exact HF'|]. intros g e (G1 & G2 & G3). split_and!; [done| |done]. cbn.
      rewrite (bytes_at_ext s.(mem).(bytes)); [done|]. intros x Hx. apply byte_at_apart.
      pose proof (G3 x Hx). lia.
    + rewrite Z.add_assoc. f_equal. unfold with_bytes. cbn. by rewrite store_bytes_app.
Qed.

Lemma fragments_total (fs : list (Z * (Z * Z))) (ds : list (list Z)) n :
  Forall2 (fun f d => f.2.2 = Z.of_nat (length d)) fs ds -> 0 <= n -> n + Z.of_nat (length (concat ds)) < 2 ^ 32 ->
  foldl (fun t f => u32 (t + f.2.2)) n fs = n + Z.of_nat (length (concat ds)).
Proof.
  intros HF. revert n. induction HF as [|f d fs ds E HF IH]; intros n Hn Hb; cbn in *; [lia|].
  rewrite length_app in Hb |- *. rewrite E, u32_small, IH by lia. lia.
Qed.

(** The list of fragments is empty, and the blocks of the fragments [s] had are
    no longer allocated. *)
Definition released s s' : Prop :=
  s'.(ctx).(fragments) = [] /\ forall b, b ∈ s'.(mem).(blocks).*1 -> b ∉ owned s.(ctx).(fragments).

Lemma dropped_released n s h h0 :
  (length s.(ctx).(fragments) <= n)%nat -> freed (owned s.(ctx).(fragments)) h0 h -> released s (drop_fragments n h s).
Proof.
  intros Hn F. split; [by apply drop_ge|]. intros b (k & -> & Hk)%list_elem_of_fmap. by apply (fr_gone _ _ _ F).
Qed.

Lemma reassemble_ok s ds buf d m :
  s.(ctx).(magic) = RPC_CONTEXT_MAGIC -> fragments_at s ds -> record_at s buf m d ->
  let w := concat ds ++ d in
  Z.of_nat (length w) < 2 ^ 30 ->
  (exists p h, reassemble buf (Z.of_nat (length d) + 4) s = Ok (Some (p, Z.of_nat (length w))) {| s with mem := h |} /\
     p <> 0 /\ p ∉ s.(mem).(blocks).*1 /\ h.(blocks) = (p, Z.of_nat (length w)) :: s.(mem).(blocks) /\ grows s.(mem) h /\
     bytes_at h.(bytes) p (length w) = w) \/
  (exists s', reassemble buf (Z.of_nat (length d) + 4) s = Ok None s' /\ released s s') /\ out_of_memory.
Proof.
  intros Hm Hfr Hrec w Hw. destruct (record_opened _ _ _ _ Hrec) as (_ & _ & Ha & _). unfold arrived in Ha. cbn in Ha.
  assert (Z.of_nat (length w) = Z.of_nat (length (concat ds)) + Z.of_nat (length d)) as Elen
    by (unfold w; rewrite length_app; lia).
  unfold reassemble. rewrite gets_bind. cbv zeta. rewrite (u32_small (_ - 4)) by lia.
  rewrite (fragments_total _ ds) by (first [lia|eapply Forall2_impl; [apply Hfr|]; by intros ?? (? & _)]).
  replace (Z.of_nat (length d) + 4 - 4 + Z.of_nat (length (concat ds))) with (Z.of_nat (length w)) by lia.
  destruct (hmalloc_cases (Z.of_nat (length w)) s.(mem)) as [[E Ho]|(p & Hp & E & Hpn & Hx & Hg)].
  - right. split; [|done]. erewrite on_mem_bind by done. cbn [Z.eqb]. unfold set_error. erewrite on_mem_bind by reflexivity.
    lazymatch goal with |- exists s', (_ ≫= _) ?st = _ /\ _ =>
      destruct (free_fragments_run st Hm (fg_nodup _ _ Hfr) (fg_blocks _ _ Hfr)) as (h & E1 & F1) end.
    rewrite (bind_run _ _ _ _ _ E1). eexists. split; [reflexivity|]. by eapply (dropped_released _ s).
  - left. erewrite on_mem_bind by done. rewrite (proj2 (Z.eqb_neq _ _)) by done.
    specialize (Hg w (Z.le_refl _)). exists p, (with_bytes p w (with_block p (Z.of_nat (length w)) s.(mem))). split.
    2: { split_and!; [done..|apply bytes_at_stored]. }
    set (h1 := with_block p _ s.(mem)).
    rewrite (bind_run _ _ _ _ _ (copy_fragments_run p (p + Z.of_nat (length w)) _ ds p {| s with mem := h1 |}
      ltac:(eapply Forall2_impl; [apply Hfr|]; intros f e (F1 & F2 & F3); split_and!; [done..|]; intros x Hr;
            apply Hx; exists f.2.1, f.2.2; split; [done|lia]) (Z.le_refl _) ltac:(lia))).
    erewrite on_mem_bind by reflexivity. cbn [mem].
    replace (Z.to_nat (u64 (Z.of_nat (length d) + 4 - 4))) with (length d) by (rewrite u64_small; lia).
    rewrite (bytes_at_ext s.(mem).(bytes)), Ha.
    + erewrite on_mem_bind by reflexivity. cbn. do 2 f_equal. unfold with_bytes, w. cbn. by rewrite store_bytes_app.
    + intros x Hr. cbn. apply byte_at_apart. pose proof (Hx x (ra_block _ _ _ _ Hrec x ltac:(lia))). lia.
Qed.

(** C23 A reply in fragments finds its call just as one in one piece does: when the
    last record arrives and the fragments before it make up a reply together with
    it, the fragments are put together in a new block, they are freed - the list
    is empty, their blocks are no longer allocated, every other block still is -
    and then the call that waits for the reply is answered with what the server
    has encoded.  Otherwise memory has run out: either the decoder has had none,
    or there was none to put the fragments together, when they are freed and the
    connection is given up. *)
Theorem fragments_answered {V} s Q ds buf m d x u p v y (c : codec R V) verf val :
  let k := c_reply_msg y.(zdr_decode_addr) y.(zdr_decode_fn) c in
  let w := k.(wire) (success x verf val) in
  client s -> ds <> [] -> fragments_at s ds -> record_at s buf m d -> LAST <= m ->
  concat ds ++ d = w -> Z.of_nat (length w) < 2 ^ 30 -> k.(okv) (success x verf val) ->
  holds s Q -> Q (Wait (rpc_hash_xid x)) = u ++ p :: v -> s.(pdus) !! p = Some y -> y.(p_xid) = x -> nobody s u x ->
  codes y.(zdr_decode_fn) c -> 0 < y.(zdr_decode_bufsize) -> c.(blank) (default zero_result y.(zdr_decode_buf)) ->
  let run := rpc_process_pdu buf (Z.of_nat (length d) + 4) s in
  (exists reasbuf s', released s s' /\ s'.(world) = s.(world) /\
     (forall b, b ∈ s.(mem).(blocks) -> b.1 ∉ owned s.(ctx).(fragments) -> b ∈ s'.(mem).(blocks)) /\
     run = process_message (mk_zdr ZDR_DECODE reasbuf (Z.of_nat (length w)) 0 []) reasbuf s' /\
     answered s' Q x u p v y c val reasbuf run) \/
  (exists s', run = Ok (-1) s' /\ released s s') /\ out_of_memory.
Proof.
  intros k w Hcl Hne Hfr Hrec Hm Ew Hlen Hok HQ EQ Hp Hy Hu Hc Hsz Hb run.
  assert ((4 | Z.of_nat (length w))) as H4 by by apply (c_words _ _ (codes_reply_msg _ _ c Hc)).
  assert (run = (o ← reassemble buf (Z.of_nat (length d) + 4);
         match o with
         | None => mret (-1)
         | Some (reasbuf, total) =>
             r ← run_zdr (opened buf d 4) (libnfs_zdrmem_create reasbuf total ZDR_DECODE);
             rpc_free_all_fragments;;
             process_message r.2 reasbuf
         end) s) as ->.
  { unfold run. rewrite (process_pdu_marker s buf m d), (proj2 (Z.ltb_ge _ _)) by done.
    pose proof (fg_data _ _ Hfr) as HF. destruct (fragments _); [|done]. by apply Forall2_nil_inv_l in HF. }
  destruct (reassemble_ok s ds buf d m) as [(b & h & E & Hb0 & Hbn & Hbi & Hg & Hby)|[(s' & E & Hrel) Ho]]; [apply Hcl|done..|by rewrite Ew| |].
  2: { right. rewrite (bind_run _ _ _ _ _ E). split; [by eexists|done]. }
  left. exists b. rewrite (bind_run _ _ _ _ _ E). cbv beta iota. rewrite Ew in *.
  erewrite run_zdr_bind by reflexivity. cbn [snd zdrs hp mem]. set (s1 := {| s with mem := h |}).
  destruct (fragments_grow s s1 ds Hfr eq_refl Hg) as [_ Hnd Hin].
  destruct (free_fragments_run s1 (cl_magic _ Hcl) Hnd Hin) as (h2 & E2 & F2).
  rewrite (bind_run _ _ _ _ _ E2), (s32_small (Z.of_nat (length w))) by lia.
  set (s2 := drop_fragments _ h2 s1).
  assert (forall a, b <= a < b + Z.of_nat (length w) -> allocated h2 a) as Hal.
  { intros a Ha. exists b, (Z.of_nat (length w)). split; [|done].
    apply F2; [cbn; rewrite Hbi; by apply list_elem_of_here|]. intros Hbo. apply Hbn.
    destruct (fg_blocks _ _ Hfr b Hbo). done. }
  exists s2. split; [by eapply (dropped_released _ s1)|]. split; [done|]. split.
  { intros k0 Hk0 Hown. apply F2; [|done]. cbn. rewrite Hbi. by apply list_elem_of_further. }
  split; [done|]. eapply message_answered; try done.
  - by split; apply Hcl.
  - split; [done|]. split; [unfold pos_ok; cbn; split_and!; try done; try lia; by exists 0|]. intros a Ha. apply Hal.
    unfold in_buf in Ha. cbn [zdrs zbuf zsize] in Ha. lia.
  - unfold arrived. cbn. rewrite Z.add_0_r, (fr_bytes _ _ _ F2). exact Hby.
  - apply Z.le_refl.
  - by apply (holds_same s); [|intros []|].
Qed.
End replies.
