(* ===== verification/RpcStream.v ===== *)
(** * The stream of an RPC client

    [rpc_read_from_socket] and [rpc_write_to_socket] of [Rpc] on a connection
    that hands over bytes in pieces of any size: incoming bytes are cut at the
    record marks and every record is handed on in a buffer of its own that it
    fills exactly; outgoing calls reach the connection byte by byte in the order
    they were queued, and each one sent waits for its answer. *)
From stdpp Require Import functions.
From S2P Require Import Prelude Bytes Zdr ZdrSpec ZdrMsg Rpc RpcSpec RpcReply.
#[local] Arguments le_bytes : simpl never.
#[local] Arguments bytes_at : simpl never.
#[local] Arguments store_bytes : simpl never.

(** ** Reading *)

Definition byte_ok (b : Z) : Prop := 0 <= b < 256.

(** [recv] hands over bytes, and no more than it is asked for. *)
Class NetRecv (W : Type) `{!Net W} : Prop :=
  recv_ok : forall fd n w l w', 0 <= n -> net_recv fd n w = (inl l, w') -> Z.of_nat (length l) <= n /\ Forall byte_ok l.

Section reading.
Context {R W : Type} {Mal : Allocator} {Fresh : MallocFresh} `{!Net W} `{!NetRecv W} `{!Callbacks R W}.
Implicit Types (s : rpc R W).

(** The record marker, and how many bytes the piece that is read now has. *)
Definition marker (got : list Z) : Z := ntohl (le_value (take 4 got)).
Definition wanted (got : list Z) : Z :=
  if (length got <? 4)%nat then 4 else Z.land (marker got) 0x7fffffff + 4.

Definition LIMIT : Z := NFS_MAX_XFER_SIZE + 4096.

(** The bytes of the record that have come. *)
Record reading s (got : list Z) : Prop := {
  rd_pos : s.(ctx).(inpos) = Z.of_nat (length got);
  rd_len : length s.(ctx).(rm_buf) = 4%nat;
  rd_rm : take (length got) s.(ctx).(rm_buf) = take 4 got;
  rd_byte : Forall byte_ok got;
  rd_room : Z.of_nat (length got) <= wanted got;
  rd_buf : s.(ctx).(inbuf) = 0 /\ (length got <= 4)%nat \/
    s.(ctx).(inbuf) <> 0 /\ (4 <= length got)%nat /\ wanted got <= LIMIT /\
    (s.(ctx).(inbuf), wanted got) ∈ s.(mem).(blocks) /\ bytes_at s.(mem).(bytes) s.(ctx).(inbuf) (length got) = got;
}.

(** The context but for what has been read. *)
Definition no_input (c : rpc_context) : rpc_context := {| c with inpos := 0; rm_buf := []; inbuf := 0 |}.

(** The calls and all that is not input are as before. *)
Definition undisturbed s s' : Prop := s'.(pdus) = s.(pdus) /\ no_input s'.(ctx) = no_input s.(ctx).

Lemma marker_bytes got : (4 <= length got)%nat -> Forall byte_ok got ->
  0 <= marker got < 2 ^ 32 /\ be_bytes 4 (marker got) = take 4 got.
Proof.
  intros Hl Hb. set (r := take 4 got). assert (length r = 4%nat) as Hr by (unfold r; rewrite length_take; lia).
  assert (Forall byte_ok r) as Hbr by by apply Forall_take. unfold marker. fold r.
  rewrite ntohl_value by done. assert (Forall byte_ok (reverse r)) by by apply Forall_reverse.
  pose proof (le_value_bound (reverse r)) as Hv. rewrite length_reverse, Hr in Hv. split; [by apply Hv|].
  unfold be_bytes. rewrite <- Hr, <- length_reverse, le_bytes_value, reverse_involutive by done. done.
Qed.

Lemma low_bits m : 0 <= m < 2 ^ 32 -> 0 <= Z.land m 0x7fffffff < 2 ^ 31.
Proof. intros Hm. change 0x7fffffff with (Z.ones 31). rewrite Z.land_ones by lia. by apply Z.mod_pos_bound. Qed.

Lemma wanted_size s got : reading s got -> (4 <= length got)%nat -> rpc_get_pdu_size s.(ctx).(rm_buf) = wanted got.
Proof.
  intros Hrd Hl. unfold rpc_get_pdu_size, wanted, marker. rewrite (proj2 (Nat.ltb_ge _ _)) by done.
  rewrite <- (rd_rm _ _ Hrd), take_ge by (rewrite (rd_len _ _ Hrd); done).
  pose proof (marker_bytes got Hl (rd_byte _ _ Hrd)) as [Hm _]. unfold marker in Hm.
  rewrite <- (rd_rm _ _ Hrd), take_ge in Hm by (rewrite (rd_len _ _ Hrd); done).
  pose proof (low_bits _ Hm). rewrite u32_small; [done|]. lia.
Qed.

Lemma wanted_more got l : (4 <= length got)%nat -> wanted (got ++ l) = wanted got.
Proof.
  intros Hl. unfold wanted, marker. rewrite length_app, (proj2 (Nat.ltb_ge _ _)), (proj2 (Nat.ltb_ge _ _)) by lia.
  by rewrite take_app_le by lia.
Qed.

Lemma wanted_bound got : Forall byte_ok got -> 4 <= wanted got < 2 ^ 32.
Proof.
  intros Hb. unfold wanted. destruct (Nat.ltb_spec (length got) 4) as [|Hl]; [done|].
  pose proof (marker_bytes got Hl Hb) as [Hm _]. pose proof (low_bits _ Hm). lia.
Qed.

(** Where the bytes go: the first four into [rm_buf], the others into a block as
    long as the record. *)
Lemma read_target_ok s got :
  reading s got ->
  (length got < 4)%nat /\ read_target s = Ok (Some (0, 4)) s \/
  (4 <= length got)%nat /\
    ((exists s', read_target s = Ok None s') /\ (LIMIT < wanted got \/ out_of_memory) \/
     exists b s', read_target s = Ok (Some (b, wanted got)) s' /\ b <> 0 /\ reading s' got /\ s'.(ctx).(inbuf) = b /\
       undisturbed s s' /\ s'.(world) = s.(world)).
Proof.
  intros Hrd. unfold read_target. rewrite gets_bind, (rd_pos _ _ Hrd).
  destruct (Nat.lt_ge_cases (length got) 4) as [Hl|Hl]; [left|right]; (split; [done|]).
  { by rewrite (proj2 (Z.ltb_lt _ _)) by lia. }
  rewrite (proj2 (Z.ltb_ge _ _)) by lia. cbv zeta. rewrite (wanted_size s got) by done.
  destruct (rd_buf _ _ Hrd) as [[Hin Hl4]|(Hin & _ & Hlim & Hbl & Hby)].
  - rewrite Hin. cbn [Z.eqb negb]. fold LIMIT.
    destruct (Z.ltb_spec LIMIT (wanted got)) as [Hlim|Hlim].
    { left. split; [|by left]. unfold set_error. erewrite on_mem_bind by reflexivity. by eexists. }
    destruct (hmalloc_cases (wanted got) s.(mem)) as [[E Ho]|(b & Hb & E & Hbn & Hx & Hg)].
    { left. split; [|by right]. erewrite on_mem_bind by done. cbn. by eexists. }
    right. erewrite on_mem_bind by done. exists b. eexists. split.
    { unfold ctx_modify. rewrite modify_bind, (proj2 (Z.eqb_neq _ _)) by done. erewrite on_mem_bind by reflexivity. done. }
    assert (s.(ctx).(rm_buf) = got) as Erm.
    { pose proof (rd_rm _ _ Hrd) as E1. rewrite !take_ge in E1; [done|lia|]. rewrite (rd_len _ _ Hrd). done. }
    split; [done|]. split; [|by split_and!]. split; cbn.
    1-5: apply Hrd.
    right. rewrite Erm. split_and!; [done..|set_solver|apply bytes_at_stored].
  - rewrite (proj2 (Z.eqb_neq _ _)) by done. cbn [negb]. right. exists s.(ctx).(inbuf), s. by split_and!.
Qed.

Lemma recv_bind {B} fd n s r w (k : list Z + Z -> M (rpc R W) B) :
  net_recv fd n s.(world) = (r, w) -> (recv fd n ≫= k) s = k r {| s with world := w |}.
Proof. intros E. unfold recv, mbind, M_bind. by rewrite E. Qed.

(** The next bytes. *)
Definition advance s (l : list Z) (h : heap) (rm : list Z) : rpc R W :=
  {| s with mem := h; ctx := {| s.(ctx) with rm_buf := rm; inpos := s.(ctx).(inpos) + Z.of_nat (length l) |} |}.

Lemma read_store_header s got l :
  reading s got -> (length got < 4)%nat -> (length got + length l <= 4)%nat -> Forall byte_ok l ->
  exists rm, read_store 0 l s = Ok tt {| s with ctx := {| s.(ctx) with rm_buf := rm |} |} /\
    reading (advance s l s.(mem) rm) (got ++ l).
Proof.
  intros Hrd Hl Hll Hb. pose proof Hrd as [Hp Hlen Hrm Hbg Hroom Hbuf].
  exists (write_at s.(ctx).(inpos) l s.(ctx).(rm_buf)). split.
  - unfold read_store. rewrite gets_bind. cbn [Z.eqb]. rewrite access_bind by (apply Z.leb_le; lia). done.
  - split; cbn.
    + rewrite length_app. lia.
    + unfold write_at. rewrite Hp, Nat2Z.id, !length_app, length_take, length_drop. lia.
    + unfold write_at. rewrite Hp, Nat2Z.id, Hrm, app_assoc.
      rewrite (take_ge got 4) by lia. rewrite (take_ge (got ++ l)) by (rewrite length_app; lia).
      by rewrite take_app_length.
    + by apply Forall_app.
    + rewrite length_app. pose proof (wanted_bound (got ++ l)) as Hw. rewrite Forall_app in Hw. specialize (Hw (conj Hbg Hb)). lia.
    + left. rewrite length_app. destruct Hbuf as [[? _]|(_ & ? & _)]; [done|lia].
Qed.

Lemma read_store_body s got l b :
  reading s got -> (4 <= length got)%nat -> s.(ctx).(inbuf) = b -> b <> 0 ->
  Z.of_nat (length got + length l) <= wanted got -> Forall byte_ok l ->
  exists h, read_store b l s = Ok tt {| s with mem := h |} /\ reading (advance s l h s.(ctx).(rm_buf)) (got ++ l).
Proof.
  intros Hrd Hl Eb Hb0 Hroom Hb. pose proof Hrd as [Hp Hlen Hrm Hbg _ Hbuf].
  destruct Hbuf as [[? _]|(_ & _ & Hlim & Hbl & Hby)]; [congruence|]. rewrite Eb in *.
  exists (with_bytes (b + Z.of_nat (length got)) l s.(mem)). split.
  - unfold read_store. rewrite gets_bind, (proj2 (Z.eqb_neq _ _)), Hp by done. done.
  - split; cbn; rewrite ?wanted_more, ?length_app by done; try done.
    + lia.
    + rewrite (take_ge s.(ctx).(rm_buf)) by lia. rewrite take_app_le by lia.
      rewrite (take_ge s.(ctx).(rm_buf)) in Hrm by lia. done.
    + by apply Forall_app.
    + right. rewrite Eb. split_and!; [done|lia|done..|]. rewrite bytes_at_app, bytes_at_stored. f_equal.
      rewrite bytes_at_apart; [done|]. intros; lia.
Qed.

(** What is left to do with a record that is complete. *)
Definition hand_on (b : Z) (body : list Z) : M (rpc R W) (option Z) :=
  r ← rpc_process_pdu b (Z.of_nat (length body) + 4);
  if negb (r =? 0) then
    set_error "Invalid/garbage pdu received from server. Closing socket";;
    on_mem (hfree b);; mret (Some (-1))
  else on_mem (hfree b);; mret None.

(** After the bytes [l] have come behind [got]. *)
Definition read_on s (got l : list Z) (w : W) (run : result (rpc R W) (option Z)) : Prop :=
  let all := got ++ l in
  if (length all =? 4)%nat || negb (Z.of_nat (length all) =? wanted all) then
    exists s', run = Ok None s' /\ reading s' all /\ undisturbed s s' /\ s'.(world) = w
  else exists b body s1,
    run = hand_on b body s1 /\ all = be_bytes 4 (marker all) ++ body /\ record_at s1 b (marker all) body /\
    reading s1 [] /\ undisturbed s s1 /\ s1.(world) = w.

Lemma read_complete s got b :
  reading s got -> s.(ctx).(inbuf) = b -> (4 < length got)%nat -> Z.of_nat (length got) = wanted got ->
  let s1 := {| s with ctx := {| s.(ctx) with inbuf := 0; inpos := 0 |} |} in
  exists body, got = be_bytes 4 (marker got) ++ body /\ record_at s1 b (marker got) body /\ reading s1 [] /\
    wanted got = Z.of_nat (length body) + 4.
Proof.
  intros Hrd Eb Hl Hw s1. pose proof Hrd as [Hp Hlen Hrm Hbg Hroom Hbuf].
  destruct Hbuf as [[_ ?]|(Hb0 & _ & Hlim & Hbl & Hby)]; [lia|]. rewrite Eb in *.
  destruct (marker_bytes got) as [Hm Hmb]; [lia|done|].
  exists (drop 4 got). rewrite Hmb, take_drop.
  assert (length (drop 4 got) = length got - 4)%nat as Hd by apply length_drop.
  assert (LIMIT < 2 ^ 30) by done.
  split; [done|]. split; [|split; [|lia]].
  - split; [done|lia| |].
    + rewrite Hmb, take_drop. replace (4 + length (drop 4 got))%nat with (length got) by lia. done.
    + intros x Hx. exists b, (wanted got). split; [done|lia].
  - split; cbn; [done..|lia|]. left. split; [done|lia].
Qed.

(** Where the loop has decided to put the next bytes. *)
Definition target s (got : list Z) (buf : Z) : Prop :=
  (length got < 4)%nat /\ buf = 0 \/ (4 <= length got)%nat /\ buf <> 0 /\ s.(ctx).(inbuf) = buf.

Lemma reading_world s got w : reading s got -> reading {| s with world := w |} got.
Proof. by intros []. Qed.

Lemma read_store_ok s got l buf :
  reading s got -> target s got buf -> Z.of_nat (length got + length l) <= wanted got -> Forall byte_ok l ->
  exists h rm, read_store buf l s = Ok tt {| s with mem := h; ctx := {| s.(ctx) with rm_buf := rm |} |} /\
    reading (advance s l h rm) (got ++ l).
Proof.
  intros Hrd [[Hl ->]|(Hl & Hb0 & Eb)] Hroom Hb.
  - destruct (read_store_header s got l) as (rm & E & Hrd'); [done..| |done|].
    { unfold wanted in Hroom. rewrite (proj2 (Nat.ltb_lt _ _)) in Hroom by done. lia. }
    exists s.(mem), rm. by destruct s.
  - destruct (read_store_body s got l buf) as (h & E & Hrd'); [done..|]. exists h, s.(ctx).(rm_buf).
    split; [|done]. rewrite E. by destruct s as [[]].
Qed.

(** The round from [recv] on. *)
Lemma read_rest s got buf l w :
  reading s got -> target s got buf -> l <> [] -> Z.of_nat (length l) <= wanted got - Z.of_nat (length got) -> Forall byte_ok l ->
  s.(world) = w ->
  read_on s got l w ((
    read_store buf l;;
    let n := u32 (Z.of_nat (length got) + Z.of_nat (length l)) in
    ctx_modify (fun c => {| c with inpos := n |});;
    (if n =? 4 then mret None else
     if n =? wanted got then
       ctx_modify (fun c => {| c with inbuf := 0; inpos := 0 |});;
       r ← rpc_process_pdu buf (s32 (wanted got));
       if negb (r =? 0) then
         set_error "Invalid/garbage pdu received from server. Closing socket";;
         on_mem (hfree buf);; mret (Some (-1))
       else on_mem (hfree buf);; mret None
     else mret None)) s).
Proof.
  intros Hrd Htg Hl Hroom Hb Ew. pose proof (wanted_bound got (rd_byte _ _ Hrd)) as Hwb.
  destruct (read_store_ok s got l buf) as (h & rm & E & Hrd1); [done..|lia|done|].
  rewrite (bind_run _ _ _ _ _ E). cbv zeta. rewrite u32_small by lia. unfold ctx_modify. rewrite modify_bind.
  assert (Z.of_nat (length got) + Z.of_nat (length l) = Z.of_nat (length (got ++ l))) as El by (rewrite length_app; lia).
  rewrite El. cbv beta. cbn [ctx mem pdus port_ofs salt world].
  set (n := Z.of_nat (length (got ++ l))) in *.
  lazymatch goal with |- context [(if n =? 4 then _ else _) ?st] => assert (st = advance s l h rm) as -> end.
  { unfold advance. by rewrite (rd_pos _ _ Hrd), El. }
  unfold read_on. cbv zeta. fold n. destruct (Nat.eqb_spec (length (got ++ l)) 4) as [E4|E4]; cbn [orb].
  { assert (n =? 4 = true) as -> by (apply Z.eqb_eq; lia). by eexists. }
  assert (n =? 4 = false) as -> by (apply Z.eqb_neq; lia).
  destruct (Z.eqb_spec n (wanted (got ++ l))) as [En|En]; cbn [negb].
  - assert (4 < length (got ++ l))%nat as Hl4.
    { destruct (Nat.lt_ge_cases (length (got ++ l)) 4); [|lia]. unfold wanted in En. rewrite (proj2 (Nat.ltb_lt _ _)) in En by done. lia. }
    destruct Htg as [[Hl3 ->]|(Hg4 & Hb0 & Eb)].
    { exfalso. unfold wanted in Hroom. rewrite (proj2 (Nat.ltb_lt _ _)) in Hroom by done. lia. }
    rewrite wanted_more in En by done. rewrite (proj2 (Z.eqb_eq _ _) En).
    destruct (read_complete (advance s l h rm) (got ++ l) buf) as (body & Eall & Hrec & Hrd2 & Ewb);
      [done..|by rewrite wanted_more|]. rewrite wanted_more in Ewb by done.
    exists buf, body. eexists. split; [|split; [exact Eall|split; [exact Hrec|split; [exact Hrd2|by split]]]].
    pose proof (ra_short _ _ _ _ Hrec). rewrite modify_bind, s32_small, Ewb by lia. done.
  - assert (n =? wanted got = false) as ->; [|by eexists]. apply Z.eqb_neq.
    destruct (Nat.lt_ge_cases (length got) 4) as [Hg|Hg]; [|by rewrite <- (wanted_more got l)].
    unfold wanted. rewrite (proj2 (Nat.ltb_lt _ _)) by done. lia.
Qed.

Lemma undisturbed_trans s1 s2 s3 : undisturbed s1 s2 -> undisturbed s2 s3 -> undisturbed s1 s3.
Proof. intros [E1 F1] [E2 F2]. split; by etrans. Qed.

Lemma read_round s got buf s1 :
  read_target s = Ok (Some (buf, wanted got)) s1 -> reading s1 got -> target s1 got buf -> undisturbed s s1 ->
  s1.(world) = s.(world) ->
  match net_recv s.(ctx).(fd) (wanted got - Z.of_nat (length got)) s.(world) with
  | (inr e, w) =>
      exists s', read_step s = Ok (Some (if (e =? EINTR) || (e =? EAGAIN) then 0 else -1)) s' /\ reading s' got /\
        undisturbed s s'
  | (inl [], w) => exists s', read_step s = Ok (Some (-1)) s'
  | (inl l, w) => read_on s got l w (read_step s)
  end.
Proof.
  intros E Hrd Htg Hud Ew. pose proof (wanted_bound got (rd_byte _ _ Hrd)) as Hwb.
  unfold read_step. rewrite (bind_run _ _ _ _ _ E). cbv beta iota. rewrite gets_bind.
  rewrite (rd_pos _ _ Hrd), (u32_small (_ - _)) by (pose proof (rd_room _ _ Hrd); lia).
  assert (s1.(ctx).(fd) = s.(ctx).(fd)) as -> by (destruct Hud as [_ Ec]; by apply (f_equal fd) in Ec).
  rewrite <- Ew. destruct (net_recv _ _ _) as [r w] eqn:Er. rewrite (recv_bind _ _ _ _ _ _ Er).
  destruct r as [[|b l]|e].
  - by eexists.
  - assert (0 <= wanted got - Z.of_nat (length got)) as H0 by (pose proof (rd_room _ _ Hrd); lia).
    destruct (recv_ok _ _ _ _ _ H0 Er) as [Hlen Hb].
    pose proof (read_rest {| s1 with world := w |} got buf (b :: l) w (reading_world _ _ _ Hrd) Htg ltac:(done) Hlen Hb eq_refl) as H.
    revert H. generalize (b :: l). intros l0. unfold read_on. cbv zeta. destruct (_ || _).
    + intros (s' & -> & H1 & H2 & H3). exists s'. split_and!; try done. by eapply undisturbed_trans.
    + intros (b' & body & s' & -> & H1 & H2 & H3 & H4 & H5). exists b', body, s'. split_and!; try done.
      by eapply undisturbed_trans.
  - destruct (_ || _).
    + eexists. split; [done|]. split; [by apply reading_world|done].
    + unfold set_error. erewrite on_mem_bind by reflexivity. eexists. split; [done|]. split; [|done].
      by destruct Hrd.
Qed.

(** C14 The stream is cut at the record marks, whatever pieces it comes in.  One
    round of the loop asks for no more than the rest of the current record.  When
    there is nothing to read the bytes that have come are kept; when bytes come
    they go behind the others; and when they complete the record it is handed to
    [rpc_process_pdu] in a block it fills exactly, with its marker in front, and
    the next record starts empty.  The connection is given up when [recv] fails
    or finds the end, when a record is announced that is too long, or when there
    is no memory for it. *)
Theorem read_step_cuts s got :
  reading s got ->
  let run := read_step s in
  ((exists s', run = Ok (Some (-1)) s') /\ (4 <= length got)%nat /\ (LIMIT < wanted got \/ out_of_memory)) \/
  match net_recv s.(ctx).(fd) (wanted got - Z.of_nat (length got)) s.(world) with
  | (inr e, w) =>
      exists s', run = Ok (Some (if (e =? EINTR) || (e =? EAGAIN) then 0 else -1)) s' /\ reading s' got /\ undisturbed s s'
  | (inl [], w) => exists s', run = Ok (Some (-1)) s'
  | (inl l, w) => read_on s got l w run
  end.
Proof.
  intros Hrd run. unfold run, read_step. pose proof (wanted_bound got (rd_byte _ _ Hrd)) as Hwb.
  destruct (read_target_ok s got Hrd) as [[Hl E]|[Hl [[[s' E] Hwhy]|(b & s1 & E & Hb0 & Hrd1 & Eb & [Ep Ec] & Ew)]]].
  - right. eapply read_round; try done; [|by left].
    rewrite E. unfold wanted. by rewrite (proj2 (Nat.ltb_lt _ _)).
  - left. rewrite (bind_run _ _ _ _ _ E). cbn. split; [by eexists|done].
  - right. by eapply read_round; [..|right|split|].
Qed.
End reading.

(** ** Writing *)

(** A connection: the bytes it has taken.  [send] takes some of the bytes it is
    given, at least one, or fails. *)
Class NetSend (W : Type) `{!Net W} := {
  taken : W -> list Z;
  send_ok : forall fd l w n e w', net_send fd l w = (n, e, w') -> l <> [] ->
    n = -1 /\ taken w' = taken w \/
    0 < n <= Z.of_nat (length l) /\ taken w' = taken w ++ take (Z.to_nat n) l;
}.

Section writing.
Context {R W : Type} {Mal : Allocator} `{!Net W} `{!NetSend W} `{!Callbacks R W}.
Implicit Types (s : rpc R W) (Q : queue_loc -> list Z) (p : Z) (l : list Z).

(** The bytes of a call that have not been sent. *)
Definition payload s p : list Z :=
  match s.(pdus) !! p with
  | Some x => bytes_at s.(mem).(bytes) (x.(out_data) + x.(written)) (Z.to_nat (x.(out_size) - x.(written)))
  | None => []
  end.
Definition pending s l : list Z := concat (payload s <$> l).

Definition unsent (x : rpc_pdu R) : Prop :=
  0 <= x.(written) < x.(out_size) /\ x.(out_size) < 2 ^ 31 /\ Z.land x.(p_flags) PDU_DISCARD_AFTER_SENDING = 0.
Definition sendable s l : Prop := forall p, p ∈ l -> exists x, s.(pdus) !! p = Some x /\ unsent x.

(** The chain a call waits in. *)
Definition hash_of s p : Z := match s.(pdus) !! p with Some x => rpc_hash_xid x.(p_xid) | None => -1 end.

(** The first call of the queue goes to the chain it waits in. *)
Definition to_wait s Q p l : queue_loc -> list Z :=
  <[Wait (hash_of s p) := Q (Wait (hash_of s p)) ++ [p]]> (<[Out := l]> Q).

Lemma holds_pop_out s Q p l x :
  holds s Q -> Q Out = p :: l -> s.(pdus) !! p = Some x ->
  exists q, queue_put Out (let q := {| s.(ctx).(outqueue) with q_head := x.(p_next) |} in
      if x.(p_next) =? 0 then {| q with q_tail := 0 |} else q) s = Ok tt (put_queue Out q s) /\
    holds (put_queue Out q s) (<[Out := l]> Q) /\ unqueued (<[Out := l]> Q) p /\ p <> 0.
Proof.
  intros HQ EQ Hx. destruct (h_queue _ _ HQ Out I) as (q & [= <-] & Hs & Ht). rewrite EQ in Hs, Ht.
  eexists. split; [apply queue_put_run|].
  destruct (holds_pop s Q Out p l x (mk_queue x.(p_next) (if x.(p_next) =? 0 then 0 else default 0 (last (p :: l)))) HQ I EQ Hx eq_refl)
    as [H1 H2].
  split_and!; [|done|by cbn in Hs; destruct Hs as (_ & ? & _)].
  rewrite <- Ht in H1. by destruct (x.(p_next) =? 0).
Qed.

Lemma sent_ok s Q p l x :
  holds s Q -> Q Out = p :: l -> s.(pdus) !! p = Some x -> Z.land x.(p_flags) PDU_DISCARD_AFTER_SENDING = 0 ->
  exists t, sent p s = Ok false (count 1 t) /\ holds (count 1 t) (to_wait s Q p l) /\ requeued s t.
Proof.
  intros HQ EQ Hx Hfl. destruct (holds_pop_out s Q p l x HQ EQ Hx) as (q & E & HQ1 & Hu & Hp0).
  unfold sent. erewrite pdu_at_bind by done. rewrite gets_bind. cbv zeta in E |- *. rewrite (bind_run _ _ _ _ _ E), Hfl. cbn [Z.eqb negb].
  assert (hash_of s p = rpc_hash_xid x.(p_xid)) as Eh by (unfold hash_of; by rewrite Hx).
  destruct (enqueue_ok _ _ (Wait (hash_of s p)) p x HQ1) as (t & E1 & HQ2 & Hr); try done.
  { rewrite Eh. apply hash_valid. }
  { intros h [= <-]. done. }
  exists t. rewrite <- Eh, (bind_run _ _ _ _ _ E1). split; [done|]. split.
  - apply holds_count. unfold to_wait. rewrite fn_lookup_insert_ne in HQ2 by done. done.
  - etrans; [apply requeued_put|done].
Qed.

(** What only links calls anew does not change what is sent. *)
Lemma requeued_same s t a : requeued s t ->
  payload t a = payload s a /\ hash_of t a = hash_of s a /\
  forall x, s.(pdus) !! a = Some x -> unsent x -> exists y, t.(pdus) !! a = Some y /\ unsent y.
Proof.
  intros [Hr _ Hm _ _ _]. unfold payload, hash_of. destruct (s.(pdus) !! a) as [x|] eqn:Ex.
  - destruct (erase_lookup _ _ a x Hr Ex) as (n & En). rewrite En. cbn. split; [by rewrite Hm|]. split; [done|].
    intros y [= <-] Hy. by eexists.
  - destruct (t.(pdus) !! a) as [y|] eqn:Ey; [|done].
    destruct (erase_lookup _ _ a y (eq_sym Hr) Ey) as (n & En). congruence.
Qed.

(** One round of the loop has sent something. *)
Record progress s s' Q Q' p l : Prop := {
  pg_holds : holds s' Q';
  pg_sendable : sendable s' (Q' Out);
  pg_stream : taken s'.(world) ++ pending s' (Q' Out) = taken s.(world) ++ pending s (Q Out);
  pg_less : (length (pending s' (Q' Out)) < length (pending s (Q Out)))%nat;
  pg_hash a : hash_of s' a = hash_of s a;
  pg_queue : Q' = Q /\ s'.(ctx) = s.(ctx) \/
             Q' = to_wait s Q p l /\ s'.(ctx).(waitpdu_len) = u32 (s.(ctx).(waitpdu_len) + 1) /\ s'.(ctx).(fd) = s.(ctx).(fd);
}.

(** The head of the queue is written further. *)
Definition written_on s p x (n : Z) (w : W) : rpc R W :=
  {| s with world := w; pdus := <[p := {| x with written := n |}]> s.(pdus) |}.

Lemma payload_written s p x n w a :
  s.(pdus) !! p = Some x -> unsent x -> 0 < n <= x.(out_size) - x.(written) ->
  payload (written_on s p x (x.(written) + n) w) a =
  if decide (a = p) then drop (Z.to_nat n) (payload s p) else payload s a.
Proof.
  intros Hx (Hw & Hs & _) Hn. unfold payload. cbn. destruct (decide (a = p)) as [->|Hne].
  - rewrite lookup_insert_eq, Hx. cbn.
    replace (Z.to_nat (x.(out_size) - x.(written))) with (Z.to_nat n + Z.to_nat (x.(out_size) - (x.(written) + n)))%nat by lia.
    rewrite bytes_at_app, Z2Nat.id, drop_app_length' by (rewrite ?bytes_at_length; lia). f_equal. lia.
  - by rewrite lookup_insert_ne by done.
Qed.

Lemma payload_length s p x : s.(pdus) !! p = Some x -> unsent x -> Z.of_nat (length (payload s p)) = x.(out_size) - x.(written).
Proof. intros Hx (Hw & _). unfold payload. rewrite Hx, bytes_at_length. lia. Qed.

Lemma pending_written s p x n w l :
  s.(pdus) !! p = Some x -> unsent x -> 0 < n <= x.(out_size) - x.(written) -> p ∉ l ->
  pending (written_on s p x (x.(written) + n) w) l = pending s l.
Proof.
  intros Hx Hu Hn Hp. unfold pending. f_equal. apply list_fmap_ext. intros i a Ha.
  rewrite payload_written, decide_False; [done| |done..]. intros ->. apply Hp. by eapply list_elem_of_lookup_2.
Qed.

Lemma send_bind {B} fd l s n e w (k : Z * Z -> M (rpc R W) B) :
  net_send fd l s.(world) = (n, e, w) -> (send fd l ≫= k) s = k (n, e) {| s with world := w |}.
Proof. intros E. unfold send, mbind, M_bind. by rewrite E. Qed.

Lemma hash_written s p x n w a : s.(pdus) !! p = Some x -> hash_of (written_on s p x n w) a = hash_of s a.
Proof.
  intros Hx. unfold hash_of. cbn. destruct (decide (a = p)) as [->|Hne]; [by rewrite lookup_insert_eq, Hx|].
  by rewrite lookup_insert_ne by done.
Qed.

(** The call is sent in part. *)
Lemma progress_part s Q p l x n w :
  holds s Q -> Q Out = p :: l -> sendable s (Q Out) -> s.(pdus) !! p = Some x -> unsent x ->
  0 < n < x.(out_size) - x.(written) -> taken w = taken s.(world) ++ take (Z.to_nat n) (payload s p) ->
  progress s (written_on s p x (x.(written) + n) w) Q Q p l.
Proof.
  intros HQ EQ Hsd Hx Hu Hn Ht. pose proof (payload_length s p x Hx Hu) as Hlen. pose proof Hu as (Hw & Hsz & Hfl).
  assert (p ∉ l) as Hpl.
  { destruct (h_queue _ _ HQ Out I) as (q & _ & Hs & _). rewrite EQ in Hs. apply seg_nodup in Hs. by apply NoDup_cons in Hs as [? _]. }
  assert (pending (written_on s p x (x.(written) + n) w) (p :: l) = drop (Z.to_nat n) (payload s p) ++ pending s l) as Epd.
  { unfold pending at 1. cbn [fmap list_fmap concat]. rewrite payload_written, decide_True by (done || lia). f_equal.
    apply pending_written; (done || lia). }
  split.
  - by apply (holds_touch s _ _ p x {| x with written := x.(written) + n |}).
  - intros a Ha. cbn. destruct (decide (a = p)) as [->|Hne].
    + eexists. rewrite lookup_insert_eq. split; [done|]. split_and!; cbn; (done || lia).
    + rewrite lookup_insert_ne by done. by apply Hsd.
  - change (world (written_on s p x (x.(written) + n) w)) with w. rewrite Ht, EQ, Epd, <- app_assoc, (app_assoc (take _ _)), take_drop. done.
  - rewrite EQ, Epd. unfold pending. cbn. rewrite !length_app, length_drop. lia.
  - intros a. by apply hash_written.
  - by left.
Qed.

(** The rest of the call is sent. *)
Lemma progress_sent s Q p l x t w :
  let s1 := written_on s p x x.(out_size) w in
  holds s Q -> Q Out = p :: l -> sendable s (Q Out) -> s.(pdus) !! p = Some x -> unsent x ->
  taken w = taken s.(world) ++ payload s p ->
  holds (count 1 t) (to_wait s1 Q p l) -> requeued s1 t ->
  progress s (count 1 t) Q (to_wait s Q p l) p l.
Proof.
  intros s1 HQ EQ Hsd Hx Hu Ht HQ' Hr. pose proof (payload_length s p x Hx Hu) as Hlen. pose proof Hu as (Hw & Hsz & Hfl).
  assert (p ∉ l) as Hpl.
  { destruct (h_queue _ _ HQ Out I) as (q & _ & Hs & _). rewrite EQ in Hs. apply seg_nodup in Hs. by apply NoDup_cons in Hs as [? _]. }
  assert (forall a, hash_of s1 a = hash_of s a) as Eh by (intros a; by apply hash_written).
  assert (to_wait s1 Q p l = to_wait s Q p l) as Eq by (unfold to_wait; by rewrite Eh). rewrite Eq in HQ'.
  assert (to_wait s Q p l Out = l) as Eo.
  { unfold to_wait. by rewrite fn_lookup_insert_ne, fn_lookup_insert. }
  assert (pending (count 1 t) l = pending s l) as Epd.
  { transitivity (pending s1 l).
    - unfold pending. f_equal. apply list_fmap_ext. intros i a _. exact (proj1 (requeued_same s1 t a Hr)).
    - unfold s1. replace x.(out_size) with (x.(written) + (x.(out_size) - x.(written))) by lia.
      apply pending_written; (done || lia). }
  split; rewrite ?Eo; [done|..].
  - intros a Ha. destruct (Hsd a) as (y & Hy & Huy); [rewrite EQ; set_solver|].
    apply (requeued_same s1 t a Hr) with (x := y); [|done]. cbn. rewrite lookup_insert_ne; [done|]. by intros ->.
  - rewrite EQ, Epd. unfold pending. cbn [fmap list_fmap concat]. rewrite app_assoc. f_equal.
    change (world (count 1 t)) with (world t). by rewrite <- (r_world _ _ Hr).
  - rewrite EQ, Epd. unfold pending. cbn. rewrite length_app. lia.
  - intros a. rewrite <- Eh. by apply (requeued_same s1 t a Hr).
  - right. pose proof (r_ctx _ _ Hr) as Ec. split; [done|].
    pose proof (f_equal waitpdu_len Ec) as E1. pose proof (f_equal fd Ec) as E2. cbn in *. by rewrite E1.
Qed.

Lemma write_step_ok s Q p l n e w :
  holds s Q -> Q Out = p :: l -> sendable s (Q Out) -> net_send s.(ctx).(fd) (payload s p) s.(world) = (n, e, w) ->
  (n = -1 /\ taken w = taken s.(world) /\
   exists er, write_step p s = Ok (Some (if e =? EAGAIN then 0 else -1)) {| s with world := w; mem := er |} /\
     er.(bytes) = s.(mem).(bytes)) \/
  exists s' Q', write_step p s = Ok None s' /\ progress s s' Q Q' p l.
Proof.
  intros HQ EQ Hsd Esend. destruct (Hsd p) as (x & Hx & Hu); [rewrite EQ; set_solver|].
  pose proof (payload_length s p x Hx Hu) as Hlen. pose proof Hu as (Hw & Hsz & Hfl).
  assert (forall B (k : list Z -> M (rpc R W) B), (on_mem (hread (x.(out_data) + x.(written))
    (u64 (s32 (x.(out_size) - x.(written))))) ≫= k) s = k (payload s p) s) as Hread.
  { intros B k. erewrite on_mem_bind by reflexivity. unfold payload. rewrite Hx, s32_small, u64_small by lia. by destruct s. }
  unfold write_step. rewrite gets_bind. erewrite pdu_at_bind by done. rewrite Hread, (send_bind _ _ _ _ _ _ _ Esend). cbn [fst snd].
  destruct (send_ok _ _ _ _ _ _ Esend) as [(-> & Ht)|(Hn & Ht)].
  { intros E. rewrite E in Hlen. cbn in Hlen. lia. }
  { left. split; [done|]. split; [done|]. change (-1 =? -1) with true. cbv iota. destruct (e =? EAGAIN).
    - exists s.(mem). split; [by destruct s|done].
    - eexists. split; [unfold set_error; by erewrite on_mem_bind by reflexivity|done]. }
  right. rewrite (proj2 (Z.eqb_neq n (-1))) by lia. cbv zeta. rewrite u32_small by lia.
  erewrite pdu_modify_bind by done. cbn [world]. fold (written_on s p x (x.(written) + n) w).
  assert (holds (written_on s p x (x.(written) + n) w) Q) as HQ1
    by by apply (holds_touch s _ _ p x {| x with written := x.(written) + n |}).
  destruct (Z.eqb_spec (x.(written) + n) x.(out_size)) as [En|En].
  - rewrite En in *. destruct (sent_ok (written_on s p x x.(out_size) w) Q p l {| x with written := x.(out_size) |}) as (t & E & HQ2 & Hr);
      [done..|apply lookup_insert_eq|done|].
    exists (count 1 t), (to_wait s Q p l). rewrite (bind_run _ _ _ _ _ E). split; [done|].
    eapply progress_sent; try done. by rewrite take_ge in Ht by lia.
  - exists (written_on s p x (x.(written) + n) w), Q. split; [done|]. apply progress_part; (done || lia).
Qed.

(** What the loop comes to: the calls [l1] are sent and wait, [l2] are still in the
    queue, and the stream has what they have lost. *)
Record flushed s Q s' (l1 l2 : list Z) : Prop := {
  fl_split : Q Out = l1 ++ l2;
  fl_queues : exists Q', holds s' Q' /\ Q' Out = l2 /\
    forall h, Q' (Wait h) = Q (Wait h) ++ filter (fun p => hash_of s p = h) l1;
  fl_stream : taken s'.(world) ++ pending s' l2 = taken s.(world) ++ pending s (Q Out);
  fl_count : u32 s'.(ctx).(waitpdu_len) = u32 (s.(ctx).(waitpdu_len) + Z.of_nat (length l1));
  fl_refused : l2 <> [] -> exists fd l w e w', net_send fd l w = (-1, e, w');
}.

Lemma flushed_nothing s Q s' :
  holds s Q -> s'.(ctx) = s.(ctx) -> s'.(pdus) = s.(pdus) -> s'.(mem).(bytes) = s.(mem).(bytes) ->
  taken s'.(world) = taken s.(world) ->
  (Q Out <> [] -> exists fd l w e w', net_send fd l w = (-1, e, w')) -> flushed s Q s' [] (Q Out).
Proof.
  intros HQ Ec Ep Eb Et Hre. split; [done|..|done].
  - exists Q. split_and!; [|done|]; [apply (holds_same s); [done| |done]; by rewrite Ec|]. intros h. by rewrite app_nil_r.
  - rewrite Et. f_equal. unfold pending. apply (f_equal (@concat Z)). apply list_fmap_ext. intros i a _. unfold payload. by rewrite Ep, Eb.
  - by rewrite Ec, Z.add_0_r.
Qed.

Lemma flushed_step s Q p l s1 Q1 s' l1 l2 :
  progress s s1 Q Q1 p l -> Q Out = p :: l -> flushed s1 Q1 s' l1 l2 -> exists l1', flushed s Q s' l1' l2.
Proof.
  intros [HQ1 Hsd Hst _ Hh Hq] EQ [Fs (Q2 & HQ2 & Fo & Fq) Ft Fc Fr].
  assert (forall h l, filter (fun a => hash_of s1 a = h) l = filter (fun a => hash_of s a = h) l) as Ef.
  { intros h l0. apply list_filter_iff. intros a. by rewrite Hh. }
  destruct Hq as [[-> Ec]|(-> & Ec & _)].
  - exists l1. split; [done| |by rewrite Ft|by rewrite Fc, Ec|done].
    exists Q2. split_and!; [done..|]. intros h. by rewrite Fq, Ef.
  - assert (to_wait s Q p l Out = l) as Eo by (unfold to_wait; by rewrite fn_lookup_insert_ne, fn_lookup_insert).
    exists (p :: l1). split; [by rewrite EQ, <- Eo, Fs| |by rewrite Ft| |done].
    + exists Q2. split_and!; [done..|]. intros h. rewrite Fq, Ef. unfold to_wait. rewrite filter_cons.
      destruct (decide (hash_of s p = h)) as [<-|Hne].
      * by rewrite fn_lookup_insert, <- app_assoc.
      * by rewrite fn_lookup_insert_ne, fn_lookup_insert_ne by congruence.
    + rewrite Fc, Ec. unfold u32, wrap. rewrite Zplus_mod_idemp_l. f_equal. cbn [length]. lia.
Qed.

Lemma write_loop_ok s Q fuel :
  holds s Q -> sendable s (Q Out) -> (length (pending s (Q Out)) < fuel)%nat ->
  exists r s' l1 l2, write_loop fuel s = Ok r s' /\ (r = 0 \/ r = -1 /\ l2 <> []) /\ flushed s Q s' l1 l2.
Proof.
  revert s Q. induction fuel as [|fuel IH]; intros s Q HQ Hsd Hf; [lia|].
  destruct (h_queue _ _ HQ Out I) as (q & Hq & Hk). cbn [write_loop]. erewrite queue_at_bind by done.
  rewrite (linked_head _ _ _ Hk). destruct (Q Out) as [|p l] eqn:EQ.
  { exists 0, s, [], []. split; [done|]. split; [by left|]. pose proof (flushed_nothing s Q s) as H. rewrite EQ in H. by apply H. }
  assert (p <> 0) as Hp0. { destruct Hk as [Hs _]. cbn in Hs. naive_solver. }
  cbn [head default]. rewrite (proj2 (Z.eqb_neq _ _)) by done.
  destruct (net_send s.(ctx).(fd) (payload s p) s.(world)) as [[n e] w] eqn:Es.
  destruct (write_step_ok s Q p l n e w HQ EQ ltac:(by rewrite EQ) Es) as [(-> & Ht & er & E & Eb)|(s1 & Q1 & E & Hpg)].
  - eexists _, _, [], (Q Out). rewrite (bind_run _ _ _ _ _ E). split; [reflexivity|].
    split; [destruct (e =? EAGAIN); [by left|right; by rewrite EQ]|].
    apply flushed_nothing; [done..|]. intros _. by eexists _, _, _, _, _.
  - destruct (IH s1 Q1) as (r & s' & l1 & l2 & E2 & Hr & Hfl); [apply Hpg..| |].
    { pose proof (pg_less _ _ _ _ _ _ Hpg) as H1. rewrite EQ in H1. lia. }
    destruct (flushed_step _ _ _ _ _ _ _ _ _ Hpg EQ Hfl) as [l1' Hfl'].
    exists r, s', l1', l2. rewrite (bind_run _ _ _ _ _ E), E2. done.
Qed.

(** C15 Calls are sent in the order they were queued, byte for byte, and none is lost:
    when [rpc_write_to_socket] returns - which it does within one round per byte
    that is pending - the connection has taken a part of the pending bytes from
    the front, the rest is still pending, and the calls that are gone from the
    queue are those sent completely: each waits, in the chain of its number, for
    its reply.  Calls stay in the queue only when the connection refuses bytes. *)
Theorem write_to_socket_stream s Q fuel :
  s.(ctx).(magic) = RPC_CONTEXT_MAGIC -> s.(ctx).(fd) <> -1 ->
  holds s Q -> sendable s (Q Out) -> (length (pending s (Q Out)) < fuel)%nat ->
  exists r s' l1 l2, rpc_write_to_socket fuel s = Ok r s' /\ (r = 0 \/ r = -1 /\ l2 <> []) /\ flushed s Q s' l1 l2.
Proof.
  intros Hm Hfd HQ Hsd Hf. unfold rpc_write_to_socket. rewrite check_magic_bind, gets_bind by done.
  rewrite (proj2 (Z.eqb_neq _ _)) by done. by apply write_loop_ok.
Qed.
End writing.
