(* ===== verification/RpcLife.v ===== *)
(** * The life of calls when the connection breaks

    What [Rpc] does when the socket fails: with reconnection on, every call that
    has been sent goes back to the queue to be sent again from its first byte;
    without, every call is told, once, and freed.  Then the places where the
    books are not kept: the number of waiting calls is not set back when they are
    all ended, and the tail of a queue is not when its last call times out.  And
    two loops: the search for a port ends, rounding up to a power of two does
    not for the largest numbers. *)
From stdpp Require Import functions.
From S2P Require Import Prelude Bytes Zdr ZdrSpec ZdrMsg Rpc RpcSpec RpcReply RpcStream.
#[local] Arguments le_bytes : simpl never.
#[local] Arguments bytes_at : simpl never.
#[local] Arguments store_bytes : simpl never.

Section requeue.
Context {R W : Type} {Mal : Allocator} `{!Net W} `{!Callbacks R W}.
Implicit Types (s : rpc R W) (Q : queue_loc -> list Z) (p : Z) (l : list Z).

(** ** Sent calls go back *)

(** The calls of [l] start anew, links may be others, the rest is the same. *)
Record rewound s s' l : Prop := {
  rw_calls a x : s.(pdus) !! a = Some x -> exists n,
    s'.(pdus) !! a = Some {| x with p_next := n; written := if decide (a ∈ l) then 0 else x.(written) |};
  rw_ctx : no_queues s'.(ctx) = no_queues s.(ctx);
  rw_mem : s'.(mem) = s.(mem);
  rw_world : s'.(world) = s.(world);
}.

Lemma rewound_trans s1 s2 s3 l1 l2 : rewound s1 s2 l1 -> rewound s2 s3 l2 -> rewound s1 s3 (l1 ++ l2).
Proof.
  intros [C1 X1 M1 W1] [C2 X2 M2 W2]. split; [|congruence..]. intros a x Hx.
  destruct (C1 a x Hx) as [n1 H1]. destruct (C2 _ _ H1) as [n2 H2]. cbn in H2. exists n2. rewrite H2. do 2 f_equal.
  destruct (decide (a ∈ l2)), (decide (a ∈ l1)), (decide (a ∈ l1 ++ l2)); (done || set_solver).
Qed.

(** The chain that is emptied does not matter while its calls are moved. *)
Section commute.
Context (h : Z) (q : rpc_queue).

Definition commutes {A} (c : M (rpc R W) A) : Prop :=
  forall s, c (put_queue (Wait h) q s) = match c s with Ok a t => Ok a (put_queue (Wait h) q t) | Stuck e => Stuck e end.

Lemma commutes_bind {A B} (c : M (rpc R W) A) (k : A -> M (rpc R W) B) :
  commutes c -> (forall a, commutes (k a)) -> commutes (c ≫= k).
Proof. intros Hc Hk s. unfold mbind, M_bind. rewrite Hc. destruct (c s) as [a t|e]; [apply Hk|done]. Qed.
Lemma commutes_ret {A} (a : A) : commutes (mret a).
Proof. done. Qed.
Lemma commutes_pdu_at p : commutes (pdu_at p).
Proof. intros s. unfold pdu_at, mbind, M_bind, get, deref. cbn. by destruct (pdus s !! p). Qed.
Lemma commutes_pdu_modify p f : commutes (pdu_modify p f).
Proof. apply commutes_bind; [apply commutes_pdu_at|done]. Qed.
Lemma commutes_return p : commutes (rpc_return_to_queue Out p).
Proof.
  apply commutes_bind; [done|]. intros q0. apply commutes_bind; [apply commutes_pdu_modify|]. intros [] s. done.
Qed.
Lemma commutes_requeue fuel p : commutes (requeue_chain fuel p).
Proof.
  revert p. induction fuel as [|fuel IH]; intros p; [done|]. cbn [requeue_chain]. destruct (p =? 0); [apply commutes_ret|].
  apply commutes_bind; [apply commutes_pdu_at|]. intros x. apply commutes_bind; [apply commutes_return|]. intros [].
  apply commutes_bind; [apply commutes_pdu_modify|]. intros []. apply IH.
Qed.
End commute.

(** The calls of a chain that is in no queue any more. *)
Lemma requeue_chain_ok fuel p rest s Q :
  holds s Q -> seg s.(pdus) p rest 0 -> (forall a, a ∈ rest -> unqueued Q a) -> (length rest < fuel)%nat ->
  exists s' Q', requeue_chain fuel p s = Ok tt s' /\ holds s' Q' /\ rewound s s' rest /\
    Q' Out = reverse rest ++ Q Out /\ forall h, Q' (Wait h) = Q (Wait h).
Proof.
  revert p s Q fuel. induction rest as [|a rest IH]; intros p s Q [|fuel] HQ Hs Hu Hf; [cbn in Hf; lia| |cbn in Hf; lia|].
  - cbn in Hs. subst p. exists s, Q. split; [done|]. split; [done|]. split; [|done]. split; try done. intros a x Hx. exists x.(p_next).
    rewrite decide_False by set_solver. by destruct x.
  - pose proof (seg_nodup _ _ _ Hs) as [Ha Hnd]%NoDup_cons. cbn in Hs. destruct Hs as (-> & Ha0 & x & Hx & Hs).
    cbn [requeue_chain]. rewrite (proj2 (Z.eqb_neq _ _)) by done. erewrite pdu_at_bind by done.
    destruct (return_ok s Q Out a x) as (s1 & E1 & HQ1 & Hr & Hsame); [done|done|apply Hu; set_solver|done|done|by intros h|].
    destruct (erase_lookup _ _ a x (r_calls _ _ Hr) Hx) as [n Hn].
    rewrite (bind_run _ _ _ _ _ E1). erewrite pdu_modify_bind by done. set (s2 := {| s1 with pdus := _ |}).
    set (Q1 := <[Out := a :: Q Out]> Q) in *.
    destruct (IH x.(p_next) s2 Q1 fuel) as (s' & Q' & E2 & HQ2 & Hrw & Eo & Ew).
    + by apply (holds_touch s1 _ _ a {| x with p_next := n |} {| x with p_next := n; written := 0 |}).
    + apply (seg_ext s.(pdus)); [|done]. intros b y Hb Hy. exists y. cbn.
      rewrite lookup_insert_ne, Hsame; [done|intros ->; done|intros ->; done].
    + intros b Hb [] Hl; unfold Q1; [rewrite fn_lookup_insert|rewrite fn_lookup_insert_ne by done].
      * intros [->|Hin]%elem_of_cons; [done|]. by apply (Hu b ltac:(set_solver) Out).
      * by apply (Hu b); [set_solver|].
    + cbn in Hf. lia.
    + exists s', Q'. split; [done|]. split; [done|]. split; [|split].
      * change (a :: rest) with ([a] ++ rest). eapply rewound_trans; [|done].
        split; [|by rewrite (r_ctx _ _ Hr)|by rewrite (r_mem _ _ Hr)|by rewrite (r_world _ _ Hr)].
        intros b y Hy. cbn. destruct (decide (b = a)) as [->|Hne].
        -- exists n. rewrite lookup_insert_eq, decide_True by set_solver. by simplify_eq.
        -- exists y.(p_next). rewrite lookup_insert_ne, Hsame, decide_False by set_solver. rewrite Hy. by destruct y.
      * rewrite Eo. unfold Q1. by rewrite fn_lookup_insert, reverse_cons, <- app_assoc.
      * intros h. rewrite Ew. unfold Q1. by rewrite fn_lookup_insert_ne.
Qed.

Lemma holds_reset s Q (l0 : queue_loc) :
  holds s Q -> valid l0 ->
  holds (put_queue l0 (mk_queue 0 0) s) (<[l0 := []]> Q) /\ forall a, a ∈ Q l0 -> unqueued (<[l0 := []]> Q) a.
Proof.
  intros HQ Hl. split.
  - eapply holds_relinked; [done..|apply requeued_put| |set_solver|done]. by split.
  - intros a Ha l' Hl'. destruct (decide (l' = l0)) as [->|Hne]; [rewrite fn_lookup_insert; set_solver|].
    rewrite fn_lookup_insert_ne by done. intros Ha'. by apply Hne, (h_once _ _ HQ _ _ a).
Qed.

Lemma requeue_ok s Q h :
  holds s Q -> valid (Wait h) ->
  exists s' Q', requeue (Wait h) s = Ok tt s' /\ holds s' Q' /\ rewound s s' (Q (Wait h)) /\
    Q' Out = reverse (Q (Wait h)) ++ Q Out /\ Q' (Wait h) = [] /\ forall h', h' <> h -> Q' (Wait h') = Q (Wait h').
Proof.
  intros HQ Hh. destruct (h_queue _ _ HQ _ Hh) as (q & Hq & Hs & _).
  destruct (holds_reset s Q (Wait h) HQ Hh) as [HQ0 Hun]. set (s0 := put_queue _ _ s) in *.
  destruct (requeue_chain_ok (S (size s.(pdus))) q.(q_head) (Q (Wait h)) s0 _ HQ0 Hs Hun (seg_fuel _ _ _ Hs))
    as (s' & Q' & E & HQ' & Hrw & Eo & Ew).
  unfold s0 in E. rewrite commutes_requeue in E. destruct (requeue_chain _ _ s) as [[] t|] eqn:Et; [|done]. injection E as E.
  exists s', Q'. unfold requeue. erewrite queue_at_bind, get_bind by done. rewrite (bind_run _ _ _ _ _ Et).
  unfold rpc_reset_queue. rewrite queue_put_run, E. split_and!; try done.
  - destruct Hrw as [C X M0 W0]. by split.
  - rewrite Ew. by rewrite fn_lookup_insert.
  - intros h' Hne. rewrite Ew. rewrite fn_lookup_insert_ne by congruence. done.
Qed.

Lemma requeue_all hs s Q :
  holds s Q -> NoDup hs -> Forall (fun h => valid (Wait h)) hs ->
  exists s' Q', for_each (Wait <$> hs) requeue s = Ok tt s' /\ holds s' Q' /\
    rewound s s' (concat ((fun h => Q (Wait h)) <$> hs)) /\
    Q' Out = reverse (concat ((fun h => Q (Wait h)) <$> hs)) ++ Q Out /\
    forall h, Q' (Wait h) = if decide (h ∈ hs) then [] else Q (Wait h).
Proof.
  revert s Q. induction hs as [|h hs IH]; intros s Q HQ Hnd Hv.
  - exists s, Q. split; [done|]. split; [done|]. split; [|split; [done|]].
    + split; try done. intros a x Hx. exists x.(p_next). cbn. rewrite decide_False by set_solver. by destruct x.
    + intros h. by rewrite decide_False by set_solver.
  - apply NoDup_cons in Hnd as [Hh Hnd]. apply Forall_cons in Hv as [Hvh Hv].
    destruct (requeue_ok s Q h HQ Hvh) as (s1 & Q1 & E1 & HQ1 & Hr1 & Eo1 & Eh & Ew1).
    destruct (IH s1 Q1 HQ1 Hnd Hv) as (s' & Q' & E2 & HQ2 & Hr2 & Eo2 & Ew2).
    assert ((fun h => Q1 (Wait h)) <$> hs = (fun h => Q (Wait h)) <$> hs) as Es.
    { apply list_fmap_ext. intros i h' Hi%list_elem_of_lookup_2. apply Ew1. by intros ->. }
    rewrite Es in Hr2, Eo2. exists s', Q'. cbn [fmap list_fmap for_each]. rewrite (bind_run _ _ _ _ _ E1).
    split; [exact E2|]. split; [done|]. split; [by eapply rewound_trans|]. split.
    + rewrite Eo2, Eo1. cbn [concat]. by rewrite reverse_app, app_assoc.
    + intros h'. rewrite Ew2. destruct (decide (h' = h)) as [->|Hne].
      * rewrite Eh. rewrite (decide_True (P := h ∈ h :: hs)) by set_solver. by destruct (decide _).
      * rewrite Ew1 by done. destruct (decide (h' ∈ hs)), (decide (h' ∈ h :: hs)); (done || set_solver).
Qed.

(** Every call of the chains, in the order of the chains. *)
Definition in_flight Q : list Z := concat ((fun h => Q (Wait h)) <$> zseq 0 (Z.to_nat HASHES)).

Lemma hashes_valid : Forall (fun h => valid (Wait h)) (zseq 0 (Z.to_nat HASHES)).
Proof. apply Forall_forall. intros h Hh%elem_of_zseq. unfold valid. unfold HASHES in *. lia. Qed.

Lemma queued_call s Q a : holds s Q -> a ∈ Q Out \/ a ∈ in_flight Q -> exists x, s.(pdus) !! a = Some x.
Proof.
  intros HQ Ha. assert (exists l : queue_loc, valid l /\ a ∈ Q l) as (l & Hl & Hin).
  { destruct Ha as [Ha|Ha]; [by exists Out|]. unfold in_flight in Ha.
    apply list_elem_of_In, in_concat in Ha as (la & Hla%list_elem_of_In & Ha%list_elem_of_In).
    apply list_elem_of_fmap in Hla as (h & -> & Hh). exists (Wait h). split; [|done]. by apply (proj1 (Forall_forall _ _) hashes_valid). }
  destruct (h_queue _ _ HQ l Hl) as (q & _ & Hs & _). by destruct (seg_elem _ _ _ _ a Hs Hin) as [_ ?].
Qed.

(** The head of the queue may have been sent in part. *)
Lemma rewind_head s Q :
  holds s Q -> (forall a x, a ∈ tail (Q Out) -> s.(pdus) !! a = Some x -> x.(written) = 0) ->
  exists s1, (q ← queue_at Out; when (negb (q.(q_head) =? 0)) (pdu_modify q.(q_head) (fun x => {| x with written := 0 |}))) s = Ok tt s1 /\
    holds s1 Q /\ (forall a x, a ∈ Q Out -> s1.(pdus) !! a = Some x -> x.(written) = 0) /\
    s1.(ctx) = s.(ctx) /\ s1.(mem) = s.(mem) /\ s1.(world) = s.(world).
Proof.
  intros HQ Hw. destruct (h_queue _ _ HQ Out I) as (q & Hq & Hk). erewrite queue_at_bind by done.
  rewrite (linked_head _ _ _ Hk). destruct Hk as [Hs _]. destruct (Q Out) as [|p l] eqn:EQ.
  { exists s. split; [done|]. split; [done|]. split; [set_solver|done]. }
  pose proof (seg_nodup _ _ _ Hs) as [Hp _]%NoDup_cons. cbn in Hs. destruct Hs as (_ & Hp0 & x & Hx & _).
  cbn [head default]. rewrite (proj2 (Z.eqb_neq _ _)) by done. cbn [negb when]. erewrite pdu_modify_run by done.
  eexists. split; [reflexivity|]. split; [by apply (holds_touch s _ _ p x {| x with written := 0 |})|]. split; [|done].
  cbn. intros a y Ha. destruct (decide (a = p)) as [->|Hne]; [rewrite lookup_insert_eq; by intros [= <-]|].
  rewrite lookup_insert_ne by done. apply Hw. set_solver.
Qed.

Lemma reconnect_rest s Q (K : M (rpc R W) Z) :
  holds s Q -> (forall a x, a ∈ tail (Q Out) -> s.(pdus) !! a = Some x -> x.(written) = 0) ->
  exists s1 Q1,
    (q ← queue_at Out; when (negb (q.(q_head) =? 0)) (pdu_modify q.(q_head) (fun x => {| x with written := 0 |}));;
     for_each wait_queues requeue;;
     ctx_modify (fun c => {| c with waitpdu_len := 0 |});; K) s = K s1 /\
    holds s1 Q1 /\ Q1 Out = reverse (in_flight Q) ++ Q Out /\ (forall h, valid (Wait h) -> Q1 (Wait h) = []) /\
    s1.(ctx).(waitpdu_len) = 0 /\ s1.(ctx).(is_connected) = s.(ctx).(is_connected) /\
    (forall a x, a ∈ Q1 Out -> s1.(pdus) !! a = Some x -> x.(written) = 0) /\
    s1.(mem) = s.(mem) /\ s1.(world) = s.(world).
Proof.
  intros HQ Hw. destruct (rewind_head s Q HQ Hw) as (s0 & E0 & HQ0 & Hw0 & Ec0 & Em0 & Ew0).
  destruct (requeue_all (zseq 0 (Z.to_nat HASHES)) s0 Q HQ0) as (s1 & Q1 & E1 & HQ1 & Hr & Eo & Eh).
  { apply NoDup_zseq. } { apply hashes_valid. }
  fold (in_flight Q) in Hr, Eo.
  eexists {| s1 with ctx := {| s1.(ctx) with waitpdu_len := 0 |} |}, Q1. split_and!.
  - rewrite <- bind_assoc, (bind_run _ _ _ _ _ E0). unfold wait_queues. by rewrite (bind_run _ _ _ _ _ E1).
  - by apply (holds_same s1); [|intros []|].
  - exact Eo.
  - intros h Hh. rewrite Eh, decide_True; [done|]. apply elem_of_zseq. unfold valid in Hh. unfold HASHES in *. lia.
  - done.
  - cbn. rewrite <- Ec0. destruct Hr as [_ X _ _]. by apply (f_equal is_connected) in X.
  - intros a x Ha Hx. cbn in Hx. rewrite Eo in Ha.
    destruct (queued_call s0 Q a HQ0) as [x0 Hx0].
    { apply elem_of_app in Ha as [Ha|Ha]; [right; by rewrite <- elem_of_reverse|by left]. }
    destruct (rw_calls _ _ _ Hr a x0 Hx0) as [n Hn]. rewrite Hx in Hn. injection Hn as ->. cbn [written].
    destruct (decide (a ∈ in_flight Q)) as [|Hnin]; [done|]. apply (Hw0 a); [|done].
    apply elem_of_app in Ha as [Ha|Ha]; [|done]. exfalso. apply Hnin. by rewrite <- elem_of_reverse.
  - cbn. by rewrite (rw_mem _ _ _ Hr).
  - cbn. by rewrite (rw_world _ _ _ Hr).
Qed.

(** C21 A broken connection loses no call: when [rpc_reconnect_requeue] starts to
    connect again, every call that had been sent is back in the queue, before the
    calls that had not, each in exactly one place and to be sent from its first
    byte; no call waits, and the count of waiting calls is zero. *)
Theorem reconnect_keeps_calls s Q :
  s.(ctx).(magic) = RPC_CONTEXT_MAGIC -> s.(ctx).(auto_reconnect) <> 0 -> holds s Q ->
  (forall a x, a ∈ tail (Q Out) -> s.(pdus) !! a = Some x -> x.(written) = 0) ->
  exists s1 Q1,
    rpc_reconnect_requeue s =
      (c ← gets ctx;
       if (c.(auto_reconnect) <? 0) || (0 <? c.(num_retries)) then
         ctx_modify (fun c => {| c with num_retries := s32 (c.(num_retries) - 1); connect_cb := Reconnect_cb |});;
         r ← rpc_connect_sockaddr_async;
         if negb (r =? 0) then rpc_error_all_pdus "RPC ERROR: Failed to reconnect async";; mret (-1) else mret 0
       else rpc_error_all_pdus "RPC ERROR: All attempts to reconnect failed.";; mret (-1)) s1 /\
    holds s1 Q1 /\ Q1 Out = reverse (in_flight Q) ++ Q Out /\ (forall h, valid (Wait h) -> Q1 (Wait h) = []) /\
    s1.(ctx).(waitpdu_len) = 0 /\ s1.(ctx).(is_connected) = 0 /\
    (forall a x, a ∈ Q1 Out -> s1.(pdus) !! a = Some x -> x.(written) = 0) /\
    s1.(mem) = s.(mem) /\ s1.(world) = s.(world).
Proof.
  intros Hm Har HQ Hw. unfold rpc_reconnect_requeue. rewrite check_magic_bind, gets_bind by done.
  rewrite (proj2 (Z.eqb_neq _ _)) by done.
  assert (exists c1, c1.(is_connected) = 0 /\ (forall l : queue_loc, qget c1 l = qget s.(ctx) l) /\
    forall K : M (rpc R W) Z,
      (when (negb (s.(ctx).(is_connected) =? 0)) (ctx_modify (fun c => {| c with num_retries := c.(auto_reconnect) |}));;
       when (negb (s.(ctx).(fd) =? -1)) (ctx_modify (fun c => {| c with old_fd := c.(fd) |}));;
       ctx_modify (fun c => {| c with fd := -1; is_connected := 0 |});; K) s = K {| s with ctx := c1 |}) as (c1 & Hc1 & Hq1 & E).
  { destruct (is_connected _ =? 0), (fd _ =? -1); cbn [negb when]; (eexists; split; [|split; [|intros K; reflexivity]]); (done || by intros []). }
  rewrite E. destruct (reconnect_rest {| s with ctx := c1 |} Q (
      c ← gets ctx;
      if (c.(auto_reconnect) <? 0) || (0 <? c.(num_retries)) then
        ctx_modify (fun c => {| c with num_retries := s32 (c.(num_retries) - 1); connect_cb := Reconnect_cb |});;
        r ← rpc_connect_sockaddr_async;
        if negb (r =? 0) then rpc_error_all_pdus "RPC ERROR: Failed to reconnect async";; mret (-1) else mret 0
      else rpc_error_all_pdus "RPC ERROR: All attempts to reconnect failed.";; mret (-1)))
    as (s1 & Q1 & E1 & HQ1 & Eo & Eh & El & Ec & Hw1 & Em & Ew); [by apply (holds_same s)|done|].
  exists s1, Q1. split_and!; try done. by rewrite Ec.
Qed.
End requeue.

(** ** All calls are ended *)

(** Callbacks that take note of what they are told, and do nothing else. *)
Class Listener (R W : Type) `{!Callbacks R W} := {
  told : W -> list (Z * Z * cb_data R * Z);
  told_ok : forall cb status d private (s : rpc R W), exists w,
    run_cb cb status d private s = Ok tt {| s with world := w |} /\ told w = told s.(world) ++ [(cb, status, d, private)];
}.

Section ending.
Context {R W : Type} {Mal : Allocator} `{!Net W} `{!Callbacks R W} `{!Listener R W}.
Implicit Types (s : rpc R W) (Q : queue_loc -> list Z) (p : Z) (l : list Z) (ql : queue_loc).

(** The blocks that go with a call. *)
Definition call_blocks p (x : rpc_pdu R) : list Z := x.(out_data) :: x.(p_zdr).(zmem) ++ [p].
Definition cblocks s p : list Z := match s.(pdus) !! p with Some x => call_blocks p x | None => [] end.
Definition in_use (h : heap) (ps : list Z) : Prop := NoDup ps /\ forall a, a ∈ ps -> a <> 0 /\ a ∈ h.(blocks).*1.

Lemma in_use_app h h' ps qs : in_use h (ps ++ qs) -> freed ps h h' -> in_use h ps /\ in_use h' qs.
Proof.
  intros [(Hp & Hd & Hq)%NoDup_app Hin] Hf. split; (split; [done|]); intros a Ha.
  - apply Hin. set_solver.
  - destruct (Hin a) as [H0 Hb]; [set_solver|]. split; [done|]. apply (freed_in _ _ _ _ Hf Hb). intros Ha'. by apply (Hd a).
Qed.
Lemma in_use_l h ps qs : in_use h (ps ++ qs) -> in_use h ps.
Proof. intros [(Hp & _ & _)%NoDup_app Hin]. split; [done|]. intros a Ha. apply Hin. set_solver. Qed.

Lemma destroy_run z h : in_use h z.(zmem) ->
  exists h', libnfs_zdr_destroy (mk_zst z h) = Ok tt (mk_zst {| z with zmem := [] |} h') /\ freed z.(zmem) h h'.
Proof.
  intros Hu. unfold libnfs_zdr_destroy. rewrite gets_bind. cbn [zdrs].
  assert (forall ps h, in_use h ps -> exists h', for_each ps (fun mem => on_heap (hfree mem)) (mk_zst z h) = Ok tt (mk_zst z h') /\
    freed ps h h') as Hall.
  { clear h Hu. induction ps as [|p ps IH]; intros h Hu; [exists h; split; [done|apply freed_nil]|].
    destruct (proj2 Hu p) as [H0 Hb]; [set_solver|]. destruct (hfree_run p h H0 Hb) as (h1 & E1 & F1).
    destruct (in_use_app h h1 [p] ps Hu F1) as [_ Hu1]. destruct (IH h1 Hu1) as (h2 & E2 & F2).
    exists h2. cbn [for_each]. rewrite (bind_run _ _ _ tt (mk_zst z h1)), E2; [split; [done|exact (freed_trans _ _ _ _ _ F1 F2)]|].
    unfold on_heap, zoom. cbn. by rewrite E1. }
  destruct (Hall z.(zmem) h Hu) as (h' & E & F). exists h'. by rewrite (bind_run _ _ _ _ _ E).
Qed.

Lemma with_pdu_zdr_run {A} s p x (c : M zst A) a t :
  s.(pdus) !! p = Some x -> c (mk_zst x.(p_zdr) s.(mem)) = Ok a t ->
  with_pdu_zdr p c s = Ok a {| s with mem := t.(hp); pdus := <[p := {| x with p_zdr := t.(zdrs) |}]> s.(pdus) |}.
Proof.
  intros Hx Hc. unfold with_pdu_zdr. erewrite pdu_at_bind by done. erewrite run_zdr_bind by done.
  by erewrite pdu_modify_bind by done.
Qed.

Lemma free_pdu_ok s p x :
  s.(ctx).(magic) = RPC_CONTEXT_MAGIC -> s.(pdus) !! p = Some x -> in_use s.(mem) (call_blocks p x) ->
  exists h, rpc_free_pdu p s = Ok tt {| s with mem := h; pdus := delete p s.(pdus) |} /\ freed (call_blocks p x) s.(mem) h.
Proof.
  intros Hm Hx Hu. unfold rpc_free_pdu. rewrite check_magic_bind by done. erewrite pdu_at_bind by done.
  destruct (proj2 Hu x.(out_data)) as [H0 Hb]; [unfold call_blocks; set_solver|].
  destruct (hfree_run x.(out_data) s.(mem) H0 Hb) as (h1 & E1 & F1). erewrite on_mem_bind by done.
  destruct (in_use_app s.(mem) h1 [x.(out_data)] _ Hu F1) as [_ Hu1].
  destruct (destroy_run x.(p_zdr) h1 (in_use_l _ _ _ Hu1)) as (h2 & E2 & F2).
  destruct (in_use_app h1 h2 _ [p] Hu1 F2) as [_ Hu2].
  destruct (proj2 Hu2 p) as [Hp0 Hbp]; [set_solver|]. destruct (hfree_run p h2 Hp0 Hbp) as (h3 & E3 & F3).
  exists h3. split; [|exact (freed_trans _ _ _ _ _ F1 (freed_trans _ _ _ _ _ F2 F3))].
  rewrite (bind_run _ _ _ _ _ (with_pdu_zdr_run {| s with mem := h1 |} p x _ tt _ Hx E2)).
  erewrite on_mem_bind by exact E3. unfold modify. cbn. by rewrite delete_insert_eq.
Qed.

(** What a call is told. *)
Definition told_of s (status : Z) (d : cb_data R) p : Z * Z * cb_data R * Z :=
  match s.(pdus) !! p with Some x => (x.(p_cb), status, d, x.(p_private)) | None => (0, status, d, 0) end.

(** The calls [l] are told and gone, the others are as they were. *)
Record ended s s' (status : Z) (d : cb_data R) l : Prop := {
  en_told : told s'.(world) = told s.(world) ++ (told_of s status d <$> l);
  en_gone a : a ∈ l -> s'.(pdus) !! a = None;
  en_others a : a ∉ l -> s'.(pdus) !! a = s.(pdus) !! a;
  en_freed : freed (concat (cblocks s <$> l)) s.(mem) s'.(mem);
}.

Lemma ended_same s s' l l' st d :
  (forall a, a ∈ l -> s'.(pdus) !! a = s.(pdus) !! a) -> (forall a, a ∈ l' -> a ∈ l) ->
  told_of s' st d <$> l' = told_of s st d <$> l' /\ cblocks s' <$> l' = cblocks s <$> l'.
Proof.
  intros Hs Hl. split; apply list_fmap_ext; intros i a Ha%list_elem_of_lookup_2; unfold told_of, cblocks; by rewrite Hs by auto.
Qed.

Lemma ended_trans s1 s2 s3 st d l1 l2 :
  NoDup (l1 ++ l2) -> ended s1 s2 st d l1 -> ended s2 s3 st d l2 -> ended s1 s3 st d (l1 ++ l2).
Proof.
  intros (_ & Hd & _)%NoDup_app [T1 G1 O1 F1] [T2 G2 O2 F2].
  destruct (ended_same s1 s2 l2 l2 st d) as [Et Ec]; [|done|].
  { intros a Ha. apply O1. intros Ha'. by apply (Hd a). }
  split.
  - by rewrite T2, T1, Et, fmap_app, app_assoc.
  - intros a [Ha|Ha]%elem_of_app; [|by apply G2]. rewrite O2; [by apply G1|]. by apply Hd.
  - intros a Ha. rewrite O2, O1; [done|set_solver..].
  - rewrite fmap_app, concat_app, <- Ec. by eapply freed_trans.
Qed.

Lemma purge_chain_ok fuel st d p rest s Q :
  s.(ctx).(magic) = RPC_CONTEXT_MAGIC -> holds s Q -> seg s.(pdus) p rest 0 -> (forall a, a ∈ rest -> unqueued Q a) ->
  in_use s.(mem) (concat (cblocks s <$> rest)) -> (length rest < fuel)%nat ->
  exists s', purge_chain fuel st d p s = Ok tt s' /\ holds s' Q /\ ended s s' st d rest /\ s'.(ctx) = s.(ctx).
Proof.
  revert p s fuel. induction rest as [|a rest IH]; intros p s [|fuel] Hm HQ Hs Hu Hb Hf; [cbn in Hf; lia| |cbn in Hf; lia|].
  - cbn in Hs. subst p. exists s. split; [done|]. split; [done|]. split; [|done]. split; cbn; [by rewrite app_nil_r|set_solver|done|apply freed_nil].
  - pose proof (seg_nodup _ _ _ Hs) as Hnd. pose proof Hnd as [Ha Hnd']%NoDup_cons. cbn in Hs. destruct Hs as (-> & Ha0 & x & Hx & Hs).
    cbn [purge_chain]. rewrite (proj2 (Z.eqb_neq _ _)) by done. erewrite pdu_at_bind by done.
    unfold set_next. erewrite pdu_modify_bind by done. set (s1 := {| s with pdus := _ |}).
    destruct (told_ok x.(p_cb) st d x.(p_private) s1) as (w & Ecb & Ht). rewrite (bind_run _ _ _ _ _ Ecb). set (s2 := {| s1 with world := w |}).
    assert (cblocks s a = call_blocks a x) as Eb by (unfold cblocks; by rewrite Hx).
    cbn [fmap list_fmap concat] in Hb. rewrite Eb in Hb.
    destruct (free_pdu_ok s2 a {| x with p_next := 0 |}) as (h & Efr & Fr); [done|apply lookup_insert_eq|exact (in_use_l _ _ _ Hb)|].
    rewrite (bind_run _ _ _ _ _ Efr). set (s3 := {| s2 with mem := h; pdus := _ |}).
    assert (forall b, b <> a -> s3.(pdus) !! b = s.(pdus) !! b) as Hsame
      by (intros b Hb'; cbn; by rewrite lookup_delete_ne, lookup_insert_ne by done).
    assert (ended s s3 st d [a]) as He1.
    { split; cbn; rewrite ?Eb, ?app_nil_r.
      - rewrite Ht. unfold told_of. cbn. by rewrite Hx.
      - intros b ->%list_elem_of_singleton. apply lookup_delete_eq.
      - intros b Hb'. apply Hsame. set_solver.
      - exact Fr. }
    destruct (ended_same s s3 rest rest st d) as [_ Ec]; [intros b Hb'; apply Hsame; by intros ->|done|].
    destruct (IH x.(p_next) s3 fuel) as (s' & E & HQ' & He2 & Ectx); [done|..|cbn in Hf; lia|].
    + apply (holds_unqueued s _ _ a); [done|apply Hu; set_solver|done..].
    + apply (seg_ext s.(pdus)); [|done]. intros b y Hb' Hy. exists y. rewrite Hsame; [done|]. by intros ->.
    + intros b Hb'. apply Hu. set_solver.
    + rewrite Ec. by eapply in_use_app.
    + exists s'. split; [exact E|]. split; [done|]. split; [|done]. change (a :: rest) with ([a] ++ rest). by eapply ended_trans.
Qed.

Lemma purge_queue_ok st d s Q (ql : queue_loc) :
  s.(ctx).(magic) = RPC_CONTEXT_MAGIC -> holds s Q -> valid ql -> in_use s.(mem) (concat (cblocks s <$> Q ql)) ->
  exists s', purge_queue st d ql s = Ok tt s' /\ holds s' (<[ql := []]> Q) /\ ended s s' st d (Q ql) /\
    no_queues s'.(ctx) = no_queues s.(ctx).
Proof.
  intros Hm HQ Hl Hb. destruct (h_queue _ _ HQ ql Hl) as (q & Hq & Hs & _).
  destruct (holds_reset s Q ql HQ Hl) as [HQ0 Hun]. set (s0 := put_queue _ _ s) in *.
  destruct (purge_chain_ok (S (size s.(pdus))) st d q.(q_head) (Q ql) s0 (<[ql := []]> Q)) as (s' & E & HQ' & He & Ec);
    [by destruct ql|done..|by eapply seg_fuel|].
  exists s'. unfold purge_queue. erewrite queue_at_bind by done. unfold rpc_reset_queue. rewrite queue_put_bind, get_bind.
  split; [exact E|]. split; [done|]. split; [by destruct He|]. rewrite Ec. by destruct ql.
Qed.

Lemma purge_all st d (ls : list queue_loc) s Q :
  s.(ctx).(magic) = RPC_CONTEXT_MAGIC -> holds s Q -> NoDup ls -> Forall valid ls -> NoDup (concat (Q <$> ls)) ->
  in_use s.(mem) (concat (cblocks s <$> concat (Q <$> ls))) ->
  exists s' Q', for_each ls (purge_queue st d) s = Ok tt s' /\ holds s' Q' /\
    (forall ql : queue_loc, Q' ql = if decide (ql ∈ ls) then [] else Q ql) /\ ended s s' st d (concat (Q <$> ls)) /\
    no_queues s'.(ctx) = no_queues s.(ctx).
Proof.
  revert s Q. induction ls as [|ql ls IH]; intros s Q Hm HQ Hnd Hv Hndq Hb.
  - exists s, Q. split; [done|]. split; [done|]. split; [|split; [|done]].
    + intros ql. by rewrite decide_False by set_solver.
    + split; cbn; [by rewrite app_nil_r|set_solver|done|apply freed_nil].
  - apply NoDup_cons in Hnd as [Hl Hnd]. apply Forall_cons in Hv as [Hvl Hv].
    cbn [fmap list_fmap concat] in *. rewrite fmap_app, concat_app in Hb.
    destruct (purge_queue_ok st d s Q ql Hm HQ Hvl (in_use_l _ _ _ Hb)) as (s1 & E1 & HQ1 & He1 & Ec1).
    assert ((<[ql := []]> Q) <$> ls = Q <$> ls) as Es.
    { apply list_fmap_ext. intros i l' Hi%list_elem_of_lookup_2. apply fn_lookup_insert_ne. by intros ->. }
    destruct (ended_same s s1 (concat (Q <$> ls)) (concat (Q <$> ls)) st d) as [_ Eb]; [|done|].
    { intros a Ha. apply He1. apply NoDup_app in Hndq as (_ & Hd & _). intros Ha'. by apply (Hd a). }
    destruct (IH s1 (<[ql := []]> Q)) as (s' & Q' & E2 & HQ2 & Hq2 & He2 & Ec2); try done.
    + apply (f_equal magic) in Ec1. cbn in Ec1. by rewrite Ec1.
    + rewrite Es. by apply NoDup_app in Hndq as (_ & _ & ?).
    + rewrite Es, Eb. eapply in_use_app; [done|]. apply He1.
    + exists s', Q'. cbn [for_each]. rewrite (bind_run _ _ _ _ _ E1). split; [exact E2|]. split; [done|]. split; [|split].
      * intros l'. rewrite Hq2. destruct (decide (l' = ql)) as [->|Hne].
        -- rewrite fn_lookup_insert, (decide_True (P := ql ∈ ql :: ls)) by set_solver. by destruct (decide _).
        -- rewrite fn_lookup_insert_ne by done. destruct (decide (l' ∈ ls)), (decide (l' ∈ ql :: ls)); (done || set_solver).
      * rewrite Es in He2. by eapply ended_trans.
      * congruence.
Qed.

Lemma queues_nodup s Q (ls : list queue_loc) : holds s Q -> NoDup ls -> Forall valid ls -> NoDup (concat (Q <$> ls)).
Proof.
  intros HQ. induction ls as [|ql ls IH]; intros Hnd Hv; [constructor|].
  apply NoDup_cons in Hnd as [Hl Hnd]. apply Forall_cons in Hv as [Hvl Hv]. cbn. apply NoDup_app. split; [|split; [|by apply IH]].
  - destruct (h_queue _ _ HQ ql Hvl) as (q & _ & Hs & _). by eapply seg_nodup.
  - intros a Ha Ha'. apply list_elem_of_In, in_concat in Ha' as (la & Hla%list_elem_of_In & Ha'%list_elem_of_In).
    apply list_elem_of_fmap in Hla as (l' & -> & Hl'). apply Hl.
    rewrite (h_once _ _ HQ ql l' a); [done|done| |done..]. by apply (proj1 (Forall_forall _ _) Hv).
Qed.

Lemma all_empty s Q (ls : list queue_loc) :
  holds s Q -> (forall ql, ql ∈ ls -> valid ql /\ Q ql = []) ->
  for_each ls (fun ql => q ← queue_at ql; assert (q.(q_head) =? 0)) s = Ok tt s.
Proof.
  intros HQ Hls. induction ls as [|ql ls IH]; [done|]. cbn [for_each]. rewrite bind_assoc.
  destruct (Hls ql) as [Hv He]; [set_solver|]. destruct (h_queue _ _ HQ ql Hv) as (q & Hq & Hk). rewrite He in Hk.
  erewrite queue_at_bind by done. rewrite (linked_nil _ _ Hk), assert_bind by done. apply IH. set_solver.
Qed.

Lemma all_queues : NoDup (Out :: wait_queues) /\ Forall valid (Out :: wait_queues).
Proof.
  unfold wait_queues. split; constructor; [| |done|].
  - by intros (h & ? & _)%list_elem_of_fmap.
  - apply NoDup_fmap_2; [|apply NoDup_zseq]. by intros ?? [= ->].
  - apply Forall_fmap, hashes_valid.
Qed.

Lemma in_all_queues ql : valid ql -> ql ∈ Out :: wait_queues.
Proof.
  destruct ql as [|h]; intros Hv; [set_solver|]. apply elem_of_cons. right. unfold wait_queues. apply list_elem_of_fmap.
  exists h. split; [done|]. apply elem_of_zseq. unfold valid in Hv. unfold HASHES in *. lia.
Qed.

(** Every call there is, in the order they are ended. *)
Definition all_calls Q : list Z := Q Out ++ in_flight Q.
Lemma all_calls_eq Q : concat (Q <$> (Out :: wait_queues)) = all_calls Q.
Proof. unfold all_calls, in_flight, wait_queues. rewrite fmap_cons, <- list_fmap_compose. done. Qed.

Lemma purge_ok st d s Q :
  s.(ctx).(magic) = RPC_CONTEXT_MAGIC -> holds s Q -> in_use s.(mem) (concat (cblocks s <$> all_calls Q)) ->
  exists s' Q', rpc_purge_all_pdus st d s = Ok tt s' /\ holds s' Q' /\ (forall ql, valid ql -> Q' ql = []) /\
    ended s s' st d (all_calls Q) /\ no_queues s'.(ctx) = no_queues s.(ctx).
Proof.
  intros Hm HQ Hb. destruct all_queues as [Hnd Hv]. rewrite <- all_calls_eq in Hb |- *.
  destruct (purge_all st d (Out :: wait_queues) s Q) as (s' & Q' & E & HQ' & Hq & He & Ec); [done..|by eapply queues_nodup|done|].
  assert (forall ql, valid ql -> Q' ql = []) as Hemp by (intros ql Hl; by rewrite Hq, decide_True by by apply in_all_queues).
  exists s', Q'. split_and!; try done. unfold rpc_purge_all_pdus. rewrite check_magic_bind by done.
  rewrite <- bind_assoc. change (for_each (Out :: wait_queues) (purge_queue st d)) with
    (purge_queue st d Out;; for_each wait_queues (purge_queue st d)) in E.
  rewrite (bind_run _ _ _ _ _ E). apply (all_empty s' Q'); [done|]. intros ql Hl.
  assert (valid ql) by by apply (proj1 (Forall_forall _ _) Hv). auto.
Qed.

(** When the connection is given up, every call is told so exactly once - first
    those not sent, then those in flight - and is freed with its blocks, and no
    queue holds a call afterwards. *)
Theorem error_all_tells_each s Q error :
  s.(ctx).(magic) = RPC_CONTEXT_MAGIC -> holds s Q -> in_use s.(mem) (concat (cblocks s <$> all_calls Q)) ->
  exists s' Q', rpc_error_all_pdus error s = Ok tt s' /\ holds s' Q' /\ (forall ql, valid ql -> Q' ql = []) /\
    told s'.(world) = told s.(world) ++ (told_of s RPC_STATUS_ERROR (Cb_message error) <$> all_calls Q) /\
    NoDup (all_calls Q) /\ (forall a, a ∈ all_calls Q -> s'.(pdus) !! a = None) /\
    freed (concat (cblocks s <$> all_calls Q)) s.(mem) s'.(mem).
Proof.
  intros Hm HQ Hb. destruct (purge_ok RPC_STATUS_ERROR (Cb_message error) s Q Hm HQ Hb) as (s' & Q' & E & HQ' & He & [T G O F] & _).
  exists s', Q'. split_and!; try done. rewrite <- all_calls_eq. destruct all_queues. by eapply queues_nodup.
Qed.

(** The count of waiting calls is not set back when all calls are ended: although
    no queue holds a call any more, [rpc_queue_length] still answers with the
    calls that were waiting, so a user who runs until the queue is empty never
    stops. *)
Theorem error_all_leaves_count s Q error :
  s.(ctx).(magic) = RPC_CONTEXT_MAGIC -> holds s Q -> in_use s.(mem) (concat (cblocks s <$> all_calls Q)) ->
  exists s' Q', rpc_error_all_pdus error s = Ok tt s' /\ holds s' Q' /\ (forall ql, valid ql -> Q' ql = []) /\
    rpc_queue_length s' = Ok (s32 s.(ctx).(waitpdu_len)) s'.
Proof.
  intros Hm HQ Hb. destruct (purge_ok RPC_STATUS_ERROR (Cb_message error) s Q Hm HQ Hb) as (s' & Q' & E & HQ' & He & _ & Ec).
  exists s', Q'. split_and!; try done. unfold rpc_queue_length.
  pose proof (f_equal magic Ec) as E1. pose proof (f_equal waitpdu_len Ec) as E2. cbn in E1, E2.
  rewrite check_magic_bind by congruence. rewrite get_bind.
  destruct (h_queue _ _ HQ' Out I) as (q & [= <-] & Hk). rewrite (He Out I) in Hk. rewrite (linked_nil _ _ Hk).
  cbn [chain_length Z.eqb]. by rewrite ret_bind, E2.
Qed.
End ending.
