(* ===== verification/RpcTime.v ===== *)
(** * Timeouts and loops of the RPC client

    [rpc_timeout_scan] of [Rpc] leaves the tail of a queue behind when the last of
    several calls times out, and the next call put into the queue is written
    through a pointer to freed memory.  And two loops that are not over a queue:
    the search for a privileged port tries every port once; rounding up to a
    power of two is right up to 2^31 and does not end beyond. *)
From stdpp Require Import functions.
From S2P Require Import Prelude Bytes Zdr ZdrSpec ZdrMsg Rpc RpcSpec RpcReply RpcStream RpcLife.
#[local] Arguments le_bytes : simpl never.
#[local] Arguments bytes_at : simpl never.
#[local] Arguments store_bytes : simpl never.

Section timeouts.
Context {R W : Type} {Mal : Allocator} `{!Net W} `{!Callbacks R W} `{!Listener R W}.
Implicit Types (s : rpc R W) (Q : queue_loc -> list Z) (p : Z) (l : list Z) (ql : queue_loc).

Definition expired (t : Z) (x : rpc_pdu R) : Prop := x.(p_timeout) <> 0 /\ x.(p_timeout) <= t.

(** Calls that are not due are passed by. *)
Lemma scan_skip t ql u rest h fuel s :
  seg s.(pdus) h (u ++ rest) 0 -> (forall a x, a ∈ u -> s.(pdus) !! a = Some x -> ~ expired t x) ->
  exists r, seg s.(pdus) r rest 0 /\ scan_chain (length u + fuel) t ql h s = scan_chain fuel t ql r s.
Proof.
  revert h. induction u as [|a u IH]; intros h Hs Hu; [by exists h|].
  cbn in Hs. destruct Hs as (-> & Ha & x & Hx & Hs).
  destruct (IH _ Hs) as (r & Hr & E); [intros b y Hb; apply Hu; set_solver|]. exists r. split; [done|].
  cbn [length Nat.add scan_chain]. rewrite (proj2 (Z.eqb_neq _ _)) by done. erewrite pdu_at_bind by done.
  assert ((x.(p_timeout) =? 0) || (t <? x.(p_timeout)) = true) as ->; [|by rewrite ret_bind, E].
  specialize (Hu a x ltac:(set_solver) Hx). unfold expired in Hu. apply orb_true_iff. rewrite Z.eqb_eq, Z.ltb_lt. lia.
Qed.

Lemma find_before_ok u b p h fuel s :
  seg s.(pdus) h (u ++ [b; p]) 0 -> (length u < fuel)%nat -> find_before fuel p h s = Ok b s.
Proof.
  revert h fuel. induction u as [|a u IH]; intros h [|fuel] Hs Hf; [lia| |lia|].
  - cbn in Hs. destruct Hs as (-> & _ & x & Hx & E & _). cbn [find_before]. erewrite pdu_at_bind by done.
    by rewrite E, Z.eqb_refl, orb_true_r.
  - pose proof (seg_nodup _ _ _ Hs) as Hnd. cbn in Hs. destruct Hs as (-> & Ha & x & Hx & Hs). cbn [find_before].
    erewrite pdu_at_bind by done. rewrite <- (IH x.(p_next) fuel Hs) by (cbn in Hf; lia).
    assert (exists c v, u ++ [b; p] = c :: v /\ c <> p) as (c & v & Ec & Hcp).
    { destruct u as [|c u]; [exists b, [p]|exists c, (u ++ [b; p])]; (split; [done|]); intros ->;
        apply NoDup_cons in Hnd as [_ Hnd]; cbn in Hnd; apply NoDup_cons in Hnd as [Hnd _]; set_solver. }
    rewrite Ec in Hs. cbn in Hs. destruct Hs as (-> & Hc & _). by rewrite !(proj2 (Z.eqb_neq _ _)) by done.
Qed.

(** Taking out the last call of several. *)
Lemma remove_last s Q ql u b p x :
  holds s Q -> valid ql -> Q ql = u ++ [b; p] -> s.(pdus) !! b = Some x ->
  LIBNFS_LIST_REMOVE ql p s = Ok tt {| s with pdus := <[b := {| x with p_next := 0 |}]> s.(pdus) |}.
Proof.
  intros HQ Hl EQ Hx. destruct (h_queue _ _ HQ ql Hl) as (q & Hq & Hs & _). rewrite EQ in Hs.
  pose proof (seg_nodup _ _ _ Hs) as Hnd. unfold LIBNFS_LIST_REMOVE. erewrite queue_at_bind by done.
  assert (q.(q_head) <> p) as Hhp.
  { destruct u as [|c u]; cbn in Hs; destruct Hs as (-> & _); apply NoDup_cons in Hnd as [Hnd _]; set_solver. }
  rewrite (proj2 (Z.eqb_neq _ _)), get_bind by done.
  erewrite bind_run by (apply (find_before_ok u b p); [done|]; pose proof (seg_fuel _ _ _ Hs) as Hf; rewrite length_app in Hf; lia).
  erewrite pdu_at_bind by done. apply seg_app in Hs as (r & _ & Hb). cbn in Hb.
  destruct Hb as (-> & Hb0 & x' & Hx' & En & Hp0 & y & Hy & Ey). rewrite Hx in Hx'. injection Hx' as <-.
  rewrite En, (proj2 (Z.eqb_neq _ _)) by done. cbn [negb when]. erewrite pdu_at_bind by done. unfold set_next.
  erewrite pdu_modify_run by done. by rewrite Ey.
Qed.

(** A timeout leaves the tail of its queue behind: when the last call of a queue
    times out and others in the queue do not, [rpc_timeout_scan] takes it out of
    the list, tells it and frees it, but the queue still calls it its tail - and
    the next call put into this queue is linked through the freed one. *)
Theorem timeout_dangling_tail s Q ql u b p y t :
  s.(ctx).(magic) = RPC_CONTEXT_MAGIC -> holds s Q -> valid ql -> Q ql = u ++ [b; p] ->
  s.(pdus) !! p = Some y -> expired t y -> in_use s.(mem) (call_blocks p y) ->
  (forall a x, a ∈ u ++ [b] -> s.(pdus) !! a = Some x -> ~ expired t x) ->
  exists s', scan_queue t ql s = Ok tt s' /\
    told s'.(world) = told s.(world) ++ [(y.(p_cb), RPC_STATUS_TIMEOUT, Cb_null, y.(p_private))] /\
    s'.(pdus) !! p = None /\ (q_tail <$> qget s'.(ctx) ql) = Some p /\
    forall n, rpc_enqueue ql n s' = Stuck Segv.
Proof.
  intros Hm HQ Hl EQ Hp [Ht0 Ht] Hb Hu. destruct (h_queue _ _ HQ ql Hl) as (q & Hq & Hs & Htl).
  assert (Q ql = (u ++ [b]) ++ [p]) as EQ' by by rewrite <- app_assoc. rewrite EQ' in Hs, Htl.
  pose proof (seg_fuel _ _ _ Hs) as Hf. rewrite length_app in Hf. cbn [length] in Hf.
  rewrite last_snoc in Htl. cbn in Htl.
  unfold scan_queue. erewrite queue_at_bind, get_bind by done.
  replace (S (size s.(pdus))) with (length (u ++ [b]) + S (S (size s.(pdus) - length (u ++ [b]) - 1)))%nat by lia.
  destruct (scan_skip t ql (u ++ [b]) [p] q.(q_head) (S (S (size s.(pdus) - length (u ++ [b]) - 1))) s Hs Hu) as (r & Hr & ->).
  assert (b ∈ Q ql) as Hbq by (rewrite EQ; set_solver).
  destruct (seg_elem _ _ _ _ b Hs) as (Hb0 & x & Hx); [set_solver|].
  assert (b <> p). { apply seg_nodup in Hs. apply NoDup_app in Hs as (_ & Hd & _). intros ->. apply (Hd p); set_solver. }
  cbn in Hr. destruct Hr as (-> & Hp0 & y' & Hy' & Hn). rewrite Hp in Hy'. injection Hy' as <-.
  cbn [scan_chain]. rewrite (proj2 (Z.eqb_neq p 0)) by done. erewrite pdu_at_bind by done.
  rewrite (proj2 (Z.eqb_neq y.(p_timeout) 0)), (proj2 (Z.ltb_ge t _)) by done. cbn [orb].
  rewrite bind_assoc, (bind_run _ _ _ _ _ (remove_last s Q ql u b p x HQ Hl EQ Hx)).
  set (s1 := {| s with pdus := _ |}).
  assert (q.(q_head) <> 0) as Hh0.
  { clear Hu Hf. destruct u as [|c u]; cbn in Hs; destruct Hs as (-> & ? & _); done. }
  rewrite bind_assoc, (queue_at_bind _ s1 ql q Hq), (proj2 (Z.eqb_neq q.(q_head) 0)) by done. cbn [when]. rewrite bind_assoc, ret_bind.
  unfold set_error. rewrite bind_assoc. erewrite on_mem_bind by reflexivity. rewrite bind_assoc.
  set (s2 := {| s1 with mem := _ |}).
  destruct (told_ok y.(p_cb) RPC_STATUS_TIMEOUT Cb_null y.(p_private) s2) as (w & Ecb & Htold). rewrite (bind_run _ _ _ _ _ Ecb).
  destruct (free_pdu_ok {| s2 with world := w |} p y) as (h & Efr & _); [done|cbn; by rewrite lookup_insert_ne|done|].
  rewrite (bind_run _ _ _ _ _ Efr), Hn. eexists. split; [reflexivity|]. cbn -[rpc_enqueue qget].
  split; [exact Htold|]. split; [apply lookup_delete_eq|]. split; [by rewrite Hq, <- Htl|].
  intros n. unfold rpc_enqueue. rewrite (queue_at_bind _ _ ql q) by done. rewrite (proj2 (Z.eqb_neq q.(q_head) 0)) by done.
  apply bind_stuck, bind_stuck, bind_stuck. rewrite Htl. unfold pdu_at. rewrite get_bind. cbn. by rewrite lookup_delete_eq.
Qed.
End timeouts.

(** ** Loops *)

Section loops.
Context {R W : Type} `{!Net W}.

Lemma call_bind {B} op args (s : rpc R W) r e w (k : Z * Z -> M (rpc R W) B) :
  net op args s.(world) = (r, e, w) -> (call op args ≫= k) s = k (r, e) {| s with world := w |}.
Proof. intros E. unfold call, mbind, M_bind. by rewrite E. Qed.

Lemma bind_ports_ok (fuel : nat) family startOfs (s : rpc R W) :
  0 <= s.(port_ofs) < PORT_COUNT -> 0 <= startOfs < PORT_COUNT ->
  (startOfs - s.(port_ofs) - 1) mod PORT_COUNT < Z.of_nat fuel ->
  exists w o, bind_ports fuel family startOfs s = Ok tt {| s with world := w; port_ofs := o |} /\ 0 <= o < PORT_COUNT.
Proof.
  change PORT_COUNT with 512. revert s. induction fuel as [|fuel IH]; intros s Ho Hs Hf.
  { pose proof (Z.mod_pos_bound (startOfs - s.(port_ofs) - 1) 512). lia. }
  cbn [bind_ports]. rewrite get_bind, modify_bind.
  set (o := Z.rem (s.(port_ofs) + 1) PORT_COUNT).
  assert (0 <= o < 512 /\ (o <> startOfs -> (startOfs - o - 1) mod 512 < Z.of_nat fuel)) as [Ho' Hf'].
  { unfold o. change PORT_COUNT with 512. rewrite Z.rem_mod_nonneg by lia. Z.to_euclidean_division_equations. lia. }
  destruct (net Getservbyport [htons (FIRST_PORT + s.(port_ofs))] s.(world)) as [[known e] w1] eqn:E1.
  rewrite (call_bind _ _ _ known e w1) by exact E1. cbn [fst snd].
  assert (exists r w2, forall B (k : Z * Z -> M (rpc R W) B),
    ((if known =? 0 then call Bind [s.(ctx).(fd); family; htons (FIRST_PORT + s.(port_ofs))] else mret (-1, 0)) ≫= k)
      {| s with port_ofs := o; world := w1 |} = k r {| s with port_ofs := o; world := w2 |}) as (r & w2 & Er).
  { destruct (known =? 0); [|by exists (-1, 0), w1].
    destruct (net Bind [s.(ctx).(fd); family; htons (FIRST_PORT + s.(port_ofs))] w1) as [[r e2] w2] eqn:E2.
    exists (r, e2), w2. intros B k. by rewrite (call_bind _ _ _ r e2 w2) by exact E2. }
  rewrite Er. destruct (_ && _ && _); [by exists w2, o|]. rewrite get_bind. cbn [port_ofs].
  destruct (Z.eqb_spec o startOfs) as [Eo|Eo]; [rewrite andb_false_r; by exists w2, o|].
  rewrite andb_true_r. destruct (negb (r.1 =? 0)); [|by exists w2, o].
  destruct (IH {| s with port_ofs := o; world := w2 |} Ho' Hs (Hf' Eo)) as (w' & o' & E & Ho''). by exists w', o'.
Qed.

(** The search for a privileged port ends: wherever it starts among the 512 ports
    it is over when each has been tried once, and the next search starts at one of
    them too. *)
Theorem bind_ports_terminates family (s : rpc R W) :
  0 <= s.(port_ofs) < PORT_COUNT ->
  exists w o, bind_ports (Z.to_nat PORT_COUNT) family s.(port_ofs) s = Ok tt {| s with world := w; port_ofs := o |} /\
    0 <= o < PORT_COUNT.
Proof.
  intros Ho. apply bind_ports_ok; [done..|]. change (Z.of_nat (Z.to_nat PORT_COUNT)) with 512. by apply Z.mod_pos_bound.
Qed.
End loops.

Lemma round_loop_up (fuel : nat) (k x : Z) :
  0 <= k <= 31 -> 2 ^ k < 2 * x -> x <= 2 ^ 31 -> 31 - k < Z.of_nat fuel ->
  exists j, 0 <= j <= 31 /\ round_loop fuel (2 ^ k) x = Some (2 ^ j) /\ x <= 2 ^ j < 2 * x.
Proof.
  revert k. induction fuel as [|fuel IH]; intros k Hk Hx Hm Hf; [lia|]. cbn [round_loop].
  destruct (Z.ltb_spec (2 ^ k) x) as [Hlt|Hge].
  - assert (k < 31) by (destruct (Z.eq_dec k 31) as [->|]; lia).
    assert (2 ^ (k + 1) = 2 * 2 ^ k) as E by (rewrite Z.pow_add_r by lia; lia).
    assert (u32 (Z.shiftl (2 ^ k) 1) = 2 ^ (k + 1)) as ->.
    { rewrite Z.shiftl_mul_pow2, u32_small by (first [lia|change (2 ^ 1) with 2; split; [lia|];
        assert (2 ^ (k + 1) <= 2 ^ 31) by (apply Z.pow_le_mono_r; lia); lia]). lia. }
    apply IH; lia.
  - exists k. split; [done|]. split; [done|]. lia.
Qed.

(** Rounding up to a power of two: for every number up to 2^31 the loop ends within
    its 33 rounds with the smallest power of two that is not below it. *)
Theorem round_to_power_of_two_least x :
  1 <= x <= 2 ^ 31 -> exists j, 0 <= j <= 31 /\ round_to_power_of_two 33 x = Some (2 ^ j) /\ x <= 2 ^ j < 2 * x.
Proof. intros Hx. apply (round_loop_up 33 0); lia. Qed.

(** Beyond 2^31 the power overflows to zero and the loop of
    [round_to_power_of_two] never ends, so [rpc_set_pagecache] and
    [rpc_set_readahead] hang on such an argument. *)
Theorem round_to_power_of_two_hangs x fuel : 2 ^ 31 < x < 2 ^ 32 -> round_to_power_of_two fuel x = None.
Proof.
  intros Hx. unfold round_to_power_of_two.
  assert (forall power, power = 0 \/ (exists k, 0 <= k <= 31 /\ power = 2 ^ k) -> round_loop fuel power x = None) as H;
    [|apply H; right; by exists 0].
  induction fuel as [|fuel IH]; intros power Hp; [done|]. cbn [round_loop].
  assert (power <= 2 ^ 31) by (destruct Hp as [->|(k & Hk & ->)]; [lia|apply Z.pow_le_mono_r; lia]).
  rewrite (proj2 (Z.ltb_lt _ _)) by lia. apply IH. destruct Hp as [->|(k & Hk & ->)]; [by left|].
  rewrite Z.shiftl_mul_pow2, <- Z.pow_add_r by lia. destruct (Z.eq_dec k 31) as [->|]; [by left|]. right. exists (k + 1). split; [lia|].
  apply u32_small. split; [lia|]. apply Z.pow_lt_mono_r; lia.
Qed.
