(* ===== verification/RpcDemo.v ===== *)
(** * A client at work

    A concrete connection, callbacks that take notes, and contexts with a few
    calls, on which the theorems about the RPC client are used. *)
From stdpp Require Import functions.
From S2P Require Import Prelude Bytes Zdr ZdrSpec ZdrMsg Rpc RpcSpec RpcReply RpcStream RpcLife RpcTime.
#[local] Existing Instance behind_all.
#[local] Existing Instance behind_all_fresh.

(** What has been sent, what is there to be received, what callbacks were told. *)
Record desk := mk_desk { d_out : list Z; d_in : list Z; d_told : list (Z * Z * cb_data Z * Z) }.

#[local] Instance desk_net : Net desk := {|
  net op args w := (0, 0, w);
  net_send fd l w := (Z.of_nat (length l), 0, {| w with d_out := w.(d_out) ++ l |});
  net_recv fd n w :=
    match w.(d_in) with
    | [] => (inr EAGAIN, w)
    | _ => (inl ((fun b => b mod 256) <$> take (Z.to_nat n) w.(d_in)), {| w with d_in := drop (Z.to_nat n) w.(d_in) |})
    end;
  clock_slack := 0;
  libnfs_literal := 4096;
|}.

#[local] Instance desk_recv : NetRecv desk.
Proof.
  intros fd n w l w' Hn E. cbn in E. destruct (d_in w) as [|b bs]; [done|].
  assert (l = (fun b => b mod 256) <$> take (Z.to_nat n) (b :: bs)) as -> by (by injection E). split.
  - rewrite length_fmap, length_take. lia.
  - apply Forall_fmap, Forall_true. intros x. apply Z.mod_pos_bound. lia.
Defined.

#[local] Instance desk_send : NetSend desk.
Proof.
  refine {| taken := d_out; send_ok := _ |}.
  intros fd l w n e w' E Hl. right. cbn in E. injection E as <- <- <-. destruct l as [|b l]; [done|].
  split; [cbn; lia|]. cbn. by rewrite Nat2Z.id, take_ge.
Defined.

#[local] Instance desk_callbacks : Callbacks Z desk := {|
  run_cb cb status d private s :=
    Ok tt {| s with world := {| s.(world) with d_told := s.(world).(d_told) ++ [(cb, status, d, private)] |} |};
  rpc_process_call z := mret (0, z);
  zero_result := 0;
|}.

#[local] Instance desk_listener : Listener Z desk.
Proof. refine {| told := d_told; told_ok := _ |}. intros. eexists. split; [reflexivity|done]. Defined.

(** A call for a word: its number, how much of it has been sent and when it is due. *)
Definition a_call (next x sent data timeout : Z) : rpc_pdu Z :=
  mk_pdu next x null_zdr sent 40 data 500 600 700 libnfs_zdr_u_int None 8 0 timeout.

(** Chains that are empty but for one. *)
Definition chains (hash : Z) (q : rpc_queue) : list rpc_queue :=
  <[Z.to_nat hash := q]> (replicate (Z.to_nat HASHES) (mk_queue 0 0)).
(** A context with the queue [out] and one chain [wait]. *)
Definition a_context (out wait : rpc_queue) (hash waiting reconnect : Z) : rpc_context :=
  mk_ctx 100 RPC_CONTEXT_MAGIC 3 0 1 1 No_cb 200 (mk_AUTH (mk_auth 0 0 0) (mk_auth 0 0 0) 0) 9 out
    (chains hash wait) waiting 0 [0; 0; 0; 0] 0 0 0 reconnect 0 []
    RPC_PARAM_UNDEFINED 0 0 0 0 5 (-1) 0 AF_INET.
Definition its_queues (out : list Z) (hash : Z) (wait : list Z) (ql : queue_loc) : list Z :=
  match ql with Out => out | Wait h => if h =? hash then wait else [] end.

Lemma its_queues_hold (s : rpc Z desk) oq wq hash out wait :
  s.(ctx).(outqueue) = oq -> s.(ctx).(waitpdu) = chains hash wq -> 0 <= hash < HASHES ->
  linked s.(pdus) oq out -> linked s.(pdus) wq wait -> (forall a, a ∈ out -> a ∉ wait) ->
  (forall a x, a ∈ wait -> s.(pdus) !! a = Some x -> rpc_hash_xid x.(p_xid) = hash) ->
  holds s (its_queues out hash wait).
Proof.
  intros Eo Ew Hh Ho Hw Hd Hx.
  split.
  - intros [|h] Hv; cbn [its_queues qget]; [rewrite Eo; eauto|]. rewrite Ew. unfold chains.
    unfold valid in Hv. destruct (Z.eqb_spec h hash) as [->|Hne].
    + exists wq. rewrite list_lookup_insert_eq; [done|]. rewrite length_replicate. unfold HASHES in *. lia.
    + exists (mk_queue 0 0). rewrite list_lookup_insert_ne by lia. rewrite lookup_replicate_2 by (unfold HASHES in *; lia). done.
  - intros [|h] [|h'] a _ _; cbn [its_queues]; [done|..].
    + destruct (h' =? hash); [|set_solver]. intros H1 H2. by destruct (Hd a).
    + destruct (h =? hash); [|set_solver]. intros H1 H2. by destruct (Hd a).
    + destruct (Z.eqb_spec h hash), (Z.eqb_spec h' hash); set_solver.
  - intros h a x _. cbn [its_queues]. destruct (Z.eqb_spec h hash) as [->|]; [apply Hx|set_solver].
Defined.

(** ** Replies *)

(** Call 7 waits, and its answer, 42, has come. *)
Definition waiting_call : rpc_pdu Z := a_call 0 7 40 0 0.
Definition answer : list Z := (c_reply_msg 700 libnfs_zdr_u_int c_u32).(wire) (success 7 (0, []) 42).
Definition answer_record : list Z := be_bytes 4 (LAST + 28) ++ answer.
Definition answered_client (fs : list (Z * (Z * Z))) : rpc Z desk :=
  let c := a_context (mk_queue 0 0) (mk_queue 2000 2000) (rpc_hash_xid 7) 1 0 in
  mk_rpc {| c with fragments := fs |} {[2000 := waiting_call]}
    (mk_heap (store_bytes (store_bytes ∅ 1000 answer_record) 3000 answer) [(1000, 32); (3000, 28); (4000, 24)] "") 0 0 (mk_desk [] [] []).

Lemma answer_okv : (c_reply_msg 700 libnfs_zdr_u_int c_u32).(okv) (success 7 (0, []) 42).
Proof.
  repeat (split; try done). eexists. split; [reflexivity|]. repeat (split; try done).
  eexists. split; [reflexivity|]. repeat (split; try done). eexists. by split.
Defined.
Lemma answered_client_holds fs : holds (answered_client fs) (its_queues [] (rpc_hash_xid 7) [2000]).
Proof.
  eapply (its_queues_hold (answered_client fs)); [reflexivity..|done| | | |].
  - done.
  - split; [|done]. cbn. split_and!; [done..|]. eexists. split; [reflexivity|done].
  - set_solver.
  - intros a x ->%list_elem_of_singleton. cbn. intros [= <-]. done.
Defined.

Lemma reply_delivered_witness :
  answered (answered_client []) (its_queues [] (rpc_hash_xid 7) [2000]) 7 [] 2000 [] waiting_call c_u32 42 0
    (rpc_process_pdu 1000 (Z.of_nat (length answer) + 4) (answered_client [])).
Proof.
  apply (reply_delivered _ _ 1000 (LAST + 28) 7 [] 2000 [] waiting_call c_u32 (0, []) 42).
  - done.
  - done.
  - split; [done|done| |].
    + vm_compute. reflexivity.
    + intros x Hx. exists 1000, 32. split; [cbn; set_solver|]. change (length _) with 28%nat in Hx. lia.
  - done.
  - exact answer_okv.
  - apply answered_client_holds.
  - vm_compute. reflexivity.
  - done.
  - done.
  - intros a z Ha. set_solver.
  - apply codes_u_int.
  - done.
  - done.
Defined.

(** The same in two records: twelve bytes have come before. *)
Definition split_client : rpc Z desk :=
  let c := a_context (mk_queue 0 0) (mk_queue 2000 2000) (rpc_hash_xid 7) 1 0 in
  mk_rpc {| c with fragments := [(4000, (3000, 12))] |} {[2000 := waiting_call]}
    (mk_heap (store_bytes (store_bytes ∅ 1000 (be_bytes 4 (LAST + 16) ++ drop 12 answer)) 3000 (take 12 answer))
      [(1000, 20); (3000, 12); (4000, 24)] "") 0 0 (mk_desk [] [] []).

Lemma fragments_answered_witness :
  let run := rpc_process_pdu 1000 (Z.of_nat (length (drop 12 answer)) + 4) split_client in
  (exists reasbuf s', released split_client s' /\
     answered s' (its_queues [] (rpc_hash_xid 7) [2000]) 7 [] 2000 [] waiting_call c_u32 42 reasbuf run) \/
  (exists s', run = Ok (-1) s' /\ released split_client s') /\ out_of_memory.
Proof.
  intros run. cut ((exists reasbuf s', released split_client s' /\ s'.(world) = split_client.(world) /\
     (forall b, b ∈ split_client.(mem).(blocks) -> b.1 ∉ owned split_client.(ctx).(fragments) -> b ∈ s'.(mem).(blocks)) /\
     run = process_message (mk_zdr ZDR_DECODE reasbuf (Z.of_nat (length answer)) 0 []) reasbuf s' /\
     answered s' (its_queues [] (rpc_hash_xid 7) [2000]) 7 [] 2000 [] waiting_call c_u32 42 reasbuf run) \/
  (exists s', run = Ok (-1) s' /\ released split_client s') /\ out_of_memory).
  { intros [(b & s' & Hr & _ & _ & _ & Ha)|H]; [left; by exists b, s'|by right]. }
  apply (fragments_answered _ _ [take 12 answer] 1000 (LAST + 16) (drop 12 answer) 7 [] 2000 [] waiting_call c_u32 (0, []) 42).
  - done.
  - done.
  - split.
    + constructor; [|done]. split_and!; [done|set_solver|vm_compute; reflexivity].
    + apply NoDup_ListNoDup. vm_compute. repeat constructor; simpl; intuition discriminate.
    + intros p Hp. cbn in Hp. cbn. set_solver by lia.
  - split; [done|done|vm_compute; reflexivity|].
    intros x Hx. exists 1000, 20. split; [cbn; set_solver|]. change (length _) with 16%nat in Hx. lia.
  - done.
  - vm_compute. reflexivity.
  - done.
  - exact answer_okv.
  - apply (holds_same (answered_client [])); [done|by intros []|apply answered_client_holds].
  - vm_compute. reflexivity.
  - done.
  - done.
  - intros a z Ha. set_solver.
  - apply codes_u_int.
  - done.
  - done.
Defined.

(** ** The stream *)

(** The header of the record has been read, its body is there to be read. *)
Definition header_read : rpc Z desk :=
  let c := a_context (mk_queue 0 0) (mk_queue 2000 2000) (rpc_hash_xid 7) 1 0 in
  mk_rpc {| c with inpos := 4; rm_buf := be_bytes 4 (LAST + 28) |} {[2000 := waiting_call]} (mk_heap ∅ [] "") 0 0 (mk_desk [] answer []).

Lemma read_step_cuts_witness :
  ((exists s', read_step header_read = Ok (Some (-1)) s') /\ (4 <= length (be_bytes 4 (LAST + 28)))%nat /\
     (LIMIT < wanted (be_bytes 4 (LAST + 28)) \/ out_of_memory)) \/
  read_on header_read (be_bytes 4 (LAST + 28)) answer (mk_desk [] [] []) (read_step header_read).
Proof.
  assert (reading header_read (be_bytes 4 (LAST + 28))) as Hrd.
  { split.
    - done.
    - done.
    - vm_compute. reflexivity.
    - repeat constructor; done.
    - vm_compute. discriminate.
    - left. split; [done|]. rewrite be_bytes_length. done. }
  assert (net_recv (fd (ctx header_read)) (wanted (be_bytes 4 (LAST + 28)) - Z.of_nat (length (be_bytes 4 (LAST + 28))))
    (world header_read) = (inl answer, mk_desk [] [] [])) as Hrecv by (vm_compute; reflexivity).
  pose proof (read_step_cuts header_read (be_bytes 4 (LAST + 28)) Hrd) as H. cbv zeta in H. rewrite Hrecv in H. exact H.
Defined.

(** Two calls to send, ten bytes of the first are sent. *)
Definition sender : rpc Z desk :=
  mk_rpc (a_context (mk_queue 2000 2100) (mk_queue 0 0) 0 0 (-1))
    (<[2000 := a_call 2100 7 10 1000 0]> {[2100 := a_call 0 8 0 1100 0]})
    (mk_heap ∅ [(1000, 40); (1100, 40); (2000, 128); (2100, 128)] "") 0 0 (mk_desk [] [] []).
Lemma sender_holds : holds sender (its_queues [2000; 2100] 0 []).
Proof.
  eapply (its_queues_hold sender); [reflexivity..|done| |done|set_solver|set_solver].
  split; [|done]. cbn. split_and!; [done..|]. eexists. split; [reflexivity|]. cbn. split_and!; [done..|]. eexists. split; [reflexivity|done].
Defined.

Lemma write_to_socket_stream_witness :
  exists r s' l1 l2, rpc_write_to_socket 100 sender = Ok r s' /\ (r = 0 \/ r = -1 /\ l2 <> []) /\
    flushed sender (its_queues [2000; 2100] 0 []) s' l1 l2.
Proof.
  apply (write_to_socket_stream sender (its_queues [2000; 2100] 0 []) 100).
  - done.
  - done.
  - apply sender_holds.
  - intros p [->| ->%list_elem_of_singleton]%elem_of_cons; (eexists; split; [reflexivity|]); by repeat split.
  - apply Nat.ltb_lt. vm_compute. reflexivity.
Defined.

(** ** The end of calls *)

(** Call 8 is to be sent, call 7 in flight. *)
Definition broken : rpc Z desk :=
  mk_rpc (a_context (mk_queue 2100 2100) (mk_queue 2000 2000) (rpc_hash_xid 7) 1 (-1))
    (<[2000 := a_call 0 7 40 1000 0]> {[2100 := a_call 0 8 3 1100 0]})
    (mk_heap ∅ [(1000, 40); (1100, 40); (2000, 128); (2100, 128)] "") 0 0 (mk_desk [] [] []).
Definition broken_queues : queue_loc -> list Z := its_queues [2100] (rpc_hash_xid 7) [2000].
Lemma broken_holds : holds broken broken_queues.
Proof.
  eapply (its_queues_hold broken); [reflexivity..|done| | |set_solver by lia|].
  - split; [|done]. cbn. split_and!; [done..|]. eexists. split; [reflexivity|done].
  - split; [|done]. cbn. split_and!; [done..|]. eexists. split; [reflexivity|done].
  - intros a x ->%list_elem_of_singleton. cbn. intros [= <-]. done.
Defined.
Lemma broken_calls : all_calls broken_queues = [2100; 2000].
Proof. vm_compute. reflexivity. Defined.
Lemma broken_in_use : in_use broken.(mem) (concat (cblocks broken <$> all_calls broken_queues)).
Proof.
  rewrite broken_calls. change (concat _) with [1100; 2100; 1000; 2000]. split.
  - apply NoDup_ListNoDup. repeat constructor; simpl; intuition discriminate.
  - cbn. set_solver by lia.
Defined.

Lemma reconnect_keeps_calls_witness :
  exists s1 Q1,
    rpc_reconnect_requeue broken =
      (c ← gets ctx;
       if (c.(auto_reconnect) <? 0) || (0 <? c.(num_retries)) then
         ctx_modify (fun c => {| c with num_retries := s32 (c.(num_retries) - 1); connect_cb := Reconnect_cb |});;
         r ← rpc_connect_sockaddr_async;
         if negb (r =? 0) then rpc_error_all_pdus "RPC ERROR: Failed to reconnect async";; mret (-1) else mret 0
       else rpc_error_all_pdus "RPC ERROR: All attempts to reconnect failed.";; mret (-1)) s1 /\
    holds s1 Q1 /\ Q1 Out = reverse (in_flight broken_queues) ++ broken_queues Out /\
    (forall h, valid (Wait h) -> Q1 (Wait h) = []) /\
    s1.(ctx).(waitpdu_len) = 0 /\ s1.(ctx).(is_connected) = 0 /\
    (forall a x, a ∈ Q1 Out -> s1.(pdus) !! a = Some x -> x.(written) = 0) /\
    s1.(mem) = broken.(mem) /\ s1.(world) = broken.(world).
Proof. apply (reconnect_keeps_calls broken broken_queues); [done|done|apply broken_holds|]. intros a x Ha. set_solver. Defined.

Lemma error_all_tells_each_witness :
  exists s' Q', rpc_error_all_pdus "gone" broken = Ok tt s' /\ holds s' Q' /\ (forall ql, valid ql -> Q' ql = []) /\
    told s'.(world) = told broken.(world) ++
      (told_of broken RPC_STATUS_ERROR (Cb_message "gone") <$> all_calls broken_queues) /\
    NoDup (all_calls broken_queues) /\ (forall a, a ∈ all_calls broken_queues -> s'.(pdus) !! a = None) /\
    freed (concat (cblocks broken <$> all_calls broken_queues)) broken.(mem) s'.(mem).
Proof. apply (error_all_tells_each broken broken_queues "gone"); [done|apply broken_holds|apply broken_in_use]. Defined.

Lemma error_all_leaves_count_witness :
  exists s' Q', rpc_error_all_pdus "gone" broken = Ok tt s' /\ holds s' Q' /\ (forall ql, valid ql -> Q' ql = []) /\
    rpc_queue_length s' = Ok 1 s'.
Proof. apply (error_all_leaves_count broken broken_queues "gone"); [done|apply broken_holds|apply broken_in_use]. Defined.

(** The second call of the queue is due at time 50. *)
Definition late : rpc Z desk :=
  mk_rpc (a_context (mk_queue 2000 2100) (mk_queue 0 0) 0 0 0)
    (<[2000 := a_call 2100 7 10 1000 0]> {[2100 := a_call 0 8 0 1100 50]})
    (mk_heap ∅ [(1000, 40); (1100, 40); (2000, 128); (2100, 128)] "") 0 0 (mk_desk [] [] []).
Lemma late_holds : holds late (its_queues [2000; 2100] 0 []).
Proof.
  eapply (its_queues_hold late); [reflexivity..|done| |done|set_solver|set_solver].
  split; [|done]. cbn. split_and!; [done..|]. eexists. split; [reflexivity|]. cbn. split_and!; [done..|]. eexists. split; [reflexivity|done].
Defined.

Lemma timeout_dangling_tail_witness :
  exists s', scan_queue 60 Out late = Ok tt s' /\
    told s'.(world) = told late.(world) ++ [(500, RPC_STATUS_TIMEOUT, Cb_null, 600)] /\
    s'.(pdus) !! 2100 = None /\ (q_tail <$> qget s'.(ctx) Out) = Some 2100 /\
    forall n, rpc_enqueue Out n s' = Stuck Segv.
Proof.
  apply (timeout_dangling_tail late (its_queues [2000; 2100] 0 []) Out [] 2000 2100 (a_call 0 8 0 1100 50) 60).
  - done.
  - apply late_holds.
  - done.
  - done.
  - done.
  - by split.
  - split; [|cbn; set_solver by lia]. apply NoDup_ListNoDup. repeat constructor; simpl; intuition discriminate.
  - intros a x ->%list_elem_of_singleton. cbn. intros [= <-] [H _]. done.
Defined.

Lemma bind_ports_terminates_witness :
  exists w o, bind_ports (Z.to_nat PORT_COUNT) AF_INET 0 broken = Ok tt {| broken with world := w; port_ofs := o |} /\
    0 <= o < PORT_COUNT.
Proof. apply (bind_ports_terminates AF_INET broken). done. Defined.

Lemma round_to_power_of_two_least_witness :
  exists j, 0 <= j <= 31 /\ round_to_power_of_two 33 5000 = Some (2 ^ j) /\ 5000 <= 2 ^ j < 2 * 5000.
Proof. apply round_to_power_of_two_least. done. Defined.

Lemma round_to_power_of_two_hangs_witness : round_to_power_of_two 1000 (2 ^ 31 + 1) = None.
Proof. apply round_to_power_of_two_hangs. done. Defined.
