(* ===== verification/Dlist.v ===== *)
(** * Queues threaded through their elements

    The kernel keeps its queues of threads in the threads themselves: each has the
    thread before it and the thread after it, null at the ends.  A class of
    records with two such links, the segments they form, and what the three
    changes the kernel makes to a queue do to them: cutting an element out,
    putting one at the end, putting one at the front. *)
From S2P Require Import Prelude.

Definition remove (t : Z) (q : list Z) : list Z := filter (fun u => u <> t) q.

(** From [p], whose predecessor is [prev], along [q] to [next]; [last] is the last
    thread before [next]. *)
Fixpoint dseg (L : Z -> option (Z * Z)) (prev p : Z) (q : list Z) (last next : Z) : Prop :=
  match q with
  | [] => p = next /\ last = prev
  | t :: q' => p = t /\ t <> 0 /\ exists nx, L t = Some (nx, prev) /\ dseg L t nx q' last next
  end.

Lemma dseg_app L prev p q1 q2 last next :
  dseg L prev p (q1 ++ q2) last next <->
  exists l1 p2, dseg L prev p q1 l1 p2 /\ dseg L l1 p2 q2 last next.
Proof.
  revert prev p. induction q1 as [|t q1 IH]; intros prev p; simpl.
  - split; [by eauto | by intros (? & ? & (-> & ->) & ?)].
  - setoid_rewrite IH. naive_solver.
Qed.

Lemma dseg_frame L L' prev p q last next :
  (forall t, t ∈ q -> L' t = L t) -> dseg L prev p q last next -> dseg L' prev p q last next.
Proof.
  revert prev p. induction q as [|t q IH]; intros prev p HL; simpl; [done|].
  intros (-> & Ht & nx & HLt & Hq). split_and!; [done..|]. exists nx. rewrite HL by left. split; [done|].
  apply IH; [|done]. intros u Hu. apply HL. by right.
Qed.

Lemma dseg_nonzero L prev p q last next t : dseg L prev p q last next -> t ∈ q -> t <> 0.
Proof.
  revert prev p. induction q as [|u q IH]; intros prev p; [by rewrite elem_of_nil|].
  intros (-> & Hu & nx & _ & Hq) [->|Ht]%elem_of_cons; [done | by eapply IH].
Qed.

(** A queue is empty exactly when its head is null. *)
Lemma dseg_head L p q last : dseg L 0 p q last 0 -> nz p = bool_decide (q <> []).
Proof.
  unfold nz. destruct q as [|t q]; simpl; [by intros [-> _]|]. intros (-> & Ht & _).
  by apply Z.eqb_neq in Ht as ->.
Qed.

Lemma dseg_last L prev p q last next :
  dseg L prev p q last next -> (q = [] /\ last = prev) \/ last ∈ q.
Proof.
  revert prev p. induction q as [|t q IH]; intros prev p; [by intros [_ ->]; left|].
  intros (-> & _ & nx & _ & Hq). right. destruct (IH _ _ Hq) as [[-> ->]|Hl]; [by left | by right].
Qed.

Lemma dseg_first L prev p q last next :
  dseg L prev p q last next -> (q = [] /\ p = next) \/ p ∈ q.
Proof. destruct q as [|t q]; [by intros [-> _]; left|]. intros (-> & _). right. by left. Qed.

(** Cutting a thread out: what was before it leads to its successor, what was
    after it back to its predecessor. *)
Lemma dseg_before L L' h q pv t nx :
  dseg L 0 h q pv t -> NoDup q ->
  (forall u, u ∈ q -> L' u = (fun l => if decide (u = pv) then (nx, l.2) else l) <$> L u) ->
  dseg L' 0 (if nz pv then h else nx) q pv nx.
Proof.
  destruct (decide (q = [])) as [->|Hne]; [by intros [_ ->] _ _|].
  apply exists_last in Hne as (q0 & z & ->). rewrite !dseg_app.
  intros (l1 & p2 & H0 & -> & Hz & nx0 & HL & <- & ->) (Hnd & Hn & _)%NoDup_app HL'.
  replace (nz z) with true by (symmetry; by apply negb_true_iff, Z.eqb_neq).
  exists l1, z. split.
  - apply (dseg_frame L); [|done]. intros u Hu. rewrite HL' by set_solver.
    destruct (L u); simpl; [|done]. rewrite decide_False; [done|]. intros ->. apply (Hn z Hu). by left.
  - simpl. split_and!; [done..|]. exists nx. rewrite HL' by set_solver. rewrite HL. simpl. by rewrite decide_True.
Qed.

Lemma dseg_after L L' t pv nx q last :
  dseg L t nx q last 0 -> NoDup q ->
  (forall u, u ∈ q -> L' u = (fun l => if decide (u = nx) then (l.1, pv) else l) <$> L u) ->
  dseg L' pv nx q (if nz nx then last else pv) 0.
Proof.
  destruct q as [|c q]; simpl; [by intros [-> ->]|].
  intros (-> & Hc & n2 & HL & Hq) [Hn Hnd]%NoDup_cons HL'.
  replace (nz c) with true by (symmetry; by apply negb_true_iff, Z.eqb_neq).
  split_and!; [done..|]. exists n2. rewrite HL' by left. rewrite HL. simpl. rewrite decide_True by done. split; [done|].
  apply (dseg_frame L); [|done]. intros u Hu. rewrite HL' by (by right).
  destruct (L u); simpl; [|done]. rewrite decide_False; [done|]. by intros ->.
Qed.

Lemma remove_notin t q : t ∉ q -> remove t q = q.
Proof.
  unfold remove. induction q as [|u q IH]; [done|]. intros [Hu Hq]%not_elem_of_cons.
  by rewrite filter_cons_True, IH by naive_solver.
Qed.

Lemma remove_split t u v : NoDup (u ++ t :: v) -> remove t (u ++ t :: v) = u ++ v.
Proof.
  intros (_ & Hu & [Hv _]%NoDup_cons)%NoDup_app.
  assert (t ∉ u) as Htu by (intros Hx; apply (Hu t Hx); by left).
  unfold remove. rewrite filter_app, filter_cons_False by naive_solver.
  fold (remove t u) (remove t v). by rewrite !remove_notin.
Qed.

Lemma elem_of_remove t u q : u ∈ remove t q <-> u <> t /\ u ∈ q.
Proof. unfold remove. by rewrite list_elem_of_filter. Qed.

Lemma NoDup_remove t q : NoDup q -> NoDup (remove t q).
Proof. apply NoDup_filter. Qed.

Lemma not_elem_of_app_cons (w t : Z) u v : w ∉ u ++ t :: v -> w ∉ u /\ w <> t /\ w ∉ v.
Proof. by intros [? [? ?]%not_elem_of_cons]%not_elem_of_app. Qed.

Lemma dseg_end L p q last : dseg L 0 p q last 0 -> nz last = bool_decide (q <> []).
Proof.
  intros Hq. destruct (dseg_last _ _ _ _ _ _ Hq) as [[-> ->]|Hin]; [done|].
  rewrite bool_decide_true by (intros ->; by apply elem_of_nil in Hin).
  by apply negb_true_iff, Z.eqb_neq, (dseg_nonzero _ _ _ _ _ _ _ Hq).
Qed.

(** ** Records with links *)

(** [link] has the next and the previous element. *)
Class Linked (A : Type) := {
  link : A -> Z * Z;
  with_next : Z -> A -> A;
  with_prev : Z -> A -> A;
  link_next n x : link (with_next n x) = (n, (link x).2);
  link_prev p x : link (with_prev p x) = ((link x).1, p);
}.

Section linked.
Context {A : Type} `{!Linked A}.
Implicit Types (m : gmap Z A) (l : list Z).

Definition links m (t : Z) : option (Z * Z) := link <$> m !! t.

Lemma links_alter f t m u :
  links (alter f t m) u = (if decide (u = t) then link ∘ f else link) <$> m !! u.
Proof.
  unfold links. destruct (decide (u = t)) as [->|Hu].
  - rewrite lookup_alter_eq. by destruct (m !! t).
  - by rewrite lookup_alter_ne.
Qed.

Lemma links_alter_same f t m u : (forall x, link (f x) = link x) -> links (alter f t m) u = links m u.
Proof. intros Hf. rewrite links_alter. unfold links. case_decide; [|done]. destruct (m !! u); simpl; [by rewrite Hf | done]. Qed.

Lemma links_alter_ne f t m u : u <> t -> links (alter f t m) u = links m u.
Proof. intros Hu. unfold links. by rewrite lookup_alter_ne. Qed.

Lemma dseg_tcb m prev p q last next t :
  dseg (links m) prev p q last next -> t ∈ q -> exists x, m !! t = Some x.
Proof.
  revert prev p. induction q as [|u q IH]; intros prev p; [by rewrite elem_of_nil|].
  intros (-> & _ & nx & Hl & Hq) [->|Ht]%elem_of_cons; [|by eapply IH].
  unfold links in Hl. destruct (m !! u); [eauto | done].
Qed.

(** What the links of an element of a queue are. *)
Lemma links_in_queue m h l e t :
  dseg (links m) 0 h l e 0 -> NoDup l -> t ∈ l ->
  exists x, m !! t = Some x /\ (link x).2 <> t /\ (link x).1 <> t /\
    ((link x).2 <> 0 -> (link x).2 ∈ l) /\ ((link x).1 <> 0 -> (link x).1 ∈ l) /\
    ((link x).2 = 0 /\ (link x).1 = 0 <-> remove t l = []).
Proof.
  intros Hq Hnd (u & v & ->)%list_elem_of_split. rewrite remove_split by done.
  destruct (dseg_tcb _ _ _ _ _ _ t Hq) as [x Hx]; [set_solver|]. exists x.
  assert (forall w, w ∈ u ++ t :: v -> w <> 0) as Hnz by (intros w; by apply (dseg_nonzero _ _ _ _ _ _ _ Hq)).
  apply dseg_app in Hq as (pv & p2 & Hu & -> & Ht & nx & HL & Hv).
  unfold links in HL. rewrite Hx in HL. simpl in HL. injection HL as ->. simpl.
  apply NoDup_app in Hnd as (_ & Hdis & [Htv _]%NoDup_cons).
  assert (t ∉ u) as Htu by (intros Hi; apply (Hdis t Hi); by left).
  assert (pv = 0 /\ u = [] \/ pv <> 0 /\ pv ∈ u) as Hpv.
  { apply dseg_last in Hu as [[-> ->]|Hu]; [by left|]. right. split; [apply Hnz, elem_of_app; by left | done]. }
  assert (nx = 0 /\ v = [] \/ nx <> 0 /\ nx ∈ v) as Hnx.
  { apply dseg_first in Hv as [[-> ->]|Hv]; [by left|]. right. split; [apply Hnz, elem_of_app; right; by right | done]. }
  split; [done|]. clear Hu Hv Hdis Hnz Hx. split_and!.
  - destruct Hpv as [[-> _]|[_ Hp]]; [done | by intros ->].
  - destruct Hnx as [[-> _]|[_ Hn]]; [done | by intros ->].
  - intros H0. destruct Hpv as [[? _]|[_ Hp]]; [done|]. apply elem_of_app. by left.
  - intros H0. destruct Hnx as [[? _]|[_ Hn]]; [done|]. apply elem_of_app. right. by right.
  - destruct Hpv as [[-> ->]|[Hp0 Hp]], Hnx as [[-> ->]|[Hn0 Hn]]; (split; [by intros [? ?]|]).
    + done.
    + simpl. intros ->. by apply elem_of_nil in Hn.
    + rewrite app_nil_r. intros ->. by apply elem_of_nil in Hp.
    + intros [-> _]%app_eq_nil. by apply elem_of_nil in Hp.
Qed.

(** ** Cutting an element out *)

(** The links that cutting out [t], between [pv] and [nx], changes. *)
Definition bypass (pv nx : Z) m : gmap Z A :=
  let m1 := if nz pv then alter (with_next nx) pv m else m in
  if nz nx then alter (with_prev pv) nx m1 else m1.

Lemma bypass_ne pv nx m u : (u = pv -> u = 0) -> (u = nx -> u = 0) -> bypass pv nx m !! u = m !! u.
Proof.
  intros Hp Hn. unfold bypass, nz. destruct (Z.eqb_spec pv 0), (Z.eqb_spec nx 0); simpl; rewrite ?lookup_alter_ne; naive_solver.
Qed.

Lemma bypass_links pv nx m u :
  u <> 0 -> pv <> nx \/ u <> pv ->
  links (bypass pv nx m) u =
  (fun l : Z * Z => if decide (u = pv) then (nx, l.2) else if decide (u = nx) then (l.1, pv) else l) <$> links m u.
Proof.
  intros Hu Hpn. unfold bypass, nz, links.
  destruct (decide (u = pv)) as [Ep|Hp], (decide (u = nx)) as [En|Hn]; subst; try (exfalso; naive_solver).
  - rewrite (proj2 (Z.eqb_neq pv 0)) by done. simpl.
    destruct (nx =? 0); simpl; rewrite ?(lookup_alter_ne _ _ nx pv) by done; rewrite lookup_alter_eq;
      destruct (m !! pv); simpl; by rewrite ?link_next.
  - rewrite (proj2 (Z.eqb_neq nx 0)) by done. simpl. rewrite lookup_alter_eq.
    destruct (pv =? 0); simpl; rewrite ?lookup_alter_ne by done; destruct (m !! nx); simpl; by rewrite ?link_prev.
  - destruct (pv =? 0), (nx =? 0); simpl; rewrite ?lookup_alter_ne by done; by destruct (m !! u).
Qed.

Lemma bypass_queue m h l e t x :
  dseg (links m) 0 h l e 0 -> NoDup l -> t ∈ l -> m !! t = Some x ->
  dseg (links (bypass (link x).2 (link x).1 m)) 0
    (if nz (link x).2 then h else (link x).1) (remove t l) (if nz (link x).1 then e else (link x).2) 0.
Proof.
  intros Hq Hnd (u & v & ->)%list_elem_of_split Hx. rewrite remove_split by done.
  assert (forall w, w ∈ u ++ t :: v -> w <> 0) as Hin by (intros w; by apply (dseg_nonzero _ _ _ _ _ _ _ Hq)).
  apply dseg_app in Hq as (pv & p2 & Hu & -> & Ht & nx & HL & Hv).
  unfold links in HL. rewrite Hx in HL. simpl in HL. injection HL as ->. simpl.
  apply NoDup_app in Hnd as (Hndu & Hdis & [Htv Hndv]%NoDup_cons).
  assert (forall w, w ∈ u -> w <> t /\ w ∉ v) as Huv by (intros w Hw; apply Hdis in Hw; by apply not_elem_of_cons in Hw).
  pose proof (dseg_last _ _ _ _ _ _ Hu) as Hlast. pose proof (dseg_first _ _ _ _ _ _ Hv) as Hfirst.
  apply dseg_app. exists pv, nx. split.
  - apply (dseg_before (links m) _ _ _ _ t); [done..|]. intros w Hw.
    assert (w <> nx) as Hwn by (destruct Hfirst as [[_ ->]|Hf]; [apply Hin, elem_of_app; by left | intros ->; by apply (proj2 (Huv _ Hw))]).
    rewrite bypass_links; [destruct (links m w); simpl; by rewrite ?(decide_False (P := w = nx)) | apply Hin, elem_of_app; by left | destruct (decide (w = pv)) as [<-|]; [by left | by right]].
  - apply (dseg_after (links m) _ t); [done..|]. intros w Hw.
    assert (w <> pv) as Hwp by (destruct Hlast as [[_ ->]|Hl]; [apply Hin, elem_of_app; right; by right | intros ->; by apply (proj2 (Huv _ Hl))]).
    rewrite bypass_links; [destruct (links m w); simpl; by rewrite ?(decide_False (P := w = pv)) | apply Hin, elem_of_app; right; by right | by right].
Qed.

(** ** Adding an element *)

(** Whatever is put after [e], which was the last of a queue from [h]. *)
Definition hang (h e t : Z) m : gmap Z A :=
  let m1 := if nz h then alter (with_next t) e m else m in
  alter (with_next 0) t (alter (with_prev e) t m1).

Lemma hang_ne h l e t m u :
  dseg (links m) 0 h l e 0 -> u ∉ l -> u <> t -> hang h e t m !! u = m !! u.
Proof.
  intros Hq Hl Ht. unfold hang. rewrite !lookup_alter_ne by done. rewrite (dseg_head _ _ _ _ Hq).
  case_bool_decide; [|done]. rewrite lookup_alter_ne; [done|].
  destruct (dseg_last _ _ _ _ _ _ Hq) as [[-> _]|Hin]; [done | by intros <-].
Qed.

Lemma hang_queue h l e t x m :
  dseg (links m) 0 h l e 0 -> NoDup l -> t ∉ l -> t <> 0 -> m !! t = Some x ->
  dseg (links (hang h e t m)) 0 (if nz h then h else t) (l ++ [t]) t 0.
Proof.
  intros Hq Hnd Hl Ht Hx. apply dseg_app. exists e, t.
  pose proof (dseg_head _ _ _ _ Hq) as Hh. pose proof (dseg_end _ _ _ _ Hq) as He.
  assert (e <> t) as Het by (destruct (dseg_last _ _ _ _ _ _ Hq) as [[-> ->]|Hin]; [done | by intros <-]).
  split.
  - rewrite Hh, <- He. apply (dseg_before (links m) _ _ _ _ 0); [done..|]. intros w Hw.
    assert (w <> t) by (by intros ->). unfold hang. rewrite Hh, bool_decide_true by (intros ->; by apply elem_of_nil in Hw).
    rewrite !links_alter_ne by done. rewrite links_alter. unfold links.
    case_decide; destruct (m !! w); simpl; by rewrite ?link_next.
  - simpl. split_and!; [done..|]. exists 0. split; [|done]. unfold links, hang. rewrite !lookup_alter_eq.
    rewrite Hh. case_bool_decide; rewrite ?lookup_alter_ne by done; rewrite Hx; simpl; by rewrite link_next, link_prev.
Qed.

(** Whatever is put in front of [h]. *)
Definition push (h e t : Z) m : gmap Z A :=
  let m1 := if nz e then alter (with_prev t) h m else m in
  alter (with_next h) t (alter (with_prev 0) t m1).

Lemma push_ne h l e t m u :
  dseg (links m) 0 h l e 0 -> u ∉ l -> u <> t -> push h e t m !! u = m !! u.
Proof.
  intros Hq Hl Ht. unfold push. rewrite !lookup_alter_ne by done. rewrite (dseg_end _ _ _ _ Hq).
  case_bool_decide; [|done]. rewrite lookup_alter_ne; [done|].
  destruct (dseg_first _ _ _ _ _ _ Hq) as [[-> _]|Hin]; [done | by intros <-].
Qed.

Lemma push_queue h l e t x m :
  dseg (links m) 0 h l e 0 -> NoDup l -> t ∉ l -> t <> 0 -> m !! t = Some x ->
  dseg (links (push h e t m)) 0 t (t :: l) (if nz e then e else t) 0.
Proof.
  intros Hq Hnd Hl Ht Hx. pose proof (dseg_head _ _ _ _ Hq) as Hh. pose proof (dseg_end _ _ _ _ Hq) as He.
  assert (h <> t) as Het by (destruct (dseg_first _ _ _ _ _ _ Hq) as [[-> ->]|Hin]; [done | by intros <-]).
  simpl. split_and!; [done..|]. exists h. split.
  - unfold links, push. rewrite !lookup_alter_eq.
    rewrite He. case_bool_decide; rewrite ?lookup_alter_ne by done; rewrite Hx; simpl; by rewrite link_next, link_prev.
  - rewrite He, <- Hh. apply (dseg_after (links m) _ 0); [done..|]. intros w Hw.
    assert (w <> t) by (by intros ->). unfold push. rewrite He, bool_decide_true by (intros ->; by apply elem_of_nil in Hw).
    rewrite !links_alter_ne by done. rewrite links_alter. unfold links.
    case_decide; destruct (m !! w); simpl; by rewrite ?link_prev.
Qed.

(** ** What does not look at the links *)

Section fmap.
Context {B : Type} (f : A -> B) (Hn : forall n x, f (with_next n x) = f x) (Hp : forall p x, f (with_prev p x) = f x).

Lemma fmap_alter_same g t m : (forall x, f (g x) = f x) -> f <$> alter g t m = f <$> m.
Proof using.
  intros Hf. apply map_eq. intros u. rewrite !lookup_fmap. destruct (decide (u = t)) as [->|Hu].
  - rewrite lookup_alter_eq. destruct (m !! t); simpl; [by rewrite Hf | done].
  - by rewrite lookup_alter_ne.
Qed.

Lemma bypass_fmap pv nx m : f <$> bypass pv nx m = f <$> m.
Proof using Hn Hp. unfold bypass. destruct (nz pv), (nz nx); by rewrite ?fmap_alter_same. Qed.

Lemma hang_fmap h e t m : f <$> hang h e t m = f <$> m.
Proof using Hn Hp. unfold hang. destruct (nz h); by rewrite !fmap_alter_same. Qed.

Lemma push_fmap h e t m : f <$> push h e t m = f <$> m.
Proof using Hn Hp. unfold push. destruct (nz e); by rewrite !fmap_alter_same. Qed.

End fmap.

End linked.
