(* ===== verification/Ntfn.v ===== *)
(** * Notifications of the kernel

    The part of the kernel on which the locks of [libsel4sync] and the server's
    main loop rest: notification objects ([src/kernel/src/object/notification.c])
    and the queues of blocked threads, which are threaded through the threads
    themselves ([tcbEPAppend] and [tcbEPDequeue] of
    [src/kernel/src/object/tcb.c]), with the cancellation of a receive on an
    endpoint that a signal to a bound notification makes ([cancelIPC] of
    [src/kernel/src/object/endpoint.c]).  The theorems say that the pointers
    implement a flag with a queue of waiting threads in the order of their
    arrival.

    Which of the runnable threads runs is left open here: [scheduleTCB],
    [possibleSwitchTo], [SCHED_ENQUEUE] and [rescheduleRequired] change the
    scheduler's part of the threads only, which is in [Sched]. *)
From S2P Require Import Prelude.

(** ** Objects *)

(** [_thread_state_t]. *)
Inductive thread_state : Type :=
| Inactive
| Running
| Restart
| BlockedOnReceive
| BlockedOnSend
| BlockedOnReply
| BlockedOnNotification
| IdleThreadState.

(** [notification_state_t] and [endpoint_state_t]. *)
Inductive ntfn_state : Type := NtfnState_Idle | NtfnState_Waiting | NtfnState_Active.
Inductive ep_state : Type := EPState_Idle | EPState_Send | EPState_Recv.

#[global] Instance thread_state_eq_dec : EqDecision thread_state.
Proof. solve_decision. Defined.
#[global] Instance ntfn_state_eq_dec : EqDecision ntfn_state.
Proof. solve_decision. Defined.
#[global] Instance ep_state_eq_dec : EqDecision ep_state.
Proof. solve_decision. Defined.

(** [tcb_t], as far as queues and signals go. *)
Record tcb := Tcb {
  tsType : thread_state;
  blockingObject : Z;
  tcbEPNext : Z;
  tcbEPPrev : Z;
  badgeRegister : Z;
  tcbBoundNotification : Z;
}.

(** [notification_t]. *)
Record notification := Notification {
  state : ntfn_state;
  ntfnQueue_head : Z;
  ntfnQueue_tail : Z;
  ntfnMsgIdentifier : Z;
  ntfnBoundTCB : Z;
}.

(** [endpoint_t]. *)
Record endpoint := Endpoint {
  ep_st : ep_state;
  epQueue_head : Z;
  epQueue_tail : Z;
}.

(** [tcb_queue_t]. *)
Record tcb_queue := Queue { head : Z; end_ : Z }.

Record kernel := Kernel {
  tcbs : gmap Z tcb;
  ntfns : gmap Z notification;
  eps : gmap Z endpoint;
}.

(** The kernel's other way to let go of a blocked thread: the reply capability of
    a thread that waits for an answer is deleted. *)
Class ReplyCaps := cancel_reply : Z -> M kernel unit.

(** ** Operations *)

Definition tcb_at (t : Z) : M kernel tcb := k ← get; deref (k.(tcbs) !! t).
Definition tcb_modify (t : Z) (f : tcb -> tcb) : M kernel unit :=
  x ← tcb_at t;
  modify (fun k => {| k with tcbs := <[t := f x]> k.(tcbs) |}).

Definition ntfn_at (n : Z) : M kernel notification := k ← get; deref (k.(ntfns) !! n).
Definition ntfn_modify (n : Z) (f : notification -> notification) : M kernel unit :=
  x ← ntfn_at n;
  modify (fun k => {| k with ntfns := <[n := f x]> k.(ntfns) |}).

Definition ep_at (e : Z) : M kernel endpoint := k ← get; deref (k.(eps) !! e).
Definition ep_modify (e : Z) (f : endpoint -> endpoint) : M kernel unit :=
  x ← ep_at e;
  modify (fun k => {| k with eps := <[e := f x]> k.(eps) |}).

Definition isRunnable (x : tcb) : bool :=
  match x.(tsType) with Running | Restart => true | _ => false end.

Definition setThreadState (t : Z) (ts : thread_state) : M kernel unit :=
  tcb_modify t (fun x => {| x with tsType := ts |}).
Definition setBadge (t badge : Z) : M kernel unit :=
  tcb_modify t (fun x => {| x with badgeRegister := badge |}).
Definition setNext (t next : Z) : M kernel unit :=
  tcb_modify t (fun x => {| x with tcbEPNext := next |}).
Definition setPrev (t prev : Z) : M kernel unit :=
  tcb_modify t (fun x => {| x with tcbEPPrev := prev |}).

Definition tcbEPAppend (t : Z) (q : tcb_queue) : M kernel tcb_queue :=
  (if nz q.(head) then setNext q.(end_) t else mret tt);;
  setPrev t q.(end_);;
  setNext t 0;;
  mret (Queue (if nz q.(head) then q.(head) else t) t).

Definition tcbEPDequeue (t : Z) (q : tcb_queue) : M kernel tcb_queue :=
  x ← tcb_at t;
  h ← (if nz x.(tcbEPPrev)
       then setNext x.(tcbEPPrev) x.(tcbEPNext);; mret q.(head)
       else mret x.(tcbEPNext));
  y ← tcb_at t;
  e ← (if nz y.(tcbEPNext)
       then setPrev y.(tcbEPNext) y.(tcbEPPrev);; mret q.(end_)
       else mret y.(tcbEPPrev));
  mret (Queue h e).

Definition ntfn_ptr_get_queue (n : Z) : M kernel tcb_queue :=
  x ← ntfn_at n;
  mret (Queue x.(ntfnQueue_head) x.(ntfnQueue_tail)).

Definition ntfn_ptr_set_queue (n : Z) (q : tcb_queue) : M kernel unit :=
  ntfn_modify n (fun x => {| x with ntfnQueue_head := q.(head); ntfnQueue_tail := q.(end_) |}).

Definition set_state (n : Z) (st : ntfn_state) : M kernel unit :=
  ntfn_modify n (fun x => {| x with state := st |}).

Definition ntfn_set_active (n badge : Z) : M kernel unit :=
  ntfn_modify n (fun x => {| x with state := NtfnState_Active; ntfnMsgIdentifier := badge |}).

Definition cancelSignal (t n : Z) : M kernel unit :=
  x ← ntfn_at n;
  assert (bool_decide (x.(state) = NtfnState_Waiting));;
  q ← ntfn_ptr_get_queue n;
  q ← tcbEPDequeue t q;
  ntfn_ptr_set_queue n q;;
  when (negb (nz q.(head))) (set_state n NtfnState_Idle);;
  setThreadState t Inactive.

Section Kernel.
Context `{ReplyCaps}.

Definition cancelIPC (t : Z) : M kernel unit :=
  x ← tcb_at t;
  match x.(tsType) with
  | BlockedOnSend | BlockedOnReceive =>
      let e := x.(blockingObject) in
      ep ← ep_at e;
      assert (negb (bool_decide (ep.(ep_st) = EPState_Idle)));;
      q ← tcbEPDequeue t (Queue ep.(epQueue_head) ep.(epQueue_tail));
      ep_modify e (fun ep => {| ep with epQueue_head := q.(head); epQueue_tail := q.(end_) |});;
      when (negb (nz q.(head))) (ep_modify e (fun ep => {| ep with ep_st := EPState_Idle |}));;
      setThreadState t Inactive
  | BlockedOnNotification => cancelSignal t x.(blockingObject)
  | BlockedOnReply => cancel_reply t
  | _ => mret tt
  end.

Definition sendSignal (n badge : Z) : M kernel unit :=
  x ← ntfn_at n;
  match x.(state) with
  | NtfnState_Idle =>
      let t := x.(ntfnBoundTCB) in
      if nz t then
        y ← tcb_at t;
        if bool_decide (y.(tsType) = BlockedOnReceive) then
          cancelIPC t;;
          setThreadState t Running;;
          setBadge t badge
        else ntfn_set_active n badge
      else ntfn_set_active n badge
  | NtfnState_Waiting =>
      q ← ntfn_ptr_get_queue n;
      let dest := q.(head) in
      assert (nz dest);;
      q ← tcbEPDequeue dest q;
      ntfn_ptr_set_queue n q;;
      when (negb (nz q.(head))) (set_state n NtfnState_Idle);;
      setThreadState dest Running;;
      setBadge dest badge
  | NtfnState_Active =>
      ntfn_modify n (fun x => {| x with ntfnMsgIdentifier := Z.lor x.(ntfnMsgIdentifier) badge |})
  end.
End Kernel.

Definition receiveSignal (t n : Z) (isBlocking : bool) : M kernel unit :=
  x ← ntfn_at n;
  match x.(state) with
  | NtfnState_Idle | NtfnState_Waiting =>
      if isBlocking then
        tcb_modify t (fun y => {| y with tsType := BlockedOnNotification; blockingObject := n |});;
        q ← ntfn_ptr_get_queue n;
        q ← tcbEPAppend t q;
        set_state n NtfnState_Waiting;;
        ntfn_ptr_set_queue n q
      else setBadge t 0
  | NtfnState_Active =>
      setBadge t x.(ntfnMsgIdentifier);;
      set_state n NtfnState_Idle
  end.

(** The loop of [cancelAllSignals]; a queue is no longer than there are threads. *)
Fixpoint restart_chain (fuel : nat) (t : Z) : M kernel unit :=
  match fuel with
  | O => stuck NoFuel
  | S fuel =>
      if nz t then
        setThreadState t Restart;;
        x ← tcb_at t;
        restart_chain fuel x.(tcbEPNext)
      else mret tt
  end.

Definition cancelAllSignals (n : Z) : M kernel unit :=
  x ← ntfn_at n;
  when (bool_decide (x.(state) = NtfnState_Waiting))
    (let t := x.(ntfnQueue_head) in
     ntfn_modify n (fun x => {| x with state := NtfnState_Idle; ntfnQueue_head := 0; ntfnQueue_tail := 0 |});;
     k ← get;
     restart_chain (S (size k.(tcbs))) t).

Definition completeSignal (n t : Z) : M kernel unit :=
  x ← ntfn_at n;
  if nz t && bool_decide (x.(state) = NtfnState_Active) then
    setBadge t x.(ntfnMsgIdentifier);;
    set_state n NtfnState_Idle
  else stuck Assert.

Definition doUnbindNotification (n t : Z) : M kernel unit :=
  ntfn_modify n (fun x => {| x with ntfnBoundTCB := 0 |});;
  tcb_modify t (fun x => {| x with tcbBoundNotification := 0 |}).

Definition unbindMaybeNotification (n : Z) : M kernel unit :=
  x ← ntfn_at n;
  when (nz x.(ntfnBoundTCB)) (doUnbindNotification n x.(ntfnBoundTCB)).

Definition unbindNotification (t : Z) : M kernel unit :=
  x ← tcb_at t;
  when (nz x.(tcbBoundNotification)) (doUnbindNotification x.(tcbBoundNotification) t).

Definition bindNotification (t n : Z) : M kernel unit :=
  ntfn_modify n (fun x => {| x with ntfnBoundTCB := t |});;
  tcb_modify t (fun x => {| x with tcbBoundNotification := n |}).
