(* ===== verification/NtfnSpec.v ===== *)
(** * What notifications promise

    The abstract machine of [Ntfn]: a notification is idle, holds a badge, or has
    a queue of waiting threads; an endpoint has a queue; a thread is in the one
    queue of the object on which it is blocked.  Each operation of the kernel
    refines an operation of that machine. *)
From S2P Require Import Prelude Dlist Ntfn.

(** ** The abstract machine *)

Inductive flag : Type :=
| Idle
| Active (badge : Z)
| Waiting (queue : list Z).

(** An object with a queue. *)
Inductive object : Type := ntfn (n : Z) | ep (e : Z).

#[global] Instance object_eq_dec : EqDecision object.
Proof. solve_decision. Defined.

Record thread := Thread {
  t_state : thread_state;
  t_object : Z;
  t_badge : Z;
  t_bound : Z;
}.

Record machine := Machine {
  threads : gmap Z thread;
  flags : gmap Z (flag * Z); (* with the bound thread *)
  queues : gmap Z (ep_state * list Z);
}.

Definition blocked_on (x : thread) : option object :=
  match x.(t_state) with
  | BlockedOnNotification => Some (ntfn x.(t_object))
  | BlockedOnSend | BlockedOnReceive => Some (ep x.(t_object))
  | _ => None
  end.

Definition waiting (q : list Z) : flag := match q with [] => Idle | _ => Waiting q end.
Definition flag_queue (f : flag) : list Z := match f with Waiting q => q | _ => [] end.

Definition queue_of (A : machine) (o : object) : list Z :=
  match o with
  | ntfn n => match A.(flags) !! n with Some (f, _) => flag_queue f | None => [] end
  | ep e => match A.(queues) !! e with Some (_, q) => q | None => [] end
  end.

Definition set_flag (n : Z) (f : flag) (A : machine) : machine :=
  {| A with flags := alter (fun '(_, b) => (f, b)) n A.(flags) |}.
Definition on_thread (t : Z) (g : thread -> thread) (A : machine) : machine :=
  {| A with threads := alter g t A.(threads) |}.
Definition leave (e t : Z) (A : machine) : machine :=
  {| A with queues := alter (fun '(st, q) =>
       let q' := remove t q in (match q' with [] => EPState_Idle | _ => st end, q')) e A.(queues) |}.

Definition go (st : thread_state) (x : thread) : thread := {| x with t_state := st |}.
Definition badged (badge : Z) (x : thread) : thread := {| x with t_badge := badge |}.
Definition block (n : Z) (x : thread) : thread :=
  {| x with t_state := BlockedOnNotification; t_object := n |}.

(** A signal goes to the first waiting thread, or to the bound thread when that
    waits for a message, or stays. *)
Definition signal (n badge : Z) (A : machine) : machine :=
  match A.(flags) !! n with
  | Some (Idle, b) =>
      match A.(threads) !! b with
      | Some x =>
          if bool_decide (x.(t_state) = BlockedOnReceive)
          then on_thread b (fun y => badged badge (go Running y)) (leave x.(t_object) b A)
          else set_flag n (Active badge) A
      | None => set_flag n (Active badge) A
      end
  | Some (Active old, _) => set_flag n (Active (Z.lor old badge)) A
  | Some (Waiting (t :: q), _) =>
      on_thread t (fun y => badged badge (go Running y)) (set_flag n (waiting q) A)
  | _ => A
  end.

(** A thread that waits takes the badge, or joins the queue at its end. *)
Definition wait (t n : Z) (A : machine) : machine :=
  match A.(flags) !! n with
  | Some (Active badge, _) => on_thread t (badged badge) (set_flag n Idle A)
  | Some (f, _) => on_thread t (block n) (set_flag n (Waiting (flag_queue f ++ [t])) A)
  | None => A
  end.

Definition cancel (t n : Z) (A : machine) : machine :=
  on_thread t (go Inactive) (set_flag n (waiting (remove t (queue_of A (ntfn n)))) A).

Definition cancel_all (n : Z) (A : machine) : machine :=
  match A.(flags) !! n with
  | Some (Waiting q, _) =>
      let A' := set_flag n Idle A in
      {| A' with threads := foldl (fun T t => alter (go Restart) t T) A.(threads) q |}
  | _ => A
  end.

(** ** Queues threaded through threads *)

#[global] Program Instance tcb_linked : Linked tcb := {|
  link x := (x.(tcbEPNext), x.(tcbEPPrev));
  with_next n x := {| x with tcbEPNext := n |};
  with_prev p x := {| x with tcbEPPrev := p |};
|}.
Solve Obligations with done.

(** ** Refinement *)

Definition view (x : tcb) : thread :=
  Thread x.(tsType) x.(blockingObject) x.(badgeRegister) x.(tcbBoundNotification).

Definition ntfn_rel (x : notification) (f : flag * Z) : Prop :=
  x.(ntfnBoundTCB) = f.2 /\
  match f.1 with
  | Idle => x.(state) = NtfnState_Idle
  | Active badge => x.(state) = NtfnState_Active /\ x.(ntfnMsgIdentifier) = badge
  | Waiting q => x.(state) = NtfnState_Waiting /\ q <> []
  end.

Definition ep_rel (x : endpoint) (f : ep_state * list Z) : Prop :=
  x.(ep_st) = f.1 /\ (f.1 = EPState_Idle <-> f.2 = []).

Definition queue_at (k : kernel) (o : object) : tcb_queue :=
  match o with
  | ntfn n => match k.(ntfns) !! n with Some x => Queue x.(ntfnQueue_head) x.(ntfnQueue_tail) | None => Queue 0 0 end
  | ep e => match k.(eps) !! e with Some x => Queue x.(epQueue_head) x.(epQueue_tail) | None => Queue 0 0 end
  end.

Definition on_queue (m : gmap Z tcb) (q : tcb_queue) (l : list Z) : Prop :=
  dseg (links m) 0 q.(head) l q.(end_) 0.

Record refines (k : kernel) (A : machine) : Prop := {
  r_threads : view <$> k.(tcbs) = A.(threads);
  r_null : A.(threads) !! 0 = None;
  r_ntfns : forall n, option_Forall2 ntfn_rel (k.(ntfns) !! n) (A.(flags) !! n);
  r_eps : forall e, option_Forall2 ep_rel (k.(eps) !! e) (A.(queues) !! e);
  r_queues : forall o, on_queue k.(tcbs) (queue_at k o) (queue_of A o);
  r_blocked : forall o t, t ∈ queue_of A o <-> A.(threads) !! t ≫= blocked_on = Some o;
  r_nodup : forall o, NoDup (queue_of A o);
}.

(** *** Runs of the primitives *)

Lemma tcb_modify_run t f k x :
  k.(tcbs) !! t = Some x -> tcb_modify t f k = Ok tt {| k with tcbs := alter f t k.(tcbs) |}.
Proof.
  intros Hx. unfold tcb_modify, tcb_at. erewrite bind_run by (rewrite get_bind, Hx; done).
  unfold modify. by rewrite (alter_alt_Some _ _ _ _ Hx).
Qed.

Lemma ntfn_modify_run n f k x :
  k.(ntfns) !! n = Some x -> ntfn_modify n f k = Ok tt {| k with ntfns := <[n := f x]> k.(ntfns) |}.
Proof. intros Hx. unfold ntfn_modify, ntfn_at. by erewrite bind_run by (rewrite get_bind, Hx; done). Qed.

Lemma ep_modify_run e f k x :
  k.(eps) !! e = Some x -> ep_modify e f k = Ok tt {| k with eps := <[e := f x]> k.(eps) |}.
Proof. intros Hx. unfold ep_modify, ep_at. by erewrite bind_run by (rewrite get_bind, Hx; done). Qed.

Lemma tcb_at_run t k x : k.(tcbs) !! t = Some x -> tcb_at t k = Ok x k.
Proof. intros Hx. unfold tcb_at. by rewrite get_bind, Hx. Qed.

Lemma ntfn_at_run n k x : k.(ntfns) !! n = Some x -> ntfn_at n k = Ok x k.
Proof. intros Hx. unfold ntfn_at. by rewrite get_bind, Hx. Qed.

Lemma ep_at_run e k x : k.(eps) !! e = Some x -> ep_at e k = Ok x k.
Proof. intros Hx. unfold ep_at. by rewrite get_bind, Hx. Qed.

(** *** Queues in the kernel *)

Lemma view_alter f t (m : gmap Z tcb) : (forall x, view (f x) = view x) -> view <$> alter f t m = view <$> m.
Proof.
  intros Hf. apply map_eq. intros u. rewrite !lookup_fmap. destruct (decide (u = t)) as [->|Hu].
  - rewrite lookup_alter_eq. destruct (m !! t); simpl; [by rewrite Hf | done].
  - by rewrite lookup_alter_ne.
Qed.

Lemma dequeue_run t q k x :
  k.(tcbs) !! t = Some x -> x.(tcbEPPrev) <> t -> x.(tcbEPNext) <> t ->
  (x.(tcbEPPrev) <> 0 -> is_Some (k.(tcbs) !! x.(tcbEPPrev))) ->
  (x.(tcbEPNext) <> 0 -> is_Some (k.(tcbs) !! x.(tcbEPNext))) ->
  tcbEPDequeue t q k =
  Ok (Queue (if nz x.(tcbEPPrev) then q.(head) else x.(tcbEPNext))
            (if nz x.(tcbEPNext) then q.(end_) else x.(tcbEPPrev)))
     {| k with tcbs := bypass x.(tcbEPPrev) x.(tcbEPNext) k.(tcbs) |}.
Proof.
  intros Hx Hpt Hnt Hp Hn. unfold tcbEPDequeue. erewrite bind_run by by apply tcb_at_run.
  assert (exists m1, (if nz x.(tcbEPPrev) then alter (fun y => {| y with tcbEPNext := x.(tcbEPNext) |}) x.(tcbEPPrev) k.(tcbs)
                      else k.(tcbs)) = m1 /\ m1 !! t = Some x /\
                     (x.(tcbEPNext) <> 0 -> is_Some (m1 !! x.(tcbEPNext)))) as (m1 & Em & Hm1 & Hn1).
  - eexists. split; [done|]. destruct (nz _); [|done]. rewrite lookup_alter_ne by done. split; [done|].
    intros H0. rewrite lookup_alter_is_Some. auto.
  - assert ((if nz x.(tcbEPPrev) then setNext x.(tcbEPPrev) x.(tcbEPNext);; mret q.(head)
             else mret x.(tcbEPNext)) k
            = Ok (if nz x.(tcbEPPrev) then q.(head) else x.(tcbEPNext)) {| k with tcbs := m1 |}) as E1.
    + subst m1. unfold nz in *. destruct (Z.eqb_spec x.(tcbEPPrev) 0) as [E0|E0]; simpl; [by destruct k|].
      destruct (Hp E0) as [y Hy]. unfold setNext. by erewrite bind_run by by eapply tcb_modify_run.
    + erewrite bind_run by exact E1. erewrite bind_run by by apply tcb_at_run.
      unfold bypass. simpl. rewrite Em. unfold nz in *. destruct (Z.eqb_spec x.(tcbEPNext) 0) as [E0|E0]; simpl; [done|].
      destruct (Hn1 E0) as [y Hy]. unfold setPrev. rewrite bind_assoc.
      by erewrite bind_run by by eapply tcb_modify_run.
Qed.

Lemma dequeue_ok k q l t :
  on_queue k.(tcbs) q l -> NoDup l -> t ∈ l ->
  exists m' q', tcbEPDequeue t q k = Ok q' {| k with tcbs := m' |} /\
    view <$> m' = view <$> k.(tcbs) /\ on_queue m' q' (remove t l) /\
    forall u, u ∉ l -> m' !! u = k.(tcbs) !! u.
Proof.
  intros Hq Hnd Ht. destruct (links_in_queue _ _ _ _ _ Hq Hnd Ht) as (x & Hx & Hpt & Hnt & Hp & Hn & _).
  eexists _, _. split_and!.
  - apply dequeue_run; [done..| |]; intros H0; eapply dseg_tcb; [done | by apply Hp | done | by apply Hn].
  - by apply bypass_fmap.
  - exact (bypass_queue k.(tcbs) q.(head) l q.(end_) t x Hq Hnd Ht Hx).
  - intros u Hu. apply bypass_ne; intros ->; apply dec_stable; auto.
Qed.

Lemma append_ok k q l t x :
  on_queue k.(tcbs) q l -> NoDup l -> t ∉ l -> t <> 0 -> k.(tcbs) !! t = Some x ->
  exists m' q', tcbEPAppend t q k = Ok q' {| k with tcbs := m' |} /\
    view <$> m' = view <$> k.(tcbs) /\ on_queue m' q' (l ++ [t]) /\
    forall u, u ∉ l -> u <> t -> m' !! u = k.(tcbs) !! u.
Proof.
  intros Hq Hnd Hl Ht Hx. exists (hang q.(head) q.(end_) t k.(tcbs)), (Queue (if nz q.(head) then q.(head) else t) t).
  split_and!.
  - unfold tcbEPAppend.
    set (m1 := if nz q.(head) then alter (with_next t) q.(end_) k.(tcbs) else k.(tcbs)).
    assert (q.(end_) <> t) as Het by (destruct (dseg_last _ _ _ _ _ _ Hq) as [[-> ->]|Hin]; [done | by intros <-]).
    assert (m1 !! t = Some x) as Hx1 by (subst m1; destruct (nz _); by rewrite ?lookup_alter_ne).
    erewrite bind_run with (s1 := {| k with tcbs := m1 |}).
    + unfold setPrev, setNext. erewrite bind_run by by eapply tcb_modify_run.
      by erewrite bind_run by (eapply tcb_modify_run; simpl; by rewrite lookup_alter_eq, Hx1).
    + subst m1. rewrite (dseg_head _ _ _ _ Hq). case_bool_decide as Hne; [|by destruct k]. unfold setNext.
      destruct (dseg_last _ _ _ _ _ _ Hq) as [[-> _]|Hin]; [done|].
      destruct (dseg_tcb _ _ _ _ _ _ _ Hq Hin) as [y Hy]. by eapply tcb_modify_run.
  - by apply hang_fmap.
  - by eapply hang_queue.
  - intros u Hu Hut. by eapply hang_ne.
Qed.

(** *** What one operation has to keep *)

Lemma refines_step k A k' A' o :
  refines k A ->
  view <$> k'.(tcbs) = A'.(threads) -> A'.(threads) !! 0 = None ->
  (forall n, option_Forall2 ntfn_rel (k'.(ntfns) !! n) (A'.(flags) !! n)) ->
  (forall e, option_Forall2 ep_rel (k'.(eps) !! e) (A'.(queues) !! e)) ->
  (forall o', o' <> o -> queue_at k' o' = queue_at k o' /\ queue_of A' o' = queue_of A o') ->
  (forall u o', o' <> o -> A.(threads) !! u ≫= blocked_on = Some o' -> links k'.(tcbs) u = links k.(tcbs) u) ->
  on_queue k'.(tcbs) (queue_at k' o) (queue_of A' o) -> NoDup (queue_of A' o) ->
  (forall u o', o' <> o -> A'.(threads) !! u ≫= blocked_on = Some o' <-> A.(threads) !! u ≫= blocked_on = Some o') ->
  (forall u, u ∈ queue_of A' o <-> A'.(threads) !! u ≫= blocked_on = Some o) ->
  refines k' A'.
Proof.
  intros HR Hth H0 Hn He Hother Hframe Hq Hnd Hb Hbo. split; [done..| | |].
  - intros o'. destruct (decide (o' = o)) as [->|Ho]; [done|]. destruct (Hother o' Ho) as [-> ->].
    apply (dseg_frame (links k.(tcbs))); [|apply (r_queues _ _ HR)].
    intros u Hu%(r_blocked _ _ HR). by apply (Hframe u o').
  - intros o' u. destruct (decide (o' = o)) as [->|Ho]; [done|].
    destruct (Hother o' Ho) as [_ ->]. by rewrite Hb, (r_blocked _ _ HR).
  - intros o'. destruct (decide (o' = o)) as [->|Ho]; [done|].
    destruct (Hother o' Ho) as [_ ->]. apply (r_nodup _ _ HR).
Qed.

Lemma blocked_alter (T : gmap Z thread) g t u x :
  T !! t = Some x ->
  alter g t T !! u ≫= blocked_on = if decide (u = t) then blocked_on (g x) else T !! u ≫= blocked_on.
Proof.
  intros Hx. case_decide as E; [by rewrite E, lookup_alter_eq, Hx | by rewrite lookup_alter_ne].
Qed.

Lemma view_alter' f g t (m : gmap Z tcb) :
  (forall x, view (f x) = g (view x)) -> view <$> alter f t m = alter g t (view <$> m).
Proof. intros Hf. by apply fmap_alter. Qed.

Lemma alter_null (T : gmap Z thread) g t : T !! 0 = None -> alter g t T !! 0 = None.
Proof. intros H0. destruct (decide (t = 0)) as [->|Ht]; [by rewrite lookup_alter_eq, H0 | by rewrite lookup_alter_ne]. Qed.

(** The pointers and the flag of one notification change together. *)
Lemma set_flag_rel k A n x x' f0 f b :
  refines k A -> k.(ntfns) !! n = Some x -> A.(flags) !! n = Some (f0, b) -> ntfn_rel x' (f, b) ->
  forall n', option_Forall2 ntfn_rel (<[n := x']> k.(ntfns) !! n') ((set_flag n f A).(flags) !! n').
Proof.
  intros HR Hx Hf Hrel n'. simpl. destruct (decide (n' = n)) as [->|Hn].
  - rewrite lookup_insert_eq, lookup_alter_eq, Hf. by constructor.
  - rewrite lookup_insert_ne, lookup_alter_ne by done. apply (r_ntfns _ _ HR).
Qed.

Lemma queue_at_insert k m' n x' o :
  o <> ntfn n -> queue_at {| k with tcbs := m'; ntfns := <[n := x']> k.(ntfns) |} o = queue_at k o.
Proof. destruct o as [n'|e]; simpl; [|done]. intros Ho. rewrite lookup_insert_ne; [done|]. by intros ->. Qed.

Lemma queue_of_set_flag A n f o : o <> ntfn n -> queue_of (set_flag n f A) o = queue_of A o.
Proof. destruct o as [n'|e]; simpl; [|done]. intros Ho. rewrite lookup_alter_ne; [done|]. by intros ->. Qed.

Lemma queue_of_set_flag_eq A n f f0 b :
  A.(flags) !! n = Some (f0, b) -> queue_of (set_flag n f A) (ntfn n) = flag_queue f.
Proof. intros Hf. simpl. by rewrite lookup_alter_eq, Hf. Qed.

Lemma queue_of_thread A t g o : queue_of (on_thread t g A) o = queue_of A o.
Proof. by destruct o. Qed.

Lemma waiting_queue q : flag_queue (waiting q) = q.
Proof. by destruct q. Qed.

Lemma refines_flag k A n f b : refines k A -> A.(flags) !! n = Some (f, b) ->
  exists x, k.(ntfns) !! n = Some x /\ ntfn_rel x (f, b) /\
    on_queue k.(tcbs) (Queue x.(ntfnQueue_head) x.(ntfnQueue_tail)) (flag_queue f).
Proof.
  intros HR Hf. pose proof (r_ntfns _ _ HR n) as Hn. pose proof (r_queues _ _ HR (ntfn n)) as Hq.
  rewrite Hf in Hn. inversion Hn as [x y Hrel E|]; subst. exists x. simpl in Hq. by rewrite Hf, <- E in Hq.
Qed.

Lemma view_lookup (m m' : gmap Z tcb) t x :
  view <$> m' = view <$> m -> m !! t = Some x -> exists x', m' !! t = Some x'.
Proof.
  intros Hv Hx. assert ((view <$> m') !! t = Some (view x)) as E by (by rewrite Hv, lookup_fmap, Hx).
  apply lookup_fmap_Some in E as (x' & _ & Hx'). eauto.
Qed.

Lemma refines_thread k A t x : refines k A -> A.(threads) !! t = Some x ->
  exists y, k.(tcbs) !! t = Some y /\ view y = x.
Proof. intros HR. rewrite <- (r_threads _ _ HR), lookup_fmap_Some. intros (y & <- & Hy). eauto. Qed.

(** *** The pieces of which operations are made *)

Lemma refines_set_flag k A n x x' f0 f b :
  refines k A -> k.(ntfns) !! n = Some x -> A.(flags) !! n = Some (f0, b) -> ntfn_rel x' (f, b) ->
  x'.(ntfnQueue_head) = x.(ntfnQueue_head) -> x'.(ntfnQueue_tail) = x.(ntfnQueue_tail) ->
  flag_queue f = flag_queue f0 ->
  refines {| k with ntfns := <[n := x']> k.(ntfns) |} (set_flag n f A).
Proof.
  intros HR Hx Hf Hrel Hh Ht Hq.
  assert (queue_of A (ntfn n) = flag_queue f) as HA by (simpl; by rewrite Hf).
  apply (refines_step k A _ _ (ntfn n)); rewrite ?(queue_of_set_flag_eq _ _ _ _ _ Hf); try done.
  - apply HR.
  - apply HR.
  - by eapply set_flag_rel.
  - apply HR.
  - intros o' Ho. by rewrite (queue_at_insert k k.(tcbs)), queue_of_set_flag.
  - simpl. rewrite lookup_insert_eq, Hh, Ht. pose proof (r_queues _ _ HR (ntfn n)) as Ho.
    rewrite HA in Ho. simpl in Ho. by rewrite Hx in Ho.
  - rewrite <- HA. apply HR.
  - intros u. rewrite <- HA. apply HR.
Qed.

Lemma refines_on_thread k A t f g :
  refines k A -> (forall x, view (f x) = g (view x)) -> (forall x, link (f x) = link x) ->
  (forall y, A.(threads) !! t = Some y -> blocked_on (g y) = blocked_on y) ->
  refines {| k with tcbs := alter f t k.(tcbs) |} (on_thread t g A).
Proof.
  intros HR Hv Hl Hb.
  assert (forall u, alter g t A.(threads) !! u ≫= blocked_on = A.(threads) !! u ≫= blocked_on) as Hbl.
  - intros u. destruct (decide (u = t)) as [->|Hu]; [|by rewrite lookup_alter_ne].
    rewrite lookup_alter_eq. destruct (A.(threads) !! t); [by apply Hb | done].
  - split; simpl.
    + rewrite (view_alter' _ g) by done. by rewrite (r_threads _ _ HR).
    + by apply alter_null, HR.
    + apply HR.
    + apply HR.
    + intros o. apply (dseg_frame (links k.(tcbs))); [|rewrite queue_of_thread; apply (r_queues _ _ HR)].
      intros u _. by apply links_alter_same.
    + intros o u. rewrite Hbl, queue_of_thread. apply HR.
    + intros o. rewrite queue_of_thread. apply HR.
Qed.

(** A thread leaves the queue of a notification. *)
Lemma refines_release k A n x l b t m' q' f g :
  refines k A -> k.(ntfns) !! n = Some x -> A.(flags) !! n = Some (Waiting l, b) -> ntfn_rel x (Waiting l, b) ->
  t ∈ l -> view <$> m' = view <$> k.(tcbs) -> on_queue m' q' (remove t l) ->
  (forall u, u ∉ l -> m' !! u = k.(tcbs) !! u) ->
  (forall y, view (f y) = g (view y)) -> (forall y, link (f y) = link y) -> (forall y, blocked_on (g y) = None) ->
  refines {| k with tcbs := alter f t m';
                    ntfns := <[n := {| x with state := if nz q'.(head) then NtfnState_Waiting else NtfnState_Idle;
                                              ntfnQueue_head := q'.(head); ntfnQueue_tail := q'.(end_) |}]> k.(ntfns) |}
          (on_thread t g (set_flag n (waiting (remove t l)) A)).
Proof.
  intros HR Hx Hf [Hb Hst] Ht Hv Hq Hfr Hfv Hfl Hg.
  assert (queue_of A (ntfn n) = l) as HA by (simpl; by rewrite Hf).
  assert (exists y, A.(threads) !! t = Some y) as [y Hy].
  { pose proof (proj1 (r_blocked _ _ HR (ntfn n) t)) as Hbl. rewrite HA in Hbl. apply Hbl in Ht.
    destruct (A.(threads) !! t); [eauto | done]. }
  assert (forall u, u ∈ remove t l <-> u <> t /\ A.(threads) !! u ≫= blocked_on = Some (ntfn n)) as Hin.
  { intros u. by rewrite elem_of_remove, <- (r_blocked _ _ HR), HA. }
  apply (refines_step k A _ _ (ntfn n)); rewrite ?queue_of_thread, ?(queue_of_set_flag_eq _ _ _ _ _ Hf), ?waiting_queue; try done; simpl.
  - rewrite (view_alter' _ g) by done. by rewrite Hv, (r_threads _ _ HR).
  - by apply alter_null, HR.
  - eapply (set_flag_rel k A); [done..|]. split; [done|]. simpl. rewrite (dseg_head _ _ _ _ Hq). by destruct (remove t l).
  - apply HR.
  - intros o' Ho. by rewrite (queue_at_insert k _), queue_of_thread, queue_of_set_flag.
  - intros u o' Ho Hu. rewrite links_alter_same by done. unfold links. rewrite Hfr; [done|].
    rewrite <- HA. intros Hu'%(r_blocked _ _ HR). congruence.
  - rewrite lookup_insert_eq. simpl. apply (dseg_frame (links m')); [|done]. intros u _. by apply links_alter_same.
  - apply NoDup_remove. rewrite <- HA. apply HR.
  - intros u o' Ho. rewrite (blocked_alter _ _ _ _ _ Hy), Hg. case_decide as E; [|done].
    rewrite E. split; [done|]. rewrite <- HA in Ht. apply (r_blocked _ _ HR) in Ht. congruence.
  - intros u. rewrite Hin, (blocked_alter _ _ _ _ _ Hy), Hg. case_decide; naive_solver.
Qed.

(** A thread joins the queue of a notification. *)
Lemma refines_join k A n x f b t y m' q' h g :
  refines k A -> k.(ntfns) !! n = Some x -> A.(flags) !! n = Some (f, b) -> ntfn_rel x (f, b) ->
  A.(threads) !! t = Some y -> blocked_on y = None -> blocked_on (g y) = Some (ntfn n) ->
  view <$> m' = view <$> alter h t k.(tcbs) -> on_queue m' q' (flag_queue f ++ [t]) ->
  (forall u, u ∉ flag_queue f -> u <> t -> m' !! u = k.(tcbs) !! u) ->
  (forall z, view (h z) = g (view z)) ->
  refines {| k with tcbs := m';
                    ntfns := <[n := {| x with state := NtfnState_Waiting;
                                              ntfnQueue_head := q'.(head); ntfnQueue_tail := q'.(end_) |}]> k.(ntfns) |}
          (on_thread t g (set_flag n (Waiting (flag_queue f ++ [t])) A)).
Proof.
  intros HR Hx Hf [Hb Hst] Hy Hfree Hg Hv Hq Hfr Hhv.
  assert (queue_of A (ntfn n) = flag_queue f) as HA by (simpl; by rewrite Hf).
  assert (t ∉ flag_queue f) as Ht by (rewrite <- HA; intros Ht%(r_blocked _ _ HR); rewrite Hy in Ht; simpl in Ht; congruence).
  apply (refines_step k A _ _ (ntfn n)); rewrite ?queue_of_thread, ?(queue_of_set_flag_eq _ _ _ _ _ Hf); try done; simpl.
  - rewrite Hv, (view_alter' _ g) by done. by rewrite (r_threads _ _ HR).
  - by apply alter_null, HR.
  - eapply (set_flag_rel k A); [done..|]. split; [done|]. simpl. split; [done|]. by destruct (flag_queue f).
  - apply HR.
  - intros o' Ho. by rewrite (queue_at_insert k _), queue_of_thread, queue_of_set_flag.
  - intros u o' Ho Hu. unfold links. rewrite Hfr; [done| |].
    + rewrite <- HA. intros Hu'%(r_blocked _ _ HR). congruence.
    + intros ->. rewrite Hy in Hu. simpl in Hu. congruence.
  - by rewrite lookup_insert_eq.
  - apply NoDup_app. split_and!; [rewrite <- HA; apply HR | set_solver | apply NoDup_singleton].
  - intros u o' Ho. rewrite (blocked_alter _ _ _ _ _ Hy), Hg. case_decide as E; [|done].
    rewrite E, Hy. simpl. rewrite Hfree. naive_solver.
  - intros u. rewrite elem_of_app, list_elem_of_singleton, (blocked_alter _ _ _ _ _ Hy), Hg, <- HA, (r_blocked _ _ HR).
    case_decide as E; [subst|]; naive_solver.
Qed.

(** A thread leaves the queue of an endpoint. *)
Lemma refines_leave k A e x st l t m' q' f g :
  refines k A -> k.(eps) !! e = Some x -> A.(queues) !! e = Some (st, l) -> ep_rel x (st, l) ->
  t ∈ l -> view <$> m' = view <$> k.(tcbs) -> on_queue m' q' (remove t l) ->
  (forall u, u ∉ l -> m' !! u = k.(tcbs) !! u) ->
  (forall y, view (f y) = g (view y)) -> (forall y, link (f y) = link y) -> (forall y, blocked_on (g y) = None) ->
  refines {| k with tcbs := alter f t m';
                    eps := <[e := Endpoint (if nz q'.(head) then x.(ep_st) else EPState_Idle) q'.(head) q'.(end_)]> k.(eps) |}
          (on_thread t g (leave e t A)).
Proof.
  intros HR Hx Hf [Hst Hidle] Ht Hv Hq Hfr Hfv Hfl Hg. simpl in Hst, Hidle.
  assert (queue_of A (ep e) = l) as HA by (simpl; by rewrite Hf).
  assert (queue_of (leave e t A) (ep e) = remove t l) as HA' by (simpl; by rewrite lookup_alter_eq, Hf).
  assert (forall o, o <> ep e -> queue_of (leave e t A) o = queue_of A o) as HAo.
  { intros [n|e'] Ho; simpl; [done|]. rewrite lookup_alter_ne; [done|]. by intros ->. }
  assert (exists y, A.(threads) !! t = Some y) as [y Hy].
  { pose proof (proj1 (r_blocked _ _ HR (ep e) t)) as Hbl. rewrite HA in Hbl. apply Hbl in Ht.
    destruct (A.(threads) !! t); [eauto | done]. }
  assert (forall u, u ∈ remove t l <-> u <> t /\ A.(threads) !! u ≫= blocked_on = Some (ep e)) as Hin.
  { intros u. by rewrite elem_of_remove, <- (r_blocked _ _ HR), HA. }
  apply (refines_step k A _ _ (ep e)); rewrite ?queue_of_thread, ?HA'; try done; simpl.
  - rewrite (view_alter' _ g) by done. by rewrite Hv, (r_threads _ _ HR).
  - by apply alter_null, HR.
  - apply HR.
  - intros e'. destruct (decide (e' = e)) as [->|He]; [|rewrite lookup_insert_ne, lookup_alter_ne by done; apply HR].
    rewrite lookup_insert_eq, lookup_alter_eq, Hf. constructor. split; simpl.
    + rewrite (dseg_head _ _ _ _ Hq). by destruct (remove t l).
    + destruct (remove t l) eqn:El; [done|]. rewrite Hidle. split; [intros ->; by apply elem_of_nil in Ht | done].
  - intros o' Ho. rewrite queue_of_thread, HAo by done. split; [|done].
    destruct o' as [n|e']; simpl; [done|]. rewrite lookup_insert_ne; [done|]. by intros ->.
  - intros u o' Ho Hu. rewrite links_alter_same by done. unfold links. rewrite Hfr; [done|].
    rewrite <- HA. intros Hu'%(r_blocked _ _ HR). congruence.
  - rewrite lookup_insert_eq. simpl. apply (dseg_frame (links m')); [|done]. intros u _. by apply links_alter_same.
  - apply NoDup_remove. rewrite <- HA. apply HR.
  - intros u o' Ho. rewrite (blocked_alter _ _ _ _ _ Hy), Hg. case_decide as E; [|done].
    rewrite E. split; [done|]. rewrite <- HA in Ht. apply (r_blocked _ _ HR) in Ht. congruence.
  - intros u. rewrite Hin, (blocked_alter _ _ _ _ _ Hy), Hg. case_decide; naive_solver.
Qed.

(** ** The kernel refines the machine *)

(** Taking a thread out of a notification's queue, up to the pointers and the
    state of the notification. *)
Lemma release_run k A n x l b t (c : M kernel unit) :
  refines k A -> k.(ntfns) !! n = Some x -> A.(flags) !! n = Some (Waiting l, b) -> ntfn_rel x (Waiting l, b) -> t ∈ l ->
  exists m' q', view <$> m' = view <$> k.(tcbs) /\ on_queue m' q' (remove t l) /\
    (forall u, u ∉ l -> m' !! u = k.(tcbs) !! u) /\
    (q ← tcbEPDequeue t (Queue x.(ntfnQueue_head) x.(ntfnQueue_tail));
     ntfn_ptr_set_queue n q;;
     when (negb (nz q.(head))) (set_state n NtfnState_Idle);;
     c) k =
    c {| k with tcbs := m';
                ntfns := <[n := {| x with state := if nz q'.(head) then NtfnState_Waiting else NtfnState_Idle;
                                          ntfnQueue_head := q'.(head); ntfnQueue_tail := q'.(end_) |}]> k.(ntfns) |}.
Proof.
  intros HR Hx Hf [Hb [Hst Hne]] Ht. simpl in Hst. pose proof (r_queues _ _ HR (ntfn n)) as Hq.
  pose proof (r_nodup _ _ HR (ntfn n)) as Hnd. simpl in Hq, Hnd. rewrite Hx, Hf in Hq. rewrite Hf in Hnd. simpl in Hq, Hnd.
  destruct (dequeue_ok _ _ _ _ Hq Hnd Ht) as (m' & q' & Hrun & Hv & Hq' & Hfr).
  exists m', q'. split_and!; [done..|]. erewrite bind_run by done. unfold ntfn_ptr_set_queue.
  erewrite bind_run by by eapply ntfn_modify_run. destruct (nz q'.(head)); simpl.
  - rewrite ret_bind, Hst. done.
  - unfold set_state. erewrite bind_run by (eapply ntfn_modify_run; simpl; by rewrite lookup_insert_eq).
    simpl. by rewrite insert_insert_eq.
Qed.

Lemma alter_alter {B} (f g : B -> B) t (m : gmap Z B) : alter f t (alter g t m) = alter (f ∘ g) t m.
Proof.
  apply map_eq. intros u. destruct (decide (u = t)) as [->|Hu].
  - rewrite !lookup_alter_eq. by destruct (m !! t).
  - by rewrite !lookup_alter_ne.
Qed.

(** A thread that is set running gets the badge of the signal. *)
Lemma wake_run k t x badge :
  k.(tcbs) !! t = Some x ->
  (setThreadState t Running;; setBadge t badge) k =
  Ok tt {| k with tcbs := alter (fun y => {| y with tsType := Running; badgeRegister := badge |}) t k.(tcbs) |}.
Proof.
  intros Hx. unfold setThreadState, setBadge. erewrite bind_run by by eapply tcb_modify_run.
  erewrite tcb_modify_run by (simpl; by rewrite lookup_alter_eq, Hx). simpl. by rewrite alter_alter.
Qed.

Lemma on_thread_twice t g g' A : on_thread t g (on_thread t g' A) = on_thread t (g ∘ g') A.
Proof. unfold on_thread. simpl. by rewrite alter_alter. Qed.

Section Refinement.
Context `{ReplyCaps}.
Implicit Types (k : kernel) (A : machine).

Lemma cancelIPC_receive k A t x :
  refines k A -> A.(threads) !! t = Some x -> x.(t_state) = BlockedOnReceive ->
  exists k', cancelIPC t k = Ok tt k' /\ refines k' (on_thread t (go Inactive) (leave x.(t_object) t A)).
Proof.
  intros HR Hx Hst. destruct (refines_thread _ _ _ _ HR Hx) as (y & Hy & Hv).
  assert (y.(tsType) = BlockedOnReceive) as Hty by (by rewrite <- Hst, <- Hv).
  assert (y.(blockingObject) = x.(t_object)) as Hob by (by rewrite <- Hv).
  assert (t ∈ queue_of A (ep x.(t_object))) as Ht.
  { apply (r_blocked _ _ HR). rewrite Hx. simpl. unfold blocked_on. by rewrite Hst. }
  pose proof (r_queues _ _ HR (ep x.(t_object))) as Hq. pose proof (r_nodup _ _ HR (ep x.(t_object))) as Hnd.
  pose proof (r_eps _ _ HR x.(t_object)) as He. simpl in Hq, Hnd, Ht.
  destruct (A.(queues) !! x.(t_object)) as [[st l]|] eqn:El; [|by apply elem_of_nil in Ht].
  inversion He as [z w Hrel E|]; subst w. rewrite <- E in Hq. symmetry in E.
  destruct (dequeue_ok _ _ _ _ Hq Hnd Ht) as (m' & q' & Hrun & Hvw & Hq' & Hfr).
  eexists. split; [|by eapply (refines_leave k A _ z st l t m' q' (fun y => {| y with tsType := Inactive |}))].
  unfold cancelIPC. erewrite bind_run by by apply tcb_at_run. rewrite Hty, Hob.
  erewrite bind_run by by apply ep_at_run. destruct Hrel as [Hzs Hidle]. simpl in Hzs, Hidle.
  rewrite assert_bind.
  - erewrite bind_run by done. erewrite bind_run by by eapply ep_modify_run. simpl.
    destruct (view_lookup _ _ _ _ Hvw Hy) as [y' Hy']. unfold setThreadState.
    destruct (nz q'.(head)); simpl; [by erewrite ret_bind, tcb_modify_run|].
    erewrite bind_run by (eapply ep_modify_run; simpl; by rewrite lookup_insert_eq). simpl.
    erewrite tcb_modify_run by done. simpl. by rewrite insert_insert_eq.
  - rewrite Hzs. apply negb_true_iff, bool_decide_false. rewrite Hidle. intros ->. by apply elem_of_nil in Ht.
Qed.

Lemma sendSignal_idle k A n badge b :
  refines k A -> A.(flags) !! n = Some (Idle, b) -> b = 0 \/ is_Some (A.(threads) !! b) ->
  exists k', sendSignal n badge k = Ok tt k' /\ refines k' (signal n badge A).
Proof.
  intros HR Hf Hbound. destruct (refines_flag _ _ _ _ _ HR Hf) as (x & Hx & [Hb Hst] & Hq). simpl in Hb, Hst.
  unfold sendSignal, signal. erewrite bind_run by by apply ntfn_at_run. rewrite Hf.
  rewrite Hst, Hb. assert (exists k', ntfn_set_active n badge k = Ok tt k' /\ refines k' (set_flag n (Active badge) A)) as Hact.
  { unfold ntfn_set_active. erewrite ntfn_modify_run by done. eexists. split; [done|].
    by eapply (refines_set_flag k A n x _ Idle _ b). }
  destruct Hbound as [->|[y Hy]]; [by rewrite (r_null _ _ HR)|]. rewrite Hy.
  unfold nz. destruct (Z.eqb_spec b 0) as [->|_]; [by rewrite (r_null _ _ HR) in Hy|]. simpl.
  destruct (refines_thread _ _ _ _ HR Hy) as (z & Hz & Hvz). erewrite bind_run by by apply tcb_at_run.
  replace (tsType z) with (t_state y) by (by rewrite <- Hvz). case_bool_decide as Hr; [|done].
  destruct (cancelIPC_receive _ _ _ _ HR Hy Hr) as (k1 & Hrun & HR1). erewrite bind_run by done.
  assert (exists w, k1.(tcbs) !! b = Some w) as [w Hw].
  { eapply refines_thread in HR1 as (w & Hw & _); [by exists w|]. simpl. by rewrite lookup_alter_eq, Hy. }
  rewrite (wake_run _ _ _ _ Hw). eexists. split; [done|].
  rewrite <- (on_thread_twice b (badged badge ∘ go Running) (go Inactive)).
  apply refines_on_thread; [done..|]. simpl. rewrite lookup_alter_eq, Hy. by intros ? [= <-].
Qed.

Lemma sendSignal_waiting k A n badge t l b :
  refines k A -> A.(flags) !! n = Some (Waiting (t :: l), b) ->
  exists k', sendSignal n badge k = Ok tt k' /\ refines k' (signal n badge A).
Proof.
  intros HR Hf. destruct (refines_flag _ _ _ _ _ HR Hf) as (x & Hx & Hrel & Hq).
  pose proof Hrel as [Hb [Hst _]]. simpl in Hb, Hst.
  unfold sendSignal, signal. erewrite bind_run by by apply ntfn_at_run. rewrite Hf.
  rewrite Hst. destruct Hq as (Eh & Ht & _). simpl in Eh.
  destruct (release_run k A n x (t :: l) b t (setThreadState t Running;; setBadge t badge))
    as (m' & q' & Hv & Hq' & Hfr & Hrun); [done..|by left|].
  unfold ntfn_ptr_get_queue. rewrite bind_assoc. erewrite bind_run by by apply ntfn_at_run.
  rewrite ret_bind. simpl. rewrite Eh in Hrun |- *. rewrite assert_bind by (by apply negb_true_iff, Z.eqb_neq).
  rewrite Hrun. destruct (dseg_tcb _ _ _ _ _ _ t (r_queues _ _ HR (ntfn n))) as [y Hy]; [simpl; rewrite Hf; by left|].
  destruct (view_lookup _ _ _ _ Hv Hy) as [y' Hy']. rewrite (wake_run _ _ y') by done. eexists. split; [done|].
  assert (remove t (t :: l) = l) as El.
  { apply (remove_split t [] l). pose proof (r_nodup _ _ HR (ntfn n)) as Hnd. simpl in Hnd. by rewrite Hf in Hnd. }
  rewrite <- El at 1. by eapply (refines_release k A n x (t :: l) b t); [..|by left| | | | | |].
Qed.

(** A signal to a notification does what the machine says, for every state of
    the notification: it wakes the thread that has waited longest, goes to the
    bound thread when that waits for a message on an endpoint (and takes it out of
    the endpoint's queue), or is kept, merged with what was there.  All other
    queues stay as they are. *)
Lemma sendSignal_ok k A n badge :
  refines k A -> is_Some (A.(flags) !! n) ->
  (forall f b, A.(flags) !! n = Some (f, b) -> b = 0 \/ is_Some (A.(threads) !! b)) ->
  exists k', sendSignal n badge k = Ok tt k' /\ refines k' (signal n badge A).
Proof.
  intros HR [[f b] Hf] Hbound. destruct (refines_flag _ _ _ _ _ HR Hf) as (x & Hx & [Hb Hst] & _). simpl in Hb, Hst.
  destruct f as [|old|l].
  - by eapply sendSignal_idle; [| |apply (Hbound _ _ Hf)].
  - unfold sendSignal, signal. erewrite bind_run by by apply ntfn_at_run. rewrite Hf.
    destruct Hst as [Hst Hmsg]. rewrite Hst. erewrite ntfn_modify_run by done. eexists. split; [done|].
    eapply (refines_set_flag k A n x _ (Active old) _ b); try done. split; [done|]. simpl. by rewrite Hmsg.
  - destruct l as [|t l]; [by destruct Hst|]. by eapply sendSignal_waiting.
Qed.
End Refinement.

(** A thread takes the signal that is there. *)
Lemma take_refines k A t n badge b x z :
  refines k A -> A.(flags) !! n = Some (Active badge, b) -> k.(ntfns) !! n = Some x -> k.(tcbs) !! t = Some z ->
  exists k', (setBadge t x.(ntfnMsgIdentifier);; set_state n NtfnState_Idle) k = Ok tt k' /\
    refines k' (on_thread t (badged badge) (set_flag n Idle A)).
Proof.
  intros HR Hf Hx Hz. destruct (refines_flag _ _ _ _ _ HR Hf) as (x' & Hx' & [Hb [_ Hm]] & _).
  assert (x' = x) as -> by congruence. simpl in Hb, Hm. unfold setBadge, set_state.
  erewrite bind_run by by eapply tcb_modify_run. erewrite ntfn_modify_run by done. eexists. split; [done|]. subst badge.
  set (k1 := {| k with ntfns := <[n := {| x with state := NtfnState_Idle |}]> k.(ntfns) |}).
  apply (refines_on_thread k1); [|done..]. by eapply (refines_set_flag k A n x _ (Active _) _ b).
Qed.

(** A thread blocks on a notification that holds no signal. *)
Lemma join_refines k A t n f b x y :
  refines k A -> A.(flags) !! n = Some (f, b) -> k.(ntfns) !! n = Some x -> A.(threads) !! t = Some y -> blocked_on y = None ->
  exists k', (tcb_modify t (fun y => {| y with tsType := BlockedOnNotification; blockingObject := n |});;
              q ← ntfn_ptr_get_queue n;
              q ← tcbEPAppend t q;
              set_state n NtfnState_Waiting;;
              ntfn_ptr_set_queue n q) k = Ok tt k' /\
    refines k' (on_thread t (block n) (set_flag n (Waiting (flag_queue f ++ [t])) A)).
Proof.
  intros HR Hf Hx Hy Hfree. destruct (refines_flag _ _ _ _ _ HR Hf) as (x' & Hx' & Hrel & Hq).
  assert (x' = x) as -> by congruence. destruct (refines_thread _ _ _ _ HR Hy) as (z & Hz & Hvz).
  erewrite bind_run by by eapply tcb_modify_run.
  set (h := fun y : tcb => {| y with tsType := BlockedOnNotification; blockingObject := n |}).
  assert (queue_of A (ntfn n) = flag_queue f) as HA by (simpl; by rewrite Hf).
  destruct (append_ok {| k with tcbs := alter h t k.(tcbs) |} (Queue x.(ntfnQueue_head) x.(ntfnQueue_tail)) (flag_queue f) t (h z))
    as (m' & q' & Hrun & Hv & Hq' & Hfr).
  - apply (dseg_frame (links k.(tcbs))); [|done]. intros u _. by apply links_alter_same.
  - rewrite <- HA. apply HR.
  - rewrite <- HA. intros Ht%(r_blocked _ _ HR). rewrite Hy in Ht. simpl in Ht. congruence.
  - intros ->. by rewrite (r_null _ _ HR) in Hy.
  - simpl. by rewrite lookup_alter_eq, Hz.
  - unfold ntfn_ptr_get_queue. rewrite bind_assoc. erewrite bind_run by by apply ntfn_at_run. rewrite ret_bind.
    erewrite bind_run by done. unfold set_state, ntfn_ptr_set_queue. erewrite bind_run by by eapply ntfn_modify_run.
    erewrite ntfn_modify_run by (simpl; by rewrite lookup_insert_eq). simpl. rewrite insert_insert_eq.
    eexists. split; [done|]. eapply (refines_join k A n x f b t y m' q' h); try done.
    intros u Hu Hut. rewrite Hfr by done. simpl. by rewrite lookup_alter_ne.
Qed.

(** A thread that waits on a notification takes a signal that is there, and
    leaves the notification idle; otherwise it blocks, behind all that already
    wait. *)
Lemma receiveSignal_ok k A t n y :
  refines k A -> is_Some (A.(flags) !! n) -> A.(threads) !! t = Some y -> blocked_on y = None ->
  exists k', receiveSignal t n true k = Ok tt k' /\ refines k' (wait t n A).
Proof.
  intros HR [[f b] Hf] Hy Hfree. destruct (refines_flag _ _ _ _ _ HR Hf) as (x & Hx & [_ Hst] & _).
  destruct (refines_thread _ _ _ _ HR Hy) as (z & Hz & Hvz).
  unfold receiveSignal, wait. erewrite bind_run by by apply ntfn_at_run. rewrite Hf.
  destruct f as [|g|l]; simpl in Hst; [rewrite Hst | rewrite (proj1 Hst) | rewrite (proj1 Hst)].
  - by eapply (join_refines k A t n Idle).
  - by eapply take_refines.
  - by eapply (join_refines k A t n (Waiting l)).
Qed.

(** A wait that does not block takes the signal, or reports the badge 0 and
    changes no queue. *)
Lemma receiveSignal_poll k A t n y f b :
  refines k A -> A.(flags) !! n = Some (f, b) -> A.(threads) !! t = Some y ->
  exists k', receiveSignal t n false k = Ok tt k' /\
    refines k' (match f with
                | Active badge => on_thread t (badged badge) (set_flag n Idle A)
                | _ => on_thread t (badged 0) A
                end).
Proof.
  intros HR Hf Hy. destruct (refines_flag _ _ _ _ _ HR Hf) as (x & Hx & [_ Hst] & _).
  destruct (refines_thread _ _ _ _ HR Hy) as (z & Hz & Hvz).
  unfold receiveSignal. erewrite bind_run by by apply ntfn_at_run.
  assert (exists k', setBadge t 0 k = Ok tt k' /\ refines k' (on_thread t (badged 0) A)) as Hpoll.
  { unfold setBadge. erewrite tcb_modify_run by done. eexists. split; [done|]. by apply refines_on_thread. }
  destruct f as [|g|l]; simpl in Hst; [by rewrite Hst | rewrite (proj1 Hst) | by rewrite (proj1 Hst)].
  by eapply take_refines.
Qed.

(** Cancelling a wait takes exactly that thread out of the queue, wherever in
    it the thread is, and leaves the order of the others. *)
Lemma cancelSignal_ok k A t n :
  refines k A -> t ∈ queue_of A (ntfn n) ->
  exists k', cancelSignal t n k = Ok tt k' /\ refines k' (cancel t n A).
Proof.
  intros HR Ht. pose proof Ht as Ht'. simpl in Ht. destruct (A.(flags) !! n) as [[f b]|] eqn:Hf; [|by apply elem_of_nil in Ht].
  destruct f as [|g|l]; [by apply elem_of_nil in Ht..|]. simpl in Ht.
  destruct (refines_flag _ _ _ _ _ HR Hf) as (x & Hx & Hrel & Hq). pose proof Hrel as [_ [Hst _]]. simpl in Hst.
  destruct (release_run k A n x l b t (setThreadState t Inactive)) as (m' & q' & Hv & Hq' & Hfr & Hrun); [done..|].
  destruct (dseg_tcb _ _ _ _ _ _ t (r_queues _ _ HR (ntfn n))) as [y Hy]; [done|].
  destruct (view_lookup _ _ _ _ Hv Hy) as [y' Hy'].
  unfold cancelSignal, cancel. erewrite bind_run by by apply ntfn_at_run.
  rewrite assert_bind by (by rewrite Hst). unfold ntfn_ptr_get_queue. rewrite bind_assoc.
  erewrite bind_run by by apply ntfn_at_run. rewrite ret_bind, Hrun. unfold setThreadState.
  erewrite tcb_modify_run by done. eexists. split; [done|]. simpl. rewrite Hf. simpl.
  by eapply (refines_release k A n x l b t).
Qed.

(** *** Waking all *)

Lemma alters_lookup {B} (f : B -> B) l (m : gmap Z B) u :
  NoDup l -> foldl (fun m t => alter f t m) m l !! u = if decide (u ∈ l) then f <$> m !! u else m !! u.
Proof.
  revert m. induction l as [|t l IH]; intros m; simpl; [done|].
  intros [Ht Hl]%NoDup_cons. rewrite IH by done. destruct (decide (u = t)) as [->|Hu].
  - rewrite decide_False, decide_True by (done || by left). by rewrite lookup_alter_eq.
  - rewrite lookup_alter_ne by done. destruct (decide (u ∈ l)) as [Hin|Hin].
    + by rewrite decide_True by by right.
    + rewrite decide_False; [done|]. by intros [?|?]%elem_of_cons.
Qed.

Lemma alters_view f g l (m : gmap Z tcb) :
  (forall x, view (f x) = g (view x)) ->
  view <$> foldl (fun m t => alter f t m) m l = foldl (fun T t => alter g t T) (view <$> m) l.
Proof.
  intros Hf. revert m. induction l as [|t l IH]; intros m; simpl; [done|].
  by rewrite IH, (view_alter' _ g).
Qed.

Lemma restart_chain_run fuel prev p l last k :
  dseg (links k.(tcbs)) prev p l last 0 -> (length l < fuel)%nat ->
  restart_chain fuel p k =
  Ok tt {| k with tcbs := foldl (fun m t => alter (fun x => {| x with tsType := Restart |}) t m) k.(tcbs) l |}.
Proof.
  revert prev p l k. induction fuel as [|fuel IH]; intros prev p l k Hl Hf; [lia|].
  destruct l as [|t l]; simpl in *; [destruct Hl as [-> _]; by destruct k|].
  destruct Hl as (-> & Ht & nx & Hx & Hl). unfold links in Hx. destruct (k.(tcbs) !! t) as [x|] eqn:E; [|done].
  injection Hx as Enx _. unfold nz. rewrite (proj2 (Z.eqb_neq t 0)) by done. simpl. unfold setThreadState.
  erewrite bind_run by by eapply tcb_modify_run.
  erewrite bind_run by (eapply tcb_at_run; simpl; by rewrite lookup_alter_eq, E). simpl. rewrite Enx.
  erewrite (IH t nx l); [done| |lia]. apply (dseg_frame (links k.(tcbs))); [|done]. intros u _. by apply links_alter_same.
Qed.

Lemma queue_size k A o : refines k A -> (length (queue_of A o) <= size k.(tcbs))%nat.
Proof.
  intros HR. rewrite <- (map_size_fmap view), (r_threads _ _ HR), <- size_dom.
  rewrite <- (size_list_to_set (C := gset Z)) by apply HR.
  apply subseteq_size. intros u Hu%elem_of_list_to_set%(r_blocked _ _ HR). apply elem_of_dom.
  destruct (A.(threads) !! u); [eauto | done].
Qed.

(** When a notification is deleted every thread that waits on it is made to
    restart, and no other; the walk along the queue ends. *)
Lemma cancelAllSignals_ok k A n :
  refines k A -> is_Some (A.(flags) !! n) ->
  exists k', cancelAllSignals n k = Ok tt k' /\ refines k' (cancel_all n A).
Proof.
  intros HR [[f b] Hf]. destruct (refines_flag _ _ _ _ _ HR Hf) as (x & Hx & [Hb Hst] & Hq). simpl in Hb, Hst.
  unfold cancelAllSignals, cancel_all. erewrite bind_run by by apply ntfn_at_run. rewrite Hf.
  destruct f as [|g|l]; simpl in Hst; [rewrite Hst; by exists k | rewrite (proj1 Hst); by exists k |].
  rewrite (proj1 Hst), bool_decide_true by done. unfold when. erewrite bind_run by by eapply ntfn_modify_run.
  rewrite get_bind.
  pose proof (r_nodup _ _ HR (ntfn n)) as Hnd. pose proof (queue_size k A (ntfn n) HR) as Hsz.
  assert (queue_of A (ntfn n) = l) as HA by (simpl; by rewrite Hf). rewrite HA in Hnd, Hsz.
  erewrite restart_chain_run; [|by apply Hq|simpl; lia]. eexists. split; [done|]. simpl.
  assert (forall u, foldl (fun T t => alter (go Restart) t T) A.(threads) l !! u ≫= blocked_on =
                    if decide (u ∈ l) then None else A.(threads) !! u ≫= blocked_on) as Hbl.
  { intros u. rewrite alters_lookup by done. case_decide; [|done]. by destruct (A.(threads) !! u). }
  assert (forall u o', o' <> ntfn n -> A.(threads) !! u ≫= blocked_on = Some o' -> u ∉ l) as Hother.
  { intros u o' Ho Hu. rewrite <- HA. intros Hu'%(r_blocked _ _ HR). congruence. }
  apply (refines_step k A _ _ (ntfn n)); simpl; rewrite ?lookup_alter_eq, ?Hf; try done; simpl.
  - by rewrite (alters_view _ (go Restart)), (r_threads _ _ HR).
  - rewrite alters_lookup, (r_null _ _ HR) by done. by case_decide.
  - by eapply (set_flag_rel k A).
  - apply HR.
  - intros o' Ho. rewrite (queue_at_insert k _) by done. split; [done|]. by apply (queue_of_set_flag A n Idle o').
  - intros u o' Ho Hu. unfold links. rewrite alters_lookup, decide_False by (done || by eapply Hother). done.
  - rewrite lookup_insert_eq. done.
  - apply NoDup_nil_2.
  - intros u o' Ho. rewrite Hbl. case_decide as Hin; [|done]. split; [done|]. intros Hu. by destruct (Hother u o').
  - intros u. rewrite Hbl. split; [by intros ?%elem_of_nil|]. case_decide as Hin; [done|].
    intros Hu%(r_blocked _ _ HR). by rewrite HA in Hu.
Qed.

(** *** Sequences of calls *)

Inductive call : Type :=
| Signal (n badge : Z)
| Wait (t n : Z)
| Cancel (t n : Z)
| CancelAll (n : Z).

(** The call as the kernel carries it out, and what it means to the machine. *)
Definition perform `{ReplyCaps} (c : call) : M kernel unit :=
  match c with
  | Signal n badge => sendSignal n badge
  | Wait t n => receiveSignal t n true
  | Cancel t n => cancelSignal t n
  | CancelAll n => cancelAllSignals n
  end.

Definition meaning (c : call) : machine -> machine :=
  match c with
  | Signal n badge => signal n badge
  | Wait t n => wait t n
  | Cancel t n => cancel t n
  | CancelAll n => cancel_all n
  end.

(** When a call can come: the object exists, a thread that calls is not blocked, a
    thread whose wait is cancelled waits. *)
Definition enabled (c : call) (A : machine) : bool :=
  match c with
  | Signal n _ =>
      match A.(flags) !! n with
      | Some (_, b) => (b =? 0) || bool_decide (is_Some (A.(threads) !! b))
      | None => false
      end
  | Wait t n =>
      bool_decide (is_Some (A.(flags) !! n)) &&
      match A.(threads) !! t with Some y => bool_decide (blocked_on y = None) | None => false end
  | Cancel t n => bool_decide (t ∈ queue_of A (ntfn n))
  | CancelAll n => bool_decide (is_Some (A.(flags) !! n))
  end.

Fixpoint all_enabled (cs : list call) (A : machine) : bool :=
  match cs with
  | [] => true
  | c :: cs => enabled c A && all_enabled cs (meaning c A)
  end.

Lemma perform_refines `{ReplyCaps} k A c :
  refines k A -> enabled c A = true -> exists k', perform c k = Ok tt k' /\ refines k' (meaning c A).
Proof.
  intros HR He. destruct c as [n badge|t n|t n|n]; simpl in *.
  - destruct (A.(flags) !! n) as [[f b]|] eqn:Hf; [|done]. apply sendSignal_ok; [done|by rewrite Hf|].
    rewrite Hf. intros f' b' [= <- <-]. apply orb_true_iff in He as [He|He]; [left | right]; zbool; [done|].
    by apply bool_decide_eq_true in He.
  - apply andb_true_iff in He as [Hn Hy]. apply bool_decide_eq_true in Hn.
    destruct (A.(threads) !! t) as [y|] eqn:Ht; [|done]. apply bool_decide_eq_true in Hy. by eapply receiveSignal_ok.
  - apply bool_decide_eq_true in He. by apply cancelSignal_ok.
  - apply bool_decide_eq_true in He. by apply cancelAllSignals_ok.
Qed.

(** C6 On every sequence of signals, waits and cancellations the kernel's queues,
    threaded through the threads by two pointers each, behave like the lists of the
    machine: a signal wakes the thread that has waited longest or goes to the bound
    thread that waits for a message, and otherwise is kept, merged with the badge
    that was there; a wait takes a signal or joins the end of the queue; a
    cancellation takes out one thread, wherever it stands, or all.  No assertion
    fails and no null pointer is followed. *)
Theorem kernel_refines_machine `{ReplyCaps} cs k A :
  refines k A -> all_enabled cs A = true ->
  exists k', for_each cs perform k = Ok tt k' /\ refines k' (foldl (fun A c => meaning c A) A cs).
Proof.
  revert k A. induction cs as [|c cs IH]; intros k A HR He; simpl in *; [by exists k|].
  apply andb_true_iff in He as [Hc Hcs]. destruct (perform_refines _ _ _ HR Hc) as (k1 & Hrun & HR1).
  erewrite bind_run by done. by apply IH.
Qed.

(** ** A concrete kernel

    Threads 1 and 2 wait on the notification 100, thread 3 runs. *)
Definition hall : kernel := {|
  tcbs := <[1 := Tcb BlockedOnNotification 100 2 0 0 0]> (<[2 := Tcb BlockedOnNotification 100 0 1 0 0]>
            {[3 := Tcb Running 0 0 0 0 0]});
  ntfns := {[100 := Notification NtfnState_Waiting 1 2 0 0]};
  eps := ∅;
|}.

Definition hall_machine : machine := {|
  threads := <[1 := Thread BlockedOnNotification 100 0 0]> (<[2 := Thread BlockedOnNotification 100 0 0]>
               {[3 := Thread Running 0 0 0]});
  flags := {[100 := (Waiting [1; 2], 0)]};
  queues := ∅;
|}.

Lemma hall_refines : refines hall hall_machine.
Proof.
  assert (forall n, n <> 100 -> hall.(ntfns) !! n = None /\ hall_machine.(flags) !! n = None) as Hn.
  { intros n Hne. split; by apply lookup_singleton_ne. }
  split.
  - vm_compute. reflexivity.
  - done.
  - intros n. destruct (decide (n = 100)) as [->|Hne]; [|destruct (Hn n Hne) as [-> ->]; constructor].
    vm_compute. by repeat constructor.
  - intros e. constructor.
  - intros [n|e]; [|done]. destruct (decide (n = 100)) as [->|Hne]; [|unfold queue_at, queue_of; by destruct (Hn n Hne) as [-> ->]].
    vm_compute. split_and!; [done..|]. exists 2. split_and!; [done..|]. by exists 0.
  - assert (forall o, queue_of hall_machine o = if decide (o = ntfn 100) then [1; 2] else []) as Hqo.
    { intros [n|e]; unfold queue_of; [|by rewrite decide_False]. destruct (decide (n = 100)) as [->|Hne]; [done|].
      rewrite (proj2 (Hn n Hne)), decide_False; [done|]. by intros [= ->]. }
    intros o t. rewrite Hqo. clear Hqo Hn. unfold hall_machine. simpl.
    destruct (decide (t = 1)) as [->|H1]; [|rewrite lookup_insert_ne by done];
      [|destruct (decide (t = 2)) as [->|H2]; [|rewrite lookup_insert_ne by done]];
      [..|destruct (decide (t = 3)) as [->|H3]; [|rewrite lookup_singleton_ne by done]];
      rewrite ?lookup_insert_eq, ?lookup_singleton_eq; cbn; case_decide; rewrite ?elem_of_cons, elem_of_nil;
      naive_solver.
  - intros [n|e]; [|apply NoDup_nil_2]. destruct (decide (n = 100)) as [->|Hne].
    + apply (bool_decide_unpack (NoDup [1; 2])). vm_compute. done.
    + unfold queue_of. rewrite (proj2 (Hn n Hne)). apply NoDup_nil_2.
Qed.

Lemma kernel_refines_machine_witness :
  exists k', for_each [Wait 3 100; Signal 100 5; Cancel 3 100; Signal 100 6; Signal 100 1; Signal 100 8]
               (perform (H := fun _ => mret tt)) hall = Ok tt k' /\
    refines k' {|
      threads := <[1 := Thread Running 100 5 0]> (<[2 := Thread Running 100 6 0]> {[3 := Thread Inactive 100 0 0]});
      flags := {[100 := (Active 9, 0)]};
      queues := ∅ |}.
Proof.
  destruct (@kernel_refines_machine (fun _ => mret tt)
    [Wait 3 100; Signal 100 5; Cancel 3 100; Signal 100 6; Signal 100 1; Signal 100 8] hall hall_machine hall_refines)
    as (k' & Hrun & HR); [by vm_compute|].
  exists k'. split; [exact Hrun|].
  lazymatch type of HR with refines _ ?A => lazymatch goal with |- refines _ ?B =>
    replace B with A by (vm_compute; reflexivity) end end. exact HR.
Defined.
