(* ===== verification/Sync.v ===== *)
(** * Locks of [libsel4sync]

    Binary semaphores, mutexes, condition variables
    ([src/projects/libsel4sync/include/sync]) and recursive mutexes
    ([src/projects/libsel4sync/src/recursive_mutex.c]).  Threads interleave at
    every access to shared memory and every system call: a function is a program
    of such actions, and a step of the system performs the next action of one
    thread that can run.

    Counting semaphores ([sem.h], [sem-bare.h]), which use an endpoint, and the
    checks of debug builds that a capability is a notification are left out. *)
From S2P Require Import Prelude Dlist Ntfn NtfnSpec.

(** ** Programs *)

(** A field of an object at an address. *)
Inductive loc : Type :=
| Cptr (p : Z)         (* notification.cptr *)
| Value (p : Z)        (* value of a semaphore *)
| Waiters (p : Z)      (* waiters and broadcasting of a condition variable *)
| Broadcasting (p : Z)
| Owner (p : Z)        (* owner and held of a recursive mutex *)
| Held (p : Z).

#[global] Instance loc_eq_dec : EqDecision loc.
Proof. solve_decision. Defined.

#[global] Instance loc_countable : Countable loc.
Proof.
  apply (inj_countable'
    (fun l => match l with
              | Cptr p => (0, p) | Value p => (1, p) | Waiters p => (2, p)
              | Broadcasting p => (3, p) | Owner p => (4, p) | Held p => (5, p)
              end)
    (fun '(i, p) => match i with
                    | 0 => Cptr p | 1 => Value p | 2 => Waiters p
                    | 3 => Broadcasting p | 4 => Owner p | _ => Held p
                    end)). by intros [].
Defined.

Inductive prog : Type :=
| Ret (r : Z)
| Fail                                                (* a failed assertion *)
| Load (l : loc) (k : Z -> prog)
| Store (l : loc) (v : Z) (k : prog)
| DecSafe (l : loc) (k : option Z -> prog)            (* sync_atomic_decrement_safe *)
| Inc (l : loc) (k : Z -> prog)                       (* sync_atomic_increment *)
| SeL4_Wait (c : Z) (k : prog)
| SeL4_Signal (c : Z) (k : prog)
| VkaAlloc (p : Z) (k : Z -> prog)                    (* vka_alloc_notification *)
| VkaFree (p : Z) (k : prog).                         (* vka_free_object *)

(** Call a function and use what it returns. *)
Fixpoint seqp (p : prog) (k : Z -> prog) : prog :=
  match p with
  | Ret r => k r
  | Fail => Fail
  | Load l j => Load l (fun v => seqp (j v) k)
  | Store l v j => Store l v (seqp j k)
  | DecSafe l j => DecSafe l (fun v => seqp (j v) k)
  | Inc l j => Inc l (fun v => seqp (j v) k)
  | SeL4_Wait c j => SeL4_Wait c (seqp j k)
  | SeL4_Signal c j => SeL4_Signal c (seqp j k)
  | VkaAlloc p j => VkaAlloc p (fun v => seqp (j v) k)
  | VkaFree p j => VkaFree p (seqp j k)
  end.

Definition NULL : Z := 0.

(** *** [bin_sem_bare.h], [bin_sem.h] *)

Definition sync_bin_sem_bare_wait (notification : Z) (value : loc) : prog :=
  DecSafe value (fun oldval =>
  match oldval with
  | None => Ret (-1)
  | Some oldval =>
      if oldval <=? 0 then SeL4_Wait notification (Ret 0) else Ret 0
  end).

Definition sync_bin_sem_bare_post (notification : Z) (value : loc) : prog :=
  Inc value (fun val =>
  Load value (fun now =>
  if now <=? 1 then
    if val <=? 0 then SeL4_Signal notification (Ret 0) else Ret 0
  else Fail)).

Definition sync_bin_sem_init (sem notification value : Z) : prog :=
  if sem =? NULL then Ret (-1)
  else if negb (value =? 0) && negb (value =? 1) then Ret (-1)
  else Store (Cptr sem) notification (Store (Value sem) value (Ret 0)).

Definition sync_bin_sem_wait (sem : Z) : prog :=
  if sem =? NULL then Ret (-1)
  else Load (Cptr sem) (fun c => sync_bin_sem_bare_wait c (Value sem)).

Definition sync_bin_sem_post (sem : Z) : prog :=
  if sem =? NULL then Ret (-1)
  else Load (Cptr sem) (fun c => sync_bin_sem_bare_post c (Value sem)).

Definition sync_bin_sem_new (sem value : Z) : prog :=
  if sem =? NULL then Ret (-1)
  else if negb (value =? 0) && negb (value =? 1) then Ret (-1)
  else VkaAlloc sem (fun error =>
    if negb (error =? 0) then Ret error
    else Load (Cptr sem) (fun c => sync_bin_sem_init sem c value)).

Definition sync_bin_sem_destroy (sem : Z) : prog :=
  if sem =? NULL then Ret (-1) else VkaFree sem (Ret 0).

(** *** [mutex.h] *)

Definition sync_mutex_init (mutex notification : Z) : prog := sync_bin_sem_init mutex notification 1.
Definition sync_mutex_lock (mutex : Z) : prog := sync_bin_sem_wait mutex.
Definition sync_mutex_unlock (mutex : Z) : prog := sync_bin_sem_post mutex.
Definition sync_mutex_new (mutex : Z) : prog := sync_bin_sem_new mutex 1.
Definition sync_mutex_destroy (mutex : Z) : prog := sync_bin_sem_destroy mutex.

(** *** [condition_var.h] *)

Definition sync_cv_init (cv notification : Z) : prog :=
  if cv =? NULL then Ret (-1)
  else Store (Cptr cv) notification (Store (Waiters cv) 0 (Store (Broadcasting cv) 0 (Ret 0))).

Definition sync_cv_wait (lock cv : Z) : prog :=
  if cv =? NULL then Ret (-1)
  else
    Load (Waiters cv) (fun w => Store (Waiters cv) (s32 (w + 1))
    (Store (Broadcasting cv) 0
    (seqp (sync_bin_sem_post lock) (fun error =>
    if negb (error =? 0) then Ret error
    else Load (Cptr cv) (fun c => SeL4_Wait c
      (seqp (sync_bin_sem_wait lock) (fun error =>
      if negb (error =? 0) then Ret error
      else Load (Waiters cv) (fun w => Store (Waiters cv) (s32 (w - 1))
        (Load (Broadcasting cv) (fun b =>
         if nz b then
           Load (Waiters cv) (fun w =>
           if 0 <? w then Load (Cptr cv) (fun c => SeL4_Signal c (Ret 0))
           else Store (Broadcasting cv) 0 (Ret 0))
         else Ret 0)))))))))).

Definition sync_cv_signal (cv : Z) : prog :=
  if cv =? NULL then Ret (-1)
  else Load (Waiters cv) (fun w =>
    if 0 <? w then Load (Cptr cv) (fun c => SeL4_Signal c (Ret 0)) else Ret 0).

Definition sync_cv_broadcast (cv : Z) : prog :=
  if cv =? NULL then Ret (-1)
  else Load (Waiters cv) (fun w =>
    if 0 <? w then Store (Broadcasting cv) 1 (Load (Cptr cv) (fun c => SeL4_Signal c (Ret 0)))
    else Ret 0).

Definition sync_cv_broadcast_release (lock cv : Z) : prog :=
  if cv =? NULL then Ret (-1)
  else Load (Waiters cv) (fun w =>
    if 0 <? w then
      Store (Broadcasting cv) 1 (seqp (sync_bin_sem_post lock) (fun error =>
      if negb (error =? 0) then Ret error
      else Load (Cptr cv) (fun c => SeL4_Signal c (Ret 0))))
    else sync_bin_sem_post lock).

Definition sync_cv_new (cv : Z) : prog :=
  if cv =? NULL then Ret (-1)
  else VkaAlloc cv (fun error =>
    if negb (error =? 0) then Ret error
    else Load (Cptr cv) (fun c => sync_cv_init cv c)).

Definition sync_cv_destroy (cv : Z) : prog :=
  if cv =? NULL then Ret (-1) else VkaFree cv (Ret 0).

(** *** [recursive_mutex.c]; [me] is [thread_id()], the address of the thread's IPC
    buffer *)

Definition UINT_MAX : Z := 2 ^ 32 - 1.

Definition sync_recursive_mutex_init (mutex notification : Z) : prog :=
  if mutex =? NULL then Ret (-1)
  else
    Store (Cptr mutex) notification (Store (Owner mutex) NULL (Store (Held mutex) 0
    (Load (Cptr mutex) (fun c => SeL4_Signal c (Ret 0))))).

Definition take_again (mutex : Z) : prog :=
  Load (Held mutex) (fun h =>
  if h =? UINT_MAX then Ret (-1)
  else Load (Held mutex) (fun h => Store (Held mutex) (u32 (h + 1)) (Ret 0))).

Definition sync_recursive_mutex_lock (me mutex : Z) : prog :=
  if mutex =? NULL then Ret (-1)
  else Load (Owner mutex) (fun o =>
    if negb (me =? o) then
      Load (Cptr mutex) (fun c => SeL4_Wait c
      (Load (Owner mutex) (fun o =>
       if o =? NULL then
         Store (Owner mutex) me
         (Load (Held mutex) (fun h => if h =? 0 then take_again mutex else Fail))
       else Fail)))
    else take_again mutex).

Definition sync_recursive_mutex_unlock (me mutex : Z) : prog :=
  if mutex =? NULL then Ret (-1)
  else Load (Owner mutex) (fun o =>
    if o =? me then
      Load (Held mutex) (fun h =>
      if 0 <? h then
        Load (Held mutex) (fun h => Store (Held mutex) (u32 (h - 1))
        (Load (Held mutex) (fun h =>
         if h =? 0 then
           Store (Owner mutex) NULL (Load (Cptr mutex) (fun c => SeL4_Signal c (Ret 0)))
         else Ret 0)))
      else Fail)
    else Fail).

Definition sync_recursive_mutex_new (mutex : Z) : prog :=
  VkaAlloc mutex (fun error =>
    if negb (error =? 0) then Ret error
    else Load (Cptr mutex) (fun c => sync_recursive_mutex_init mutex c)).

Definition sync_recursive_mutex_destroy (mutex : Z) : prog := VkaFree mutex (Ret 0).

(** ** Steps

    The system calls and the atomic operations are parameters: [ntfn_signal] and
    [ntfn_wait] take a capability, and [can_run] says whether a thread is not
    blocked. *)

Class Notify (K : Type) := {
  ntfn_signal : Z -> M K unit;
  ntfn_wait : Z -> Z -> M K unit;
  can_run : Z -> K -> bool;
  ntfn_alloc : M K (Z * Z);
  ntfn_free : Z -> M K unit;
}.

(** [decrement_safe v] is the new value, or none when the operation fails;
    [increment v] is the new value. *)
Class Atomics := {
  decrement_safe : Z -> option Z;
  increment : Z -> Z;
}.

(** What is documented of them: the decrement fails only on the smallest int, and
    both do what their names say where no int overflows. *)
Class AtomicsOk `{Atomics} := {
  decrement_ok : forall v, decrement_safe v = if v =? - 2 ^ 31 then None else Some (v - 1);
  increment_ok : forall v, - 2 ^ 31 <= v < 2 ^ 31 - 1 -> increment v = v + 1;
}.

Record shared (K : Type) := Shared { mem : gmap loc Z; kern : K }.
Arguments Shared {K}.
Arguments mem {K}.
Arguments kern {K}.

Section Steps.
Context {K : Type} `{Notify K} `{Atomics}.
Abbreviation shared := (shared K).

Definition on_kern {A} (c : M K A) : M shared A :=
  zoom kern (fun k s => {| s with kern := k |}) c.

Definition load (l : loc) : M shared Z := s ← get; deref (s.(mem) !! l).
Definition store (l : loc) (v : Z) : M shared unit :=
  modify (fun s => {| s with mem := <[l := v]> s.(mem) |}).

(** The next action of thread [t], and what it has to do then. *)
Definition perform1 (t : Z) (p : prog) : M shared prog :=
  match p with
  | Ret r => mret (Ret r)
  | Fail => stuck Assert
  | Load l k => v ← load l; mret (k v)
  | Store l v k => store l v;; mret k
  | DecSafe l k =>
      v ← load l;
      match decrement_safe v with
      | Some w => store l w;; mret (k (Some v))
      | None => mret (k None)
      end
  | Inc l k => v ← load l; store l (increment v);; mret (k (increment v))
  | SeL4_Wait c k => on_kern (ntfn_wait t c);; mret k
  | SeL4_Signal c k => on_kern (ntfn_signal c);; mret k
  | VkaAlloc p k => '(error, c) ← on_kern ntfn_alloc; when (error =? 0) (store (Cptr p) c);; mret (k error)
  | VkaFree p k => c ← load (Cptr p); on_kern (ntfn_free c);; mret k
  end.

(** Threads that each run a program: a turn of a thread that is not blocked. *)
Definition tick (t : Z) : M (shared * gmap Z prog) unit :=
  '(s, ps) ← get;
  assert (can_run t s.(kern));;
  p ← deref (ps !! t);
  p ← zoom fst (fun s st => (s, st.2)) (perform1 t p);
  modify (fun st => (st.1, <[t := p]> st.2)).
End Steps.
