(* ===== verification/SyncSpec.v ===== *)
(** * What the mutex promises

    Threads that lock and unlock one mutex of [Sync], in any interleaving: at most
    one is inside, no assertion of the library fails, a thread that waits is never
    forgotten, and the lock is handed to the thread that has waited longest.  The
    proofs rest on an interface, which the notifications of the kernel ([NtfnSpec])
    satisfy. *)
From S2P Require Import Prelude Dlist Ntfn NtfnSpec Sync.

(** ** Counting threads *)

Section Count.
Context {A : Type}.
Implicit Types (P : A -> bool) (m : gmap Z A).

Definition count P m : Z := Z.of_nat (size (filter (fun kv => P kv.2 = true) m)).

Lemma count_insert P m t x y :
  m !! t = Some x -> count P (<[t := y]> m) = count P m - zb (P x) + zb (P y).
Proof.
  intros Hx. unfold count.
  rewrite <- (insert_delete_id m t x) at 2 by done. rewrite <- (insert_delete_eq m t y).
  assert (delete t m !! t = None) as Hd by apply lookup_delete_eq.
  assert (forall z, Z.of_nat (size (filter (fun kv => P kv.2 = true) (<[t := z]> (delete t m)))) =
                    Z.of_nat (size (filter (fun kv => P kv.2 = true) (delete t m))) + zb (P z)) as Hz; [|rewrite !Hz; lia].
  intros z. rewrite map_filter_insert. simpl. case_decide as Hp.
  - rewrite map_size_insert_None, Hp; [simpl; lia|]. apply map_lookup_filter_None. by left.
  - rewrite delete_id by done. destruct (P z); [done | simpl; lia].
Qed.

Lemma count_list P m q :
  NoDup q -> (forall t, t ∈ q -> exists x, m !! t = Some x /\ P x = true) -> Z.of_nat (length q) <= count P m.
Proof.
  intros Hnd Hq. unfold count. apply inj_le. rewrite <- size_dom, <- (size_list_to_set (C := gset Z)) by done.
  apply subseteq_size. intros t Ht%elem_of_list_to_set. destruct (Hq t Ht) as (x & Hx & HP).
  apply elem_of_dom. exists x. by apply map_lookup_filter_Some.
Qed.

Lemma list_set_size (q : list Z) : (size (list_to_set (C := gset Z) q) <= length q)%nat.
Proof.
  induction q as [|t q IH]; simpl; [done|]. rewrite size_union_alt, size_singleton.
  assert (size (list_to_set q ∖ {[t]} : gset Z) <= size (list_to_set (C := gset Z) q))%nat by (apply subseteq_size; set_solver).
  lia.
Qed.

(** More threads satisfy [P] than [q] lists: one of them is not in [q]. *)
Lemma count_more P m q :
  Z.of_nat (length q) < count P m -> exists t x, m !! t = Some x /\ P x = true /\ t ∉ q.
Proof.
  intros Hc. set (D := dom (filter (fun kv => P kv.2 = true) m)).
  destruct (set_choose_or_empty (D ∖ list_to_set q : gset Z)) as [[t Ht]|He].
  - apply elem_of_difference in Ht as [[x Hx]%elem_of_dom Hq]. apply map_lookup_filter_Some in Hx as [Hx HP].
    exists t, x. by rewrite elem_of_list_to_set in Hq.
  - exfalso. assert (D ⊆ list_to_set q) as Hs%subseteq_size by set_solver. subst D. rewrite size_dom in Hs.
    pose proof (list_set_size q). unfold count in Hc. lia.
Qed.
End Count.

(** ** The interface to notifications

    [sees k f]: the notification behind the capability [c] is in state [f], and of
    the threads [T] exactly those in its queue are blocked. *)

Definition hits (f f' : flag) : Prop :=
  match f with
  | Idle | Active _ => exists badge, f' = Active badge
  | Waiting q => f' = waiting (tail q)
  end.

Definition joins (t : Z) (f f' : flag) : Prop :=
  match f with
  | Active _ => f' = Idle
  | _ => f' = Waiting (flag_queue f ++ [t])
  end.

Class NotifyOk (K : Type) `{Notify K} (c : Z) (T : Z -> Prop) := {
  sees : K -> flag -> Prop;
  sees_queue : forall k f t, sees k f -> T t -> can_run t k = bool_decide (t ∉ flag_queue f);
  sees_one : forall k f f', sees k f -> sees k f' -> f = f';
  sees_waiting : forall k q, sees k (Waiting q) -> q <> [];
  signal_sees : forall k f, sees k f -> exists k' f', ntfn_signal c k = Ok tt k' /\ hits f f' /\ sees k' f';
  wait_sees : forall k f t, sees k f -> T t -> t ∉ flag_queue f ->
    exists k' f', ntfn_wait t c k = Ok tt k' /\ joins t f f' /\ sees k' f';
}.

(** ** Threads that use a mutex *)

Inductive activity : Type :=
| Outside
| Locking (p : prog)
| Inside
| Unlocking (p : prog).

Record lockers (K : Type) := Lockers { common : shared K; who : gmap Z activity }.
Arguments Lockers {K}.
Arguments common {K}.
Arguments who {K}.

Section System.
Context {K : Type} `{Notify K} `{Atomics}.
Context (mutex : Z).

Definition set_who (t : Z) (a : activity) : M (lockers K) unit :=
  modify (fun s => {| s with who := <[t := a]> s.(who) |}).

Definition act (t : Z) (p : prog) : M (lockers K) prog :=
  zoom common (fun c s => {| s with common := c |}) (perform1 t p).

(** One step of thread [t]: it calls the library when it is outside or inside, and
    otherwise performs the next action of its call. *)
Definition move (t : Z) : M (lockers K) unit :=
  s ← get;
  a ← deref (s.(who) !! t);
  match a with
  | Outside => set_who t (Locking (sync_mutex_lock mutex))
  | Locking (Ret r) => set_who t (if r =? 0 then Inside else Outside)
  | Locking p => p ← act t p; set_who t (Locking p)
  | Inside => set_who t (Unlocking (sync_mutex_unlock mutex))
  | Unlocking (Ret _) => set_who t Outside
  | Unlocking p => p ← act t p; set_who t (Unlocking p)
  end.

(** A turn of a thread that is not blocked. *)
Definition turn (t : Z) : M (lockers K) unit :=
  s ← get;
  assert (can_run t s.(common).(kern));;
  move t.

Inductive reachable (s0 : lockers K) : lockers K -> Prop :=
| reach_init : reachable s0 s0
| reach_turn s t s' : reachable s0 s -> turn t s = Ok tt s' -> reachable s0 s'.

(** A fresh mutex: [sync_mutex_init] has been called, no thread is in it. *)
Record fresh `{!NotifyOk K c T} (s : lockers K) : Prop := {
  fresh_mutex : mutex <> NULL;
  fresh_cptr : s.(common).(mem) !! Cptr mutex = Some c;
  fresh_value : s.(common).(mem) !! Value mutex = Some 1;
  fresh_flag : sees s.(common).(kern) Idle;
  fresh_threads : forall t a, s.(who) !! t = Some a -> T t /\ a = Outside;
}.
End System.

(** ** Where a thread is *)

Inductive pc : Type :=
| Out
| L0 | L1 | LWait | LDone | LFail
| In
| U0 | U1 | U2 (val : Z) | U3 | UDone.

Section Invariant.
Context {K : Type} `{Notify K} `{Atomics} `{!AtomicsOk} `{!NotifyOk K c T}.
Context (mutex : Z).

Definition code_of (x : pc) : activity :=
  match x with
  | Out => Outside
  | L0 => Locking (sync_mutex_lock mutex)
  | L1 => Locking (sync_bin_sem_bare_wait c (Value mutex))
  | LWait => Locking (SeL4_Wait c (Ret 0))
  | LDone => Locking (Ret 0)
  | LFail => Locking (Ret (-1))
  | In => Inside
  | U0 => Unlocking (sync_mutex_unlock mutex)
  | U1 => Unlocking (sync_bin_sem_bare_post c (Value mutex))
  | U2 val =>
      Unlocking (Load (Value mutex) (fun now =>
        if now <=? 1 then if val <=? 0 then SeL4_Signal c (Ret 0) else Ret 0 else Fail))
  | U3 => Unlocking (SeL4_Signal c (Ret 0))
  | UDone => Unlocking (Ret 0)
  end.

(** Between its decrement and its increment. *)
Definition engaged (x : pc) : bool :=
  match x with LWait | LDone | In | U0 | U1 => true | _ => false end.

(** Owns the lock or has it to pass on; a thread at [LDone] does unless it is
    still in the queue. *)
Definition owner (x : pc) : bool :=
  match x with LDone | In | U0 | U1 | U3 => true | U2 val => val <=? 0 | _ => false end.

Definition active (f : flag) : bool := match f with Active _ => true | _ => false end.

(** The value counts the engaged threads, and while there are any, one thread or
    the notification has the lock. *)
Record inv (s : lockers K) (pcs : gmap Z pc) (f : flag) (v : Z) : Prop := {
  i_mutex : mutex <> NULL;
  i_threads : s.(who) = code_of <$> pcs;
  i_known : forall t x, pcs !! t = Some x -> T t;
  i_cptr : s.(common).(mem) !! Cptr mutex = Some c;
  i_value : s.(common).(mem) !! Value mutex = Some v;
  i_range : - 2 ^ 31 <= v;
  i_sees : sees s.(common).(kern) f;
  i_count : v = 1 - count engaged pcs;
  i_owner : count owner pcs - Z.of_nat (length (flag_queue f)) + zb (active f) = zb (v <? 1);
  i_queue : forall t, t ∈ flag_queue f -> pcs !! t = Some LDone;
  i_nodup : NoDup (flag_queue f);
}.

(** Thread [t] goes from [x] to [y]; the rest follows from what that adds. *)
Lemma inv_step s pcs f v t x y mem' k' f' v' :
  inv s pcs f v -> pcs !! t = Some x -> t ∉ flag_queue f ->
  mem' !! Cptr mutex = Some c -> mem' !! Value mutex = Some v' -> - 2 ^ 31 <= v' -> sees k' f' ->
  v' = v + zb (engaged x) - zb (engaged y) ->
  zb (owner y) - zb (owner x) - Z.of_nat (length (flag_queue f')) + Z.of_nat (length (flag_queue f))
    + zb (active f') - zb (active f) = zb (v' <? 1) - zb (v <? 1) ->
  (forall u, u ∈ flag_queue f' -> u ∈ flag_queue f \/ u = t /\ y = LDone) ->
  NoDup (flag_queue f') ->
  inv (Lockers (Shared mem' k') (<[t := code_of y]> s.(who))) (<[t := y]> pcs) f' v'.
Proof.
  intros HI Hx Ht Hc Hv Hlow Hs Ev Eo Hq Hnd. split; simpl; try done.
  - apply HI.
  - by rewrite fmap_insert, (i_threads _ _ _ _ HI).
  - intros u z. destruct (decide (u = t)) as [->|Hu]; [|rewrite lookup_insert_ne by done; apply HI].
    intros _. by apply (i_known _ _ _ _ HI _ x).
  - rewrite (count_insert _ _ _ x) by done. pose proof (i_count _ _ _ _ HI). lia.
  - rewrite (count_insert _ _ _ x) by done. pose proof (i_owner _ _ _ _ HI). lia.
  - intros u Hu. destruct (decide (u = t)) as [->|Hne].
    + destruct (Hq _ Hu) as [?|[_ ->]]; [done | by rewrite lookup_insert_eq].
    + rewrite lookup_insert_ne by done. apply (i_queue _ _ _ _ HI). destruct (Hq _ Hu) as [?|[-> _]]; done.
Qed.

Definition next (x : pc) (v : Z) : pc :=
  match x with
  | Out => L0
  | L0 => L1
  | L1 => if v =? - 2 ^ 31 then LFail else if v <=? 0 then LWait else LDone
  | LWait => LDone
  | LDone => In
  | LFail => Out
  | In => U0
  | U0 => U1
  | U1 => U2 (v + 1)
  | U2 val => if val <=? 0 then U3 else UDone
  | U3 => UDone
  | UDone => Out
  end.

Definition next_flag (t : Z) (x : pc) (f f' : flag) : Prop :=
  match x with LWait => joins t f f' | U3 => hits f f' | _ => f' = f end.

(** The calls, as far as the code goes on. *)
Lemma act_load t l k s v :
  s.(common).(mem) !! l = Some v -> act t (Load l k) s = Ok (k v) s.
Proof.
  intros Hv. destruct s as [[m k0] w]. unfold act, zoom. cbn [common perform1]. unfold load.
  rewrite bind_assoc, get_bind. by erewrite deref_bind by done.
Qed.

Lemma move_running t s p p' s' :
  s.(who) !! t = Some (Locking p) -> (forall r, p <> Ret r) -> act t p s = Ok p' s' ->
  move mutex t s = Ok tt {| s' with who := <[t := Locking p']> s'.(who) |}.
Proof.
  intros Hw Hp Ha. unfold move. rewrite get_bind. erewrite deref_bind by done.
  destruct p; [by destruct (Hp r)|..]; by erewrite bind_run by done.
Qed.

Lemma move_unlocking t s p p' s' :
  s.(who) !! t = Some (Unlocking p) -> (forall r, p <> Ret r) -> act t p s = Ok p' s' ->
  move mutex t s = Ok tt {| s' with who := <[t := Unlocking p']> s'.(who) |}.
Proof.
  intros Hw Hp Ha. unfold move. rewrite get_bind. erewrite deref_bind by done.
  destruct p; [by destruct (Hp r)|..]; by erewrite bind_run by done.
Qed.

Lemma inv_quiet s pcs f v t x y :
  inv s pcs f v -> pcs !! t = Some x -> t ∉ flag_queue f -> engaged y = engaged x -> owner y = owner x ->
  inv {| s with who := <[t := code_of y]> s.(who) |} (<[t := y]> pcs) f v.
Proof.
  intros HI Hx Ht He Ho. destruct s as [[m k] w].
  apply (inv_step (Lockers (Shared m k) w) pcs f v t x y); rewrite ?He, ?Ho; try apply HI; try done; try lia.
  by left.
Qed.

(** The decrement. *)
Lemma move_L1 s pcs f v t :
  inv s pcs f v -> pcs !! t = Some L1 -> t ∉ flag_queue f ->
  exists s' v', move mutex t s = Ok tt s' /\ inv s' (<[t := next L1 v]> pcs) f v'.
Proof.
  intros HI Hx Ht. pose proof (i_value _ _ _ _ HI) as Hv. pose proof (i_count _ _ _ _ HI) as Hcnt.
  assert (0 <= count engaged pcs) as Hpos by (unfold count; lia).
  assert (s.(who) !! t = Some (code_of L1)) as Hw by (by rewrite (i_threads _ _ _ _ HI), lookup_fmap, Hx).
  assert (act t (sync_bin_sem_bare_wait c (Value mutex)) s =
          if v =? - 2 ^ 31 then Ok (Ret (-1)) s
          else Ok (if v <=? 0 then SeL4_Wait c (Ret 0) else Ret 0)
                  {| s with common := {| s.(common) with mem := <[Value mutex := v - 1]> s.(common).(mem) |} |}) as Ha.
  { destruct s as [[m k] w]. unfold act, zoom. cbn [common perform1 sync_bin_sem_bare_wait]. unfold load.
    rewrite bind_assoc, get_bind. erewrite deref_bind by done. rewrite decrement_ok. by destruct (v =? - 2 ^ 31). }
  pose proof (i_range _ _ _ _ HI) as Hlow. unfold next. destruct (Z.eqb_spec v (- 2 ^ 31)) as [|Hmin].
  - eexists _, v. split; [by eapply move_running|]. by apply (inv_quiet s pcs f v t L1 LFail).
  - eexists _, (v - 1). split; [by eapply move_running|]. destruct s as [[m k] w]. simpl in *.
    replace (Locking (if v <=? 0 then SeL4_Wait c (Ret 0) else Ret 0)) with (code_of (if v <=? 0 then LWait else LDone))
      by (by destruct (v <=? 0)).
    apply (inv_step _ _ _ _ _ _ _ _ _ f _ HI Hx Ht); try done; simpl.
    + rewrite lookup_insert_ne by done. apply HI.
    + by rewrite lookup_insert_eq.
    + lia.
    + apply HI.
    + destruct (v <=? 0); simpl; lia.
    + destruct (Z.leb_spec v 0), (Z.ltb_spec v 1), (Z.ltb_spec (v - 1) 1); simpl; lia.
    + by left.
    + apply HI.
Qed.

(** The increment. *)
Lemma move_U1 s pcs f v t :
  inv s pcs f v -> pcs !! t = Some U1 -> t ∉ flag_queue f ->
  exists s' v', move mutex t s = Ok tt s' /\ inv s' (<[t := next U1 v]> pcs) f v'.
Proof.
  intros HI Hx Ht. pose proof (i_value _ _ _ _ HI) as Hv. pose proof (i_count _ _ _ _ HI) as Hcnt.
  pose proof (i_range _ _ _ _ HI) as Hlow. assert (1 <= count engaged pcs) as Hpos.
  { apply (count_list engaged pcs [t]); [apply NoDup_singleton|]. intros u ->%list_elem_of_singleton. by exists U1. }
  assert (s.(who) !! t = Some (code_of U1)) as Hw by (by rewrite (i_threads _ _ _ _ HI), lookup_fmap, Hx).
  destruct s as [[m k] w]. simpl in *. eexists _, (v + 1). split.
  - eapply move_unlocking; [done..|]. unfold act, zoom. cbn [common perform1 sync_bin_sem_bare_post]. unfold load.
    rewrite bind_assoc, get_bind. erewrite deref_bind by done. by rewrite increment_ok by lia.
  - apply (inv_step _ _ _ _ _ _ (U2 (v + 1)) _ _ f _ HI Hx Ht); try done; simpl.
    + rewrite lookup_insert_ne by done. apply HI.
    + by rewrite lookup_insert_eq.
    + lia.
    + apply HI.
    + lia.
    + destruct (Z.leb_spec (v + 1) 0), (Z.ltb_spec v 1), (Z.ltb_spec (v + 1) 1); simpl; lia.
    + by left.
    + apply HI.
Qed.

(** The two system calls. *)
Lemma move_LWait s pcs f v t :
  inv s pcs f v -> pcs !! t = Some LWait -> t ∉ flag_queue f ->
  exists s' f', move mutex t s = Ok tt s' /\ inv s' (<[t := LDone]> pcs) f' v /\ joins t f f'.
Proof.
  intros HI Hx Ht. pose proof (i_nodup _ _ _ _ HI) as Hnd.
  assert (s.(who) !! t = Some (code_of LWait)) as Hw by (by rewrite (i_threads _ _ _ _ HI), lookup_fmap, Hx).
  destruct (wait_sees _ _ t (i_sees _ _ _ _ HI)) as (k' & f' & Hrun & Hj & Hs); [by apply (i_known _ _ _ _ HI _ _ Hx)|done|].
  destruct s as [[m k] w]. simpl in *. eexists _, f'. split; [|split; [|done]].
  - eapply move_running; [done..|]. unfold act, zoom. cbn [common perform1].
    unfold on_kern. erewrite bind_run; [done|]. unfold zoom. simpl. by rewrite Hrun.
  - apply (inv_step _ _ _ _ _ _ LDone _ _ f' _ HI Hx Ht); try done; simpl; try apply HI; [lia|..].
    + destruct f as [|g|q]; simpl in *; subst f'; simpl; rewrite ?length_app; simpl; lia.
    + intros u. destruct f as [|g|q]; simpl in *; subst f'; simpl; set_solver.
    + destruct f as [|g|q]; simpl in *; subst f'; simpl; [apply NoDup_singleton | done|].
      apply NoDup_app. split_and!; [done | set_solver | apply NoDup_singleton].
Qed.

Lemma move_U3 s pcs f v t :
  inv s pcs f v -> pcs !! t = Some U3 -> t ∉ flag_queue f ->
  exists s' f', move mutex t s = Ok tt s' /\ inv s' (<[t := UDone]> pcs) f' v /\ hits f f'.
Proof.
  intros HI Hx Ht. pose proof (i_nodup _ _ _ _ HI) as Hnd.
  assert (s.(who) !! t = Some (code_of U3)) as Hw by (by rewrite (i_threads _ _ _ _ HI), lookup_fmap, Hx).
  assert (1 <= count owner pcs) as Hpos.
  { apply (count_list owner pcs [t]); [apply NoDup_singleton|]. intros u ->%list_elem_of_singleton. by exists U3. }
  pose proof (i_owner _ _ _ _ HI) as Ho.
  destruct (signal_sees _ _ (i_sees _ _ _ _ HI)) as (k' & f' & Hrun & Hh & Hs).
  pose proof (i_sees _ _ _ _ HI) as Hs0. destruct s as [[m k] w]. simpl in *. eexists _, f'. split; [|split; [|done]].
  - eapply move_unlocking; [done..|]. unfold act, zoom. cbn [common perform1].
    unfold on_kern. erewrite bind_run; [done|]. unfold zoom. simpl. by rewrite Hrun.
  - apply (inv_step _ _ _ _ _ _ UDone _ _ f' _ HI Hx Ht); try done; simpl; try apply HI; [lia|..].
    + destruct f as [|g|q]; simpl in *; [destruct Hh as [b ->]; simpl; lia | destruct (v <? 1); simpl in Ho; lia|].
      apply sees_waiting in Hs0. destruct q as [|u q]; [done|]. subst f'. simpl. rewrite waiting_queue. destruct q; simpl; lia.
    + intros u. destruct f as [|g|q]; simpl in *; [destruct Hh as [b ->]; by intros ?%elem_of_nil..|]. subst f'. rewrite waiting_queue.
      intros Hu. left. by destruct q; [|right].
    + destruct f as [|g|q]; simpl in *; [destruct Hh as [b ->]; apply NoDup_nil_2..|]. subst f'. rewrite waiting_queue.
      destruct q; [done|]. by apply NoDup_cons in Hnd as [_ Hnd].
Qed.

(** Every step that a thread can take succeeds and keeps the invariant. *)
Lemma move_ok s pcs f v t x :
  inv s pcs f v -> pcs !! t = Some x -> t ∉ flag_queue f ->
  exists s' f' v', move mutex t s = Ok tt s' /\ inv s' (<[t := next x v]> pcs) f' v' /\ next_flag t x f f'.
Proof.
  intros HI Hx Ht.
  assert (s.(who) !! t = Some (code_of x)) as Hw by (by rewrite (i_threads _ _ _ _ HI), lookup_fmap, Hx).
  assert (engaged (next x v) = engaged x -> owner (next x v) = owner x ->
    move mutex t s = Ok tt {| s with who := <[t := code_of (next x v)]> s.(who) |} -> next_flag t x f f ->
    exists s' f' v', move mutex t s = Ok tt s' /\ inv s' (<[t := next x v]> pcs) f' v' /\ next_flag t x f f') as Hquiet.
  { intros He Ho Hm Hf. eexists _, f, v. split; [done|]. split; [by eapply inv_quiet | done]. }
  pose proof (i_mutex _ _ _ _ HI) as Hm. pose proof (i_cptr _ _ _ _ HI) as Hc. pose proof (i_value _ _ _ _ HI) as Hv.
  apply Z.eqb_neq in Hm. pose proof (i_count _ _ _ _ HI) as Hcnt.
  assert (v <=? 1 = true) as Hv1 by (unfold count in Hcnt; apply Z.leb_le; lia).
  destruct x as [| | | | | | | | |val| |]; try (apply Hquiet; [done|done| |done];
    unfold move; rewrite get_bind; by erewrite deref_bind by done).
  - apply Hquiet; [done|done| |done]. eapply move_running; [done| |];
      unfold sync_mutex_lock, sync_bin_sem_wait; rewrite Hm; [done|]. by rewrite (act_load _ _ _ _ c).
  - destruct (move_L1 _ _ _ _ _ HI Hx Ht) as (s' & v' & Hrun & HI'). by exists s', f, v'.
  - destruct (move_LWait _ _ _ _ _ HI Hx Ht) as (s' & f' & Hrun & HI' & Hj). by exists s', f', v.
  - apply Hquiet; [done|done| |done]. eapply move_unlocking; [done| |];
      unfold sync_mutex_unlock, sync_bin_sem_post; rewrite Hm; [done|]. by rewrite (act_load _ _ _ _ c).
  - destruct (move_U1 _ _ _ _ _ HI Hx Ht) as (s' & v' & Hrun & HI'). by exists s', f, v'.
  - apply Hquiet; simpl; [by destruct (val <=? 0) | | |done].
    + by destruct (val <=? 0).
    + erewrite move_unlocking; [|done|done|by apply act_load]. rewrite Hv1. by destruct (val <=? 0).
  - destruct (move_U3 _ _ _ _ _ HI Hx Ht) as (s' & f' & Hrun & HI' & Hj). by exists s', f', v.
Qed.
End Invariant.

(** ** The mutex *)

Section Mutex.
Context {K : Type} `{Notify K} `{Atomics} `{!AtomicsOk} `{!NotifyOk K c T}.
Context (mutex : Z).

Lemma fresh_inv s : fresh mutex s -> exists pcs, inv mutex s pcs Idle 1.
Proof.
  intros HF. exists ((fun _ => Out) <$> s.(who)).
  assert (forall P : pc -> bool, P Out = false -> count P ((fun _ => Out) <$> s.(who)) = 0) as Hcnt.
  { intros P HP. unfold count. apply Nat2Z.inj_iff with (m := 0%nat), map_size_empty_iff, map_empty.
    intros t. apply map_lookup_filter_None. right. intros x (a & <- & _)%lookup_fmap_Some. simpl. congruence. }
  split; rewrite ?Hcnt by done; try apply HF; try done.
  - apply map_eq. intros t. rewrite !lookup_fmap. destruct (s.(who) !! t) as [a|] eqn:Ha; [|done].
    apply (fresh_threads _ _ HF) in Ha as [_ ->]. done.
  - intros t x (a & _ & Ha)%lookup_fmap_Some. by apply (fresh_threads _ _ HF) in Ha as [? _].
  - intros t Ht. by apply elem_of_nil in Ht.
  - apply NoDup_nil_2.
Qed.

Lemma inv_pc s pcs f v t a : inv mutex s pcs f v -> s.(who) !! t = Some a ->
  exists x, pcs !! t = Some x /\ code_of (c := c) mutex x = a.
Proof. intros HI. rewrite (i_threads _ _ _ _ _ HI), lookup_fmap_Some. naive_solver. Qed.

Lemma inv_run s pcs f v t x : inv mutex s pcs f v -> pcs !! t = Some x ->
  can_run t s.(common).(kern) = bool_decide (t ∉ flag_queue f).
Proof. intros HI Hx. apply sees_queue; [apply HI | by apply (i_known _ _ _ _ _ HI _ _ Hx)]. Qed.

Lemma turn_ok s pcs f v t x :
  inv mutex s pcs f v -> pcs !! t = Some x -> t ∉ flag_queue f ->
  exists s' f' v', turn mutex t s = Ok tt s' /\ inv mutex s' (<[t := next x v]> pcs) f' v' /\ next_flag t x f f'.
Proof.
  intros HI Hx Ht. destruct (move_ok _ _ _ _ _ _ _ HI Hx Ht) as (s' & f' & v' & Hm & HI' & Hf).
  exists s', f', v'. split; [|done]. unfold turn. rewrite get_bind, assert_bind; [done|].
  erewrite inv_run by done. by apply bool_decide_eq_true.
Qed.

Lemma reachable_inv s0 s : fresh mutex s0 -> reachable mutex s0 s -> exists pcs f v, inv mutex s pcs f v.
Proof.
  intros HF. induction 1 as [|s t s' _ (pcs & f & v & HI) Hturn].
  - destruct (fresh_inv _ HF) as [pcs HI]. by exists pcs, Idle, 1.
  - unfold turn in Hturn. rewrite get_bind in Hturn.
    destruct (can_run t s.(common).(kern)) eqn:Hrun; [|done]. rewrite assert_bind in Hturn by done.
    destruct (s.(who) !! t) as [a|] eqn:Ha; [|by unfold move in Hturn; rewrite get_bind, Ha in Hturn].
    destruct (inv_pc _ _ _ _ _ _ HI Ha) as (x & Hx & _). erewrite inv_run in Hrun by done.
    apply bool_decide_eq_true in Hrun. destruct (move_ok _ _ _ _ _ _ _ HI Hx Hrun) as (s1 & f' & v' & Hm & HI' & _).
    rewrite Hm in Hturn. injection Hturn as <-. eauto.
Qed.

(** C10 Mutual exclusion: in every interleaving of threads that lock and unlock a
    mutex, at most one is between [sync_mutex_lock] and [sync_mutex_unlock]. *)
Theorem mutex_exclusion s0 s t u :
  fresh mutex s0 -> reachable mutex s0 s ->
  s.(who) !! t = Some Inside -> s.(who) !! u = Some Inside -> t = u.
Proof.
  intros HF HR Ht Hu. destruct (reachable_inv _ _ HF HR) as (pcs & f & v & HI).
  destruct (inv_pc _ _ _ _ _ _ HI Ht) as (x & Hx & Ex). destruct (inv_pc _ _ _ _ _ _ HI Hu) as (y & Hy & Ey).
  destruct x; try done. destruct y; try done. destruct (decide (t = u)) as [|Hne]; [done|exfalso].
  assert (forall w, pcs !! w = Some In -> w ∉ flag_queue f) as Hq.
  { intros w Hw Hin%(i_queue _ _ _ _ _ HI). congruence. }
  assert (Z.of_nat (length (t :: u :: flag_queue f)) <= count owner pcs) as Hc.
  { apply count_list.
    - rewrite !NoDup_cons, not_elem_of_cons. split_and!; [done | auto.. | apply HI].
    - intros w [->|[->|Hw]%elem_of_cons]%elem_of_cons; [eauto..|]. exists LDone. split; [|done]. by apply HI. }
  pose proof (i_owner _ _ _ _ _ HI) as Ho. simpl in Hc. destruct (v <? 1), (active f); simpl in Ho; lia.
Qed.

(** C22 Every step of a thread that is not blocked succeeds: the assertion that
    [sync_bin_sem_bare_post] makes about the value, which it reads again after its
    increment, holds whatever other threads do in between. *)
Theorem mutex_never_stuck s0 s t a :
  fresh mutex s0 -> reachable mutex s0 s -> s.(who) !! t = Some a -> can_run t s.(common).(kern) = true ->
  exists s', turn mutex t s = Ok tt s'.
Proof.
  intros HF HR Ha Hrun. destruct (reachable_inv _ _ HF HR) as (pcs & f & v & HI).
  destruct (inv_pc _ _ _ _ _ _ HI Ha) as (x & Hx & _). erewrite inv_run in Hrun by done.
  apply bool_decide_eq_true in Hrun. destruct (turn_ok _ _ _ _ _ _ HI Hx Hrun) as (s' & _ & _ & Hm & _). by exists s'.
Qed.

(** Has the lock, or is about to pass it on. *)
Definition has_lock (a : activity) : Prop :=
  a = Inside \/ a = Locking (Ret 0) \/ exists p, a = Unlocking p /\ forall r, p <> Ret r.

(** C12 No wake-up is lost: while a thread is blocked on the mutex there is another
    that can run and has the lock, has just been given it, or is on its way to
    signal. *)
Theorem mutex_no_lost_wakeup s0 s t a :
  fresh mutex s0 -> reachable mutex s0 s -> s.(who) !! t = Some a -> can_run t s.(common).(kern) = false ->
  exists u b, s.(who) !! u = Some b /\ can_run u s.(common).(kern) = true /\ has_lock b.
Proof.
  intros HF HR Ha Hrun. destruct (reachable_inv _ _ HF HR) as (pcs & f & v & HI).
  destruct (inv_pc _ _ _ _ _ _ HI Ha) as (x & Hx & _). erewrite inv_run in Hrun by done.
  apply bool_decide_eq_false, dec_stable in Hrun.
  assert (1 <= count engaged pcs) as Hpos.
  { apply (count_list engaged pcs [t]); [apply NoDup_singleton|]. intros w ->%list_elem_of_singleton.
    exists LDone. split; [|done]. by apply HI. }
  pose proof (i_owner _ _ _ _ _ HI) as Ho. pose proof (i_count _ _ _ _ _ HI) as Hv.
  assert (active f = false) as Hact by (destruct f; try done; by apply elem_of_nil in Hrun).
  rewrite Hact, (proj2 (Z.ltb_lt v 1)) in Ho by lia. simpl in Ho.
  destruct (count_more owner pcs (flag_queue f)) as (u & y & Hy & Hown & Hu); [lia|].
  exists u, (code_of (c := c) mutex y). split_and!.
  - by rewrite (i_threads _ _ _ _ _ HI), lookup_fmap, Hy.
  - erewrite inv_run by done. by apply bool_decide_eq_true.
  - pose proof (i_mutex _ _ _ _ _ HI) as Hm%Z.eqb_neq. unfold has_lock.
    destruct y; try done; simpl; [by right; left | by left | right; right; eexists; split; [done|]; try done..].
    unfold sync_mutex_unlock, sync_bin_sem_post. by rewrite Hm.
Qed.

(** C17 The lock is handed over in the order of arrival: the thread inside unlocks
    in five steps, and then the thread that has waited longest is inside after one
    step of its own. *)
Theorem mutex_hands_over s0 s h t q :
  fresh mutex s0 -> reachable mutex s0 s -> s.(who) !! h = Some Inside -> sees s.(common).(kern) (Waiting (t :: q)) ->
  exists s', for_each [h; h; h; h; h; t] (turn mutex) s = Ok tt s' /\ s'.(who) !! t = Some Inside /\
    sees s'.(common).(kern) (waiting q).
Proof.
  intros HF HR Hh Hs. destruct (reachable_inv _ _ HF HR) as (pcs & f & v & HI).
  assert (f = Waiting (t :: q)) as -> by (eapply sees_one; [apply HI | done]).
  destruct (inv_pc _ _ _ _ _ _ HI Hh) as (x & Hx & Ex). destruct x; try done.
  pose proof (i_nodup _ _ _ _ _ HI) as Hnd. simpl in Hnd. apply NoDup_cons in Hnd as [Htq _].
  assert (pcs !! t = Some LDone) as Ht by (apply (i_queue _ _ _ _ _ HI); by left).
  assert (h ∉ flag_queue (Waiting (t :: q))) as Hhq by (intros Hin%(i_queue _ _ _ _ _ HI); congruence).
  assert (h <> t) as Hht by congruence.
  destruct (turn_ok _ _ _ _ _ _ HI Hx Hhq) as (s1 & f1 & v1 & Hm1 & HI1 & ->).
  destruct (turn_ok _ _ _ _ h U0 HI1) as (s2 & f2 & v2 & Hm2 & HI2 & ->); [by rewrite lookup_insert_eq | done |].
  destruct (turn_ok _ _ _ _ h U1 HI2) as (s3 & f3 & v3 & Hm3 & HI3 & ->); [by rewrite lookup_insert_eq | done |].
  destruct (turn_ok _ _ _ _ h (U2 (v2 + 1)) HI3) as (s4 & f4 & v4 & Hm4 & HI4 & ->); [by rewrite lookup_insert_eq | done |].
  assert (v2 + 1 <=? 0 = true) as Hneg.
  { pose proof (i_count _ _ _ _ _ HI2) as Hcnt. apply Z.leb_le.
    assert (Z.of_nat (length [h; t]) <= count engaged (<[h := next U0 v1]> (<[h := next In v]> pcs))); [|simpl in *; lia].
    apply count_list; [apply NoDup_cons; split; [by intros ?%list_elem_of_singleton | apply NoDup_singleton]|].
    intros w [->| ->%list_elem_of_singleton]%elem_of_cons; [exists U1; by rewrite lookup_insert_eq|].
    exists LDone. by rewrite !lookup_insert_ne. }
  cbn [next] in HI4. rewrite Hneg in HI4.
  destruct (turn_ok _ _ _ _ h U3 HI4) as (s5 & f5 & v5 & Hm5 & HI5 & Hf5); [by rewrite lookup_insert_eq | done |].
  simpl in Hf5. subst f5.
  destruct (turn_ok _ _ _ _ t LDone HI5) as (s6 & f6 & v6 & Hm6 & HI6 & ->);
    [by rewrite !lookup_insert_ne | by rewrite waiting_queue |].
  exists s6. split_and!.
  - cbn [for_each]. by do 6 (erewrite bind_run by done).
  - by rewrite (i_threads _ _ _ _ _ HI6), lookup_fmap, lookup_insert_eq.
  - apply HI6.
Qed.
End Mutex.
