(* ===== verification/SyncKernel.v ===== *)
(** * The locks on the kernel

    The notifications of the kernel satisfy the interface on which the theorems of
    [SyncSpec] rest; a concrete system of threads and its mutex; and runs of
    condition variables in which a wake-up is lost. *)
From S2P Require Import Prelude Dlist Ntfn NtfnSpec Sync SyncSpec.

(** A capability names a notification and the badge of its signals; objects are
    allocated and freed by other code. *)
Class Caps := {
  cap_ntfn : Z -> Z;
  cap_badge : Z -> Z;
  vka_alloc : M kernel (Z * Z);
  vka_free : Z -> M kernel unit;
}.

Definition thread_runs (t : Z) (k : kernel) : bool :=
  match k.(tcbs) !! t with Some x => isRunnable x | None => false end.

#[global] Instance kernel_notify `{ReplyCaps} `{Caps} : Notify kernel := {|
  ntfn_signal c := sendSignal (cap_ntfn c) (cap_badge c);
  ntfn_wait t c := receiveSignal t (cap_ntfn c) true;
  can_run := thread_runs;
  ntfn_alloc := vka_alloc;
  ntfn_free := vka_free;
|}.

(** The flag of a notification is determined by the pointers. *)
Lemma dseg_one L prev p q q' last last' : dseg L prev p q last 0 -> dseg L prev p q' last' 0 -> q = q'.
Proof.
  revert prev p q'. induction q as [|t q IH]; intros prev p [|t' q']; simpl; [done| | |].
  - by intros [-> _] (E & Ht & _).
  - by intros (-> & Ht & _) [E _].
  - intros (-> & _ & nx & HL & Hq) (-> & _ & nx' & HL' & Hq'). assert (nx' = nx) as -> by congruence.
    f_equal. by eapply IH.
Qed.

Section KernelNotify.
Context `{ReplyCaps} `{Caps} (c : Z) (T : Z -> Prop).

(** The threads [T] run or wait on the notification, to which no thread is bound. *)
Definition waits_or_runs (n : Z) (x : thread) : Prop :=
  x.(t_state) = Running \/ blocked_on x = Some (ntfn n).

Definition kernel_sees (k : kernel) (f : flag) : Prop :=
  exists A, refines k A /\ A.(flags) !! cap_ntfn c = Some (f, 0) /\
    forall t, T t -> exists x, A.(threads) !! t = Some x /\ waits_or_runs (cap_ntfn c) x.

Lemma kernel_sees_queue k f t :
  kernel_sees k f -> T t -> thread_runs t k = bool_decide (t ∉ flag_queue f).
Proof.
  intros (A & HR & Hf & HT) Ht. destruct (HT t Ht) as (x & Hx & Hw).
  destruct (refines_thread _ _ _ _ HR Hx) as (y & Hy & <-). unfold thread_runs, isRunnable. rewrite Hy.
  assert (t ∈ flag_queue f <-> blocked_on (view y) = Some (ntfn (cap_ntfn c))) as Hq.
  { pose proof (r_blocked _ _ HR (ntfn (cap_ntfn c)) t) as Hb. simpl in Hb. by rewrite Hf, Hx in Hb. }
  destruct Hw as [Hw|Hw].
  - simpl in Hw. rewrite Hw. symmetry. apply bool_decide_eq_true. rewrite Hq. unfold blocked_on. simpl. by rewrite Hw.
  - rewrite bool_decide_false by tauto. unfold blocked_on in Hw. simpl in Hw. by destruct (tsType y).
Qed.

Lemma kernel_sees_one k f f' : kernel_sees k f -> kernel_sees k f' -> f = f'.
Proof.
  intros (A & HR & Hf & _) (A' & HR' & Hf' & _).
  destruct (refines_flag _ _ _ _ _ HR Hf) as (x & Hx & [_ Hst] & Hq).
  destruct (refines_flag _ _ _ _ _ HR' Hf') as (x' & Hx' & [_ Hst'] & Hq').
  assert (x' = x) as -> by congruence. pose proof (dseg_one _ _ _ _ _ _ _ Hq Hq') as E.
  destruct f, f'; simpl in *; naive_solver congruence.
Qed.

Lemma kernel_sees_waiting k q : kernel_sees k (Waiting q) -> q <> [].
Proof. intros (A & HR & Hf & _). destruct (refines_flag _ _ _ _ _ HR Hf) as (x & _ & [_ [_ Hq]] & _). done. Qed.

Lemma kernel_signal_sees k f :
  kernel_sees k f -> exists k' f', ntfn_signal c k = Ok tt k' /\ hits f f' /\ kernel_sees k' f'.
Proof.
  intros (A & HR & Hf & HT).
  destruct (perform_refines k A (NtfnSpec.Signal (cap_ntfn c) (cap_badge c)) HR) as (k' & Hrun & HR'); [simpl; by rewrite Hf|].
  simpl in Hrun, HR'. exists k'. unfold signal in HR'. rewrite Hf in HR'. destruct f as [|old|q].
  - rewrite (r_null _ _ HR) in HR'. exists (Active (cap_badge c)). split_and!; [done | by eexists|].
    eexists. split_and!; [done | simpl; by rewrite lookup_alter_eq, Hf | done].
  - eexists. split_and!; [done | by eexists |].
    eexists. split_and!; [done | simpl; by rewrite lookup_alter_eq, Hf | done].
  - destruct q as [|u q]; [by destruct (kernel_sees_waiting k []); [exists A|]|].
    exists (waiting q). split_and!; [done..|]. eexists. split_and!; [done | simpl; by rewrite lookup_alter_eq, Hf|].
    intros t Ht. destruct (HT t Ht) as (x & Hx & Hw). simpl. destruct (decide (t = u)) as [->|Hne].
    + rewrite lookup_alter_eq, Hx. eexists. split; [done|]. by left.
    + rewrite lookup_alter_ne by done. eauto.
Qed.

Lemma kernel_wait_sees k f t :
  kernel_sees k f -> T t -> t ∉ flag_queue f ->
  exists k' f', ntfn_wait t c k = Ok tt k' /\ joins t f f' /\ kernel_sees k' f'.
Proof.
  intros (A & HR & Hf & HT) Ht Hq. destruct (HT t Ht) as (x & Hx & Hw).
  assert (blocked_on x = None) as Hfree.
  { destruct Hw as [Hw|Hw]; [unfold blocked_on; by rewrite Hw|]. destruct Hq.
    pose proof (r_blocked _ _ HR (ntfn (cap_ntfn c)) t) as Hb. simpl in Hb. rewrite Hf, Hx in Hb. by apply Hb. }
  destruct (perform_refines k A (NtfnSpec.Wait t (cap_ntfn c)) HR) as (k' & Hrun & HR').
  { simpl. rewrite Hf, Hx. by rewrite Hfree. }
  simpl in Hrun, HR'. exists k'. unfold wait in HR'. rewrite Hf in HR'.
  assert (forall g f', waits_or_runs (cap_ntfn c) (g x) ->
    refines k' (on_thread t g (set_flag (cap_ntfn c) f' A)) -> kernel_sees k' f') as Hsees.
  { intros g f' Hg HR1. eexists. split_and!; [done | simpl; by rewrite lookup_alter_eq, Hf|]. intros u Hu. simpl.
    destruct (decide (u = t)) as [->|Hne]; [rewrite lookup_alter_eq, Hx; eauto | rewrite lookup_alter_ne by done; eauto]. }
  destruct f as [|badge|q]; eexists; (split_and!; [done..|]); eapply Hsees; try done; try by right.
  destruct Hw as [Hw|Hw]; [by left | congruence].
Qed.

#[global] Instance kernel_notify_ok : NotifyOk kernel c T := {|
  sees := kernel_sees;
  sees_queue := kernel_sees_queue;
  sees_one := kernel_sees_one;
  sees_waiting := kernel_sees_waiting;
  signal_sees := kernel_signal_sees;
  wait_sees := kernel_wait_sees;
|}.
End KernelNotify.

(** ** A kernel at rest: no thread is blocked, and no signal is kept *)

Definition at_rest (k : kernel) : Prop :=
  map_Forall (fun t x => t <> 0 /\ blocked_on (view x) = None) k.(tcbs) /\
  map_Forall (fun _ x => x.(state) = NtfnState_Idle /\ x.(ntfnQueue_head) = 0 /\ x.(ntfnQueue_tail) = 0) k.(ntfns) /\
  map_Forall (fun _ x => x.(ep_st) = EPState_Idle /\ x.(epQueue_head) = 0 /\ x.(epQueue_tail) = 0) k.(eps).

Definition machine_at_rest (k : kernel) : machine := {|
  threads := view <$> k.(tcbs);
  flags := (fun x => (Idle, x.(ntfnBoundTCB))) <$> k.(ntfns);
  queues := (fun _ => (EPState_Idle, [])) <$> k.(eps);
|}.

Lemma rest_refines k : at_rest k -> refines k (machine_at_rest k).
Proof.
  intros (Ht & Hn & He). assert (forall o, queue_of (machine_at_rest k) o = []) as Hq.
  { intros [n|e]; simpl; rewrite lookup_fmap; [by destruct (k.(ntfns) !! n) | by destruct (k.(eps) !! e)]. }
  split; simpl.
  - done.
  - rewrite lookup_fmap. destruct (k.(tcbs) !! 0) as [x|] eqn:E; [|done]. by apply Ht in E as [? _].
  - intros n. rewrite lookup_fmap. destruct (k.(ntfns) !! n) as [x|] eqn:E; constructor. apply Hn in E as (Es & _). done.
  - intros e. rewrite lookup_fmap. destruct (k.(eps) !! e) as [x|] eqn:E; constructor. apply He in E as (Es & _). done.
  - intros o. rewrite Hq. destruct o as [n|e]; simpl.
    + destruct (k.(ntfns) !! n) as [x|] eqn:E; [|done]. by apply Hn in E as (_ & Eh & Et).
    + destruct (k.(eps) !! e) as [x|] eqn:E; [|done]. by apply He in E as (_ & Eh & Et).
  - intros o t. rewrite Hq, elem_of_nil, lookup_fmap. destruct (k.(tcbs) !! t) as [x|] eqn:E; [|done].
    simpl. apply Ht in E as [_ ->]. done.
  - intros o. rewrite Hq. apply NoDup_nil_2.
Qed.

(** ** A concrete system

    Threads 1, 2 and 3 run; the mutex at 1000 uses the notification 100, the
    condition variable at 2000 the notification 200. *)

#[local] Instance no_reply_caps : ReplyCaps := fun _ => mret tt.
#[local] Instance flat_caps : Caps := {|
  cap_ntfn c := c;
  cap_badge _ := 0;
  vka_alloc := mret (1, 0);
  vka_free _ := mret tt;
|}.
#[local] Instance ints : Atomics := {|
  decrement_safe v := if v =? - 2 ^ 31 then None else Some (v - 1);
  increment v := s32 (v + 1);
|}.
#[local] Instance ints_ok : AtomicsOk.
Proof. split; [done|]. intros v Hv. apply s32_small. lia. Qed.

Definition ready : tcb := Tcb Running 0 0 0 0 0.

Definition bank_kernel : kernel := {|
  tcbs := <[1 := ready]> (<[2 := ready]> {[3 := ready]});
  ntfns := <[100 := Notification NtfnState_Idle 0 0 0 0]> {[200 := Notification NtfnState_Idle 0 0 0 0]};
  eps := ∅;
|}.

Definition bank_memory : gmap loc Z :=
  <[Cptr 1000 := 100]> (<[Value 1000 := 1]>
  (<[Cptr 2000 := 200]> (<[Waiters 2000 := 0]> {[Broadcasting 2000 := 0]}))).

Definition bank : lockers kernel :=
  Lockers (Shared bank_memory bank_kernel) (<[1 := Outside]> (<[2 := Outside]> {[3 := Outside]})).

Definition customers (t : Z) : Prop := t ∈ [1; 2; 3].

Lemma bank_at_rest : at_rest bank_kernel.
Proof. apply (bool_decide_unpack (at_rest bank_kernel)). by vm_compute. Qed.

Lemma customers_run t : customers t -> bank_kernel.(tcbs) !! t = Some ready /\ bank.(who) !! t = Some Outside.
Proof.
  unfold customers. rewrite !elem_of_cons, elem_of_nil. intros [->|[->|[->|[]]]]; by vm_compute.
Qed.

Lemma bank_fresh : fresh (c := 100) (T := customers) 1000 bank.
Proof.
  split; [done | by vm_compute..| |].
  - exists (machine_at_rest bank_kernel). split_and!; [apply rest_refines, bank_at_rest | by vm_compute|].
    intros t [Ht _]%customers_run. exists (view ready). split; [|by left]. unfold machine_at_rest. cbn [threads]. by rewrite lookup_fmap, Ht.
  - intros t a. simpl. rewrite !lookup_insert_Some, lookup_singleton_Some. unfold customers.
    rewrite !elem_of_cons. naive_solver.
Qed.

Lemma reachable_run {K} `{Notify K} `{Atomics} mutex ts (s0 s s' : lockers K) :
  reachable mutex s0 s -> for_each ts (turn mutex) s = Ok tt s' -> reachable mutex s0 s'.
Proof.
  revert s. induction ts as [|t ts IH]; intros s HR Hrun; simpl in Hrun; [by injection Hrun as <-|].
  apply bind_Ok in Hrun as ([] & s1 & H1 & Hrun). eapply IH; [|done]. by econstructor.
Qed.

(** [evening]: thread 1 is inside, threads 2 and 3 wait, 2 first. *)
Definition evening : lockers kernel :=
  final (for_each [1; 1; 1; 1; 2; 2; 3; 2; 2; 3; 3; 3] (turn 1000) bank) bank.

Lemma evening_reachable : reachable 1000 bank evening.
Proof.
  apply (reachable_run 1000 [1; 1; 1; 1; 2; 2; 3; 2; 2; 3; 3; 3] bank bank); [constructor|].
  apply (value_final _ _ bank). by vm_compute.
Qed.

Lemma kernel_sees_exact `{ReplyCaps} `{Caps} c T k f x q :
  kernel_sees c T k f -> k.(ntfns) !! cap_ntfn c = Some x -> x.(state) = NtfnState_Waiting ->
  dseg (links k.(tcbs)) 0 x.(ntfnQueue_head) q x.(ntfnQueue_tail) 0 -> f = Waiting q.
Proof.
  intros (A & HR & Hf & _) Hx Hst Hq. destruct (refines_flag _ _ _ _ _ HR Hf) as (x' & Hx' & [_ Hst'] & Hq').
  assert (x' = x) as -> by congruence. pose proof (dseg_one _ _ _ _ _ _ _ Hq Hq') as ->.
  destruct f; simpl in *; naive_solver congruence.
Qed.

Lemma evening_sees : sees (c := 100) (T := customers) evening.(common).(kern) (Waiting [2; 3]).
Proof.
  destruct (reachable_inv 1000 _ _ bank_fresh evening_reachable) as (pcs & f & v & HI).
  pose proof (i_sees _ _ _ _ _ HI) as Hs.
  assert (f = Waiting [2; 3]) as <-; [|done].
  eapply (kernel_sees_exact 100 customers); [exact Hs | by vm_compute | done|].
  vm_compute. split_and!; [done..|]. exists 3. split_and!; [done..|]. by exists 0.
Qed.

Lemma mutex_exclusion_witness : evening.(who) !! 1 = Some Inside /\ 1 = 1.
Proof.
  split; [by vm_compute|]. apply (mutex_exclusion 1000 bank evening 1 1 bank_fresh evening_reachable); by vm_compute.
Defined.

Lemma mutex_never_stuck_witness : exists s', turn 1000 1 evening = Ok tt s'.
Proof. apply (mutex_never_stuck 1000 bank evening 1 Inside bank_fresh evening_reachable); by vm_compute. Defined.

Lemma mutex_no_lost_wakeup_witness :
  exists u b, evening.(who) !! u = Some b /\ can_run u evening.(common).(kern) = true /\ has_lock b.
Proof.
  apply (mutex_no_lost_wakeup 1000 bank evening 2 (Locking (Ret 0)) bank_fresh evening_reachable); by vm_compute.
Defined.

Lemma mutex_hands_over_witness :
  exists s', for_each [1; 1; 1; 1; 1; 2] (turn 1000) evening = Ok tt s' /\ s'.(who) !! 2 = Some Inside /\
    sees (c := 100) (T := customers) s'.(common).(kern) (Waiting [3]).
Proof.
  apply (mutex_hands_over 1000 bank evening 1 2 [3] bank_fresh evening_reachable); [by vm_compute | apply evening_sees].
Defined.

(** ** Condition variables

    Programs that use the condition variable at 2000 as a monitor would. *)

Definition locked (body : prog) : prog :=
  seqp (sync_mutex_lock 1000) (fun _ => seqp body (fun _ => sync_mutex_unlock 1000)).

Definition cv_start (body3 : prog) : shared kernel * gmap Z prog :=
  (Shared bank_memory bank_kernel,
   <[1 := locked (sync_cv_wait 1000 2000)]> (<[2 := locked (sync_cv_wait 1000 2000)]> {[3 := locked body3]})).

Fixpoint turns (l : list (Z * nat)) : list Z :=
  match l with [] => [] | (t, n) :: l => repeat t n ++ turns l end.

(** Two signals can wake one thread only: both waiters have released the lock but
    not yet reached [seL4_Wait] when the third thread signals twice.  The
    notification keeps one signal, thread 1 takes it, and thread 2 blocks, counted as
    a waiter, with no thread left that would signal. *)
Example cv_signal_lost :
  exists s ps,
    for_each (turns [(1, 8%nat); (2, 8%nat); (3, 12%nat); (1, 14%nat); (2, 2%nat)]) tick
      (cv_start (seqp (sync_cv_signal 2000) (fun _ => sync_cv_signal 2000))) = Ok tt (s, ps) /\
    ps !! 1 = Some (Ret 0) /\ ps !! 3 = Some (Ret 0) /\
    can_run 2 s.(kern) = false /\ s.(mem) !! Waiters 2000 = Some 1.
Proof.
  pose (r := for_each (turns [(1, 8%nat); (2, 8%nat); (3, 12%nat); (1, 14%nat); (2, 2%nat)]) tick
               (cv_start (seqp (sync_cv_signal 2000) (fun _ => sync_cv_signal 2000)))).
  pose (st := final r (cv_start Fail)). exists st.1, st.2. split_and!; [|by vm_compute..].
  rewrite <- surjective_pairing. apply (value_final r tt (cv_start Fail)). by vm_compute.
Qed.

(** A broadcast can miss a waiter: threads 1 and 2 wait, thread 3 broadcasts and
    then waits itself.  Its [sync_cv_wait] clears [broadcasting] before thread 1 has
    taken the lock again, so thread 1 does not pass the wake-up on, and thread 2,
    which waited when the broadcast was made, stays blocked. *)
Theorem cv_broadcast_lost :
  exists s ps,
    for_each (turns [(1, 10%nat); (2, 10%nat); (3, 14%nat); (1, 12%nat)]) tick
      (cv_start (seqp (sync_cv_broadcast 2000) (fun _ => sync_cv_wait 1000 2000))) = Ok tt (s, ps) /\
    ps !! 1 = Some (Ret 0) /\ can_run 2 s.(kern) = false /\ can_run 3 s.(kern) = false /\
    s.(mem) !! Value 1000 = Some 1 /\ s.(mem) !! Waiters 2000 = Some 2.
Proof.
  pose (r := for_each (turns [(1, 10%nat); (2, 10%nat); (3, 14%nat); (1, 12%nat)]) tick
               (cv_start (seqp (sync_cv_broadcast 2000) (fun _ => sync_cv_wait 1000 2000)))).
  pose (st := final r (cv_start Fail)). exists st.1, st.2. split_and!; [|by vm_compute..].
  rewrite <- surjective_pairing. apply (value_final r tt (cv_start Fail)). by vm_compute.
Qed.
