(* ===== verification/SyncRec.v ===== *)
(** * What the recursive mutex promises

    Threads that lock and unlock one recursive mutex of [Sync] again and again, in
    any interleaving: the assertions of [recursive_mutex.c] hold although it reads
    the owner before it has the lock, at most one thread holds the mutex, and the
    count in memory is the number of its locks. *)
From S2P Require Import Prelude Dlist Ntfn NtfnSpec Sync SyncSpec SyncKernel.

(** ** The system *)

(** A thread has locked the mutex [d] times more than it has unlocked it. *)
Inductive nested : Type :=
| Rest (d : Z)
| Taking (d : Z) (p : prog)
| Giving (d : Z) (p : prog).

Record nesters (K : Type) := Nesters { shr : shared K; nests : gmap Z nested }.
Arguments Nesters {K}.
Arguments shr {K}.
Arguments nests {K}.

Section System.
Context {K : Type} `{Notify K} `{Atomics}.
Context (ipc_buffer : Z -> Z) (mutex : Z).

Definition set_nest (t : Z) (a : nested) : M (nesters K) unit :=
  modify (fun s => {| s with nests := <[t := a]> s.(nests) |}).

Definition ract (t : Z) (p : prog) : M (nesters K) prog :=
  zoom shr (fun c s => {| s with shr := c |}) (perform1 t p).

(** One turn of thread [t]; when it is between two calls, [more] says whether it
    locks again or unlocks, which it only does when it holds the mutex. *)
Definition rturn (tm : Z * bool) : M (nesters K) unit :=
  let '(t, more) := tm in
  s ← get;
  assert (can_run t s.(shr).(kern));;
  a ← deref (s.(nests) !! t);
  match a with
  | Rest d =>
      if more then set_nest t (Taking d (sync_recursive_mutex_lock (ipc_buffer t) mutex))
      else when (0 <? d) (set_nest t (Giving d (sync_recursive_mutex_unlock (ipc_buffer t) mutex)))
  | Taking d (Ret r) => set_nest t (Rest (if r =? 0 then d + 1 else d))
  | Taking d p => p ← ract t p; set_nest t (Taking d p)
  | Giving d (Ret _) => set_nest t (Rest (d - 1))
  | Giving d p => p ← ract t p; set_nest t (Giving d p)
  end.

(** [sync_recursive_mutex_init] has been called: the notification is primed. *)
Record rfresh `{!NotifyOk K c T} (s : nesters K) : Prop := {
  rf_mutex : mutex <> NULL;
  rf_cptr : s.(shr).(mem) !! Cptr mutex = Some c;
  rf_owner : s.(shr).(mem) !! Owner mutex = Some NULL;
  rf_held : s.(shr).(mem) !! Held mutex = Some 0;
  rf_flag : exists badge, sees s.(shr).(kern) (Active badge);
  rf_threads : forall t a, s.(nests) !! t = Some a -> T t /\ a = Rest 0;
}.
End System.

(** ** Where a thread is *)

Inductive point : Type :=
| R (d : Z)
| A0 | A1 | A2 | A3 | A4 | A5
| B0 (d : Z) | A6 (d : Z) | A7 (d : Z) | A8 (d : Z) | A9 (d : Z) | AF (d : Z)
| C0 (d : Z) | C1 (d : Z) | C2 (d : Z) | C3 (d : Z) | C4 (d : Z)
| C5 | C6 | C7 | C8 (d : Z).

Section Points.
Context (c mutex : Z) (me : Z).

Definition count_up : prog := Load (Held mutex) (fun h => Store (Held mutex) (u32 (h + 1)) (Ret 0)).
Definition let_go : prog := Store (Owner mutex) NULL (Load (Cptr mutex) (fun c => SeL4_Signal c (Ret 0))).
Definition count_down : prog :=
  Load (Held mutex) (fun h => Store (Held mutex) (u32 (h - 1))
    (Load (Held mutex) (fun h => if h =? 0 then let_go else Ret 0))).
Definition own : prog :=
  Store (Owner mutex) me (Load (Held mutex) (fun h => if h =? 0 then take_again mutex else Fail)).

Definition point_code (x : point) : nested :=
  match x with
  | R d => Rest d
  | A0 => Taking 0 (sync_recursive_mutex_lock me mutex)
  | A1 => Taking 0 (Load (Cptr mutex) (fun c => SeL4_Wait c
                     (Load (Owner mutex) (fun o => if o =? NULL then own else Fail))))
  | A2 => Taking 0 (SeL4_Wait c (Load (Owner mutex) (fun o => if o =? NULL then own else Fail)))
  | A3 => Taking 0 (Load (Owner mutex) (fun o => if o =? NULL then own else Fail))
  | A4 => Taking 0 own
  | A5 => Taking 0 (Load (Held mutex) (fun h => if h =? 0 then take_again mutex else Fail))
  | B0 d => Taking d (sync_recursive_mutex_lock me mutex)
  | A6 d => Taking d (take_again mutex)
  | A7 d => Taking d count_up
  | A8 d => Taking d (Store (Held mutex) (u32 (d + 1)) (Ret 0))
  | A9 d => Taking d (Ret 0)
  | AF d => Taking d (Ret (-1))
  | C0 d => Giving d (sync_recursive_mutex_unlock me mutex)
  | C1 d => Giving d (Load (Held mutex) (fun h => if 0 <? h then count_down else Fail))
  | C2 d => Giving d count_down
  | C3 d => Giving d (Store (Held mutex) (u32 (d - 1))
                       (Load (Held mutex) (fun h => if h =? 0 then let_go else Ret 0)))
  | C4 d => Giving d (Load (Held mutex) (fun h => if h =? 0 then let_go else Ret 0))
  | C5 => Giving 1 let_go
  | C6 => Giving 1 (Load (Cptr mutex) (fun c => SeL4_Signal c (Ret 0)))
  | C7 => Giving 1 (SeL4_Signal c (Ret 0))
  | C8 d => Giving d (Ret 0)
  end.

(** Has the lock (a thread at [A3] unless it is still in the queue). *)
Definition holds (x : point) : bool :=
  match x with
  | R d => 0 <? d
  | A0 | A1 | A2 => false
  | C8 d => 1 <? d
  | _ => true
  end.

(** What the owner and the count are while this thread has the lock. *)
Definition owner_at (x : point) : Z :=
  match x with A3 | A4 | C6 | C7 => NULL | _ => me end.
Definition held_at (x : point) : Z :=
  match x with
  | R d | B0 d | A6 d | A7 d | A8 d | AF d | C0 d | C1 d | C2 d | C3 d => d
  | A9 d => d + 1
  | C4 d | C8 d => d - 1
  | _ => 0
  end.

Definition in_range (x : point) : bool :=
  match x with
  | R d | A6 d => (0 <=? d) && (d <=? UINT_MAX)
  | A7 d | A8 d | A9 d => (0 <=? d) && (d <? UINT_MAX)
  | B0 d | AF d | C0 d | C1 d | C2 d | C3 d | C4 d | C8 d => (0 <? d) && (d <=? UINT_MAX)
  | _ => true
  end.

Definition after (x : point) (more : bool) : point :=
  match x with
  | R d => if more then if 0 <? d then B0 d else A0 else if 0 <? d then C0 d else R d
  | A0 => A1 | A1 => A2 | A2 => A3 | A3 => A4 | A4 => A5 | A5 => A6 0
  | B0 d => A6 d
  | A6 d => if d =? UINT_MAX then AF d else A7 d
  | A7 d => A8 d | A8 d => A9 d | A9 d => R (d + 1) | AF d => R d
  | C0 d => C1 d | C1 d => C2 d | C2 d => C3 d | C3 d => C4 d
  | C4 d => if d =? 1 then C5 else C8 d
  | C5 => C6 | C6 => C7 | C7 => C8 1
  | C8 d => R (d - 1)
  end.
End Points.

(** ** The invariant *)

Section Invariant.
Context {K : Type} `{Notify K} `{Atomics} `{!NotifyOk K c T}.
Context (ipc_buffer : Z -> Z) (mutex : Z).
Hypothesis buffers_distinct : forall t u, T t -> T u -> ipc_buffer t = ipc_buffer u -> t = u.
Hypothesis buffers_valid : forall t, T t -> ipc_buffer t <> NULL.

(** One thread, or the notification, has the lock, and owner and count in memory
    are what it has made them. *)
Record rinv (s : nesters K) (pts : gmap Z point) (f : flag) (o h : Z) : Prop := {
  ri_mutex : mutex <> NULL;
  ri_threads : s.(nests) = map_imap (fun t x => Some (point_code c mutex (ipc_buffer t) x)) pts;
  ri_known : forall t x, pts !! t = Some x -> T t /\ in_range x = true;
  ri_cptr : s.(shr).(mem) !! Cptr mutex = Some c;
  ri_owner : s.(shr).(mem) !! Owner mutex = Some o;
  ri_held : s.(shr).(mem) !! Held mutex = Some h;
  ri_sees : sees s.(shr).(kern) f;
  ri_one : count holds pts - Z.of_nat (length (flag_queue f)) + zb (active f) = 1;
  ri_holder : forall t x, pts !! t = Some x -> holds x = true -> t ∉ flag_queue f ->
    o = owner_at (ipc_buffer t) x /\ h = held_at x;
  ri_free : active f = true -> o = NULL /\ h = 0;
  ri_queue : forall t, t ∈ flag_queue f -> pts !! t = Some A3;
  ri_nodup : NoDup (flag_queue f);
}.

Lemma holder_unique s pts f o h t u x y :
  rinv s pts f o h -> pts !! t = Some x -> holds x = true -> t ∉ flag_queue f ->
  pts !! u = Some y -> holds y = true -> u ∉ flag_queue f -> u = t /\ active f = false.
Proof.
  intros HI Hx Hhx Ht Hy Hhy Hu. pose proof (ri_one _ _ _ _ _ HI) as Ho.
  assert (forall q, NoDup q -> (forall w, w ∈ q -> w = t \/ w = u \/ w ∈ flag_queue f) -> Z.of_nat (length q) <= count holds pts) as Hc.
  { intros q Hnd Hq. apply count_list; [done|]. intros w Hw. destruct (Hq w Hw) as [->|[->|Hwq]]; [eauto..|].
    exists A3. split; [by apply (ri_queue _ _ _ _ _ HI) | done]. }
  split.
  - destruct (decide (u = t)) as [|Hne]; [done|]. pose proof (Hc (t :: u :: flag_queue f)) as Hl. simpl in Hl.
    rewrite !NoDup_cons, not_elem_of_cons in Hl. setoid_rewrite elem_of_cons in Hl. setoid_rewrite elem_of_cons in Hl.
    pose proof (ri_nodup _ _ _ _ _ HI). destruct (active f); simpl in Ho;
      (assert (Z.of_nat (S (S (length (flag_queue f)))) <= count holds pts) by (apply Hl; naive_solver)); lia.
  - destruct (active f); [|done]. pose proof (Hc (t :: flag_queue f)) as Hl. simpl in Hl, Ho.
    rewrite NoDup_cons in Hl. setoid_rewrite elem_of_cons in Hl. pose proof (ri_nodup _ _ _ _ _ HI).
    assert (Z.of_nat (S (length (flag_queue f))) <= count holds pts) by (apply Hl; naive_solver). lia.
Qed.

(** Thread [t] goes from [x] to [y]. *)
Lemma rinv_step s pts f o h t x y mem' k' f' o' h' :
  rinv s pts f o h -> pts !! t = Some x -> t ∉ flag_queue f ->
  mem' !! Cptr mutex = Some c -> mem' !! Owner mutex = Some o' -> mem' !! Held mutex = Some h' -> sees k' f' ->
  in_range y = true ->
  zb (holds y) - zb (holds x) - Z.of_nat (length (flag_queue f')) + Z.of_nat (length (flag_queue f))
    + zb (active f') - zb (active f) = 0 ->
  (forall u z, <[t := y]> pts !! u = Some z -> holds z = true -> u ∉ flag_queue f' ->
     o' = owner_at (ipc_buffer u) z /\ h' = held_at z) ->
  (active f' = true -> o' = NULL /\ h' = 0) ->
  (forall u, u ∈ flag_queue f' -> u ∈ flag_queue f \/ u = t /\ y = A3) ->
  NoDup (flag_queue f') ->
  rinv (Nesters (Shared mem' k') (<[t := point_code c mutex (ipc_buffer t) y]> s.(nests))) (<[t := y]> pts) f' o' h'.
Proof.
  intros HI Hx Ht Hc Ho Hh Hs Hy Hone Hhold Hfree Hq Hnd. split; simpl; try done.
  - apply HI.
  - by rewrite (ri_threads _ _ _ _ _ HI), (map_imap_insert_Some _ _ _ _ (point_code c mutex (ipc_buffer t) y)).
  - intros u z. destruct (decide (u = t)) as [->|Hu]; [|rewrite lookup_insert_ne by done; apply HI].
    rewrite lookup_insert_eq. intros [= <-]. split; [by apply (ri_known _ _ _ _ _ HI _ _ Hx) | done].
  - rewrite (count_insert _ _ _ x) by done. pose proof (ri_one _ _ _ _ _ HI). lia.
  - intros u Hu. destruct (decide (u = t)) as [->|Hne].
    + destruct (Hq _ Hu) as [?|[_ ->]]; [done | by rewrite lookup_insert_eq].
    + rewrite lookup_insert_ne by done. apply (ri_queue _ _ _ _ _ HI). destruct (Hq _ Hu) as [?|[-> _]]; done.
Qed.

(** A step of the thread that has the lock. *)
Lemma rinv_holder s pts f o h t x y mem' :
  rinv s pts f o h -> pts !! t = Some x -> t ∉ flag_queue f -> holds x = true -> holds y = true -> in_range y = true ->
  mem' !! Cptr mutex = Some c -> mem' !! Owner mutex = Some (owner_at (ipc_buffer t) y) ->
  mem' !! Held mutex = Some (held_at y) ->
  rinv (Nesters (Shared mem' s.(shr).(kern)) (<[t := point_code c mutex (ipc_buffer t) y]> s.(nests)))
    (<[t := y]> pts) f (owner_at (ipc_buffer t) y) (held_at y).
Proof.
  intros HI Hx Ht Hhx Hhy Hr Hc Ho Hh.
  apply (rinv_step _ _ _ _ _ _ _ _ _ _ f _ _ HI Hx Ht); try done.
  - apply HI.
  - rewrite Hhx, Hhy. lia.
  - intros u z. destruct (decide (u = t)) as [->|Hne]; [by rewrite lookup_insert_eq; intros [= <-]|].
    rewrite lookup_insert_ne by done. intros Hz Hhz Hu.
    by destruct (holder_unique _ _ _ _ _ _ _ _ _ HI Hx Hhx Ht Hz Hhz Hu).
  - intros Ha. destruct (holder_unique _ _ _ _ _ _ _ _ _ HI Hx Hhx Ht Hx Hhx Ht) as [_ Hf]. congruence.
  - by left.
  - apply HI.
Qed.

(** A step of a thread that does not have it. *)
Lemma rinv_outsider s pts f o h t x y :
  rinv s pts f o h -> pts !! t = Some x -> t ∉ flag_queue f -> holds x = false -> holds y = false -> in_range y = true ->
  rinv {| s with nests := <[t := point_code c mutex (ipc_buffer t) y]> s.(nests) |} (<[t := y]> pts) f o h.
Proof.
  intros HI Hx Ht Hhx Hhy Hr. destruct s as [[m k] w].
  apply (rinv_step _ _ _ _ _ _ _ _ _ _ f _ _ HI Hx Ht); try done; try apply HI.
  - rewrite Hhx, Hhy. lia.
  - intros u z. destruct (decide (u = t)) as [->|Hne]; [rewrite lookup_insert_eq; intros [= <-]; congruence|].
    rewrite lookup_insert_ne by done. apply HI.
  - by left.
Qed.

Lemma ract_load t l k s v :
  s.(shr).(mem) !! l = Some v -> ract t (Load l k) s = Ok (k v) s.
Proof.
  intros Hv. destruct s as [[m k0] w]. unfold ract, zoom. cbn [shr perform1]. unfold load.
  rewrite bind_assoc, get_bind. by erewrite deref_bind by done.
Qed.

Lemma ract_store t l v k s :
  ract t (Store l v k) s = Ok k (Nesters (Shared (<[l := v]> s.(shr).(mem)) s.(shr).(kern)) s.(nests)).
Proof. done. Qed.

Lemma rturn_taking t more s d p p' s' :
  s.(nests) !! t = Some (Taking d p) -> can_run t s.(shr).(kern) = true -> (forall r, p <> Ret r) ->
  ract t p s = Ok p' s' -> rturn ipc_buffer mutex (t, more) s = Ok tt {| s' with nests := <[t := Taking d p']> s'.(nests) |}.
Proof.
  intros Hw Hr Hp Ha. unfold rturn. rewrite get_bind, assert_bind by done. erewrite deref_bind by done.
  destruct p; [by destruct (Hp r)|..]; by erewrite bind_run by done.
Qed.

Lemma rturn_giving t more s d p p' s' :
  s.(nests) !! t = Some (Giving d p) -> can_run t s.(shr).(kern) = true -> (forall r, p <> Ret r) ->
  ract t p s = Ok p' s' -> rturn ipc_buffer mutex (t, more) s = Ok tt {| s' with nests := <[t := Giving d p']> s'.(nests) |}.
Proof.
  intros Hw Hr Hp Ha. unfold rturn. rewrite get_bind, assert_bind by done. erewrite deref_bind by done.
  destruct p; [by destruct (Hp r)|..]; by erewrite bind_run by done.
Qed.

Lemma rinv_nest s pts f o h t x : rinv s pts f o h -> pts !! t = Some x ->
  s.(nests) !! t = Some (point_code c mutex (ipc_buffer t) x).
Proof. intros HI Hx. by rewrite (ri_threads _ _ _ _ _ HI), map_lookup_imap, Hx. Qed.

Lemma rinv_run s pts f o h t x : rinv s pts f o h -> pts !! t = Some x ->
  can_run t s.(shr).(kern) = bool_decide (t ∉ flag_queue f).
Proof. intros HI Hx. apply sees_queue; [apply HI | by apply (ri_known _ _ _ _ _ HI _ _ Hx)]. Qed.

(** The two system calls. *)
Lemma rturn_A2 s pts f o h t more :
  rinv s pts f o h -> pts !! t = Some A2 -> t ∉ flag_queue f ->
  exists s' f', rturn ipc_buffer mutex (t, more) s = Ok tt s' /\ rinv s' (<[t := A3]> pts) f' o h.
Proof.
  intros HI Hx Ht. pose proof (ri_nodup _ _ _ _ _ HI) as Hnd. pose proof (rinv_nest _ _ _ _ _ _ _ HI Hx) as Hw.
  pose proof (rinv_run _ _ _ _ _ _ _ HI Hx) as Hr. rewrite bool_decide_true in Hr by done.
  destruct (wait_sees _ _ t (ri_sees _ _ _ _ _ HI)) as (k' & f' & Hrun & Hj & Hs); [by apply (ri_known _ _ _ _ _ HI _ _ Hx)|done|].
  destruct s as [[m k] w]. simpl in *. eexists _, f'. split.
  - eapply rturn_taking; [done..|]. unfold ract, zoom. cbn [shr perform1].
    unfold on_kern. erewrite bind_run; [done|]. unfold zoom. simpl. by rewrite Hrun.
  - apply (rinv_step _ _ _ _ _ _ _ A3 _ _ f' _ _ HI Hx Ht); try done; simpl; try apply HI.
    + destruct f as [|g|q]; simpl in *; subst f'; simpl; rewrite ?length_app; simpl; lia.
    + intros u z. destruct (decide (u = t)) as [->|Hne].
      * rewrite lookup_insert_eq. intros [= <-] _ Hu. destruct f as [|g|q]; simpl in *; subst f'; [set_solver| |set_solver].
        by apply (ri_free _ _ _ _ _ HI).
      * rewrite lookup_insert_ne by done. intros Hz Hhz Hu. apply (ri_holder _ _ _ _ _ HI); [done..|].
        destruct f as [|g|q]; simpl in *; subst f'; set_solver.
    + by destruct f; simpl in *; subst f'.
    + intros u. destruct f as [|g|q]; simpl in *; subst f'; simpl; set_solver.
    + destruct f as [|g|q]; simpl in *; subst f'; simpl; [apply NoDup_singleton | done|].
      apply NoDup_app. split_and!; [done | set_solver | apply NoDup_singleton].
Qed.

Lemma rturn_C7 s pts f o h t more :
  rinv s pts f o h -> pts !! t = Some C7 -> t ∉ flag_queue f ->
  exists s' f', rturn ipc_buffer mutex (t, more) s = Ok tt s' /\ rinv s' (<[t := C8 1]> pts) f' o h.
Proof.
  intros HI Hx Ht. pose proof (ri_nodup _ _ _ _ _ HI) as Hnd. pose proof (rinv_nest _ _ _ _ _ _ _ HI Hx) as Hw.
  pose proof (rinv_run _ _ _ _ _ _ _ HI Hx) as Hr. rewrite bool_decide_true in Hr by done.
  pose proof (fun u y => holder_unique _ _ _ _ _ t u C7 y HI Hx eq_refl Ht) as Hone. destruct (Hone _ _ Hx eq_refl Ht) as [_ Hact].
  destruct (ri_holder _ _ _ _ _ HI _ _ Hx eq_refl Ht) as [-> ->]. simpl.
  destruct (signal_sees _ _ (ri_sees _ _ _ _ _ HI)) as (k' & f' & Hrun & Hh & Hs).
  pose proof (ri_sees _ _ _ _ _ HI) as Hs0. destruct s as [[m k] w]. simpl in *. eexists _, f'. split.
  - eapply rturn_giving; [done..|]. unfold ract, zoom. cbn [shr perform1].
    unfold on_kern. erewrite bind_run; [done|]. unfold zoom. simpl. by rewrite Hrun.
  - assert (flag_queue f' = tail (flag_queue f)) as Hq'.
    { destruct f as [|g|q]; simpl in *; [by destruct Hh as [b ->]..|]. subst f'. apply waiting_queue. }
    apply (rinv_step _ _ _ _ _ _ _ (C8 1) _ _ f' _ _ HI Hx Ht); rewrite ?Hq'; try done; simpl; try apply HI.
    + destruct f as [|g|q]; simpl in *; [by destruct Hh as [b ->] | done |].
      apply sees_waiting in Hs0. destruct q as [|u q]; [done|]. subst f'. simpl. destruct q; simpl; lia.
    + intros u z. destruct (decide (u = t)) as [->|Hne]; [by rewrite lookup_insert_eq; intros [= <-]|].
      rewrite lookup_insert_ne by done. intros Hz Hhz Hu. destruct (decide (u ∈ flag_queue f)) as [Hin|Hin].
      * apply (ri_queue _ _ _ _ _ HI) in Hin. by assert (z = A3) as -> by congruence.
      * by destruct (Hone _ _ Hz Hhz Hin).
    + intros u Hu. left. destruct (flag_queue f); [done | by right].
    + destruct (flag_queue f); [done|]. by apply NoDup_cons in Hnd as [_ Hnd].
Qed.

(** A step that leaves the memory alone. *)
Lemma rinv_quiet s pts f o h t x y :
  rinv s pts f o h -> pts !! t = Some x -> t ∉ flag_queue f -> holds y = holds x -> in_range y = true ->
  (holds x = true -> owner_at (ipc_buffer t) y = owner_at (ipc_buffer t) x /\ held_at y = held_at x) ->
  rinv {| s with nests := <[t := point_code c mutex (ipc_buffer t) y]> s.(nests) |} (<[t := y]> pts) f o h.
Proof.
  intros HI Hx Ht Hh Hr Hsame. destruct (holds x) eqn:Hhx; [|by eapply rinv_outsider].
  destruct (ri_holder _ _ _ _ _ HI _ _ Hx Hhx Ht) as [Eo Eh]. destruct (Hsame eq_refl) as [Eo' Eh'].
  pose proof (ri_owner _ _ _ _ _ HI) as Ho. pose proof (ri_held _ _ _ _ _ HI) as Hd.
  destruct s as [[m k] w]. rewrite Eo, Eh, <- Eo', <- Eh' in *.
  apply (rinv_holder (Nesters (Shared m k) w) pts f _ _ t x y m HI); try done. apply HI.
Qed.

(** A thread that does not have the lock does not read itself as the owner. *)
Lemma outsider_owner s pts f o h t x :
  rinv s pts f o h -> pts !! t = Some x -> t ∉ flag_queue f -> holds x = false -> ipc_buffer t <> o.
Proof.
  intros HI Hx Ht Hhx E. destruct (ri_known _ _ _ _ _ HI _ _ Hx) as [HT _].
  destruct (active f) eqn:Ha.
  - destruct (ri_free _ _ _ _ _ HI Ha) as [-> _]. by apply (buffers_valid t).
  - pose proof (ri_one _ _ _ _ _ HI) as Hone. rewrite Ha in Hone. simpl in Hone.
    destruct (count_more holds pts (flag_queue f)) as (u & y & Hy & Hhy & Hu); [lia|].
    destruct (ri_holder _ _ _ _ _ HI _ _ Hy Hhy Hu) as [Eo _]. destruct (ri_known _ _ _ _ _ HI _ _ Hy) as [HU _].
    assert (ipc_buffer t = NULL \/ ipc_buffer t = ipc_buffer u) as [E'|E'].
    { rewrite E, Eo. destruct y; simpl; auto. }
    + by apply (buffers_valid t).
    + assert (t = u) as -> by (by apply buffers_distinct). congruence.
Qed.

(** Steps of the holder that write the owner or the count. *)
Lemma rinv_set_owner s pts f o h t x y :
  rinv s pts f o h -> pts !! t = Some x -> t ∉ flag_queue f -> holds x = true -> holds y = true -> in_range y = true ->
  held_at y = held_at x ->
  rinv (Nesters (Shared (<[Owner mutex := owner_at (ipc_buffer t) y]> s.(shr).(mem)) s.(shr).(kern))
         (<[t := point_code c mutex (ipc_buffer t) y]> s.(nests)))
    (<[t := y]> pts) f (owner_at (ipc_buffer t) y) (held_at y).
Proof.
  intros HI Hx Ht Hhx Hhy Hr Eh. destruct (ri_holder _ _ _ _ _ HI _ _ Hx Hhx Ht) as [_ Eh'].
  apply (rinv_holder _ _ _ _ _ _ _ _ _ HI Hx); try done; rewrite ?lookup_insert_ne by done; [apply HI | by rewrite lookup_insert_eq |].
  rewrite Eh, <- Eh'. apply HI.
Qed.

Lemma rinv_set_held s pts f o h t x y v :
  rinv s pts f o h -> pts !! t = Some x -> t ∉ flag_queue f -> holds x = true -> holds y = true -> in_range y = true ->
  owner_at (ipc_buffer t) y = owner_at (ipc_buffer t) x -> held_at y = v ->
  rinv (Nesters (Shared (<[Held mutex := v]> s.(shr).(mem)) s.(shr).(kern))
         (<[t := point_code c mutex (ipc_buffer t) y]> s.(nests)))
    (<[t := y]> pts) f (owner_at (ipc_buffer t) y) v.
Proof.
  intros HI Hx Ht Hhx Hhy Hr Eo <-. destruct (ri_holder _ _ _ _ _ HI _ _ Hx Hhx Ht) as [Eo' _].
  apply (rinv_holder _ _ _ _ _ _ _ _ _ HI Hx); try done; rewrite ?lookup_insert_ne by done; [apply HI | | by rewrite lookup_insert_eq].
  rewrite Eo, <- Eo'. apply HI.
Qed.

Definition rgoal (s : nesters K) (pts : gmap Z point) (t : Z) (x : point) (more : bool) : Prop :=
  exists s' f' o' h', rturn ipc_buffer mutex (t, more) s = Ok tt s' /\ rinv s' (<[t := after x more]> pts) f' o' h'.

Lemma rquiet s pts f o h t x more :
  rinv s pts f o h -> pts !! t = Some x -> t ∉ flag_queue f ->
  holds (after x more) = holds x -> in_range (after x more) = true ->
  (holds x = true -> owner_at (ipc_buffer t) (after x more) = owner_at (ipc_buffer t) x /\ held_at (after x more) = held_at x) ->
  rturn ipc_buffer mutex (t, more) s =
    Ok tt {| s with nests := <[t := point_code c mutex (ipc_buffer t) (after x more)]> s.(nests) |} ->
  rgoal s pts t x more.
Proof. intros HI Hx Ht Hh Hr Hs Hrun. eexists _, f, o, h. split; [done|]. by eapply rinv_quiet. Qed.

(** The conditions of [rquiet] at a given point. *)
Ltac quiet_points :=
  eapply rquiet; [done..| | | |done];
  simpl in *; repeat case_match; zbool; simpl in *; repeat (split || intros || case_match);
  unfold UINT_MAX in *; zbool; lia.

(** Between calls, and when a call returns. *)
Lemma rturn_idle s pts f o h t x more :
  rinv s pts f o h -> pts !! t = Some x -> t ∉ flag_queue f ->
  match x with R _ | A9 _ | AF _ | C8 _ => True | _ => False end -> rgoal s pts t x more.
Proof.
  intros HI Hx Ht Hk. pose proof (rinv_nest _ _ _ _ _ _ _ HI Hx) as Hw.
  pose proof (rinv_run _ _ _ _ _ _ _ HI Hx) as Hr. rewrite bool_decide_true in Hr by done.
  destruct (ri_known _ _ _ _ _ HI _ _ Hx) as [_ Hin].
  assert (rturn ipc_buffer mutex (t, more) s =
          Ok tt {| s with nests := <[t := point_code c mutex (ipc_buffer t) (after x more)]> s.(nests) |}) as Hrun.
  { unfold rturn. rewrite get_bind, assert_bind by done. erewrite deref_bind by done.
    destruct x; try done; simpl in *. destruct more; [by destruct (Z.ltb_spec 0 d) as [|Hd]; [|replace d with 0 by lia]|].
    destruct (0 <? d); [done|]. rewrite insert_id by done. by destruct s. }
  destruct x; try done; quiet_points.
Qed.

(** What the thread reads: whether it owns the mutex, and the count. *)
Lemma rinv_reads s pts f o h t x :
  rinv s pts f o h -> pts !! t = Some x -> t ∉ flag_queue f ->
  can_run t s.(shr).(kern) = true /\ mutex =? NULL = false /\
  (holds x = true -> s.(shr).(mem) !! Owner mutex = Some (owner_at (ipc_buffer t) x) /\
                     s.(shr).(mem) !! Held mutex = Some (held_at x)) /\
  (holds x = false -> exists o, s.(shr).(mem) !! Owner mutex = Some o /\ ipc_buffer t =? o = false).
Proof.
  intros HI Hx Ht. split_and!.
  - erewrite rinv_run by done. by apply bool_decide_eq_true.
  - apply Z.eqb_neq, HI.
  - intros E. destruct (ri_holder _ _ _ _ _ HI _ _ Hx E Ht) as [<- <-]. split; apply HI.
  - intros E. exists o. split; [apply HI|]. by apply Z.eqb_neq, (outsider_owner _ _ _ _ _ _ _ HI Hx).
Qed.

Lemma rturn_taking_reads s pts f o h t x more :
  rinv s pts f o h -> pts !! t = Some x -> t ∉ flag_queue f ->
  match x with A0 | A1 | A3 | A5 | B0 _ | A6 _ | A7 _ => True | _ => False end -> rgoal s pts t x more.
Proof.
  intros HI Hx Ht Hk. pose proof (rinv_nest _ _ _ _ _ _ _ HI Hx) as Hw. pose proof (ri_cptr _ _ _ _ _ HI) as Hc.
  destruct (rinv_reads _ _ _ _ _ _ _ HI Hx Ht) as (Hr & Hm & Hown & Hout). destruct (ri_known _ _ _ _ _ HI _ _ Hx) as [_ Hin].
  assert (rturn ipc_buffer mutex (t, more) s =
          Ok tt {| s with nests := <[t := point_code c mutex (ipc_buffer t) (after x more)]> s.(nests) |}) as Hrun.
  { destruct x; try done; simpl in Hw; unfold sync_recursive_mutex_lock, take_again, count_up in Hw; rewrite ?Hm in Hw;
      try destruct (Hown eq_refl) as [Ho Hh]; try destruct (Hout eq_refl) as (o' & Ho & Hne);
      (erewrite rturn_taking; [|exact Hw|done|done|by erewrite ract_load by done]); simpl; rewrite ?Hne, ?Z.eqb_refl; try done.
    by destruct (d =? UINT_MAX). }
  destruct x; try done; quiet_points.
Qed.

(** Reads on the way out. *)
Lemma rturn_giving_reads s pts f o h t x more :
  rinv s pts f o h -> pts !! t = Some x -> t ∉ flag_queue f ->
  match x with C0 _ | C1 _ | C2 _ | C4 _ | C6 => True | _ => False end -> rgoal s pts t x more.
Proof.
  intros HI Hx Ht Hk. pose proof (rinv_nest _ _ _ _ _ _ _ HI Hx) as Hw. pose proof (ri_cptr _ _ _ _ _ HI) as Hc.
  destruct (rinv_reads _ _ _ _ _ _ _ HI Hx Ht) as (Hr & Hm & Hown & Hout). destruct (ri_known _ _ _ _ _ HI _ _ Hx) as [_ Hin].
  assert (rturn ipc_buffer mutex (t, more) s =
          Ok tt {| s with nests := <[t := point_code c mutex (ipc_buffer t) (after x more)]> s.(nests) |}) as Hrun.
  { destruct x; try done; simpl in Hw, Hin; unfold sync_recursive_mutex_unlock, count_down in Hw; rewrite ?Hm in Hw;
      destruct (Hown eq_refl) as [Ho Hh]; zbool;
      (erewrite rturn_giving; [|exact Hw|done|done|by erewrite ract_load by done]); simpl; rewrite ?Z.eqb_refl; try done.
    - by rewrite (proj2 (Z.ltb_lt 0 d)) by lia.
    - destruct (Z.eqb_spec (d - 1) 0), (Z.eqb_spec d 1); try lia; [by subst | done]. }
  destruct x; try done; quiet_points.
Qed.

(** Writes. *)
Lemma rturn_writes s pts f o h t x more :
  rinv s pts f o h -> pts !! t = Some x -> t ∉ flag_queue f ->
  match x with A4 | A8 _ | C3 _ | C5 => True | _ => False end -> rgoal s pts t x more.
Proof.
  intros HI Hx Ht Hk. pose proof (rinv_nest _ _ _ _ _ _ _ HI Hx) as Hw.
  destruct (rinv_reads _ _ _ _ _ _ _ HI Hx Ht) as (Hr & _ & _). destruct (ri_known _ _ _ _ _ HI _ _ Hx) as [_ Hin].
  destruct x; try done; simpl in Hw, Hin; unfold UINT_MAX in Hin; zbool; eexists _, f, _, _.
  - split; [eapply rturn_taking; [done..|apply ract_store] |]. by apply (rinv_set_owner _ _ _ _ _ _ _ A5 HI Hx).
  - split; [eapply rturn_taking; [done..|apply ract_store] |]. rewrite u32_small by lia.
    apply (rinv_set_held _ _ _ _ _ _ _ (A9 d) _ HI Hx); try done. simpl. unfold UINT_MAX. zbool. lia.
  - split; [eapply rturn_giving; [done..|apply ract_store] |]. rewrite u32_small by lia.
    apply (rinv_set_held _ _ _ _ _ _ _ (C4 d) _ HI Hx); try done. simpl. unfold UINT_MAX. zbool. lia.
  - split; [eapply rturn_giving; [done..|apply ract_store] |]. by apply (rinv_set_owner _ _ _ _ _ _ _ C6 HI Hx).
Qed.

Lemma rturn_ok s pts f o h t x more :
  rinv s pts f o h -> pts !! t = Some x -> t ∉ flag_queue f -> rgoal s pts t x more.
Proof.
  intros HI Hx Ht. destruct x;
    first [by eapply rturn_idle | by eapply rturn_taking_reads | by eapply rturn_giving_reads | by eapply rturn_writes | idtac].
  - destruct (rturn_A2 _ _ _ _ _ _ more HI Hx Ht) as (s' & f' & Hrun & HI'). by exists s', f', o, h.
  - destruct (rturn_C7 _ _ _ _ _ _ more HI Hx Ht) as (s' & f' & Hrun & HI'). by exists s', f', o, h.
Qed.
End Invariant.

(** ** The recursive mutex *)

Section RecursiveMutex.
Context {K : Type} `{Notify K} `{Atomics} `{!NotifyOk K c T}.
Context (ipc_buffer : Z -> Z) (mutex : Z).
(** The comment in [recursive_mutex.h] asks for it: each thread has an IPC buffer of
    its own. *)
Hypothesis buffers_distinct : forall t u, T t -> T u -> ipc_buffer t = ipc_buffer u -> t = u.
Hypothesis buffers_valid : forall t, T t -> ipc_buffer t <> NULL.

Lemma rfresh_inv s : rfresh mutex s -> exists pts f, rinv ipc_buffer mutex s pts f NULL 0.
Proof.
  intros HF. destruct (rf_flag _ _ HF) as [badge Hs]. exists ((fun _ => R 0) <$> s.(nests)), (Active badge).
  assert (forall t x, ((fun _ => R 0) <$> s.(nests)) !! t = Some x -> x = R 0 /\ T t /\ s.(nests) !! t = Some (Rest 0)) as Hall.
  { intros t x (a & <- & Ha)%lookup_fmap_Some. by pose proof (rf_threads _ _ HF _ _ Ha) as [HT ->]. }
  split; try apply HF; try done.
  - apply map_eq. intros t. rewrite map_lookup_imap, lookup_fmap. destruct (s.(nests) !! t) as [a|] eqn:Ha; [|done].
    simpl. by apply (rf_threads _ _ HF) in Ha as [_ ->].
  - intros t x Hx. by destruct (Hall t x Hx) as (-> & HT & _).
  - simpl. unfold count. rewrite (proj2 (map_size_empty_iff _)); [done|]. apply map_empty. intros t.
    apply map_lookup_filter_None. right. intros x Hx. by destruct (Hall t x Hx) as (-> & _).
  - intros t x Hx. by destruct (Hall t x Hx) as (-> & _).
  - intros t Ht. by apply elem_of_nil in Ht.
  - apply NoDup_nil_2.
Qed.

Lemma rinv_point s pts f o h t a : rinv ipc_buffer mutex s pts f o h -> s.(nests) !! t = Some a ->
  exists x, pts !! t = Some x /\ point_code c mutex (ipc_buffer t) x = a.
Proof.
  intros HI. rewrite (ri_threads _ _ _ _ _ _ _ HI), map_lookup_imap. destruct (pts !! t) as [x|]; [|done].
  intros [= <-]. eauto.
Qed.

Lemma rturn_inv s pts f o h tm s' :
  rinv ipc_buffer mutex s pts f o h -> rturn ipc_buffer mutex tm s = Ok tt s' ->
  exists pts' f' o' h', rinv ipc_buffer mutex s' pts' f' o' h'.
Proof.
  destruct tm as [t more]. intros HI Hrun. destruct (can_run t s.(shr).(kern)) eqn:Hr;
    [|unfold rturn in Hrun; rewrite get_bind, Hr in Hrun; done].
  destruct (s.(nests) !! t) as [a|] eqn:Ha; [|unfold rturn in Hrun; rewrite get_bind, Hr, assert_bind, Ha in Hrun; done].
  destruct (rinv_point _ _ _ _ _ _ _ HI Ha) as (x & Hx & _). erewrite rinv_run in Hr by done. apply bool_decide_eq_true in Hr.
  destruct (rturn_ok _ _ buffers_distinct buffers_valid _ _ _ _ _ _ _ more HI Hx Hr) as (s1 & f' & o' & h' & Hrun' & HI').
  rewrite Hrun' in Hrun. injection Hrun as <-. eauto 6.
Qed.

Lemma rrun_inv sched s0 s pts f o h :
  rinv ipc_buffer mutex s0 pts f o h -> for_each sched (rturn ipc_buffer mutex) s0 = Ok tt s ->
  exists pts' f' o' h', rinv ipc_buffer mutex s pts' f' o' h'.
Proof.
  revert s0 pts f o h. induction sched as [|tm sched IH]; intros s0 pts f o h HI Hrun; simpl in Hrun.
  - injection Hrun as <-. eauto 6.
  - apply bind_Ok in Hrun as ([] & s1 & H1 & Hrun). destruct (rturn_inv _ _ _ _ _ _ _ HI H1) as (? & ? & ? & ? & HI').
    by eapply IH.
Qed.

(** C16 Whatever the schedule, at most one thread has locked the recursive mutex more
    often than it has unlocked it, and then owner and count in memory are this thread
    and the number of its locks. *)
Theorem recursive_mutex_exclusion sched s0 s t u d e :
  rfresh mutex s0 -> for_each sched (rturn ipc_buffer mutex) s0 = Ok tt s ->
  s.(nests) !! t = Some (Rest d) -> 0 < d -> s.(nests) !! u = Some (Rest e) -> 0 < e ->
  t = u /\ s.(shr).(mem) !! Owner mutex = Some (ipc_buffer t) /\ s.(shr).(mem) !! Held mutex = Some d.
Proof.
  intros HF Hrun Ht Hd Hu He. destruct (rfresh_inv _ HF) as (pts0 & f0 & HI0).
  destruct (rrun_inv _ _ _ _ _ _ _ HI0 Hrun) as (pts & f & o & h & HI).
  destruct (rinv_point _ _ _ _ _ _ _ HI Ht) as (x & Hx & Ex). destruct (rinv_point _ _ _ _ _ _ _ HI Hu) as (y & Hy & Ey).
  destruct x; try done. destruct y; try done. simpl in Ex, Ey. injection Ex as ->. injection Ey as ->.
  assert (forall w z, pts !! w = Some (R z) -> w ∉ flag_queue f) as Hq.
  { intros w z Hw Hin%(ri_queue _ _ _ _ _ _ _ HI). congruence. }
  assert (holds (R d) = true /\ holds (R e) = true) as [Hhd Hhe] by (simpl; by rewrite !Z.ltb_lt).
  destruct (holder_unique _ _ _ _ _ _ _ _ _ _ _ HI Hx Hhd (Hq _ _ Hx) Hy Hhe (Hq _ _ Hy)) as [-> _].
  destruct (ri_holder _ _ _ _ _ _ _ HI _ _ Hx Hhd (Hq _ _ Hx)) as [-> ->].
  split_and!; [done | apply HI | apply HI].
Qed.

(** C32 Every step of a thread that is not blocked succeeds, whatever the schedule
    before: none of the four assertions of [recursive_mutex.c] can fail, neither after
    [seL4_Wait] nor in [sync_recursive_mutex_unlock], and the count never wraps. *)
Theorem recursive_mutex_never_stuck sched s0 s t a more :
  rfresh mutex s0 -> for_each sched (rturn ipc_buffer mutex) s0 = Ok tt s ->
  s.(nests) !! t = Some a -> can_run t s.(shr).(kern) = true ->
  exists s', rturn ipc_buffer mutex (t, more) s = Ok tt s'.
Proof.
  intros HF Hrun Ha Hr. destruct (rfresh_inv _ HF) as (pts0 & f0 & HI0).
  destruct (rrun_inv _ _ _ _ _ _ _ HI0 Hrun) as (pts & f & o & h & HI).
  destruct (rinv_point _ _ _ _ _ _ _ HI Ha) as (x & Hx & _). erewrite rinv_run in Hr by done. apply bool_decide_eq_true in Hr.
  destruct (rturn_ok _ _ buffers_distinct buffers_valid _ _ _ _ _ _ _ more HI Hx Hr) as (s1 & _ & _ & _ & Hrun' & _).
  by exists s1.
Qed.
End RecursiveMutex.

(** ** A concrete system

    The threads of [SyncKernel.bank] with a recursive mutex at 3000, after
    [sync_recursive_mutex_init] has been run. *)

#[local] Existing Instance no_reply_caps.
#[local] Existing Instance flat_caps.
#[local] Existing Instance ints.

Definition init_run : result (shared kernel * gmap Z prog) unit :=
  for_each [1; 1; 1; 1; 1] tick
    (Shared bank_memory bank_kernel, {[1 := sync_recursive_mutex_init 3000 100]}).

Definition office : nesters kernel :=
  Nesters (final init_run (Shared ∅ bank_kernel, ∅)).1 (<[1 := Rest 0]> (<[2 := Rest 0]> {[3 := Rest 0]})).

Definition buffer (t : Z) : Z := 10000 + 4096 * t.

Lemma office_fresh : rfresh (c := 100) (T := customers) 3000 office.
Proof.
  split; [done | by vm_compute..| |].
  - destruct (kernel_signal_sees 100 customers bank_kernel Idle) as (k' & f' & Hrun & [badge ->] & Hs).
    + exact (fresh_flag _ _ bank_fresh).
    + exists badge. enough (office.(shr).(kern) = k') as -> by done.
      assert (ntfn_signal 100 bank_kernel = Ok tt office.(shr).(kern)) as E by (vm_compute; reflexivity). congruence.
  - intros t a. simpl. rewrite !lookup_insert_Some, lookup_singleton_Some. unfold customers.
    rewrite !elem_of_cons. naive_solver.
Qed.

Lemma buffer_distinct t u : customers t -> customers u -> buffer t = buffer u -> t = u.
Proof. unfold buffer. lia. Qed.

Lemma buffer_valid t : customers t -> buffer t <> NULL.
Proof.
  unfold customers, buffer, NULL. rewrite !elem_of_cons, elem_of_nil. intros [->|[->|[->|[]]]]; lia.
Qed.

(** Thread 1 locks twice while thread 2 waits. *)
Definition twice : list (Z * bool) :=
  repeat (1, true) 11 ++ repeat (2, true) 4 ++ repeat (1, true) 6.

Definition noon : nesters kernel := final (for_each twice (rturn buffer 3000) office) office.

Lemma noon_run : for_each twice (rturn buffer 3000) office = Ok tt noon.
Proof. apply (value_final _ _ office). by vm_compute. Qed.

Lemma recursive_mutex_exclusion_witness :
  noon.(nests) !! 1 = Some (Rest 2) /\
  1 = 1 /\ noon.(shr).(mem) !! Owner 3000 = Some (buffer 1) /\ noon.(shr).(mem) !! Held 3000 = Some 2.
Proof.
  split; [by vm_compute|].
  apply (recursive_mutex_exclusion buffer 3000 buffer_distinct buffer_valid twice office noon 1 1 2 2 office_fresh noon_run);
    by vm_compute.
Defined.

Lemma recursive_mutex_never_stuck_witness : exists s', rturn buffer 3000 (1, false) noon = Ok tt s'.
Proof.
  apply (recursive_mutex_never_stuck buffer 3000 buffer_distinct buffer_valid twice office noon 1 (Rest 2) false
    office_fresh noon_run); by vm_compute.
Defined.
