(* ===== verification/Sched.v ===== *)
(** * The scheduler of the kernel

    One ready queue for each domain and priority, threaded through the threads,
    and two levels of bitmaps that say which queues have a thread:
    [tcbSchedEnqueue], [tcbSchedAppend] and [tcbSchedDequeue] of
    [src/kernel/src/object/tcb.c], the index arithmetic of
    [src/kernel/include/kernel/thread.h], and the scheduler itself,
    [src/kernel/src/kernel/thread.c]: what a wakeup asks for
    ([possibleSwitchTo]), the tick of the timer, domains, and [schedule], which
    every entry of the kernel ends with.

    The state is what the scheduler has of the threads ([tcb_t]) and of
    [NODE_STATE]; one core, as the server is configured.  The number of domains,
    their schedule and the length of a time slice are build options.  The
    registers, the address space that [Arch_switchToThread] loads and the queues
    of endpoints ([Ntfn]) are not part of it. *)
From S2P Require Import Prelude Ntfn.

(** ** Configuration *)

(** [dschedule_t]. *)
Record dschedule := Dschedule { domain : Z; length_ : Z }.

Class Config := {
  CONFIG_NUM_DOMAINS : Z;
  CONFIG_TIME_SLICE : Z;
  ksDomSchedule : list dschedule;
}.

Definition CONFIG_NUM_PRIORITIES : Z := 256.
Definition wordRadix : Z := 6.
Definition wordBits : Z := Z.shiftl 1 wordRadix.
Definition L2_BITMAP_SIZE : Z := (CONFIG_NUM_PRIORITIES + wordBits - 1) / wordBits.

(** The options of the server's build: one domain. *)
Definition aos_config : Config := {|
  CONFIG_NUM_DOMAINS := 1;
  CONFIG_TIME_SLICE := 5;
  ksDomSchedule := [Dschedule 0 1];
|}.

(** ** State *)

(** [tcb_t], as far as scheduling goes. *)
Record sthread := Sthread {
  tsType : thread_state;
  tcbQueued : bool;
  tcbDomain : Z;
  tcbMCP : Z;
  tcbPriority : Z;
  tcbTimeSlice : Z;
  tcbSchedNext : Z;
  tcbSchedPrev : Z;
}.

(** [ksSchedulerAction]: two small numbers or the address of a thread. *)
Inductive action : Type :=
| ResumeCurrentThread
| ChooseNewThread
| SwitchTo (candidate : Z).

#[global] Instance action_eq_dec : EqDecision action.
Proof. solve_decision. Defined.

Record sched := MkSched {
  sthreads : gmap Z sthread;
  ksReadyQueues : gmap Z tcb_queue;
  ksReadyQueuesL1Bitmap : gmap Z Z;
  ksReadyQueuesL2Bitmap : gmap (Z * Z) Z;
  ksCurThread : Z;
  ksIdleThread : Z;
  ksSchedulerAction : action;
  ksCurDomain : Z;
  ksDomainTime : Z;
  ksDomScheduleIdx : Z;
  ksWorkUnitsCompleted : Z;
}.

Definition thread_at (t : Z) : M sched sthread := s ← get; deref (s.(sthreads) !! t).
Definition thread_modify (t : Z) (f : sthread -> sthread) : M sched unit :=
  x ← thread_at t;
  modify (fun s => {| s with sthreads := <[t := f x]> s.(sthreads) |}).

Definition set_action (a : action) : M sched unit := modify (fun s => {| s with ksSchedulerAction := a |}).
Definition set_queue (idx : Z) (q : tcb_queue) : M sched unit :=
  modify (fun s => {| s with ksReadyQueues := <[idx := q]> s.(ksReadyQueues) |}).
Definition set_l1 (dom w : Z) : M sched unit :=
  modify (fun s => {| s with ksReadyQueuesL1Bitmap := <[dom := w]> s.(ksReadyQueuesL1Bitmap) |}).
Definition set_l2 (dom i w : Z) : M sched unit :=
  modify (fun s => {| s with ksReadyQueuesL2Bitmap := <[(dom, i) := w]> s.(ksReadyQueuesL2Bitmap) |}).

Definition get_queue (idx : Z) : M sched tcb_queue := s ← get; deref (s.(ksReadyQueues) !! idx).
Definition get_l1 (dom : Z) : M sched Z := s ← get; deref (s.(ksReadyQueuesL1Bitmap) !! dom).
Definition get_l2 (dom i : Z) : M sched Z := s ← get; deref (s.(ksReadyQueuesL2Bitmap) !! (dom, i)).

Definition setSchedNext (t n : Z) : M sched unit := thread_modify t (fun x => {| x with tcbSchedNext := n |}).
Definition setSchedPrev (t p : Z) : M sched unit := thread_modify t (fun x => {| x with tcbSchedPrev := p |}).
Definition set_tcbQueued (t : Z) (b : bool) : M sched unit := thread_modify t (fun x => {| x with tcbQueued := b |}).

(** ** Bitmaps *)

Definition BIT (n : Z) : Z := u64 (Z.shiftl 1 n).
Definition MASK (n : Z) : Z := u64 (BIT n - 1).

(** [__builtin_clzl] for a word that is not zero. *)
Definition clzl (x : Z) : Z := wordBits - 1 - Z.log2 x.

Definition prio_to_l1index (prio : Z) : Z := Z.shiftr prio wordRadix.
Definition l1index_to_prio (l1index : Z) : Z := u64 (Z.shiftl l1index wordRadix).

Definition invert_l1index (l1index : Z) : M sched Z :=
  let inverted := u64 (L2_BITMAP_SIZE - 1 - l1index) in
  assert (inverted <? L2_BITMAP_SIZE);;
  mret inverted.

Definition addToBitmap (dom prio : Z) : M sched unit :=
  let l1index := prio_to_l1index prio in
  l1index_inverted ← invert_l1index l1index;
  w1 ← get_l1 dom;
  set_l1 dom (Z.lor w1 (BIT l1index));;
  w2 ← get_l2 dom l1index_inverted;
  set_l2 dom l1index_inverted (Z.lor w2 (BIT (Z.land prio (MASK wordRadix)))).

Definition removeFromBitmap (dom prio : Z) : M sched unit :=
  let l1index := prio_to_l1index prio in
  l1index_inverted ← invert_l1index l1index;
  w2 ← get_l2 dom l1index_inverted;
  set_l2 dom l1index_inverted (Z.land w2 (u64 (Z.lnot (BIT (Z.land prio (MASK wordRadix))))));;
  w2' ← get_l2 dom l1index_inverted;
  when (negb (nz w2'))
    (w1 ← get_l1 dom;
     set_l1 dom (Z.land w1 (u64 (Z.lnot (BIT l1index))))).

Definition getHighestPrio (dom : Z) : M sched Z :=
  w1 ← get_l1 dom;
  assert (nz w1);;
  let l1index := wordBits - 1 - clzl w1 in
  l1index_inverted ← invert_l1index l1index;
  w2 ← get_l2 dom l1index_inverted;
  assert (nz w2);;
  let l2index := wordBits - 1 - clzl w2 in
  mret (Z.lor (l1index_to_prio l1index) l2index).

Definition isHighestPrio (dom prio : Z) : M sched bool :=
  w1 ← get_l1 dom;
  if w1 =? 0 then mret true
  else
    p ← getHighestPrio dom;
    mret (p <=? prio).

Section scheduler.
Context `{!Config}.

Definition ready_queues_index (dom prio : Z) : M sched Z :=
  if 1 <? CONFIG_NUM_DOMAINS then mret (u64 (dom * CONFIG_NUM_PRIORITIES + prio))
  else assert (dom =? 0);; mret prio.

(** ** Ready queues *)

Definition tcbSchedEnqueue (tcb : Z) : M sched unit :=
  x ← thread_at tcb;
  when (negb x.(tcbQueued))
    (let dom := x.(tcbDomain) in
     let prio := x.(tcbPriority) in
     idx ← ready_queues_index dom prio;
     queue ← get_queue idx;
     (if negb (nz queue.(end_)) then addToBitmap dom prio
      else setSchedPrev queue.(head) tcb);;
     setSchedPrev tcb 0;;
     setSchedNext tcb queue.(head);;
     set_queue idx (Queue tcb (if nz queue.(end_) then queue.(end_) else tcb));;
     set_tcbQueued tcb true).

Definition tcbSchedAppend (tcb : Z) : M sched unit :=
  x ← thread_at tcb;
  when (negb x.(tcbQueued))
    (let dom := x.(tcbDomain) in
     let prio := x.(tcbPriority) in
     idx ← ready_queues_index dom prio;
     queue ← get_queue idx;
     (if negb (nz queue.(head)) then addToBitmap dom prio
      else setSchedNext queue.(end_) tcb);;
     setSchedPrev tcb queue.(end_);;
     setSchedNext tcb 0;;
     set_queue idx (Queue (if nz queue.(head) then queue.(head) else tcb) tcb);;
     set_tcbQueued tcb true).

Definition tcbSchedDequeue (tcb : Z) : M sched unit :=
  x ← thread_at tcb;
  when x.(tcbQueued)
    (let dom := x.(tcbDomain) in
     let prio := x.(tcbPriority) in
     idx ← ready_queues_index dom prio;
     queue ← get_queue idx;
     h ← (if nz x.(tcbSchedPrev)
          then setSchedNext x.(tcbSchedPrev) x.(tcbSchedNext);; mret queue.(head)
          else when (negb (nz x.(tcbSchedNext))) (removeFromBitmap dom prio);;
               mret x.(tcbSchedNext));
     y ← thread_at tcb;
     e ← (if nz y.(tcbSchedNext)
          then setSchedPrev y.(tcbSchedNext) y.(tcbSchedPrev);; mret queue.(end_)
          else mret y.(tcbSchedPrev));
     set_queue idx (Queue h e);;
     set_tcbQueued tcb false).

(** ** Choosing a thread *)

Definition isRunnable (x : sthread) : bool :=
  match x.(tsType) with Running | Restart => true | _ => false end.

Definition isBlocked (x : sthread) : bool :=
  match x.(tsType) with
  | Inactive | BlockedOnReceive | BlockedOnSend | BlockedOnNotification | BlockedOnReply => true
  | _ => false
  end.

Definition switchToThread (thread : Z) : M sched unit :=
  tcbSchedDequeue thread;;
  modify (fun s => {| s with ksCurThread := thread |}).

Definition switchToIdleThread : M sched unit :=
  modify (fun s => {| s with ksCurThread := s.(ksIdleThread) |}).

Definition chooseThread : M sched unit :=
  s ← get;
  let dom := if 1 <? CONFIG_NUM_DOMAINS then s.(ksCurDomain) else 0 in
  w ← get_l1 dom;
  if nz w then
    prio ← getHighestPrio dom;
    idx ← ready_queues_index dom prio;
    queue ← get_queue idx;
    let thread := queue.(head) in
    assert (nz thread);;
    x ← thread_at thread;
    assert (isRunnable x);;
    switchToThread thread
  else switchToIdleThread.

Definition nextDomain : M sched unit :=
  s ← get;
  let i := u64 (s.(ksDomScheduleIdx) + 1) in
  let i' := if Z.of_nat (length ksDomSchedule) <=? i then 0 else i in
  d ← deref (ksDomSchedule !! Z.to_nat i');
  modify (fun s => {| s with ksDomScheduleIdx := i'; ksWorkUnitsCompleted := 0;
                             ksCurDomain := d.(domain); ksDomainTime := d.(length_) |}).

Definition scheduleChooseNewThread : M sched unit :=
  s ← get;
  when (s.(ksDomainTime) =? 0) nextDomain;;
  chooseThread.

Definition schedule : M sched unit :=
  s ← get;
  when (bool_decide (s.(ksSchedulerAction) <> ResumeCurrentThread))
    (cur ← thread_at s.(ksCurThread);
     let was_runnable := isRunnable cur in
     when was_runnable (tcbSchedEnqueue s.(ksCurThread));;
     match s.(ksSchedulerAction) with
     | SwitchTo candidate =>
         c ← thread_at candidate;
         let fastfail := (s.(ksCurThread) =? s.(ksIdleThread)) || (c.(tcbPriority) <? cur.(tcbPriority)) in
         fail ← (if fastfail then (b ← isHighestPrio s.(ksCurDomain) c.(tcbPriority); mret (negb b)) else mret false);
         if (fail : bool) then
           tcbSchedEnqueue candidate;;
           set_action ChooseNewThread;;
           scheduleChooseNewThread
         else if was_runnable && (c.(tcbPriority) =? cur.(tcbPriority)) then
           tcbSchedAppend candidate;;
           set_action ChooseNewThread;;
           scheduleChooseNewThread
         else
           assert (negb (candidate =? s.(ksCurThread)));;
           switchToThread candidate
     | _ => scheduleChooseNewThread
     end);;
  set_action ResumeCurrentThread.

(** ** Asking for another thread *)

Definition rescheduleRequired : M sched unit :=
  s ← get;
  match s.(ksSchedulerAction) with
  | SwitchTo t => tcbSchedEnqueue t
  | _ => mret tt
  end;;
  set_action ChooseNewThread.

Definition possibleSwitchTo (target : Z) : M sched unit :=
  s ← get;
  x ← thread_at target;
  if negb (s.(ksCurDomain) =? x.(tcbDomain)) then tcbSchedEnqueue target
  else if bool_decide (s.(ksSchedulerAction) <> ResumeCurrentThread) then
    rescheduleRequired;;
    tcbSchedEnqueue target
  else set_action (SwitchTo target).

Definition scheduleTCB (tptr : Z) : M sched unit :=
  s ← get;
  x ← thread_at tptr;
  when ((tptr =? s.(ksCurThread)) && bool_decide (s.(ksSchedulerAction) = ResumeCurrentThread) && negb (isRunnable x))
    rescheduleRequired.

Definition setThreadState (tptr : Z) (ts : thread_state) : M sched unit :=
  thread_modify tptr (fun x => {| x with tsType := ts |});;
  scheduleTCB tptr.

Definition timerTick : M sched unit :=
  s ← get;
  cur ← thread_at s.(ksCurThread);
  when (bool_decide (cur.(tsType) = Running))
    (if 1 <? cur.(tcbTimeSlice)
     then thread_modify s.(ksCurThread) (fun x => {| x with tcbTimeSlice := x.(tcbTimeSlice) - 1 |})
     else
       thread_modify s.(ksCurThread) (fun x => {| x with tcbTimeSlice := CONFIG_TIME_SLICE |});;
       tcbSchedAppend s.(ksCurThread);;
       rescheduleRequired);;
  when (1 <? CONFIG_NUM_DOMAINS)
    (modify (fun s => {| s with ksDomainTime := u64 (s.(ksDomainTime) - 1) |});;
     s' ← get;
     when (s'.(ksDomainTime) =? 0) rescheduleRequired).

Definition handleYield : M sched unit :=
  s ← get;
  tcbSchedDequeue s.(ksCurThread);;
  tcbSchedAppend s.(ksCurThread);;
  rescheduleRequired.

(** ** Changing a thread *)

Definition setDomain (tptr dom : Z) : M sched unit :=
  tcbSchedDequeue tptr;;
  thread_modify tptr (fun x => {| x with tcbDomain := dom |});;
  x ← thread_at tptr;
  when (isRunnable x) (tcbSchedEnqueue tptr);;
  s ← get;
  when (tptr =? s.(ksCurThread)) rescheduleRequired.

Definition setMCPriority (tptr mcp : Z) : M sched unit :=
  thread_modify tptr (fun x => {| x with tcbMCP := mcp |}).

Definition setPriority (tptr prio : Z) : M sched unit :=
  tcbSchedDequeue tptr;;
  thread_modify tptr (fun x => {| x with tcbPriority := prio |});;
  x ← thread_at tptr;
  when (isRunnable x)
    (tcbSchedEnqueue tptr;;
     rescheduleRequired).

(** Of [cancelIPC] only the state in which it leaves the thread is seen here; the
    queue that the thread leaves is in [Ntfn]. *)
Definition cancelIPC_state (tptr : Z) : M sched unit :=
  x ← thread_at tptr;
  match x.(tsType) with
  | BlockedOnSend | BlockedOnReceive | BlockedOnNotification => setThreadState tptr Inactive
  | _ => mret tt
  end.

Definition suspend (target : Z) : M sched unit :=
  cancelIPC_state target;;
  setThreadState target Inactive;;
  tcbSchedDequeue target.

Definition restart (target : Z) : M sched unit :=
  x ← thread_at target;
  when (isBlocked x)
    (cancelIPC_state target;;
     setThreadState target Restart;;
     tcbSchedEnqueue target;;
     possibleSwitchTo target).

Definition activateThread : M sched unit :=
  s ← get;
  x ← thread_at s.(ksCurThread);
  match x.(tsType) with
  | Running => mret tt
  | Restart => setThreadState s.(ksCurThread) Running
  | IdleThreadState => mret tt
  | _ => assert false
  end.

(** [for (; thread; ...)] of [cancelAllSignals] and [cancelAllIPC]: all the
    threads of a queue start again. *)
Definition restart_all (queue : list Z) : M sched unit :=
  for_each queue (fun thread => setThreadState thread Restart;; tcbSchedEnqueue thread);;
  rescheduleRequired.

(** ** Entries of the kernel *)

(** What signals, messages and replies do with threads: one is let go, or the
    current thread stops to wait. *)
Inductive deed : Type :=
| Unblock (t : Z)
| Block (ts : thread_state).

Definition do_deed (d : deed) : M sched unit :=
  match d with
  | Unblock t => setThreadState t Running;; possibleSwitchTo t
  | Block ts => s ← get; setThreadState s.(ksCurThread) ts
  end.

Inductive entry : Type :=
| Ipc (deeds : list deed)
| Tick
| Yield
| SetPriority (t prio : Z)
| SetMCPriority (t mcp : Z)
| Suspend (t : Z)
| Resume (t : Z)
| CancelAll (queue : list Z).

Definition handle (e : entry) : M sched unit :=
  match e with
  | Ipc ds => for_each ds do_deed
  | Tick => timerTick
  | Yield => handleYield
  | SetPriority t p => setPriority t p
  | SetMCPriority t p => setMCPriority t p
  | Suspend t => suspend t
  | Resume t => restart t
  | CancelAll q => restart_all q
  end.

Definition kernel_entry (e : entry) : M sched unit :=
  handle e;;
  schedule;;
  activateThread.

End scheduler.
