(* ===== verification/SchedSpec.v ===== *)
(** * What the scheduler's data mean

    The board of the scheduler: for each domain and priority a list of threads
    that are ready, the thread that runs, and what was asked for.  The pointers
    and bitmaps of [Sched] implement it; the operations of the board say what
    those of the kernel do. *)
From S2P Require Import Prelude Dlist Ntfn Sched.

#[global] Program Instance sthread_linked : Linked sthread := {|
  link x := (x.(tcbSchedNext), x.(tcbSchedPrev));
  with_next n x := {| x with tcbSchedNext := n |};
  with_prev p x := {| x with tcbSchedPrev := p |};
|}.
Solve Obligations with done.

(** What the build options have to satisfy; [create_domain_cap] checks most of it
    at boot. *)
Class ConfigOk `{!Config} := {
  config_domains : 1 <= CONFIG_NUM_DOMAINS;
  config_queues : CONFIG_NUM_DOMAINS * CONFIG_NUM_PRIORITIES <= 2 ^ 64;
  config_schedule : 0 < Z.of_nat (length ksDomSchedule) < 2 ^ 64;
  config_domain d : d ∈ ksDomSchedule -> 0 <= d.(domain) < CONFIG_NUM_DOMAINS;
}.

(** ** The board *)

Record info := Info {
  i_state : thread_state;
  i_dom : Z;
  i_mcp : Z;
  i_prio : Z;
  i_slice : Z;
}.

Definition key (i : info) : Z * Z := (i.(i_dom), i.(i_prio)).
Definition runnable (i : info) : bool := match i.(i_state) with Running | Restart => true | _ => false end.
Definition blocked_state (ts : thread_state) : bool :=
  match ts with
  | Inactive | BlockedOnReceive | BlockedOnSend | BlockedOnNotification | BlockedOnReply => true
  | _ => false
  end.
Definition blocked (i : info) : bool := blocked_state i.(i_state).

Record board := Board {
  folk : gmap Z info;
  line : Z * Z -> list Z;
  now : Z;
  idler : Z;
  act : action;
  dom_now : Z;
  dom_left : Z;
  dom_slot : Z;
}.

Definition put (k : Z * Z) (l : list Z) (f : Z * Z -> list Z) : Z * Z -> list Z :=
  fun k' => if decide (k' = k) then l else f k'.

Lemma put_eq k l f : put k l f k = l.
Proof. unfold put. by rewrite decide_True. Qed.
Lemma put_ne k l f k' : k' <> k -> put k l f k' = f k'.
Proof. intros H. unfold put. by rewrite decide_False. Qed.

(** The highest priority with a thread that is ready. *)
Definition top (f : Z * Z -> list Z) (d : Z) : option Z :=
  last (filter (fun p => f (d, p) <> []) (zseq 0 256)).

Definition with_line (t : Z) (g : list Z -> list Z) (B : board) : board :=
  match B.(folk) !! t with
  | Some i => {| B with line := put (key i) (g (B.(line) (key i))) B.(line) |}
  | None => B
  end.

Definition in_line (t : Z) (B : board) : bool :=
  match B.(folk) !! t with Some i => bool_decide (t ∈ B.(line) (key i)) | None => true end.

Definition enqueue (t : Z) (B : board) : board := if in_line t B then B else with_line t (cons t) B.
Definition append (t : Z) (B : board) : board := if in_line t B then B else with_line t (fun l => l ++ [t]) B.
Definition dequeue (t : Z) (B : board) : board := if in_line t B then with_line t (remove t) B else B.

Definition change (t : Z) (f : info -> info) (B : board) : board := {| B with folk := alter f t B.(folk) |}.
Definition asked (a : action) (B : board) : board := {| B with act := a |}.

Definition run_thread (t : Z) (B : board) : board :=
  let B' := dequeue t B in {| B' with now := t |}.

Section board.
Context `{!Config}.

Definition next_domain (B : board) : board :=
  let i := if Z.of_nat (length ksDomSchedule) <=? B.(dom_slot) + 1 then 0 else B.(dom_slot) + 1 in
  match ksDomSchedule !! Z.to_nat i with
  | Some d => {| B with dom_slot := i; dom_now := d.(domain); dom_left := d.(length_) |}
  | None => B
  end.

(** The first thread of the highest priority, or the idle thread. *)
Definition choose (B : board) : board :=
  match top B.(line) B.(dom_now) with
  | Some p =>
      match B.(line) (B.(dom_now), p) with
      | t :: _ => run_thread t B
      | [] => B
      end
  | None => {| B with now := B.(idler) |}
  end.

Definition choose_new (B : board) : board :=
  choose (if B.(dom_left) =? 0 then next_domain B else B).

Definition prio_of (t : Z) (B : board) : Z := match B.(folk) !! t with Some i => i.(i_prio) | None => 0 end.
Definition is_runnable (t : Z) (B : board) : bool := match B.(folk) !! t with Some i => runnable i | None => false end.
Definition is_top (p : Z) (B : board) : bool :=
  match top B.(line) B.(dom_now) with Some h => h <=? p | None => true end.

Definition elect (B : board) : board :=
  let was := is_runnable B.(now) B in
  let B1 := if was then enqueue B.(now) B else B in
  asked ResumeCurrentThread
    match B.(act) with
    | ResumeCurrentThread => B
    | ChooseNewThread => choose_new B1
    | SwitchTo c =>
        if ((B.(now) =? B.(idler)) || (prio_of c B <? prio_of B.(now) B)) && negb (is_top (prio_of c B) B1)
        then choose_new (asked ChooseNewThread (enqueue c B1))
        else if was && (prio_of c B =? prio_of B.(now) B)
        then choose_new (asked ChooseNewThread (append c B1))
        else run_thread c B1
    end.

Definition resched (B : board) : board :=
  asked ChooseNewThread match B.(act) with SwitchTo t => enqueue t B | _ => B end.

Definition dom_of (t : Z) (B : board) : Z := match B.(folk) !! t with Some i => i.(i_dom) | None => 0 end.

Definition possible (t : Z) (B : board) : board :=
  if negb (B.(dom_now) =? dom_of t B) then enqueue t B
  else match B.(act) with
  | ResumeCurrentThread => asked (SwitchTo t) B
  | _ => enqueue t (resched B)
  end.

Definition become (ts : thread_state) (i : info) : info := {| i with i_state := ts |}.

Definition set_state (t : Z) (ts : thread_state) (B : board) : board :=
  let B' := change t (become ts) B in
  if (t =? B.(now)) && bool_decide (B.(act) = ResumeCurrentThread) && negb (is_runnable t B')
  then resched B' else B'.

Definition state_of (t : Z) (B : board) : thread_state :=
  match B.(folk) !! t with Some i => i.(i_state) | None => Inactive end.
Definition slice_of (t : Z) (B : board) : Z := match B.(folk) !! t with Some i => i.(i_slice) | None => 0 end.

Definition tick (B : board) : board :=
  let t := B.(now) in
  let B1 :=
    if bool_decide (state_of t B = Running) then
      if 1 <? slice_of t B then change t (fun i => {| i with i_slice := i.(i_slice) - 1 |}) B
      else resched (append t (change t (fun i => {| i with i_slice := CONFIG_TIME_SLICE |}) B))
    else B in
  if 1 <? CONFIG_NUM_DOMAINS then
    let B2 := {| B1 with dom_left := u64 (B1.(dom_left) - 1) |} in
    if B2.(dom_left) =? 0 then resched B2 else B2
  else B1.

Definition yield (B : board) : board := resched (append B.(now) (dequeue B.(now) B)).

Definition set_prio (t p : Z) (B : board) : board :=
  let B' := change t (fun i => {| i with i_prio := p |}) (dequeue t B) in
  if is_runnable t B' then resched (enqueue t B') else B'.

Definition set_domain (t d : Z) (B : board) : board :=
  let B' := change t (fun i => {| i with i_dom := d |}) (dequeue t B) in
  let B2 := if is_runnable t B' then enqueue t B' else B' in
  if t =? B2.(now) then resched B2 else B2.

Definition cancel_state (t : Z) (B : board) : board :=
  match state_of t B with
  | BlockedOnSend | BlockedOnReceive | BlockedOnNotification => set_state t Inactive B
  | _ => B
  end.

Definition stop (t : Z) (B : board) : board := dequeue t (set_state t Inactive (cancel_state t B)).

Definition start (t : Z) (B : board) : board :=
  if blocked_state (state_of t B) && bool_decide (is_Some (B.(folk) !! t))
  then possible t (enqueue t (set_state t Restart (cancel_state t B)))
  else B.

Definition activate (B : board) : board :=
  match state_of B.(now) B with Restart => set_state B.(now) Running B | _ => B end.

Definition start_all (q : list Z) (B : board) : board :=
  resched (foldl (fun B t => enqueue t (set_state t Restart B)) B q).

Definition deed_on (B : board) (d : deed) : board :=
  match d with
  | Unblock t => possible t (set_state t Running B)
  | Block ts => set_state B.(now) ts B
  end.

Definition handle_on (e : entry) (B : board) : board :=
  match e with
  | Ipc ds => foldl deed_on B ds
  | Tick => tick B
  | Yield => yield B
  | SetPriority t p => set_prio t p B
  | SetMCPriority t p => change t (fun i => {| i with i_mcp := p |}) B
  | Suspend t => stop t B
  | Resume t => start t B
  | CancelAll q => start_all q B
  end.

(** ** What can be asked *)

Definition is_blocked (t : Z) (B : board) : bool := match B.(folk) !! t with Some i => blocked i | None => false end.

Fixpoint targets (ds : list deed) : list Z :=
  match ds with
  | [] => []
  | Unblock t :: ds' => t :: targets ds'
  | Block _ :: ds' => targets ds'
  end.

(** Only threads that wait are let go; the idle thread never calls the kernel and
    is never the object of a call. *)
Definition may (e : entry) (B : board) : bool :=
  match e with
  | Ipc ds =>
      bool_decide (NoDup (targets ds)) && forallb (fun t => is_blocked t B) (targets ds) &&
      forallb (fun d => match d with Unblock _ => true | Block ts => blocked_state ts && negb (B.(now) =? B.(idler)) end) ds
  | Tick => true
  | Yield => negb (B.(now) =? B.(idler))
  | SetPriority t p => bool_decide (is_Some (B.(folk) !! t)) && negb (t =? B.(idler)) && (0 <=? p) && (p <? 256)
  | SetMCPriority t _ => bool_decide (is_Some (B.(folk) !! t))
  | Suspend t => bool_decide (is_Some (B.(folk) !! t)) && negb (t =? B.(idler))
  | Resume t => bool_decide (is_Some (B.(folk) !! t))
  | CancelAll q => bool_decide (NoDup q) && forallb (fun t => is_blocked t B) q
  end.

Definition entry_on (e : entry) (B : board) : board := activate (elect (handle_on e B)).

End board.
