(* ===== verification/SchedRefine.v ===== *)
(** * The scheduler refines its board

    The bitmaps find the highest priority with a ready thread, the pointers are
    the lists of the board, and each operation of [Sched] is the operation of the
    board of [SchedSpec]: it returns, no assertion fails, no pointer is null. *)
From S2P Require Import Prelude Dlist Ntfn Sched SchedSpec.

(** ** Words as sets of numbers *)

Lemma BIT_pow i : 0 <= i < 64 -> BIT i = 2 ^ i.
Proof.
  intros H. unfold BIT. rewrite Z.shiftl_mul_pow2 by lia. rewrite Z.mul_1_l. apply u64_small.
  split; [lia|]. apply Z.pow_lt_mono_r; lia.
Qed.

Lemma BIT_bits i j : 0 <= i < 64 -> Z.testbit (BIT i) j = (i =? j).
Proof. intros H. rewrite BIT_pow by done. apply Z.pow2_bits_eqb. lia. Qed.

Lemma unset_bits w i j :
  0 <= i < 64 -> 0 <= j < 64 ->
  Z.testbit (Z.land w (u64 (Z.lnot (BIT i)))) j = Z.testbit w j && negb (i =? j).
Proof.
  intros Hi Hj. rewrite Z.land_spec. f_equal. unfold u64, wrap. rewrite Z.mod_pow2_bits_low by lia.
  rewrite Z.lnot_spec by lia. by rewrite BIT_bits.
Qed.

Lemma word_lor a b : 0 <= a < 2 ^ 64 -> 0 <= b < 2 ^ 64 -> 0 <= Z.lor a b < 2 ^ 64.
Proof.
  intros Ha Hb. assert (0 <= Z.lor a b) by (apply Z.lor_nonneg; lia). split; [done|].
  destruct (decide (Z.lor a b = 0)) as [->|Hn]; [lia|]. apply Z.log2_lt_pow2; [lia|]. rewrite Z.log2_lor by lia.
  assert (forall c, 0 <= c < 2 ^ 64 -> Z.log2 c < 64) as Hlog.
  { intros c Hc. destruct (decide (c = 0)) as [->|]; [done|]. apply Z.log2_lt_pow2; lia. }
  apply Z.max_lub_lt; by apply Hlog.
Qed.

Lemma word_land a b : 0 <= a < 2 ^ 64 -> 0 <= Z.land a b < 2 ^ 64.
Proof.
  intros Ha. assert (0 <= Z.land a b) by (apply Z.land_nonneg; lia). split; [done|].
  assert (Z.land a b <= a); [|lia]. assert (Z.ldiff a (Z.land a b) = a - Z.land a b) as E.
  - symmetry. apply Z.sub_nocarry_ldiff, Z.bits_inj'. intros n _. rewrite Z.ldiff_spec, Z.land_spec, Z.bits_0.
    by destruct (Z.testbit a n), (Z.testbit b n).
  - pose proof (Z.ldiff_nonneg a (Z.land a b)). lia.
Qed.

Lemma word_bit_range w i : 0 <= w < 2 ^ 64 -> Z.testbit w i = true -> 0 <= i < 64.
Proof.
  intros Hw Hi. assert (0 <= i) as H0 by (destruct (Z.neg_nonneg_cases i); [by rewrite Z.testbit_neg_r in Hi | done]).
  split; [done|]. destruct (Z.lt_ge_cases i 64) as [|Hge]; [done|]. exfalso.
  rewrite Z.bits_above_log2 in Hi; [done | lia|].
  destruct (decide (w = 0)) as [->|]; [by rewrite Z.bits_0 in Hi|]. enough (Z.log2 w < 64) by lia. apply Z.log2_lt_pow2; lia.
Qed.

(** The highest bit of a word. *)
Lemma word_log2 w i :
  0 <= w < 2 ^ 64 -> w <> 0 ->
  0 <= Z.log2 w < 64 /\ Z.testbit w (Z.log2 w) = true /\ (Z.testbit w i = true -> i <= Z.log2 w).
Proof.
  intros Hw H0. split_and!; [apply Z.log2_nonneg | apply Z.log2_lt_pow2; lia | apply Z.bit_log2; lia |].
  intros Hi. destruct (Z.le_gt_cases i (Z.log2 w)) as [|Hgt]; [done|]. by rewrite Z.bits_above_log2 in Hi by lia.
Qed.

Lemma word_zero w : 0 <= w < 2 ^ 64 -> (w = 0 <-> forall i, 0 <= i < 64 -> Z.testbit w i = false).
Proof.
  intros Hw. split; [intros -> i _; apply Z.bits_0|]. intros H. destruct (decide (w = 0)) as [|H0]; [done|].
  destruct (word_log2 w 0 Hw H0) as (Hr & Hb & _). by rewrite H in Hb.
Qed.

(** ** Priorities and their place in the bitmaps *)

Lemma prio_index p : 0 <= p < 256 -> prio_to_l1index p = p / 64 /\ Z.land p (MASK wordRadix) = p mod 64.
Proof.
  intros Hp. split; [by apply (Z.shiftr_div_pow2 p 6)|]. change (MASK wordRadix) with (Z.ones 6). by rewrite Z.land_ones.
Qed.

Lemma invert_run i s : 0 <= i < 4 -> invert_l1index i s = Ok (3 - i) s.
Proof.
  intros Hi. unfold invert_l1index. change L2_BITMAP_SIZE with 4. rewrite (u64_small (4 - 1 - i)) by lia.
  rewrite assert_bind by (apply Z.ltb_lt; lia). done.
Qed.

Lemma prio_join i b : 0 <= i < 4 -> 0 <= b < 64 -> Z.lor (l1index_to_prio i) b = i * 64 + b.
Proof.
  intros Hi Hb. unfold l1index_to_prio. rewrite Z.shiftl_mul_pow2 by done. change (2 ^ wordRadix) with 64.
  rewrite u64_small by lia. rewrite Z.lor_comm. change 64 with (2 ^ 6). rewrite lor_add by lia. lia.
Qed.

Lemma clz_index w : wordBits - 1 - clzl w = Z.log2 w.
Proof. unfold clzl. lia. Qed.

(** ** The highest priority *)

Lemma last_filter_zseq (P : Z -> Prop) `{!forall x, Decision (P x)} n p :
  last (filter P (zseq 0 n)) = Some p <->
  0 <= p < Z.of_nat n /\ P p /\ forall q, p < q < Z.of_nat n -> ~ P q.
Proof.
  induction n as [|n IH]; [split; [done | lia]|]. rewrite zseq_snoc, filter_app, Z.add_0_l.
  destruct (decide (P (Z.of_nat n))) as [HP|HP].
  - rewrite filter_cons_True, filter_nil, last_snoc by done. split.
    + intros [= <-]. split_and!; [lia..|done|]. intros q Hq. lia.
    + intros (Hr & Hp & Hq). f_equal. destruct (decide (p = Z.of_nat n)) as [|Hne]; [done|]. exfalso. apply (Hq (Z.of_nat n)); [lia | done].
  - rewrite filter_cons_False, filter_nil, app_nil_r, IH by done. split.
    + intros (Hr & Hp & Hq). split_and!; [lia..|done|]. intros q Hr'. destruct (decide (q = Z.of_nat n)) as [->|]; [done|]. apply Hq. lia.
    + intros (Hr & Hp & Hq). assert (p <> Z.of_nat n) by (by intros ->). split_and!; [lia..|done|]. intros q Hr'. apply Hq. lia.
Qed.

Lemma top_Some f d p :
  top f d = Some p <-> 0 <= p < 256 /\ f (d, p) <> [] /\ forall q, p < q < 256 -> f (d, q) = [].
Proof.
  unfold top. rewrite (last_filter_zseq _ 256). change (Z.of_nat 256) with 256.
  split; intros (Hr & Hp & Hq); (split; [done|]); (split; [done|]); intros q Hr'.
  - by apply dec_stable, Hq.
  - intros Hn. by apply Hn, Hq.
Qed.

Lemma top_None f d : top f d = None <-> forall q, 0 <= q < 256 -> f (d, q) = [].
Proof.
  unfold top. rewrite last_None. split.
  - intros H q Hq. apply dec_stable. intros Hne. apply (filter_nil_not_elem_of _ _ q H Hne), elem_of_zseq. lia.
  - intros H. destruct (filter _ _) as [|q l] eqn:E; [done|]. exfalso.
    assert (q ∈ filter (fun p => f (d, p) <> []) (zseq 0 256)) as [Hne Hq%elem_of_zseq]%list_elem_of_filter by (rewrite E; left).
    apply Hne, H. lia.
Qed.

(** ** What the bitmaps say *)

Section refine.
Context {C : Config} {HC : ConfigOk}.

Definition valid (k : Z * Z) : Prop := 0 <= k.1 < CONFIG_NUM_DOMAINS /\ 0 <= k.2 < 256.

Record bitmaps (L1 : gmap Z Z) (L2 : gmap (Z * Z) Z) (f : Z * Z -> list Z) : Prop := {
  b_one d : 0 <= d < CONFIG_NUM_DOMAINS ->
    exists w, L1 !! d = Some w /\ 0 <= w < 2 ^ 64 /\
      forall i, Z.testbit w i = true <-> 0 <= i < 4 /\ exists v, L2 !! (d, 3 - i) = Some v /\ v <> 0;
  b_two d i : 0 <= d < CONFIG_NUM_DOMAINS -> 0 <= i < 4 ->
    exists v, L2 !! (d, 3 - i) = Some v /\ 0 <= v < 2 ^ 64 /\
      forall b, 0 <= b < 64 -> (Z.testbit v b = true <-> f (d, i * 64 + b) <> []);
}.

Lemma prio_split p : 0 <= p < 256 -> 0 <= p / 64 < 4 /\ 0 <= p mod 64 < 64 /\ p / 64 * 64 + p mod 64 = p.
Proof. intros Hp. pose proof (Z.div_mod p 64). pose proof (Z.mod_pos_bound p 64). lia. Qed.

(** Nothing changes in which queues are empty. *)
Lemma bitmaps_same L1 L2 f g :
  (forall k, f k = [] <-> g k = []) -> bitmaps L1 L2 f -> bitmaps L1 L2 g.
Proof.
  intros Hfg HB. split; [apply HB|]. intros d i Hd Hi. destruct (b_two _ _ _ HB d i Hd Hi) as (v & Hv & Hr & Hb).
  exists v. do 2 (split; [done|]). intros b Hb'. rewrite Hb by done. by rewrite Hfg.
Qed.

Definition with_maps (L1 : gmap Z Z) (L2 : gmap (Z * Z) Z) (s : sched) : sched :=
  {| s with ksReadyQueuesL1Bitmap := L1; ksReadyQueuesL2Bitmap := L2 |}.

(** One word of the second level changes, and with it its bit in the first. *)
Lemma bitmaps_word L1 L2 f g d p w w' v' :
  bitmaps L1 L2 f -> 0 <= d < CONFIG_NUM_DOMAINS -> 0 <= p < 256 -> L1 !! d = Some w ->
  (forall k, k <> (d, p) -> g k = f k) ->
  0 <= w' < 2 ^ 64 -> (forall i, Z.testbit w' i = if decide (i = p / 64) then nz v' else Z.testbit w i) ->
  0 <= v' < 2 ^ 64 ->
  (forall b, 0 <= b < 64 -> Z.testbit v' b = true <->
     if decide (b = p mod 64) then g (d, p) <> [] else f (d, p / 64 * 64 + b) <> []) ->
  bitmaps (<[d := w']> L1) (<[(d, 3 - p / 64) := v']> L2) g.
Proof.
  intros HB Hd Hp Hw Hg Hr' Hw' Hrv Hv'. destruct (prio_split p Hp) as (Hi & Hb & Ep). split.
  - intros e He. destruct (decide (e = d)) as [->|Hne].
    + exists w'. rewrite lookup_insert_eq. do 2 (split; [done|]). intros i. rewrite Hw'. case_decide as Ei.
      * subst i. rewrite lookup_insert_eq. unfold nz. split; [intros ?%negb_true_iff%Z.eqb_neq; eauto|].
        intros (_ & v & [= <-] & Hv). by apply negb_true_iff, Z.eqb_neq.
      * destruct (b_one _ _ _ HB d Hd) as (w0 & Hw0 & _ & Hbits). assert (w0 = w) as -> by congruence.
        rewrite lookup_insert_ne by (intros [=]; lia). apply Hbits.
    + destruct (b_one _ _ _ HB e He) as (w0 & Hw0 & Hr0 & Hbits). exists w0. rewrite lookup_insert_ne by done.
      do 2 (split; [done|]). intros i. rewrite lookup_insert_ne by (intros [=]; done). apply Hbits.
  - intros e i He Hi'. destruct (decide (e = d /\ i = p / 64)) as [[-> ->]|Hne].
    + exists v'. rewrite lookup_insert_eq. do 2 (split; [done|]). intros b Hb'. rewrite Hv' by done.
      case_decide as Eb; [by subst b; rewrite Ep|]. rewrite Hg; [done|]. intros [= E]. lia.
    + destruct (b_two _ _ _ HB e i He Hi') as (v & Hv & Hrv0 & Hbits). exists v.
      rewrite lookup_insert_ne by (intros [=]; apply Hne; split; [done | lia]). do 2 (split; [done|]).
      intros b Hb'. rewrite Hbits by done. rewrite Hg; [done|]. intros [= -> E]. apply Hne. split; [done | lia].
Qed.

Lemma add_bitmap f g d p s :
  bitmaps s.(ksReadyQueuesL1Bitmap) s.(ksReadyQueuesL2Bitmap) f -> valid (d, p) ->
  (forall k, k <> (d, p) -> g k = f k) -> g (d, p) <> [] ->
  exists L1 L2, addToBitmap d p s = Ok tt (with_maps L1 L2 s) /\ bitmaps L1 L2 g.
Proof.
  intros HB [Hd Hp] Hg Hne. simpl in Hd, Hp. destruct (prio_split p Hp) as (Hi & Hb & Ep).
  destruct (b_one _ _ _ HB d Hd) as (w & Hw & Hrw & Hwb). destruct (b_two _ _ _ HB d _ Hd Hi) as (v & Hv & Hrv & Hvb).
  destruct (prio_index p Hp) as [E1 E2].
  assert (forall i, 0 <= i < 64 -> 0 <= BIT i < 2 ^ 64) as Hbit by (intros i _; apply u64_bound).
  eexists _, _. split.
  - unfold addToBitmap. rewrite E1, E2. erewrite bind_run by by apply invert_run.
    unfold get_l1, set_l1, get_l2, set_l2. rewrite bind_assoc, get_bind, (deref_bind _ w) by done.
    rewrite modify_bind, bind_assoc, get_bind. simpl. rewrite (deref_bind _ v) by done. done.
  - apply (bitmaps_word _ _ f g d p w); try done; try (apply word_lor; [done | apply Hbit; lia]).
    + intros i. rewrite Z.lor_spec, BIT_bits by lia. case_decide as Ei.
      * subst i. rewrite Z.eqb_refl, orb_true_r. symmetry. apply negb_true_iff, Z.eqb_neq. intros E0.
        apply (f_equal (fun x => Z.testbit x (p mod 64))) in E0. rewrite Z.lor_spec, BIT_bits, Z.eqb_refl, orb_true_r, Z.bits_0 in E0 by done. done.
      * by rewrite (proj2 (Z.eqb_neq _ _)), orb_false_r by done.
    + intros b Hb'. rewrite Z.lor_spec, BIT_bits by done. case_decide as Eb.
      * subst b. by rewrite Z.eqb_refl, orb_true_r.
      * rewrite (proj2 (Z.eqb_neq _ _)), orb_false_r by done. by apply Hvb.
Qed.

Lemma remove_bitmap f g d p s :
  bitmaps s.(ksReadyQueuesL1Bitmap) s.(ksReadyQueuesL2Bitmap) f -> valid (d, p) ->
  (forall k, k <> (d, p) -> g k = f k) -> f (d, p) <> [] -> g (d, p) = [] ->
  exists L1 L2, removeFromBitmap d p s = Ok tt (with_maps L1 L2 s) /\ bitmaps L1 L2 g.
Proof.
  intros HB [Hd Hp] Hg Hf Hne. simpl in Hd, Hp. destruct (prio_split p Hp) as (Hi & Hb & Ep).
  destruct (b_one _ _ _ HB d Hd) as (w & Hw & Hrw & Hwb). destruct (b_two _ _ _ HB d _ Hd Hi) as (v & Hv & Hrv & Hvb).
  destruct (prio_index p Hp) as [E1 E2].
  set (v' := Z.land v (u64 (Z.lnot (BIT (p mod 64))))).
  set (w' := if nz v' then w else Z.land w (u64 (Z.lnot (BIT (p / 64))))).
  exists (<[d := w']> s.(ksReadyQueuesL1Bitmap)), (<[(d, 3 - p / 64) := v']> s.(ksReadyQueuesL2Bitmap)). split.
  - unfold removeFromBitmap. rewrite E1, E2. erewrite bind_run by by apply invert_run.
    unfold get_l1, set_l1, get_l2, set_l2. rewrite bind_assoc, get_bind, (deref_bind _ v) by done. fold v'.
    rewrite modify_bind, bind_assoc, get_bind. simpl. rewrite (deref_bind _ v') by apply lookup_insert_eq. subst w'.
    unfold when. destruct (nz v'); simpl.
    + rewrite (insert_id s.(ksReadyQueuesL1Bitmap)) by done. by destruct s.
    + rewrite bind_assoc, get_bind. simpl. by rewrite (deref_bind _ w) by done.
  - assert (Z.testbit w (p / 64) = true) as Hset.
    { apply Hwb. split; [done|]. exists v. split; [done|]. intros ->.
      assert (Z.testbit 0 (p mod 64) = true); [|by rewrite Z.bits_0 in *]. apply Hvb; [done|]. by rewrite Ep. }
    apply (bitmaps_word _ _ f g d p w); try done; try by apply word_land.
    + subst w'. destruct (nz v'); [done | by apply word_land].
    + intros i. subst w'. case_decide as Ei; destruct (nz v') eqn:Ev; try done; [by subst i| |].
      * subst i. rewrite unset_bits, Z.eqb_refl, andb_false_r by lia. done.
      * destruct (decide (0 <= i < 64)) as [Hir|Hir].
        -- rewrite unset_bits by lia. by rewrite (proj2 (Z.eqb_neq _ _)), andb_true_r by done.
        -- rewrite Z.land_spec. destruct (Z.testbit w i) eqn:Ew; [|done]. by apply word_bit_range in Ew.
    + intros b Hb'. subst v'. rewrite unset_bits by done. case_decide as Eb.
      * subst b. rewrite Z.eqb_refl, andb_false_r, Hne. done.
      * rewrite (proj2 (Z.eqb_neq _ _)), andb_true_r by done. by apply Hvb.
Qed.

(** The highest bit of the highest word. *)
Lemma highest_prio f d s w :
  bitmaps s.(ksReadyQueuesL1Bitmap) s.(ksReadyQueuesL2Bitmap) f -> 0 <= d < CONFIG_NUM_DOMAINS ->
  s.(ksReadyQueuesL1Bitmap) !! d = Some w -> w <> 0 ->
  exists p, getHighestPrio d s = Ok p s /\ top f d = Some p.
Proof.
  intros HB Hd Hw H0. destruct (b_one _ _ _ HB d Hd) as (w' & Hw' & Hrw & Hwb). assert (w' = w) as -> by congruence.
  destruct (word_log2 w 0 Hrw H0) as (_ & Hset & _). destruct (proj1 (Hwb _) Hset) as (Hi & v & Hv & Hv0).
  destruct (b_two _ _ _ HB d _ Hd Hi) as (v' & Hv' & Hrv & Hvb). assert (v' = v) as -> by congruence.
  destruct (word_log2 v 0 Hrv Hv0) as (Hb & Hvset & _).
  exists (Z.log2 w * 64 + Z.log2 v). split.
  - unfold getHighestPrio, get_l1, get_l2, nz. rewrite bind_assoc, get_bind, (deref_bind _ w), assert_bind by (done || by apply negb_true_iff, Z.eqb_neq).
    rewrite clz_index. erewrite bind_run by by apply invert_run.
    rewrite bind_assoc, get_bind, (deref_bind _ v), assert_bind by (done || by apply negb_true_iff, Z.eqb_neq).
    rewrite clz_index, prio_join by done. done.
  - apply top_Some. split_and!; [lia..| |].
    + apply Hvb; [lia | done].
    + intros q Hq. apply dec_stable. intros Hne. assert (0 <= q < 256) as Hqr by lia.
      destruct (prio_split q Hqr) as (Hqi & Hqb & Eq). destruct (b_two _ _ _ HB d _ Hd Hqi) as (u & Hu & Hru & Hub).
      assert (Z.testbit u (q mod 64) = true) as Hubit by (apply Hub; [done | by rewrite Eq]).
      assert (u <> 0) as Hu0 by (intros ->; by rewrite Z.bits_0 in Hubit).
      assert (q / 64 <= Z.log2 w) as Hle by (apply (word_log2 w); [done..|]; apply Hwb; split; [done | by exists u]).
      assert (q / 64 = Z.log2 w) as Ei by lia. rewrite Ei in *. assert (u = v) as -> by congruence.
      assert (q mod 64 <= Z.log2 v) by (by apply (word_log2 v)). lia.
Qed.

Lemma no_prio f d s :
  bitmaps s.(ksReadyQueuesL1Bitmap) s.(ksReadyQueuesL2Bitmap) f -> 0 <= d < CONFIG_NUM_DOMAINS ->
  s.(ksReadyQueuesL1Bitmap) !! d = Some 0 -> top f d = None.
Proof.
  intros HB Hd Hw. destruct (b_one _ _ _ HB d Hd) as (w' & Hw' & Hrw & Hwb). assert (w' = 0) as -> by congruence.
  apply top_None. intros q Hq. destruct (prio_split q Hq) as (Hqi & Hqb & Eq). apply dec_stable. intros Hne.
  destruct (b_two _ _ _ HB d _ Hd Hqi) as (u & Hu & Hru & Hub).
  assert (Z.testbit u (q mod 64) = true) as Hubit by (apply Hub; [done | by rewrite Eq]).
  assert (Z.testbit 0 (q / 64) = true); [|by rewrite Z.bits_0 in *].
  apply Hwb. split; [done|]. exists u. split; [done|]. intros ->. by rewrite Z.bits_0 in Hubit.
Qed.

Lemma is_highest f d p s :
  bitmaps s.(ksReadyQueuesL1Bitmap) s.(ksReadyQueuesL2Bitmap) f -> 0 <= d < CONFIG_NUM_DOMAINS ->
  isHighestPrio d p s = Ok (match top f d with Some h => h <=? p | None => true end) s.
Proof.
  intros HB Hd. destruct (b_one _ _ _ HB d Hd) as (w & Hw & _). unfold isHighestPrio, get_l1.
  rewrite bind_assoc, get_bind, (deref_bind _ w) by done. destruct (Z.eqb_spec w 0) as [->|H0].
  - by rewrite (no_prio f d s).
  - destruct (highest_prio f d s w) as (h & Hh & ->); [done..|]. by erewrite bind_run.
Qed.

(** ** Refinement *)

Definition qidx (k : Z * Z) : Z := k.1 * 256 + k.2.

Lemma ready_index_run d p s : valid (d, p) -> ready_queues_index d p s = Ok (qidx (d, p)) s.
Proof using HC.
  intros [Hd Hp]. simpl in *. unfold ready_queues_index, CONFIG_NUM_PRIORITIES, qidx. simpl. pose proof config_queues as Hq.
  unfold CONFIG_NUM_PRIORITIES in Hq. destruct (Z.ltb_spec 1 CONFIG_NUM_DOMAINS).
  - by rewrite u64_small by lia.
  - assert (d = 0) as -> by lia. done.
Qed.

Lemma qidx_inj k k' : valid k -> valid k' -> qidx k = qidx k' -> k = k'.
Proof. destruct k, k'. intros [? ?] [? ?]. unfold qidx. simpl in *. intros. f_equal; lia. Qed.

Definition info_of (x : sthread) : info :=
  Info x.(tsType) x.(tcbDomain) x.(tcbMCP) x.(tcbPriority) x.(tcbTimeSlice).
Definition face (x : sthread) : info * bool := (info_of x, x.(tcbQueued)).

Definition queue_ok (m : gmap Z sthread) (Q : gmap Z tcb_queue) (k : Z * Z) (l : list Z) : Prop :=
  exists q, Q !! qidx k = Some q /\ dseg (links m) 0 q.(head) l q.(end_) 0.

Record refines (s : sched) (B : board) : Prop := {
  r_folk : (info_of <$> s.(sthreads)) = B.(folk);
  r_null : s.(sthreads) !! 0 = None;
  r_valid t i : B.(folk) !! t = Some i -> valid (key i);
  r_queue k : valid k -> queue_ok s.(sthreads) s.(ksReadyQueues) k (B.(line) k);
  r_nodup k : NoDup (B.(line) k);
  r_in t k : t ∈ B.(line) k <-> exists i, (face <$> s.(sthreads)) !! t = Some (i, true) /\ key i = k;
  r_maps : bitmaps s.(ksReadyQueuesL1Bitmap) s.(ksReadyQueuesL2Bitmap) B.(line);
  r_now : s.(ksCurThread) = B.(now);
  r_idle : s.(ksIdleThread) = B.(idler);
  r_act : s.(ksSchedulerAction) = B.(act);
  r_dom : s.(ksCurDomain) = B.(dom_now);
  r_left : s.(ksDomainTime) = B.(dom_left);
  r_slot : s.(ksDomScheduleIdx) = B.(dom_slot);
  r_dom_range : 0 <= B.(dom_now) < CONFIG_NUM_DOMAINS;
  r_slot_range : 0 <= B.(dom_slot) < Z.of_nat (length ksDomSchedule);
  r_here : is_Some (B.(folk) !! B.(now));
  r_idler : is_Some (B.(folk) !! B.(idler));
  r_cand t : B.(act) = SwitchTo t -> is_Some (B.(folk) !! t);
}.

Lemma refines_at s B t i :
  refines s B -> B.(folk) !! t = Some i -> exists x, s.(sthreads) !! t = Some x /\ info_of x = i /\ t <> 0.
Proof.
  intros HR. rewrite <- (r_folk _ _ HR), lookup_fmap. intros (x & Hx & ->)%fmap_Some. exists x. split_and!; [done..|].
  intros ->. by rewrite (r_null _ _ HR) in Hx.
Qed.

(** A thread is in the queue of its domain and priority or in none. *)
Lemma refines_in s B t i x k :
  refines s B -> B.(folk) !! t = Some i -> s.(sthreads) !! t = Some x ->
  (t ∈ B.(line) k <-> x.(tcbQueued) = true /\ key i = k).
Proof.
  intros HR Hi Hx. rewrite (r_in _ _ HR), lookup_fmap, Hx. simpl.
  rewrite <- (r_folk _ _ HR), lookup_fmap, Hx in Hi. injection Hi as <-. unfold face.
  split; [intros (j & [= <- E] & Ek); by rewrite E | intros [E Ek]; exists (info_of x); by rewrite E].
Qed.

Lemma face_info (m m' : gmap Z sthread) t b :
  face <$> m' = alter (fun f => (f.1, b)) t (face <$> m) -> info_of <$> m' = info_of <$> m.
Proof.
  intros E. apply map_eq. intros u. rewrite !lookup_fmap.
  apply (f_equal (fun M => fst <$> M !! u)) in E. rewrite lookup_fmap in E. destruct (decide (u = t)) as [->|Hu].
  - rewrite lookup_alter_eq, lookup_fmap in E. by destruct (m' !! t), (m !! t).
  - rewrite lookup_alter_ne, lookup_fmap in E by done. by destruct (m' !! u), (m !! u).
Qed.

Lemma face_queued (m : gmap Z sthread) t b :
  face <$> alter (fun x => {| x with tcbQueued := b |}) t m = alter (fun f => (f.1, b)) t (face <$> m).
Proof.
  apply map_eq. intros u. rewrite lookup_fmap. destruct (decide (u = t)) as [->|Hu].
  - rewrite !lookup_alter_eq, lookup_fmap. by destruct (m !! t).
  - by rewrite !lookup_alter_ne, lookup_fmap.
Qed.

(** One queue changes, by one thread that joins or leaves it. *)
Lemma refines_relink s B t i l' m' q' L1 L2 b :
  refines s B -> B.(folk) !! t = Some i ->
  face <$> m' = alter (fun f => (f.1, b)) t (face <$> s.(sthreads)) ->
  dseg (links m') 0 q'.(head) l' q'.(end_) 0 -> NoDup l' ->
  (forall u, u ∉ B.(line) (key i) -> u <> t -> m' !! u = s.(sthreads) !! u) ->
  (forall u, u ∈ l' <-> u = t /\ b = true \/ u <> t /\ u ∈ B.(line) (key i)) ->
  bitmaps L1 L2 (put (key i) l' B.(line)) ->
  refines {| s with sthreads := m'; ksReadyQueues := <[qidx (key i) := q']> s.(ksReadyQueues);
                    ksReadyQueuesL1Bitmap := L1; ksReadyQueuesL2Bitmap := L2 |}
          {| B with line := put (key i) l' B.(line) |}.
Proof.
  intros HR Hi Hface Hq Hnd Hfr Hin Hmaps. pose proof (face_info _ _ _ _ Hface) as Hinfo.
  destruct (refines_at s B t i HR Hi) as (x & Hx & Ex & _).
  split; simpl; try apply HR; try done.
  - by rewrite Hinfo, (r_folk _ _ HR).
  - pose proof (r_null _ _ HR) as Hnull. apply (f_equal (.!! 0)) in Hinfo. rewrite !lookup_fmap, Hnull in Hinfo. by destruct (m' !! 0).
  - intros k Hk. destruct (decide (k = key i)) as [->|Hne].
    + exists q'. by rewrite lookup_insert_eq, put_eq.
    + destruct (r_queue _ _ HR k Hk) as (q & Hq0 & Hd). exists q. rewrite put_ne by done. split.
      * rewrite lookup_insert_ne; [done|]. intros E. apply qidx_inj in E; [done | by eapply r_valid | done].
      * apply (dseg_frame (links s.(sthreads))); [|done]. intros u Hu. unfold links. rewrite Hfr; [done| |].
        -- apply (r_in _ _ HR) in Hu as (j & Hj & Ej). intros (j' & Hj' & Ej')%(r_in _ _ HR). congruence.
        -- intros ->. by apply (refines_in s B t i x k HR Hi Hx) in Hu as [_ ?].
  - intros k. destruct (decide (k = key i)) as [->|Hne]; [by rewrite put_eq | by rewrite put_ne by done; apply HR].
  - intros u k. rewrite Hface. destruct (decide (u = t)) as [->|Hu].
    + rewrite lookup_alter_eq, lookup_fmap, Hx. simpl. rewrite Ex. destruct (decide (k = key i)) as [->|Hne].
      * rewrite put_eq, Hin. split; [intros [[_ ->]|[? _]]; [by exists i | done] | intros (j & [= _ ->] & _); by left].
      * rewrite put_ne by done. rewrite (refines_in s B t i x k HR Hi Hx). split; [by intros [_ ?] | by intros (j & [= <- _] & ?)].
    + rewrite lookup_alter_ne by done. rewrite <- (r_in _ _ HR). destruct (decide (k = key i)) as [->|Hne].
      * rewrite put_eq, Hin. split; [by intros [[? _]|[_ ?]] | by right].
      * by rewrite put_ne.
Qed.

(** ** Queues *)

Definition runs_to (c : M sched unit) (s : sched) (B : board) : Prop :=
  exists s', c s = Ok tt s' /\ refines s' B.

Lemma runs_ret s B : refines s B -> runs_to (mret tt) s B.
Proof. by exists s. Qed.

Lemma runs_bind (c : M sched unit) (k : unit -> M sched unit) s B1 B2 :
  runs_to c s B1 -> (forall s1, refines s1 B1 -> runs_to (k tt) s1 B2) -> runs_to (x ← c; k x) s B2.
Proof.
  intros (s1 & E1 & H1) Hk. destruct (Hk s1 H1) as (s2 & E2 & H2). exists s2. split; [|done]. by rewrite (bind_run _ _ _ _ _ E1).
Qed.

Lemma thread_at_run t s x : s.(sthreads) !! t = Some x -> thread_at t s = Ok x s.
Proof. intros Hx. unfold thread_at. rewrite get_bind. by rewrite Hx. Qed.

Lemma thread_modify_run t f s :
  is_Some (s.(sthreads) !! t) -> thread_modify t f s = Ok tt {| s with sthreads := alter f t s.(sthreads) |}.
Proof.
  intros [x Hx]. unfold thread_modify. erewrite bind_run by by apply thread_at_run.
  unfold modify. by rewrite (alter_alt_Some _ _ _ _ Hx).
Qed.

Lemma get_queue_run i q s : s.(ksReadyQueues) !! i = Some q -> get_queue i s = Ok q s.
Proof. intros Hq. unfold get_queue. rewrite get_bind. by rewrite Hq. Qed.

(** Two writes to a thread, the queue and the flag of a thread that joins it. *)
Lemma join_run t i p n q s :
  is_Some (s.(sthreads) !! t) ->
  (setSchedPrev t p;; setSchedNext t n;; set_queue i q;; set_tcbQueued t true) s =
  Ok tt {| s with sthreads := alter (fun x => {| x with tcbQueued := true |}) t (alter (with_next n) t (alter (with_prev p) t s.(sthreads)));
                  ksReadyQueues := <[i := q]> s.(ksReadyQueues) |}.
Proof.
  intros Hs. unfold setSchedPrev, setSchedNext, set_queue, set_tcbQueued.
  erewrite bind_run by by apply thread_modify_run.
  erewrite bind_run by (apply thread_modify_run; simpl; by rewrite lookup_alter_is_Some).
  rewrite modify_bind, thread_modify_run; [done|]. simpl. by rewrite !lookup_alter_is_Some.
Qed.

Lemma in_line_spec s B t i x :
  refines s B -> B.(folk) !! t = Some i -> s.(sthreads) !! t = Some x -> in_line t B = x.(tcbQueued).
Proof.
  intros HR Hi Hx. unfold in_line. rewrite Hi. apply eq_true_iff_eq. rewrite bool_decide_eq_true.
  rewrite (refines_in s B t i x _ HR Hi Hx). naive_solver.
Qed.

(** The first thread of a queue sets the bits; a later one is linked to a
    neighbour. *)
Lemma join_branch s B k l' u f (b : bool) :
  refines s B -> valid k -> l' <> [] -> b = bool_decide (B.(line) k <> []) ->
  (b = true -> is_Some (s.(sthreads) !! u)) ->
  exists L1 L2, (if negb b then addToBitmap k.1 k.2 else thread_modify u f) s
      = Ok tt (with_maps L1 L2 {| s with sthreads := if b then alter f u s.(sthreads) else s.(sthreads) |}) /\
    bitmaps L1 L2 (put k l' B.(line)).
Proof.
  intros HR Hk Hl Hb Hu. destruct b; simpl.
  - symmetry in Hb. apply bool_decide_eq_true in Hb. exists s.(ksReadyQueuesL1Bitmap), s.(ksReadyQueuesL2Bitmap).
    rewrite thread_modify_run by auto. split; [done|]. apply (bitmaps_same _ _ B.(line)); [|apply HR].
    intros k'. destruct (decide (k' = k)) as [->|]; [by rewrite put_eq | by rewrite put_ne].
  - destruct k as [d p]. destruct (add_bitmap B.(line) (put (d, p) l' B.(line)) d p s) as (L1 & L2 & E & HB);
      [apply HR | done | intros k Hne; by rewrite put_ne | by rewrite put_eq |].
    exists L1, L2. split; [|done]. simpl. rewrite E. by destruct s.
Qed.

(** Up to its queue, joining is the same at both ends. *)
Lemma join_start s B t i x (k : Z * Z -> Z -> tcb_queue -> M sched unit) :
  refines s B -> B.(folk) !! t = Some i -> s.(sthreads) !! t = Some x -> info_of x = i ->
  exists q, dseg (links s.(sthreads)) 0 q.(head) (B.(line) (key i)) q.(end_) 0 /\
    (idx ← ready_queues_index x.(tcbDomain) x.(tcbPriority); queue ← get_queue idx; k (key i) idx queue) s
    = k (key i) (qidx (key i)) q s.
Proof using HC.
  intros HR Hi Hx <-. pose proof (r_valid _ _ HR t _ Hi) as Hv. destruct (r_queue _ _ HR _ Hv) as (q & Hq & Hseg).
  exists q. split; [done|]. erewrite bind_run by by apply ready_index_run. by erewrite bind_run by by apply get_queue_run.
Qed.

Lemma enqueue_refines s B t i : refines s B -> B.(folk) !! t = Some i -> runs_to (tcbSchedEnqueue t) s (enqueue t B).
Proof using HC.
  intros HR Hi. destruct (refines_at s B t i HR Hi) as (x & Hx & Ei & Ht). unfold runs_to, tcbSchedEnqueue, enqueue.
  erewrite (bind_run (thread_at t)) by by apply thread_at_run. rewrite (in_line_spec s B t i x HR Hi Hx).
  destruct (tcbQueued x) eqn:Eq; [by exists s|]. unfold when, with_line. simpl. rewrite Hi.
  assert (t ∉ B.(line) (key i)) as Hnin by (rewrite (refines_in s B t i x _ HR Hi Hx); intros [? _]; congruence).
  destruct (join_start s B t i x (fun k idx queue =>
    (if negb (nz queue.(end_)) then addToBitmap k.1 k.2 else setSchedPrev queue.(head) t);;
    setSchedPrev t 0;; setSchedNext t queue.(head);;
    set_queue idx (Queue t (if nz queue.(end_) then queue.(end_) else t));; set_tcbQueued t true) HR Hi Hx Ei) as (q & Hseg & E).
  subst i. destruct (join_branch s B (key (info_of x)) (t :: B.(line) (key (info_of x))) q.(head) (with_prev t) (nz q.(end_))) as (L1 & L2 & E1 & HB);
    [done | by eapply r_valid | done | by apply (dseg_end _ _ _ _ Hseg) | |].
  { intros E0. destruct (dseg_first _ _ _ _ _ _ Hseg) as [[El _]|Hf]; [|by eapply dseg_tcb].
    rewrite (dseg_end _ _ _ _ Hseg), El in E0. done. }
  eexists. split.
  { etrans; [exact E|]. erewrite bind_run by exact E1. apply join_run. simpl. destruct (nz _); rewrite ?lookup_alter_is_Some; by eexists. }
  apply (refines_relink s B t (info_of x) _ _ (Queue t (if nz q.(end_) then q.(end_) else t)) L1 L2 true); try done.
  - rewrite face_queued. f_equal. by apply (push_fmap face).
  - apply (dseg_frame (links (push q.(head) q.(end_) t s.(sthreads)))); [intros u _; by apply links_alter_same|].
    eapply push_queue; [done | apply HR | done..].
  - apply NoDup_cons. split; [done | apply HR].
  - intros u Hu Hut. rewrite lookup_alter_ne by done. by eapply push_ne.
  - intros u. rewrite elem_of_cons. destruct (decide (u = t)) as [->|]; naive_solver.
Qed.

Lemma append_refines s B t i : refines s B -> B.(folk) !! t = Some i -> runs_to (tcbSchedAppend t) s (append t B).
Proof using HC.
  intros HR Hi. destruct (refines_at s B t i HR Hi) as (x & Hx & Ei & Ht). unfold runs_to, tcbSchedAppend, append.
  erewrite (bind_run (thread_at t)) by by apply thread_at_run. rewrite (in_line_spec s B t i x HR Hi Hx).
  destruct (tcbQueued x) eqn:Eq; [by exists s|]. unfold when, with_line. simpl. rewrite Hi.
  assert (t ∉ B.(line) (key i)) as Hnin by (rewrite (refines_in s B t i x _ HR Hi Hx); intros [? _]; congruence).
  destruct (join_start s B t i x (fun k idx queue =>
    (if negb (nz queue.(head)) then addToBitmap k.1 k.2 else setSchedNext queue.(end_) t);;
    setSchedPrev t queue.(end_);; setSchedNext t 0;;
    set_queue idx (Queue (if nz queue.(head) then queue.(head) else t) t);; set_tcbQueued t true) HR Hi Hx Ei) as (q & Hseg & E).
  subst i. destruct (join_branch s B (key (info_of x)) (B.(line) (key (info_of x)) ++ [t]) q.(end_) (with_next t) (nz q.(head))) as (L1 & L2 & E1 & HB);
    [done | by eapply r_valid | by destruct (line _ _) | by apply (dseg_head _ _ _ _ Hseg) | |].
  { intros E0. destruct (dseg_last _ _ _ _ _ _ Hseg) as [[El _]|Hf]; [|by eapply dseg_tcb].
    rewrite (dseg_head _ _ _ _ Hseg), El in E0. done. }
  eexists. split.
  { etrans; [exact E|]. erewrite bind_run by exact E1. apply join_run. simpl. destruct (nz _); rewrite ?lookup_alter_is_Some; by eexists. }
  apply (refines_relink s B t (info_of x) _ _ (Queue (if nz q.(head) then q.(head) else t) t) L1 L2 true); try done.
  - rewrite face_queued. f_equal. by apply (hang_fmap face).
  - apply (dseg_frame (links (hang q.(head) q.(end_) t s.(sthreads)))); [intros u _; by apply links_alter_same|].
    eapply hang_queue; [done | apply HR | done..].
  - apply NoDup_app. split_and!; [apply HR | | apply NoDup_singleton]. intros u Hu ->%list_elem_of_singleton. done.
  - intros u Hu Hut. rewrite lookup_alter_ne by done. by eapply hang_ne.
  - intros u. rewrite elem_of_app, list_elem_of_singleton. destruct (decide (u = t)) as [->|]; naive_solver.
Qed.

(** The thread leaves; the last one of a queue takes the bits with it. *)
Lemma leave_head s B t x (q : tcb_queue) :
  refines s B -> B.(folk) !! t = Some (info_of x) -> s.(sthreads) !! t = Some x -> t ∈ B.(line) (key (info_of x)) ->
  dseg (links s.(sthreads)) 0 q.(head) (B.(line) (key (info_of x))) q.(end_) 0 ->
  exists L1 L2,
    (if nz x.(tcbSchedPrev)
     then setSchedNext x.(tcbSchedPrev) x.(tcbSchedNext);; mret q.(head)
     else when (negb (nz x.(tcbSchedNext))) (removeFromBitmap x.(tcbDomain) x.(tcbPriority));; mret x.(tcbSchedNext)) s
    = Ok (if nz x.(tcbSchedPrev) then q.(head) else x.(tcbSchedNext))
        (with_maps L1 L2 {| s with sthreads :=
           if nz x.(tcbSchedPrev) then alter (with_next x.(tcbSchedNext)) x.(tcbSchedPrev) s.(sthreads) else s.(sthreads) |}) /\
    bitmaps L1 L2 (put (key (info_of x)) (remove t (B.(line) (key (info_of x)))) B.(line)).
Proof using HC.
  intros HR Hi Hx Ht Hseg. destruct (links_in_queue _ _ _ _ _ Hseg (r_nodup _ _ HR _) Ht) as (x' & Hx' & _ & _ & Hp & _ & Hlone).
  assert (x' = x) as -> by congruence. simpl in *.
  assert (remove t (B.(line) (key (info_of x))) <> [] ->
    bitmaps s.(ksReadyQueuesL1Bitmap) s.(ksReadyQueuesL2Bitmap) (put (key (info_of x)) (remove t (B.(line) (key (info_of x)))) B.(line))) as Hsame.
  { intros Hne. apply (bitmaps_same _ _ B.(line)); [|apply HR]. intros k. destruct (decide (k = key (info_of x))) as [->|]; [|by rewrite put_ne].
    rewrite put_eq. split; [intros E; by rewrite E in Ht; apply elem_of_nil in Ht | done]. }
  unfold nz in *. destruct (Z.eqb_spec x.(tcbSchedPrev) 0) as [Ep|Ep]; simpl.
  - destruct (Z.eqb_spec x.(tcbSchedNext) 0) as [En|En]; simpl.
    + destruct (remove_bitmap B.(line) (put (key (info_of x)) (remove t (B.(line) (key (info_of x)))) B.(line)) x.(tcbDomain) x.(tcbPriority) s)
        as (L1 & L2 & E & HB); [apply HR | by apply (r_valid _ _ HR t (info_of x)) | intros k Hne; by rewrite put_ne | | |].
      * intros E. change (tcbDomain x, tcbPriority x) with (key (info_of x)) in E. by rewrite E in Ht; apply elem_of_nil in Ht.
      * change (tcbDomain x, tcbPriority x) with (key (info_of x)). rewrite put_eq. by apply Hlone.
      * exists L1, L2. split; [|done]. erewrite bind_run by exact E. by destruct s.
    + exists s.(ksReadyQueuesL1Bitmap), s.(ksReadyQueuesL2Bitmap). split; [by destruct s|]. apply Hsame. intros E. by apply Hlone in E as [_ ?].
  - exists s.(ksReadyQueuesL1Bitmap), s.(ksReadyQueuesL2Bitmap). split.
    + unfold setSchedNext. erewrite bind_run by (apply thread_modify_run; by eapply dseg_tcb, Hp). done.
    + apply Hsame. intros E. by apply Hlone in E as [? _].
Qed.

Lemma dequeue_refines s B t i : refines s B -> B.(folk) !! t = Some i -> runs_to (tcbSchedDequeue t) s (dequeue t B).
Proof using HC.
  intros HR Hi. destruct (refines_at s B t i HR Hi) as (x & Hx & Ei & Ht). unfold runs_to, tcbSchedDequeue, dequeue.
  erewrite (bind_run (thread_at t)) by by apply thread_at_run. rewrite (in_line_spec s B t i x HR Hi Hx).
  destruct (tcbQueued x) eqn:Eq; [|by exists s]. unfold when, with_line. simpl. rewrite Hi. subst i.
  assert (t ∈ B.(line) (key (info_of x))) as Hin by (by rewrite (refines_in s B t _ x _ HR Hi Hx)).
  pose proof (r_valid _ _ HR t _ Hi) as Hv. destruct (r_queue _ _ HR _ Hv) as (q & Hq & Hseg).
  pose proof (r_nodup _ _ HR (key (info_of x))) as Hnd.
  destruct (links_in_queue _ _ _ _ _ Hseg Hnd Hin) as (x' & Hx' & Hpt & Hnt & Hp & Hn & _). assert (x' = x) as -> by congruence.
  destruct (leave_head s B t x q HR Hi Hx Hin Hseg) as (L1 & L2 & E1 & HB).
  set (m1 := if nz x.(tcbSchedPrev) then alter (with_next x.(tcbSchedNext)) x.(tcbSchedPrev) s.(sthreads) else s.(sthreads)) in *.
  assert (m1 !! t = Some x) as Hm1 by (subst m1; simpl in Hpt; destruct (nz _); by rewrite ?lookup_alter_ne).
  eexists. split.
  { erewrite bind_run by by apply ready_index_run. erewrite bind_run by by apply get_queue_run. erewrite bind_run by exact E1.
    erewrite bind_run by by apply thread_at_run.
    erewrite bind_run with (s1 := with_maps L1 L2 {| s with sthreads := bypass x.(tcbSchedPrev) x.(tcbSchedNext) s.(sthreads) |})
      (a := if nz x.(tcbSchedNext) then q.(end_) else x.(tcbSchedPrev)).
    - unfold set_queue, set_tcbQueued. rewrite modify_bind, thread_modify_run; [done|]. simpl.
      unfold bypass. fold m1. destruct (nz (tcbSchedNext x)); rewrite ?lookup_alter_is_Some; by eexists.
    - unfold bypass. fold m1. simpl in Hn. unfold nz. destruct (Z.eqb_spec x.(tcbSchedNext) 0) as [En|En]; [done|]. simpl.
      unfold setSchedPrev. erewrite bind_run by (apply thread_modify_run; subst m1; simpl; destruct (nz _);
        rewrite ?lookup_alter_is_Some; by eapply dseg_tcb, Hn). done. }
  apply (refines_relink s B t (info_of x) _ _ (Queue _ _) L1 L2 false); try done.
  - rewrite face_queued. f_equal. by apply (bypass_fmap face).
  - apply (dseg_frame (links (bypass x.(tcbSchedPrev) x.(tcbSchedNext) s.(sthreads)))); [intros u _; by apply links_alter_same|].
    exact (bypass_queue s.(sthreads) q.(head) _ q.(end_) t x Hseg Hnd Hin Hx).
  - by apply NoDup_remove.
  - intros u Hu Hut. rewrite lookup_alter_ne by done. simpl in *. apply bypass_ne; intros ->; apply dec_stable; auto.
  - intros u. rewrite elem_of_remove. naive_solver.
Qed.

(** ** Threads *)

Lemma folk_with_line t g B : (with_line t g B).(folk) = B.(folk).
Proof. unfold with_line. by destruct (folk B !! t). Qed.

Lemma modify_refines s B t f g i :
  refines s B -> B.(folk) !! t = Some i ->
  (forall x, info_of (f x) = g (info_of x)) -> (forall x, link (f x) = link x) -> (forall x, (f x).(tcbQueued) = x.(tcbQueued)) ->
  key (g i) = key i \/ in_line t B = false /\ valid (key (g i)) ->
  runs_to (thread_modify t f) s (change t g B).
Proof.
  intros HR Hi Hfg Hl Hq Hk. destruct (refines_at s B t i HR Hi) as (x & Hx & <- & Ht).
  exists {| s with sthreads := alter f t s.(sthreads) |}. split; [by apply thread_modify_run|].
  split; simpl; try apply HR.
  - rewrite <- (r_folk _ _ HR). apply map_eq. intros u. rewrite lookup_fmap. destruct (decide (u = t)) as [->|Hu].
    + rewrite !lookup_alter_eq, lookup_fmap, Hx. simpl. by rewrite Hfg.
    + by rewrite !lookup_alter_ne, lookup_fmap.
  - rewrite lookup_alter_ne by done. apply HR.
  - intros u j. destruct (decide (u = t)) as [->|Hu].
    + rewrite lookup_alter_eq, Hi. intros [= <-]. destruct Hk as [->|[_ ?]]; [by eapply r_valid | done].
    + rewrite lookup_alter_ne by done. by eapply r_valid.
  - intros k Hv. destruct (r_queue _ _ HR k Hv) as (q & Hq0 & Hseg). exists q. split; [done|].
    apply (dseg_frame (links s.(sthreads))); [|done]. intros u _. by apply links_alter_same.
  - intros u k. destruct (decide (u = t)) as [->|Hu].
    + rewrite (refines_in s B t _ x k HR Hi Hx), lookup_fmap, lookup_alter_eq, Hx. simpl. unfold face. rewrite Hq, Hfg.
      rewrite (in_line_spec s B t _ x HR Hi Hx) in Hk.
      split; [intros [E <-]; exists (g (info_of x)); split; [by rewrite E|]; destruct Hk as [?|[? _]]; congruence|].
      intros (j & [= <- E] & <-). split; [done|]. destruct Hk as [?|[? _]]; congruence.
    + rewrite lookup_fmap, lookup_alter_ne, <- lookup_fmap by done. apply HR.
  - rewrite lookup_alter_is_Some. apply HR.
  - rewrite lookup_alter_is_Some. apply HR.
  - intros u Hu. rewrite lookup_alter_is_Some. by apply HR.
Qed.

Lemma asked_refines s B a :
  refines s B -> (forall t, a = SwitchTo t -> is_Some (B.(folk) !! t)) -> runs_to (set_action a) s (asked a B).
Proof. intros HR Ha. eexists. split; [done|]. by split; simpl; try apply HR. Qed.

Lemma asked_plain s B a : refines s B -> (forall t, a <> SwitchTo t) -> runs_to (set_action a) s (asked a B).
Proof. intros HR Ha. apply asked_refines; [done|]. by intros t ?%Ha. Qed.

Lemma resched_refines s B : refines s B -> runs_to rescheduleRequired s (resched B).
Proof using HC.
  intros HR. unfold rescheduleRequired, resched, runs_to. rewrite get_bind, (r_act _ _ HR).
  destruct (act B) as [| |t] eqn:Ea; try (by apply asked_plain).
  destruct (r_cand _ _ HR t Ea) as [i Hi]. eapply runs_bind; [by eapply enqueue_refines|]. intros s1 H1. by apply asked_plain.
Qed.

Lemma read_thread {A} s B t i (k : sthread -> M sched A) :
  refines s B -> B.(folk) !! t = Some i -> exists x, info_of x = i /\ mbind k (thread_at t) s = k x s.
Proof.
  intros HR Hi. destruct (refines_at s B t i HR Hi) as (x & Hx & Ex & _). exists x. split; [done|].
  by erewrite bind_run by by apply thread_at_run.
Qed.

Lemma isRunnable_info x : isRunnable x = runnable (info_of x).
Proof. done. Qed.

Lemma folk_enqueue t B : (enqueue t B).(folk) = B.(folk).
Proof. unfold enqueue. destruct (in_line t B); [done | apply folk_with_line]. Qed.
Lemma folk_append t B : (append t B).(folk) = B.(folk).
Proof. unfold append. destruct (in_line t B); [done | apply folk_with_line]. Qed.
Lemma folk_dequeue t B : (dequeue t B).(folk) = B.(folk).
Proof. unfold dequeue. destruct (in_line t B); [apply folk_with_line | done]. Qed.
Lemma folk_resched B : (resched B).(folk) = B.(folk).
Proof. unfold resched. destruct (act B); simpl; [done..| apply folk_enqueue]. Qed.

Lemma possible_refines s B t i :
  refines s B -> B.(folk) !! t = Some i -> runs_to (possibleSwitchTo t) s (possible t B).
Proof using HC.
  intros HR Hi. unfold possibleSwitchTo, possible, dom_of, runs_to. rewrite get_bind, Hi.
  destruct (read_thread s B t i (fun x =>
    if negb (s.(ksCurDomain) =? x.(tcbDomain)) then tcbSchedEnqueue t
    else if bool_decide (s.(ksSchedulerAction) <> ResumeCurrentThread) then rescheduleRequired;; tcbSchedEnqueue t
    else set_action (SwitchTo t)) HR Hi) as (x & <- & ->).
  rewrite (r_dom _ _ HR), (r_act _ _ HR). simpl. destruct (negb _); [by eapply enqueue_refines|].
  assert (runs_to (rescheduleRequired;; tcbSchedEnqueue t) s (enqueue t (resched B))).
  { eapply runs_bind; [by apply resched_refines|]. intros s1 H1. eapply enqueue_refines; [done|]. by rewrite folk_resched. }
  destruct (act B) as [| |u] eqn:Ea; simpl; [|done..]. apply asked_refines; [done|]. intros u [= <-]. by eexists.
Qed.

Lemma set_state_refines s B t i ts :
  refines s B -> B.(folk) !! t = Some i -> runs_to (setThreadState t ts) s (set_state t ts B).
Proof using HC.
  intros HR Hi. unfold setThreadState. eapply runs_bind.
  - apply (modify_refines s B t _ (become ts) i); try done. by left.
  - intros s1 H1. unfold scheduleTCB, runs_to. rewrite get_bind.
    assert ((change t (become ts) B).(folk) !! t = Some (become ts i)) as Hi1 by (simpl; by rewrite lookup_alter_eq, Hi).
    destruct (read_thread s1 _ t _ (fun x => when ((t =? s1.(ksCurThread)) && bool_decide (s1.(ksSchedulerAction) = ResumeCurrentThread)
      && negb (isRunnable x)) rescheduleRequired) H1 Hi1) as (x & Ex & ->).
    rewrite isRunnable_info, Ex, (r_now _ _ H1), (r_act _ _ H1). unfold set_state, is_runnable. rewrite Hi1. simpl.
    destruct (_ && _); [by apply resched_refines | by apply runs_ret].
Qed.

(** ** Choosing *)

Lemma top_bound f d p : top f d = Some p -> 0 <= p < 256.
Proof. by intros [? _]%top_Some. Qed.

Definition ready (B : board) : Prop := forall t k, t ∈ B.(line) k -> is_runnable t B = true.

Lemma run_thread_refines s B t i :
  refines s B -> B.(folk) !! t = Some i -> runs_to (switchToThread t) s (run_thread t B).
Proof using HC.
  intros HR Hi. unfold switchToThread. eapply runs_bind; [by eapply dequeue_refines|]. intros s1 H1.
  assert (is_Some ((dequeue t B).(folk) !! t)) as Hh by (rewrite folk_dequeue; by eexists).
  eexists. split; [done|]. by split; try exact Hh; try apply H1.
Qed.

Lemma in_line_folk s B t k : refines s B -> t ∈ B.(line) k -> exists i, B.(folk) !! t = Some i.
Proof.
  intros HR Ht. apply (r_in _ _ HR) in Ht as (i & Hi & _). rewrite lookup_fmap in Hi. rewrite <- (r_folk _ _ HR), lookup_fmap.
  destruct (sthreads s !! t); [by eexists | done].
Qed.

Lemma choose_refines s B : refines s B -> ready B -> runs_to chooseThread s (choose B).
Proof using HC.
  intros HR Hready. unfold chooseThread, choose, runs_to, get_l1. rewrite get_bind.
  assert ((if 1 <? CONFIG_NUM_DOMAINS then s.(ksCurDomain) else 0) = B.(dom_now)) as ->.
  { pose proof (r_dom_range _ _ HR). destruct (Z.ltb_spec 1 CONFIG_NUM_DOMAINS); [apply HR | lia]. }
  pose proof (r_dom_range _ _ HR) as Hd. destruct (b_one _ _ _ (r_maps _ _ HR) _ Hd) as (w & Hw & _).
  rewrite bind_assoc, get_bind, (deref_bind _ w) by done. unfold nz. destruct (Z.eqb_spec w 0) as [->|H0]; simpl.
  - rewrite (no_prio B.(line) (dom_now B) s) by (done || apply HR). unfold switchToIdleThread. eexists. split; [done|].
    split; simpl; try apply HR.
  - destruct (highest_prio B.(line) (dom_now B) s w) as (p & Ep & Htop); [apply HR | done..|]. rewrite Htop.
    erewrite bind_run by exact Ep. pose proof (top_bound _ _ _ Htop) as Hp. apply top_Some in Htop as (_ & Hne & _).
    assert (valid (dom_now B, p)) as Hv by done. erewrite bind_run by by apply ready_index_run.
    destruct (r_queue _ _ HR _ Hv) as (q & Hq & Hseg). erewrite bind_run by by apply get_queue_run.
    destruct (line B (dom_now B, p)) as [|t l] eqn:El; [done|]. destruct Hseg as (-> & Ht & _).
    rewrite assert_bind by by apply negb_true_iff, Z.eqb_neq.
    assert (t ∈ line B (dom_now B, p)) as Hin by (rewrite El; left). destruct (in_line_folk s B t _ HR Hin) as [i Hi].
    destruct (read_thread s B t i (fun x => assert (isRunnable x);; switchToThread t) HR Hi) as (x & Ex & ->).
    pose proof (Hready t _ Hin) as Hrun. unfold is_runnable in Hrun. rewrite Hi in Hrun.
    rewrite assert_bind by (by rewrite isRunnable_info, Ex). by eapply run_thread_refines.
Qed.

(** C19 The two levels of bitmaps agree with a search of all the queues: the highest
    bit of the word of the highest bit is the highest priority of the domain with a
    thread that is ready, and the thread that [chooseThread] takes is the first of
    that queue. *)
Theorem highest_priority_found s B d p :
  refines s B -> 0 <= d < CONFIG_NUM_DOMAINS -> top B.(line) d = Some p ->
  getHighestPrio d s = Ok p s /\
  (d = B.(dom_now) -> ready B -> exists s' t, chooseThread s = Ok tt s' /\ s'.(ksCurThread) = t /\ hd_error (B.(line) (d, p)) = Some t).
Proof using HC.
  intros HR Hd Htop. destruct (b_one _ _ _ (r_maps _ _ HR) d Hd) as (w & Hw & _). split.
  - destruct (decide (w = 0)) as [->|H0]; [by rewrite (no_prio B.(line) d s (r_maps _ _ HR) Hd Hw) in Htop|].
    destruct (highest_prio B.(line) d s w (r_maps _ _ HR) Hd Hw H0) as (q & -> & Eq). congruence.
  - intros -> Hready. destruct (choose_refines s B HR Hready) as (s' & E & H'). pose proof Htop as (_ & Hne & _)%top_Some.
    destruct (B.(line) (dom_now B, p)) as [|t l] eqn:El; [done|]. exists s', t. split_and!; [done| |done].
    rewrite (r_now _ _ H'). unfold choose. by rewrite Htop, El.
Qed.

Lemma next_domain_refines s B : refines s B -> runs_to nextDomain s (next_domain B).
Proof using HC.
  intros HR. unfold nextDomain, next_domain, runs_to. rewrite get_bind. pose proof (r_slot_range _ _ HR) as Hs.
  pose proof config_schedule as Hc. rewrite (r_slot _ _ HR), u64_small by lia.
  set (i := if Z.of_nat (length ksDomSchedule) <=? dom_slot B + 1 then 0 else dom_slot B + 1).
  assert (0 <= i < Z.of_nat (length ksDomSchedule)) as Hi by (subst i; destruct (Z.leb_spec (Z.of_nat (length ksDomSchedule)) (dom_slot B + 1)); lia).
  destruct (lookup_lt_is_Some_2 ksDomSchedule (Z.to_nat i)) as [d Hd]; [lia|]. rewrite Hd, (deref_bind _ d) by done.
  pose proof (config_domain d (list_elem_of_lookup_2 _ _ _ Hd)). eexists. split; [done|]. split; simpl; try apply HR; try done.
Qed.

Lemma next_domain_ready B : ready B -> ready (next_domain B).
Proof. unfold next_domain, ready. by destruct (ksDomSchedule !! _). Qed.

Lemma choose_new_refines s B : refines s B -> ready B -> runs_to scheduleChooseNewThread s (choose_new B).
Proof using HC.
  intros HR Hready. unfold scheduleChooseNewThread, choose_new, runs_to. rewrite get_bind, (r_left _ _ HR).
  eapply runs_bind with (B1 := if dom_left B =? 0 then next_domain B else B).
  - unfold when. destruct (_ =? _); [by apply next_domain_refines | by apply runs_ret].
  - intros s1 H1. apply choose_refines; [done|]. destruct (_ =? _); [by apply next_domain_ready | done].
Qed.

(** What [elect] needs: the threads that are ready can run, and so can the one
    asked for, which is not the current one. *)
Definition electable (B : board) : Prop :=
  ready B /\ forall c, B.(act) = SwitchTo c -> is_runnable c B = true /\ c <> B.(now).

Lemma in_put_line (k : Z * Z) l f k' (t : Z) : t ∈ put k l f k' -> t ∈ l \/ t ∈ f k'.
Proof. unfold put. case_decide; auto. Qed.

Lemma line_with_line t g B k u : u ∈ (with_line t g B).(line) k ->
  u ∈ B.(line) k \/ exists i, B.(folk) !! t = Some i /\ u ∈ g (B.(line) (key i)) /\ k = key i.
Proof.
  unfold with_line. destruct (folk B !! t) as [i|]; [|by left]. simpl. unfold put. case_decide as E; [|by left].
  intros Hu. right. by exists i.
Qed.

Lemma elem_of_enqueue t u B k : u ∈ (enqueue t B).(line) k -> u ∈ B.(line) k \/ u = t.
Proof.
  unfold enqueue. destruct (in_line t B); [by left|]. intros [?|(i & _ & [->|?]%elem_of_cons & ->)]%line_with_line; auto.
Qed.

Lemma elem_of_append t u B k : u ∈ (append t B).(line) k -> u ∈ B.(line) k \/ u = t.
Proof.
  unfold append. destruct (in_line t B); [by left|].
  intros [?|(i & _ & [?| ->%list_elem_of_singleton]%elem_of_app & ->)]%line_with_line; auto.
Qed.

Lemma is_runnable_folk B B' t : B'.(folk) = B.(folk) -> is_runnable t B' = is_runnable t B.
Proof. unfold is_runnable. by intros ->. Qed.

Lemma ready_enqueue t B : ready B -> is_runnable t B = true -> ready (enqueue t B).
Proof.
  intros HB Ht u k Hu. rewrite (is_runnable_folk B) by apply folk_enqueue.
  apply elem_of_enqueue in Hu as [Hu| ->]; [by eapply HB | done].
Qed.

Lemma ready_append t B : ready B -> is_runnable t B = true -> ready (append t B).
Proof.
  intros HB Ht u k Hu. rewrite (is_runnable_folk B) by apply folk_append.
  apply elem_of_append in Hu as [Hu| ->]; [by eapply HB | done].
Qed.

Lemma with_line_regs t g B :
  let B' := with_line t g B in
  B'.(now) = B.(now) /\ B'.(idler) = B.(idler) /\ B'.(act) = B.(act) /\ B'.(dom_now) = B.(dom_now) /\ B'.(dom_left) = B.(dom_left).
Proof. unfold with_line. by destruct (folk B !! t). Qed.

Lemma enqueue_regs t B :
  let B' := enqueue t B in
  B'.(now) = B.(now) /\ B'.(idler) = B.(idler) /\ B'.(act) = B.(act) /\ B'.(dom_now) = B.(dom_now) /\ B'.(dom_left) = B.(dom_left).
Proof. unfold enqueue. destruct (in_line t B); [done | apply with_line_regs]. Qed.

Lemma elect_switch s B c (was : bool) (cur : sthread) n j d :
  refines s B -> ready B -> is_runnable c B = true -> c <> n -> n = B.(now) -> j = B.(idler) -> d = B.(dom_now) ->
  runs_to
    (x ← thread_at c;
     let fastfail := (n =? j) || (x.(tcbPriority) <? cur.(tcbPriority)) in
     fail ← (if fastfail then (b ← isHighestPrio d x.(tcbPriority); mret (negb b)) else mret false);
     if (fail : bool) then tcbSchedEnqueue c;; set_action ChooseNewThread;; scheduleChooseNewThread
     else if was && (x.(tcbPriority) =? cur.(tcbPriority)) then tcbSchedAppend c;; set_action ChooseNewThread;; scheduleChooseNewThread
     else assert (negb (c =? n));; switchToThread c) s
    (if ((n =? j) || (prio_of c B <? cur.(tcbPriority))) && negb (is_top (prio_of c B) B)
     then choose_new (asked ChooseNewThread (enqueue c B))
     else if was && (prio_of c B =? cur.(tcbPriority)) then choose_new (asked ChooseNewThread (append c B))
     else run_thread c B).
Proof using HC.
  intros HR Hready Hc Hne -> -> ->. unfold is_runnable in Hc. destruct (folk B !! c) as [i|] eqn:Hi; [|done].
  unfold runs_to. destruct (refines_at s B c i HR Hi) as (x & Hx & <- & _).
  erewrite (bind_run (thread_at c)) by by apply thread_at_run. unfold prio_of. rewrite Hi. simpl.
  assert (is_runnable c B = true) as Hrun by (unfold is_runnable; by rewrite Hi).
  erewrite bind_run with (s1 := s)
    (a := ((B.(now) =? B.(idler)) || (x.(tcbPriority) <? cur.(tcbPriority))) && negb (is_top x.(tcbPriority) B)).
  - destruct (_ && negb _); [|destruct (was && _)].
    + eapply runs_bind; [by eapply enqueue_refines|]. intros s1 H1. eapply runs_bind; [by apply asked_plain|].
      intros s2 H2. apply choose_new_refines; [done|]. by apply ready_enqueue.
    + eapply runs_bind; [by eapply append_refines|]. intros s1 H1. eapply runs_bind; [by apply asked_plain|].
      intros s2 H2. apply choose_new_refines; [done|]. by apply ready_append.
    + rewrite assert_bind by by apply negb_true_iff, Z.eqb_neq. by eapply run_thread_refines.
  - destruct (_ || _); [|done]. by erewrite bind_run by (apply (is_highest B.(line)); apply HR).
Qed.

Lemma elect_refines s B : refines s B -> electable B -> runs_to schedule s (elect B).
Proof using HC.
  intros HR [Hready Hcand]. unfold schedule, elect, runs_to. rewrite get_bind.
  destruct (r_here _ _ HR) as [i Hi]. rewrite (r_act _ _ HR), (r_now _ _ HR).
  eapply runs_bind; [|intros s1 H1; by apply asked_plain].
  case_bool_decide as Ea; unfold when at 1; [|rewrite Ea; by apply runs_ret].
  destruct (refines_at s B _ i HR Hi) as (x & Hx & Ex & _). unfold runs_to.
  erewrite (bind_run (thread_at _)) by by apply thread_at_run. rewrite isRunnable_info, Ex.
  assert (is_runnable (now B) B = runnable i) as -> by (unfold is_runnable; by rewrite Hi).
  eapply runs_bind with (B1 := if runnable i then enqueue (now B) B else B).
  { unfold when. destruct (runnable i); [by eapply enqueue_refines | by apply runs_ret]. }
  intros s1 H1.
  assert (ready (if runnable i then enqueue (now B) B else B)) as Hready1.
  { destruct (runnable i) eqn:Er; [|done]. apply ready_enqueue; [done|]. unfold is_runnable. by rewrite Hi. }
  assert (prio_of (now B) B = x.(tcbPriority)) as -> by (unfold prio_of; rewrite Hi; by subst i).
  set (B1 := if runnable i then enqueue (now B) B else B) in *.
  assert (B1.(folk) = B.(folk) /\ B1.(now) = B.(now) /\ B1.(idler) = B.(idler) /\ B1.(dom_now) = B.(dom_now)) as (Ef & En & Eid & Ed).
  { subst B1. destruct (runnable i); [|done]. pose proof (enqueue_regs (now B) B) as (-> & -> & _ & -> & _). by rewrite folk_enqueue. }
  destruct (act B) as [| |c] eqn:Eact; [done | by apply choose_new_refines|]. destruct (Hcand c eq_refl) as [Hc Hne].
  assert (prio_of c B = prio_of c B1) as -> by (unfold prio_of; by rewrite Ef).
  rewrite (r_idle _ _ HR), (r_dom _ _ HR). apply elect_switch; try done. by rewrite (is_runnable_folk B).
Qed.

(** ** Entries *)

Lemma in_line_dequeue B t i : B.(folk) !! t = Some i -> in_line t (dequeue t B) = false.
Proof.
  intros Hi. unfold dequeue. destruct (in_line t B) eqn:E; [|done]. unfold in_line. rewrite folk_with_line, Hi.
  unfold with_line. rewrite Hi. simpl. rewrite put_eq. apply bool_decide_eq_false. by intros [? _]%elem_of_remove.
Qed.

Lemma tick_slice_refines s B i :
  refines s B -> B.(folk) !! B.(now) = Some i ->
  runs_to (cur ← thread_at s.(ksCurThread);
    when (bool_decide (cur.(tsType) = Running))
      (if 1 <? cur.(tcbTimeSlice)
       then thread_modify s.(ksCurThread) (fun x => {| x with tcbTimeSlice := x.(tcbTimeSlice) - 1 |})
       else thread_modify s.(ksCurThread) (fun x => {| x with tcbTimeSlice := CONFIG_TIME_SLICE |});;
            tcbSchedAppend s.(ksCurThread);; rescheduleRequired)) s
    (if bool_decide (state_of B.(now) B = Running) then
       if 1 <? slice_of B.(now) B then change B.(now) (fun i => {| i with i_slice := i.(i_slice) - 1 |}) B
       else resched (append B.(now) (change B.(now) (fun i => {| i with i_slice := CONFIG_TIME_SLICE |}) B))
     else B).
Proof using HC.
  intros HR Hi. unfold runs_to. destruct (refines_at s B _ i HR Hi) as (x & Hx & <- & _). rewrite (r_now _ _ HR).
  erewrite (bind_run (thread_at _)) by by apply thread_at_run. unfold state_of, slice_of. rewrite Hi. simpl.
  case_bool_decide; [|by apply runs_ret]. unfold when. destruct (1 <? tcbTimeSlice x).
  - eapply (modify_refines s B _ _ _ (info_of x)); try done. by left.
  - eapply runs_bind; [eapply (modify_refines s B _ _ (fun i => {| i with i_slice := CONFIG_TIME_SLICE |}) (info_of x)); try done; by left|].
    intros s1 H1. eapply runs_bind; [eapply append_refines; [done|]; simpl; by rewrite lookup_alter_eq, Hi|].
    intros s2 H2. by apply resched_refines.
Qed.

Lemma tick_refines s B : refines s B -> runs_to timerTick s (tick B).
Proof using HC.
  intros HR. destruct (r_here _ _ HR) as [i Hi]. unfold timerTick, tick, runs_to. rewrite get_bind.
  destruct (tick_slice_refines s B i HR Hi) as (s1 & E1 & H1).
  unfold mbind at 1 in E1. rewrite <- bind_assoc. erewrite bind_run by exact E1. clear E1.
  set (B1 := if bool_decide _ then _ else _) in *. unfold when. destruct (1 <? CONFIG_NUM_DOMAINS); [|by apply runs_ret].
  rewrite modify_bind, get_bind. simpl. rewrite (r_left _ _ H1).
  assert (refines {| s1 with ksDomainTime := u64 (B1.(dom_left) - 1) |} {| B1 with dom_left := u64 (B1.(dom_left) - 1) |}) as H2
    by (split; simpl; try apply H1; done).
  destruct (_ =? 0); [by apply resched_refines | by apply runs_ret].
Qed.

Lemma yield_refines s B : refines s B -> runs_to handleYield s (yield B).
Proof using HC.
  intros HR. destruct (r_here _ _ HR) as [i Hi]. unfold handleYield, yield, runs_to. rewrite get_bind, (r_now _ _ HR).
  eapply runs_bind; [by eapply dequeue_refines|]. intros s1 H1.
  eapply runs_bind; [eapply append_refines; [done|]; by rewrite folk_dequeue|]. intros s2 H2. by apply resched_refines.
Qed.

(** A thread is taken out of its queue, changed, and looked at again. *)
Lemma requeue_refines s B t i f g (c : sthread -> M sched unit) B2 :
  refines s B -> B.(folk) !! t = Some i ->
  (forall x, info_of (f x) = g (info_of x)) -> (forall x, link (f x) = link x) -> (forall x, (f x).(tcbQueued) = x.(tcbQueued)) ->
  valid (key (g i)) ->
  (forall s1 x, refines s1 (change t g (dequeue t B)) -> (change t g (dequeue t B)).(folk) !! t = Some (g i) ->
    isRunnable x = is_runnable t (change t g (dequeue t B)) -> runs_to (c x) s1 B2) ->
  runs_to (tcbSchedDequeue t;; thread_modify t f;; x ← thread_at t; c x) s B2.
Proof using HC.
  intros HR Hi Hfg Hl Hq Hv Hc. eapply runs_bind; [by eapply dequeue_refines|]. intros s1 H1.
  assert ((dequeue t B).(folk) !! t = Some i) as Hi1 by (by rewrite folk_dequeue).
  eapply runs_bind; [eapply (modify_refines s1 _ t f g i); try done; right; split; [by eapply in_line_dequeue | done]|].
  intros s2 H2. unfold runs_to.
  assert ((change t g (dequeue t B)).(folk) !! t = Some (g i)) as Hi2 by (simpl; by rewrite lookup_alter_eq, Hi1).
  destruct (refines_at s2 _ t _ H2 Hi2) as (x & Hx & Ex & _). erewrite (bind_run (thread_at t)) by by apply thread_at_run.
  apply Hc; [done..|]. unfold is_runnable. by rewrite Hi2, isRunnable_info, Ex.
Qed.

Lemma set_prio_refines s B t i p :
  refines s B -> B.(folk) !! t = Some i -> 0 <= p < 256 -> runs_to (setPriority t p) s (set_prio t p B).
Proof using HC.
  intros HR Hi Hp. apply (requeue_refines s B t i _ (fun i => {| i with i_prio := p |})); try done.
  { split; [apply (r_valid _ _ HR t i Hi) | done]. }
  intros s1 x H1 Hi1 ->. unfold set_prio, when. destruct (is_runnable _ _); [|by apply runs_ret].
  eapply runs_bind; [by eapply enqueue_refines|]. intros s2 H2. by apply resched_refines.
Qed.

Lemma set_domain_refines s B t i d :
  refines s B -> B.(folk) !! t = Some i -> 0 <= d < CONFIG_NUM_DOMAINS -> runs_to (setDomain t d) s (set_domain t d B).
Proof using HC.
  intros HR Hi Hd. apply (requeue_refines s B t i _ (fun i => {| i with i_dom := d |})); try done.
  { split; [done | apply (r_valid _ _ HR t i Hi)]. }
  intros s1 x H1 Hi1 ->. unfold set_domain. set (B' := change t _ (dequeue t B)) in *.
  eapply (runs_bind _ _ _ (if is_runnable t B' then enqueue t B' else B')).
  - unfold when. destruct (is_runnable _ _); [by eapply enqueue_refines | by apply runs_ret].
  - intros s2 H2. unfold runs_to. rewrite get_bind, (r_now _ _ H2). unfold when.
    destruct (t =? _); [by apply resched_refines | by apply runs_ret].
Qed.

Lemma cancel_state_refines s B t i :
  refines s B -> B.(folk) !! t = Some i -> runs_to (cancelIPC_state t) s (cancel_state t B).
Proof using HC.
  intros HR Hi. unfold cancelIPC_state, cancel_state, state_of, runs_to. rewrite Hi.
  destruct (refines_at s B t i HR Hi) as (x & Hx & <- & _). erewrite (bind_run (thread_at t)) by by apply thread_at_run.
  simpl. destruct (tsType x); try (by apply runs_ret); by eapply set_state_refines.
Qed.

Lemma folk_set_state t ts B : (set_state t ts B).(folk) = alter (become ts) t B.(folk).
Proof. unfold set_state. destruct (_ && _); [|done]. by rewrite folk_resched. Qed.

Lemma known_set_state t u ts B i : B.(folk) !! u = Some i -> exists j, (set_state t ts B).(folk) !! u = Some j.
Proof. intros Hi. rewrite folk_set_state. apply lookup_alter_is_Some. by eexists. Qed.

Lemma known_cancel_state t u B i : B.(folk) !! u = Some i -> exists j, (cancel_state t B).(folk) !! u = Some j.
Proof. intros Hi. unfold cancel_state. destruct (state_of t B); try (by eexists); by eapply known_set_state. Qed.

Lemma stop_refines s B t i : refines s B -> B.(folk) !! t = Some i -> runs_to (suspend t) s (stop t B).
Proof using HC.
  intros HR Hi. unfold suspend, stop. destruct (known_cancel_state t t B i Hi) as [j Hj].
  destruct (known_set_state t t Inactive _ j Hj) as [k Hk].
  eapply runs_bind; [by eapply cancel_state_refines|]. intros s1 H1.
  eapply runs_bind; [by eapply set_state_refines|]. intros s2 H2. by eapply dequeue_refines.
Qed.

Lemma start_refines s B t i : refines s B -> B.(folk) !! t = Some i -> runs_to (restart t) s (start t B).
Proof using HC.
  intros HR Hi. unfold restart, start, state_of, runs_to. rewrite Hi, bool_decide_true, andb_true_r by by eexists.
  destruct (refines_at s B t i HR Hi) as (x & Hx & <- & _). erewrite (bind_run (thread_at t)) by by apply thread_at_run.
  change (isBlocked x) with (blocked_state (info_of x).(i_state)). unfold when. destruct (blocked_state _); [|by apply runs_ret].
  destruct (known_cancel_state t t B _ Hi) as [j Hj]. destruct (known_set_state t t Restart _ j Hj) as [k Hk].
  eapply runs_bind; [by eapply cancel_state_refines|]. intros s1 H1.
  eapply runs_bind; [by eapply set_state_refines|]. intros s2 H2.
  eapply runs_bind; [by eapply enqueue_refines|]. intros s3 H3. eapply possible_refines; [done|]. by rewrite folk_enqueue.
Qed.

Lemma activate_refines s B :
  refines s B -> is_runnable B.(now) B = true \/ state_of B.(now) B = IdleThreadState -> runs_to activateThread s (activate B).
Proof using HC.
  intros HR Hst. destruct (r_here _ _ HR) as [i Hi]. unfold activateThread, activate, state_of, runs_to. rewrite get_bind, (r_now _ _ HR), Hi.
  unfold is_runnable, runnable, state_of in Hst. rewrite Hi in Hst.
  destruct (refines_at s B _ i HR Hi) as (x & Hx & <- & _). erewrite (bind_run (thread_at _)) by by apply thread_at_run. simpl in *.
  destruct (tsType x); try (by apply runs_ret); try (by destruct Hst). by eapply set_state_refines.
Qed.

(** A loop keeps what each of its steps keeps. *)
Lemma runs_each {A} (l : list A) (c : A -> M sched unit) (g : board -> A -> board) (P : board -> Prop) s B :
  refines s B -> P B ->
  (forall a s1 B1, a ∈ l -> P B1 -> refines s1 B1 -> runs_to (c a) s1 (g B1 a) /\ P (g B1 a)) ->
  runs_to (for_each l c) s (foldl g B l).
Proof.
  revert s B. induction l as [|a l IH]; intros s B HR HP Hc; simpl; [by apply runs_ret|].
  destruct (Hc a s B) as [Hrun HP']; [left | done..|]. eapply runs_bind; [done|]. intros s1 H1.
  apply IH; [done..|]. intros b s2 B2 Hb. apply Hc. by right.
Qed.

Definition known (ts : list Z) (B : board) : Prop := forall t, t ∈ ts -> is_Some (B.(folk) !! t).

Lemma known_set ts t st B : known ts B -> known ts (set_state t st B).
Proof. intros H u Hu. rewrite folk_set_state, lookup_alter_is_Some. by apply H. Qed.

Lemma start_all_refines s B q : refines s B -> known q B -> runs_to (restart_all q) s (start_all q B).
Proof using HC.
  intros HR Hq. unfold restart_all, start_all. eapply runs_bind; [|intros s1 H1; by apply resched_refines].
  apply (runs_each q _ _ (known q)); [done..|]. intros t s1 B1 Ht HP H1. destruct (HP t Ht) as [i Hi]. split.
  - destruct (known_set_state t t Restart _ i Hi) as [j Hj].
    eapply runs_bind; [by eapply set_state_refines|]. intros s2 H2. by eapply enqueue_refines.
  - intros u Hu. rewrite folk_enqueue. by apply (known_set q).
Qed.

Lemma folk_possible t B : (possible t B).(folk) = B.(folk).
Proof.
  unfold possible. destruct (negb _); [apply folk_enqueue|]. destruct (act B); [done|..]; by rewrite folk_enqueue, folk_resched.
Qed.

Lemma elem_of_targets t ds : t ∈ targets ds <-> Unblock t ∈ ds.
Proof.
  induction ds as [|[u|ts] ds IH]; simpl; [by rewrite !elem_of_nil|..]; rewrite !elem_of_cons, IH; [|naive_solver].
  split; intros [H|H]; auto; left; congruence.
Qed.

Lemma deeds_refines s B ds : refines s B -> known (targets ds) B -> runs_to (for_each ds do_deed) s (foldl deed_on B ds).
Proof using HC.
  intros HR Hq. apply (runs_each ds _ _ (known (targets ds))); [done..|]. intros [t|st] s1 B1 Hd HP H1; simpl.
  - apply elem_of_targets in Hd. destruct (HP t Hd) as [i Hi]. split.
    + destruct (known_set_state t t Running _ i Hi) as [j Hj].
      eapply runs_bind; [by eapply set_state_refines|]. intros s2 H2. by eapply possible_refines.
    + intros u Hu. rewrite folk_possible. by apply (known_set (targets ds)).
  - split; [|by apply known_set]. destruct (r_here _ _ H1) as [i Hi]. unfold runs_to. rewrite get_bind, (r_now _ _ H1).
    by eapply set_state_refines.
Qed.

Lemma is_blocked_known t B : is_blocked t B = true -> is_Some (B.(folk) !! t).
Proof. unfold is_blocked. destruct (folk B !! t); [by eexists | done]. Qed.

Lemma blocked_known ts B : forallb (fun t => is_blocked t B) ts = true -> known ts B.
Proof. rewrite forallb_forall. intros H t Ht. by apply is_blocked_known, H, list_elem_of_In. Qed.

Lemma handle_refines s B e : refines s B -> may e B = true -> runs_to (handle e) s (handle_on e B).
Proof using HC.
  intros HR Hm. destruct e as [ds| | |t p|t p|t|t|q]; simpl in *;
    repeat match goal with
    | H : _ && _ = true |- _ => apply andb_true_iff in H as [? ?]
    | H : bool_decide (is_Some _) = true |- _ => apply bool_decide_eq_true in H as [? ?]
    end.
  - by apply deeds_refines, blocked_known.
  - by apply tick_refines.
  - by apply yield_refines.
  - eapply set_prio_refines; [done..|]. split; [by apply Z.leb_le | by apply Z.ltb_lt].
  - eapply (modify_refines s B t _ _); try done. by left.
  - by eapply stop_refines.
  - by eapply start_refines.
  - by apply start_all_refines, blocked_known.
Qed.

End refine.
