(* ===== verification/SchedSound.v ===== *)
(** * The scheduler runs the right thread

    What holds of the board between the entries of the kernel: every thread that
    can run is in its queue or is the current one, and no queue of the current
    domain has a thread of a higher priority than the current one.  Each handler
    leaves what [elect] needs to establish it again. *)
From S2P Require Import Prelude Dlist Ntfn Sched SchedSpec SchedRefine.

(** The queues hold threads that can run, and all of them but the current one, the
    one asked for and those in [X]. *)
Record stocked (X : Z -> Prop) (B : board) : Prop := {
  k_line t k : t ∈ B.(line) k -> exists i, B.(folk) !! t = Some i /\ key i = k /\ runnable i = true;
  k_nodup k : NoDup (B.(line) k);
  k_kept t i : B.(folk) !! t = Some i -> runnable i = true ->
    t = B.(now) \/ B.(act) = SwitchTo t \/ X t \/ t ∈ B.(line) (key i);
  k_idle : exists i, B.(folk) !! B.(idler) = Some i /\ i.(i_state) = IdleThreadState;
  k_here : is_Some (B.(folk) !! B.(now));
  k_prio t i : B.(folk) !! t = Some i -> 0 <= i.(i_prio) < 256;
}.

Definition none (t : Z) : Prop := False.

(** The current thread is in no queue and no other thread of its domain comes
    before it. *)
Definition quiet (B : board) : Prop :=
  (forall k, B.(now) ∉ B.(line) k) /\
  forall p u, u ∈ B.(line) (B.(dom_now), p) -> B.(act) = SwitchTo u \/ B.(now) <> B.(idler) /\ p <= prio_of B.(now) B.

Definition calm (B : board) : Prop :=
  match B.(act) with
  | ResumeCurrentThread =>
      quiet B /\ (B.(now) = B.(idler) \/ is_runnable B.(now) B = true /\ dom_of B.(now) B = B.(dom_now))
  | SwitchTo c => quiet B /\ c <> B.(now) /\ is_runnable c B = true /\ dom_of c B = B.(dom_now)
  | ChooseNewThread => True
  end.

Definition sound (B : board) : Prop := stocked none B /\ calm B.

(** Between two entries. *)
Definition steady (B : board) : Prop := sound B /\ B.(act) = ResumeCurrentThread.

(** ** Queues *)

Lemma in_line_true t B i : B.(folk) !! t = Some i -> in_line t B = true <-> t ∈ B.(line) (key i).
Proof. intros Hi. unfold in_line. rewrite Hi. apply bool_decide_eq_true. Qed.

Lemma with_line_eq t g B i : B.(folk) !! t = Some i ->
  with_line t g B = {| B with line := put (key i) (g (B.(line) (key i))) B.(line) |}.
Proof. intros Hi. unfold with_line. by rewrite Hi. Qed.

Lemma stocked_weaken X Y B : stocked X B -> (forall t, X t -> Y t) -> stocked Y B.
Proof. intros H HX. split; try apply H. intros t i Hi Hr. destruct (k_kept _ _ H t i Hi Hr) as [|[|[|]]]; auto. Qed.

(** A thread joins its queue, at either end. *)
Lemma join_stocked X B t i g :
  stocked X B -> B.(folk) !! t = Some i -> runnable i = true -> t ∉ B.(line) (key i) ->
  (forall u, u ∈ g (B.(line) (key i)) <-> u = t \/ u ∈ B.(line) (key i)) -> NoDup (g (B.(line) (key i))) ->
  stocked (fun u => X u /\ u <> t) (with_line t g B).
Proof.
  intros H Hi Hr Hn Hg Hnd. rewrite (with_line_eq t g B i Hi). split; simpl; try apply H.
  - intros u k. destruct (decide (k = key i)) as [->|Hk].
    + rewrite put_eq, Hg. intros [->|Hu]; [by exists i | by apply (k_line _ _ H)].
    + rewrite put_ne by done. apply (k_line _ _ H).
  - intros k. destruct (decide (k = key i)) as [->|Hk]; [by rewrite put_eq | rewrite put_ne by done; apply H].
  - intros u j Hj Hrj. destruct (decide (u = t)) as [->|Hu].
    + assert (j = i) as -> by congruence. right. right. right. rewrite put_eq, Hg. by left.
    + destruct (k_kept _ _ H u j Hj Hrj) as [|[|[|Hu']]]; auto. right. right. right.
      destruct (decide (key j = key i)) as [E|Hk]; [rewrite E in *; rewrite put_eq, Hg; by right | by rewrite put_ne].
Qed.

Lemma lined_stocked X B t i :
  stocked X B -> B.(folk) !! t = Some i -> t ∈ B.(line) (key i) -> stocked (fun u => X u /\ u <> t) B.
Proof.
  intros H Hi Hn. split; try apply H. intros u j Hj Hr. destruct (decide (u = t)) as [->|Hu].
  - assert (j = i) as -> by congruence. auto.
  - destruct (k_kept _ _ H u j Hj Hr) as [|[|[|]]]; auto.
Qed.

Lemma runnable_folk t B : is_runnable t B = true -> exists i, B.(folk) !! t = Some i /\ runnable i = true.
Proof. unfold is_runnable. destruct (folk B !! t); [by eexists | done]. Qed.

Lemma enqueue_stocked X B t :
  stocked X B -> is_runnable t B = true -> stocked (fun u => X u /\ u <> t) (enqueue t B).
Proof.
  intros H (i & Hi & Hr)%runnable_folk. unfold enqueue. destruct (in_line t B) eqn:E.
  - by apply (lined_stocked X B t i), (in_line_true t B i).
  - assert (t ∉ B.(line) (key i)) as Hn by (intros Ht; by apply (in_line_true t B i Hi) in Ht; congruence).
    apply (join_stocked X B t i); [done..| |]; [intros u; by rewrite elem_of_cons|]. apply NoDup_cons. split; [done | apply H].
Qed.

Lemma append_stocked X B t :
  stocked X B -> is_runnable t B = true -> stocked (fun u => X u /\ u <> t) (append t B).
Proof.
  intros H (i & Hi & Hr)%runnable_folk. unfold append. destruct (in_line t B) eqn:E.
  - by apply (lined_stocked X B t i), (in_line_true t B i).
  - assert (t ∉ B.(line) (key i)) as Hn by (intros Ht; by apply (in_line_true t B i Hi) in Ht; congruence).
    apply (join_stocked X B t i); [done..| |].
    + intros u. rewrite elem_of_app, list_elem_of_singleton. tauto.
    + apply NoDup_app. split_and!; [apply H | | apply NoDup_singleton]. intros u Hu ->%list_elem_of_singleton. done.
Qed.

Lemma elem_of_dequeue t u B k : u ∈ (dequeue t B).(line) k -> u ∈ B.(line) k.
Proof.
  unfold dequeue. destruct (in_line t B); [|done].
  intros [?|(i & _ & [_ ?]%elem_of_remove & ->)]%line_with_line; done.
Qed.

Lemma dequeue_stocked X B t : stocked X B -> stocked (fun u => X u \/ u = t) (dequeue t B).
Proof.
  intros H. unfold dequeue. destruct (in_line t B) eqn:E; [|by apply (stocked_weaken X); [|auto]].
  destruct (folk B !! t) as [i|] eqn:Hi; [|unfold with_line; rewrite Hi; by apply (stocked_weaken X); [|auto]].
  rewrite (with_line_eq t _ B i Hi). split; simpl; try apply H.
  - intros u k. unfold put. case_decide; [subst k; intros [_ ?]%elem_of_remove|]; by apply (k_line _ _ H).
  - intros k. unfold put. case_decide; [apply NoDup_remove|]; apply H.
  - intros u j Hj Hr. destruct (k_kept _ _ H u j Hj Hr) as [|[|[|Hu]]]; auto. destruct (decide (u = t)) as [|Hne]; auto.
    right. right. right. unfold put. case_decide as Ek; [|done]. rewrite Ek in *. by apply elem_of_remove.
Qed.

(** A thread that has left its queue is in none. *)
Lemma dequeue_gone X B t k : stocked X B -> t ∉ (dequeue t B).(line) k.
Proof.
  intros H Ht. assert (t ∈ B.(line) k) as Hk by (by eapply elem_of_dequeue).
  destruct (k_line _ _ H t k Hk) as (i & Hi & <- & _). pose proof (in_line_dequeue B t i Hi) as E.
  assert ((dequeue t B).(folk) !! t = Some i) as Hi' by (by rewrite folk_dequeue).
  apply (in_line_true t _ i Hi') in Ht. congruence.
Qed.

Section sound.
Context {C : Config} {HC : ConfigOk}.

(** ** Choosing *)

(** All the threads that can run are in their queues. *)
Definition full (B : board) : Prop := forall t i, B.(folk) !! t = Some i -> runnable i = true -> t ∈ B.(line) (key i).

Lemma idle_not_runnable X B : stocked X B -> is_runnable B.(idler) B = false.
Proof. intros H. destruct (k_idle _ _ H) as (i & Hi & Es). unfold is_runnable, runnable. by rewrite Hi, Es. Qed.

Lemma runnable_not_idle X B t : stocked X B -> is_runnable t B = true -> t <> B.(idler).
Proof. intros H Ht ->. by rewrite (idle_not_runnable X B H) in Ht. Qed.

Lemma line_runnable X B t k : stocked X B -> t ∈ B.(line) k -> is_runnable t B = true /\ (dom_of t B, prio_of t B) = k.
Proof.
  intros H Ht. destruct (k_line _ _ H t k Ht) as (i & Hi & <- & Hr). unfold is_runnable, dom_of, prio_of. by rewrite Hi.
Qed.

Lemma regs_dequeue t B :
  let B' := dequeue t B in
  B'.(now) = B.(now) /\ B'.(idler) = B.(idler) /\ B'.(act) = B.(act) /\ B'.(dom_now) = B.(dom_now) /\ B'.(dom_left) = B.(dom_left).
Proof. unfold dequeue. destruct (in_line t B); [apply with_line_regs | done]. Qed.

(** [t] becomes the current thread; every other thread of the domain that is ready
    has at most its priority. *)
Lemma run_thread_steady X B t :
  stocked X B -> (forall u i, B.(folk) !! u = Some i -> runnable i = true -> u = t \/ u ∈ B.(line) (key i)) ->
  is_runnable t B = true -> dom_of t B = B.(dom_now) ->
  (forall p u, u ∈ B.(line) (B.(dom_now), p) -> u <> t -> p <= prio_of t B) ->
  steady (asked ResumeCurrentThread (run_thread t B)).
Proof.
  intros H Hfull Hr Hd Htop. pose proof (dequeue_stocked X B t H) as Hs.
  pose proof (regs_dequeue t B) as (_ & Eid & _ & Ed & _). pose proof (folk_dequeue t B) as Ef.
  assert (is_Some (B.(folk) !! t)) as Ht by (apply runnable_folk in Hr as (i & Hi & _); by eexists).
  assert (forall k, t ∉ (dequeue t B).(line) k) as Hgone by (intros k; by eapply dequeue_gone).
  split; [|done]. split.
  - split; simpl; try apply Hs; [|by rewrite Ef]. intros u i Hi Hru. rewrite Ef in Hi.
    destruct (Hfull u i Hi Hru) as [|Hu]; [by left|]. destruct (decide (u = t)) as [|Hne]; [by left|]. right. right. right.
    unfold dequeue. destruct (in_line t B); [|done]. destruct Ht as [j Hj]. rewrite (with_line_eq t _ B j Hj). simpl. unfold put.
    case_decide as Ek; [|done]. rewrite Ek in *. by apply elem_of_remove.
  - unfold calm. simpl. split; [split; simpl|].
    + done.
    + intros p u Hu. right. rewrite Ed in Hu. assert (u <> t) as Hut by (by intros ->; apply (Hgone _ Hu)). split.
      * rewrite Eid. by eapply runnable_not_idle.
      * unfold prio_of. simpl. rewrite Ef. apply (Htop p u); [|done]. by eapply elem_of_dequeue.
    + right. unfold is_runnable, dom_of in *. simpl. by rewrite Ef, Ed.
Qed.

Lemma choose_steady X B : stocked X B -> full B -> steady (asked ResumeCurrentThread (choose B)).
Proof.
  intros H Hfull. unfold choose. destruct (top B.(line) B.(dom_now)) as [p|] eqn:Htop.
  - pose proof Htop as (Hp & Hne & Hhigh)%top_Some. destruct (line B (dom_now B, p)) as [|t l] eqn:El; [done|].
    assert (t ∈ B.(line) (dom_now B, p)) as Ht by (rewrite El; left). destruct (line_runnable X B t _ H Ht) as [Hr [= Hd Hpt]].
    apply (run_thread_steady X); [done | | done..|]; [intros u i Hi Hru; right; by apply Hfull|].
    intros q u Hu _. rewrite Hpt. destruct (Z.le_gt_cases q p) as [|Hgt]; [done|]. exfalso.
    destruct (k_line _ _ H u _ Hu) as (i & Hi & [= Ed Eq] & _). pose proof (k_prio _ _ H u i Hi).
    rewrite Hhigh in Hu by lia. by apply elem_of_nil in Hu.
  - pose proof (proj1 (top_None _ _) Htop) as Hno. split; [|done]. split.
    + split; simpl; try apply H; [intros t i Hi Hr; auto | destruct (k_idle _ _ H) as (i & Hi & _); by eexists].
    + unfold calm. simpl. split; [split; simpl|by left].
      * intros k Hk. destruct (line_runnable X B _ _ H Hk) as [Hr _]. by rewrite (idle_not_runnable X B H) in Hr.
      * intros p u Hu. exfalso. destruct (k_line _ _ H u _ Hu) as (i & Hi & [= Ed Eq] & _). pose proof (k_prio _ _ H u i Hi).
        rewrite Hno in Hu by lia. by apply elem_of_nil in Hu.
Qed.

Lemma choose_new_steady X B : stocked X B -> full B -> steady (asked ResumeCurrentThread (choose_new B)).
Proof.
  intros H Hfull. unfold choose_new. destruct (dom_left B =? 0); [|by eapply choose_steady].
  unfold next_domain. destruct (ksDomSchedule !! _); [|by eapply choose_steady]. apply (choose_steady X); [|done].
  split; simpl; apply H.
Qed.

Lemma stocked_full X B : stocked X B -> full B -> forall a, stocked none (asked a B).
Proof. intros H Hf a. split; simpl; try apply H. intros t i Hi Hr. auto. Qed.

(** The queues with the current thread put back. *)
Definition returned (B : board) : board := if is_runnable B.(now) B then enqueue B.(now) B else B.

Lemma returned_facts B : stocked none B ->
  stocked none (returned B) /\ (returned B).(folk) = B.(folk) /\
  (returned B).(idler) = B.(idler) /\ (returned B).(act) = B.(act) /\ (returned B).(dom_now) = B.(dom_now) /\
  (forall t i, B.(folk) !! t = Some i -> runnable i = true -> B.(act) = SwitchTo t \/ t ∈ (returned B).(line) (key i)) /\
  (forall t k, t ∈ (returned B).(line) k -> t ∈ B.(line) k \/ t = B.(now) /\ is_runnable B.(now) B = true).
Proof.
  intros H. unfold returned. destruct (is_runnable B.(now) B) eqn:Er.
  - pose proof (enqueue_regs B.(now) B) as (En & -> & Ea & -> & _). rewrite folk_enqueue.
    pose proof (enqueue_stocked none B _ H Er) as Hs. split_and!; try done.
    + by apply (stocked_weaken _ _ _ Hs); intros t [? _].
    + intros t i Hi Hr. destruct (decide (t = B.(now))) as [->|Hne].
      * right. apply (in_line_true _ (enqueue B.(now) B)); [by rewrite folk_enqueue|]. unfold enqueue.
        destruct (in_line (now B) B) eqn:E; [done|]. unfold in_line. rewrite folk_with_line, Hi, (with_line_eq _ _ B i Hi). simpl.
        rewrite put_eq. apply bool_decide_true. left.
      * rewrite <- (folk_enqueue B.(now) B) in Hi. destruct (k_kept _ _ Hs t i Hi Hr) as [?|[?|[[[] _]|?]]]; [congruence | left; congruence | by right].
    + intros t k [?|?]%elem_of_enqueue; auto.
  - split_and!; try done; auto. intros t i Hi Hr. destruct (k_kept _ _ H t i Hi Hr) as [->|[?|[[]|?]]]; auto.
    unfold is_runnable in Er. rewrite Hi in Er. congruence.
Qed.

Lemma line_enqueue t B i : B.(folk) !! t = Some i -> t ∈ (enqueue t B).(line) (key i) /\ forall u k, u ∈ B.(line) k -> u ∈ (enqueue t B).(line) k.
Proof.
  intros Hi. unfold enqueue. destruct (in_line t B) eqn:E; [by apply (in_line_true t B i Hi) in E|].
  rewrite (with_line_eq t _ B i Hi). simpl. rewrite put_eq. split; [left|]. intros u k Hu. unfold put. case_decide; [subst; by right | done].
Qed.

Lemma line_append t B i : B.(folk) !! t = Some i -> t ∈ (append t B).(line) (key i) /\ forall u k, u ∈ B.(line) k -> u ∈ (append t B).(line) k.
Proof.
  intros Hi. unfold append. destruct (in_line t B) eqn:E; [by apply (in_line_true t B i Hi) in E|].
  rewrite (with_line_eq t _ B i Hi). simpl. rewrite put_eq. split; [apply elem_of_app; right; left|].
  intros u k Hu. unfold put. case_decide; [subst; apply elem_of_app; by left | done].
Qed.

Lemma sound_electable B : sound B -> electable B.
Proof.
  intros [H Hc]. split; [intros t k Ht; by apply (line_runnable none B t k H)|].
  intros c Ea. unfold calm in Hc. rewrite Ea in Hc. naive_solver.
Qed.

Lemma elect_eq B :
  elect B = asked ResumeCurrentThread
    match B.(act) with
    | ResumeCurrentThread => B
    | ChooseNewThread => choose_new (returned B)
    | SwitchTo c =>
        if ((B.(now) =? B.(idler)) || (prio_of c B <? prio_of B.(now) B)) && negb (is_top (prio_of c B) (returned B))
        then choose_new (asked ChooseNewThread (enqueue c (returned B)))
        else if is_runnable B.(now) B && (prio_of c B =? prio_of B.(now) B)
        then choose_new (asked ChooseNewThread (append c (returned B)))
        else run_thread c (returned B)
    end.
Proof. done. Qed.

(** A thread that was woken runs at once when its priority allows. *)
Lemma switch_steady B c :
  stocked none B -> quiet B -> B.(act) = SwitchTo c -> c <> B.(now) -> is_runnable c B = true -> dom_of c B = B.(dom_now) ->
  ((B.(now) =? B.(idler)) || (prio_of c B <? prio_of B.(now) B)) && negb (is_top (prio_of c B) (returned B)) = false ->
  steady (asked ResumeCurrentThread (run_thread c (returned B))).
Proof.
  intros H [Hout Hq] Ea Hne Hc Hd Hslow. destruct (returned_facts B H) as (Hs & Ef & Eid & Eact & Ed & Hkept & Hin).
  assert (is_runnable c (returned B) = true) as Hc' by (by rewrite (is_runnable_folk B)).
  assert (dom_of c (returned B) = B.(dom_now)) as Hd' by (unfold dom_of in *; by rewrite Ef).
  assert (prio_of c (returned B) = prio_of c B) as Hp' by (unfold prio_of; by rewrite Ef).
  apply (run_thread_steady none); [done | | done | by rewrite Ed|].
  - intros u i Hi Hr. rewrite Ef in Hi. destruct (Hkept u i Hi Hr) as [E|?]; [left; congruence | by right].
  - intros p u Hu Huc. rewrite Ed in Hu. rewrite Hp'. apply andb_false_iff in Hslow as [Hfast|Htop].
    + apply orb_false_iff in Hfast as [_ Hge%Z.ltb_ge].
      pose proof (line_runnable none _ u _ Hs Hu) as [_ [= _ Ep]]. unfold prio_of in Ep at 1. rewrite Ef in Ep. fold (prio_of u B) in Ep.
      apply Hin in Hu as [Hu|[-> Hr]]; [|lia]. destruct (Hq p u Hu) as [E|[_ ?]]; [congruence | lia].
    + apply negb_false_iff in Htop. unfold is_top in Htop. rewrite Ed in Htop.
      destruct (k_line _ _ Hs u _ Hu) as (i & Hi & [= _ Eq] & _). pose proof (k_prio _ _ Hs u i Hi) as Hr.
      destruct (top _ _) as [h|] eqn:Etop.
      * apply Z.leb_le in Htop. apply top_Some in Etop as (Hh & _ & Hhigh). destruct (Z.le_gt_cases p h); [lia|].
        rewrite Hhigh in Hu by lia. by apply elem_of_nil in Hu.
      * pose proof (proj1 (top_None _ _) Etop) as Hno. rewrite Hno in Hu by lia. by apply elem_of_nil in Hu.
Qed.

Lemma asked_same a B : B.(act) = a -> asked a B = B.
Proof. intros <-. by destruct B. Qed.

Lemma elect_steady B : sound B -> steady (elect B).
Proof.
  intros [H Hcalm]. rewrite elect_eq. destruct (returned_facts B H) as (Hs & Ef & Eid & Eact & Ed & Hkept & Hin).
  pose proof Hcalm as Hcalm0. unfold calm in Hcalm. destruct (act B) as [| |c] eqn:Ea.
  - rewrite asked_same by done. by split; [split|].
  - apply (choose_new_steady none); [done|]. intros t i Hi Hr. rewrite Ef in Hi. by destruct (Hkept t i Hi Hr).
  - destruct Hcalm as (Hq & Hne & Hc & Hd). pose proof Hc as (j & Hj & Hrj)%runnable_folk.
    assert (is_runnable c (returned B) = true) as Hc' by (by rewrite (is_runnable_folk B)). rewrite <- Ef in Hj.
    assert (forall t i, (returned B).(folk) !! t = Some i -> runnable i = true -> t = c \/ t ∈ (returned B).(line) (key i)) as Hall.
    { intros t i Hi Hr. rewrite Ef in Hi. destruct (Hkept t i Hi Hr) as [E|?]; [left; congruence | by right]. }
    destruct (_ && negb _) eqn:Ef1; [|destruct (_ && (_ =? _))].
    + pose proof (enqueue_stocked none _ c Hs Hc') as Hs2.
      assert (full (enqueue c (returned B))) as Hfull.
      { intros t i Hi Hr. rewrite folk_enqueue in Hi. destruct (line_enqueue c _ j Hj) as [Hcin Hmono].
        destruct (Hall t i Hi Hr) as [->|?]; [|by apply Hmono]. by assert (i = j) as -> by congruence. }
      apply (choose_new_steady none); [by eapply stocked_full | done].
    + pose proof (append_stocked none _ c Hs Hc') as Hs2.
      assert (full (append c (returned B))) as Hfull.
      { intros t i Hi Hr. rewrite folk_append in Hi. destruct (line_append c _ j Hj) as [Hcin Hmono].
        destruct (Hall t i Hi Hr) as [->|?]; [|by apply Hmono]. by assert (i = j) as -> by congruence. }
      apply (choose_new_steady none); [by eapply stocked_full | done].
    + by apply switch_steady.
Qed.

(** ** Changing a thread *)

Definition same_at (u : Z) (B B' : board) : Prop :=
  prio_of u B' = prio_of u B /\ is_runnable u B' = is_runnable u B /\ dom_of u B' = dom_of u B.

Lemma same_at_folk u B B' : B'.(folk) !! u = B.(folk) !! u -> same_at u B B'.
Proof. unfold same_at, prio_of, is_runnable, dom_of. by intros ->. Qed.

Lemma same_at_ne t f B u : u <> t -> same_at u B (change t f B).
Proof. intros H. apply same_at_folk. simpl. by rewrite lookup_alter_ne. Qed.

(** Fewer threads are ready; nothing else that [calm] looks at changes. *)
Lemma calm_mono B B' :
  B'.(now) = B.(now) -> B'.(idler) = B.(idler) -> B'.(act) = B.(act) -> B'.(dom_now) = B.(dom_now) ->
  (forall u, u = B.(now) \/ B.(act) = SwitchTo u -> same_at u B B') ->
  (forall u k, u ∈ B'.(line) k -> u ∈ B.(line) k) -> calm B -> calm B'.
Proof.
  intros En Eid Ea Ed Hsame Hin. assert (quiet B -> quiet B') as Hquiet.
  - intros [Hout Hq]. destruct (Hsame (now B)) as (Ep & _); [by left|]. split.
    + intros k Hk. rewrite En in Hk. by apply (Hout k), Hin.
    + intros p u Hu. rewrite Ea, En, Eid, Ep. apply Hq. apply Hin. by rewrite <- Ed.
  - unfold calm. rewrite Ea. destruct (act B) as [| |c] eqn:E; [|done|].
    + intros [Hq Hnow]. split; [auto|]. destruct (Hsame (now B)) as (_ & Er & Edo); [by left|]. by rewrite En, Eid, Ed, Er, Edo.
    + intros (Hq & Hne & Hr & Hd). destruct (Hsame c) as (_ & Er & Edo); [by right|]. by rewrite En, Ed, Er, Edo; auto.
Qed.

Lemma change_stocked X Y B t f i :
  stocked X B -> B.(folk) !! t = Some i ->
  (forall k, t ∉ B.(line) k) \/ key (f i) = key i /\ runnable (f i) = runnable i ->
  (t <> B.(idler) \/ (f i).(i_state) = i.(i_state)) -> 0 <= (f i).(i_prio) < 256 ->
  (forall u, X u -> Y u \/ u = t) -> (runnable (f i) = true -> Y t \/ key (f i) = key i /\ runnable i = true /\ ~ X t) ->
  stocked Y (change t f B).
Proof.
  intros H Hi Hline Hid Hp HX HY. split; simpl.
  - intros u k Hu. destruct (k_line _ _ H u k Hu) as (j & Hj & Ek & Hr). destruct (decide (u = t)) as [->|Hne].
    + destruct Hline as [Hn|[E1 E2]]; [by apply Hn in Hu|]. assert (j = i) as -> by congruence.
      exists (f i). rewrite lookup_alter_eq, Hi. split_and!; [done | congruence..].
    + exists j. by rewrite lookup_alter_ne.
  - apply H.
  - intros u j. destruct (decide (u = t)) as [->|Hne].
    + rewrite lookup_alter_eq, Hi. intros [= <-] Hr. destruct (HY Hr) as [?|(E & Hri & HXt)]; [auto|]. rewrite E.
      destruct (k_kept _ _ H t i Hi Hri) as [|[|[|]]]; auto. done.
    + rewrite lookup_alter_ne by done. intros Hj Hr. destruct (k_kept _ _ H u j Hj Hr) as [|[|[HXu|]]]; auto.
      destruct (HX u HXu); [auto | done].
  - destruct (k_idle _ _ H) as (j & Hj & Es). destruct (decide (idler B = t)) as [E|Hne].
    + rewrite E in *. assert (j = i) as -> by congruence. destruct Hid as [?|Hid]; [done|]. exists (f i). rewrite lookup_alter_eq, Hi. split; [done | congruence].
    + exists j. by rewrite lookup_alter_ne.
  - rewrite lookup_alter_is_Some. apply H.
  - intros u j. destruct (decide (u = t)) as [->|Hne]; [rewrite lookup_alter_eq, Hi; by intros [= <-]|].
    rewrite lookup_alter_ne by done. apply (k_prio _ _ H).
Qed.

(** Neither the place of the thread nor whether it can run changes. *)
Lemma change_sound B t f i :
  sound B -> B.(folk) !! t = Some i -> key (f i) = key i -> runnable (f i) = runnable i ->
  t <> B.(idler) \/ (f i).(i_state) = i.(i_state) -> sound (change t f B).
Proof.
  intros [H Hc] Hi Ek Er Hid. split.
  - apply (change_stocked none _ _ _ _ i); try done; [by right | | right; split_and!; [congruence..| by intros []]].
    injection Ek as _ ->. by apply (k_prio _ _ H t).
  - apply (calm_mono B); try done. intros u _. unfold same_at, prio_of, is_runnable, dom_of. simpl.
    destruct (decide (u = t)) as [->|Hne]; [|by rewrite lookup_alter_ne]. rewrite lookup_alter_eq, Hi. simpl. by injection Ek as -> ->.
Qed.

Lemma resched_stocked X B :
  stocked X B -> (forall c, B.(act) = SwitchTo c -> is_runnable c B = true) -> stocked X (resched B).
Proof.
  intros H Hc. unfold resched. destruct (act B) as [| |c] eqn:Ea.
  - split; simpl; try apply H. intros t i Hi Hr. destruct (k_kept _ _ H t i Hi Hr) as [?|[?|[?|?]]]; auto. congruence.
  - by rewrite asked_same.
  - pose proof (enqueue_stocked X B c H (Hc c eq_refl)) as Hs. pose proof (enqueue_regs c B) as (_ & _ & Ea' & _).
    split; simpl; try apply Hs. intros t i Hi Hr. destruct (k_kept _ _ Hs t i Hi Hr) as [?|[E|[[? _]|?]]]; auto.
    rewrite Ea', Ea in E. injection E as <-. right. right. right. rewrite folk_enqueue in Hi. by apply line_enqueue.
Qed.

Lemma resched_sound B :
  stocked none B -> (forall c, B.(act) = SwitchTo c -> is_runnable c B = true) -> sound (resched B).
Proof. intros H Hc. split; [by apply resched_stocked | done]. Qed.

Lemma sound_cand B c : sound B -> B.(act) = SwitchTo c -> is_runnable c B = true.
Proof. intros [_ Hc] Ea. unfold calm in Hc. rewrite Ea in Hc. naive_solver. Qed.

(** ** Signals and messages *)

Lemma blocked_folk t B : is_blocked t B = true -> exists i, B.(folk) !! t = Some i /\ blocked i = true /\ runnable i = false.
Proof.
  unfold is_blocked. destruct (folk B !! t) as [i|]; [|done]. intros Hb. exists i. split_and!; [done..|].
  unfold blocked, runnable in *. by destruct (i_state i).
Qed.

Lemma blocked_unlined X B t : stocked X B -> is_blocked t B = true -> (forall k, t ∉ B.(line) k) /\ t <> B.(idler).
Proof.
  intros H Hb. apply blocked_folk in Hb as (i & Hi & Hb & Hr). split.
  - intros k Hk. destruct (k_line _ _ H t k Hk) as (j & Hj & _ & Hrj). congruence.
  - intros ->. destruct (k_idle _ _ H) as (j & Hj & Es). assert (j = i) as -> by congruence. unfold blocked in Hb. by rewrite Es in Hb.
Qed.

Lemma set_state_other t ts B : t <> B.(now) -> set_state t ts B = change t (become ts) B.
Proof. intros H. unfold set_state. by rewrite (proj2 (Z.eqb_neq _ _) H). Qed.

Lemma wake_stocked X B t ts :
  stocked X B -> is_blocked t B = true -> stocked (fun u => X u \/ u = t) (change t (become ts) B).
Proof.
  intros H Hb. destruct (blocked_unlined X B t H Hb) as [Hu Hid]. apply blocked_folk in Hb as (i & Hi & _).
  apply (change_stocked X _ _ _ _ i); auto. apply (k_prio _ _ H t i Hi).
Qed.

Lemma possible_regs t B : (possible t B).(now) = B.(now) /\ (possible t B).(idler) = B.(idler) /\
  forall u k, u ∈ (possible t B).(line) k -> u ∈ B.(line) k \/ u = t \/ B.(act) = SwitchTo u.
Proof.
  unfold possible. destruct (negb _).
  - pose proof (enqueue_regs t B) as (-> & -> & _). split_and!; [done..|]. intros u k [?|?]%elem_of_enqueue; auto.
  - unfold resched. destruct (act B) as [| |c]; [by auto|..].
    + pose proof (enqueue_regs t (asked ChooseNewThread B)) as (-> & -> & _). split_and!; [done..|]. intros u k [?|?]%elem_of_enqueue; auto.
    + pose proof (enqueue_regs t (asked ChooseNewThread (enqueue c B))) as (-> & -> & _). pose proof (enqueue_regs c B) as (E1 & E2 & _).
      simpl. split_and!; [done..|]. intros u k [[?| ->]%elem_of_enqueue|?]%elem_of_enqueue; auto.
Qed.

Lemma enqueue_other B t k u : u ∈ (enqueue t B).(line) k -> u ∈ B.(line) k \/ u = t /\ k.1 = dom_of t B.
Proof.
  unfold enqueue. destruct (in_line t B); [by left|].
  intros [?|(i & Hi & [->|?]%elem_of_cons & ->)]%line_with_line; auto. right. unfold dom_of. by rewrite Hi.
Qed.

(** A thread of another domain joins its queue. *)
Lemma enqueue_calm B t : calm B -> t <> B.(now) -> B.(dom_now) <> dom_of t B \/ B.(act) = SwitchTo t -> calm (enqueue t B).
Proof.
  intros Hc Hne Hd. pose proof (enqueue_regs t B) as (En & Eid & Ea & Ed & _).
  assert (forall u, same_at u B (enqueue t B)) as Hsame by (intros u; apply same_at_folk; by rewrite folk_enqueue).
  assert (quiet B -> quiet (enqueue t B)) as Hquiet.
  - intros [Hout Hq]. split.
    + intros k. rewrite En. intros [Hk|Hk]%elem_of_enqueue; [by apply Hout in Hk | congruence].
    + destruct (Hsame B.(now)) as (Ep & _). intros p u. rewrite En, Eid, Ea, Ed, Ep. intros [Hu|[-> E]]%enqueue_other; [by apply Hq|].
      simpl in E. destruct Hd; [congruence | by left].
  - unfold calm in *. rewrite Ea, En, Eid, Ed. destruct (act B) as [| |c]; [|done|].
    + destruct (Hsame B.(now)) as (_ & -> & ->). naive_solver.
    + destruct (Hsame c) as (_ & -> & ->). naive_solver.
Qed.

(** A thread that can run and is nowhere is put where it belongs. *)
Lemma possible_sound B t :
  stocked (fun u => none u \/ u = t) B -> (B.(act) = ResumeCurrentThread -> dom_of t B = B.(dom_now) -> quiet (asked (SwitchTo t) B)) ->
  (B.(act) = ResumeCurrentThread /\ dom_of t B = B.(dom_now) \/ calm B) ->
  is_runnable t B = true -> t <> B.(now) -> sound (possible t B).
Proof.
  intros H Hresume Hc Hr Hne. unfold possible. destruct (Z.eqb_spec B.(dom_now) (dom_of t B)) as [Ed|Ed]; simpl.
  - assert (B.(act) <> ResumeCurrentThread -> sound (enqueue t (resched B))) as Hq.
    + intros Ea. split; [|unfold calm; by pose proof (enqueue_regs t (resched B)) as (_ & _ & -> & _)].
      apply (stocked_weaken (fun u => (none u \/ u = t) /\ u <> t)); [|naive_solver]. apply enqueue_stocked.
      * apply resched_stocked; [done|]. intros c E. destruct Hc as [[? _]|Hc]; [done|]. unfold calm in Hc. rewrite E in Hc. naive_solver.
      * by rewrite (is_runnable_folk B) by apply folk_resched.
    + destruct (act B) as [| |c] eqn:Ea; [|by apply Hq..]. split; [|unfold calm; simpl; by auto].
      split; simpl; try apply H. intros u i Hi Hru. destruct (k_kept _ _ H u i Hi Hru) as [?|[?|[[[]| ->]|?]]]; auto. congruence.
  - destruct Hc as [[_ ?]|Hc]; [congruence|].
    split; [|by apply enqueue_calm; auto]. apply (stocked_weaken (fun u => (none u \/ u = t) /\ u <> t)); [by apply enqueue_stocked | naive_solver].
Qed.

Lemma quiet_asked B t : quiet B -> B.(act) = ResumeCurrentThread -> quiet (asked (SwitchTo t) B).
Proof. intros [Hout Hq] Ea. split; [done|]. intros p u Hu. destruct (Hq p u Hu); [congruence | by right]. Qed.

Lemma calm_quiet B : calm B -> B.(act) = ResumeCurrentThread -> quiet B.
Proof. unfold calm. intros H Ea. rewrite Ea in H. apply H. Qed.

Lemma unblock_sound B t :
  sound B -> is_blocked t B = true -> t <> B.(now) -> sound (possible t (set_state t Running B)).
Proof.
  intros [H Hc] Hb Hne. rewrite set_state_other by done. pose proof (wake_stocked none B t Running H Hb) as Hs.
  assert (calm (change t (become Running) B)) as Hc'.
  { apply (calm_mono B); try done. intros u Hu. apply same_at_ne. intros ->. destruct Hu as [|Ea]; [done|].
    unfold calm in Hc. rewrite Ea in Hc. destruct Hc as (_ & _ & Hr & _). apply blocked_folk in Hb as (i & Hi & _ & Hn).
    unfold is_runnable in Hr. rewrite Hi in Hr. congruence. }
  apply possible_sound; [done | | by right | | done].
  - intros Ea _. by apply quiet_asked, Ea; apply calm_quiet.
  - apply blocked_folk in Hb as (i & Hi & _). unfold is_runnable. simpl. by rewrite lookup_alter_eq, Hi.
Qed.

(** The current thread stops to wait. *)
Lemma block_sound B ts :
  sound B -> (forall k, B.(now) ∉ B.(line) k) -> B.(now) <> B.(idler) -> blocked_state ts = true ->
  sound (set_state B.(now) ts B) /\ forall k, B.(now) ∉ (set_state B.(now) ts B).(line) k.
Proof.
  intros [H Hc] Hout Hid Hts. destruct (k_here _ _ H) as [i Hi].
  assert (runnable (become ts i) = false) as Hr by (unfold runnable; simpl; by destruct ts).
  assert (stocked none (change B.(now) (become ts) B)) as Hs.
  { apply (change_stocked none _ _ _ _ i); auto; [apply (k_prio _ _ H _ i Hi) | congruence]. }
  unfold set_state. rewrite Z.eqb_refl. simpl.
  assert (is_runnable B.(now) (change B.(now) (become ts) B) = false) as ->.
  { unfold is_runnable. simpl. by rewrite lookup_alter_eq, Hi. }
  case_bool_decide as Ea; simpl.
  - split; [apply resched_sound; [done|]; intros c; simpl; congruence|]. intros k. unfold resched. simpl. rewrite Ea. apply Hout.
  - split; [|done]. split; [done|]. unfold calm in *. simpl. destruct (act B) as [| |c] eqn:E; [done..|].
    destruct Hc as ([_ Hq] & Hne & Hrc & Hd). destruct (same_at_ne B.(now) (become ts) B c Hne) as (_ & -> & ->).
    split_and!; try done. split; [done|]. intros p u Hu. destruct (Hq p u Hu) as [|[? Hp]]; [by left|]. right. split; [done|].
    unfold prio_of in *. simpl. rewrite lookup_alter_eq. rewrite Hi in *. done.
Qed.

Definition deeds_may (ds : list deed) (B : board) : Prop :=
  NoDup (targets ds) /\ (forall t, t ∈ targets ds -> is_blocked t B = true /\ t <> B.(now)) /\
  (forall ts, Block ts ∈ ds -> blocked_state ts = true /\ B.(now) <> B.(idler)).

Lemma is_blocked_ne t f B u : u <> t -> is_blocked u (change t f B) = is_blocked u B.
Proof. intros H. unfold is_blocked. simpl. by rewrite lookup_alter_ne. Qed.

Lemma is_blocked_folk B B' u : B'.(folk) = B.(folk) -> is_blocked u B' = is_blocked u B.
Proof. unfold is_blocked. by intros ->. Qed.

Lemma set_state_regs t ts B : (set_state t ts B).(now) = B.(now) /\ (set_state t ts B).(idler) = B.(idler).
Proof.
  unfold set_state. destruct (_ && _); [|done]. unfold resched. destruct (act _) as [| |c]; [done..|].
  pose proof (enqueue_regs c (change t (become ts) B)) as (E1 & E2 & _). done.
Qed.

Lemma deeds_sound ds B :
  sound B -> (forall k, B.(now) ∉ B.(line) k) -> deeds_may ds B -> sound (foldl deed_on B ds).
Proof.
  revert B. induction ds as [|[t|ts] ds IH]; intros B Hs Hout (Hnd & Hb & Hbl); simpl; [done|..].
  - apply NoDup_cons in Hnd as [Hn Hnd]. destruct (Hb t) as [Hbt Hne]; [left|].
    pose proof (possible_regs t (set_state t Running B)) as (En & Eid & Hin). pose proof (set_state_regs t Running B) as (En' & Eid').
    rewrite En' in En. rewrite Eid' in Eid. apply IH; [by apply unblock_sound| |].
    + intros k. rewrite En. intros [Hk|[Hk|Hk]]%Hin; [|done|].
      * rewrite set_state_other in Hk by done. by apply Hout in Hk.
      * rewrite set_state_other in Hk by done. simpl in Hk. destruct Hs as [_ Hc]. unfold calm in Hc. rewrite Hk in Hc. naive_solver.
    + split; [done|]. rewrite En, Eid. split.
      * intros u Hu. destruct (Hb u) as [Hbu Hnu]; [by right|]. split; [|done].
        rewrite (is_blocked_folk (set_state t Running B)) by apply folk_possible. rewrite set_state_other by done.
        by rewrite is_blocked_ne by (by intros ->).
      * intros ts Hts. apply Hbl. by right.
  - destruct (Hbl ts) as [Hts Hid]; [left|]. destruct (block_sound B ts Hs Hout Hid Hts) as [Hs' Hout'].
    pose proof (set_state_regs B.(now) ts B) as (En & Eid). apply IH; [done | by rewrite En|].
    split; [done|]. rewrite En, Eid. split.
    + intros u Hu. destruct (Hb u Hu) as [Hbu Hnu]. split; [|done].
      rewrite (is_blocked_folk (change B.(now) (become ts) B)) by apply folk_set_state. by rewrite is_blocked_ne.
    + intros ts' Hts'. apply Hbl. by right.
Qed.

(** ** The other entries *)

Lemma steady_out B : steady B -> forall k, B.(now) ∉ B.(line) k.
Proof. intros [[_ Hc] Ea]. by apply calm_quiet in Hc as [? _]. Qed.

Lemma steady_now B : steady B -> B.(now) = B.(idler) \/ is_runnable B.(now) B = true /\ dom_of B.(now) B = B.(dom_now).
Proof. intros [[_ Hc] Ea]. unfold calm in Hc. rewrite Ea in Hc. apply Hc. Qed.

Lemma steady_not_blocked B t : steady B -> is_blocked t B = true -> t <> B.(now).
Proof.
  intros Hst Hb ->. destruct (steady_now B Hst) as [E|[Hr _]].
  - destruct Hst as [[H _] _]. by apply (blocked_unlined none B _ H) in Hb as [_ ?].
  - apply blocked_folk in Hb as (i & Hi & _ & Hn). unfold is_runnable in Hr. rewrite Hi in Hr. congruence.
Qed.

Lemma left_sound B n : sound B -> sound {| B with dom_left := n |}.
Proof. intros [H Hc]. split; [split; simpl; apply H | by apply (calm_mono B)]. Qed.

(** The current thread goes to the end of its queue. *)
Lemma back_sound X B :
  stocked X B -> is_runnable B.(now) B = true -> (forall u, X u -> u = B.(now)) -> (forall c, B.(act) <> SwitchTo c) ->
  sound (resched (append B.(now) B)).
Proof.
  intros H Hr HX Ha. apply resched_sound.
  - apply (stocked_weaken (fun u => X u /\ u <> B.(now))); [by apply append_stocked | naive_solver].
  - intros c. unfold append. destruct (in_line _ _); [by intros ?%Ha|]. pose proof (with_line_regs B.(now) (fun l => l ++ [B.(now)]) B) as (_ & _ & -> & _).
    by intros ?%Ha.
Qed.

Lemma tick_sound B : steady B -> sound (tick B).
Proof.
  intros Hst. pose proof Hst as [Hs Ea]. unfold tick. set (B1 := if bool_decide _ then _ else _).
  assert (sound B1) as H1.
  - subst B1. destruct (k_here _ _ (proj1 Hs)) as [i Hi]. case_bool_decide as Er; [|done].
    assert (forall f, key (f i) = key i -> i_state (f i) = i_state i -> sound (change B.(now) f B)) as Hch.
    { intros f Ek Es. apply (change_sound B _ f i); try done; [unfold runnable; by rewrite Es | by right]. }
    destruct (1 <? slice_of _ _); [by apply Hch|]. set (f := fun i => {| i with i_slice := CONFIG_TIME_SLICE |}).
    apply (back_sound none (change B.(now) f B)); [by apply Hch | | done | simpl; congruence].
    unfold is_runnable, state_of in *. simpl. rewrite lookup_alter_eq. rewrite Hi in *. unfold runnable. simpl. by rewrite Er.
  - destruct (1 <? CONFIG_NUM_DOMAINS); [|done]. pose proof (left_sound B1 (u64 (dom_left B1 - 1)) H1) as H2.
    destruct (_ =? 0); [|done]. apply resched_sound; [apply H2|]. intros c. by apply sound_cand.
Qed.

Lemma yield_sound B : steady B -> B.(now) <> B.(idler) -> sound (yield B).
Proof.
  intros Hst Hid. pose proof Hst as [[H _] Ea]. destruct (steady_now B Hst) as [?|[Hr _]]; [done|]. unfold yield.
  pose proof (regs_dequeue B.(now) B) as (En & _ & Eact & _). rewrite <- En at 1.
  apply (back_sound (fun u => none u \/ u = B.(now))); [by apply dequeue_stocked | | rewrite En; naive_solver | by rewrite Eact, Ea].
  by rewrite En, (is_runnable_folk B) by apply folk_dequeue.
Qed.

Lemma dequeue_calm B t : calm B -> calm (dequeue t B).
Proof.
  pose proof (regs_dequeue t B) as (En & Eid & Ea & Ed & _). apply calm_mono; try done.
  - intros u _. apply same_at_folk. by rewrite folk_dequeue.
  - intros u k. apply elem_of_dequeue.
Qed.

Lemma dequeue_idle B t i : (forall k, t ∉ B.(line) k) -> B.(folk) !! t = Some i -> dequeue t B = B.
Proof. intros H Hi. unfold dequeue. destruct (in_line t B) eqn:E; [|done]. by apply (in_line_true t B i Hi), H in E. Qed.

Lemma stopped_unlined X B t i : stocked X B -> B.(folk) !! t = Some i -> runnable i = false -> forall k, t ∉ B.(line) k.
Proof. intros H Hi Hr k Hk. destruct (k_line _ _ H t k Hk) as (j & Hj & _ & ?). congruence. Qed.

(** The priority of a thread changes while it is in no queue. *)
Lemma set_prio_sound B t i p :
  steady B -> B.(folk) !! t = Some i -> t <> B.(idler) -> 0 <= p < 256 -> sound (set_prio t p B).
Proof.
  intros Hst Hi Hid Hp. pose proof Hst as [[H Hc] Ea]. unfold set_prio. set (f := fun i => {| i with i_prio := p |}).
  pose proof (regs_dequeue t B) as (En & Eid & Eact & Ed & _).
  assert ((dequeue t B).(folk) !! t = Some i) as Hi' by (by rewrite folk_dequeue).
  assert (is_runnable t (change t f (dequeue t B)) = runnable i) as Er by (unfold is_runnable; simpl; by rewrite lookup_alter_eq, Hi').
  destruct (runnable i) eqn:Eri; rewrite Er.
  - assert (stocked (fun u => none u \/ u = t) (change t f (dequeue t B))) as Hs.
    { apply (change_stocked (fun u => none u \/ u = t) _ _ _ _ i); [by apply dequeue_stocked | done | left | left; by rewrite Eid | done | auto..].
      intros k. by eapply dequeue_gone. }
    apply resched_sound.
    + apply (stocked_weaken (fun u => (none u \/ u = t) /\ u <> t)); [by apply enqueue_stocked | naive_solver].
    + intros c. pose proof (enqueue_regs t (change t f (dequeue t B))) as (_ & _ & -> & _). simpl. congruence.
  - pose proof (stopped_unlined none B t i H Hi Eri) as Hout. rewrite (dequeue_idle B t i) by done. split.
    + apply (change_stocked none _ _ _ _ i); auto. change (runnable (f i)) with (runnable i). congruence.
    + apply (calm_mono B); try done. intros u Hu. apply same_at_ne. intros ->. destruct Hu as [Eu|?]; [|congruence].
      destruct (steady_now B Hst) as [?|[Hr _]]; [congruence|]. unfold is_runnable in Hr. rewrite <- Eu, Hi in Hr. congruence.
Qed.

Lemma cancel_state_other t B : t <> B.(now) -> cancel_state t B = B \/ cancel_state t B = change t (become Inactive) B.
Proof. intros H. unfold cancel_state. destruct (state_of t B); auto; right; by apply set_state_other. Qed.

Lemma cancel_state_runnable t B : is_runnable t B = true -> cancel_state t B = B.
Proof. unfold cancel_state, state_of, is_runnable, runnable. destruct (folk B !! t) as [i|]; [|done]. by destruct (i_state i). Qed.

Lemma dequeue_change t f B : (forall i, key (f i) = key i) -> dequeue t (change t f B) = change t f (dequeue t B).
Proof.
  intros Hf. unfold dequeue, in_line, with_line, change. simpl. rewrite lookup_alter_eq. destruct (folk B !! t) as [i|] eqn:Hi; simpl.
  - rewrite Hf. by case_bool_decide.
  - done.
Qed.

(** A thread that is in no queue is stopped. *)
Lemma halt_sound B t i :
  stocked (fun u => none u \/ u = t) B -> calm B -> B.(folk) !! t = Some i -> (forall k, t ∉ B.(line) k) ->
  t <> B.(idler) -> t <> B.(now) -> B.(act) <> SwitchTo t ->
  sound (change t (become Inactive) B).
Proof.
  intros H Hc Hi Hout Hid Hne Ha. split.
  - apply (change_stocked (fun u => none u \/ u = t) _ _ _ _ i); auto; [apply (k_prio _ _ H t i Hi) | done].
  - apply (calm_mono B); try done. intros u Hu. apply same_at_ne. intros ->. by destruct Hu.
Qed.

Lemma stop_sound B t i : steady B -> B.(folk) !! t = Some i -> t <> B.(idler) -> sound (stop t B).
Proof.
  intros Hst Hi Hid. pose proof Hst as [Hs Ea]. unfold stop. destruct (decide (t = B.(now))) as [->|Hne].
  - destruct (steady_now B Hst) as [?|[Hr _]]; [done|]. rewrite cancel_state_runnable by done.
    destruct (block_sound B Inactive Hs (steady_out B Hst) Hid eq_refl) as [Hs' Hout].
    destruct (known_set_state B.(now) B.(now) Inactive B i Hi) as [j Hj]. by rewrite (dequeue_idle _ _ j).
  - assert (sound (change t (become Inactive) (dequeue t B))) as Hhalt.
    { pose proof (regs_dequeue t B) as (En & Eid & Eact & _). destruct Hs as [H Hc].
      apply (halt_sound _ t i); [by apply dequeue_stocked | by apply dequeue_calm | by rewrite folk_dequeue | | congruence..].
      intros k. by eapply dequeue_gone. }
    destruct (cancel_state_other t B Hne) as [->| ->].
    + by rewrite set_state_other, dequeue_change.
    + rewrite set_state_other, dequeue_change, dequeue_change by done.
      assert ((change t (become Inactive) (dequeue t B)).(folk) !! t = Some (become Inactive i)) as Hj
        by (simpl; by rewrite lookup_alter_eq, folk_dequeue, Hi).
      by apply (change_sound _ _ _ _ Hhalt Hj); [..| right].
Qed.

(** What [restart] makes of a thread before it is put into its queue. *)
Lemma restart_state B t : is_blocked t B = true -> t <> B.(now) ->
  exists f, set_state t Restart (cancel_state t B) = change t f B /\ forall i, key (f i) = key i /\ i_state (f i) = Restart.
Proof.
  intros Hb Hne. destruct (cancel_state_other t B Hne) as [->| ->].
  - exists (become Restart). by rewrite set_state_other.
  - exists (become Restart ∘ become Inactive). split; [|done]. rewrite set_state_other by done. unfold change. simpl. f_equal.
    apply map_eq. intros u. destruct (decide (u = t)) as [->|Hu]; [|by rewrite !lookup_alter_ne].
    rewrite !lookup_alter_eq. by destruct (folk B !! t).
Qed.

Lemma start_sound B t : steady B -> sound (start t B).
Proof.
  intros Hst. pose proof Hst as [[H Hc] Ea]. unfold start. destruct (_ && _) eqn:E; [|by destruct Hst].
  apply andb_true_iff in E as [Hb [i Hi]%bool_decide_eq_true].
  assert (is_blocked t B = true) as Hbt by (unfold is_blocked, blocked, state_of in *; rewrite Hi in *; done).
  pose proof (steady_not_blocked B t Hst Hbt) as Hne. destruct (restart_state B t Hbt Hne) as (f & -> & Hf).
  set (B1 := change t f B). destruct (blocked_unlined none B t H Hbt) as [Hout Hid]. destruct (Hf i) as [Ek Es].
  assert (is_runnable t B1 = true) as Hr by (unfold is_runnable, B1; simpl; rewrite lookup_alter_eq, Hi; simpl; unfold runnable; by rewrite Es).
  assert (stocked (fun u => none u \/ u = t) B1) as H1.
  { apply (change_stocked none _ _ _ _ i); auto. injection Ek as _ ->. apply (k_prio _ _ H t i Hi). }
  assert (calm B1) as Hc1.
  { apply (calm_mono B); try done. intros u Hu. apply same_at_ne. intros ->. destruct Hu; congruence. }
  pose proof (enqueue_regs t B1) as (En & Eid & Eact & Ed & _).
  assert (dom_of t (enqueue t B1) = dom_of t B1) as Edo by (unfold dom_of; by rewrite folk_enqueue).
  apply possible_sound; [| | |by rewrite (is_runnable_folk B1) by apply folk_enqueue | by rewrite En].
  - apply (stocked_weaken (fun u => (none u \/ u = t) /\ u <> t)); [by apply enqueue_stocked | naive_solver].
  - intros _ _. destruct (calm_quiet B1 Hc1) as [Hout1 Hq]; [done|]. split; simpl.
    + intros k. rewrite En. intros [Hk|?]%elem_of_enqueue; [by apply Hout1 in Hk | simpl in *; congruence].
    + intros p u. rewrite Ed, En, Eid. intros [Hu| ->]%elem_of_enqueue; [|by left].
      destruct (Hq p u Hu) as [E|?]; [simpl in E; congruence|]. right. unfold prio_of in *. simpl. by rewrite folk_enqueue.
  - rewrite Edo, Ed, Eact. destruct (decide (dom_of t B1 = B1.(dom_now))) as [E|E]; [left; done|].
    right. apply enqueue_calm; auto.
Qed.

Lemma start_all_sound B q :
  steady B -> NoDup q -> (forall t, t ∈ q -> is_blocked t B = true) -> sound (start_all q B).
Proof.
  intros Hst Hnd Hb. unfold start_all.
  assert (forall B', stocked none B' -> B'.(act) = ResumeCurrentThread -> (forall t, t ∈ q -> is_blocked t B' = true /\ t <> B'.(now)) ->
    let B2 := foldl (fun B t => enqueue t (set_state t Restart B)) B' q in stocked none B2 /\ B2.(act) = ResumeCurrentThread) as Hloop.
  - clear B Hst Hb. induction q as [|t q IH]; intros B H Ea Hb; simpl; [done|]. apply NoDup_cons in Hnd as [Hn Hnd].
    destruct (Hb t) as [Hbt Hne]; [left|]. rewrite set_state_other by done. set (B1 := change t (become Restart) B).
    pose proof (enqueue_regs t B1) as (En & _ & Eact & _). apply IH; [done| | by rewrite Eact |].
    + apply (stocked_weaken (fun u => (none u \/ u = t) /\ u <> t)); [|naive_solver]. apply enqueue_stocked; [by apply wake_stocked|].
      apply blocked_folk in Hbt as (i & Hi & _). unfold is_runnable, B1. simpl. by rewrite lookup_alter_eq, Hi.
    + intros u Hu. rewrite En, (is_blocked_folk B1) by apply folk_enqueue. unfold B1. rewrite is_blocked_ne by (by intros ->). apply Hb. by right.
  - destruct Hst as [[H Hc] Ea]. destruct (Hloop B H Ea) as [H2 Ea2].
    + intros t Ht. split; [auto|]. apply steady_not_blocked; [by split; [split|] | auto].
    + apply resched_sound; [done|]. intros c. congruence.
Qed.

End sound.
