(* ===== verification/SchedRun.v ===== *)
(** * Runs of the scheduler

    What the scheduler promises about the machine itself: along any sequence of
    entries the kernel never fails an assertion of the scheduler, the current
    thread can run and no thread of its domain that can run has a higher
    priority, a thread that is woken preempts a lower one, and threads of one
    priority take turns. *)
From S2P Require Import Prelude Dlist Ntfn Sched SchedSpec SchedRefine SchedSound.

Section run.
Context {C : Config} {HC : ConfigOk}.

(** ** One entry *)

Lemma handle_sound B e : steady B -> may e B = true -> sound (handle_on e B).
Proof using HC.
  intros Hst Hm. destruct e as [ds| | |t p|t p|t|t|q]; simpl in *;
    repeat match goal with
    | H : _ && _ = true |- _ => apply andb_true_iff in H as [? ?]
    | H : bool_decide (is_Some _) = true |- _ => apply bool_decide_eq_true in H as [? ?]
    | H : bool_decide (NoDup _) = true |- _ => apply bool_decide_eq_true in H
    | H : negb (_ =? _) = true |- _ => apply negb_true_iff, Z.eqb_neq in H
    | H : forallb _ _ = true |- _ => rewrite forallb_forall in H; setoid_rewrite <- list_elem_of_In in H
    end.
  - apply deeds_sound; [apply Hst | by apply steady_out|]. split; [done|]. split.
    + intros t Ht. split; [auto|]. apply steady_not_blocked; auto.
    + intros ts Hts. match goal with H : forall d, d ∈ ds -> _ |- _ => specialize (H _ Hts) end.
      simpl in *. by apply andb_true_iff in H0 as [? ?%negb_true_iff%Z.eqb_neq].
  - by apply tick_sound.
  - by apply yield_sound.
  - eapply set_prio_sound; [done..|]. split; [by apply Z.leb_le | by apply Z.ltb_lt].
  - eapply change_sound; [apply Hst | done..|by right].
  - by eapply stop_sound.
  - by apply start_sound.
  - by apply start_all_sound.
Qed.

Lemma activate_eq B : steady B -> activate B = B \/ activate B = change B.(now) (become Running) B /\ state_of B.(now) B = Restart.
Proof.
  intros Hst. unfold activate. destruct (state_of B.(now) B) eqn:Es; auto. right. split; [|done]. unfold set_state.
  destruct (k_here _ _ (proj1 (proj1 Hst))) as [i Hi].
  replace (is_runnable (now B) (change (now B) (become Running) B)) with true; [by rewrite andb_false_r|].
  unfold is_runnable. simpl. by rewrite lookup_alter_eq, Hi.
Qed.

Lemma activate_steady B : steady B -> steady (activate B).
Proof.
  intros Hst. destruct (activate_eq B Hst) as [->|[-> Es]]; [done|]. pose proof Hst as [Hs Ea]. split; [|done].
  destruct (k_here _ _ (proj1 Hs)) as [i Hi]. unfold state_of in Es. rewrite Hi in Es.
  apply (change_sound B _ _ i Hs Hi); [done | unfold runnable; by rewrite Es |]. left. intros E.
  destruct (k_idle _ _ (proj1 Hs)) as (j & Hj & Ej). rewrite <- E in Hj. congruence.
Qed.

Lemma entry_steady B e : steady B -> may e B = true -> steady (entry_on e B).
Proof using HC. intros Hst Hm. apply activate_steady, elect_steady. by apply handle_sound. Qed.

Lemma steady_state B : steady B -> is_runnable B.(now) B = true \/ state_of B.(now) B = IdleThreadState.
Proof.
  intros Hst. destruct (steady_now B Hst) as [E|[? _]]; [right | by left]. destruct (k_idle _ _ (proj1 (proj1 Hst))) as (i & Hi & Ei).
  unfold state_of. by rewrite E, Hi.
Qed.

Lemma entry_refines s B e : refines s B -> steady B -> may e B = true -> runs_to (kernel_entry e) s (entry_on e B).
Proof using HC.
  intros HR Hst Hm. unfold kernel_entry, entry_on. pose proof (handle_sound B e Hst Hm) as Hh.
  eapply runs_bind; [by apply handle_refines|]. intros s1 H1.
  eapply runs_bind; [apply elect_refines; [done | by apply sound_electable]|]. intros s2 H2.
  apply activate_refines; [done|]. by apply steady_state, elect_steady.
Qed.

(** ** Sequences *)

Fixpoint may_all (es : list entry) (B : board) : bool :=
  match es with
  | [] => true
  | e :: es' => may e B && may_all es' (entry_on e B)
  end.

Definition entries_on (es : list entry) (B : board) : board := foldl (fun B e => entry_on e B) B es.

Lemma entries_refine es s B :
  refines s B -> steady B -> may_all es B = true ->
  runs_to (for_each es kernel_entry) s (entries_on es B) /\ steady (entries_on es B).
Proof using HC.
  revert s B. induction es as [|e es IH]; intros s B HR Hst Hm; simpl in *; [split; [by apply runs_ret | done]|].
  apply andb_true_iff in Hm as [Hm Hms]. pose proof (entry_steady B e Hst Hm) as Hst'.
  destruct (entry_refines s B e HR Hst Hm) as (s1 & E1 & H1). destruct (IH s1 _ H1 Hst' Hms) as [(s2 & E2 & H2) Hst2].
  split; [|done]. exists s2. split; [|done]. by rewrite (bind_run _ _ _ _ _ E1).
Qed.

(** ** The current thread *)

Lemma highest s B t x :
  refines s B -> steady B -> s.(sthreads) !! t = Some x -> isRunnable x = true -> x.(tcbDomain) = s.(ksCurDomain) ->
  exists y, s.(sthreads) !! s.(ksCurThread) = Some y /\ isRunnable y = true /\
    y.(tcbDomain) = s.(ksCurDomain) /\ x.(tcbPriority) <= y.(tcbPriority).
Proof.
  intros HR Hst Hx Hr Hd. pose proof Hst as [[H Hc] Ea]. rewrite (r_dom _ _ HR) in *. rewrite (r_now _ _ HR).
  assert (B.(folk) !! t = Some (info_of x)) as Hi by (by rewrite <- (r_folk _ _ HR), lookup_fmap, Hx).
  destruct (decide (t = B.(now))) as [->|Hne]; [by exists x|].
  destruct (k_kept _ _ H t _ Hi Hr) as [?|[?|[[]|Hin]]]; [done | congruence|].
  unfold key in Hin. simpl in Hin. rewrite Hd in Hin. destruct (calm_quiet B Hc Ea) as [_ Hq].
  destruct (Hq _ _ Hin) as [?|[Hid Hp]]; [congruence|]. destruct (steady_now B Hst) as [?|[Hrn Hdn]]; [done|].
  apply runnable_folk in Hrn as (j & Hj & Hrj). destruct (refines_at s B _ j HR Hj) as (y & Hy & <- & _).
  exists y. unfold dom_of, prio_of in *. rewrite Hj in *. done.
Qed.

(** C7 Each entry of the kernel - a signal or message, a tick of the timer, a yield,
    a change of a thread - followed by [schedule] and [activateThread] returns
    without failing an assertion or following a null pointer, and does to the
    queues threaded through the threads and to the bitmaps what the same entry
    does to the lists of the board.  So does every sequence of entries, and at its
    end every thread that can run is the current one or in the queue of its
    priority. *)
Theorem scheduler_refines s B es :
  refines s B -> steady B -> may_all es B = true ->
  exists s', for_each es kernel_entry s = Ok tt s' /\ refines s' (entries_on es B) /\ steady (entries_on es B).
Proof using HC.
  intros HR Hst Hm. destruct (entries_refine es s B HR Hst Hm) as [(s' & E & H') Hst']. by exists s'.
Qed.

(** C8 After any sequence of entries of the kernel the current thread has the
    highest priority: whenever some thread of the current domain can run, the
    current thread can run, is of that domain, and has at least its priority. *)
Theorem scheduler_runs_highest s B es :
  refines s B -> steady B -> may_all es B = true ->
  exists s', for_each es kernel_entry s = Ok tt s' /\
    forall t x, s'.(sthreads) !! t = Some x -> isRunnable x = true -> x.(tcbDomain) = s'.(ksCurDomain) ->
    exists y, s'.(sthreads) !! s'.(ksCurThread) = Some y /\ isRunnable y = true /\
      y.(tcbDomain) = s'.(ksCurDomain) /\ x.(tcbPriority) <= y.(tcbPriority).
Proof using HC.
  intros HR Hst Hm. destruct (entries_refine es s B HR Hst Hm) as [(s' & E & H') Hst']. exists s'. split; [done|].
  intros t x. by apply (highest s' (entries_on es B)).
Qed.

(** ** Waking up *)

(** The queue of a thread. *)
Definition place (t : Z) (B : board) : Z * Z := (dom_of t B, prio_of t B).

Lemma enqueue_new t B i : B.(folk) !! t = Some i -> (forall k, t ∉ B.(line) k) ->
  enqueue t B = {| B with line := put (key i) (t :: B.(line) (key i)) B.(line) |}.
Proof.
  intros Hi Hout. unfold enqueue. destruct (in_line t B) eqn:E; [by apply (in_line_true t B i Hi), Hout in E|].
  by apply (with_line_eq t).
Qed.

Lemma append_new t B i : B.(folk) !! t = Some i -> (forall k, t ∉ B.(line) k) ->
  append t B = {| B with line := put (key i) (B.(line) (key i) ++ [t]) B.(line) |}.
Proof.
  intros Hi Hout. unfold append. destruct (in_line t B) eqn:E; [by apply (in_line_true t B i Hi), Hout in E|].
  by apply (with_line_eq t).
Qed.

Lemma prio_of_change t f B i u : (forall j, i_prio (f j) = i_prio j) -> B.(folk) !! t = Some i -> prio_of u (change t f B) = prio_of u B.
Proof.
  intros Hf Hi. unfold prio_of. simpl. destruct (decide (u = t)) as [->|Hu]; [|by rewrite lookup_alter_ne].
  rewrite lookup_alter_eq, Hi. apply Hf.
Qed.

Lemma preempt_board B t :
  steady B -> is_blocked t B = true -> B.(now) <> B.(idler) -> dom_of t B = B.(dom_now) -> prio_of B.(now) B < prio_of t B ->
  let B' := entry_on (Ipc [Unblock t]) B in
  B'.(now) = t /\ B'.(line) (place B.(now) B) = B.(now) :: B.(line) (place B.(now) B).
Proof.
  intros Hst Hb Hid Hd Hp. pose proof Hst as [[H _] Ea]. pose proof (steady_not_blocked B t Hst Hb) as Hne.
  destruct (steady_now B Hst) as [?|[Hrn _]]; [done|]. destruct (blocked_unlined none B t H Hb) as [Hout _].
  apply runnable_folk in Hrn as (i & Hi & Hr). apply blocked_folk in Hb as (j & Hj & _).
  unfold entry_on. simpl. rewrite set_state_other by done. set (B1 := change t (become Running) B).
  assert (possible t B1 = asked (SwitchTo t) B1) as ->.
  { unfold possible. assert (dom_of t B1 = dom_of t B) as -> by (unfold dom_of; simpl; by rewrite lookup_alter_eq, Hj).
    unfold B1. simpl. by rewrite Hd, Z.eqb_refl, Ea. }
  assert (B1.(folk) !! B.(now) = Some i) as Hi1 by (unfold B1; simpl; by rewrite lookup_alter_ne).
  assert (B1.(folk) !! t = Some (become Running j)) as Hj1 by (unfold B1; simpl; by rewrite lookup_alter_eq, Hj).
  set (B2 := asked (SwitchTo t) B1). set (B3 := {| B2 with line := put (key i) (B.(now) :: B.(line) (key i)) B.(line) |}).
  assert (prio_of t B2 = prio_of t B /\ prio_of B.(now) B2 = prio_of B.(now) B) as [Ep En]
    by (unfold prio_of, B2; simpl; by rewrite lookup_alter_eq, lookup_alter_ne, Hj).
  assert (is_runnable B.(now) B2 = true) as Er by (unfold is_runnable; change (folk B2) with (folk B1); by rewrite Hi1).
  assert (returned B2 = B3) as Eret.
  { unfold returned. change (now B2) with (now B). rewrite Er. apply (enqueue_new _ B2 i Hi1), (steady_out B Hst). }
  assert (run_thread t B3 = {| B3 with now := t |}) as Erun.
  { unfold run_thread. rewrite (dequeue_idle B3 t (become Running j)); [done | | done]. intros k. unfold B3. simpl.
    intros [[?|?]%elem_of_cons|?]%in_put_line; [congruence | by eapply Hout..]. }
  rewrite elect_eq. change (act B2) with (SwitchTo t). change (now B2) with (now B). change (idler B2) with (idler B). cbn iota.
  rewrite Eret, Ep, En, Er, (proj2 (Z.eqb_neq _ _) Hid), (proj2 (Z.ltb_ge _ _)), (proj2 (Z.eqb_neq (prio_of t B) _)) by lia. simpl.
  rewrite Erun. unfold activate, state_of. simpl. rewrite lookup_alter_eq, Hj. simpl.
  unfold place, dom_of, prio_of. rewrite Hi. fold (key i). by rewrite put_eq.
Qed.

(** C20 A thread that is let go and has a higher priority than the current thread of
    its domain runs at the end of that entry of the kernel, and the thread that it
    preempts is the first in the queue of its own priority. *)
Theorem wakeup_preempts s B t :
  refines s B -> steady B -> is_blocked t B = true -> B.(now) <> B.(idler) ->
  dom_of t B = B.(dom_now) -> prio_of B.(now) B < prio_of t B ->
  exists s' B', kernel_entry (Ipc [Unblock t]) s = Ok tt s' /\ refines s' B' /\
    s'.(ksCurThread) = t /\ B'.(line) (place B.(now) B) = B.(now) :: B.(line) (place B.(now) B).
Proof using HC.
  intros HR Hst Hb Hid Hd Hp. destruct (preempt_board B t Hst Hb Hid Hd Hp) as [En El].
  assert (may (Ipc [Unblock t]) B = true) as Hm by (simpl; by rewrite Hb).
  destruct (entry_refines s B _ HR Hst Hm) as (s' & E & H'). exists s', (entry_on (Ipc [Unblock t]) B).
  split_and!; [done..| by rewrite (r_now _ _ H') | done].
Qed.

(** ** Taking turns *)

(** The time that threads still have. *)
Definition turns (B : board) (l : list Z) : nat := sum_list_with (fun t => Z.to_nat (Z.max 1 (slice_of t B))) l.

Lemma turns_ext B B' l : (forall t, t ∈ l -> slice_of t B = slice_of t B') -> turns B l = turns B' l.
Proof.
  unfold turns. induction l as [|t l IH]; intros H; simpl; [done|]. rewrite IH by (intros u Hu; apply H; by right).
  by rewrite H by left.
Qed.

(** [now] runs; [pre] come before [u] in its queue. *)
Record turn (B : board) (p : Z) (pre : list Z) (u : Z) (post : list Z) : Prop := {
  t_steady : steady B;
  t_here : state_of B.(now) B = Running;
  t_dom : B.(dom_now) = 0;
  t_prio : prio_of B.(now) B = p;
  t_line : B.(line) (0, p) = pre ++ u :: post;
}.

Lemma tick_slow B p pre u post :
  CONFIG_NUM_DOMAINS = 1 -> turn B p pre u post -> 1 < slice_of B.(now) B ->
  let B' := entry_on Tick B in
  turn B' p pre u post /\ B'.(now) = B.(now) /\ slice_of B.(now) B' = slice_of B.(now) B - 1 /\
  forall t, t <> B.(now) -> slice_of t B' = slice_of t B.
Proof using HC.
  intros HD HT Hs. pose proof (t_steady _ _ _ _ _ HT) as Hst. pose proof Hst as [[H _] Ea]. destruct (k_here _ _ H) as [i Hi].
  set (f := fun i => {| i with i_slice := i.(i_slice) - 1 |}).
  assert (entry_on Tick B = change B.(now) f B) as E.
  { unfold entry_on. simpl. unfold tick. rewrite bool_decide_true by apply HT. rewrite (proj2 (Z.ltb_lt _ _) Hs), HD. simpl. fold f.
    rewrite elect_eq. simpl. rewrite Ea. rewrite asked_same by done. unfold activate, state_of. simpl. rewrite lookup_alter_eq, Hi. simpl.
    pose proof (t_here _ _ _ _ _ HT) as Hr. unfold state_of in Hr. rewrite Hi in Hr. by rewrite Hr. }
  rewrite E. split_and!; [|done| |].
  - split; try apply HT; [rewrite <- E; by apply entry_steady| |].
    + unfold state_of. simpl. rewrite lookup_alter_eq. pose proof (t_here _ _ _ _ _ HT) as Hr. unfold state_of in Hr. by rewrite Hi in *.
    + rewrite <- (t_prio _ _ _ _ _ HT). by apply (prio_of_change _ _ _ i).
  - unfold slice_of. simpl. by rewrite lookup_alter_eq, Hi.
  - intros t Ht. unfold slice_of. simpl. by rewrite lookup_alter_ne.
Qed.

Lemma turn_key B p pre u post i : turn B p pre u post -> B.(folk) !! B.(now) = Some i -> key i = (0, p) /\ runnable i = true /\ B.(now) <> B.(idler).
Proof.
  intros HT Hi. pose proof (t_steady _ _ _ _ _ HT) as Hst. pose proof (t_here _ _ _ _ _ HT) as Hr. unfold state_of in Hr. rewrite Hi in Hr.
  assert (B.(now) <> B.(idler)) as Hid.
  { intros E. destruct (k_idle _ _ (proj1 (proj1 Hst))) as (j & Hj & Ej). rewrite <- E in Hj. congruence. }
  destruct (steady_now B Hst) as [?|[_ Hd]]; [done|]. pose proof (t_prio _ _ _ _ _ HT) as Hp. pose proof (t_dom _ _ _ _ _ HT) as Hd0.
  unfold dom_of, prio_of in *. rewrite Hi in *. split_and!; [unfold key; congruence | unfold runnable; by rewrite Hr | done].
Qed.

(** No queue of the domain is above that of the current thread. *)
Lemma turn_top B p pre u post l :
  turn B p pre u post -> l <> [] -> top (put (0, p) l B.(line)) 0 = Some p.
Proof.
  intros HT Hl. pose proof (t_steady _ _ _ _ _ HT) as Hst. pose proof Hst as [[H Hc] Ea]. destruct (k_here _ _ H) as [i Hi].
  destruct (turn_key _ _ _ _ _ i HT Hi) as ([= Ed Ep] & _ & _). apply top_Some. rewrite put_eq. split; [|split; [done|]].
  - rewrite <- Ep. apply (k_prio _ _ H _ i Hi).
  - intros q Hq. rewrite put_ne by (intros [=]; lia). destruct (B.(line) (0, q)) as [|v w] eqn:El; [done|]. exfalso.
    destruct (calm_quiet B Hc Ea) as [_ Hquiet]. destruct (Hquiet q v) as [?|[_ Hle]]; [|congruence|].
    + rewrite (t_dom _ _ _ _ _ HT), El. left.
    + rewrite (t_prio _ _ _ _ _ HT) in Hle. lia.
Qed.

(** The board once the current thread has gone to the end of its queue. *)
Definition rotated (B : board) (p : Z) : board :=
  let B1 := change B.(now) (fun i => {| i with i_slice := CONFIG_TIME_SLICE |}) B in
  {| B1 with line := put (0, p) (B.(line) (0, p) ++ [B.(now)]) B.(line); act := ChooseNewThread |}.

Lemma tick_rotates B p pre u post :
  CONFIG_NUM_DOMAINS = 1 -> turn B p pre u post -> slice_of B.(now) B <= 1 -> tick B = rotated B p /\ returned (rotated B p) = rotated B p.
Proof.
  intros HD HT Hs. pose proof (t_steady _ _ _ _ _ HT) as Hst. pose proof Hst as [[H _] Ea]. destruct (k_here _ _ H) as [i Hi].
  destruct (turn_key _ _ _ _ _ i HT Hi) as (Ek & Hr & _). set (f := fun i => {| i with i_slice := CONFIG_TIME_SLICE |}).
  assert ((change B.(now) f B).(folk) !! B.(now) = Some (f i)) as Hi' by (simpl; by rewrite lookup_alter_eq, Hi). split.
  - unfold tick. rewrite bool_decide_true by apply HT. rewrite (proj2 (Z.ltb_ge _ _) Hs), HD. simpl. fold f.
    rewrite (append_new _ _ (f i) Hi') by apply (steady_out B Hst). unfold resched. simpl. rewrite Ea.
    change (key (f i)) with (key i). by rewrite Ek.
  - unfold returned. destruct (is_runnable _ _); [|done]. unfold enqueue, in_line. change (folk (rotated B p)) with (folk (change B.(now) f B)).
    change (now (rotated B p)) with (now B). rewrite Hi'. change (key (f i)) with (key i). rewrite Ek, bool_decide_true; [done|].
    simpl. rewrite put_eq. apply elem_of_app. right. left.
Qed.

Lemma next_domain_only B : CONFIG_NUM_DOMAINS = 1 -> B.(dom_now) = 0 ->
  (next_domain B).(dom_now) = 0 /\ (next_domain B).(line) = B.(line) /\ (next_domain B).(folk) = B.(folk).
Proof using HC.
  intros HD H0. unfold next_domain. destruct (ksDomSchedule !! _) as [d|] eqn:E; [|done]. simpl.
  pose proof (config_domain d (list_elem_of_lookup_2 _ _ _ E)). split; [lia | done].
Qed.

Lemma choose_first B p a l j :
  top B.(line) B.(dom_now) = Some p -> B.(line) (B.(dom_now), p) = a :: l -> NoDup (a :: l) ->
  B.(folk) !! a = Some j -> key j = (B.(dom_now), p) ->
  choose B = {| B with now := a; line := put (B.(dom_now), p) l B.(line) |}.
Proof.
  intros Htop El Hnd Hj Ek. unfold choose, run_thread, dequeue. rewrite Htop, El.
  rewrite (proj2 (in_line_true a B j Hj)) by (rewrite Ek, El; left).
  by rewrite (with_line_eq a _ B j Hj), Ek, El, (remove_split a [] l Hnd : remove a (a :: l) = l).
Qed.

Lemma activate_facts B : steady B ->
  let B' := activate B in
  B'.(now) = B.(now) /\ B'.(dom_now) = B.(dom_now) /\ B'.(line) = B.(line) /\
  (is_runnable B.(now) B = true -> state_of B.(now) B' = Running) /\
  forall t, prio_of t B' = prio_of t B /\ slice_of t B' = slice_of t B.
Proof.
  intros Hst. destruct (k_here _ _ (proj1 (proj1 Hst))) as [i Hi]. destruct (activate_eq B Hst) as [E|[-> Es]].
  - rewrite E. split_and!; try done. unfold is_runnable, runnable. rewrite Hi. intros Hr. unfold state_of. rewrite Hi.
    unfold activate, state_of in E. rewrite Hi in E. destruct (i_state i) eqn:Ei; try done.
    apply (f_equal (fun B => state_of B.(now) B)) in E. rewrite (proj1 (set_state_regs _ _ _)) in E. unfold state_of in E.
    rewrite folk_set_state, lookup_alter_eq, Hi in E. simpl in E. congruence.
  - split_and!; try done; [intros _; unfold state_of; simpl; by rewrite lookup_alter_eq, Hi|].
    intros t. unfold prio_of, slice_of. simpl. destruct (decide (t = B.(now))) as [->|]; [by rewrite lookup_alter_eq, Hi | by rewrite lookup_alter_ne].
Qed.

(** The first of the queue runs, the others move up. *)
Lemma tick_fast B p a l u post pre :
  CONFIG_NUM_DOMAINS = 1 -> turn B p pre u post -> pre ++ u :: post = a :: l -> slice_of B.(now) B <= 1 ->
  let B' := entry_on Tick B in
  steady B' /\ B'.(now) = a /\ state_of a B' = Running /\ B'.(dom_now) = 0 /\ prio_of a B' = p /\
  B'.(line) (0, p) = l ++ [B.(now)] /\ forall t, t <> B.(now) -> slice_of t B' = slice_of t B.
Proof using HC.
  intros HD HT El Hs. pose proof (t_steady _ _ _ _ _ HT) as Hst. pose proof Hst as [[H _] Ea].
  destruct (tick_rotates B p pre u post HD HT Hs) as [Et Er]. pose proof (t_line _ _ _ _ _ HT) as Hl. rewrite El in Hl.
  assert (a ∈ B.(line) (0, p)) as Ha by (rewrite Hl; left). destruct (k_line _ _ H a _ Ha) as (j & Hj & Ej & Hrj).
  assert (a <> B.(now)) as Hne by (intros ->; by apply (steady_out B Hst) in Ha).
  assert (NoDup (a :: (l ++ [B.(now)]))) as Hnd.
  { apply (NoDup_app (a :: l) [B.(now)]). split_and!; [rewrite <- Hl; apply H | | apply NoDup_singleton].
    intros v Hv ->%list_elem_of_singleton. rewrite <- Hl in Hv. by apply (steady_out B Hst) in Hv. }
  set (B3 := rotated B p) in *. set (B4 := if dom_left B3 =? 0 then next_domain B3 else B3).
  assert (B4.(dom_now) = 0 /\ B4.(line) = B3.(line) /\ B4.(folk) = B3.(folk)) as (Ed & El4 & Ef).
  { subst B4. destruct (_ =? 0); [|split; [apply (t_dom _ _ _ _ _ HT) | done]]. apply next_domain_only; [done | apply (t_dom _ _ _ _ _ HT)]. }
  assert (B4.(folk) !! a = Some j) as Hj4 by (rewrite Ef; unfold B3; simpl; by rewrite lookup_alter_ne).
  assert (B4.(line) (0, p) = a :: (l ++ [B.(now)])) as Hl4 by (rewrite El4; unfold B3; simpl; by rewrite put_eq, Hl).
  assert (elect (tick B) = asked ResumeCurrentThread {| B4 with now := a; line := put (0, p) (l ++ [B.(now)]) B4.(line) |}) as Eel.
  { rewrite Et, elect_eq. simpl. fold B3. rewrite Er. unfold choose_new. fold B4.
    rewrite (choose_first B4 p a (l ++ [B.(now)]) j); rewrite ?Ed; try done. rewrite El4. eapply turn_top; [done|]. by rewrite Hl. }
  assert (steady (elect (tick B))) as Hse by (by apply elect_steady, tick_sound).
  split; [by apply entry_steady|]. unfold entry_on. simpl. destruct (activate_facts _ Hse) as (-> & -> & -> & Hrun & Hps).
  split_and!; [by rewrite Eel | | by rewrite Eel | | rewrite Eel; simpl; by rewrite put_eq |].
  - replace a with (elect (tick B)).(now) by (by rewrite Eel). apply Hrun. rewrite Eel. unfold is_runnable. simpl. by rewrite Hj4.
  - rewrite (proj1 (Hps a)). rewrite Eel. unfold prio_of. simpl. rewrite Hj4. by injection Ej.
  - intros t Ht. rewrite (proj2 (Hps t)). rewrite Eel. unfold slice_of. simpl. rewrite Ef. unfold B3. simpl. by rewrite lookup_alter_ne.
Qed.

Lemma entries_app es es' B : entries_on (es ++ es') B = entries_on es' (entries_on es B).
Proof. apply foldl_app. Qed.

Lemma entries_S n B : entries_on (replicate (S n) Tick) B = entries_on (replicate n Tick) (entry_on Tick B).
Proof. done. Qed.

(** All of a time slice but its last tick. *)
Lemma slice_used n B p pre u post :
  CONFIG_NUM_DOMAINS = 1 -> turn B p pre u post -> Z.to_nat (Z.max 1 (slice_of B.(now) B)) = S n ->
  let B' := entries_on (replicate n Tick) B in
  turn B' p pre u post /\ B'.(now) = B.(now) /\ slice_of B.(now) B' <= 1 /\ forall t, t <> B.(now) -> slice_of t B' = slice_of t B.
Proof using HC.
  intros HD. revert B. induction n as [|n IH]; intros B HT Hn; [split_and!; try done; simpl; lia|]. rewrite entries_S.
  destruct (tick_slow B p pre u post HD HT) as (HT1 & En & Es & Hs); [lia|].
  remember (entry_on Tick B) as B1 eqn:E1. clear E1. rewrite <- En.
  destruct (IH _ HT1) as (HT2 & En2 & Es2 & Hs2); [rewrite En, Es; lia|]. split_and!; [done..|].
  intros t Ht. rewrite Hs2 by done. apply Hs. by rewrite <- En.
Qed.

(** A thread of the queue of the current thread runs once those before it have
    used their time. *)
Lemma turn_comes B p pre u post :
  CONFIG_NUM_DOMAINS = 1 -> turn B p pre u post ->
  (entries_on (replicate (turns B (B.(now) :: pre)) Tick) B).(now) = u.
Proof using HC.
  intros HD. revert B post. induction pre as [|a pre IH]; intros B post HT;
    assert (exists n, Z.to_nat (Z.max 1 (slice_of B.(now) B)) = S n) as [n Hn] by (exists (Z.to_nat (Z.max 1 (slice_of B.(now) B)) - 1)%nat; lia);
    destruct (slice_used n B p _ u post HD HT Hn) as (HT1 & En & Es & Hs); rewrite <- En in Es;
    unfold turns; simpl; rewrite Hn.
  - replace (S n + 0)%nat with (n + 1)%nat by lia. rewrite replicate_add, entries_app.
    destruct (tick_fast _ p u post u post [] HD HT1 eq_refl Es) as (_ & E & _). rewrite (entries_S 0). exact E.
  - destruct (tick_fast _ p a (pre ++ u :: post) u post (a :: pre) HD HT1 eq_refl Es) as (Hst & Ea & Er & Ed & Ep & El & Hs').
    remember (entry_on Tick (entries_on (replicate n Tick) B)) as B2 eqn:E2. rewrite En in *.
    assert (turn B2 p pre u (post ++ [B.(now)])) as HT2.
    { split; rewrite ?Ea; try done. by rewrite El, <- app_assoc. }
    assert (forall t, t ∈ a :: pre -> slice_of t B2 = slice_of t B) as Hsame.
    { intros t Ht. assert (t <> B.(now)) as Hne.
      - intros ->. apply (steady_out B (t_steady _ _ _ _ _ HT) (0, p)). rewrite (t_line _ _ _ _ _ HT). by apply (elem_of_app (a :: pre)); left.
      - by rewrite Hs', Hs. }
    replace (S n + _)%nat with (n + (1 + turns B2 (B2.(now) :: pre)))%nat.
    + rewrite replicate_add, entries_app, (entries_S (turns B2 (B2.(now) :: pre))), <- E2. by apply (IH B2 _ HT2).
    + rewrite Ea, (turns_ext B2 B) by done. unfold turns. simpl. lia.
Qed.

(** C9 Threads of one priority take turns.  When only the timer ticks, a thread in
    the queue of the current thread's priority becomes the current thread after
    exactly as many ticks as the current thread and the threads before it in the
    queue have left of their time slices. *)
Theorem round_robin s B pre u post :
  CONFIG_NUM_DOMAINS = 1 -> refines s B -> steady B -> state_of B.(now) B = Running ->
  B.(line) (0, prio_of B.(now) B) = pre ++ u :: post ->
  exists s', for_each (replicate (turns B (B.(now) :: pre)) Tick) kernel_entry s = Ok tt s' /\ s'.(ksCurThread) = u.
Proof using HC.
  intros HD HR Hst Hr Hl. pose proof (r_dom_range _ _ HR) as Hd. rewrite HD in Hd.
  assert (turn B (prio_of B.(now) B) pre u post) as HT by (split; try done; lia).
  assert (forall n B', may_all (replicate n Tick) B' = true) as Hm by (induction n as [|n IH]; intros B'; [done | apply IH]).
  destruct (entries_refine _ s B HR Hst (Hm (turns B (B.(now) :: pre)) B)) as [(s' & E & H') _].
  exists s'. split; [done|]. rewrite (r_now _ _ H'). by eapply turn_comes.
Qed.

End run.
