(* ===== verification/SchedDemo.v ===== *)
(** * A small system of threads

    The scheduler with the options of the server's build, a few threads, and the
    state in which all its queues are empty: the theorems of [SchedRun] at
    concrete runs. *)
From S2P Require Import Prelude Dlist Ntfn Sched SchedSpec SchedRefine SchedSound SchedRun.

#[local] Existing Instance aos_config.

#[local] Instance aos_config_ok : ConfigOk.
Proof.
  split; simpl; [lia | unfold CONFIG_NUM_PRIORITIES; lia | lia |]. intros d ->%list_elem_of_singleton. simpl. lia.
Qed.

(** ** The system *)

(** The idle thread, the one that runs, and three that wait. *)
Definition demo_threads : gmap Z sthread := list_to_map [
  (1, Sthread IdleThreadState false 0 0 0 5 0 0);
  (10, Sthread Running false 0 255 100 2 0 0);
  (11, Sthread BlockedOnReceive false 0 255 200 5 0 0);
  (12, Sthread BlockedOnNotification false 0 255 100 1 0 0);
  (13, Sthread Inactive false 0 255 100 3 0 0)].

Definition demo_queues : gmap Z tcb_queue := list_to_map ((fun i => (i, Queue 0 0)) <$> zseq 0 256).
Definition demo_words : gmap (Z * Z) Z := list_to_map ((fun i => ((0, i), 0)) <$> zseq 0 4).

Definition demo : sched := {|
  sthreads := demo_threads;
  ksReadyQueues := demo_queues;
  ksReadyQueuesL1Bitmap := {[0 := 0]};
  ksReadyQueuesL2Bitmap := demo_words;
  ksCurThread := 10;
  ksIdleThread := 1;
  ksSchedulerAction := ResumeCurrentThread;
  ksCurDomain := 0;
  ksDomainTime := 1;
  ksDomScheduleIdx := 0;
  ksWorkUnitsCompleted := 0;
|}.

Definition demo_board : board := Board (info_of <$> demo_threads) (fun _ => []) 10 1 ResumeCurrentThread 0 1 0.

Lemma lookup_zseq {A K} `{Countable K} (f : Z -> K) (v : A) n i :
  (forall a b, f a = f b -> a = b) -> 0 <= i < Z.of_nat n ->
  (list_to_map ((fun i => (f i, v)) <$> zseq 0 n) : gmap K A) !! f i = Some v.
Proof.
  intros Hf Hi. apply elem_of_list_to_map_1.
  - rewrite <- list_fmap_compose. apply NoDup_fmap_2; [|apply NoDup_zseq]. intros a b. simpl. apply Hf.
  - apply list_elem_of_fmap. exists i. split; [done|]. apply elem_of_zseq. lia.
Qed.

Lemma demo_queue_at p : 0 <= p < 256 -> demo_queues !! p = Some (Queue 0 0).
Proof. apply (lookup_zseq id (Queue 0 0) 256). done. Qed.

Lemma demo_word_at i : 0 <= i < 4 -> demo_words !! (0, 3 - i) = Some 0.
Proof. intros Hi. apply (lookup_zseq (fun i => (0, i)) 0 4); [by intros a b [=] | lia]. Qed.

#[local] Opaque demo_queues demo_words.

Lemma demo_refines : refines demo demo_board.
Proof.
  split; try done.
  - intros t i. simpl. rewrite lookup_fmap. intros (x & Hx & ->)%fmap_Some.
    assert (map_Forall (fun _ x => x.(tcbDomain) = 0 /\ 0 <= x.(tcbPriority) < 256) demo_threads) as Hall by (apply (bool_decide_eq_true_1 _); vm_compute; reflexivity).
    apply Hall in Hx as [Hd Hp]. unfold valid, key. simpl. by rewrite Hd.
  - intros [d p] [Hd Hp]. exists (Queue 0 0). split; [|done]. simpl in Hd, Hp. assert (d = 0) as -> by lia.
    by apply demo_queue_at.
  - intros k. apply NoDup_nil_2.
  - intros t k. split; [by rewrite elem_of_nil|]. intros (i & Hi & _). exfalso. rewrite lookup_fmap in Hi.
    assert (map_Forall (fun _ x => x.(tcbQueued) = false) demo_threads) as Hall by (apply (bool_decide_eq_true_1 _); vm_compute; reflexivity).
    apply fmap_Some in Hi as (x & Hx & [= _ E]). apply Hall in Hx. congruence.
  - split; simpl in *.
    + intros d Hd. assert (d = 0) as -> by lia. exists 0. split_and!; try done. intros i. rewrite Z.bits_0.
      split; [done|]. intros (Hi & v & Hv & Hv0). rewrite demo_word_at in Hv by done. congruence.
    + intros d i Hd Hi. assert (d = 0) as -> by lia. exists 0. split_and!; [by apply demo_word_at | done..|]. intros b _. by rewrite Z.bits_0.
Qed.

Lemma demo_steady : steady demo_board.
Proof.
  split; [|done]. split; [split|].
  - intros t k []%elem_of_nil.
  - intros k. apply NoDup_nil_2.
  - intros t i Hi Hr. left.
    assert (map_Forall (fun t i => runnable i = true -> t = 10) demo_board.(folk)) as Hall by (apply (bool_decide_eq_true_1 _); vm_compute; reflexivity).
    by apply (Hall t i Hi).
  - by eexists.
  - by eexists.
  - assert (map_Forall (fun t i => 0 <= i.(i_prio) < 256) demo_board.(folk)) as Hall by (apply (bool_decide_eq_true_1 _); vm_compute; reflexivity).
    apply Hall.
  - split; [split|]; [by intros k ?%elem_of_nil | by intros p u ?%elem_of_nil | by right].
Qed.

(** ** Runs *)

(** Three threads of one priority, the current one first. *)
Definition crowd : list entry := [Ipc [Unblock 12]; Resume 13].
Definition crowd_board : board := entries_on crowd demo_board.
Definition crowded : sched := final (for_each crowd kernel_entry demo) demo.

Lemma crowded_ok : refines crowded crowd_board /\ steady crowd_board.
Proof.
  destruct (entries_refine crowd demo demo_board demo_refines demo_steady) as [(s & E & H) Hst]; [vm_compute; reflexivity|].
  unfold crowded. rewrite E. exact (conj H Hst).
Qed.

Lemma crowd_line : crowd_board.(now) = 10 /\ crowd_board.(line) (0, 100) = [13; 12].
Proof. by vm_compute. Qed.

Definition busy : list entry :=
  [Ipc [Unblock 12]; Resume 13; Ipc [Unblock 11; Block BlockedOnReply]; Tick; SetPriority 12 250; Yield;
   CancelAll [10]; Suspend 12; Ipc [Block BlockedOnReceive]; Tick].

Lemma scheduler_refines_witness :
  exists s', for_each busy kernel_entry demo = Ok tt s' /\ refines s' (entries_on busy demo_board) /\ steady (entries_on busy demo_board).
Proof. apply (scheduler_refines demo demo_board busy); [apply demo_refines | apply demo_steady | vm_compute; reflexivity]. Defined.

Lemma scheduler_runs_highest_witness :
  exists s', for_each busy kernel_entry demo = Ok tt s' /\
    forall t x, s'.(sthreads) !! t = Some x -> isRunnable x = true -> x.(tcbDomain) = s'.(ksCurDomain) ->
    exists y, s'.(sthreads) !! s'.(ksCurThread) = Some y /\ isRunnable y = true /\
      y.(tcbDomain) = s'.(ksCurDomain) /\ x.(tcbPriority) <= y.(tcbPriority).
Proof. apply (scheduler_runs_highest demo demo_board busy); [apply demo_refines | apply demo_steady | vm_compute; reflexivity]. Defined.

Lemma highest_priority_found_witness :
  getHighestPrio 0 crowded = Ok 100 crowded /\ exists s', chooseThread crowded = Ok tt s' /\ s'.(ksCurThread) = 13.
Proof.
  assert (0 <= 0 < 1) as Hd by lia. assert (top crowd_board.(line) 0 = Some 100) as Htop by (vm_compute; reflexivity).
  destruct (highest_priority_found crowded crowd_board 0 100 (proj1 crowded_ok) Hd Htop) as [H1 H2].
  split; [exact H1|]. destruct H2 as (s' & t & E & Et & Ht); [vm_compute; reflexivity | intros u k Hu; by apply (line_runnable none _ _ _ (proj1 (proj1 (proj2 crowded_ok))) Hu) |].
  exists s'. split; [exact E|]. assert (Some t = Some 13) as [= ->] by (rewrite <- Ht; vm_compute; reflexivity). exact Et.
Defined.

Lemma wakeup_preempts_witness :
  exists s' B', kernel_entry (Ipc [Unblock 11]) crowded = Ok tt s' /\ refines s' B' /\
    s'.(ksCurThread) = 11 /\ B'.(line) (0, 100) = [10; 13; 12].
Proof.
  destruct (wakeup_preempts crowded crowd_board 11) as (s' & B' & E & HR & Ec & El);
    [exact (proj1 crowded_ok) | exact (proj2 crowded_ok) | vm_compute; reflexivity | by vm_compute | vm_compute; reflexivity | vm_compute; reflexivity |].
  exists s', B'. split_and!; [exact E | exact HR | exact Ec |]. etrans; [exact El|]. vm_compute; reflexivity.
Defined.

(** Two ticks for thread 10, three for thread 13: then thread 12 runs. *)
Lemma round_robin_witness :
  exists s', for_each (replicate 5 Tick) kernel_entry crowded = Ok tt s' /\ s'.(ksCurThread) = 12.
Proof.
  apply (round_robin crowded crowd_board [13] 12 []);
    [reflexivity | exact (proj1 crowded_ok) | exact (proj2 crowded_ok) | vm_compute; reflexivity | vm_compute; reflexivity].
Defined.
